(* ===== verification/_CoqProject ===== *)
-Q . S2P
Prelude.v
LinkedList.v
KState.v
P2p.v
Ctrl.v
Map.v
QidPool.v
QGroup.v
Inv.v
DevIoctl.v
DevFile.v
DevInv.v
AddQueue.v
DevStep.v
Control.v
ControlInv.v
System.v
Machine.v
PhaseRing.v
UserQueue.v
UserWait.v
UserCmd.v
KernelRing.v
KernelCq.v
KernelPrp.v
KernelMap.v
IoQueues.v
IoQueuesInv.v
Lifecycle.v
ParallelQueue.v
ParallelInv.v
ParallelCq.v
ParallelCqInv.v
ReqSetup.v
ReqLife.v
ReqTimeout.v
HostMem.v
HostMemInv.v
DevLife.v
DevLifeInv.v
NsIdent.v
NsDisk.v
Namespace.v
NsInv.v
NsOps.v
NsAlloc.v
NsScan.v
NsSteady.v
GpuTopo.v
GpuTopoInv.v
SpecQueues.v
SpecMemory.v
SpecControl.v
SpecUser.v
SpecKernel.v
ReqInv.v
SpecRequest.v
SpecTimeout.v
SpecHostMem.v
SpecIoQueues.v
SpecDevLife.v
SpecParallel.v
SpecParallelCq.v
SpecNamespace.v
SpecTopo.v
Findings.v
FindingsParallel.v
FindingsRequest.v
FindingsHostMem.v
FindingsDevLife.v
FindingsNamespace.v
FindingsTopo.v
