(* ===== verification/Prelude.v ===== *)
(** * The snvme kernel module and its user library

    GeminiFS lets user processes and accelerators drive an NVMe SSD themselves.
    Its base is a fork of the Linux NVMe driver, the module snvme, which keeps a
    part of the controller's queues for the kernel and hands the others to user
    space.  This development models the fork for Linux 5.10 and NPUs
    (src/backends/local/kernel_modules/snvme-5.10-npu) and the C part of the
    library that drives the queues handed out
    (src/backends/local/nvme/libnvm/include).

    ** The program

    A process first opens /dev/snvm_control (pci.c) to create a controller object
    (ctrl.c) with its character device /dev/ssnvme<N>, and to bind the PCI device
    to snvme.  Binding resets the controller ([nvme_reset_work]): the driver
    negotiates the number of I/O queues, creates its own and leaves the remaining
    ids as a pool.  On /dev/ssnvme<N> the process creates queue groups, pins and
    maps the memory of its rings and buffers (map.c; device memory through
    npu-p2p.c or nvfs-p2p.c), and creates queue pairs on these rings with ids of
    the pool.  It then maps the doorbell registers and submits commands with the
    inline functions of nvm_queue.h and nvm_cmd.h.  Meanwhile the kernel submits
    its own requests through its own queues (pci.c).  Closing the file takes
    everything back.

    ** The files

    Prelude.v: record update, machine integers, the state-and-fault monad [K] with
    its weakest precondition [wp], its rules and tactics.  A computation that
    faults (a dangling pointer, an index out of range) is [None], and [wp] excludes
    it, so every [wp] is a statement of total correctness; [wlp], for the calls that
    can fault, says what holds if they return.

    The module
    - LinkedList.v: list.c and list.h on a heap of nodes.
    - KState.v: the structures of ctrl.h, map.h, ioctl.h and pci.c, the state
      [snvm] of the loaded module, and the class [kenv] of the kernel's answers.
    - P2p.v: the interface [P2pBackend] with its laws [P2pLaws] and two instances,
      [Npu] (npu-p2p.c) and [Nvidia] (nvfs-p2p.c).
    - Ctrl.v (ctrl.c), Map.v (map.c, proved against [P2pBackend]), QidPool.v and
      QGroup.v (queue ids and groups, pci.c).
    - DevIoctl.v and DevFile.v: the ioctls and file operations of /dev/ssnvme<N>;
      Control.v: /dev/snvm_control, loading and unloading.
    - Inv.v, DevInv.v, AddQueue.v, DevStep.v, ControlInv.v: the invariant [Inv] and
      that every call keeps it.  System.v: the calls as a transition system.
      Machine.v: a concrete kernel and a session on it, for the witnesses.

    The queues
    - PhaseRing.v: the theory of rings with a phase tag, shared by the next two.
    - UserQueue.v, UserWait.v and UserCmd.v: nvm_queue.h, nvm_util.h, nvm_cmd.h and
      the host functions of queue.cpp.
    - ParallelQueue.v and ParallelCq.v: nvm_parallel_queue.h, the queues that many
      GPU threads share, with every atomic access as a step; ParallelInv.v and
      ParallelCqInv.v: what relates tickets, marks, locks and the rings.
    - KernelRing.v, KernelCq.v, KernelPrp.v, KernelMap.v: submission, completion,
      PRP lists, and the mapping of requests in pci.c (with nvme.h and core.c).
    - IoQueues.v and IoQueuesInv.v: [s_nvme_setup_io_queues] and all it calls.
    - Lifecycle.v: the state machine of the controller (core.c) with the threads
      that use it as interleaved actions.
    - ReqSetup.v: commands for block requests ([snvme_setup_cmd], core.c, zns.c);
      ReqLife.v: dispatch, completion and retry ([nvme_queue_rq], pci.c, with the
      rings and mappings above; [snvme_complete_rq], core.c); ReqInv.v: their lemmas;
      ReqTimeout.v: [nvme_timeout] and aborts (pci.c) as interleaved steps.
    - HostMem.v: the host memory buffer of a controller, its attribute, and the
      suspension and resumption of the device (pci.c); HostMemInv.v: its invariant.
    - DevLife.v: [nvme_probe], [nvme_reset_work], [nvme_dev_disable], [nvme_remove] and
      the freeing of a device (pci.c, core.c), with every resource; DevLifeInv.v:
      which are held in each phase.
    - NsIdent.v: the identifiers of namespaces and the lists of descriptors they are
      read from; NsDisk.v: the limits and the size of the block device of a namespace
      ([nvme_update_ns_info], core.c, zns.c); Namespace.v: the namespaces of the
      controllers of a subsystem, their heads, references and lists, and how scanning,
      removal, opening and closing change them (core.c).  NsInv.v: the invariant
      [ns_inv]; NsOps.v, NsAlloc.v and NsScan.v: that the operations keep it; NsSteady.v:
      what a scan does when the controller's answers do not change.
    - GpuTopo.v: the table of GPUs and NVMe devices with the rank of every pair
      (nvfs-pci.c, nvfs-pci.h); GpuTopoInv.v: its lemmas and the laws of a PCI tree.

    ** The theorems

    - SpecQueues.v, C1-C7 and C9: ids of live queues are unique and are those marked in
      the pool; every call from a reachable state but a few that are named returns
      without a memory fault;
      NVM_ADD_USER_QUEUE is exact on success and leaves nothing on failure but the
      queues whose deletion the controller refused; release
      and destruction take everything back in the right order; groups of other
      files cannot be named; doorbells do not overlap; the pool is exact.
    - SpecMemory.v, C11-C13 and C15: mapping and release are inverse for host and
      device memory, a failed mapping has undone exactly what it did (and, for host
      memory, a little more), purging is exact, the backends keep their promises.
      LinkedList.v, C18: the list refines a sequence.
    - SpecControl.v, C24: unloading leaves nothing; further theorems on creation,
      removal, binding and mmap.
    - SpecUser.v, C28-C30: the user submission queue refines a bounded FIFO, the
      completion queue delivers in order under every interleaving with the
      controller, PRP lists mean what they were built from.
    - SpecParallel.v, C32, and SpecParallelCq.v, C31 and C33: threads that share a
      queue do not disturb each other, each gets its own completion, and one that is
      left alone with its predecessors done returns.
    - SpecKernel.v, C34-C38: the driver's own queues: doorbells, the completion
      handler, command ids, data pointers, and the balance of resources.
    - SpecRequest.v, C10, C14, C19 and C27: a dispatch is all or nothing, commands
      address exactly the bytes of their requests, a request ends once after a
      number of attempts that is bounded, and that is lower for a ready controller.
      SpecTimeout.v, C22: aborts stay within the limit.
    - SpecHostMem.v, C17 and C26: the host memory buffer is always exactly what the
      driver recorded, and the controller never uses memory that was freed.
    - SpecDevLife.v, C23: from probe to the last reference no resource is lost, given
      back twice or used when it is not there, whatever but three calls fails on the
      way; the contract
      assumed of the queue set-up is proved of IoQueues.v.
    - SpecNamespace.v, C16, C20, C21 and C25: descriptor lists are read exactly; every
      sequence of scans, removals, opens and closes is free of faults and counts every
      reference; scanning converges to the controller's namespaces; the block device has
      the geometry of the format.
    - SpecTopo.v, C8: the topology table finds every device and ranks peers by their
      distance in the PCI tree and their bandwidth; its statistics show every operation.
    - SpecIoQueues.v, C39: queue set-up terminates and is safe whatever fails.
    - Lifecycle.v, C40: a reset has one owner, and a removal is final.
    - Findings.v, FindingsParallel.v, FindingsRequest.v, FindingsHostMem.v,
      FindingsDevLife.v, FindingsNamespace.v, FindingsTopo.v: runs that show where
      the code falls short of its comments or of these theorems' assumptions.

    ** Assumptions

    What the kernel, the hardware and the NVIDIA driver answer is a parameter
    ([kenv], [P2pBackend], [ioq_env], [hmb_env], [dl_env], [ns_env], [pci_env],
    arguments of the functions) that may answer differently at every call; the laws
    assumed of it are fields of [P2pLaws], [ioq_env_laws], [hmb_env_laws], [dl_env_laws],
    [ns_env_laws] and [pci_laws] or hypotheses of the theorem, and the witnesses give
    instances.  Addresses of pinned pages are never reused.  A call into the module is
    one step (System.v says where the code drops a lock in between), and a controller
    is not removed while a file is open on it, nor is a ninth created (C1-C7, C24); the operations on the namespaces of a subsystem run one after the other;
    the GPU queues, the life cycle of the controller and the timeouts are
    interleaved access by access, sequentially consistent. Some theorems need a
    bound that the code does not check, and Findings.v shows what happens outside
    it: the length of a user queue divides 2^16 (C28), there is room for the list
    pointers of a request (C37, C38), the legacy user queues are fewer than the
    kernel's (C39), the doorbell array fits 32 bits (C39), a shared queue has
    seen fewer than 2^32 commands (C31-C33), an id of a shared queue is taken again
    only when the head is past its last entry (C31, C33), the completion searched for
    has no error status (C31), shadow doorbells are 0 when a queue starts (C34, C35), a
    segment is at most 2^32 - 65536 bytes (C15), a controller does not
    refuse to give the host memory buffer up (C26), a resumption does not fail in the
    middle of another reset (C40), the BAR can be mapped
    again, the queue for admin commands can be made and the shadow doorbells are
    taken when all queues are online (C23), the descriptors of a namespace fit their
    page, its blocks have at least 512 bytes, its limits fit their integers and its
    character device can be added (C20, C21, C25), the controller is alone in its subsystem and answers the same
    again (C21), at most 64 GPUs and 64 NVMe devices lie below fewer than 16 bridges and
    none has the address 0 (C8), and a discard that is sent again is not failed before
    it is set up (C10).

    ** Fuel

    Loops whose recursion is not structural carry fuel and fault without it: the
    PRP and SGL loops (one unit per page or element), the completion handler (one
    per entry that can be posted), the purge and unload loops (the length of the
    list), the sizes of chunks tried for the host memory buffer (the logarithm of the
    first), the retries of the queue set-up (the length of [dev->queues]), the
    deletion of queues (twice the number of queues) and the descriptors of a page (one
    per five bytes).  The theorems prove that this is enough, so they are statements of
    termination too.  A scan is given the number of pages it may read and says when
    they were not enough, since a controller can make it endless; C21 says how many are.

    ** Not modelled

    Locking inside handlers and memory ordering; the remaining kernel code of core.c
    and pci.c (identification of the controller, sysfs, keep-alive, the CMB, registers
    other than those of the queues), the fabrics, RDMA, TCP and
    multipath files, which are unchanged kernel code; the two sibling forks for other
    kernels; everything in C++, CUDA and Python above the library (api, device_manager, filesystems, io_engine,
    memory, nvme_storage, runtime, NVMeService), and the test programs. *)
From stdpp Require Export base tactics list gmap fin_sets strings numbers pretty.
From stdpp Require Export ssreflect.

#[global] Open Scope Z_scope.

(** * Record update *)

(** [Settable R] names the eta-expansion of a record type [R]; the setter of a
    projection is computed from it by abstracting the projection out. *)
Class Settable (R : Type) := eta : R → R.

Class Setter {R T : Type} (proj : R → T) := upd : (T → T) → R → R.

Arguments upd {R T} proj {_} _ _ /.

Ltac derive_setter :=
  match goal with
  | |- @Setter ?R ?T ?proj =>
    let e := constr:(_ : Settable R) in
    let h := eval hnf in e in
    let h' := eval pattern proj in h in
    match h' with
    | ?F proj => exact (fun f => F (fun r => f (proj r)))
    end
  end.

#[export] Hint Extern 1 (Setter _) => derive_setter : typeclass_instances.

Declare Scope snvm_scope.
Delimit Scope snvm_scope with snvm.
Notation "r <{ p := v }>" := (upd p (λ _, v) r)
  (at level 1, left associativity, p at level 1, v at level 200,
   format "r <{ p  :=  v }>") : snvm_scope.
Notation "r <{ p ::= f }>" := (upd p f r)
  (at level 1, left associativity, p at level 1, f at level 200,
   format "r <{ p  ::=  f }>") : snvm_scope.
#[global] Open Scope snvm_scope.

(** * Machine integers

    A C integer of width [w] is a [Z] in its range; the functions below are the
    conversions the source performs, by assignment or by cast. *)

Definition u8 (z : Z) : Z := z mod 2 ^ 8.
Definition u16 (z : Z) : Z := z mod 2 ^ 16.
Definition u32 (z : Z) : Z := z mod 2 ^ 32.
Definition u64 (z : Z) : Z := z mod 2 ^ 64.
Definition s32 (z : Z) : Z := (z + 2 ^ 31) mod 2 ^ 32 - 2 ^ 31.

(** C truth values: [!!x] and the [int] a comparison yields. *)
Definition c_bool (b : bool) : Z := if b then 1 else 0.
Definition c_true (z : Z) : bool := negb (z =? 0).

(** Error numbers of <asm-generic/errno-base.h> and <asm-generic/errno.h>;
    functions return them negated. *)
Definition ENOENT : Z := 2.
Definition EIO : Z := 5.
Definition EBADF : Z := 9.
Definition EAGAIN : Z := 11.
Definition ENOMEM : Z := 12.
Definition EACCES : Z := 13.
Definition EFAULT : Z := 14.
Definition EBUSY : Z := 16.
Definition ENODEV : Z := 19.
Definition EINVAL : Z := 22.
Definition ENOTTY : Z := 25.
Definition ENOSPC : Z := 28.

(** Page geometry.  [PAGE_MASK] is [~(PAGE_SIZE - 1)]. *)
Definition PAGE_SIZE : Z := 4096.
Definition page_align (sz a : Z) : Z := Z.land a (Z.lnot (sz - 1)).

(** * A state monad with faults

    [K S A] is a computation over the state [S] that either returns a value and
    a state or faults.  A fault ([None]) is undefined behaviour of the C code:
    a dereference of a NULL, freed or uninitialised pointer, or a loop that
    exceeds the iteration bound given for it. *)
Definition K (S A : Type) : Type := S → option (A * S).

#[global] Instance K_ret S : MRet (K S) := λ A a s, Some (a, s).
#[global] Instance K_bind S : MBind (K S) := λ A B f m s,
  match m s with
  | Some (a, s') => f a s'
  | None => None
  end.

Definition fault {S A} : K S A := λ _, None.
Definition get {S} : K S S := λ s, Some (s, s).
Definition gets {S A} (f : S → A) : K S A := λ s, Some (f s, s).
Definition modify {S} (f : S → S) : K S unit := λ s, Some (tt, f s).
Definition from_option_k {S A} (o : option A) : K S A := λ s,
  match o with
  | Some a => Some (a, s)
  | None => None
  end.
Definition when {S} (b : bool) (m : K S unit) : K S unit :=
  if b then m else mret tt.

(** [for (x in xs) f(x)]. *)
Fixpoint kfor {S A} (f : A → K S unit) (xs : list A) : K S unit :=
  match xs with
  | [] => mret tt
  | x :: xs => f x;; kfor f xs
  end.

(** * Weakest preconditions *)

(** [wp m Q s]: run from [s], [m] does not fault and its result satisfies [Q]. *)
Definition wp {S A} (m : K S A) (Q : A → S → Prop) (s : S) : Prop :=
  match m s with
  | Some (a, s') => Q a s'
  | None => False
  end.

Section wp_rules.
Context {S : Type}.
Implicit Types s : S.

Lemma wp_ret {A} (a : A) (Q : A → S → Prop) s : Q a s → wp (mret a) Q s.
Proof. done. Qed.

Lemma wp_bind {A B} (m : K S A) (k : A → K S B) Q s :
  wp m (λ a, wp (k a) Q) s → wp (m ≫= k) Q s.
Proof. rw /wp /mbind /K_bind. by destruct (m s) as [[??]|]. Qed.

Lemma wp_bind_inv {A B} (m : K S A) (k : A → K S B) Q s :
  wp (m ≫= k) Q s → wp m (λ a, wp (k a) Q) s.
Proof. rw /wp /mbind /K_bind. by destruct (m s) as [[??]|]. Qed.

Lemma wp_mono {A} (m : K S A) (Q Q' : A → S → Prop) s :
  wp m Q s → (∀ a s', Q a s' → Q' a s') → wp m Q' s.
Proof. rw /wp. destruct (m s) as [[??]|]; auto. Qed.

(** Running [m] and [f] together before [g]. *)
Lemma wp_assoc {A B C} (m : K S A) (f : A → K S B) (g : B → K S C) Q s :
  wp (m ≫= f) (λ b, wp (g b) Q) s → wp (m ≫= λ a, f a ≫= g) Q s.
Proof.
  intros H%wp_bind_inv. apply wp_bind. eapply wp_mono; [exact H|].
  intros a s' H'. by apply wp_bind.
Qed.

Lemma wp_and {A} (m : K S A) (Q Q' : A → S → Prop) s :
  wp m Q s → wp m Q' s → wp m (λ a s', Q a s' ∧ Q' a s') s.
Proof. rw /wp. destruct (m s) as [[??]|]; auto. Qed.

Lemma wp_gets {A} (f : S → A) (Q : A → S → Prop) s : Q (f s) s → wp (gets f) Q s.
Proof. done. Qed.

Lemma wp_modify (f : S → S) (Q : unit → S → Prop) s :
  Q tt (f s) → wp (modify f) Q s.
Proof. done. Qed.

Lemma wp_from_option {A} (o : option A) a (Q : A → S → Prop) s :
  o = Some a → Q a s → wp (from_option_k o) Q s.
Proof. by intros ->. Qed.

Lemma wp_when b (m : K S unit) Q s :
  (b = true → wp m Q s) → (b = false → Q tt s) → wp (when b m) Q s.
Proof. destruct b; simpl; auto using wp_ret. Qed.

(** The exact form: a computation that meets [wp] returns. *)
Lemma wp_run {A} (m : K S A) Q s :
  wp m Q s → ∃ a s', m s = Some (a, s') ∧ Q a s'.
Proof. rw /wp. destruct (m s) as [[a s']|]; [by eauto|done]. Qed.

Lemma run_wp {A} (m : K S A) (Q : A → S → Prop) s a s' :
  m s = Some (a, s') → wp m Q s → Q a s'.
Proof. rw /wp. by intros ->. Qed.

Lemma wp_of_run {A} (m : K S A) (Q : A → S → Prop) s a s' :
  m s = Some (a, s') → Q a s' → wp m Q s.
Proof. rw /wp. by intros ->. Qed.

Lemma bind_run {A B} (m : K S A) (k : A → K S B) s a s' :
  m s = Some (a, s') → (m ≫= k) s = k a s'.
Proof. rw /mbind /K_bind. by intros ->. Qed.

(** Loop rule: an invariant indexed by the elements still to be visited. *)
Lemma wp_kfor {A} (f : A → K S unit) (xs : list A) (I : list A → S → Prop) Q s :
  I xs s →
  (∀ x ys s, I (x :: ys) s → wp (f x) (λ _, I ys) s) →
  (∀ s, I [] s → Q tt s) →
  wp (kfor f xs) Q s.
Proof.
  intros HI Hstep HQ. revert s HI.
  induction xs as [|x xs IH]; intros s HI; simpl; [by apply wp_ret, HQ|].
  apply wp_bind. eapply wp_mono; [by apply (Hstep x xs)|]. intros [] s' Hs'. by apply IH.
Qed.

Lemma kfor_app {A} (f : A → K S unit) xs ys s :
  kfor f (xs ++ ys) s = (kfor f xs;; kfor f ys) s.
Proof.
  revert s. induction xs as [|x xs IH]; intros s; simpl; [done|].
  rw /mbind /K_bind /=. destruct (f x s) as [[[] s']|]; [|done].
  by rw IH.
Qed.

(** Partial correctness, for the computations that may fault: what holds if
    [m] returns. *)
Definition wlp {A} (m : K S A) (Q : A → S → Prop) s : Prop :=
  ∀ a s', m s = Some (a, s') → Q a s'.

Lemma wlp_wp {A} (m : K S A) Q s : wp m Q s → wlp m Q s.
Proof. intros H a s' Hr. by eapply run_wp. Qed.
Lemma wlp_fault {A} (Q : A → S → Prop) s : wlp fault Q s.
Proof. by intros a s'. Qed.
Lemma wlp_bind {A B} (m : K S A) (k : A → K S B) Q s :
  wlp m (λ a, wlp (k a) Q) s → wlp (m ≫= k) Q s.
Proof.
  intros H b s'. rw /mbind /K_bind. destruct (m s) as [[a s1]|] eqn:Em; [|done]. by apply H.
Qed.
(** The part of a computation that cannot fault. *)
Lemma wlp_after {A B} (m : K S A) (k : A → K S B) Q s :
  wp m (λ a, wlp (k a) Q) s → wlp (m ≫= k) Q s.
Proof. intros H. by apply wlp_bind, wlp_wp. Qed.
Lemma wlp_mono {A} (m : K S A) (Q Q' : A → S → Prop) s :
  wlp m Q s → (∀ a s', Q a s' → Q' a s') → wlp m Q' s.
Proof. intros H HQ a s' Hr. by apply HQ, H. Qed.
End wp_rules.

Global Opaque wp.

(** One step of symbolic execution of the computation under [wp]. *)
Ltac wp_step :=
  cbv beta;
  lazymatch goal with
  | |- wp (mbind _ _) _ _ => apply wp_bind
  | |- wp (mret _) _ _ => apply wp_ret
  | |- wp (gets _) _ _ => apply wp_gets
  | |- wp get _ _ => apply (wp_gets (λ s, s))
  | |- wp (modify _) _ _ => apply wp_modify
  | |- wp (if ?b then _ else _) _ _ => let E := fresh "E" in destruct b eqn:E
  | |- wp (when _ _) _ _ => apply wp_when; intros ?
  | |- wp (match ?x with _ => _ end) _ _ => let E := fresh "E" in destruct x eqn:E
  end; cbv beta.
Ltac wp_steps := repeat (wp_step; cbv beta).

(** * Hints *)

Create HintDb snvm.

(** * Integers *)

Lemma u32_id z : 0 ≤ z < 2 ^ 32 → u32 z = z.
Proof. apply Z.mod_small. Qed.
Lemma u16_id z : 0 ≤ z < 2 ^ 16 → u16 z = z.
Proof. apply Z.mod_small. Qed.
Lemma u64_id z : 0 ≤ z < 2 ^ 64 → u64 z = z.
Proof. apply Z.mod_small. Qed.
Lemma u32_range z : 0 ≤ u32 z < 2 ^ 32.
Proof. by apply Z.mod_pos_bound. Qed.
Lemma u16_range z : 0 ≤ u16 z < 2 ^ 16.
Proof. by apply Z.mod_pos_bound. Qed.
Lemma u64_range z : 0 ≤ u64 z < 2 ^ 64.
Proof. by apply Z.mod_pos_bound. Qed.

(** Masking with [~(2^k - 1)] rounds down to a multiple of [2^k]. *)
Lemma page_align_pow2 k a : 0 ≤ k → page_align (2 ^ k) a = a - a mod 2 ^ k.
Proof.
  intros Hk. rw /page_align.
  assert (Z.lnot (2 ^ k - 1) = Z.lnot (Z.ones k)) as -> by (rw Z.ones_equiv; f_equal; lia).
  rw -Z.ldiff_land Z.ldiff_ones_r // Z.shiftl_mul_pow2 // Z.shiftr_div_pow2 //.
  pose proof (Z.div_mod a (2 ^ k) ltac:(lia)). lia.
Qed.

Lemma page_align_idem k a : 0 ≤ k → page_align (2 ^ k) (page_align (2 ^ k) a) = page_align (2 ^ k) a.
Proof.
  intros Hk. rw !page_align_pow2 //.
  assert ((a - a mod 2 ^ k) mod 2 ^ k = 0) as ->; [|lia].
  rw Zminus_mod_idemp_r Z.sub_diag. done.
Qed.

(** * Lists *)

(** Remove every occurrence of [x]: what unlinking the node [x] does to the
    sequence of nodes of a list. *)
Definition unlink `{EqDecision A} (x : A) (l : list A) : list A := filter (.≠ x) l.

Section lists.
Context `{EqDecision A}.
Implicit Types (x y : A) (l : list A).

Lemma elem_of_unlink x y l : y ∈ unlink x l ↔ y ∈ l ∧ y ≠ x.
Proof. rw /unlink list_elem_of_filter. naive_solver. Qed.

Lemma unlink_not_elem x l : x ∉ l → unlink x l = l.
Proof.
  intros Hx. rw /unlink. induction l as [|y l IH]; [done|].
  apply not_elem_of_cons in Hx as [Hne Hx].
  rw filter_cons_True; [by rw IH|congruence].
Qed.

Lemma unlink_app x l l' : unlink x (l ++ l') = unlink x l ++ unlink x l'.
Proof. apply filter_app. Qed.

Lemma unlink_snoc_fresh x l : x ∉ l → unlink x (l ++ [x]) = l.
Proof.
  intros Hx. rw unlink_app unlink_not_elem //.
  rw /unlink filter_cons_False /= ?app_nil_r //; naive_solver.
Qed.

Lemma unlink_cons_eq x l : x ∉ l → unlink x (x :: l) = l.
Proof.
  intros Hx. rw /unlink filter_cons_False; [by apply unlink_not_elem|naive_solver].
Qed.

Lemma unlink_cons_ne x y l : y ≠ x → unlink x (y :: l) = y :: unlink x l.
Proof. intros. by rw /unlink filter_cons_True. Qed.

Lemma unlink_split x l l' : x ∉ l → x ∉ l' → unlink x (l ++ x :: l') = l ++ l'.
Proof. intros. by rw unlink_app unlink_not_elem // unlink_cons_eq. Qed.

Lemma NoDup_unlink x l : NoDup l → NoDup (unlink x l).
Proof. apply NoDup_filter. Qed.

Lemma length_unlink_le x l : (length (unlink x l) ≤ length l)%nat.
Proof. apply length_filter. Qed.

Lemma length_unlink_lt x l : x ∈ l → (length (unlink x l) < length l)%nat.
Proof.
  intros Hx. apply (length_filter_lt _ l x); [done|]. naive_solver.
Qed.

Lemma unlink_comm x y l : unlink x (unlink y l) = unlink y (unlink x l).
Proof. rw /unlink !list_filter_filter. apply list_filter_iff. naive_solver. Qed.
End lists.

(** The element after [x] in [l]: where a walk standing on [x] goes next. *)
Fixpoint lsucc `{EqDecision A} (x : A) (l : list A) : option A :=
  match l with
  | [] => None
  | y :: l => if decide (y = x) then head l else lsucc x l
  end.

Lemma lsucc_app `{EqDecision A} (x : A) l l' : x ∉ l → lsucc x (l ++ x :: l') = head l'.
Proof.
  induction l as [|y l IH]; simpl; intros Hx; [by rw decide_True|].
  apply not_elem_of_cons in Hx as [Hne Hx]. rw decide_False //. by apply IH.
Qed.

#[export] Hint Resolve NoDup_unlink : snvm.
