(* ===== verification/LinkedList.v ===== *)
(** * The intrusive doubly linked list of list.c / list.h

    Every global table of the module ([ctrl_list], [host_list], [device_list],
    [device_queue_list]) is a [struct list]: a head node embedded first in the
    list object, linked in a ring with the nodes embedded in the elements.  The
    operations are modelled on a pointer-level heap, and [repr h l xs] relates
    the heap to the sequence [xs] of element nodes.  The theorems show that
    [list_insert] appends, [list_remove] deletes, and that the [list_next] walk
    visits [xs] in order: this is the interface (sequences, [++], [unlink],
    [head] and [lsucc]) on which the other files build. *)
From S2P Require Import Prelude.

Module Dll.

(** ** Data *)

(** [struct list_node].  [None] is the NULL pointer.  The head is the first
    member of [struct list], so [&list->head] is the pointer [list] itself. *)
Record list_node := ListNode {
  n_list : option positive;
  n_next : option positive;
  n_prev : option positive;
}.
#[export] Instance eta_list_node : Settable list_node := λ x,
  ListNode (n_list x) (n_next x) (n_prev x).

Abbreviation heap := (gmap positive list_node).

(** Pointer accesses: reading or writing through NULL or through a pointer to
    no node is a fault. *)
Definition load (p : option positive) : K heap list_node :=
  a ← from_option_k p; h ← get; from_option_k (h !! a).
Definition store (p : option positive) (f : list_node → list_node) : K heap unit :=
  a ← from_option_k p; n ← load (Some a); modify (<[a := f n]>).

(** ** Operations *)

Definition list_node_init (element : positive) : K heap unit :=
  store (Some element) (λ _, ListNode None None None).

Definition list_next (current : positive) : K heap (option positive) :=
  n ← load (Some current);
  mret (if decide (n_next n = n_list n) then None else n_next n).

Definition list_init (list : positive) : K heap unit :=
  store (Some list) (λ n, n<{n_list := Some list}>);;
  store (Some list) (λ n, n<{n_prev := Some list}>);;
  store (Some list) (λ n, n<{n_next := Some list}>).

Definition list_remove (element : option positive) : K heap unit :=
  match element with
  | None => mret tt
  | Some e =>
    n ← load (Some e);
    if decide (n_list n = None ∨ Some e = n_list n) then mret tt
    else
      (* element->prev->next = element->next *)
      n ← load (Some e);
      store (n_prev n) (λ m, m<{n_next := n_next n}>);;
      (* element->next->prev = element->prev *)
      n ← load (Some e);
      store (n_next n) (λ m, m<{n_prev := n_prev n}>);;
      store (Some e) (λ n, n<{n_list := None}>);;
      store (Some e) (λ n, n<{n_next := None}>);;
      store (Some e) (λ n, n<{n_prev := None}>)
  end.

Definition list_insert (list element : positive) : K heap unit :=
  hd ← load (Some list);
  let last := n_prev hd in
  store last (λ n, n<{n_next := Some element}>);;
  store (Some element) (λ n, n<{n_list := Some list}>);;
  store (Some element) (λ n, n<{n_prev := last}>);;
  store (Some element) (λ n, n<{n_next := Some list}>);;
  store (Some list) (λ n, n<{n_prev := Some element}>).

(** The loop every client runs: [for (e = list_next(&list->head); e != NULL;
    e = list_next(e))], collecting the nodes visited.  [fuel] bounds the number
    of iterations; exceeding it is a fault. *)
Fixpoint walk_from (fuel : nat) (e : option positive) : K heap (list positive) :=
  match e, fuel with
  | None, _ => mret []
  | Some _, O => fault
  | Some e, S fuel => e' ← list_next e; es ← walk_from fuel e'; mret (e :: es)
  end.
Definition walk (fuel : nat) (l : positive) : K heap (list positive) :=
  e ← list_next l; walk_from fuel e.

(** ** Representation *)

Definition nxt (h : heap) (p : positive) : option positive := h !! p ≫= n_next.
Definition prv (h : heap) (p : positive) : option positive := h !! p ≫= n_prev.
Definition lst (h : heap) (p : positive) : option positive := h !! p ≫= n_list.

(** [seg h p xs q]: from [p] the next pointers visit [xs] and reach [q], and
    the prev pointers retrace the path. *)
Fixpoint seg (h : heap) (p : positive) (xs : list positive) (q : positive) : Prop :=
  match xs with
  | [] => nxt h p = Some q ∧ prv h q = Some p
  | x :: xs => (nxt h p = Some x ∧ prv h x = Some p) ∧ seg h x xs q
  end.

Definition repr (h : heap) (l : positive) (xs : list positive) : Prop :=
  NoDup (l :: xs) ∧ (∀ a, a ∈ l :: xs → lst h a = Some l) ∧ seg h l xs l.

(** ** Segments *)

Lemma seg_app h p xs x ys q :
  seg h p (xs ++ x :: ys) q ↔ seg h p xs x ∧ seg h x ys q.
Proof. revert p. induction xs as [|y xs IH]; intros p; simpl; [done|]. rw IH. tauto. Qed.

Lemma seg_frame h h' p xs q :
  (∀ a, a ∈ p :: xs → nxt h' a = nxt h a) →
  (∀ a, a ∈ q :: xs → prv h' a = prv h a) →
  seg h p xs q → seg h' p xs q.
Proof.
  revert p. induction xs as [|x xs IH]; intros p Hn Hp; simpl.
  - rw (Hn p); [|set_solver]. by rw (Hp q); [|set_solver].
  - rw (Hn p); [|set_solver]. rw (Hp x); [|set_solver]. intros [??]; split; [done|].
    apply IH; [| |done]; set_solver.
Qed.

(** The node before [q] and the node after [p] on a segment. *)
Lemma seg_last h p xs q : seg h p xs q → prv h q = Some (default p (last xs)).
Proof.
  revert p. induction xs as [|x xs IH]; intros p; simpl; [naive_solver|].
  intros [_ Hs]. rw (IH _ Hs) last_cons. by destruct (last xs).
Qed.

Lemma seg_first h p xs q : seg h p xs q → nxt h p = Some (default q (head xs)).
Proof. destruct xs; simpl; naive_solver. Qed.

Lemma nxt_upd h a n p : nxt (<[a := n]> h) p = if decide (a = p) then n_next n else nxt h p.
Proof. rw /nxt lookup_insert. by case_decide. Qed.
Lemma prv_upd h a n p : prv (<[a := n]> h) p = if decide (a = p) then n_prev n else prv h p.
Proof. rw /prv lookup_insert. by case_decide. Qed.
Lemma lst_upd h a n p : lst (<[a := n]> h) p = if decide (a = p) then n_list n else lst h p.
Proof. rw /lst lookup_insert. by case_decide. Qed.

(** A segment keeps its nodes when its last link is redirected to [q']. *)
Lemma seg_relink h h' p xs q q' :
  NoDup (p :: xs) → seg h p xs q →
  (∀ a, a ∈ p :: xs → a ≠ default p (last xs) → nxt h' a = nxt h a) →
  (∀ a, a ∈ xs → prv h' a = prv h a) →
  nxt h' (default p (last xs)) = Some q' → prv h' q' = Some (default p (last xs)) →
  seg h' p xs q'.
Proof.
  revert p. induction xs as [|x xs IH]; intros p Hnd Hs Hn Hp; [done|].
  rw last_cons in Hn |- *. simpl in Hs. destruct Hs as [[Hpx Hxp] Hs].
  apply NoDup_cons in Hnd as [Hpn Hnd]. intros Hn' Hp'.
  assert (default p (match last xs with Some y => Some y | None => Some x end) =
    default x (last xs)) as Hd by by destruct (last xs).
  rw Hd in Hn Hn' Hp'. split.
  - split; [|rw Hp; [done|set_solver]]. rw Hn; [done|set_solver|].
    intros ->. apply Hpn. destruct (last xs) as [z|] eqn:E; simpl; [|set_solver].
    apply last_Some_elem_of in E. set_solver.
  - apply IH; [done..| |set_solver|done|done]. intros a Ha ?. apply Hn; [set_solver|done].
Qed.

(** ** Heap accesses *)

Lemma load_run a h n : h !! a = Some n → load (Some a) h = Some (n, h).
Proof. intros Ha. by rw /load /mbind /K_bind /= Ha. Qed.

Lemma wp_load_node a (Q : list_node → heap → Prop) h :
  is_Some (h !! a) → (∀ n, h !! a = Some n → Q n h) → wp (load (Some a)) Q h.
Proof. intros [n Hn] HQ. eapply wp_of_run; [by apply load_run|]. auto. Qed.

Lemma wp_store_node a f (Q : unit → heap → Prop) h :
  is_Some (h !! a) → (∀ n, h !! a = Some n → Q tt (<[a := f n]> h)) → wp (store (Some a) f) Q h.
Proof.
  intros Ha HQ. rw /store. wp_step. eapply wp_from_option; [done|]. wp_step.
  apply wp_load_node; [done|]. intros n Hn. wp_step. auto.
Qed.

Lemma repr_node h l xs a : repr h l xs → a ∈ l :: xs → is_Some (h !! a).
Proof.
  intros (_ & Hl & _) Ha. specialize (Hl a Ha). rw /lst in Hl.
  destruct (h !! a); naive_solver.
Qed.

Lemma nxt_node h a n : h !! a = Some n → n_next n = nxt h a.
Proof. by rw /nxt => ->. Qed.
Lemma prv_node h a n : h !! a = Some n → n_prev n = prv h a.
Proof. by rw /prv => ->. Qed.
Lemma lst_node h a n : h !! a = Some n → n_list n = lst h a.
Proof. by rw /lst => ->. Qed.

(** Assignments to one field, seen through the three views of the heap. *)
Section assign.
Context (h : heap) (a : positive) (Ha : a ∈ dom h) (Q : unit → heap → Prop).

Lemma wp_set_next v :
  (∀ h', dom h' = dom h → (∀ p, nxt h' p = if decide (a = p) then v else nxt h p) →
    (∀ p, prv h' p = prv h p) → (∀ p, lst h' p = lst h p) → Q tt h') →
  wp (store (Some a) (λ n, n<{n_next := v}>)) Q h.
Proof using Ha.
  intros HQ. apply wp_store_node; [by apply elem_of_dom|]. intros n Hn. apply HQ.
  { rw dom_insert_L. set_solver. }
  all: intros p; rw ?nxt_upd ?prv_upd ?lst_upd; case_decide; simplify_eq/=; try done.
  - by apply prv_node.
  - by apply lst_node.
Qed.
Lemma wp_set_prev v :
  (∀ h', dom h' = dom h → (∀ p, prv h' p = if decide (a = p) then v else prv h p) →
    (∀ p, nxt h' p = nxt h p) → (∀ p, lst h' p = lst h p) → Q tt h') →
  wp (store (Some a) (λ n, n<{n_prev := v}>)) Q h.
Proof using Ha.
  intros HQ. apply wp_store_node; [by apply elem_of_dom|]. intros n Hn. apply HQ.
  { rw dom_insert_L. set_solver. }
  all: intros p; rw ?nxt_upd ?prv_upd ?lst_upd; case_decide; simplify_eq/=; try done.
  - by apply nxt_node.
  - by apply lst_node.
Qed.
Lemma wp_set_list v :
  (∀ h', dom h' = dom h → (∀ p, lst h' p = if decide (a = p) then v else lst h p) →
    (∀ p, nxt h' p = nxt h p) → (∀ p, prv h' p = prv h p) → Q tt h') →
  wp (store (Some a) (λ n, n<{n_list := v}>)) Q h.
Proof using Ha.
  intros HQ. apply wp_store_node; [by apply elem_of_dom|]. intros n Hn. apply HQ.
  { rw dom_insert_L. set_solver. }
  all: intros p; rw ?nxt_upd ?prv_upd ?lst_upd; case_decide; simplify_eq/=; try done.
  - by apply nxt_node.
  - by apply prv_node.
Qed.
End assign.

(** Execute one assignment, keeping only the views of the heap it leaves. *)
Ltac dll_assign :=
  let go lem :=
    apply lem; [congruence || set_solver|];
    let h := fresh "h" in let D := fresh "D" in
    let V := fresh "V" in let V' := fresh "V" in let V'' := fresh "V" in
    intros h D V V' V'' in
  lazymatch goal with
  | |- wp (store _ (λ _, _<{n_next := _}>)) _ _ => go wp_set_next
  | |- wp (store _ (λ _, _<{n_prev := _}>)) _ _ => go wp_set_prev
  | |- wp (store _ (λ _, _<{n_list := _}>)) _ _ => go wp_set_list
  end.

(** Rewrite a view of the current heap back to a view of the first one. *)
Ltac dll_views :=
  repeat match goal with
  | V : ∀ p, nxt ?h p = _ |- context [nxt ?h ?q] => rw (V q)
  | V : ∀ p, prv ?h p = _ |- context [prv ?h ?q] => rw (V q)
  | V : ∀ p, lst ?h p = _ |- context [lst ?h ?q] => rw (V q)
  end; repeat case_decide; try congruence.

Lemma repr_dom h l xs a : repr h l xs → a ∈ l :: xs → a ∈ dom h.
Proof. intros. apply elem_of_dom. by eapply repr_node. Qed.

Lemma NoDup_snoc (e : positive) xs : NoDup xs → e ∉ xs → NoDup (xs ++ [e]).
Proof. intros. apply NoDup_app. set_solver by eauto using NoDup_singleton. Qed.

(** ** Theorems *)

Lemma list_init_repr h l (Q : unit → heap → Prop) :
  l ∈ dom h → (∀ h', repr h' l [] → dom h' = dom h → Q tt h') → wp (list_init l) Q h.
Proof.
  intros Hl HQ. rw /list_init. do 2 (wp_step; dll_assign). dll_assign. apply HQ; [|congruence].
  split_and!; [apply NoDup_singleton| |].
  - intros a ->%list_elem_of_singleton. dll_views.
  - split; dll_views.
Qed.

Lemma repr_last h l xs : repr h l xs → default l (last xs) ∈ l :: xs.
Proof.
  intros _. destruct (last xs) as [z|] eqn:E; simpl; [|set_solver].
  apply last_Some_elem_of in E. set_solver.
Qed.

(** Redirecting the links around a new tail [e] represents [xs ++ [e]]. *)
Lemma repr_inserted h h' l xs e :
  repr h l xs → e ∉ l :: xs →
  (∀ p, nxt h' p = if decide (e = p) then Some l
                   else if decide (default l (last xs) = p) then Some e else nxt h p) →
  (∀ p, prv h' p = if decide (l = p) then Some e
                   else if decide (e = p) then Some (default l (last xs)) else prv h p) →
  (∀ p, lst h' p = if decide (e = p) then Some l else lst h p) →
  repr h' l (xs ++ [e]).
Proof.
  intros Hr He Hn Hp Hl'. pose proof Hr as (Hnd & Hl & Hs).
  pose proof (repr_last _ _ _ Hr) as Hla.
  remember (default l (last xs)) as la eqn:Ela.
  apply not_elem_of_cons in He as [Hel He].
  pose proof (proj1 (NoDup_cons _ _) Hnd) as [Hlx _].
  assert (e ≠ la) by (intros ->; apply elem_of_cons in Hla; naive_solver).
  split_and!.
  - apply (NoDup_snoc e (l :: xs)); [done|]. by apply not_elem_of_cons.
  - intros a Ha. rw Hl'. case_decide; [done|]. apply Hl.
    apply (elem_of_app (l :: xs) [e] a) in Ha. rw list_elem_of_singleton in Ha. naive_solver.
  - apply seg_app. split; [|split; rw ?Hn ?Hp; repeat case_decide; congruence].
    apply (seg_relink h _ l xs l); [done|done|..]; rw -?Ela; intros; rw ?Hn ?Hp;
      repeat case_decide; simplify_eq; try done; set_unfold; naive_solver.
Qed.

(** The distinctness facts a removal at [e] needs. *)
Lemma removal_distinct (l e : positive) xs ys :
  NoDup (l :: xs ++ e :: ys) →
  NoDup (l :: xs) ∧ NoDup (l :: xs ++ ys) ∧
  (∀ c, c ∈ l :: xs ++ ys → e ≠ c) ∧
  (∀ c, c ∈ xs → default l (head ys) ≠ c) ∧
  (∀ c, c ∈ ys → default l (last xs) ≠ c) ∧
  match ys with [] => True | y :: ys => l ≠ y ∧ (y ∉ ys) ∧ l ∉ ys end.
Proof.
  rw !NoDup_cons !NoDup_app !NoDup_cons !elem_of_app !elem_of_cons.
  intros (Hl & Hx & Hxy & Hey & Hy).
  assert (default l (last xs) = l ∨ default l (last xs) ∈ xs) as Hla.
  { destruct (last xs) eqn:E; [right; by apply last_Some_elem_of|by left]. }
  assert (∀ c, c ∈ xs → default l (head ys) ≠ c) as Hcb.
  { intros c Hc. specialize (Hxy c Hc). destruct ys as [|y ys]; simpl; set_solver. }
  assert (match ys with [] => True | y :: ys => l ≠ y ∧ (y ∉ ys) ∧ l ∉ ys end) as Hm.
  { destruct ys as [|y ys]; [done|]. rw NoDup_cons in Hy. set_solver. }
  split_and!; try done; clear Hm Hcb; try set_solver.
  intros c Hc <-. destruct Hla as [Hla|Hla]; [rw Hla in Hc|]; set_solver.
Qed.

(** Bypassing [e] represents the list without it. *)
Lemma repr_removed h h' l xs ys e :
  repr h l (xs ++ e :: ys) →
  (∀ p, nxt h' p = if decide (e = p) then None
                   else if decide (default l (last xs) = p) then Some (default l (head ys))
                   else nxt h p) →
  (∀ p, prv h' p = if decide (e = p) then None
                   else if decide (default l (head ys) = p) then Some (default l (last xs))
                   else prv h p) →
  (∀ p, lst h' p = if decide (e = p) then None else lst h p) →
  repr h' l (xs ++ ys).
Proof.
  intros (Hnd & Hl & Hs) Hn Hp Hl'. apply seg_app in Hs as [Hs1 Hs2].
  apply removal_distinct in Hnd as (Hnx & Hnd & Hce & Hcb & Hyc & Hys).
  assert (∀ q, q = default l (head ys) → e ≠ q → seg h' l xs q) as Hs1'.
  { intros q -> Hq. apply (seg_relink h _ l xs e); [done|done|..].
    - intros c Hc Hc'. rw Hn !decide_False //. apply Hce. set_solver.
    - intros c Hc. rw Hp !decide_False //; [by apply Hcb|]. apply Hce. set_solver.
    - rw Hn decide_False ?decide_True //. apply Hce.
      destruct (last xs) eqn:E; simpl; [apply last_Some_elem_of in E|]; set_solver.
    - rw Hp decide_False ?decide_True //. }
  split_and!; [done|..].
  - intros c Hc. rw Hl' decide_False; [|by apply Hce]. apply Hl. set_solver.
  - destruct ys as [|y ys]; simpl in *.
    + rw app_nil_r. apply Hs1'; [done|]. apply Hce. set_solver.
    + apply seg_app. split; [apply Hs1'; [done|]; apply Hce; set_solver|].
      apply (seg_frame h); [..|apply Hs2]; intros c Hc.
      * rw Hn !decide_False //; [by apply Hyc|apply Hce; set_solver].
      * rw Hp !decide_False //; [set_solver|apply Hce; set_solver].
Qed.

(** [list_insert] appends the element at the tail of the list. *)
Lemma list_insert_repr h l xs e :
  repr h l xs → e ∉ l :: xs → e ∈ dom h →
  wp (list_insert l e) (λ _ h', repr h' l (xs ++ [e]) ∧ dom h' = dom h) h.
Proof.
  intros Hr He Hed. pose proof Hr as (Hnd & Hl & Hs).
  pose proof (seg_last _ _ _ _ Hs) as Hlast. pose proof (repr_last _ _ _ Hr) as Hla.
  pose proof (repr_dom _ _ _ l Hr ltac:(set_solver)) as Hld.
  pose proof (repr_dom _ _ _ _ Hr Hla) as Hlad.
  assert (default l (last xs) ≠ e ∧ l ≠ e) as [??].
  { apply not_elem_of_cons in He as [??]. apply elem_of_cons in Hla. naive_solver. }
  rw /list_insert. wp_step. apply wp_load_node; [by apply elem_of_dom|]. intros n Hn.
  rw (prv_node _ _ _ Hn) Hlast. do 4 (wp_step; dll_assign). dll_assign.
  split; [|congruence]. apply (repr_inserted h); [done|done|..]; intros p; dll_views.
Qed.

(** [list_remove] deletes the element, and leaves it off any list. *)
Lemma list_remove_repr h l xs ys e :
  repr h l (xs ++ e :: ys) →
  wp (list_remove (Some e)) (λ _ h', repr h' l (xs ++ ys) ∧ lst h' e = None ∧ dom h' = dom h) h.
Proof.
  intros Hr. pose proof Hr as (Hnd & Hl & Hs). apply seg_app in Hs as [Hs1 Hs2].
  pose proof (seg_last _ _ _ _ Hs1) as Hp. pose proof (seg_first _ _ _ _ Hs2) as Hq.
  assert (default l (last xs) ∈ l :: xs) as Hla.
  { destruct (last xs) as [z|] eqn:E; simpl; [apply last_Some_elem_of in E|]; set_solver. }
  assert (default l (head ys) ∈ l :: ys) as Hhd by (destruct ys; simpl; set_solver).
  assert ((e ∉ l :: xs) ∧ (e ∉ l :: ys)) as [Hex Hey].
  { apply NoDup_cons in Hnd as [Hl' Hnd]. apply NoDup_app in Hnd as (? & ? & Hnd).
    apply NoDup_cons in Hnd as [??]. set_solver. }
  assert (default l (last xs) ≠ e ∧ default l (head ys) ≠ e) as [??] by naive_solver.
  assert (default l (last xs) ∈ dom h ∧ default l (head ys) ∈ dom h ∧ e ∈ dom h) as (?&?&?).
  { split_and!; apply (repr_dom _ _ _ _ Hr); set_solver. }
  assert (lst h e = Some l) as Hle by (apply Hl; set_solver).
  rw /list_remove. wp_step. apply wp_load_node; [by apply elem_of_dom|]. intros n Hn.
  rw decide_False; [|rw (lst_node _ _ _ Hn) Hle; set_solver].
  wp_step. apply wp_load_node; [by apply elem_of_dom|]. intros n1 Hn1.
  rw (nxt_node _ _ _ Hn1) (prv_node _ _ _ Hn1) Hp Hq. wp_step. dll_assign.
  wp_step. apply wp_load_node; [apply elem_of_dom; congruence|]. intros n2 Hn2.
  rw (nxt_node _ _ _ Hn2) (prv_node _ _ _ Hn2) V V0 Hp Hq decide_False //.
  wp_step. dll_assign. do 2 (wp_step; dll_assign). dll_assign.
  split; [|split; [dll_views|congruence]].
  apply (repr_removed h _ _ _ _ e); [done|..]; intros p; dll_views.
Qed.

(** A node on no list is left alone: removing twice is removing once. *)
Lemma list_remove_unlisted h e :
  e ∈ dom h → lst h e = None → list_remove (Some e) h = Some (tt, h).
Proof.
  intros [n Hn]%elem_of_dom Hl. rw /list_remove /mbind /K_bind (load_run _ _ _ Hn).
  rw decide_True //. left. by rw (lst_node _ _ _ Hn).
Qed.

(** [list_next] from the head and from an element of the list. *)
Lemma list_next_head h l xs : repr h l xs → list_next l h = Some (head xs, h).
Proof.
  intros Hr. pose proof Hr as (Hnd & Hl & Hs).
  destruct (repr_node _ _ _ l Hr ltac:(set_solver)) as [n Hn].
  rw /list_next /mbind /K_bind (load_run _ _ _ Hn) (nxt_node _ _ _ Hn) (lst_node _ _ _ Hn).
  rw (seg_first _ _ _ _ Hs) Hl; [|set_solver]. apply NoDup_cons in Hnd as [Hlx _].
  destruct xs as [|x xs]; simpl; [by rw decide_True|].
  rw decide_False //. set_solver.
Qed.

Lemma list_next_elem h l xs e : repr h l xs → e ∈ xs → list_next e h = Some (lsucc e xs, h).
Proof.
  intros Hr He. pose proof Hr as (Hnd & Hl & Hs).
  destruct (repr_node _ _ _ e Hr ltac:(set_solver)) as [n Hn].
  rw /list_next /mbind /K_bind (load_run _ _ _ Hn) (nxt_node _ _ _ Hn) (lst_node _ _ _ Hn).
  rw Hl; [|set_solver]. apply list_elem_of_split in He as (x1 & x2 & ->).
  apply seg_app in Hs as [_ Hs]. rw (seg_first _ _ _ _ Hs).
  apply NoDup_cons in Hnd as [Hlx Hnd]. apply NoDup_app in Hnd as (_ & He & _).
  rw lsucc_app; [|set_solver]. destruct x2 as [|x x2]; simpl; [by rw decide_True|].
  rw decide_False //. set_solver.
Qed.

(** The walk visits exactly the elements, in list order, and terminates within
    one iteration per element. *)
Lemma walk_repr h l xs fuel :
  repr h l xs → (length xs ≤ fuel)%nat → walk fuel l h = Some (xs, h).
Proof.
  intros Hr Hf. rw /walk /mbind /K_bind (list_next_head _ _ _ Hr).
  assert (∀ pre suf f, xs = pre ++ suf → (length suf ≤ f)%nat →
    walk_from f (head suf) h = Some (suf, h)) as Hw.
  { intros pre suf f. revert pre suf. induction f as [|f IH]; intros pre suf -> Hlen.
    - destruct suf; simpl in *; [done|lia].
    - destruct suf as [|e suf]; simpl in *; [done|].
      rw /mbind /K_bind (list_next_elem _ _ _ e Hr); [|set_solver].
      pose proof Hr as (Hnd & _ & _). apply NoDup_cons in Hnd as [_ Hnd].
      apply NoDup_app in Hnd as (_ & Hnd & _). rw lsucc_app; [|set_solver].
      rw (IH (pre ++ [e]) suf) //; [by rw -app_assoc|lia]. }
  by apply (Hw [] xs).
Qed.

(** ** Refinement

    A client's run: insertions and removals on a list that was just initialised,
    against the same operations on sequences. *)
Inductive list_op := OpInsert (e : positive) | OpRemove (e : positive).

Definition apply_op (l : positive) (o : list_op) : K heap unit :=
  match o with
  | OpInsert e => list_insert l e
  | OpRemove e => list_remove (Some e)
  end.
Definition spec_op (xs : list positive) (o : list_op) : list positive :=
  match o with
  | OpInsert e => xs ++ [e]
  | OpRemove e => unlink e xs
  end.

(** A run inserts nodes that are allocated and not on the list, and removes
    nodes that are on it. *)
Fixpoint ops_ok (nodes : gset positive) (l : positive) (xs : list positive) (os : list list_op) : Prop :=
  match os with
  | [] => True
  | o :: os => match o with
               | OpInsert e => (e ∉ l :: xs) ∧ e ∈ nodes
               | OpRemove e => e ∈ xs
               end ∧ ops_ok nodes l (spec_op xs o) os
  end.

Lemma apply_op_repr h l xs o :
  repr h l xs → match o with OpInsert e => (e ∉ l :: xs) ∧ e ∈ dom h | OpRemove e => e ∈ xs end →
  wp (apply_op l o) (λ _ h', repr h' l (spec_op xs o) ∧ dom h' = dom h) h.
Proof.
  intros Hr. destruct o as [e|e]; simpl.
  - intros [He Hd]. by apply list_insert_repr.
  - intros (xs1 & xs2 & ->)%list_elem_of_split. pose proof Hr as ((_ & Hnd)%NoDup_cons & _).
    apply NoDup_app in Hnd as (_ & Hd & Hnd). apply NoDup_cons in Hnd as [Hn2 _].
    rw unlink_split //; [|intros ?; by apply (Hd e); [|left]].
    eapply wp_mono; [by apply list_remove_repr|]. by intros _ h' (? & _ & ?).
Qed.

Lemma apply_ops_repr h l xs os :
  repr h l xs → ops_ok (dom h) l xs os →
  wp (kfor (apply_op l) os) (λ _ h', repr h' l (foldl spec_op xs os)) h.
Proof.
  revert h xs. induction os as [|o os IH]; intros h xs Hr Hok; cbn [kfor foldl]; [by apply wp_ret|].
  destruct Hok as [Ho Hok]. apply wp_bind. eapply wp_mono; [by apply apply_op_repr|].
  intros _ h' [Hr' Hd]. apply IH; [done|]. by rw Hd.
Qed.

(** C18.  The linked list implements a sequence: after any run of insertions
    and removals on an initialised list, which never faults, the walk over the
    list terminates and visits the elements of the sequence in order. *)
Theorem list_refines_sequence h l os :
  l ∈ dom h → ops_ok (dom h) l [] os →
  ∃ h', (list_init l;; kfor (apply_op l) os) h = Some (tt, h') ∧
    ∀ fuel, (length (foldl spec_op [] os) ≤ fuel)%nat →
      walk fuel l h' = Some (foldl spec_op [] os, h').
Proof.
  intros Hl Hok.
  assert (wp (list_init l;; kfor (apply_op l) os) (λ _ h', repr h' l (foldl spec_op [] os)) h) as Hwp.
  { apply wp_bind. apply list_init_repr; [done|]. intros h' Hr Hd.
    apply apply_ops_repr; [done|by rw Hd]. }
  destruct (wp_run _ _ _ Hwp) as ([] & h' & Hrun & Hr). exists h'. split; [done|].
  intros fuel Hf. by apply walk_repr.
Qed.

Lemma list_refines_sequence_witness :
  ∃ h', (list_init 1;; kfor (apply_op 1) [OpInsert 2; OpInsert 3; OpRemove 2; OpInsert 4])
          (list_to_map ((λ p, (p, ListNode None None None)) <$> [1; 2; 3; 4]%positive)) = Some (tt, h') ∧
    walk 2 1 h' = Some ([3; 4]%positive, h').
Proof.
  destruct (list_refines_sequence (list_to_map ((λ p, (p, ListNode None None None)) <$> [1; 2; 3; 4]%positive)) 1
    [OpInsert 2; OpInsert 3; OpRemove 2; OpInsert 4]) as (h' & Hrun & Hw).
  - apply elem_of_dom. vm_compute. eexists. reflexivity.
  - simpl. split_and!; try (apply elem_of_dom; vm_compute; eexists; reflexivity); try set_solver.
  - exists h'. split; [exact Hrun|]. apply Hw. vm_compute. lia.
Defined.

End Dll.
