(* ===== verification/KState.v ===== *)
(** * The module's data and the kernel around it

    The structures of ctrl.h, map.h, ioctl.h and pci.c that the snvme module
    keeps, the state of the loaded module as one record, and the class [kenv]
    of the answers the rest of the kernel and the hardware give.  Objects live
    in finite maps from addresses to records; a pointer that is not in the map
    is dangling, and using it is a fault.  Addresses are never reused. *)
From S2P Require Import Prelude.

Abbreviation ptr := positive.

(** ** UAPI constants and payloads (libnvm/include/ioctl.h) *)

Definition NVM_MAX_GROUPS_PER_FD : Z := 1.
Definition NVM_MAX_QUEUES_PER_GROUP : Z := 16.
Definition SNVM_MAX_QUEUE_GROUPS : Z := 8.
Definition NVM_QUEUE_SETUP_F_ON_HOST : Z := 1.

Definition NVM_MAP_KIND_UNSPECIFIED : Z := 0.
Definition NVM_MAP_KIND_RING_SQ : Z := 1.
Definition NVM_MAP_KIND_RING_CQ : Z := 2.
Definition NVM_MAP_KIND_DATA : Z := 3.

Record nvm_ioctl_map := NvmIoctlMap {
  rq_vaddr_start : Z;
  rq_n_pages : Z;
  rq_ioq_idx : Z;
  rq_is_cq : Z;
  rq_group_id : Z;
  rq_map_kind : Z;
  rq_reserved0 : list Z;
}.

Record nvm_queue_group := NvmQueueGroup {
  qg_owner_id : Z;
  qg_count : Z;
  qg_numa_node : Z;
  qg_reserved : Z;
}.

Record nvm_ioctl_setup := NvmIoctlSetup {
  su_ioq_num : Z;
  su_flags : Z;
  su_cap_kernel_ioq : Z;
  su_nr_write : Z;
  su_nr_poll : Z;
  su_nr_groups : Z;
  su_reserved : list Z;
  su_groups : list nvm_queue_group;
}.

Record nvm_ioctl_queue_group := NvmIoctlQueueGroup {
  cg_group_id : Z;
  cg_flags : Z;
  cg_max_queues : Z;
  cg_reserved : list Z;
}.

Record nvm_user_queue_pair_in := PairIn { pi_sq_vaddr : Z; pi_cq_vaddr : Z }.
Record nvm_user_queue_pair_out := PairOut {
  po_sq_doorbell_offset : Z;
  po_cq_doorbell_offset : Z;
  po_qid : Z;
}.

Record nvm_ioctl_add_user_queue := AddUserQueue {
  aq_group_id : Z;
  aq_nr_pairs : Z;
  aq_flags : Z;
  aq_reserved : list Z;
  aq_pairs : list nvm_user_queue_pair_in;
}.

Record nvm_ioctl_dev := NvmIoctlDev {
  di_nr_user_q : Z;
  di_start_cq_idx : Z;
  di_dstrd : Z;
  di_max_data_size : Z;
  di_block_size : Z;
  di_disk_name : string;
  di_q_depth : Z;
  di_bar0_size : Z;
  di_max_user_qid : Z;
  di_max_queues_per_group : Z;
  di_sgl_supported : Z;
}.

Record pci_device_addr := PciDeviceAddr {
  pa_domain : Z; pa_bus : Z; pa_slot : Z; pa_func : Z;
}.

(** What a successful [copy_to_user] hands to the caller. *)
Inductive user_out :=
| OutAddrs (addrs : list Z)
| OutGroup (g : nvm_ioctl_queue_group)
| OutPairs (out_pairs : list nvm_user_queue_pair_out)
| OutDev (d : nvm_ioctl_dev)
| OutPciAddr (a : pci_device_addr).

(** ** Controllers (ctrl.h) *)

Record snvm_queue_setup := QueueSetup {
  qs_valid : Z;
  qs_ioq_num : Z;
  qs_flags : Z;
  qs_cap_kernel_ioq : Z;
  qs_nr_write : Z;
  qs_nr_poll : Z;
  qs_nr_groups : Z;
  qs_groups : list nvm_queue_group;
}.
#[export] Instance eta_queue_setup : Settable snvm_queue_setup := λ x,
  QueueSetup (qs_valid x) (qs_ioq_num x) (qs_flags x) (qs_cap_kernel_ioq x)
    (qs_nr_write x) (qs_nr_poll x) (qs_nr_groups x) (qs_groups x).

(** [struct ctrl].  [c_chrdev] is [ctrl->chrdev != NULL]; the bitmap of the
    user QID pool is [None] before its first use and otherwise the bits of the
    [unsigned long] array as one number. *)
Record ctrl := Ctrl {
  c_pdev : ptr;
  c_name : string;
  c_number : Z;
  c_rdev : Z;
  c_chrdev : bool;
  c_on_host : Z;
  c_ioq_num : Z;
  c_cq_num : Z;
  c_ioq_map_num : Z;
  c_use_sreg : Z;
  c_setup : snvm_queue_setup;
  c_user_qid_bitmap : option Z;
  c_user_qid_first : Z;
  c_user_qid_last : Z;
}.
#[export] Instance eta_ctrl : Settable ctrl := λ x,
  Ctrl (c_pdev x) (c_name x) (c_number x) (c_rdev x) (c_chrdev x) (c_on_host x)
    (c_ioq_num x) (c_cq_num x) (c_ioq_map_num x) (c_use_sreg x) (c_setup x)
    (c_user_qid_bitmap x) (c_user_qid_first x) (c_user_qid_last x).

(** ** Memory maps (map.h, map.c) *)

(** The page table a peer-to-peer backend pins: its number of entries and the
    object it refers to ([struct dma_buf] for the NPU backend). *)
Record p2p_table := P2pTable { pt_entries : Z; pt_object : Z }.

(** [struct nvidia_p2p_dma_mapping]: the bus address of each page, and what the
    dma-buf backend needs to take the mapping down again. *)
Record p2p_mapping := P2pMapping {
  pm_addresses : list Z;
  pm_attach : Z;
  pm_sgt : Z;
  pm_n_addrs : Z;
}.

(** A slot of [gpu_region.mappings]: never written, NULL, or a mapping. *)
Inductive mapping_slot :=
| SlotUninit
| SlotNull
| SlotMapped (m : p2p_mapping).

Record gpu_region := GpuRegion {
  gd_pages : option p2p_table;
  gd_mappings : list mapping_slot;
}.

(** [map->data]: NULL, the pinned [struct page *] array, or a [gpu_region]. *)
Inductive map_data :=
| DataNull
| DataPages (pages : list Z)
| DataGpu (gd : gpu_region).

(** [map->release]. *)
Inductive release_fn :=
| release_user_pages_fn
| release_gpu_memory_fn
| release_gpu_ioqueue_memory_fn.

(** [struct map].  The two list links are not fields: membership is recorded by
    the sequences [k_host_list], [g_maps], ... of the lists themselves.
    [ctrl_list] always points to the one global list and [n_entries] is never
    used. *)
Record map := Map {
  m_owner : ptr;
  m_vaddr : Z;
  m_is_cq : Z;
  m_ioq_idx : Z;
  m_pdev : ptr;
  m_page_size : Z;
  m_data : map_data;
  m_release : option release_fn;
  m_group_id : Z;
  m_kind : Z;
  m_n_addrs : Z;
  m_addrs : list Z;
}.
#[export] Instance eta_map : Settable map := λ x,
  Map (m_owner x) (m_vaddr x) (m_is_cq x) (m_ioq_idx x) (m_pdev x) (m_page_size x)
    (m_data x) (m_release x) (m_group_id x) (m_kind x) (m_n_addrs x) (m_addrs x).

(** ** Per-fd objects (pci.c) *)

Record snvm_user_queue := UserQueue {
  uq_qid : Z;
  uq_alive : Z;
  uq_sq_vaddr : Z;
  uq_cq_vaddr : Z;
}.
#[export] Instance eta_user_queue : Settable snvm_user_queue := λ x,
  UserQueue (uq_qid x) (uq_alive x) (uq_sq_vaddr x) (uq_cq_vaddr x).

Record snvm_qgroup := Qgroup {
  g_group_id : Z;
  g_max_queues : Z;
  g_maps : list ptr;
  g_nr_maps : Z;
  g_queues : list snvm_user_queue;
  g_cur_queues : Z;
}.
#[export] Instance eta_qgroup : Settable snvm_qgroup := λ x,
  Qgroup (g_group_id x) (g_max_queues x) (g_maps x) (g_nr_maps x) (g_queues x) (g_cur_queues x).

Record snvm_dev_owner := DevOwner {
  o_ctrl : ptr;
  o_owner : ptr;
  o_groups : list ptr;
  o_nr_groups : Z;
  o_data_maps : list ptr;
  o_nr_data_maps : Z;
}.
#[export] Instance eta_dev_owner : Settable snvm_dev_owner := λ x,
  DevOwner (o_ctrl x) (o_owner x) (o_groups x) (o_nr_groups x) (o_data_maps x) (o_nr_data_maps x).

(** An open file: [f_inode->i_cdev], which is the address of the [cdev] embedded
    in a controller and so names it, and [private_data]. *)
Record file := File { f_cdev : ptr; f_private : option ptr }.
#[export] Instance eta_file : Settable file := λ x, File (f_cdev x) (f_private x).

(** ** The kernel objects below the module *)

(** The fields of [struct nvme_dev] the snvme code reads or writes.
    [nd_admin_q] is [ctrl.admin_q != NULL]. *)
Record nvme_dev := NvmeDev {
  nd_admin_q : bool;
  nd_online_queues : Z;
  nd_nr_allocated_queues : Z;
  nd_ctrl_max_io_queues : Z;
  nd_q_depth : Z;
  nd_db_stride : Z;
  nd_user_start_qid : Z;
  nd_nr_user_use_cq : Z;
  nd_max_hw_sectors : Z;
  nd_sgls : Z;
}.

(** [struct pci_dev].  The bound driver is given by its name; [pd_refs] is the
    reference count that [pci_get_domain_bus_and_slot] and [pci_dev_put] move. *)
Record pci_dev := PciDev {
  pd_addr : pci_device_addr;
  pd_class : Z;
  pd_driver : option string;
  pd_drvdata : option ptr;
  pd_enable_cnt : Z;
  pd_driver_override : option string;
  pd_bar0_start : Z;
  pd_bar0_len : Z;
  pd_refs : Z;
}.
#[export] Instance eta_pci_dev : Settable pci_dev := λ x,
  PciDev (pd_addr x) (pd_class x) (pd_driver x) (pd_drvdata x) (pd_enable_cnt x)
    (pd_driver_override x) (pd_bar0_start x) (pd_bar0_len x) (pd_refs x).

(** The admin commands the module submits. *)
Inductive nvme_command :=
| CreateCq (prp1 cqid qsize cq_flags irq_vector : Z)
| CreateSq (prp1 sqid qsize sq_flags cqid : Z)
| DeleteQueue (opcode qid : Z).
#[export] Instance nvme_command_eq_dec : EqDecision nvme_command.
Proof. solve_decision. Defined.

Definition nvme_admin_delete_sq : Z := 0x00.
Definition nvme_admin_delete_cq : Z := 0x04.

(** What the module does to the rest of the machine, in the order it does it. *)
Inductive event :=
| EvPinPage (page : Z)
| EvPutPage (page : Z)
| EvDmaMap (dev : ptr) (addr : Z)
| EvDmaUnmap (dev : ptr) (addr : Z)
| EvP2pGet (t : p2p_table)
| EvP2pPut (t : p2p_table)
| EvP2pMap (dev : ptr) (t : p2p_table) (m : p2p_mapping)
| EvP2pUnmap (dev : ptr) (t : option p2p_table) (m : p2p_mapping)
| EvDmabufGet (buf : Z)
| EvDmabufPut (buf : Z)
| EvDmabufAttach (buf : Z) (dev : ptr) (attach : Z)
| EvDmabufDetach (buf attach : Z)
| EvMapAttachment (attach sgt : Z)
| EvUnmapAttachment (attach sgt : Z)
| EvAdmin (dev : ptr) (cmd : nvme_command) (status : Z)
| EvCopyOut (out : user_out)
| EvIomap (start len : Z)
| EvCdevAdd (rdev : Z)
| EvCdevDel (rdev : Z)
| EvDeviceCreate (rdev : Z) (name : string)
| EvDeviceDestroy (rdev : Z)
| EvReleaseDriver (dev : ptr) (driver : option string)
| EvAttachDriver (dev : ptr) (driver : string)
| EvRegisterDriver
| EvUnregisterDriver
| EvClassCreate
| EvClassDestroy
| EvRegionAlloc (count : Z)
| EvRegionFree (count : Z).

(** ** The state of the loaded module *)

Record snvm := Snvm {
  k_tick : Z;
  k_log : list event;
  k_next : ptr;
  k_maps : gmap ptr map;
  k_ctrls : gmap ptr ctrl;
  k_groups : gmap ptr snvm_qgroup;
  k_owners : gmap ptr snvm_dev_owner;
  k_files : gmap ptr file;
  k_ndevs : gmap ptr nvme_dev;
  k_pdevs : gmap ptr pci_dev;
  k_ctrl_list : list ptr;
  k_host_list : list ptr;
  k_device_list : list ptr;
  k_device_queue_list : list ptr;
  k_group_ida : gset Z;
  k_minor_ida : gset Z;
  k_registered : Z;
  k_driver_found : bool;
  k_dev_first : Z;
}.
#[export] Instance eta_snvm : Settable snvm := λ x,
  Snvm (k_tick x) (k_log x) (k_next x) (k_maps x) (k_ctrls x) (k_groups x) (k_owners x)
    (k_files x) (k_ndevs x) (k_pdevs x) (k_ctrl_list x) (k_host_list x) (k_device_list x)
    (k_device_queue_list x) (k_group_ida x) (k_minor_ida x) (k_registered x)
    (k_driver_found x) (k_dev_first x).

(** The three global map lists; a list parameter of the C code is one of them. *)
Inductive glist := HostList | DeviceList | DeviceQueueList.
#[export] Instance glist_eq_dec : EqDecision glist.
Proof. solve_decision. Defined.

Definition k_glist (l : glist) (s : snvm) : list ptr :=
  match l with
  | HostList => k_host_list s
  | DeviceList => k_device_list s
  | DeviceQueueList => k_device_queue_list s
  end.
(** [list_insert] appends the node to the list [l]. *)
Definition append_if (b : bool) (p : ptr) (ps : list ptr) : list ptr := if b then ps ++ [p] else ps.
Definition glist_insert (l : glist) (p : ptr) (s : snvm) : snvm :=
  s<{k_host_list ::= append_if (bool_decide (l = HostList)) p}>
   <{k_device_list ::= append_if (bool_decide (l = DeviceList)) p}>
   <{k_device_queue_list ::= append_if (bool_decide (l = DeviceQueueList)) p}>.

(** ** The environment

    The answers of the kernel and the hardware.  Each call draws its answer at
    the current tick and advances the tick, so that two calls with the same
    arguments may be answered differently. *)
Class kenv := KEnv {
  (** [kmalloc] and its relatives: did the allocation succeed? *)
  env_alloc : Z → bool;
  (** The contents of a field of a [kmalloc]ed object that nobody wrote. *)
  env_uninit : Z → Z;
  (** [copy_from_user] and [copy_to_user]: was everything copied? *)
  env_copy_from : Z → bool;
  env_copy_to : Z → bool;
  (** [get_user_pages tick vaddr n]: its return value and the pages it pinned. *)
  env_gup : Z → Z → Z → Z * list Z;
  env_dma_map_page : Z → ptr → Z → Z;
  env_dma_mapping_error : ptr → Z → Z;
  (** [ida_simple_get tick used start]. *)
  env_ida : Z → gset Z → Z → Z;
  (** [snvme_submit_sync_cmd]: 0, a negative errno or an NVMe status. *)
  env_admin : Z → ptr → nvme_command → Z;
  (** [snvme_find_get_ns]: the disk name and the lba shift of namespace 1. *)
  env_find_ns : Z → ptr → option (string * Z);
  env_iomap : Z → Z;
  (** [cdev_add], [device_create] and [class_create]: 0 or a negative errno. *)
  env_cdev_add : Z → Z;
  env_device_create : Z → Z;
  env_class_create : Z → Z;
  (** [alloc_chrdev_region]: its return value and the first device number. *)
  env_chrdev_region : Z → Z * Z;
  env_register_driver : Z → Z;
  (** [device_attach tick dev driver]: its return value and, when it is 1, the
      device structure that probing installed. *)
  env_device_attach : Z → ptr → string → Z * nvme_dev;
}.

(** What the documentation of those calls promises. *)
Class kenv_laws (E : kenv) := {
  env_gup_count : ∀ t v n, 0 < (env_gup t v n).1 →
    Z.of_nat (length (env_gup t v n).2) = (env_gup t v n).1 ∧ (env_gup t v n).1 ≤ n;
  env_gup_zero : ∀ t v n, 0 < n → (env_gup t v n).1 ≠ 0;
  env_dma_mapping_error_neg : ∀ d a, env_dma_mapping_error d a ≤ 0;
  env_ida_fresh : ∀ t u a, 0 ≤ env_ida t u a →
    (env_ida t u a ∉ u) ∧ a ≤ env_ida t u a < 2 ^ 31;
  (** [device_attach]: 1 when a driver was bound, 0 when none matches, or an errno. *)
  env_attach_result : ∀ t d n, (env_device_attach t d n).1 ≤ 1;
  (** Queue counts of a probed device: NVMe numbers queues with 16 bits. *)
  env_attach_queues : ∀ t d n, 0 ≤ nd_online_queues (env_device_attach t d n).2 ∧
    0 ≤ nd_ctrl_max_io_queues (env_device_attach t d n).2 < 2 ^ 16;
}.

(** ** Primitive operations *)

Definition ask {A} (f : Z → A) : K snvm A :=
  t ← gets k_tick; modify (λ s, s<{k_tick := t + 1}>);; mret (f t).
Definition emit (e : event) : K snvm unit := modify (λ s, s<{k_log := k_log s ++ [e] }>).
Definition emits (es : list event) : K snvm unit := modify (λ s, s<{k_log := k_log s ++ es }>).

(** Addresses of new objects. *)
Definition fresh : K snvm ptr :=
  p ← gets k_next; modify (λ s, s<{k_next := Pos.succ p}>);; mret p.

(** The heap of objects of each type. *)
Class Heap (V : Type) := {
  heap : snvm → gmap ptr V;
  on_heap : (gmap ptr V → gmap ptr V) → snvm → snvm;
}.
#[export] Instance heap_map : Heap map := {| heap := k_maps; on_heap f s := s<{k_maps ::= f}> |}.
#[export] Instance heap_ctrl : Heap ctrl := {| heap := k_ctrls; on_heap f s := s<{k_ctrls ::= f}> |}.
#[export] Instance heap_group : Heap snvm_qgroup :=
  {| heap := k_groups; on_heap f s := s<{k_groups ::= f}> |}.
#[export] Instance heap_owner : Heap snvm_dev_owner :=
  {| heap := k_owners; on_heap f s := s<{k_owners ::= f}> |}.
#[export] Instance heap_file : Heap file := {| heap := k_files; on_heap f s := s<{k_files ::= f}> |}.
#[export] Instance heap_ndev : Heap nvme_dev := {| heap := k_ndevs; on_heap f s := s<{k_ndevs ::= f}> |}.
#[export] Instance heap_pdev : Heap pci_dev := {| heap := k_pdevs; on_heap f s := s<{k_pdevs ::= f}> |}.

(** Reading, writing and freeing an object through a pointer; each faults when
    the pointer dangles. *)
Definition load {V} `{Heap V} (p : ptr) : K snvm V := λ s, x ← heap s !! p; Some (x, s).
Definition store {V} `{Heap V} (p : ptr) (v : V) : K snvm unit := λ s,
  _ ← heap s !! p; Some (tt, on_heap <[p := v]> s).
Definition alter_obj {V} `{Heap V} (p : ptr) (f : V → V) : K snvm unit :=
  v ← load p; store p (f v).
Definition create {V} `{Heap V} (v : V) : K snvm ptr :=
  p ← fresh; modify (on_heap <[p := v]>);; mret p.
Definition kfree_obj (V : Type) `{Heap V} (p : ptr) : K snvm unit := λ s,
  _ ← heap s !! p; Some (tt, on_heap (delete p) s).

Section heap_wp.
Context {V : Type} `{Heap V}.

Lemma wp_load p (v : V) (Q : V → snvm → Prop) s :
  heap s !! p = Some v → Q v s → wp (load p) Q s.
Proof. intros Hp HQ. eapply wp_of_run; [|done]. by rw /load Hp. Qed.

Lemma wp_store p (v w : V) (Q : unit → snvm → Prop) s :
  heap s !! p = Some w → Q tt (on_heap <[p := v]> s) → wp (store p v) Q s.
Proof. intros Hp HQ. eapply wp_of_run; [|done]. by rw /store Hp. Qed.

Lemma wp_alter_obj p (f : V → V) v (Q : unit → snvm → Prop) s :
  heap s !! p = Some v → Q tt (on_heap <[p := f v]> s) → wp (alter_obj p f) Q s.
Proof.
  intros Hp HQ. apply wp_bind. eapply wp_load; [done|]. by eapply wp_store.
Qed.

Lemma wp_create (v : V) (Q : ptr → snvm → Prop) s :
  Q (k_next s) (on_heap <[k_next s := v]> s<{k_next := Pos.succ (k_next s)}>) →
  wp (create v) Q s.
Proof.
  intros HQ. rw /create /fresh. repeat (apply wp_bind).
  apply wp_gets. apply wp_bind, wp_modify. apply wp_ret, wp_bind, wp_modify. by apply wp_ret.
Qed.

Lemma wp_kfree_obj p (v : V) (Q : unit → snvm → Prop) s :
  heap s !! p = Some v → Q tt (on_heap (delete p) s) → wp (kfree_obj V p) Q s.
Proof. intros Hp HQ. eapply wp_of_run; [|done]. by rw /kfree_obj Hp. Qed.
End heap_wp.

Lemma wp_ask {A} (f : Z → A) (Q : A → snvm → Prop) s :
  Q (f (k_tick s)) s<{k_tick := k_tick s + 1}> → wp (ask f) Q s.
Proof. done. Qed.
Lemma wp_emit e (Q : unit → snvm → Prop) s :
  Q tt s<{k_log := k_log s ++ [e] }> → wp (emit e) Q s.
Proof. done. Qed.
Lemma wp_emits es (Q : unit → snvm → Prop) s :
  Q tt s<{k_log := k_log s ++ es }> → wp (emits es) Q s.
Proof. done. Qed.
Lemma wp_fresh (Q : ptr → snvm → Prop) s :
  Q (k_next s) s<{k_next := Pos.succ (k_next s)}> → wp fresh Q s.
Proof. done. Qed.

(** ** States up to the log and the tick

    [s ≡ₗ s'] when the module's own data agree. *)
Definition core (s : snvm) : snvm := s<{k_log := [] }><{k_tick := 0}>.
Definition same_core (s s' : snvm) : Prop := core s = core s'.
Infix "≡ₗ" := same_core (at level 70) : snvm_scope.
#[export] Instance same_core_equiv : Equivalence same_core.
Proof. split; rw /same_core; [by intros ?|by intros ??|by intros ???->]. Qed.

Lemma core_emits es s : s<{k_log := es}> ≡ₗ s.
Proof. done. Qed.
Lemma core_tick t s : s<{k_tick := t}> ≡ₗ s.
Proof. done. Qed.

(** The same state with another log and tick. *)
Lemma same_core_inv s s' : s' ≡ₗ s → ∃ l t, s' = s<{k_log := l}><{k_tick := t}>.
Proof.
  intros E. exists (k_log s'), (k_tick s'). destruct s, s'. rw /same_core /core /= in E.
  inversion E. by subst.
Qed.

(** A function on states that neither reads nor writes the log and the tick. *)
Class Framed (f : snvm → snvm) : Prop := {
  framed_comm : ∀ s l t, f s<{k_log := l}><{k_tick := t}> = (f s)<{k_log := l}><{k_tick := t}>;
  framed_log : ∀ s, k_log (f s) = k_log s;
}.
Lemma framed_id : Framed (λ s, s).
Proof. done. Qed.
Lemma framed_compose f g : Framed f → Framed g → Framed (λ s, f (g s)).
Proof.
  intros Hf Hg. split; intros s; [intros l t; by rw !framed_comm|by rw !framed_log].
Qed.
Lemma same_core_framed f s s' : Framed f → s ≡ₗ s' → f s ≡ₗ f s'.
Proof. intros Hf (l & t & ->)%same_core_inv. by rw framed_comm. Qed.

(** The controller [c] replaced. *)
Definition set_ctrl (c : ptr) (x : ctrl) (s : snvm) : snvm := s<{k_ctrls ::= <[c := x]>}>.
#[export] Instance framed_set_ctrl c x : Framed (set_ctrl c x).
Proof. done. Qed.

(** [steps es s s']: [s'] is [s] after the events [es]. *)
Definition steps (es : list event) (s s' : snvm) : Prop :=
  ∃ t, s' = s<{k_log := k_log s ++ es}><{k_tick := t}>.

Lemma steps_refl s : steps [] s s.
Proof. exists (k_tick s). rw app_nil_r. by destruct s. Qed.
Lemma steps_tick t s : steps [] s s<{k_tick := t}>.
Proof. exists t. rw app_nil_r. by destruct s. Qed.
Lemma steps_emit e s : steps [e] s s<{k_log := k_log s ++ [e] }>.
Proof. exists (k_tick s). by destruct s. Qed.
Lemma steps_trans es es' s1 s2 s3 : steps es s1 s2 → steps es' s2 s3 → steps (es ++ es') s1 s3.
Proof. intros (t & ->) (t' & ->). exists t'. by rw /= app_assoc. Qed.
Lemma steps_framed f es s s' : Framed f → steps es s s' → steps es (f s) (f s').
Proof. intros Hf (t & ->). exists t. by rw framed_comm framed_log. Qed.
Lemma steps_core es s s' : steps es s s' → s' ≡ₗ s.
Proof. by intros (t & ->). Qed.
Lemma steps_log es s s' : steps es s s' → k_log s' = k_log s ++ es.
Proof. by intros (t & ->). Qed.
Lemma steps_of_core s s' : s' ≡ₗ s → k_log s' = k_log s → steps [] s s'.
Proof. intros (l & t & ->)%same_core_inv E. simpl in E. exists t. by rw E app_nil_r. Qed.

(** The log grows by events that satisfy [P]. *)
Definition log_ext (P : event → Prop) (s s' : snvm) : Prop :=
  ∃ es, k_log s' = k_log s ++ es ∧ Forall P es.

Lemma log_ext_refl P s s' : k_log s' = k_log s → log_ext P s s'.
Proof. intros E. exists []. by rw E app_nil_r. Qed.
Lemma log_ext_trans P s1 s2 s3 : log_ext P s1 s2 → log_ext P s2 s3 → log_ext P s1 s3.
Proof.
  intros (es & E & H) (es' & E' & H'). exists (es ++ es'). rw E' E app_assoc Forall_app. done.
Qed.
Lemma log_ext_mono (P P' : event → Prop) s s' :
  (∀ e, P e → P' e) → log_ext P s s' → log_ext P' s s'.
Proof. intros HP (es & E & H). exists es. split; [done|]. by eapply Forall_impl. Qed.

(** Nothing but the log and the tick changes, and the log grows by [P] events. *)
Definition quiet (P : event → Prop) (s s' : snvm) : Prop := s' ≡ₗ s ∧ log_ext P s s'.

Lemma quiet_refl P s : quiet P s s.
Proof. split; [done|by apply log_ext_refl]. Qed.
Lemma quiet_trans P s1 s2 s3 : quiet P s1 s2 → quiet P s2 s3 → quiet P s1 s3.
Proof. intros [E1 L1] [E2 L2]. split; [by etrans|by eapply log_ext_trans]. Qed.
Lemma quiet_tick P s t : quiet P s s<{k_tick := t}>.
Proof. split; [done|by apply log_ext_refl]. Qed.
Lemma quiet_emit (P : event → Prop) s e : P e → quiet P s s<{k_log := k_log s ++ [e] }>.
Proof. intros. split; [done|]. exists [e]. split; [done|]. by constructor. Qed.

Lemma quiet_inv P s s' :
  quiet P s s' → ∃ es t, Forall P es ∧ s' = s<{k_log := k_log s ++ es}><{k_tick := t}>.
Proof.
  intros [(l & t & ->)%same_core_inv (es & E & HP)]. exists es, t. by rw -E.
Qed.
Lemma quiet_mono (P P' : event → Prop) s s' : (∀ e, P e → P' e) → quiet P s s' → quiet P' s s'.
Proof. intros ? []. split; [done|by eapply log_ext_mono]. Qed.

(** Symbolic execution through the environment and the log. *)
Ltac env_steps :=
  repeat (first [ apply wp_ask | apply wp_emit | wp_step ]; cbv beta iota).
(** A state reached by asking and emitting is quiet. *)
Ltac quiet_tac :=
  repeat lazymatch goal with
  | |- quiet _ ?s ?s => apply quiet_refl
  | |- quiet _ _ (upd k_tick _ _) => eapply quiet_trans; [|apply quiet_tick]
  | |- quiet _ _ (upd k_log _ _) => eapply quiet_trans; [|by apply quiet_emit]
  end.

(** Walk a list of objects and return the first one that satisfies [f]. *)
Fixpoint kfind {V} `{Heap V} (f : ptr → V → bool) (l : list ptr) : K snvm (option ptr) :=
  match l with
  | [] => mret None
  | p :: l => v ← load p; if f p v then mret (Some p) else kfind f l
  end.

(** Its result, as a function of the heap. *)
Fixpoint pfind {V} (h : gmap ptr V) (f : ptr → V → bool) (l : list ptr) : option ptr :=
  match l with
  | [] => None
  | p :: l =>
    match h !! p with
    | Some v => if f p v then Some p else pfind h f l
    | None => None
    end
  end.

Definition allocated {V} (h : gmap ptr V) (l : list ptr) : Prop := Forall (λ p, is_Some (h !! p)) l.

Lemma allocated_insert {V} (h : gmap ptr V) l p v : allocated h l → allocated (<[p := v]> h) l.
Proof.
  intros Hl. eapply Forall_impl; [exact Hl|]. intros q Hq. rw lookup_insert_is_Some'. by right.
Qed.

Section kfind.
Context {V : Type} `{Heap V}.

Lemma wp_kfind f l (Q : option ptr → snvm → Prop) s :
  allocated (heap s) l → Q (pfind (heap s) f l) s → wp (kfind f l) Q s.
Proof.
  induction 1 as [|p l [v Hv] Hl IH]; simpl; [by intros; apply wp_ret|].
  rw Hv. intros HQ. apply wp_bind. eapply wp_load; [done|].
  destruct (f p v); [by apply wp_ret|by apply IH].
Qed.

Lemma kfind_run (f : ptr → V → bool) l s :
  allocated (heap s) l → kfind f l s = Some (pfind (heap s) f l, s).
Proof.
  induction 1 as [|p l [v Hv] Hl IH]; simpl; [done|].
  rw /mbind /K_bind /load !Hv /=. destruct (f p v); [done|by apply IH].
Qed.

(** The answer: in the list, satisfying [f], and no earlier element does. *)
Lemma pfind_Some (h : gmap ptr V) f l p :
  pfind h f l = Some p →
  ∃ l1 l2 v, l = l1 ++ p :: l2 ∧ h !! p = Some v ∧ f p v = true ∧
    Forall (λ q, ∀ w, h !! q = Some w → f q w = false) l1.
Proof.
  induction l as [|q l IH]; simpl; [done|].
  destruct (h !! q) as [w|] eqn:Hq; [|done]. destruct (f q w) eqn:Hf.
  - intros [= ->]. exists [], l, w. by split_and!.
  - intros (l1 & l2 & v & -> & Hv & Hfv & Hl1)%IH. exists (q :: l1), l2, v.
    split_and!; [done..|]. constructor; [|done]. intros w' ?. congruence.
Qed.

Lemma pfind_None (h : gmap ptr V) f l :
  allocated h l →
  pfind h f l = None ↔ Forall (λ q, ∀ w, h !! q = Some w → f q w = false) l.
Proof.
  induction 1 as [|q l [w Hw] Hl IH]; simpl; [by split|].
  rw Hw Forall_cons. destruct (f q w) eqn:Hf.
  - split; [done|]. intros [Hq _]. specialize (Hq w). intuition congruence.
  - rw IH. split; [|by intros []]. intros ?. split; [|done]. intros w' ?. congruence.
Qed.

Lemma pfind_elem (h : gmap ptr V) f l p : pfind h f l = Some p → p ∈ l.
Proof. intros (l1 & l2 & v & -> & _)%pfind_Some. set_solver. Qed.
End kfind.
