(* ===== verification/P2p.v ===== *)
(** * Peer-to-peer backends (npu-p2p.c, nvfs-p2p.c)

    map.c pins and maps device memory through six functions named
    [nvfs_nvidia_p2p_*].  They have two implementations, chosen at build time:
    npu-p2p.c imports a dma-buf, nvfs-p2p.c forwards to the NVIDIA driver through
    function pointers it resolves by symbol name.  The class [P2pBackend] is the
    set of functions, [P2pLaws] what map.c relies on, and the two instances are
    the two files. *)
From S2P Require Import Prelude KState.

(** The functions, with the fixed arguments 0, 0 of map.c left out.  The out
    parameters [page_table] and [dma_mapping] are results: [None] when the
    function did not write them. *)
Class P2pBackend := {
  p2p_init : K snvm Z;
  p2p_exit : K snvm unit;
  p2p_get_pages : Z → Z → K snvm (Z * option p2p_table);
  p2p_dma_map_pages : ptr → p2p_table → K snvm (Z * option p2p_mapping);
  p2p_dma_unmap_pages : ptr → option p2p_table → p2p_mapping → K snvm Z;
  p2p_put_pages : Z → p2p_table → K snvm Z;
  p2p_free_page_table : p2p_table → K snvm Z;
}.

(** The events of a dma-buf backend. *)
Definition p2p_event (e : event) : Prop :=
  match e with
  | EvDmabufGet _ | EvDmabufPut _ | EvDmabufAttach _ _ _ | EvDmabufDetach _ _
  | EvMapAttachment _ _ | EvUnmapAttachment _ _ => True
  | _ => False
  end.

(** Every function returns and leaves the module's data alone; an out parameter
    is written exactly on success and an error is a negative number; a table has
    an entry for each 64 KiB page asked for; a mapping has an address for each
    page of the table. *)
Class P2pLaws (B : P2pBackend) := {
  p2p_init_ok : ∀ s, wp p2p_init (λ _ s', quiet p2p_event s s') s;
  p2p_exit_ok : ∀ s, wp p2p_exit (λ _ s', quiet p2p_event s s') s;
  p2p_get_pages_ok : ∀ v l s,
    wp (p2p_get_pages v l) (λ r s', quiet p2p_event s s' ∧
      match r.2 with
      | Some t => r.1 = 0 ∧ 0 < pt_entries t < 2 ^ 32 ∧
          (∀ n, 0 < n < 2 ^ 32 → l = 65536 * n → pt_entries t = n)
      | None => r.1 < 0
      end) s;
  p2p_dma_map_pages_ok : ∀ d t s, 0 < pt_entries t →
    wp (p2p_dma_map_pages d t) (λ r s', quiet p2p_event s s' ∧
      match r.2 with
      | Some m => r.1 = 0 ∧ Z.of_nat (length (pm_addresses m)) = pt_entries t
      | None => r.1 < 0
      end) s;
  p2p_dma_unmap_pages_ok : ∀ d t m s,
    wp (p2p_dma_unmap_pages d t m) (λ _ s', quiet p2p_event s s') s;
  p2p_put_pages_ok : ∀ v t s, wp (p2p_put_pages v t) (λ _ s', quiet p2p_event s s') s;
  p2p_free_page_table_ok : ∀ t s,
    wp (p2p_free_page_table t) (λ _ s', quiet p2p_event s s') s;
}.

(** ** npu-p2p.c *)

Module Npu.

Definition NPU_PAGE_SHIFT : Z := 16.
Definition NPU_PAGE_SIZE : Z := Z.shiftl 1 NPU_PAGE_SHIFT.

(** The dma-buf interface: [inl] is an error pointer's code. *)
Class dma_buf_env := {
  env_dma_buf_get : Z → Z → Z + Z;
  env_dma_buf_attach : Z → Z → ptr → Z + Z;
  env_map_attachment : Z → Z → Z + (Z * list (Z * Z));
}.

(** An error pointer's code is an errno: in [-MAX_ERRNO, -1]. *)
Class dma_buf_laws (E : dma_buf_env) := {
  env_dma_buf_get_err : ∀ t fd e, env_dma_buf_get t fd = inl e → e < 0;
  env_dma_buf_attach_err : ∀ t b d e, env_dma_buf_attach t b d = inl e → e < 0;
  env_map_attachment_err : ∀ t a e, env_map_attachment t a = inl e → e < 0;
}.

Section backend.
Context `{!kenv, !dma_buf_env}.

Definition nvfs_nvidia_p2p_init : K snvm Z := mret 0.
Definition nvfs_nvidia_p2p_exit : K snvm unit := mret tt.

(** [(int)virtual_address]: the low 32 bits, signed. *)
Definition nvfs_nvidia_p2p_get_pages (virtual_address length : Z) :
    K snvm (Z * option p2p_table) :=
  let fd := s32 virtual_address in
  a ← ask env_alloc;
  if negb a then mret (- ENOMEM, None) else
  r ← ask (λ t, env_dma_buf_get t fd);
  match r with
  | inl e => mret (e, None)
  | inr dmabuf =>
    emit (EvDmabufGet dmabuf);;
    let entries := u32 (Z.shiftr length NPU_PAGE_SHIFT) in
    let entries := if entries =? 0 then 1 else entries in
    mret (0, Some (P2pTable entries dmabuf))
  end.

(** [for (off = 0; off < len && idx < n; off += NPU_PAGE_SIZE)]: [room] is
    [n - idx], and [off] is an [unsigned int]. *)
Fixpoint sg_pages (room : nat) (base len off : Z) : list Z :=
  match room with
  | O => []
  | S room =>
    if off <? len
    then u64 (base + off) :: sg_pages room base len (u32 (off + NPU_PAGE_SIZE))
    else []
  end.

(** [for_each_sg] with its early break. *)
Fixpoint sgl_pages (room : nat) (sgl : list (Z * Z)) : list Z :=
  match sgl with
  | [] => []
  | (base, len) :: sgl =>
    let xs := sg_pages room base len 0 in
    if (room <=? length xs)%nat then xs else xs ++ sgl_pages (room - length xs) sgl
  end.

Definition nvfs_nvidia_p2p_dma_map_pages (peer : ptr) (pt : p2p_table) :
    K snvm (Z * option p2p_mapping) :=
  let n := Z.to_nat (pt_entries pt) in
  a ← ask env_alloc;
  if negb a then mret (- ENOMEM, None) else
  a ← ask env_alloc;
  if negb a then mret (- ENOMEM, None) else
  r ← ask (λ t, env_dma_buf_attach t (pt_object pt) peer);
  match r with
  | inl rc => mret (rc, None)
  | inr attach =>
    emit (EvDmabufAttach (pt_object pt) peer attach);;
    r ← ask (λ t, env_map_attachment t attach);
    match r with
    | inl rc => emit (EvDmabufDetach (pt_object pt) attach);; mret (rc, None)
    | inr (sgt, sgl) =>
      emit (EvMapAttachment attach sgt);;
      let filled := sgl_pages n sgl in
      let addrs := filled ++ replicate (n - length filled) 0 in
      mret (0, Some (P2pMapping addrs attach sgt (Z.of_nat (length filled))))
    end
  end.

Definition nvfs_nvidia_p2p_dma_unmap_pages (peer : ptr) (pt : option p2p_table)
    (m : p2p_mapping) : K snvm Z :=
  emit (EvUnmapAttachment (pm_attach m) (pm_sgt m));;
  match pt with
  | Some pt => emit (EvDmabufDetach (pt_object pt) (pm_attach m));; mret 0
  | None => mret 0
  end.

Definition nvfs_nvidia_p2p_put_pages (virtual_address : Z) (pt : p2p_table) : K snvm Z :=
  emit (EvDmabufPut (pt_object pt));; mret 0.

Definition nvfs_nvidia_p2p_free_page_table (pt : p2p_table) : K snvm Z :=
  emit (EvDmabufPut (pt_object pt));; mret 0.

Definition npu_backend : P2pBackend := {|
  p2p_init := nvfs_nvidia_p2p_init;
  p2p_exit := nvfs_nvidia_p2p_exit;
  p2p_get_pages := nvfs_nvidia_p2p_get_pages;
  p2p_dma_map_pages := nvfs_nvidia_p2p_dma_map_pages;
  p2p_dma_unmap_pages := nvfs_nvidia_p2p_dma_unmap_pages;
  p2p_put_pages := nvfs_nvidia_p2p_put_pages;
  p2p_free_page_table := nvfs_nvidia_p2p_free_page_table;
|}.
End backend.

(** *** The page expansion *)

Lemma length_sg_pages room base len off : (length (sg_pages room base len off) ≤ room)%nat.
Proof.
  revert off. induction room as [|room IH]; intros off; simpl; [lia|].
  destruct (off <? len); simpl; [specialize (IH (u32 (off + NPU_PAGE_SIZE)))|]; lia.
Qed.

Lemma length_sgl_pages room sgl : (length (sgl_pages room sgl) ≤ room)%nat.
Proof.
  revert room. induction sgl as [|[base len] sgl IH]; intros room; simpl; [lia|].
  pose proof (length_sg_pages room base len 0).
  case_match; [done|]. rw length_app. specialize (IH (room - length (sg_pages room base len 0))%nat).
  lia.
Qed.

(** The reference: one address per started 64 KiB page of the segment. *)
Definition seg_npages (len : Z) : Z := (len + NPU_PAGE_SIZE - 1) / NPU_PAGE_SIZE.
Definition seg_pages (seg : Z * Z) : list Z :=
  (λ i, seg.1 + NPU_PAGE_SIZE * i) <$> seqZ 0 (seg_npages seg.2).

(** A segment whose bus addresses do not wrap and whose length leaves room for
    the [unsigned int] offset to pass its end. *)
Definition seg_ok (seg : Z * Z) : Prop :=
  0 ≤ seg.1 ∧ 0 ≤ seg.2 ≤ 2 ^ 32 - NPU_PAGE_SIZE ∧ seg.1 + seg.2 ≤ 2 ^ 64.

Lemma sg_pages_spec room base len i :
  seg_ok (base, len) → 0 ≤ i →
  sg_pages room base len (NPU_PAGE_SIZE * i) =
    take room ((λ i, base + NPU_PAGE_SIZE * i) <$> seqZ i (seg_npages len - i)).
Proof.
  rw /seg_ok /seg_npages. change NPU_PAGE_SIZE with 65536. simpl. intros Hok.
  revert i. induction room as [|room IH]; intros i Hi; [by rw take_0|]. simpl.
  assert (len = 65536 * ((len + 65535) / 65536) - (65535 - (len + 65535) mod 65536)) as Hlen.
  { pose proof (Z.div_mod (len + 65535) 65536). lia. }
  pose proof (Z.mod_pos_bound (len + 65535) 65536 ltac:(lia)).
  replace (len + 65536 - 1) with (len + 65535) in * by lia.
  destruct (Z.ltb_spec (65536 * i) len).
  - rw seqZ_cons; [|lia]. simpl. rw u64_id; [|lia]. change NPU_PAGE_SIZE with 65536. rw u32_id; [|lia].
    f_equal. replace (65536 * i + 65536) with (65536 * Z.succ i) by lia.
    rw IH; [|lia]. do 3 f_equal. lia.
  - rw seqZ_nil; [done|lia].
Qed.

Lemma sgl_pages_spec room sgl :
  Forall seg_ok sgl → sgl_pages room sgl = take room (sgl ≫= seg_pages).
Proof.
  intros Hok. revert room. induction Hok as [|[base len] sgl Hseg Hok IH]; intros room; simpl.
  { by rw take_nil. }
  assert (sg_pages room base len 0 = take room (seg_pages (base, len))) as ->.
  { rw -(Z.mul_0_r NPU_PAGE_SIZE) sg_pages_spec //. rw /seg_pages /= Z.sub_0_r //. }
  rw length_take IH. case_match eqn:E.
  - apply Nat.leb_le in E. rw take_app_le //. lia.
  - apply Nat.leb_gt in E. rw take_ge; [|lia]. rw take_app_ge; [|lia].
    do 3 f_equal. lia.
Qed.

(** *** The interface *)

Lemma npu_laws `{!kenv, E : !dma_buf_env, !dma_buf_laws E} : P2pLaws npu_backend.
Proof.
  split; simpl.
  - intros s. apply wp_ret. quiet_tac.
  - intros s. apply wp_ret. quiet_tac.
  - intros v l s. rw /nvfs_nvidia_p2p_get_pages. env_steps;
      (split; [quiet_tac|]); cbn [fst snd].
    + by rw /ENOMEM.
    + by eapply env_dma_buf_get_err.
    + split; [done|]. cbn [pt_entries]. pose proof (u32_range (l ≫ NPU_PAGE_SHIFT)).
      split; [case_match; lia|]. intros n Hn ->.
      rw Z.shiftr_div_pow2; [|done]. change (2 ^ NPU_PAGE_SHIFT) with 65536.
      rw (Z.mul_comm 65536) Z_div_mult // u32_id; [|lia]. case_match; lia.
  - intros d t s Ht. rw /nvfs_nvidia_p2p_dma_map_pages. env_steps;
      (split; [quiet_tac|]); cbn [fst snd].
    + by rw /ENOMEM.
    + by rw /ENOMEM.
    + by eapply env_dma_buf_attach_err.
    + by eapply env_map_attachment_err.
    + split; [done|]. cbn [pm_addresses]. rw length_app length_replicate.
      pose proof (length_sgl_pages (Z.to_nat (pt_entries t)) l). lia.
  - intros d [t|] m s; rw /nvfs_nvidia_p2p_dma_unmap_pages; env_steps; quiet_tac.
  - intros v t s. rw /nvfs_nvidia_p2p_put_pages. env_steps. quiet_tac.
  - intros t s. rw /nvfs_nvidia_p2p_free_page_table. env_steps. quiet_tac.
Qed.

End Npu.

(** ** nvfs-p2p.c *)

Module Nvidia.

(** The six function pointers: which of them are resolved. *)
Record syms := Syms {
  sym_dma_unmap_pages : bool;
  sym_get_pages : bool;
  sym_put_pages : bool;
  sym_dma_map_pages : bool;
  sym_free_dma_mapping : bool;
  sym_free_page_table : bool;
}.
Definition no_syms : syms := Syms false false false false false false.

(** References taken and dropped on the NVIDIA module's symbols. *)
Inductive sym_op := SymGet (name : string) | SymPut (name : string).

Definition put_sym (p : bool) (name : string) : list sym_op :=
  if p then [SymPut name] else [].

Definition nvfs_nvidia_put_symbols (t : syms) : list sym_op * syms :=
  (put_sym (sym_dma_unmap_pages t) "nvidia_p2p_dma_unmap_pages" ++
   put_sym (sym_get_pages t) "nvidia_p2p_get_pages" ++
   put_sym (sym_put_pages t) "nvidia_p2p_put_pages" ++
   put_sym (sym_dma_map_pages t) "nvidia_p2p_dma_map_pages" ++
   put_sym (sym_free_dma_mapping t) "nvidia_p2p_free_dma_mapping" ++
   put_sym (sym_free_page_table t) "nvidia_p2p_free_page_table", no_syms).

Section init.
(** [__symbol_get]: is the symbol exported by a loaded module? *)
Variable symbol_get : string → bool.

(** One [if (p == NULL) { p = __symbol_get(name); if (p == NULL) goto error; }]:
    whether the pointer is set afterwards, and the references taken. *)
Definition get_sym (p : bool) (name : string) : bool * list sym_op :=
  if p then (true, []) else
  if symbol_get name then (true, [SymGet name]) else (false, []).

(** The error label. *)
Definition init_error (ops : list sym_op) (t : syms) : Z * list sym_op * syms :=
  let '(puts, t') := nvfs_nvidia_put_symbols t in (-1, ops ++ puts, t').

Definition nvfs_nvidia_p2p_init (t : syms) : Z * list sym_op * syms :=
  let '(p, o1) := get_sym (sym_dma_unmap_pages t) "nvidia_p2p_dma_unmap_pages" in
  let t := Syms p (sym_get_pages t) (sym_put_pages t) (sym_dma_map_pages t)
             (sym_free_dma_mapping t) (sym_free_page_table t) in
  if negb p then init_error o1 t else
  let '(p, o2) := get_sym (sym_get_pages t) "nvidia_p2p_get_pages" in
  let t := Syms (sym_dma_unmap_pages t) p (sym_put_pages t) (sym_dma_map_pages t)
             (sym_free_dma_mapping t) (sym_free_page_table t) in
  if negb p then init_error (o1 ++ o2) t else
  let '(p, o3) := get_sym (sym_put_pages t) "nvidia_p2p_put_pages" in
  let t := Syms (sym_dma_unmap_pages t) (sym_get_pages t) p (sym_dma_map_pages t)
             (sym_free_dma_mapping t) (sym_free_page_table t) in
  if negb p then init_error (o1 ++ o2 ++ o3) t else
  let '(p, o4) := get_sym (sym_dma_map_pages t) "nvidia_p2p_dma_map_pages" in
  let t := Syms (sym_dma_unmap_pages t) (sym_get_pages t) (sym_put_pages t) p
             (sym_free_dma_mapping t) (sym_free_page_table t) in
  if negb p then init_error (o1 ++ o2 ++ o3 ++ o4) t else
  let '(p, o5) := get_sym (sym_free_dma_mapping t) "nvidia_p2p_free_dma_mapping" in
  let t := Syms (sym_dma_unmap_pages t) (sym_get_pages t) (sym_put_pages t)
             (sym_dma_map_pages t) p (sym_free_page_table t) in
  if negb p then init_error (o1 ++ o2 ++ o3 ++ o4 ++ o5) t else
  let '(p, o6) := get_sym (sym_free_page_table t) "nvidia_p2p_free_page_table" in
  let t := Syms (sym_dma_unmap_pages t) (sym_get_pages t) (sym_put_pages t)
             (sym_dma_map_pages t) (sym_free_dma_mapping t) p in
  if negb p then init_error (o1 ++ o2 ++ o3 ++ o4 ++ o5 ++ o6) t else
  (0, o1 ++ o2 ++ o3 ++ o4 ++ o5 ++ o6, t).
End init.

Definition nvfs_nvidia_p2p_exit (t : syms) : list sym_op * syms := nvfs_nvidia_put_symbols t.

(** The NVIDIA driver's functions.  *)
Class nv_driver := {
  nv_get_pages : Z → Z → Z → Z * option p2p_table;
  nv_dma_map_pages : Z → ptr → p2p_table → Z * option p2p_mapping;
  nv_dma_unmap_pages : Z → ptr → option p2p_table → p2p_mapping → Z;
  nv_put_pages : Z → Z → p2p_table → Z;
  nv_free_page_table : Z → p2p_table → Z;
}.

(** Their documented behaviour. *)
Class nv_driver_laws (D : nv_driver) := {
  nv_get_pages_law : ∀ t v l,
    match (nv_get_pages t v l).2 with
    | Some pt => (nv_get_pages t v l).1 = 0 ∧ 0 < pt_entries pt < 2 ^ 32 ∧
        (∀ n, 0 < n < 2 ^ 32 → l = 65536 * n → pt_entries pt = n)
    | None => (nv_get_pages t v l).1 < 0
    end;
  nv_dma_map_pages_law : ∀ t d pt,
    match (nv_dma_map_pages t d pt).2 with
    | Some m => (nv_dma_map_pages t d pt).1 = 0 ∧
        Z.of_nat (length (pm_addresses m)) = pt_entries pt
    | None => (nv_dma_map_pages t d pt).1 < 0
    end;
}.

Section backend.
Context `{!nv_driver} (t : syms).

Definition nvfs_nvidia_p2p_get_pages (v l : Z) : K snvm (Z * option p2p_table) :=
  if sym_get_pages t then ask (λ k, nv_get_pages k v l) else mret (- ENOMEM, None).
Definition nvfs_nvidia_p2p_dma_map_pages (d : ptr) (pt : p2p_table) :
    K snvm (Z * option p2p_mapping) :=
  if sym_dma_map_pages t then ask (λ k, nv_dma_map_pages k d pt) else mret (- ENOMEM, None).
Definition nvfs_nvidia_p2p_dma_unmap_pages (d : ptr) (pt : option p2p_table)
    (m : p2p_mapping) : K snvm Z :=
  if sym_dma_unmap_pages t then ask (λ k, nv_dma_unmap_pages k d pt m) else mret (- ENOMEM).
Definition nvfs_nvidia_p2p_put_pages (v : Z) (pt : p2p_table) : K snvm Z :=
  if sym_put_pages t then ask (λ k, nv_put_pages k v pt) else mret (- ENOMEM).
Definition nvfs_nvidia_p2p_free_page_table (pt : p2p_table) : K snvm Z :=
  if sym_free_page_table t then ask (λ k, nv_free_page_table k pt) else mret (- ENOMEM).

End backend.

(** The backend of a module that was loaded with the symbols [symbol_get]: its
    table is the one [nvfs_nvidia_p2p_init] left. *)
Definition nvidia_backend `{!nv_driver} (symbol_get : string → bool) : P2pBackend :=
  let '(rc, _, t) := nvfs_nvidia_p2p_init symbol_get no_syms in {|
  p2p_init := mret rc;
  p2p_exit := mret tt;
  p2p_get_pages := nvfs_nvidia_p2p_get_pages t;
  p2p_dma_map_pages := nvfs_nvidia_p2p_dma_map_pages t;
  p2p_dma_unmap_pages := nvfs_nvidia_p2p_dma_unmap_pages t;
  p2p_put_pages := nvfs_nvidia_p2p_put_pages t;
  p2p_free_page_table := nvfs_nvidia_p2p_free_page_table t;
|}.

Lemma nvidia_laws `{D : nv_driver, !nv_driver_laws D} symbol_get :
  P2pLaws (nvidia_backend symbol_get).
Proof.
  rw /nvidia_backend. destruct (nvfs_nvidia_p2p_init symbol_get no_syms) as [[rc ops] t].
  split; simpl.
  - intros s. apply wp_ret. quiet_tac.
  - intros s. apply wp_ret. quiet_tac.
  - intros v l s. rw /nvfs_nvidia_p2p_get_pages. env_steps; (split; [quiet_tac|]);
      [apply nv_get_pages_law|done].
  - intros d pt s Ht. rw /nvfs_nvidia_p2p_dma_map_pages. env_steps; (split; [quiet_tac|]);
      [apply nv_dma_map_pages_law|done].
  - intros d pt m s. rw /nvfs_nvidia_p2p_dma_unmap_pages. env_steps; quiet_tac.
  - intros v pt s. rw /nvfs_nvidia_p2p_put_pages. env_steps; quiet_tac.
  - intros pt s. rw /nvfs_nvidia_p2p_free_page_table. env_steps; quiet_tac.
Qed.

(** *** Symbol references *)

Definition sym_names : list string :=
  ["nvidia_p2p_dma_unmap_pages"; "nvidia_p2p_get_pages"; "nvidia_p2p_put_pages";
   "nvidia_p2p_dma_map_pages"; "nvidia_p2p_free_dma_mapping"; "nvidia_p2p_free_page_table"].

(** The net number of references on [name] after a sequence of operations. *)
Fixpoint sym_refs (name : string) (ops : list sym_op) : Z :=
  match ops with
  | [] => 0
  | SymGet n :: ops => c_bool (bool_decide (n = name)) + sym_refs name ops
  | SymPut n :: ops => - c_bool (bool_decide (n = name)) + sym_refs name ops
  end.

Lemma sym_refs_app name o1 o2 : sym_refs name (o1 ++ o2) = sym_refs name o1 + sym_refs name o2.
Proof. induction o1 as [|[n|n] o1 IH]; simpl; lia. Qed.

End Nvidia.
