(* ===== verification/Ctrl.v ===== *)
(** * Controllers (ctrl.c)

    A [struct ctrl] stands for one NVMe device that user space has named; it
    carries the character device /dev/ssnvme<N>, the queue budget and the pool of
    user queue ids.  Controllers are chained on the global [ctrl_list]. *)
From S2P Require Import Prelude KState.

Definition MINORBITS : Z := 20.
Definition MKDEV (ma mi : Z) : Z := Z.lor (Z.shiftl ma MINORBITS) mi.
Definition MAJOR (dev : Z) : Z := Z.shiftr dev MINORBITS.

Definition zero_group : nvm_queue_group := NvmQueueGroup 0 0 0 0.
Definition zero_setup : snvm_queue_setup :=
  QueueSetup 0 0 0 0 0 0 0 (replicate (Z.to_nat SNVM_MAX_QUEUE_GROUPS) zero_group).

(** [snprintf(name, 64, "%s%d", "ssnvme", number)]; the result is at most 17
    characters long, so it is never truncated. *)
Definition ctrl_name (number : Z) : string := "ssnvme" +:+ pretty number.

Section ctrl.
Context `{!kenv}.

(** [inl] is an error pointer. *)
Definition ctrl_get (pdev : ptr) (number : Z) : K snvm (Z + ptr) :=
  a ← ask env_alloc;
  if negb a then mret (inl (- ENOMEM)) else
  on_host ← ask env_uninit;
  c ← create (Ctrl pdev (ctrl_name number) number 0 false on_host 0 0 0 0 zero_setup None 0 0);
  modify (λ s, s<{k_ctrl_list := k_ctrl_list s ++ [c] }>);;
  mret (inr c).

Definition ctrl_chrdev_remove (c : ptr) : K snvm unit :=
  ctrl ← load (V:=ctrl) c;
  when (c_chrdev ctrl) (
    emit (EvDeviceDestroy (c_rdev ctrl));;
    emit (EvCdevDel (c_rdev ctrl));;
    store c ctrl<{c_chrdev := false}>).

Definition ctrl_put (c : ptr) : K snvm unit :=
  modify (λ s, s<{k_ctrl_list := unlink c (k_ctrl_list s)}>);;
  ctrl_chrdev_remove c;;
  alter_obj (V:=ctrl) c (λ x, x<{c_user_qid_bitmap := None}>);;
  kfree_obj ctrl c.

Definition ctrl_find_by_pci_dev (pdev : ptr) : K snvm (option ptr) :=
  l ← gets k_ctrl_list;
  kfind (λ _ c, bool_decide (c_pdev c = pdev)) l.

(** [&ctrl->cdev == inode->i_cdev]: the embedded cdev names its controller. *)
Definition ctrl_find_by_inode (i_cdev : ptr) : K snvm (option ptr) :=
  l ← gets k_ctrl_list;
  kfind (λ p (_ : ctrl), bool_decide (p = i_cdev)) l.

Definition ctrl_chrdev_create (c : ptr) (first : Z) : K snvm Z :=
  ctrl ← load (V:=ctrl) c;
  if c_chrdev ctrl then mret 0 else
  let rdev := MKDEV (MAJOR first) (c_number ctrl) in
  store c ctrl<{c_rdev := rdev}>;;
  err ← ask env_cdev_add;
  if c_true err then mret err else
  emit (EvCdevAdd rdev);;
  err ← ask env_device_create;
  if err <? 0 then
    emit (EvCdevDel rdev);;
    mret err
  else
    emit (EvDeviceCreate rdev (c_name ctrl));;
    store c ctrl<{c_rdev := rdev}><{c_chrdev := true}>;;
    mret 0.

(** ** What the operations do *)

Definition new_ctrl (pdev : ptr) (number on_host : Z) : ctrl :=
  Ctrl pdev (ctrl_name number) number 0 false on_host 0 0 0 0 zero_setup None 0 0.

Definition add_ctrl (c : ctrl) (s : snvm) : snvm :=
  s<{k_ctrls := <[k_next s := c]> (k_ctrls s)}>
   <{k_ctrl_list := k_ctrl_list s ++ [k_next s] }>
   <{k_next := Pos.succ (k_next s)}>.

Lemma wp_ctrl_get pdev number (Q : Z + ptr → snvm → Prop) s :
  (∀ s', s' ≡ₗ s → k_log s' = k_log s → Q (inl (- ENOMEM)) s') →
  (∀ s' on_host, s' ≡ₗ add_ctrl (new_ctrl pdev number on_host) s → k_log s' = k_log s →
     Q (inr (k_next s)) s') →
  wp (ctrl_get pdev number) Q s.
Proof.
  intros Herr Hok. rw /ctrl_get. wp_step. apply wp_ask. wp_step; [wp_step; by apply Herr|].
  wp_step. apply wp_ask. wp_step. apply wp_create. wp_steps. by eapply Hok.
Qed.

Definition drop_ctrl (c : ptr) (s : snvm) : snvm :=
  s<{k_ctrls := delete c (k_ctrls s)}><{k_ctrl_list := unlink c (k_ctrl_list s)}>.

(** The events of removing a controller: its character device, if it has one. *)
Definition chrdev_down (x : ctrl) : list event :=
  if c_chrdev x then [EvDeviceDestroy (c_rdev x); EvCdevDel (c_rdev x)] else [].

Lemma wp_ctrl_put c x (Q : unit → snvm → Prop) s :
  k_ctrls s !! c = Some x →
  (∀ s', s' ≡ₗ drop_ctrl c s → k_log s' = k_log s ++ chrdev_down x → Q tt s') →
  wp (ctrl_put c) Q s.
Proof.
  intros Hc HQ. rw /ctrl_put /ctrl_chrdev_remove. wp_step. wp_step. wp_step. wp_step.
  eapply wp_load; [done|]. rw /chrdev_down in HQ. destruct (c_chrdev x); simpl.
  - wp_step. apply wp_emit. wp_step. apply wp_emit. eapply wp_store; [done|].
    wp_step. eapply wp_alter_obj; [apply lookup_insert_eq|].
    eapply wp_kfree_obj; [apply lookup_insert_eq|]. apply HQ.
    + rw /same_core /core /drop_ctrl /=. by rw !delete_insert_eq.
    + simpl. by rw -app_assoc.
  - wp_step. wp_step. eapply wp_alter_obj; [done|].
    eapply wp_kfree_obj; [apply lookup_insert_eq|]. apply HQ.
    + rw /same_core /core /drop_ctrl /=. by rw !delete_insert_eq.
    + simpl. by rw app_nil_r.
Qed.

Lemma wp_ctrl_find_by_pci_dev pdev (Q : option ptr → snvm → Prop) s :
  allocated (k_ctrls s) (k_ctrl_list s) →
  Q (pfind (k_ctrls s) (λ _ c, bool_decide (c_pdev c = pdev)) (k_ctrl_list s)) s →
  wp (ctrl_find_by_pci_dev pdev) Q s.
Proof. intros. rw /ctrl_find_by_pci_dev. wp_step. wp_step. by apply wp_kfind. Qed.

(** The inode's controller is found exactly while it is listed. *)
Lemma pfind_inode (h : gmap ptr ctrl) l c :
  allocated h l →
  pfind h (λ p _, bool_decide (p = c)) l = if bool_decide (c ∈ l) then Some c else None.
Proof.
  induction 1 as [|q l [w Hw] Hl IH]; simpl; [done|]. rw Hw.
  destruct (decide (q = c)) as [->|Hne].
  - rw !bool_decide_eq_true_2 //. set_solver.
  - rw (bool_decide_eq_false_2 (q = c)) // IH.
    rw (bool_decide_ext (c ∈ q :: l) (c ∈ l)) //. set_solver.
Qed.

Lemma wp_ctrl_find_by_inode c (Q : option ptr → snvm → Prop) s :
  allocated (k_ctrls s) (k_ctrl_list s) →
  Q (if bool_decide (c ∈ k_ctrl_list s) then Some c else None) s →
  wp (ctrl_find_by_inode c) Q s.
Proof. intros Ha HQ. rw /ctrl_find_by_inode. wp_step. wp_step. apply wp_kfind; [done|]. by rw /= pfind_inode. Qed.

(** Creating the character device: nothing when it exists; else either both the
    cdev and the device node appear, or neither remains. *)
Lemma wp_ctrl_chrdev_create c x first (Q : Z → snvm → Prop) s :
  k_ctrls s !! c = Some x →
  (c_chrdev x = true → Q 0 s) →
  (∀ s' err es, c_chrdev x = false →
     s' ≡ₗ set_ctrl c x<{c_rdev := MKDEV (MAJOR first) (c_number x)}> s →
     k_log s' = k_log s ++ es → err ≠ 0 →
     es = [] ∨ es = (let r := MKDEV (MAJOR first) (c_number x) in [EvCdevAdd r; EvCdevDel r]) →
     Q err s') →
  (∀ s', c_chrdev x = false →
     s' ≡ₗ set_ctrl c x<{c_rdev := MKDEV (MAJOR first) (c_number x)}><{c_chrdev := true}> s →
     k_log s' = k_log s ++ [EvCdevAdd (MKDEV (MAJOR first) (c_number x));
                            EvDeviceCreate (MKDEV (MAJOR first) (c_number x)) (c_name x)] →
     Q 0 s') →
  wp (ctrl_chrdev_create c first) Q s.
Proof.
  intros Hc Hdone Herr Hok. rw /ctrl_chrdev_create. wp_step. eapply wp_load; [done|].
  wp_step; [wp_step; by apply Hdone|]. wp_step. eapply wp_store; [done|].
  wp_step. apply wp_ask. wp_step.
  { wp_step. eapply (Herr _ _ []); [done|done| |..].
    - by rw /= app_nil_r.
    - rename select (c_true _ = true) into Ht. rw /c_true in Ht. lia.
    - by left. }
  wp_step. apply wp_emit. wp_step. apply wp_ask. wp_step.
  - wp_step. apply wp_emit. wp_step. eapply Herr; [done|done| |lia|by right].
    by rw /= -app_assoc.
  - wp_step. apply wp_emit. wp_step. eapply wp_store; [apply lookup_insert_eq|]. wp_step.
    apply Hok; [done|..].
    + rw /same_core /core /set_ctrl /=. by rw insert_insert_eq.
    + by rw /= -app_assoc.
Qed.
End ctrl.
