(* ===== verification/Map.v ===== *)
(** * Pinned memory (map.c)

    A [struct map] describes a range of user or device memory that is pinned and
    mapped for DMA.  It is chained on one of three global lists and, through its
    [group_link], on the list of a queue group or of an open file. *)
From S2P Require Import Prelude KState P2p Ctrl.

Definition GPU_PAGE_SHIFT : Z := 16.
Definition GPU_PAGE_SIZE : Z := Z.shiftl 1 GPU_PAGE_SHIFT.

(** [max_num_ctrls] of map.c: the slots of [gpu_region.mappings]. *)
Definition max_num_ctrls : nat := 8.

(** The layout of [struct map] on a 64-bit machine: its size and the offset of
    the trailing array [addrs]. *)
Definition SIZEOF_MAP : Z := 144.
Definition OFFSET_ADDRS : Z := 136.

(** [list_remove(&map->list)] and [list_del(&map->group_link)]: the node leaves
    whichever list it is on. *)
Definition unlink_global (p : ptr) (s : snvm) : snvm :=
  s<{k_host_list ::= unlink p}><{k_device_list ::= unlink p}>
   <{k_device_queue_list ::= unlink p}>.
Definition unlink_group (p : ptr) (s : snvm) : snvm :=
  s<{k_groups ::= fmap (λ g, g<{g_maps ::= unlink p}>)}>
   <{k_owners ::= fmap (λ o, o<{o_data_maps ::= unlink p}>)}>.

Section map_ops.
Context `{!kenv, !P2pBackend}.
(** The calling task. *)
Variable current : ptr.

(** The allocation has [SIZEOF_MAP + (n_pages - 1) * 8] bytes, computed in 64
    bits; writing [addrs[0 .. n_pages-1]] beyond its end is a fault. *)
Definition create_descriptor (c : ptr) (vaddr n_pages : Z) : K snvm (Z + ptr) :=
  a ← ask env_alloc;
  if negb a then mret (inl (- ENOMEM)) else
  ctrl ← load (V:=ctrl) c;
  if u64 (SIZEOF_MAP + (n_pages - 1) * 8) <? OFFSET_ADDRS + n_pages * 8 then fault else
  p ← create (Map current vaddr (-1) (-1) (c_pdev ctrl) 0 DataNull None 0
                NVM_MAP_KIND_UNSPECIFIED n_pages (replicate (Z.to_nat n_pages) 0));
  mret (inr p).

(** ** Releasing *)

(** The two loops of [release_user_pages]. *)
Definition release_user_pages (p : ptr) : K snvm unit :=
  m ← load (V:=map) p;
  kfor (λ i, addr ← from_option_k (m_addrs m !! i); emit (EvDmaUnmap (m_pdev m) addr))
    (seq 0 (Z.to_nat (m_n_addrs m)));;
  pages ← from_option_k (match m_data m with DataPages pages => Some pages | _ => None end);
  kfor (λ i, page ← from_option_k (pages !! i); emit (EvPutPage page))
    (seq 0 (Z.to_nat (m_n_addrs m)));;
  store p m<{m_data := DataNull}>.

Definition nvfs_dma_unmap_pages (dev : ptr) (t : option p2p_table) (m : p2p_mapping) :
    K snvm unit :=
  _ ← p2p_dma_unmap_pages dev t m; emit (EvP2pUnmap dev t m).
Definition nvfs_put_pages (vaddr : Z) (t : p2p_table) : K snvm unit :=
  _ ← p2p_put_pages vaddr t; emit (EvP2pPut t).
Definition nvfs_free_page_table (t : p2p_table) : K snvm unit :=
  _ ← p2p_free_page_table t; emit (EvP2pPut t).

(** [if (gd->mappings[j] != NULL) unmap(ctrl->pdev, gd->pages, gd->mappings[j++])]
    for each controller of the list. *)
Fixpoint release_walk (gd : gpu_region) (j : nat) (l : list ptr) : K snvm unit :=
  match l with
  | [] => mret tt
  | c :: l =>
    ctrl ← load (V:=ctrl) c;
    slot ← from_option_k (gd_mappings gd !! j);
    match slot with
    | SlotUninit => fault
    | SlotNull => release_walk gd j l
    | SlotMapped m =>
      nvfs_dma_unmap_pages (c_pdev ctrl) (gd_pages gd) m;;
      release_walk gd (S j) l
    end
  end.

Definition release_gpu_memory (p : ptr) : K snvm unit :=
  m ← load (V:=map) p;
  match m_data m with
  | DataNull => mret tt
  | DataPages _ => fault
  | DataGpu gd =>
    l ← gets k_ctrl_list;
    release_walk gd 0 l;;
    match gd_pages gd with
    | Some t => nvfs_put_pages (m_vaddr m) t
    | None => mret tt
    end;;
    store p m<{m_data := DataNull}>
  end.

(** [if (gd->mappings[0] != NULL) unmap(map->pdev, gd->pages, gd->mappings[0])]. *)
Definition release_slot0 (dev : ptr) (gd : gpu_region) : K snvm unit :=
  slot ← from_option_k (gd_mappings gd !! 0%nat);
  match slot with
  | SlotUninit => fault
  | SlotNull => mret tt
  | SlotMapped m => nvfs_dma_unmap_pages dev (gd_pages gd) m
  end.

Definition release_gpu_ioqueue_memory (p : ptr) : K snvm unit :=
  m ← load (V:=map) p;
  match m_data m with
  | DataNull => mret tt
  | DataPages _ => fault
  | DataGpu gd =>
    release_slot0 (m_pdev m) gd;;
    match gd_pages gd with
    | Some t => nvfs_put_pages (m_vaddr m) t
    | None => mret tt
    end;;
    store p m<{m_data := DataNull}>
  end.

(** The call through [map->release]. *)
Definition call_release (f : release_fn) (p : ptr) : K snvm unit :=
  match f with
  | release_user_pages_fn => release_user_pages p
  | release_gpu_memory_fn => release_gpu_memory p
  | release_gpu_ioqueue_memory_fn => release_gpu_ioqueue_memory p
  end.

Definition unmap_and_release (p : ptr) : K snvm unit :=
  m ← load (V:=map) p;
  modify (unlink_global p);;
  modify (unlink_group p);;
  match m_release m, m_data m with
  | Some f, (DataPages _ | DataGpu _) => call_release f p
  | _, _ => mret tt
  end;;
  kfree_obj map p.

(** The callbacks the peer driver runs when it takes the memory back. *)
Definition force_release_gpu_memory (p : ptr) : K snvm unit :=
  m ← load (V:=map) p;
  match m_data m with
  | DataNull => mret tt
  | DataPages _ => fault
  | DataGpu gd =>
    l ← gets k_ctrl_list;
    release_walk gd 0 l;;
    match gd_pages gd with
    | Some t => nvfs_free_page_table t
    | None => mret tt
    end;;
    store p m<{m_data := DataNull}>
  end;;
  unmap_and_release p.

Definition force_release_gpu_ioqueue_memory (p : ptr) : K snvm unit :=
  m ← load (V:=map) p;
  match m_data m with
  | DataNull => mret tt
  | DataPages _ => fault
  | DataGpu gd =>
    release_slot0 (m_pdev m) gd;;
    match gd_pages gd with
    | Some t => nvfs_free_page_table t
    | None => mret tt
    end;;
    store p m<{m_data := DataNull}>
  end;;
  unmap_and_release p.

(** ** Lookup *)

(** [vaddr & PAGE_MASK] and [vaddr & GPU_PAGE_MASK]. *)
Definition map_matches (vaddr : Z) (m : map) : bool :=
  bool_decide (m_owner m = current) &&
  ((m_vaddr m =? page_align PAGE_SIZE vaddr) || (m_vaddr m =? page_align GPU_PAGE_SIZE vaddr)).

Definition map_find (l : glist) (vaddr : Z) : K snvm (option ptr) :=
  ps ← gets (k_glist l);
  kfind (λ _ m, map_matches vaddr m) ps.

Definition map_find_by_pci_dev_and_idx (l : glist) (pdev : ptr) (idx is_cq : Z) :
    K snvm (option ptr) :=
  ps ← gets (k_glist l);
  kfind (λ _ m, bool_decide (m_pdev m = pdev) && (m_ioq_idx m =? idx) && (m_is_cq m =? is_cq)) ps.

(** ** Purging *)

(** [map->owner == owner && map->group_id == 0]. *)
Definition purgeable (owner : ptr) (m : map) : bool :=
  bool_decide (m_owner m = owner) && (m_group_id m =? 0).

(** The walk of [map_purge_by_owner], which restarts at the head after each
    removal.  [fuel] bounds the number of nodes visited. *)
Fixpoint purge_walk (fuel : nat) (l : glist) (owner : ptr) (element : option ptr) (freed : Z) :
    K snvm Z :=
  match element with
  | None => mret freed
  | Some p =>
    match fuel with
    | O => fault
    | S fuel =>
      m ← load (V:=map) p;
      if purgeable owner m then
        unmap_and_release p;;
        ps ← gets (k_glist l);
        purge_walk fuel l owner (head ps) (freed + 1)
      else
        ps ← gets (k_glist l);
        purge_walk fuel l owner (lsucc p ps) freed
    end
  end.

(** The lists are the module's own, so the test for [list == NULL] has no counterpart. *)
Definition map_purge_by_owner (l : glist) (owner : ptr) : K snvm Z :=
  ps ← gets (k_glist l);
  purge_walk (S (length ps) * S (length ps)) l owner (head ps) 0.

(** ** Mapping host memory *)

(** The loop over [dma_map_page]. *)
Fixpoint dma_map_loop (p : ptr) (pages : list Z) (idxs : list nat) : K snvm Z :=
  match idxs with
  | [] => mret 0
  | i :: idxs =>
    page ← from_option_k (pages !! i);
    m ← load (V:=map) p;
    addr ← ask (λ t, env_dma_map_page t (m_pdev m) page);
    _ ← from_option_k (m_addrs m !! i);
    store p m<{m_addrs := <[i := addr]> (m_addrs m)}>;;
    let retval := env_dma_mapping_error (m_pdev m) addr in
    if c_true retval then mret retval else
    emit (EvDmaMap (m_pdev m) addr);;
    dma_map_loop p pages idxs
  end.

Definition map_user_pages (p : ptr) : K snvm Z :=
  m ← load (V:=map) p;
  a ← ask env_alloc;
  if negb a then mret (- ENOMEM) else
  r ← ask (λ t, env_gup t (m_vaddr m) (m_n_addrs m));
  let '(retval, pages) := r in
  if retval <=? 0 then mret retval else
  emits (EvPinPage <$> pages);;
  store p m<{m_n_addrs := retval}><{m_page_size := PAGE_SIZE}>
           <{m_data := DataPages pages}><{m_release := Some release_user_pages_fn}>;;
  dma_map_loop p pages (seq 0 (Z.to_nat retval)).

Definition map_userspace (l : glist) (c : ptr) (vaddr n_pages : Z) : K snvm (Z + ptr) :=
  if n_pages <? 1 then mret (inl (- EINVAL)) else
  r ← create_descriptor c (page_align PAGE_SIZE vaddr) n_pages;
  match r with
  | inl e => mret (inl e)
  | inr md =>
    alter_obj md (λ m : map, m<{m_page_size := PAGE_SIZE}>);;
    err ← map_user_pages md;
    if c_true err then unmap_and_release md;; mret (inl err)
    else modify (glist_insert l md);; mret (inr md)
  end.

(** ** Mapping device memory *)

Definition nvfs_get_pages (vaddr length : Z) : K snvm (Z * option p2p_table) :=
  r ← p2p_get_pages vaddr length;
  match r.2 with Some t => emit (EvP2pGet t) | None => mret tt end;;
  mret r.
Definition nvfs_dma_map_pages (dev : ptr) (t : p2p_table) : K snvm (Z * option p2p_mapping) :=
  r ← p2p_dma_map_pages dev t;
  match r.2 with Some m => emit (EvP2pMap dev t m) | None => mret tt end;;
  mret r.

(** [for (i = 0; i < map->n_addrs; ++i) map->addrs[i] = dma_addresses[i]]. *)
Definition copy_addrs (p : ptr) (dm : p2p_mapping) : K snvm unit :=
  m ← load (V:=map) p;
  let n := Z.to_nat (m_n_addrs m) in
  if ((length (pm_addresses dm) <? n) || (length (m_addrs m) <? n))%nat then fault else
  store p m<{m_addrs := take n (pm_addresses dm) ++ drop n (m_addrs m)}>.

(** [gd->mappings[j] = m]: a fault when [j] is past the end. *)
Definition set_slot (p : ptr) (j : nat) (dm : p2p_mapping) : K snvm unit :=
  m ← load (V:=map) p;
  match m_data m with
  | DataGpu gd =>
    _ ← from_option_k (gd_mappings gd !! j);
    store p m<{m_data := DataGpu (GpuRegion (gd_pages gd)
                                    (<[j := SlotMapped dm]> (gd_mappings gd)))}>
  | _ => fault
  end.

Definition set_gpu (p : ptr) (fn : release_fn) (gd : gpu_region) : K snvm unit :=
  alter_obj p (λ m : map, m<{m_page_size := GPU_PAGE_SIZE}><{m_data := DataGpu gd}>
                           <{m_release := Some fn}>).

(** One p2p DMA mapping for every controller of the list. *)
Fixpoint map_walk (p : ptr) (t : p2p_table) (j : nat) (l : list ptr) : K snvm Z :=
  match l with
  | [] => mret 0
  | c :: l =>
    ctrl ← load (V:=ctrl) c;
    r ← nvfs_dma_map_pages (c_pdev ctrl) t;
    match r with
    | (err, Some dm) =>
      set_slot p j dm;;
      if c_true err then mret err else
      when (bool_decide (j = 0%nat)) (copy_addrs p dm);;
      map_walk p t (S j) l
    | (err, None) => if c_true err then mret err else fault
    end
  end.

Definition map_gpu_memory (p : ptr) : K snvm Z :=
  a ← ask env_alloc;
  if negb a then mret (- ENOMEM) else
  a ← ask env_alloc;
  if negb a then mret (- ENOMEM) else
  let slots := replicate max_num_ctrls SlotNull in
  set_gpu p release_gpu_memory_fn (GpuRegion None slots);;
  m ← load (V:=map) p;
  r ← nvfs_get_pages (m_vaddr m) (u64 (GPU_PAGE_SIZE * m_n_addrs m));
  match r with
  | (err, None) => if c_true err then mret err else fault
  | (err, Some t) =>
    set_gpu p release_gpu_memory_fn (GpuRegion (Some t) slots);;
    if c_true err then mret err else
    l ← gets k_ctrl_list;
    err ← map_walk p t 0 l;
    if c_true err then mret err else
    alter_obj p (λ m : map, m<{m_n_addrs := pt_entries t}>);;
    mret 0
  end.

Definition map_gpu_ioqueue_memory (p : ptr) : K snvm Z :=
  a ← ask env_alloc;
  if negb a then mret (- ENOMEM) else
  a ← ask env_alloc;
  if negb a then mret (- ENOMEM) else
  set_gpu p release_gpu_ioqueue_memory_fn (GpuRegion None [SlotUninit]);;
  m ← load (V:=map) p;
  r ← nvfs_get_pages (m_vaddr m) (u64 (GPU_PAGE_SIZE * m_n_addrs m));
  match r with
  | (err, None) => if c_true err then mret err else fault
  | (err, Some t) =>
    set_gpu p release_gpu_ioqueue_memory_fn (GpuRegion (Some t) [SlotUninit]);;
    if c_true err then mret err else
    r ← nvfs_dma_map_pages (m_pdev m) t;
    match r with
    | (err, None) => if c_true err then mret err else fault
    | (err, Some dm) =>
      set_slot p 0 dm;;
      if c_true err then mret err else
      copy_addrs p dm;;
      alter_obj p (λ m : map, m<{m_n_addrs := pt_entries t}>);;
      mret 0
    end
  end.

Definition map_device_memory (l : glist) (c : ptr) (vaddr n_pages : Z) : K snvm (Z + ptr) :=
  if n_pages <? 1 then mret (inl (- EINVAL)) else
  r ← create_descriptor c (page_align GPU_PAGE_SIZE vaddr) n_pages;
  match r with
  | inl e => mret (inl e)
  | inr md =>
    alter_obj md (λ m : map, m<{m_page_size := GPU_PAGE_SIZE}>);;
    err ← map_gpu_memory md;
    if c_true err then unmap_and_release md;; mret (inl err)
    else modify (glist_insert l md);; mret (inr md)
  end.

Definition map_device_ioqueue_memory (l : glist) (c : ptr) (vaddr n_pages : Z) :
    K snvm (Z + ptr) :=
  if n_pages <? 1 then mret (inl (- EINVAL)) else
  r ← create_descriptor c (page_align GPU_PAGE_SIZE vaddr) n_pages;
  match r with
  | inl e => mret (inl e)
  | inr md =>
    alter_obj md (λ m : map, m<{m_page_size := GPU_PAGE_SIZE}>);;
    err ← map_gpu_ioqueue_memory md;
    if c_true err then unmap_and_release md;; mret (inl err)
    else modify (glist_insert l md);; mret (inr md)
  end.
End map_ops.

(** ** Releasing a map *)

(** Events that pin, map, unmap or unpin memory. *)
Definition mem_event (e : event) : Prop :=
  match e with
  | EvPinPage _ | EvPutPage _ | EvDmaMap _ _ | EvDmaUnmap _ _
  | EvP2pGet _ | EvP2pPut _ | EvP2pMap _ _ _ | EvP2pUnmap _ _ _ => True
  | _ => p2p_event e
  end.
Lemma p2p_mem_event e : p2p_event e → mem_event e.
Proof. by destruct e. Qed.

(** What map.c itself does: the events that are not internal to a backend. *)
Definition traced (e : event) : bool :=
  match e with
  | EvDmabufGet _ | EvDmabufPut _ | EvDmabufAttach _ _ _ | EvDmabufDetach _ _
  | EvMapAttachment _ _ | EvUnmapAttachment _ _ => false
  | _ => true
  end.
Definition trace (es : list event) : list event := filter (λ e, traced e = true) es.

Lemma trace_app es es' : trace (es ++ es') = trace es ++ trace es'.
Proof. apply filter_app. Qed.
Lemma trace_p2p es : Forall p2p_event es → trace es = [].
Proof.
  induction 1 as [|e es He Hes IH]; [done|]. rw /trace filter_cons_False //. by destruct e.
Qed.
Lemma trace_all es : Forall (λ e, traced e = true) es → trace es = es.
Proof.
  induction 1 as [|e es He Hes IH]; [done|]. rw /trace filter_cons_True //. by f_equal.
Qed.

(** [moves ws s s']: [s'] is [s] after the memory events [ws] (and events
    internal to the backend). *)
Definition moves (ws : list event) (s s' : snvm) : Prop :=
  ∃ es t, Forall mem_event es ∧ trace es = ws ∧ s' = s<{k_log := k_log s ++ es}><{k_tick := t}>.

Lemma moves_steps ws s s' :
  moves ws s s' ↔ ∃ es, Forall mem_event es ∧ trace es = ws ∧ steps es s s'.
Proof. rw /moves /steps. naive_solver. Qed.

Lemma moves_refl s : moves [] s s.
Proof. exists [], (k_tick s). split_and!; [done..|]. rw app_nil_r. by destruct s. Qed.
Lemma moves_trans ws ws' s1 s2 s3 : moves ws s1 s2 → moves ws' s2 s3 → moves (ws ++ ws') s1 s3.
Proof.
  intros (es & t & H & <- & ->) (es' & t' & H' & <- & ->). exists (es ++ es'), t'.
  rw Forall_app trace_app. split_and!; [done..|]. by rw /= app_assoc.
Qed.
Lemma moves_quiet s s' : quiet p2p_event s s' → moves [] s s'.
Proof.
  intros (es & t & H & ->)%quiet_inv. exists es, t. split_and!; [|by apply trace_p2p|done].
  eapply Forall_impl; [done|]. apply p2p_mem_event.
Qed.
Lemma moves_tick t s : moves [] s s<{k_tick := t}>.
Proof. apply moves_quiet, quiet_tick. Qed.
Lemma moves_emits ws s :
  Forall (λ e, mem_event e ∧ traced e = true) ws → moves ws s s<{k_log := k_log s ++ ws}>.
Proof.
  intros H. exists ws, (k_tick s). split_and!; [|apply trace_all|by destruct s];
    (eapply Forall_impl; [done|]); naive_solver.
Qed.
Lemma moves_core ws s s' : moves ws s s' → s' ≡ₗ s.
Proof. by intros (es & t & _ & _ & ->). Qed.
Lemma moves_log ws s s' :
  moves ws s s' → ∃ es, k_log s' = k_log s ++ es ∧ Forall mem_event es ∧ trace es = ws.
Proof. intros (es & t & ? & ? & ->). by exists es. Qed.

(** The state without the map [p]. *)
Definition drop_map (p : ptr) (s : snvm) : snvm :=
  (unlink_group p (unlink_global p s))<{k_maps ::= delete p}>.

#[export] Instance framed_drop_map p : Framed (drop_map p).
Proof. done. Qed.

Definition drop_maps (ps : list ptr) (s : snvm) : snvm := foldl (λ s p, drop_map p s) s ps.
#[export] Instance framed_drop_maps ps : Framed (drop_maps ps).
Proof.
  induction ps as [|p ps IH]; [apply framed_id|]. apply (framed_compose (drop_maps ps)); apply _.
Qed.

Lemma moves_framed f ws s s' : Framed f → moves ws s s' → moves ws (f s) (f s').
Proof.
  intros Hf (es & t & He & Ht & ->). exists es, t. split_and!; [done..|].
  by rw framed_comm framed_log.
Qed.

(** What the release callback of a map needs in order not to go astray, given
    the number of controllers on the list it walks. *)
Definition releasable (nctrl : nat) (m : map) : Prop :=
  match m_release m, m_data m with
  | None, _ | _, DataNull => True
  | Some release_user_pages_fn, DataPages pages =>
      m_n_addrs m = Z.of_nat (length pages) ∧ (length pages ≤ length (m_addrs m))%nat
  | Some release_gpu_memory_fn, DataGpu gd =>
      Forall (.≠ SlotUninit) (gd_mappings gd) ∧ (nctrl ≤ length (gd_mappings gd))%nat
  | Some release_gpu_ioqueue_memory_fn, DataGpu gd =>
      ∃ slot, gd_mappings gd !! 0%nat = Some slot ∧ slot ≠ SlotUninit
  | Some _, _ => False
  end.

Section map_lemmas.
Context `{!kenv, B : !P2pBackend, !P2pLaws B}.

(** A loop that emits one event for each of the first [n] elements of an array. *)
Lemma wp_emit_loop {A} (f : A → event) (arr : list A) n (Q : unit → snvm → Prop) s :
  (n ≤ length arr)%nat →
  Q tt s<{k_log := k_log s ++ (f <$> take n arr)}> →
  wp (kfor (λ i, x ← from_option_k (arr !! i); emit (f x)) (seq 0 n)) Q s.
Proof.
  intros Hn HQ. assert (∃ pre, pre = 0%nat) as [pre Hpre] by eauto.
  revert HQ. rw -{1}(drop_0 arr) -Hpre. assert (pre + n ≤ length arr)%nat as Hb by lia.
  clear Hpre Hn. revert pre s Hb.
  induction n as [|n IH]; intros pre s Hb HQ; simpl.
  - apply wp_ret. rw take_0 /= app_nil_r in HQ. by destruct s.
  - destruct (lookup_lt_is_Some_2 arr pre) as [x Hx]; [lia|].
    wp_step. wp_step. eapply wp_from_option; [done|]. apply wp_emit. apply IH; [lia|].
    revert HQ. rw (drop_S _ _ _ Hx) /=. by rw -app_assoc.
Qed.

Lemma wp_release_user_pages p m pages (Q : unit → snvm → Prop) s :
  k_maps s !! p = Some m → m_data m = DataPages pages →
  m_n_addrs m = Z.of_nat (length pages) → (length pages ≤ length (m_addrs m))%nat →
  Q tt s<{k_log := k_log s ++ (EvDmaUnmap (m_pdev m) <$> take (length pages) (m_addrs m))
                           ++ (EvPutPage <$> pages)}>
        <{k_maps := <[p := m<{m_data := DataNull}>]> (k_maps s)}> →
  wp (release_user_pages p) Q s.
Proof.
  intros Hp Hd Hn Hl HQ. rw /release_user_pages. wp_step. eapply wp_load; [done|].
  rw Hn Nat2Z.id. wp_step. apply wp_emit_loop; [done|]. wp_step.
  eapply wp_from_option; [by rw Hd|]. wp_step. apply wp_emit_loop; [done|].
  eapply wp_store; [done|]. rw firstn_all. by rw /= -app_assoc.
Qed.
Lemma wp_nvfs_dma_unmap_pages d t dm (Q : unit → snvm → Prop) s :
  (∀ s', moves [EvP2pUnmap d t dm] s s' → Q tt s') → wp (nvfs_dma_unmap_pages d t dm) Q s.
Proof.
  intros HQ. rw /nvfs_dma_unmap_pages. wp_step.
  eapply wp_mono; [apply p2p_dma_unmap_pages_ok|]. intros r s1 H1. apply wp_emit, HQ.
  apply (moves_trans [] [_] _ s1); [by apply moves_quiet|]. apply moves_emits. by repeat constructor.
Qed.
Lemma wp_nvfs_put_pages v t (Q : unit → snvm → Prop) s :
  (∀ s', moves [EvP2pPut t] s s' → Q tt s') → wp (nvfs_put_pages v t) Q s.
Proof.
  intros HQ. rw /nvfs_put_pages. wp_step.
  eapply wp_mono; [apply p2p_put_pages_ok|]. intros r s1 H1. apply wp_emit, HQ.
  apply (moves_trans [] [_] _ s1); [by apply moves_quiet|]. apply moves_emits. by repeat constructor.
Qed.
Lemma wp_nvfs_free_page_table t (Q : unit → snvm → Prop) s :
  (∀ s', moves [EvP2pPut t] s s' → Q tt s') → wp (nvfs_free_page_table t) Q s.
Proof.
  intros HQ. rw /nvfs_free_page_table. wp_step.
  eapply wp_mono; [apply p2p_free_page_table_ok|]. intros r s1 H1. apply wp_emit, HQ.
  apply (moves_trans [] [_] _ s1); [by apply moves_quiet|]. apply moves_emits. by repeat constructor.
Qed.

(** The unmaps of [release_walk] over the devices of the controllers. *)
Fixpoint walk_events (t : option p2p_table) (slots : list mapping_slot) (devs : list ptr)
    {struct devs} : list event :=
  match devs, slots with
  | d :: devs, SlotMapped dm :: slots => EvP2pUnmap d t dm :: walk_events t slots devs
  | _, _ => []
  end.

(** The devices of a list of controllers. *)
Definition ctrl_devs (h : gmap ptr ctrl) (l : list ptr) : list ptr :=
  omap (λ c, c_pdev <$> h !! c) l.

Lemma wp_release_walk gd j l (Q : unit → snvm → Prop) s :
  allocated (k_ctrls s) l → Forall (.≠ SlotUninit) (gd_mappings gd) →
  (j + length l ≤ length (gd_mappings gd))%nat →
  (∀ s', moves (walk_events (gd_pages gd) (drop j (gd_mappings gd)) (ctrl_devs (k_ctrls s) l)) s s' →
     Q tt s') →
  wp (release_walk gd j l) Q s.
Proof.
  intros Hl Hs. revert j s Hl Q. induction l as [|c l IH]; intros j s Hl Q Hj HQ; simpl in *.
  { apply wp_ret, HQ, moves_refl. }
  apply Forall_cons in Hl as [[x Hx] Hl]. wp_step. eapply wp_load; [done|].
  destruct (lookup_lt_is_Some_2 (gd_mappings gd) j) as [slot Hslot]; [lia|].
  wp_step. eapply wp_from_option; [done|].
  pose proof (Forall_lookup_1 _ _ _ _ Hs Hslot) as Hne. rw Hx (drop_S _ _ _ Hslot) /= in HQ.
  destruct slot as [| |dm]; [done|..].
  - apply IH; [done|lia|]. intros s' Hm. apply HQ.
    rw (drop_S _ _ _ Hslot) in Hm. by destruct (ctrl_devs _ l).
  - wp_step. apply wp_nvfs_dma_unmap_pages. intros s1 H1.
    assert (k_ctrls s1 = k_ctrls s) as Ec by (by destruct H1 as (es & t & _ & _ & ->)).
    apply IH; [by rw Ec|lia|]. intros s' H2. apply HQ. rw Ec in H2.
    by eapply (moves_trans [_]).
Qed.

(** The events of a release callback. *)
Definition release_events (s : snvm) (m : map) : list event :=
  match m_release m, m_data m with
  | Some release_user_pages_fn, DataPages pages =>
      (EvDmaUnmap (m_pdev m) <$> take (length pages) (m_addrs m)) ++ (EvPutPage <$> pages)
  | Some release_gpu_memory_fn, DataGpu gd =>
      walk_events (gd_pages gd) (gd_mappings gd) (ctrl_devs (k_ctrls s) (k_ctrl_list s)) ++
      (EvP2pPut <$> option_list (gd_pages gd))
  | Some release_gpu_ioqueue_memory_fn, DataGpu gd =>
      walk_events (gd_pages gd) (take 1 (gd_mappings gd)) [m_pdev m] ++
      (EvP2pPut <$> option_list (gd_pages gd))
  | _, _ => []
  end.

(** [gd->pages] is given back if it was obtained. *)
Lemma wp_put_opt (o : option p2p_table) v (Q : unit → snvm → Prop) s :
  (∀ s', moves (EvP2pPut <$> option_list o) s s' → Q tt s') →
  wp (match o with Some t => nvfs_put_pages v t | None => mret tt end) Q s.
Proof.
  intros HQ. destruct o; [by apply wp_nvfs_put_pages|]. apply wp_ret, HQ, moves_refl.
Qed.

Lemma wp_release_slot0 d gd slot (Q : unit → snvm → Prop) s :
  gd_mappings gd !! 0%nat = Some slot → slot ≠ SlotUninit →
  (∀ s', moves (walk_events (gd_pages gd) (take 1 (gd_mappings gd)) [d]) s s' → Q tt s') →
  wp (release_slot0 d gd) Q s.
Proof.
  intros Hs Hne HQ. rw /release_slot0. wp_step. eapply wp_from_option; [done|].
  destruct (gd_mappings gd) as [|sl sls]; simplify_eq/=. destruct slot; [done|..].
  - apply wp_ret, HQ, moves_refl.
  - by apply wp_nvfs_dma_unmap_pages.
Qed.

Lemma wp_call_release fn p m (Q : unit → snvm → Prop) s :
  k_maps s !! p = Some m → m_release m = Some fn → m_data m ≠ DataNull →
  releasable (length (k_ctrl_list s)) m → allocated (k_ctrls s) (k_ctrl_list s) →
  (∀ s', moves (release_events s m) s s' →
     Q tt s'<{k_maps := <[p := m<{m_data := DataNull}>]> (k_maps s')}>) →
  wp (call_release fn p) Q s.
Proof.
  intros Hp Hf Hd Hr Hc HQ. rw /releasable Hf in Hr. rw /release_events Hf in HQ.
  destruct fn; simpl.
  - destruct (m_data m) as [|pages|] eqn:Ed; [done| |done]. destruct Hr as [Hn Hl].
    eapply wp_release_user_pages; [done..|].
    unshelve refine (HQ _ (moves_emits _ s _)).
    apply Forall_app. split; apply Forall_fmap, Forall_true; by intros.
  - rw /release_gpu_memory. wp_step. eapply wp_load; [done|].
    destruct (m_data m) as [|pages|gd] eqn:Ed; [done..|]. destruct Hr as [Hu Hl].
    wp_step. wp_step. wp_step. apply wp_release_walk; [done..|]. intros s1 H1. rw drop_0 in H1.
    wp_step. apply wp_put_opt. intros s2 H2. pose proof (moves_trans _ _ _ _ _ H1 H2) as H12.
    eapply wp_store; [|by apply HQ]. by destruct H12 as (?&?&_&_&->).
  - rw /release_gpu_ioqueue_memory. wp_step. eapply wp_load; [done|].
    destruct (m_data m) as [|pages|gd] eqn:Ed; [done..|]. destruct Hr as (slot & Hs & Hne).
    wp_step. eapply wp_release_slot0; [done..|]. intros s1 H1.
    wp_step. apply wp_put_opt. intros s2 H2. pose proof (moves_trans _ _ _ _ _ H1 H2) as H12.
    eapply wp_store; [|by apply HQ]. by destruct H12 as (?&?&_&_&->).
Qed.

(** [unmap_and_release] takes the map off every list, undoes its mapping and
    frees it, and does nothing else. *)
Lemma wp_unmap_and_release p m (Q : unit → snvm → Prop) s :
  k_maps s !! p = Some m → releasable (length (k_ctrl_list s)) m →
  allocated (k_ctrls s) (k_ctrl_list s) →
  (∀ s', moves (release_events s m) (drop_map p s) s' → Q tt s') →
  wp (unmap_and_release p) Q s.
Proof.
  intros Hp Hr Hc HQ. rw /unmap_and_release. wp_step. eapply wp_load; [done|].
  do 4 wp_step. wp_step.
  destruct (m_release m) as [fn|] eqn:Ef; last first.
  { wp_step. eapply wp_kfree_obj; [done|]. apply HQ. rw /release_events Ef /on_heap /=.
    apply moves_refl. }
  assert (m_data m = DataNull ∨ m_data m ≠ DataNull) as [Ed|Ed].
  { destruct (m_data m); [by left|by right..]. }
  { rw Ed. wp_step. eapply wp_kfree_obj; [done|]. apply HQ.
    assert (release_events s m = []) as ->; [rw /release_events Ef Ed; by destruct fn|].
    rw /on_heap /=. apply moves_refl. }
  assert (wp (call_release fn p) (λ _, wp (kfree_obj map p) Q) (unlink_group p (unlink_global p s)))
    as Hcall; [|by destruct (m_data m)].
  eapply wp_call_release; [done..|]. intros s1 (es & t & Hes & Htr & ->).
  eapply wp_kfree_obj; [apply lookup_insert_eq|]. apply HQ. exists es, t.
  split_and!; [done|done|]. rw /= delete_insert_eq //.
Qed.

(** ** Purging *)

(** Every map of a list is allocated and can be released. *)
Definition list_ok (ps : list ptr) (s : snvm) : Prop :=
  Forall (λ p, ∃ m, k_maps s !! p = Some m ∧ releasable (length (k_ctrl_list s)) m) ps.

Lemma drop_map_lookup p q s : q ≠ p → k_maps (drop_map p s) !! q = k_maps s !! q.
Proof. intros. by rw /= lookup_delete_ne. Qed.

Lemma drop_map_glist l p s : k_glist l (drop_map p s) = unlink p (k_glist l s).
Proof. by destruct l. Qed.

Lemma list_ok_drop ps p s : p ∉ ps → list_ok ps s → list_ok ps (drop_map p s).
Proof.
  rw /list_ok !Forall_forall. intros Hp Hok q Hq. destruct (Hok q Hq) as (m & Hm & Hr).
  exists m. split; [|done]. rw drop_map_lookup //. by intros ->.
Qed.

Definition victim (h : gmap ptr map) (owner p : ptr) : bool :=
  if h !! p is Some m then purgeable owner m else false.
Definition victims (h : gmap ptr map) (owner : ptr) (ps : list ptr) : list ptr :=
  filter (λ p, victim h owner p = true) ps.
Definition purge_events (s : snvm) (ps : list ptr) : list event :=
  ps ≫= λ p, if k_maps s !! p is Some m then release_events s m else [].

Lemma victims_app h owner ps ps' :
  victims h owner (ps ++ ps') = victims h owner ps ++ victims h owner ps'.
Proof. apply filter_app. Qed.
Lemma victims_none h owner ps :
  Forall (λ p, victim h owner p = false) ps → victims h owner ps = [].
Proof.
  induction 1 as [|p ps Hp Hps IH]; [done|]. rw /victims filter_cons_False //. by rw Hp.
Qed.
Lemma victims_delete h owner p ps :
  p ∉ ps → victims (delete p h) owner ps = victims h owner ps.
Proof.
  rw /victims. induction ps as [|q ps IH]; intros Hp; [done|].
  apply not_elem_of_cons in Hp as [Hne Hp].
  rw !filter_cons IH // /victim lookup_delete_ne //.
Qed.
Lemma purge_events_cons p ps s :
  purge_events s (p :: ps) =
    (if k_maps s !! p is Some m then release_events s m else []) ++ purge_events s ps.
Proof. done. Qed.
Lemma purge_events_drop p ps s : p ∉ ps → purge_events (drop_map p s) ps = purge_events s ps.
Proof.
  rw /purge_events. induction ps as [|q ps IH]; intros Hp; [done|].
  apply not_elem_of_cons in Hp as [Hne Hp]. by rw !bind_cons IH // drop_map_lookup.
Qed.

Lemma wp_purge_walk n l owner fuel pre post freed (Q : Z → snvm → Prop) s :
  k_glist l s = pre ++ post → NoDup (pre ++ post) → list_ok (pre ++ post) s →
  allocated (k_ctrls s) (k_ctrl_list s) →
  Forall (λ p, victim (k_maps s) owner p = false) pre → (length (pre ++ post) ≤ n)%nat →
  let vs := victims (k_maps s) owner post in
  (length vs * S n + length post ≤ fuel)%nat →
  (∀ s', moves (purge_events s vs) (drop_maps vs s) s' → Q (freed + Z.of_nat (length vs)) s') →
  wp (purge_walk fuel l owner (head post) freed) Q s.
Proof.
  revert pre post freed s Q. induction fuel as [|fuel IH];
    intros pre post freed s Q Hl Hnd Hok Hc Hpre Hn vs Hfuel HQ;
    (destruct post as [|p post]; simpl; [apply wp_ret; rw -(Z.add_0_r freed); apply HQ, moves_refl|]).
  { rw /= in Hfuel. lia. }
  assert (∃ m, k_maps s !! p = Some m ∧ releasable (length (k_ctrl_list s)) m) as (m & Hm & Hr).
  { rw /list_ok Forall_forall in Hok. apply Hok. set_solver. }
  assert ((p ∉ pre) ∧ (p ∉ post) ∧ NoDup (pre ++ post)) as (Hp & Hp' & Hnd').
  { rw -Permutation_middle in Hnd. apply NoDup_cons in Hnd. set_solver. }
  wp_step. eapply wp_load; [done|].
  assert (victim (k_maps s) owner p = purgeable owner m) as Hv by (rw /victim Hm //).
  destruct (purgeable owner m) eqn:Epu.
  - assert (vs = p :: victims (k_maps s) owner post) as Evs by (rw /vs /victims filter_cons_True //).
    wp_step. eapply wp_unmap_and_release; [done..|]. intros s1 H1.
    pose proof H1 as (es & t & _ & _ & E).
    assert (k_glist l s1 = pre ++ post) as El.
    { trans (k_glist l (drop_map p s)); [rw E; by destruct l|].
      by rw drop_map_glist Hl unlink_split. }
    assert (k_maps s1 = delete p (k_maps s)) as Em by (by rw E).
    assert (victims (k_maps s1) owner (pre ++ post) = victims (k_maps s) owner post) as Ev.
    { rw Em victims_delete; [|set_solver]. by rw victims_app victims_none. }
    wp_step. wp_step. rw El. apply (IH [] (pre ++ post)); rw ?Ev //.
    + rw E. apply list_ok_drop; [set_solver|].
      apply Forall_app in Hok as [? [_ ?]%Forall_cons]. by apply (Forall_app_2 _ pre post).
    + by rw E.
    + rw length_app /= in Hn. rw /= length_app. lia.
    + rw Evs /= in Hfuel. rw length_app /= in Hn. rw length_app. nia.
    + intros s' H2. rw Evs in HQ. cbn [length] in HQ.
      replace (freed + 1 + Z.of_nat _) with
        (freed + Z.of_nat (S (length (victims (k_maps s) owner post)))) by lia.
      apply HQ. rw purge_events_cons Hm. eapply moves_trans.
      * by eapply (moves_framed (drop_maps _) _ (drop_map p s)), H1; apply _.
      * rw -(purge_events_drop p); [|].
        { assert (purge_events s1 = purge_events (drop_map p s)) as <- by (by rw E). done. }
        rw /victims list_elem_of_filter. tauto.
  - assert (vs = victims (k_maps s) owner post) as Evs.
    { rw /vs /victims filter_cons_False //. by rw Hv. }
    wp_step. wp_step. rw Hl lsucc_app //. apply (IH (pre ++ [p])); rw -?app_assoc //.
    + apply Forall_app. split; [done|]. by constructor.
    + rw -Evs. simpl in Hfuel. lia.
    + by rw -Evs.
Qed.

(** Releasing every map of a list, front to back. *)
Lemma wp_release_all ps (Q : unit → snvm → Prop) s :
  NoDup ps → list_ok ps s → allocated (k_ctrls s) (k_ctrl_list s) →
  (∀ s', moves (purge_events s ps) (drop_maps ps s) s' → Q tt s') →
  wp (kfor unmap_and_release ps) Q s.
Proof.
  revert s. induction ps as [|p ps IH]; intros s Hnd Hok Hc HQ; simpl.
  { wp_step. apply HQ, moves_refl. }
  apply NoDup_cons in Hnd as [Hp Hnd]. apply Forall_cons in Hok as [(m & Hm & Hr) Hok].
  wp_step. eapply wp_unmap_and_release; [done..|]. intros s1 H1. pose proof H1 as (es & t & _ & _ & E).
  assert (purge_events s1 ps = purge_events s ps) as Eev.
  { trans (purge_events (drop_map p s) ps); [by rw E|by apply purge_events_drop]. }
  eapply IH; [done|rw E; by apply list_ok_drop|by rw E|]. intros s' H2. apply HQ.
  rw purge_events_cons Hm. rw Eev in H2. eapply moves_trans; [|exact H2].
  by eapply (moves_framed (drop_maps ps) _ (drop_map p s)), H1; apply _.
Qed.

(** The purge releases exactly the maps of [owner] without a group, each once
    and in list order, and returns their number. *)
Lemma wp_map_purge_by_owner l owner (Q : Z → snvm → Prop) s :
  NoDup (k_glist l s) → list_ok (k_glist l s) s → allocated (k_ctrls s) (k_ctrl_list s) →
  let vs := victims (k_maps s) owner (k_glist l s) in
  (∀ s', moves (purge_events s vs) (drop_maps vs s) s' → Q (Z.of_nat (length vs)) s') →
  wp (map_purge_by_owner l owner) Q s.
Proof.
  intros Hnd Hok Hc vs HQ. rw /map_purge_by_owner. wp_step. wp_step.
  eapply (wp_purge_walk (length (k_glist l s)) l owner _ []); [done..| |].
  - pose proof (length_filter (λ p, victim (k_maps s) owner p = true) (k_glist l s)).
    fold (victims (k_maps s) owner (k_glist l s)) in *. nia.
  - intros s' Hs'. by apply HQ.
Qed.

(** ** Mapping host memory *)

Definition set_map (p : ptr) (m : map) (s : snvm) : snvm := s<{k_maps ::= <[p := m]>}>.
#[export] Instance framed_set_map p m : Framed (set_map p m).
Proof. done. Qed.

Lemma set_map_set p m m' s : set_map p m (set_map p m' s) = set_map p m s.
Proof. rw /set_map /=. by rw insert_insert_eq. Qed.

Lemma set_map_id p m s : k_maps s !! p = Some m → set_map p m s = s.
Proof. intros Hp. rw /set_map /=. rw insert_id //. by destruct s. Qed.

(** A new map at the next address. *)
Definition bump (s : snvm) : snvm := s<{k_next ::= Pos.succ}>.
#[export] Instance framed_bump : Framed bump.
Proof. done. Qed.

Lemma wp_load_map p m (Q : map → snvm → Prop) s :
  k_maps s !! p = Some m → Q m s → wp (load p) Q s.
Proof. intros. by eapply wp_load. Qed.
Lemma wp_store_map p m m' (Q : unit → snvm → Prop) s :
  k_maps s !! p = Some m' → Q tt (set_map p m s) → wp (store p m) Q s.
Proof. intros. by eapply wp_store. Qed.
Lemma wp_alter_map p (f : map → map) m (Q : unit → snvm → Prop) s :
  k_maps s !! p = Some m → Q tt (set_map p (f m) s) → wp (alter_obj p f) Q s.
Proof. intros. by eapply wp_alter_obj. Qed.

Lemma moves_lookup ws s s' : moves ws s s' → k_maps s' = k_maps s.
Proof. by intros (es & t & _ & _ & ->). Qed.

Lemma wp_create_descriptor current c x vaddr n (Q : Z + ptr → snvm → Prop) s :
  k_ctrls s !! c = Some x → 1 ≤ n → OFFSET_ADDRS + n * 8 < 2 ^ 64 →
  (∀ s', moves [] s s' → Q (inl (- ENOMEM)) s') →
  (∀ s', moves [] (set_map (k_next s) (Map current vaddr (-1) (-1) (c_pdev x) 0 DataNull None 0
                  NVM_MAP_KIND_UNSPECIFIED n (replicate (Z.to_nat n) 0)) (bump s)) s' →
     Q (inr (k_next s)) s') →
  wp (create_descriptor current c vaddr n) Q s.
Proof.
  intros Hc Hn Hfit Herr Hok. rw /create_descriptor. wp_step. apply wp_ask.
  wp_step; [wp_step; apply Herr, moves_tick|]. wp_step. eapply wp_load; [done|].
  rw u64_id; [|rw /SIZEOF_MAP /OFFSET_ADDRS in Hfit *; lia]. wp_step.
  { exfalso. rename select ((_ <? _) = true) into Hlt. rw /SIZEOF_MAP /OFFSET_ADDRS in Hlt. lia. }
  wp_step. apply wp_create. wp_step. apply Hok. by apply (moves_tick (k_tick s + 1)).
Qed.

Lemma wp_dma_map_loop `{!kenv_laws _} p pages m k (Q : Z → snvm → Prop) s :
  k_maps s !! p = Some m → (length pages ≤ length (m_addrs m))%nat → (k ≤ length pages)%nat →
  (∀ s' addrs, length addrs = (length pages - k)%nat →
     Forall (λ a, env_dma_mapping_error (m_pdev m) a = 0) addrs →
     moves (EvDmaMap (m_pdev m) <$> addrs)
       (set_map p m<{m_addrs := take k (m_addrs m) ++ addrs ++ drop (length pages) (m_addrs m)}> s) s' →
     Q 0 s') →
  (∀ s' good bad err, err < 0 → (k + length good < length pages)%nat →
     env_dma_mapping_error (m_pdev m) bad = err →
     moves (EvDmaMap (m_pdev m) <$> good)
       (set_map p m<{m_addrs := take k (m_addrs m) ++ good ++ bad :: drop (S (k + length good)) (m_addrs m)}> s) s' →
     Q err s') →
  wp (dma_map_loop p pages (seq k (length pages - k))) Q s.
Proof.
  remember (length pages - k)%nat as r eqn:Er.
  revert k m s Q Er. induction r as [|r IH]; intros k m s Q Er Hp Hl Hk Hok Herr; simpl.
  { apply wp_ret. apply (Hok _ []); [done..|].
    replace (length pages) with k by lia.
    assert (m<{m_addrs := take k (m_addrs m) ++ [] ++ drop k (m_addrs m)}> = m) as ->.
    { rw app_nil_l take_drop. by destruct m. }
    rw set_map_id //. apply moves_refl. }
  destruct (lookup_lt_is_Some_2 pages k) as [pg Hpg]; [lia|].
  destruct (lookup_lt_is_Some_2 (m_addrs m) k) as [a0 Ha0]; [lia|].
  wp_step. eapply wp_from_option; [done|]. wp_step. eapply wp_load; [done|].
  wp_step. apply wp_ask. set (addr := env_dma_map_page _ _ _).
  wp_step. eapply wp_from_option; [done|]. wp_step. eapply wp_store_map; [done|].
  set (s0 := s<{k_tick := _}>).
  set (m1 := m<{m_addrs := <[k := addr]> (m_addrs m)}>).
  assert (moves [] (set_map p m1 s) (set_map p m1 s0)) as H0.
  { apply moves_framed; [apply _|apply moves_tick]. }
  wp_step.
  { wp_step. eapply (Herr _ [] addr); [|simpl; lia|done|].
    { rename select (c_true _ = true) into Ht. rw /c_true in Ht.
      pose proof (env_dma_mapping_error_neg (m_pdev m) addr). lia. }
    rw /= Nat.add_0_r -insert_take_drop; [exact H0|lia]. }
  wp_step. apply wp_emit.
  assert (moves [EvDmaMap (m_pdev m) addr] (set_map p m1 s)
            (set_map p m1 s0)<{k_log := k_log (set_map p m1 s0) ++ [EvDmaMap (m_pdev m) addr] }>)
    as H1.
  { eapply (moves_trans [] [_]); [done|]. apply moves_emits. by repeat constructor. }
  eapply (IH (S k) m1); [lia|by rw /= lookup_insert_eq|by rw /= length_insert|lia| |].
  - intros s' addrs Hlen Hall Hm. apply (Hok s' (addr :: addrs)); [simpl; lia| |].
    { constructor; [|done]. rename select (c_true _ = false) into Ht. rw /c_true in Ht. lia. }
    rw fmap_cons. eapply (moves_trans [_]); [|exact Hm].
    replace (m<{m_addrs := _}>) with
      (m1<{m_addrs := take (S k) (m_addrs m1) ++ addrs ++ drop (length pages) (m_addrs m1)}>).
    { rw -(set_map_set p _ m1 s). apply moves_framed; [apply _|exact H1]. }
    rw /m1 /=. f_equal. rw (take_S_r _ _ addr); [|by apply list_lookup_insert_eq; lia].
    rw take_insert_ge // drop_insert_lt; [|lia]. by rw -app_assoc.
  - intros s' good bad err He Hlen Hb Hm. eapply (Herr s' (addr :: good) bad err); [done|simpl; lia|done|].
    rw fmap_cons. eapply (moves_trans [_]); [|exact Hm].
    replace (m<{m_addrs := _}>) with
      (m1<{m_addrs := take (S k) (m_addrs m1) ++ good ++ bad :: drop (S (S k + length good)) (m_addrs m1)}>).
    { rw -(set_map_set p _ m1 s). apply moves_framed; [apply _|exact H1]. }
    rw /m1 /=. f_equal. rw (take_S_r _ _ addr); [|by apply list_lookup_insert_eq; lia].
    rw take_insert_ge // drop_insert_lt; [|lia]. rw -app_assoc /=. do 5 f_equal. lia.
Qed.

#[export] Instance framed_glist_insert l p : Framed (glist_insert l p).
Proof. done. Qed.

(** No list contains [p]. *)
Definition unlinked (p : ptr) (s : snvm) : Prop :=
  (∀ l, p ∉ k_glist l s) ∧
  map_Forall (λ _ g, p ∉ g_maps g) (k_groups s) ∧
  map_Forall (λ _ o, p ∉ o_data_maps o) (k_owners s).
(** The next address is that of no map. *)
Definition next_ok (s : snvm) : Prop := k_maps s !! k_next s = None ∧ unlinked (k_next s) s.

Lemma fmap_unlink_id {V} (f : V → V) (h : gmap ptr V) :
  map_Forall (λ _ v, f v = v) h → f <$> h = h.
Proof.
  intros Hf. apply map_eq. intros i. rw lookup_fmap. destruct (h !! i) as [v|] eqn:E; simpl; [|done].
  by rw (Hf i v E).
Qed.

Lemma drop_map_unlinked p m s :
  k_maps s !! p = None → unlinked p s → drop_map p (set_map p m s) = s.
Proof.
  intros Hp (Hl & Hg & Ho).
  pose proof (Hl HostList) as H1. pose proof (Hl DeviceList) as H2. pose proof (Hl DeviceQueueList) as H3.
  rw /drop_map /set_map /unlink_group /unlink_global /=. simpl in *.
  rw delete_insert_id // !unlink_not_elem // !fmap_unlink_id; [by destruct s|..].
  - intros i o Hi. rw /= unlink_not_elem; [by destruct o|by eapply Ho].
  - intros i g Hi. rw /= unlink_not_elem; [by destruct g|by eapply Hg].
Qed.

(** A map that was just put on a list leaves no trace when it is dropped. *)
Lemma drop_map_inserted l p m s :
  k_maps s !! p = None → unlinked p s → drop_map p (glist_insert l p (set_map p m s)) = s.
Proof.
  intros Hp Hu. rw -{2}(drop_map_unlinked p m s Hp Hu). destruct Hu as (Hl & _ & _).
  rw /drop_map /unlink_group /unlink_global /glist_insert /=.
  pose proof (Hl HostList) as H1. pose proof (Hl DeviceList) as H2. pose proof (Hl DeviceQueueList) as H3.
  simpl in H1, H2, H3. by destruct l; simpl; rw unlink_snoc_fresh // !unlink_not_elem.
Qed.

(** The descriptor of a host mapping. *)
Definition host_map (current : ptr) (vaddr : Z) (pdev : ptr) (n : Z) (pages addrs : list Z) : map :=
  Map current (page_align PAGE_SIZE vaddr) (-1) (-1) pdev PAGE_SIZE (DataPages pages)
    (Some release_user_pages_fn) 0 NVM_MAP_KIND_UNSPECIFIED (Z.of_nat (length pages))
    (addrs ++ replicate (Z.to_nat n - length pages) 0).

Lemma releasable_host nctrl pages m :
  m_release m = Some release_user_pages_fn → m_data m = DataPages pages →
  m_n_addrs m = Z.of_nat (length pages) → (length pages ≤ length (m_addrs m))%nat →
  releasable nctrl m.
Proof. intros Hf Hd Hn Hl. by rw /releasable Hf Hd. Qed.

(** Undoing the creation of a descriptor that is on no list. *)
Lemma wp_unmap_new p m (Q : unit → snvm → Prop) s s1 ws :
  moves ws (set_map p m s) s1 → k_maps s !! p = None → unlinked p s →
  releasable (length (k_ctrl_list s)) m → allocated (k_ctrls s) (k_ctrl_list s) →
  (∀ s', moves (ws ++ release_events s m) s s' → Q tt s') → wp (unmap_and_release p) Q s1.
Proof.
  intros H1 Hp Hu Hr Hc HQ. pose proof H1 as (es & t & _ & _ & E).
  eapply (wp_unmap_and_release p m); [by rw E /= lookup_insert_eq|by rw E|by rw E|].
  assert (release_events s1 m = release_events s m) as -> by (by rw E).
  intros s2 H2. eapply HQ. rw -{2}(drop_map_unlinked p m s) //.
  eapply moves_trans; [|exact H2]. apply moves_framed; [apply _|exact H1].
Qed.

(** A store and a quiet step commute. *)
Lemma moves_set ws p m s s' : moves ws s s' → moves ws (set_map p m s) (set_map p m s').
Proof. apply moves_framed, _. Qed.

Lemma moves_reset ws p m m' s s' :
  moves ws (set_map p m s) (set_map p m s') → moves ws (set_map p m' s) (set_map p m' s').
Proof.
  intros Hm. rw -(set_map_set p m' m s) -(set_map_set p m' m s'). by apply moves_set.
Qed.

(** What a host mapping that fails does and undoes: nothing; or the pages are
    pinned and some of them mapped, until [bad] is an error.  Then every page is
    unpinned and every mapping unmapped, but the loop goes on to unmap [bad] and
    the zeros behind it. *)
Definition host_undone (pdev : ptr) (ws : list event) : Prop :=
  ws = [] ∨ ∃ pages good bad n, (length good + 1 + n = length pages)%nat ∧
    env_dma_mapping_error pdev bad < 0 ∧
    ws = (EvPinPage <$> pages) ++ (EvDmaMap pdev <$> good) ++
         (EvDmaUnmap pdev <$> good ++ bad :: replicate n 0) ++ (EvPutPage <$> pages).

Lemma wp_map_user_pages `{!kenv_laws _} p m (Q : Z → snvm → Prop) s :
  k_maps s !! p = Some m → 1 ≤ m_n_addrs m → m_addrs m = replicate (Z.to_nat (m_n_addrs m)) 0 →
  m_data m = DataNull →
  (∀ ws err m' s', err < 0 → (∀ k, releasable k m') →
     (∀ s0, host_undone (m_pdev m) (ws ++ release_events s0 m')) →
     moves ws (set_map p m' s) s' → Q err s') →
  (∀ pages addrs s', 1 ≤ Z.of_nat (length pages) ≤ m_n_addrs m → length addrs = length pages →
     Forall (λ a, env_dma_mapping_error (m_pdev m) a = 0) addrs →
     moves ((EvPinPage <$> pages) ++ (EvDmaMap (m_pdev m) <$> addrs))
       (set_map p m<{m_n_addrs := Z.of_nat (length pages)}><{m_page_size := PAGE_SIZE}>
                   <{m_data := DataPages pages}><{m_release := Some release_user_pages_fn}>
                   <{m_addrs := addrs ++ drop (length pages) (m_addrs m)}> s) s' →
     Q 0 s') →
  wp (map_user_pages p) Q s.
Proof.
  intros Hp Hn Hadr Hd Herr Hok. rw /map_user_pages. wp_step. eapply wp_load_map; [done|].
  assert (length (m_addrs m) = Z.to_nat (m_n_addrs m)) as Hlen by (by rw Hadr length_replicate).
  assert (∀ s0, host_undone (m_pdev m) ([] ++ release_events s0 m)) as Hnone.
  { intros s0. left. rw /release_events Hd. by destruct (m_release m) as [[]|]. }
  pose proof (set_map_id p m s Hp) as Eid.
  assert (∀ k, releasable k m) as Hrel by (intros k; rw /releasable Hd; by destruct (m_release m) as [[]|]).
  wp_step. apply wp_ask. wp_step.
  { wp_step. eapply (Herr [] _ m); [done|done|done|]. rw Eid. apply moves_tick. }
  wp_step. apply wp_ask. match goal with |- context [wp _ _ ?x] => set (s1 := x) end.
  assert (moves [] s s1) as H1 by (eapply (moves_trans [] []); apply moves_tick).
  match goal with |- context [env_gup ?t ?v ?n] =>
    pose proof (env_gup_count t v n) as Hcnt; pose proof (env_gup_zero t v n) as Hz;
    destruct (env_gup t v n) as [retval pages] end. cbn [fst snd] in *.
  destruct (Z.leb_spec retval 0).
  { wp_step. eapply (Herr [] _ m); [lia|done|done|]. by rw Eid. }
  destruct Hcnt as [Hpl Hle]; [lia|]. subst retval. rw Nat2Z.id.
  wp_step. apply wp_emits. match goal with |- context [wp _ _ ?x] => set (s2 := x) end.
  assert (moves (EvPinPage <$> pages) s s2) as H2.
  { eapply (moves_trans []); [exact H1|]. apply moves_emits. by apply Forall_fmap, Forall_true. }
  wp_step. eapply wp_store_map; [done|].
  match goal with |- context [set_map p ?m' _] => set (m1 := m') end.
  rw -{1}(Nat.sub_0_r (length pages)).
  eapply (wp_dma_map_loop p pages m1 0); [by rw /= lookup_insert_eq|simpl; lia|lia|..].
  - intros s' addrs Hla Hall Hm. rw set_map_set in Hm.
    eapply (Hok pages addrs); [lia|lia|done|]. eapply moves_trans; [|exact Hm].
    by apply moves_set.
  - intros s' good bad err He Hla Hb Hm. rw set_map_set in Hm. cbn [m_pdev m_addrs m1 upd] in *.
    rw take_0 app_nil_l in Hm.
    eapply Herr; [done| | |eapply moves_trans; [by apply moves_set|exact Hm]].
    + intros k. apply (releasable_host _ pages); [done..|]. rw /= length_app /= length_drop. lia.
    + intros s0. right. exists pages, good, bad, (length pages - S (length good))%nat.
      split; [lia|]. split; [lia|]. rw /release_events /= -app_assoc. do 3 f_equal.
      rw take_app_ge; [|lia]. do 2 f_equal.
      destruct (length pages - length good)%nat as [|n] eqn:En; [lia|].
      replace (length pages - S (length good))%nat with n by lia. rw firstn_cons.
      by rw Hadr drop_replicate take_replicate Nat.min_l; [|lia].
Qed.

Lemma wp_map_userspace `{!kenv_laws _} current l c x vaddr n (Q : Z + ptr → snvm → Prop) s :
  k_ctrls s !! c = Some x → OFFSET_ADDRS + n * 8 < 2 ^ 64 → next_ok s →
  allocated (k_ctrls s) (k_ctrl_list s) →
  (∀ b ws err s', err < 0 → host_undone (c_pdev x) ws →
     moves ws (if b : bool then bump s else s) s' → Q (inl err) s') →
  (∀ pages addrs s', 1 ≤ Z.of_nat (length pages) ≤ n → length addrs = length pages →
     Forall (λ a, env_dma_mapping_error (c_pdev x) a = 0) addrs →
     moves ((EvPinPage <$> pages) ++ (EvDmaMap (c_pdev x) <$> addrs))
       (glist_insert l (k_next s)
          (set_map (k_next s) (host_map current vaddr (c_pdev x) n pages addrs) (bump s))) s' →
     Q (inr (k_next s)) s') →
  wp (map_userspace current l c vaddr n) Q s.
Proof.
  intros Hc Hfit [Hnx Hu] Hcl Herr Hok. rw /map_userspace.
  destruct (Z.ltb_spec n 1) as [Hlt|Hge].
  { wp_step. apply (Herr false []); [done|by left|apply moves_refl]. }
  wp_step. eapply wp_create_descriptor; [done|lia|done|..].
  { intros s1 H1. wp_step. apply (Herr false []); [done|by left|done]. }
  intros s1 H1. set (m0 := Map current _ _ _ _ _ _ _ _ _ _ _) in H1.
  wp_step. eapply (wp_alter_map _ _ m0).
  { by rw (moves_lookup _ _ _ H1) /= lookup_insert_eq. }
  set (p := k_next s) in *. set (m1 := (m0<{m_page_size := PAGE_SIZE}>)).
  assert (moves [] (set_map p m1 (bump s)) (set_map p m1 s1)) as H2.
  { rw -(set_map_set p m1 m0). by apply moves_set. }
  wp_step. eapply (wp_map_user_pages p m1).
  { by rw (moves_lookup _ _ _ H2) /= lookup_insert_eq. }
  { done. } { done. } { done. }
  - intros ws err m' s' He Hr Hun Hm. rw set_map_set in Hm.
    assert (c_true err = true) as -> by (rw /c_true; lia).
    assert (moves ([] ++ ws) (set_map p m' (bump s)) s') as H3.
    { eapply moves_trans; [|exact Hm]. rw -(set_map_set p m' m0). by apply moves_set. }
    wp_step. eapply (wp_unmap_new p m' _ (bump s)); [exact H3|done|done|apply Hr|done|].
    intros s'' H4. wp_step. eapply (Herr true); [done|exact (Hun (bump s))|exact H4].
  - intros pages addrs s' Hn Hl Hall Hm. rw set_map_set in Hm. cbn [c_true Z.eqb negb].
    wp_step. wp_step. wp_step. eapply (Hok pages addrs); [done..|].
    apply moves_framed; [apply _|].
    rw /host_map. replace (replicate (Z.to_nat n - length pages) 0) with
      (drop (length pages) (m_addrs m1)) by (by rw /= drop_replicate).
    eapply (moves_trans []); [|exact Hm]. rw -(set_map_set p _ m0). by apply moves_set.
Qed.

(** ** Mapping device memory *)

Lemma wp_nvfs_get_pages v len (Q : Z * option p2p_table → snvm → Prop) s :
  (∀ err s', err < 0 → moves [] s s' → Q (err, None) s') →
  (∀ t s', 0 < pt_entries t < 2 ^ 32 →
     (∀ n, 0 < n < 2 ^ 32 → len = 65536 * n → pt_entries t = n) →
     moves [EvP2pGet t] s s' → Q (0, Some t) s') →
  wp (nvfs_get_pages v len) Q s.
Proof.
  intros Herr Hok. rw /nvfs_get_pages. wp_step. eapply wp_mono; [apply p2p_get_pages_ok|].
  intros [err [t|]] s1 [H1 Hr]; cbn [fst snd] in *.
  - destruct Hr as (-> & He & Hn). wp_step. apply wp_emit. wp_step. apply Hok; [done..|].
    eapply (moves_trans []); [by apply moves_quiet|]. apply moves_emits. by repeat constructor.
  - wp_step. wp_step. wp_step. apply Herr; [done|by apply moves_quiet].
Qed.

Lemma wp_nvfs_dma_map_pages d t (Q : Z * option p2p_mapping → snvm → Prop) s :
  0 < pt_entries t →
  (∀ err s', err < 0 → moves [] s s' → Q (err, None) s') →
  (∀ dm s', Z.of_nat (length (pm_addresses dm)) = pt_entries t →
     moves [EvP2pMap d t dm] s s' → Q (0, Some dm) s') →
  wp (nvfs_dma_map_pages d t) Q s.
Proof.
  intros He Herr Hok. rw /nvfs_dma_map_pages. wp_step.
  eapply wp_mono; [by apply p2p_dma_map_pages_ok|].
  intros [err [dm|]] s1 [H1 Hr]; cbn [fst snd] in *.
  - destruct Hr as (-> & Hlen). wp_step. apply wp_emit. wp_step. apply Hok; [done..|].
    eapply (moves_trans []); [by apply moves_quiet|]. apply moves_emits. by repeat constructor.
  - wp_step. wp_step. wp_step. apply Herr; [done|by apply moves_quiet].
Qed.

(** A device map with the mappings [ds] established so far. *)
Definition gpu_slots (ds : list p2p_mapping) : list mapping_slot :=
  (SlotMapped <$> ds) ++ replicate (max_num_ctrls - length ds) SlotNull.
Definition head_addrs (n : Z) (ds : list p2p_mapping) : list Z :=
  match ds with
  | [] => replicate (Z.to_nat n) 0
  | dm :: _ => take (Z.to_nat n) (pm_addresses dm)
  end.
Definition gpu_map (m : map) (t : p2p_table) (ds : list p2p_mapping) : map :=
  m<{m_data := DataGpu (GpuRegion (Some t) (gpu_slots ds))}>
   <{m_addrs := head_addrs (m_n_addrs m) ds}>.

Lemma gpu_slots_snoc ds dm :
  (length ds < max_num_ctrls)%nat →
  <[length ds := SlotMapped dm]> (gpu_slots ds) = gpu_slots (ds ++ [dm]).
Proof.
  intros Hl. rw /gpu_slots fmap_app length_app -app_assoc /=.
  replace (max_num_ctrls - length ds)%nat with (S (max_num_ctrls - (length ds + 1))) by lia.
  rw insert_app_r_alt length_fmap // Nat.sub_diag //.
Qed.

Lemma wp_map_walk p m t ds l (Q : Z → snvm → Prop) s :
  k_maps s !! p = Some (gpu_map m t ds) → (length ds + length l ≤ max_num_ctrls)%nat →
  allocated (k_ctrls s) l → 0 < m_n_addrs m → pt_entries t = m_n_addrs m →
  (∀ err ds' s', err < 0 → (length ds' < length l)%nat →
     moves (zip_with (λ d dm, EvP2pMap d t dm) (ctrl_devs (k_ctrls s) l) ds')
       (set_map p (gpu_map m t (ds ++ ds')) s) s' → Q err s') →
  (∀ ds' s', length ds' = length l →
     Forall (λ dm, Z.of_nat (length (pm_addresses dm)) = pt_entries t) ds' →
     moves (zip_with (λ d dm, EvP2pMap d t dm) (ctrl_devs (k_ctrls s) l) ds')
       (set_map p (gpu_map m t (ds ++ ds')) s) s' → Q 0 s') →
  wp (map_walk p t (length ds) l) Q s.
Proof.
  revert ds s Q. induction l as [|c l IH]; intros ds s Q Hp Hlen Hc Hn Ht Herr Hok; simpl in *.
  { wp_step. apply (Hok []); [done..|]. rw app_nil_r set_map_id //. apply moves_refl. }
  apply Forall_cons in Hc as [[x Hx] Hc]. wp_step. eapply wp_load; [done|].
  wp_step. apply wp_nvfs_dma_map_pages; [lia| |].
  { intros err s1 He H1. assert (c_true err = true) as -> by (rw /c_true; lia). wp_step.
    eapply (Herr err []); [done|simpl; lia|]. rw Hx /= app_nil_r set_map_id //. }
  intros dm s1 Hdm H1. pose proof (moves_lookup _ _ _ H1) as E1.
  assert (gpu_slots ds !! length ds = Some SlotNull) as Hslot.
  { rw /gpu_slots lookup_app_r length_fmap // Nat.sub_diag.
    destruct (max_num_ctrls - length ds)%nat eqn:Em; [lia|done]. }
  wp_step. rw /set_slot. wp_step. eapply wp_load_map; [by rw E1|].
  change (m_data (gpu_map m t ds)) with (DataGpu (GpuRegion (Some t) (gpu_slots ds))).
  cbn [gd_mappings gd_pages]. wp_step. eapply wp_from_option; [exact Hslot|].
  eapply wp_store_map; [by rw E1|]. cbn [c_true Z.eqb negb].
  assert (moves [EvP2pMap (c_pdev x) t dm] (set_map p (gpu_map m t (ds ++ [dm])) s)
            (set_map p (gpu_map m t (ds ++ [dm])) s1)) as H2 by (by apply moves_set).
  wp_step. apply (wp_mono _ (λ _ s2, s2 = set_map p (gpu_map m t (ds ++ [dm])) s1)).
  { cbn [gd_mappings gd_pages]. rw gpu_slots_snoc; [|lia]. wp_step.
    - rename select (bool_decide _ = true) into Hb. apply bool_decide_eq_true in Hb.
      destruct ds; [|done]. rw /copy_addrs. wp_step.
      eapply wp_load_map; [by rw /= lookup_insert_eq|]. simpl.
      rw length_replicate. wp_step.
      { rename select (_ || _ = true) into Ho. exfalso.
        apply orb_true_iff in Ho as [?%Nat.ltb_lt|?%Nat.ltb_lt]; lia. }
      eapply wp_store_map; [by rw /= lookup_insert_eq|]. rw set_map_set. f_equal.
      rw /gpu_map /=. by rw drop_ge ?length_replicate // app_nil_r.
    - rename select (bool_decide _ = false) into Hb. apply bool_decide_eq_false in Hb.
      destruct ds; [done|]. done. }
  intros _ s2 ->. rw -(Nat.add_1_r (length ds)) -(length_app ds [dm]).
  assert (k_ctrls (set_map p (gpu_map m t (ds ++ [dm])) s1) = k_ctrls s) as Ec.
  { by destruct H1 as (?&?&_&_&->). }
  eapply (IH (ds ++ [dm])); [by rw /= lookup_insert_eq|rw length_app /=; lia|by rw Ec|done|done| |].
  - intros err ds' s' He Hl Hm. rw set_map_set -app_assoc Ec in Hm.
    apply (Herr err (dm :: ds')); [done|simpl; lia|]. rw Hx /=.
    eapply (moves_trans [_]); [by apply moves_set|exact Hm].
  - intros ds' s' Hl Hall Hm. rw set_map_set -app_assoc Ec in Hm.
    apply (Hok (dm :: ds')); [simpl; lia|by constructor|]. rw Hx /=.
    eapply (moves_trans [_]); [by apply moves_set|exact Hm].
Qed.

Lemma gpu_slots_init ds : Forall (.≠ SlotUninit) (gpu_slots ds).
Proof.
  rw /gpu_slots. apply Forall_app. split; [by apply Forall_fmap, Forall_true|by apply Forall_replicate].
Qed.
Lemma length_gpu_slots ds : (max_num_ctrls ≤ length (gpu_slots ds))%nat.
Proof. rw /gpu_slots length_app length_fmap length_replicate. lia. Qed.

Lemma releasable_gpu nctrl m t ds :
  m_release m = Some release_gpu_memory_fn → (nctrl ≤ max_num_ctrls)%nat →
  releasable nctrl (gpu_map m t ds).
Proof.
  intros Hf Hn. rw /releasable /= Hf. pose proof (length_gpu_slots ds).
  split; [apply gpu_slots_init|lia].
Qed.

Lemma wp_set_gpu p fn gd m (Q : unit → snvm → Prop) s :
  k_maps s !! p = Some m →
  Q tt (set_map p m<{m_page_size := GPU_PAGE_SIZE}><{m_data := DataGpu gd}>
                   <{m_release := Some fn}> s) →
  wp (set_gpu p fn gd) Q s.
Proof. intros. by eapply wp_alter_map. Qed.

(** The unmaps of a device map undo its maps, controller by controller. *)
Lemma walk_events_slots t ds devs :
  (length ds ≤ length devs)%nat →
  walk_events t (gpu_slots ds) devs = zip_with (λ d dm, EvP2pUnmap d t dm) devs ds.
Proof.
  rw /gpu_slots. generalize (max_num_ctrls - length ds)%nat as rest. intros rest.
  revert devs. induction ds as [|dm ds IH]; intros [|d devs] Hl; simpl in *; [by destruct rest..|lia|].
  rw IH //. lia.
Qed.
Lemma walk_events_null t n devs : walk_events t (replicate n SlotNull) devs = [].
Proof. by destruct devs, n. Qed.

Lemma length_ctrl_devs (h : gmap ptr ctrl) l : allocated h l → length (ctrl_devs h l) = length l.
Proof. induction 1 as [|c l [x Hx] _ IH]; [done|]. rw /ctrl_devs /= Hx /=. by f_equal. Qed.

(** What a device mapping that fails does and undoes: nothing, or the mappings
    for the first controllers, each unmapped through its device, and the pages. *)
Definition dev_undone (devs : list ptr) (ws : list event) : Prop :=
  ws = [] ∨ ∃ t ds, (length ds < length devs)%nat ∧
    ws = EvP2pGet t :: zip_with (λ d dm, EvP2pMap d t dm) devs ds ++
         zip_with (λ d dm, EvP2pUnmap d (Some t) dm) devs ds ++ [EvP2pPut t].

Lemma wp_map_gpu_memory p m (Q : Z → snvm → Prop) s :
  k_maps s !! p = Some m → 0 < m_n_addrs m < 2 ^ 32 → m_data m = DataNull →
  m_addrs m = replicate (Z.to_nat (m_n_addrs m)) 0 →
  allocated (k_ctrls s) (k_ctrl_list s) → (length (k_ctrl_list s) ≤ max_num_ctrls)%nat →
  let m' := m<{m_page_size := GPU_PAGE_SIZE}><{m_release := Some release_gpu_memory_fn}> in
  (∀ ws err m'' s', err < 0 → releasable (length (k_ctrl_list s)) m'' →
     (∀ s0, k_ctrls s0 = k_ctrls s → k_ctrl_list s0 = k_ctrl_list s →
        dev_undone (ctrl_devs (k_ctrls s) (k_ctrl_list s)) (ws ++ release_events s0 m'')) →
     moves ws (set_map p m'' s) s' → Q err s') →
  (∀ t ds s', pt_entries t = m_n_addrs m → length ds = length (k_ctrl_list s) →
     Forall (λ dm, Z.of_nat (length (pm_addresses dm)) = pt_entries t) ds →
     moves (EvP2pGet t :: zip_with (λ d dm, EvP2pMap d t dm) (ctrl_devs (k_ctrls s) (k_ctrl_list s)) ds)
       (set_map p (gpu_map m' t ds) s) s' → Q 0 s') →
  wp (map_gpu_memory p) Q s.
Proof.
  intros Hp Hn Hd Ha Hc Hl m' Herr Hok. rw /map_gpu_memory.
  assert (∀ s', moves [] s s' → Q (- ENOMEM) s') as Hnomem.
  { intros s' Hs'. eapply (Herr [] _ m); [done| | |by rw set_map_id].
    - rw /releasable Hd. by destruct (m_release m) as [[]|].
    - intros s0 _ _. left. rw /release_events Hd. by destruct (m_release m) as [[]|]. }
  wp_step. apply wp_ask. wp_step; [wp_step; apply Hnomem, moves_tick|].
  wp_step. apply wp_ask. match goal with |- context [wp _ _ ?x] => set (s1 := x) end.
  assert (moves [] s s1) as H1 by (eapply (moves_trans [] []); apply moves_tick).
  wp_step; [wp_step; by apply Hnomem|].
  wp_step. eapply wp_set_gpu; [done|]. match goal with |- context [set_map p ?x _] => set (m1 := x) end.
  wp_step. eapply (wp_load_map _ m1); [by rw /= lookup_insert_eq|]. wp_step.
  apply wp_nvfs_get_pages.
  { intros err s2 He H2. assert (c_true err = true) as -> by (rw /c_true; lia). wp_step.
    eapply (Herr _ err m1); [done| | |eapply moves_trans; [by apply moves_set|exact H2]].
    - split; cbn [gd_mappings]; [by apply Forall_replicate|by rw length_replicate].
    - intros s0 _ _. left. rw /release_events. cbn [m_release m_data m1 upd gd_pages gd_mappings].
      by rw walk_events_null. }
  intros t s2 Ht Hte H2. specialize (Hte (m_n_addrs m) Hn).
  assert (pt_entries t = m_n_addrs m) as Het.
  { apply Hte. rw u64_id; [done|]. change (m_n_addrs m1) with (m_n_addrs m).
    change GPU_PAGE_SIZE with 65536. lia. }
  wp_step. eapply (wp_set_gpu _ _ _ m1); [by rw (moves_lookup _ _ _ H2) /= lookup_insert_eq|].
  match goal with |- context [set_map p ?x s2] => replace x with (gpu_map m' t []) end; last first.
  { rw /gpu_map /m1 /m' /=. by rw -Ha. }
  cbn [c_true Z.eqb negb]. wp_step. wp_step. wp_step.
  assert (moves [EvP2pGet t] (set_map p (gpu_map m' t []) s) (set_map p (gpu_map m' t []) s2)) as H3.
  { eapply (moves_trans [] [_]); [by apply moves_set|].
    rw -(set_map_set p _ m1 s1). by apply moves_set. }
  assert (k_ctrl_list (set_map p (gpu_map m' t []) s2) = k_ctrl_list s ∧
          k_ctrls (set_map p (gpu_map m' t []) s2) = k_ctrls s) as [El Ec].
  { by destruct H3 as (?&?&_&_&->). }
  rw El. eapply (wp_map_walk p m' t []); [by rw /= lookup_insert_eq|simpl; lia|by rw Ec|apply Hn|done| |].
  - intros err ds s' He Hds Hm. assert (c_true err = true) as -> by (rw /c_true; lia).
    wp_step. rw set_map_set app_nil_l Ec in Hm.
    eapply (Herr (EvP2pGet t :: zip_with _ _ ds) _ (gpu_map m' t ds)); [done| | |].
    + by apply (releasable_gpu _ m').
    + intros s0 E1 E2. right. exists t, ds. rw length_ctrl_devs //. split; [done|].
      rw /release_events /= E1 E2 walk_events_slots; [done|].
      rw length_ctrl_devs //. lia.
    + eapply (moves_trans [_]); [by eapply moves_reset|exact Hm].
  - intros ds s' Hds Hall Hm. cbn [c_true Z.eqb negb]. rw set_map_set Ec in Hm. wp_step.
    eapply wp_alter_map; [by rw (moves_lookup _ _ _ Hm) /= lookup_insert_eq|]. wp_step.
    assert ((gpu_map m' t ds)<{m_n_addrs := pt_entries t}> = gpu_map m' t ds) as Egm.
    { rw Het /gpu_map /m' /=. done. }
    rw Egm set_map_id; [|by rw (moves_lookup _ _ _ Hm) /= lookup_insert_eq].
    apply (Hok t ds); [done..|]. eapply (moves_trans [_]); [by eapply moves_reset|exact Hm].
Qed.

(** The descriptor of a device mapping before its p2p mappings. *)
Definition dev_map (current : ptr) (vaddr : Z) (pdev : ptr) (n : Z) : map :=
  Map current (page_align GPU_PAGE_SIZE vaddr) (-1) (-1) pdev GPU_PAGE_SIZE DataNull
    (Some release_gpu_memory_fn) 0 NVM_MAP_KIND_UNSPECIFIED n (replicate (Z.to_nat n) 0).

Lemma wp_map_device_memory current l c x vaddr n (Q : Z + ptr → snvm → Prop) s :
  k_ctrls s !! c = Some x → n < 2 ^ 32 → next_ok s →
  allocated (k_ctrls s) (k_ctrl_list s) → (length (k_ctrl_list s) ≤ max_num_ctrls)%nat →
  (∀ b ws err s', err < 0 → dev_undone (ctrl_devs (k_ctrls s) (k_ctrl_list s)) ws →
     moves ws (if b : bool then bump s else s) s' → Q (inl err) s') →
  (∀ t ds s', 1 ≤ n → pt_entries t = n → length ds = length (k_ctrl_list s) →
     Forall (λ dm, Z.of_nat (length (pm_addresses dm)) = n) ds →
     moves (EvP2pGet t :: zip_with (λ d dm, EvP2pMap d t dm) (ctrl_devs (k_ctrls s) (k_ctrl_list s)) ds)
       (glist_insert l (k_next s)
          (set_map (k_next s) (gpu_map (dev_map current vaddr (c_pdev x) n) t ds) (bump s))) s' →
     Q (inr (k_next s)) s') →
  wp (map_device_memory current l c vaddr n) Q s.
Proof.
  intros Hc Hfit [Hnx Hu] Hcl Hcn Herr Hok. rw /map_device_memory.
  destruct (Z.ltb_spec n 1) as [Hlt|Hge].
  { wp_step. apply (Herr false []); [done|by left|apply moves_refl]. }
  wp_step. eapply wp_create_descriptor; [done|lia|rw /OFFSET_ADDRS; lia|..].
  { intros s1 H1. wp_step. apply (Herr false []); [done|by left|done]. }
  intros s1 H1. set (m0 := Map current _ _ _ _ _ _ _ _ _ _ _) in H1.
  wp_step. eapply (wp_alter_map _ _ m0).
  { by rw (moves_lookup _ _ _ H1) /= lookup_insert_eq. }
  set (p := k_next s) in *. set (m1 := (m0<{m_page_size := GPU_PAGE_SIZE}>)).
  assert (moves [] (set_map p m1 (bump s)) (set_map p m1 s1)) as H2.
  { rw -(set_map_set p m1 m0). by apply moves_set. }
  assert (k_ctrl_list (set_map p m1 s1) = k_ctrl_list s ∧
          k_ctrls (set_map p m1 s1) = k_ctrls s) as [El Ec].
  { by destruct H1 as (?&?&_&_&->). }
  wp_step. eapply (wp_map_gpu_memory p m1); rw ?El ?Ec; [|simpl; lia|done..| |].
  { by rw (moves_lookup _ _ _ H2) /= lookup_insert_eq. }
  - intros ws err m' s' He Hr Hun Hm. rw set_map_set in Hm.
    assert (c_true err = true) as -> by (rw /c_true; lia).
    assert (moves ([] ++ ws) (set_map p m' (bump s)) s') as H3.
    { eapply moves_trans; [|exact Hm]. rw -(set_map_set p m' m0). by apply moves_set. }
    wp_step. eapply (wp_unmap_new p m' _ (bump s)); [exact H3|done..|].
    intros s'' H4. wp_step. eapply (Herr true); [done|by apply (Hun (bump s))|exact H4].
  - intros t ds s' Ht Hl Hall Hm. rw set_map_set in Hm. cbn [c_true Z.eqb negb].
    wp_step. wp_step. wp_step. rw Ht in Hall. eapply (Hok t ds); [done..|].
    apply moves_framed; [apply _|].
    eapply (moves_trans []); [|exact Hm]. rw -(set_map_set p _ m0). by apply moves_set.
Qed.

(** ** Mapping queue memory of a device *)

(** A descriptor of any size: one that does not fit 64 bits is a fault. *)
Lemma wlp_create_descriptor current c x vaddr n (Q : Z + ptr → snvm → Prop) s :
  k_ctrls s !! c = Some x → 1 ≤ n →
  (∀ s', moves [] s s' → Q (inl (- ENOMEM)) s') →
  (∀ s', moves [] (set_map (k_next s) (Map current vaddr (-1) (-1) (c_pdev x) 0 DataNull None 0
                  NVM_MAP_KIND_UNSPECIFIED n (replicate (Z.to_nat n) 0)) (bump s)) s' →
     Q (inr (k_next s)) s') →
  wlp (create_descriptor current c vaddr n) Q s.
Proof.
  intros Hc Hn Herr Hok. destruct (decide (OFFSET_ADDRS + n * 8 < 2 ^ 64)) as [Hfit|Hbig].
  { by eapply wlp_wp, wp_create_descriptor. }
  rw /create_descriptor. apply wlp_after, wp_ask. destruct (env_alloc _); cbn [negb].
  - apply wlp_after. eapply wp_load; [done|].
    assert ((u64 (SIZEOF_MAP + (n - 1) * 8) <? OFFSET_ADDRS + n * 8) = true) as ->; [|apply wlp_fault].
    pose proof (u64_range (SIZEOF_MAP + (n - 1) * 8)). lia.
  - apply wlp_wp, wp_ret, Herr, moves_tick.
Qed.

(** Releasing a region whose slot was never written. *)
Lemma wlp_unmap_uninit p m gd (Q : unit → snvm → Prop) s :
  k_maps s !! p = Some m → m_release m = Some release_gpu_ioqueue_memory_fn → m_data m = DataGpu gd →
  gd_mappings gd = [SlotUninit] → wlp (unmap_and_release p) Q s.
Proof.
  intros Hp Hf Hd Hs. rw /unmap_and_release. apply wlp_after. eapply wp_load_map; [done|].
  apply wlp_after, wp_modify, wlp_after, wp_modify. apply wlp_bind. rw Hf Hd. cbn [call_release].
  rw /release_gpu_ioqueue_memory. apply wlp_after. eapply wp_load_map; [done|]. rw Hd.
  apply wlp_bind. rw /release_slot0 Hs. apply wlp_after. eapply wp_from_option; [done|]. apply wlp_fault.
Qed.

(** The descriptor of a device's queue memory. *)
Definition ioq_map (current : ptr) (vaddr : Z) (pdev : ptr) (n : Z) (t : p2p_table)
    (dm : p2p_mapping) : map :=
  Map current (page_align GPU_PAGE_SIZE vaddr) (-1) (-1) pdev GPU_PAGE_SIZE
    (DataGpu (GpuRegion (Some t) [SlotMapped dm])) (Some release_gpu_ioqueue_memory_fn) 0
    NVM_MAP_KIND_UNSPECIFIED n (take (Z.to_nat n) (pm_addresses dm)).

Lemma wlp_copy_addrs p m dm (Q : unit → snvm → Prop) s :
  k_maps s !! p = Some m → length (m_addrs m) = Z.to_nat (m_n_addrs m) →
  ((Z.to_nat (m_n_addrs m) ≤ length (pm_addresses dm))%nat →
     Q tt (set_map p m<{m_addrs := take (Z.to_nat (m_n_addrs m)) (pm_addresses dm)}> s)) →
  wlp (copy_addrs p dm) Q s.
Proof.
  intros Hp Hl HQ. rw /copy_addrs. apply wlp_after. eapply wp_load_map; [done|].
  destruct (_ || _) eqn:Eb; [apply wlp_fault|]. apply orb_false_iff in Eb as [Eb _].
  apply Nat.ltb_ge in Eb. apply wlp_wp. eapply wp_store_map; [done|].
  rw drop_ge; [|by rw Hl]. rw app_nil_r. by apply HQ.
Qed.

Lemma wlp_map_gpu_ioqueue p m (Q : Z → snvm → Prop) s :
  k_maps s !! p = Some m → 0 < m_n_addrs m → m_data m = DataNull →
  m_addrs m = replicate (Z.to_nat (m_n_addrs m)) 0 →
  let m' gd addrs := m<{m_page_size := GPU_PAGE_SIZE}><{m_release := Some release_gpu_ioqueue_memory_fn}>
                      <{m_data := DataGpu gd}><{m_addrs := addrs}> in
  (∀ s', moves [] s s' → Q (- ENOMEM) s') →
  (∀ err t ws s', err < 0 → moves ws (set_map p (m' (GpuRegion t [SlotUninit]) (m_addrs m)) s) s' → Q err s') →
  (∀ t dm s', pt_entries t = m_n_addrs m → Z.of_nat (length (pm_addresses dm)) = pt_entries t →
     moves [EvP2pGet t; EvP2pMap (m_pdev m) t dm]
       (set_map p (m' (GpuRegion (Some t) [SlotMapped dm])
                      (take (Z.to_nat (m_n_addrs m)) (pm_addresses dm))) s) s' → Q 0 s') →
  wlp (map_gpu_ioqueue_memory p) Q s.
Proof.
  intros Hp Hn Hd Ha m' Hnomem Herr Hok. rw /map_gpu_ioqueue_memory.
  apply wlp_after, wp_ask. destruct (env_alloc _); cbn [negb]; [|apply wlp_wp, wp_ret, Hnomem, moves_tick].
  apply wlp_after, wp_ask. match goal with |- context [wlp _ _ ?x] => set (s1 := x) end.
  assert (moves [] s s1) as H1 by (eapply (moves_trans [] []); apply moves_tick).
  destruct (env_alloc _); cbn [negb]; [|by apply wlp_wp, wp_ret, Hnomem].
  apply wlp_after. eapply wp_set_gpu; [done|]. set (m1 := upd _ _ _).
  assert (m1 = m' (GpuRegion None [SlotUninit]) (m_addrs m)) as Em1 by (by destruct m).
  apply wlp_after. eapply (wp_load_map _ m1); [by rw /= lookup_insert_eq|].
  apply wlp_after, wp_nvfs_get_pages.
  { intros err s2 He H2. assert (c_true err = true) as -> by (rw /c_true; lia). apply wlp_wp, wp_ret.
    apply (Herr err None [] s2); [done|]. rw -Em1. eapply (moves_trans []); [by apply moves_set|exact H2]. }
  intros t s2 Ht Hte H2. apply wlp_after.
  eapply (wp_set_gpu _ _ _ m1); [by rw (moves_lookup _ _ _ H2) /= lookup_insert_eq|]. set (m2 := upd _ _ _).
  assert (m2 = m' (GpuRegion (Some t) [SlotUninit]) (m_addrs m)) as Em2 by (by destruct m).
  assert (moves [EvP2pGet t] (set_map p m2 s) (set_map p m2 s2)) as H3.
  { eapply (moves_trans [] [_]); [by apply moves_set|]. rw -(set_map_set p _ m1 s1). by apply moves_set. }
  cbn [c_true Z.eqb negb]. apply wlp_after, wp_nvfs_dma_map_pages; [lia| |].
  { intros err s3 He H4. assert (c_true err = true) as -> by (rw /c_true; lia). apply wlp_wp, wp_ret.
    apply (Herr err (Some t) [EvP2pGet t] s3); [done|]. rw -Em2.
    eapply (moves_trans [_] []); [exact H3|exact H4]. }
  intros dm s3 Hdm H4. pose proof (moves_lookup _ _ _ H4) as E3. rw /= in E3.
  assert (k_maps s3 !! p = Some m2) as Hp3 by (by rw E3 lookup_insert_eq).
  apply wlp_after. rw /set_slot. wp_step. eapply wp_load_map; [done|].
  change (m_data m2) with (DataGpu (GpuRegion (Some t) [SlotUninit])). cbn [gd_mappings gd_pages].
  wp_step. eapply wp_from_option; [done|]. eapply wp_store_map; [done|]. cbn [c_true Z.eqb negb].
  set (m3 := upd _ _ _). apply wlp_bind. eapply (wlp_copy_addrs _ m3); [by rw /= lookup_insert_eq|..].
  { rw /m3 Em2 /m' /= Ha. by rw length_replicate. }
  rw set_map_set. set (m4 := upd _ _ _). change (m_n_addrs m3) with (m_n_addrs m). intros Hle.
  assert (pt_entries t = m_n_addrs m) as Et.
  { apply Hte; [lia|]. change (m_n_addrs m1) with (m_n_addrs m). rw u64_id //.
    change GPU_PAGE_SIZE with 65536. lia. }
  apply wlp_wp. wp_step. eapply wp_alter_map; [by rw /= lookup_insert_eq|]. rw set_map_set. wp_step.
  apply (Hok t dm); [done|done|].
  assert (m' (GpuRegion (Some t) [SlotMapped dm]) (take (Z.to_nat (m_n_addrs m)) (pm_addresses dm)) =
    m4<{m_n_addrs := pt_entries t}>) as ->.
  { rw /m4 /m3 Em2 Et /m' /=. by destruct m. }
  set (m5 := upd _ _ _). eapply (moves_trans [_] [_]).
  - by apply (moves_reset _ _ m2 m5) in H3.
  - rw -(set_map_set p m5 m2 s2). by apply moves_set.
Qed.

Lemma wlp_map_device_ioqueue current l c x vaddr n (Q : Z + ptr → snvm → Prop) s :
  k_ctrls s !! c = Some x → next_ok s → allocated (k_ctrls s) (k_ctrl_list s) →
  (∀ b ws err s', err < 0 → moves ws (if b : bool then bump s else s) s' → Q (inl err) s') →
  (∀ t dm s', 1 ≤ n → Z.of_nat (length (pm_addresses dm)) = n →
     moves [EvP2pGet t; EvP2pMap (c_pdev x) t dm]
       (glist_insert l (k_next s) (set_map (k_next s) (ioq_map current vaddr (c_pdev x) n t dm) (bump s))) s' →
     Q (inr (k_next s)) s') →
  wlp (map_device_ioqueue_memory current l c vaddr n) Q s.
Proof.
  intros Hc [Hnx Hu] Hcl Herr Hok. rw /map_device_ioqueue_memory.
  destruct (Z.ltb_spec n 1) as [Hlt|Hge].
  { apply wlp_wp, wp_ret. by apply (Herr false []), moves_refl. }
  apply wlp_bind. eapply wlp_create_descriptor; [done|lia|..].
  { intros s1 H1. apply wlp_wp, wp_ret. by apply (Herr false []). }
  intros s1 H1. set (m0 := Map current _ _ _ _ _ _ _ _ _ _ _) in H1.
  apply wlp_after. eapply (wp_alter_map _ _ m0).
  { by rw (moves_lookup _ _ _ H1) /= lookup_insert_eq. }
  set (p := k_next s) in *. set (m1 := (m0<{m_page_size := GPU_PAGE_SIZE}>)).
  assert (moves [] (set_map p m1 (bump s)) (set_map p m1 s1)) as H2.
  { rw -(set_map_set p m1 m0). by apply moves_set. }
  apply wlp_bind. eapply (wlp_map_gpu_ioqueue p m1); [|simpl; lia|done|done|..].
  { by rw (moves_lookup _ _ _ H2) /= lookup_insert_eq. }
  - intros s' Hm. assert (c_true (- ENOMEM) = true) as -> by done. apply wlp_wp. wp_step.
    eapply (wp_unmap_new p m1 _ (bump s)); [eapply moves_trans; [exact H2|exact Hm]|done..|].
    intros s'' H4. wp_step. by eapply (Herr true).
  - intros err t ws s' He Hm. assert (c_true err = true) as -> by (rw /c_true; lia).
    apply wlp_bind. eapply wlp_unmap_uninit; [by rw (moves_lookup _ _ _ Hm) /= lookup_insert_eq|done..].
  - intros t dm s' Ht Hdm Hm. rw set_map_set in Hm. cbn [c_true Z.eqb negb]. apply wlp_wp.
    wp_step. wp_step. wp_step. apply (Hok t dm); [done|by rw Hdm Ht|]. apply moves_framed; [apply _|].
    eapply (moves_trans []); [|exact Hm]. rw -(set_map_set p _ m0). by apply moves_set.
Qed.

(** A device mapping of 2^32 pages or more does not succeed: the backend reports
    fewer addresses than the loop that copies them reads. *)
Lemma wlp_map_device_oversize current l c x vaddr n (Q : Z + ptr → snvm → Prop) s :
  k_ctrls s !! c = Some x → 2 ^ 32 ≤ n → next_ok s → (1 ≤ length (k_ctrl_list s) ≤ max_num_ctrls)%nat →
  allocated (k_ctrls s) (k_ctrl_list s) →
  (∀ b ws err s', err < 0 → moves ws (if b : bool then bump s else s) s' → Q (inl err) s') →
  wlp (map_device_memory current l c vaddr n) Q s.
Proof.
  intros Hc Hbig [Hnx Hu] Hcn Hcl Herr. rw /map_device_memory.
  assert ((n <? 1) = false) as -> by lia.
  apply wlp_bind. eapply wlp_create_descriptor; [done|lia|..].
  { intros s1 H1. apply wlp_wp, wp_ret. by apply (Herr false []). }
  intros s1 H1. set (m0 := Map current _ _ _ _ _ _ _ _ _ _ _) in H1.
  apply wlp_after. eapply (wp_alter_map _ _ m0).
  { by rw (moves_lookup _ _ _ H1) /= lookup_insert_eq. }
  set (p := k_next s) in *. set (m1 := (m0<{m_page_size := GPU_PAGE_SIZE}>)).
  assert (moves [] (set_map p m1 (bump s)) (set_map p m1 s1)) as H2.
  { rw -(set_map_set p m1 m0). by apply moves_set. }
  assert (∀ ws m' s', moves ws (set_map p m' (bump s)) s' → releasable (length (k_ctrl_list s)) m' →
    ∀ err, err < 0 → wlp (unmap_and_release p;; mret (inl err)) Q s') as Hundo.
  { intros ws m' s' Hm Hr err He. apply wlp_wp. wp_step. eapply (wp_unmap_new p m' _ (bump s)); [done..|].
    intros s'' H4. wp_step. by eapply (Herr true). }
  apply wlp_bind. rw /map_gpu_memory. apply wlp_after, wp_ask. destruct (env_alloc _); cbn [negb].
  2: { apply wlp_wp, wp_ret. eapply (Hundo [] m1); [|done|done].
       eapply (moves_trans []); [exact H2|apply moves_tick]. }
  apply wlp_after, wp_ask. match goal with |- context [wlp _ _ ?x] => set (s2 := x) end.
  assert (moves [] (set_map p m1 (bump s)) s2) as H3.
  { eapply (moves_trans []); [exact H2|]. eapply (moves_trans [] []); apply moves_tick. }
  destruct (env_alloc _); cbn [negb]; [|by apply wlp_wp, wp_ret; eapply (Hundo [] m1)].
  apply wlp_after. eapply (wp_set_gpu _ _ _ m1); [by rw (moves_lookup _ _ _ H3) /= lookup_insert_eq|].
  set (m2 := upd _ _ _).
  assert (∀ t, releasable (length (k_ctrl_list s)) m2<{m_data := DataGpu (GpuRegion t (replicate max_num_ctrls SlotNull))}>) as Hrel.
  { intros t. split; cbn [gd_mappings]; [by apply Forall_replicate|rw length_replicate; lia]. }
  assert (moves [] (set_map p m2 (bump s)) (set_map p m2 s2)) as H4.
  { rw -(set_map_set p m2 m1). by apply moves_set. }
  apply wlp_after. eapply (wp_load_map _ m2); [by rw /= lookup_insert_eq|].
  apply wlp_after, wp_nvfs_get_pages.
  { intros err s3 He H5. assert (c_true err = true) as Et by (rw /c_true; lia). rw Et. apply wlp_wp, wp_ret.
    rw Et. eapply (Hundo [] m2); [|exact (Hrel None)|done]. eapply (moves_trans []); [exact H4|exact H5]. }
  intros t s3 Ht _ H5. apply wlp_after.
  eapply (wp_set_gpu _ _ _ m2); [by rw (moves_lookup _ _ _ H5) /= lookup_insert_eq|]. set (m3 := upd _ _ _).
  assert (moves [EvP2pGet t] (set_map p m3 (bump s)) (set_map p m3 s3)) as H6.
  { rw -(set_map_set p m3 m2 s3) -(set_map_set p m3 m2 (bump s)). apply moves_set.
    eapply (moves_trans []); [exact H4|].
    rw -{1}(set_map_set p m2 m2 s2). by eapply (moves_set _ _ m2) in H5. }
  cbn [c_true Z.eqb negb]. apply wlp_after, wp_gets, wlp_bind.
  assert (k_ctrl_list (set_map p m3 s3) = k_ctrl_list s ∧ k_ctrls (set_map p m3 s3) = k_ctrls s) as [El Ec].
  { by destruct H6 as (?&?&_&_&->). }
  rw El. destruct (k_ctrl_list s) as [|c1 cs] eqn:Els; [simpl in Hcn; lia|].
  apply Forall_cons in Hcl as [[x1 Hx1] _]. cbn [map_walk]. apply wlp_after.
  eapply wp_load; [by rw /= in Ec; rw /= Ec|]. apply wlp_after, wp_nvfs_dma_map_pages; [lia| |].
  { intros err s4 He H7. assert (c_true err = true) as Et by (rw /c_true; lia). rw Et. apply wlp_wp, wp_ret.
    rw Et. apply wlp_wp, wp_ret. rw Et.
    eapply (Hundo [_] m3); [|exact (Hrel (Some t))|done]. eapply (moves_trans [_] []); [exact H6|exact H7]. }
  intros dm s4 Hdm H7. pose proof (moves_lookup _ _ _ H7) as E4. rw /= in E4.
  apply wlp_after. rw /set_slot. wp_step. eapply (wp_load_map _ m3); [by rw E4 lookup_insert_eq|].
  change (m_data m3) with (DataGpu (GpuRegion (Some t) (replicate max_num_ctrls SlotNull))).
  cbn [gd_mappings gd_pages]. wp_step. eapply wp_from_option; [done|].
  eapply (wp_store_map _ _ m3); [by rw E4 lookup_insert_eq|]. cbn [c_true Z.eqb negb].
  rw bool_decide_eq_true_2 //. cbn [when]. apply wlp_bind. eapply wlp_copy_addrs; [by rw /= lookup_insert_eq| |].
  { by rw /= length_replicate. }
  cbn [m_n_addrs upd]. change (m_n_addrs m3) with n. lia.
Qed.

End map_lemmas.
