(* ===== verification/QidPool.v ===== *)
(** * The pool of user queue ids (pci.c)

    A controller hands the ids [user_qid_first .. user_qid_last] to the queues
    that user space creates.  A bitmap records which of them are taken. *)
From S2P Require Import Prelude KState.

(** [find_first_zero_bit]: the least clear bit below [size], or [size]. *)
Fixpoint ffz (bm i : Z) (n : nat) : Z :=
  match n with
  | O => i
  | S n => if Z.testbit bm i then ffz bm (i + 1) n else i
  end.
Definition find_first_zero_bit (bm size : Z) : Z := ffz bm 0 (Z.to_nat size).

(** The rollback: clear the bits of the ids handed out so far, last one first. *)
Definition qid_rollback (first : Z) (qids : list Z) (bm : Z) : Z :=
  foldr (λ q bm, Z.clearbit bm (u32 (q - first))) bm qids.

(** The allocation loop with [nr] ids to go and [qids] already handed out:
    the return value, the bitmap and [qids_out]. *)
Fixpoint qid_alloc_loop (first pool_size : Z) (nr : nat) (bm : Z) (qids : list Z) :
    Z * Z * list Z :=
  match nr with
  | O => (0, bm, qids)
  | S nr =>
    let bit := find_first_zero_bit bm pool_size in
    if pool_size <=? bit then (- EAGAIN, qid_rollback first qids bm, qids)
    else qid_alloc_loop first pool_size nr (Z.setbit bm bit) (qids ++ [u16 (first + bit)])
  end.

Section pool.
Context `{!kenv}.

(** [ndev] is [None] for a NULL pointer. *)
Definition snvm_user_qid_pool_init_locked (c : ptr) (ndev : option nvme_dev) : K snvm Z :=
  ctrl ← load (V:=ctrl) c;
  match c_user_qid_bitmap ctrl, ndev with
  | Some _, _ => mret 0
  | None, None => mret (- ENODEV)
  | None, Some nd =>
    if (nd_online_queues nd =? 0) || (nd_nr_allocated_queues nd =? 0) then mret (- ENODEV) else
    if nd_ctrl_max_io_queues nd =? 0 then mret (- ENODEV) else
    let first := nd_online_queues nd in
    let last := nd_ctrl_max_io_queues nd in
    if last <? first then mret (- EBUSY) else
    a ← ask env_alloc;
    if negb a then mret (- ENOMEM) else
    store c ctrl<{c_user_qid_first := first}><{c_user_qid_last := last}>
                <{c_user_qid_bitmap := Some 0}>;;
    mret 0
  end.

Definition snvm_user_qid_alloc_locked (c : ptr) (nr : Z) : K snvm (Z * list Z) :=
  ctrl ← load (V:=ctrl) c;
  bm ← from_option_k (c_user_qid_bitmap ctrl);
  let pool_size := u32 (c_user_qid_last ctrl - c_user_qid_first ctrl + 1) in
  let '(ret, bm', qids) := qid_alloc_loop (c_user_qid_first ctrl) pool_size (Z.to_nat nr) bm [] in
  store c ctrl<{c_user_qid_bitmap := Some bm'}>;;
  mret (ret, qids).

Definition snvm_user_qid_free_locked (c : ptr) (qid : Z) : K snvm unit :=
  ctrl ← load (V:=ctrl) c;
  if (qid <? c_user_qid_first ctrl) || (c_user_qid_last ctrl <? qid) then mret tt else
  bm ← from_option_k (c_user_qid_bitmap ctrl);
  store c ctrl<{c_user_qid_bitmap := Some (Z.clearbit bm (u32 (qid - c_user_qid_first ctrl)))}>.
End pool.

(** ** The pool as a set of ids *)

(** Bitmap [bm] over the ids [first .. last] represents the set [U]. *)
Definition pool_repr (first last bm : Z) (U : gset Z) : Prop :=
  (∀ q, q ∈ U → first ≤ q ≤ last) ∧
  (∀ i, 0 ≤ i → Z.testbit bm i = bool_decide (first + i ∈ U)).

(** The ids a 16-bit field can hold. *)
Definition range_ok (first last : Z) : Prop := 0 ≤ first ∧ first ≤ last < 2 ^ 16.

(** What a controller's pool holds: nothing before its first use. *)
Definition pool_wf (c : ctrl) (U : gset Z) : Prop :=
  match c_user_qid_bitmap c with
  | None => U = ∅
  | Some bm => range_ok (c_user_qid_first c) (c_user_qid_last c) ∧
      pool_repr (c_user_qid_first c) (c_user_qid_last c) bm U
  end.

Lemma pool_repr_inj first last bm bm' U :
  pool_repr first last bm U → pool_repr first last bm' U → bm = bm'.
Proof. intros [_ H] [_ H']. apply Z.bits_inj'. intros i Hi. by rw H // H'. Qed.

Lemma ffz_spec bm i n :
  let r := ffz bm i n in
  i ≤ r ≤ i + Z.of_nat n ∧ (∀ j, i ≤ j < r → Z.testbit bm j = true) ∧
  (r < i + Z.of_nat n → Z.testbit bm r = false).
Proof.
  revert i. induction n as [|n IH]; intros i; simpl; [split_and!; [lia..|intros; lia|lia]|].
  destruct (Z.testbit bm i) eqn:E; [|split_and!; [lia..|intros; lia|done]].
  destruct (IH (i + 1)) as (H1 & H2 & H3). split_and!; [lia..| |].
  - intros j Hj. destruct (decide (j = i)) as [->|]; [done|]. apply H2. lia.
  - intros. apply H3. lia.
Qed.

Lemma pool_setbit first last bm U i :
  pool_repr first last bm U → 0 ≤ i ≤ last - first →
  pool_repr first last (Z.setbit bm i) ({[first + i]} ∪ U).
Proof.
  intros [HU Hb] Hi. split.
  - intros q [Heq%elem_of_singleton|?]%elem_of_union; [lia|auto].
  - intros j Hj. rw Z.setbit_eqb; [|lia]. rw Hb //. destruct (Z.eqb_spec i j) as [->|].
    + symmetry. by apply bool_decide_eq_true_2, elem_of_union_l, elem_of_singleton.
    + apply bool_decide_ext. rw elem_of_union elem_of_singleton. intuition lia.
Qed.

Lemma pool_clearbit first last bm U q :
  pool_repr first last bm U → range_ok first last → first ≤ q ≤ last →
  pool_repr first last (Z.clearbit bm (u32 (q - first))) (U ∖ {[q]}).
Proof.
  intros [HU Hb] Hr Hq. rw /range_ok in Hr. rw u32_id; [|lia]. split.
  { intros q' [? _]%elem_of_difference. auto. }
  intros j Hj. rw Z.clearbit_eqb Hb //. destruct (Z.eqb_spec (q - first) j) as [<-|].
  - rw andb_false_r. symmetry. apply bool_decide_eq_false_2.
    replace (first + (q - first)) with q by lia. rw elem_of_difference elem_of_singleton. tauto.
  - rw andb_true_r. apply bool_decide_ext. rw elem_of_difference elem_of_singleton. intuition lia.
Qed.

Lemma qid_rollback_spec first last bm U qids :
  range_ok first last → NoDup qids → (∀ q, q ∈ qids → q ∉ U) →
  (∀ q, q ∈ qids → first ≤ q ≤ last) →
  pool_repr first last bm (U ∪ list_to_set qids) →
  pool_repr first last (qid_rollback first qids bm) U.
Proof.
  intros Hr. revert bm. induction qids as [|q qids IH] using rev_ind; intros bm Hnd Hd Hq Hb.
  { by rw /= right_id_L in Hb. }
  apply NoDup_app in Hnd as (Hnd & Hdis & _).
  rw /qid_rollback foldr_app /=. apply IH; [done|set_solver|set_solver|].
  replace (U ∪ list_to_set qids) with ((U ∪ list_to_set (qids ++ [q])) ∖ {[q]}).
  { apply pool_clearbit; [done..|]. apply Hq. set_solver. }
  assert (q ∉ qids) by (intros Hin; apply (Hdis q Hin); set_solver).
  assert (q ∉ U) by (apply Hd; set_solver).
  clear -H H0. rw list_to_set_app_L. set_solver.
Qed.

(** The set of all ids of the pool. *)
Definition pool_ids (first last : Z) : gset Z := list_to_set (seqZ first (last - first + 1)).

Lemma elem_of_pool_ids first last q : q ∈ pool_ids first last ↔ first ≤ q ≤ last.
Proof. rw /pool_ids elem_of_list_to_set elem_of_seqZ. lia. Qed.
Lemma size_pool_ids first last :
  first ≤ last → Z.of_nat (size (pool_ids first last)) = last - first + 1.
Proof.
  intros. rw /pool_ids size_list_to_set; [|apply NoDup_seqZ]. rw length_seqZ. lia.
Qed.

Lemma size_union_list (U : gset Z) qids :
  NoDup qids → (∀ q, q ∈ qids → q ∉ U) →
  size (U ∪ list_to_set qids : gset Z) = (size U + length qids)%nat.
Proof.
  intros Hnd Hd. rw size_union; [|set_solver]. by rw size_list_to_set.
Qed.

Definition alloc_post (first last : Z) (U : gset Z) (nr : nat) (r : Z * Z * list Z) : Prop :=
  let '(ret, bm, qids) := r in
  (ret = 0 ∧ length qids = nr ∧ NoDup qids ∧ (∀ q, q ∈ qids → q ∉ U) ∧
     (∀ q, q ∈ qids → first ≤ q ≤ last) ∧ pool_repr first last bm (U ∪ list_to_set qids)) ∨
  (ret = - EAGAIN ∧ pool_repr first last bm U ∧
     last - first + 1 < Z.of_nat (size U) + Z.of_nat nr).

Lemma qid_alloc_loop_spec first last U nr bm qids :
  range_ok first last → NoDup qids → (∀ q, q ∈ qids → q ∉ U) →
  (∀ q, q ∈ qids → first ≤ q ≤ last) →
  pool_repr first last bm (U ∪ list_to_set qids) →
  alloc_post first last U (length qids + nr)
    (qid_alloc_loop first (last - first + 1) nr bm qids).
Proof.
  intros Hr. revert bm qids. induction nr as [|nr IH]; intros bm qids Hnd Hd Hq Hb; simpl.
  { left. rw Nat.add_0_r. done. }
  pose proof Hr as Hr'. rw /range_ok in Hr'.
  pose proof (ffz_spec bm 0 (Z.to_nat (last - first + 1))) as (Hge & Hset & Hclr).
  fold (find_first_zero_bit bm (last - first + 1)) in *.
  set (bit := find_first_zero_bit bm (last - first + 1)) in *.
  destruct (Z.leb_spec (last - first + 1) bit) as [Hfull|Hfree].
  - right. split_and!; [done|by apply qid_rollback_spec|].
    assert (U ∪ list_to_set qids = pool_ids first last) as E.
    { apply set_eq. intros q. rw elem_of_pool_ids. split; [apply Hb|]. intros Hrange.
      specialize (Hset (q - first)). rw (proj2 Hb) in Hset; [|lia].
      replace (first + (q - first)) with q in Hset by lia.
      exact (bool_decide_eq_true_1 _ (Hset ltac:(lia))). }
    pose proof (size_union_list U qids Hnd Hd) as Hsz. rw E in Hsz.
    pose proof (size_pool_ids first last). lia.
  - assert (first + bit ∉ U ∪ list_to_set qids) as Hnew.
    { specialize (Hclr ltac:(lia)). rw (proj2 Hb) in Hclr; [|lia].
      exact (bool_decide_eq_false_1 _ Hclr). }
    assert (u16 (first + bit) = first + bit) as -> by (apply u16_id; lia).
    assert ((first + bit ∉ qids) ∧ (first + bit ∉ U)) as [Hn1 Hn2] by (clear -Hnew; set_solver).
    assert (length qids + S nr = length (qids ++ [(first + bit)%Z]) + nr)%nat as ->
      by (rw length_app /=; lia).
    apply IH.
    + apply NoDup_app. split_and!; [done| |apply NoDup_singleton].
      intros q Hin Heq%list_elem_of_singleton. by rw Heq in Hin.
    + intros q [?|Heq%list_elem_of_singleton]%elem_of_app; [auto|by rw Heq].
    + intros q [?|Heq%list_elem_of_singleton]%elem_of_app; [auto|lia].
    + replace (U ∪ list_to_set (qids ++ [first + bit])) with
        ({[first + bit]} ∪ (U ∪ list_to_set qids)).
      { apply pool_setbit; [done|lia]. }
      clear. rw list_to_set_app_L. set_solver.
Qed.

(** ** The operations on a controller *)

Section pool_wp.
Context `{!kenv}.

(** What initialising the pool leaves. *)
Definition pool_fresh (x : ctrl) (nd : nvme_dev) : ctrl :=
  x<{c_user_qid_first := nd_online_queues nd}><{c_user_qid_last := nd_ctrl_max_io_queues nd}>
   <{c_user_qid_bitmap := Some 0}>.

Lemma wp_pool_init c x nd (Q : Z → snvm → Prop) s :
  k_ctrls s !! c = Some x →
  (is_Some (c_user_qid_bitmap x) → Q 0 s) →
  (∀ s' e, c_user_qid_bitmap x = None → e < 0 → s' ≡ₗ s → k_log s' = k_log s → Q e s') →
  (∀ s', c_user_qid_bitmap x = None → nd_online_queues nd ≠ 0 → nd_ctrl_max_io_queues nd ≠ 0 →
     nd_online_queues nd ≤ nd_ctrl_max_io_queues nd →
     s' ≡ₗ set_ctrl c (pool_fresh x nd) s → k_log s' = k_log s → Q 0 s') →
  wp (snvm_user_qid_pool_init_locked c (Some nd)) Q s.
Proof.
  intros Hc Hdone Herr Hok. rw /snvm_user_qid_pool_init_locked. wp_step. eapply wp_load; [done|].
  destruct (c_user_qid_bitmap x) eqn:Eb; [wp_step; by eapply Hdone|].
  wp_step; [wp_step; by apply Herr|]. wp_step; [wp_step; by apply Herr|].
  wp_step; [wp_step; by apply Herr|]. wp_step. apply wp_ask. wp_step; [wp_step; by apply Herr|].
  wp_step. eapply wp_store; [done|]. wp_step. apply Hok; [done|lia..|done|done].
Qed.

Lemma wp_qid_alloc c x U nr (Q : Z * list Z → snvm → Prop) s :
  k_ctrls s !! c = Some x → is_Some (c_user_qid_bitmap x) → pool_wf x U → 0 ≤ nr →
  (∀ s' x' qids, pool_wf x' U → x' = x<{c_user_qid_bitmap := c_user_qid_bitmap x'}> →
     s' = set_ctrl c x' s → Q (- EAGAIN, qids) s') →
  (∀ s' x' qids, Z.of_nat (length qids) = nr → NoDup qids → (∀ q, q ∈ qids → q ∉ U) →
     pool_wf x' (U ∪ list_to_set qids) → x' = x<{c_user_qid_bitmap := c_user_qid_bitmap x'}> →
     is_Some (c_user_qid_bitmap x') →
     (∀ q, q ∈ qids → c_user_qid_first x ≤ q ≤ c_user_qid_last x) →
     s' = set_ctrl c x' s → Q (0, qids) s') →
  wp (snvm_user_qid_alloc_locked c nr) Q s.
Proof.
  intros Hc [bm Hbm] Hwf Hnr Herr Hok. rw /pool_wf Hbm in Hwf. destruct Hwf as [Hr Hb].
  rw /snvm_user_qid_alloc_locked. wp_step. eapply wp_load; [done|].
  wp_step. eapply wp_from_option; [done|].
  assert (u32 (c_user_qid_last x - c_user_qid_first x + 1) =
    c_user_qid_last x - c_user_qid_first x + 1) as ->.
  { apply u32_id. rw /range_ok in Hr. lia. }
  pose proof (qid_alloc_loop_spec (c_user_qid_first x) (c_user_qid_last x) U (Z.to_nat nr) bm []
    Hr (NoDup_nil_2)) as Hpost.
  destruct (qid_alloc_loop _ _ _ _ _) as [[ret bm'] qids]. wp_step. eapply wp_store; [done|].
  wp_step. destruct Hpost as [(-> & Hl & Hnd & Hd & Hq & Hb')|(-> & Hb' & _)].
  - by intros q ?%elem_of_nil.
  - by intros q ?%elem_of_nil.
  - by rw /= right_id_L.
  - simpl in Hl. eapply (Hok _ x<{c_user_qid_bitmap := Some bm'}>);
      [lia|done|done|by split|done|done|done|done].
  - eapply (Herr _ x<{c_user_qid_bitmap := Some bm'}>); [by split|done|done].
Qed.

Lemma wp_qid_free c x U q (Q : unit → snvm → Prop) s :
  k_ctrls s !! c = Some x → pool_wf x U → q ∈ U →
  (∀ s' x', pool_wf x' (U ∖ {[q]}) → x' = x<{c_user_qid_bitmap := c_user_qid_bitmap x'}> →
     is_Some (c_user_qid_bitmap x') → s' = set_ctrl c x' s → Q tt s') →
  wp (snvm_user_qid_free_locked c q) Q s.
Proof.
  intros Hc Hwf Hq HQ. rw /pool_wf in Hwf.
  destruct (c_user_qid_bitmap x) as [bm|] eqn:Hbm; [|set_solver]. destruct Hwf as [Hr Hb].
  pose proof (proj1 Hb q Hq).
  rw /snvm_user_qid_free_locked. wp_step. eapply wp_load; [done|]. wp_step; [exfalso; lia|].
  wp_step. eapply wp_from_option; [done|]. eapply wp_store; [done|].
  eapply (HQ _ x<{c_user_qid_bitmap := Some _}>); [split; [done|]|done|done|done].
  by apply pool_clearbit.
Qed.
End pool_wp.
