(* ===== verification/QGroup.v ===== *)
(** * Queue groups (pci.c)

    A queue group belongs to one open file.  It holds the maps of the rings and
    the user queues created on them.  This file has the admin commands for user
    queues, the lookup of groups and the tear-down of a group. *)
From S2P Require Import Prelude KState P2p Ctrl Map QidPool.

Definition PCI_DRIVER_NAME : string := "snvme".
Definition NVME_QUEUE_PHYS_CONTIG : Z := 1.

Section qgroup.
Context `{!kenv, !P2pBackend}.

(** [snvme_submit_sync_cmd(dev->ctrl.admin_q, &c, NULL, 0)]. *)
Definition submit_sync_cmd (d : ptr) (cmd : nvme_command) : K snvm Z :=
  r ← ask (λ t, env_admin t d cmd);
  emit (EvAdmin d cmd r);;
  mret r.

Definition adapter_delete_queue (d : ptr) (opcode id : Z) : K snvm Z :=
  submit_sync_cmd d (DeleteQueue opcode (u16 id)).
Definition adapter_delete_cq (d : ptr) (cqid : Z) : K snvm Z :=
  adapter_delete_queue d nvme_admin_delete_cq cqid.
Definition adapter_delete_sq (d : ptr) (sqid : Z) : K snvm Z :=
  adapter_delete_queue d nvme_admin_delete_sq sqid.

(** [q_map->addrs[0]] is the ring's bus address. *)
Definition adapter_alloc_cq_user (d q_map : ptr) (qid : Z) : K snvm Z :=
  nd ← load (V:=nvme_dev) d;
  m ← load (V:=map) q_map;
  prp1 ← from_option_k (m_addrs m !! 0%nat);
  submit_sync_cmd d (CreateCq prp1 (u16 qid) (u16 (nd_q_depth nd - 1)) NVME_QUEUE_PHYS_CONTIG 0).
Definition adapter_alloc_sq_user (d q_map : ptr) (qid : Z) : K snvm Z :=
  nd ← load (V:=nvme_dev) d;
  m ← load (V:=map) q_map;
  prp1 ← from_option_k (m_addrs m !! 0%nat);
  submit_sync_cmd d (CreateSq prp1 (u16 qid) (u16 (nd_q_depth nd - 1)) NVME_QUEUE_PHYS_CONTIG
                       (u16 qid)).

(** The NVMe device behind a controller, if snvme drives it and its admin queue
    is up.  [None] for [ctrl == NULL]. *)
Definition snvm_ctrl_get_live_ndev (oc : option ptr) : K snvm (option ptr) :=
  match oc with
  | None => mret None
  | Some c =>
    ctrl ← load (V:=ctrl) c;
    pd ← load (V:=pci_dev) (c_pdev ctrl);
    if negb (bool_decide (pd_driver pd = Some PCI_DRIVER_NAME)) then mret None else
    match pd_drvdata pd with
    | None => mret None
    | Some d => nd ← load (V:=nvme_dev) d; mret (if nd_admin_q nd then Some d else None)
    end
  end.

Definition find_qgroup_locked (o : ptr) (group_id : Z) : K snvm (option ptr) :=
  if group_id =? 0 then mret None else
  own ← load (V:=snvm_dev_owner) o;
  kfind (λ _ g, g_group_id g =? group_id) (o_groups own).

(** The body of the drain loop for slot [i]. *)
Definition drain_queue (g : ptr) (oc ndev : option ptr) (i : nat) : K snvm unit :=
  grp ← load (V:=snvm_qgroup) g;
  uq ← from_option_k (g_queues grp !! i);
  if uq_alive uq =? 0 then mret tt else
  match ndev with
  | Some d => _ ← adapter_delete_sq d (uq_qid uq); _ ← adapter_delete_cq d (uq_qid uq); mret tt
  | None => mret tt
  end;;
  match oc with
  | Some c => snvm_user_qid_free_locked c (uq_qid uq)
  | None => mret tt
  end;;
  store g grp<{g_queues := <[i := uq<{uq_alive := 0}>]> (g_queues grp)}>.

Definition destroy_qgroup_locked (g : ptr) (oc : option ptr) : K snvm unit :=
  ndev ← snvm_ctrl_get_live_ndev oc;
  kfor (drain_queue g oc ndev) (reverse (seq 0 (Z.to_nat NVM_MAX_QUEUES_PER_GROUP)));;
  alter_obj g (λ x : snvm_qgroup, x<{g_cur_queues := 0}>);;
  grp ← load (V:=snvm_qgroup) g;
  kfor unmap_and_release (g_maps grp);;
  alter_obj g (λ x : snvm_qgroup, x<{g_nr_maps := 0}>);;
  grp ← load (V:=snvm_qgroup) g;
  modify (λ s, s<{k_group_ida := k_group_ida s ∖ {[g_group_id grp]} }>);;
  kfree_obj snvm_qgroup g.
End qgroup.

(** ** Tearing a group down *)

Definition set_group (g : ptr) (x : snvm_qgroup) (s : snvm) : snvm := s<{k_groups ::= <[g := x]>}>.
#[export] Instance framed_set_group g x : Framed (set_group g x).
Proof. done. Qed.
Lemma set_group_set g x y s : set_group g x (set_group g y s) = set_group g x s.
Proof. rw /set_group /=. by rw insert_insert_eq. Qed.
Lemma set_ctrl_set c x y s : set_ctrl c x (set_ctrl c y s) = set_ctrl c x s.
Proof. rw /set_ctrl /=. by rw insert_insert_eq. Qed.
Lemma set_ctrl_id c x s : k_ctrls s !! c = Some x → set_ctrl c x s = s.
Proof. intros Hc. rw /set_ctrl /=. rw insert_id //. by destruct s. Qed.
Lemma set_group_id g x s : k_groups s !! g = Some x → set_group g x s = s.
Proof. intros Hg. rw /set_group /=. rw insert_id //. by destruct s. Qed.

Lemma set_ctrl_group c x g y s : set_ctrl c x (set_group g y s) = set_group g y (set_ctrl c x s).
Proof. done. Qed.

(** The ids of the live queues among some slots. *)
Definition alive_qids (qs : list snvm_user_queue) : list Z :=
  uq_qid <$> filter (λ q, uq_alive q ≠ 0) qs.
Definition dead (q : snvm_user_queue) : snvm_user_queue := q<{uq_alive := 0}>.

(** The admin commands of a drain: for each id, Delete SQ and then Delete CQ. *)
Fixpoint drained (ndev : option ptr) (qids : list Z) (es : list event) : Prop :=
  match ndev, qids with
  | None, _ | _, [] => es = []
  | Some d, q :: qids => ∃ r1 r2 es',
      es = EvAdmin d (DeleteQueue nvme_admin_delete_sq (u16 q)) r1 ::
           EvAdmin d (DeleteQueue nvme_admin_delete_cq (u16 q)) r2 :: es' ∧
      drained ndev qids es'
  end.

Lemma drained_none qids es : drained None qids es → es = [].
Proof. by destruct qids. Qed.

(** The controller [x] with another bitmap. *)
Definition rebitmap (x x' : ctrl) : Prop := x' = x<{c_user_qid_bitmap := c_user_qid_bitmap x'}>.
Lemma rebitmap_refl x : rebitmap x x.
Proof. by destruct x. Qed.
Lemma rebitmap_trans x y z : rebitmap x y → rebitmap y z → rebitmap x z.
Proof. rw /rebitmap. intros -> ->. done. Qed.

Section qgroup_lemmas.
Context `{!kenv, B : !P2pBackend, !P2pLaws B}.

Lemma wp_submit d cmd (Q : Z → snvm → Prop) s :
  (∀ r s', steps [EvAdmin d cmd r] s s' → Q r s') → wp (submit_sync_cmd d cmd) Q s.
Proof.
  intros HQ. rw /submit_sync_cmd. wp_step. apply wp_ask. wp_step. apply wp_emit. wp_step. apply HQ.
  eapply (steps_trans []); [apply steps_tick|apply steps_emit].
Qed.

Lemma drained_app ndev q1 q2 es1 es2 :
  drained ndev q1 es1 → drained ndev q2 es2 → drained ndev (q1 ++ q2) (es1 ++ es2).
Proof.
  revert es1. induction q1 as [|q q1 IH]; intros es1; simpl.
  - destruct ndev; by intros ->.
  - destruct ndev as [d|]; [|by destruct q2; intros -> ->].
    intros (r1 & r2 & es' & -> & H1) H2. exists r1, r2, (es' ++ es2). auto.
Qed.

Lemma alive_qids_snoc qs q :
  alive_qids (qs ++ [q]) = alive_qids qs ++ (if decide (uq_alive q = 0) then [] else [uq_qid q]).
Proof.
  rw /alive_qids filter_app fmap_app. f_equal. case_decide as E.
  - rw filter_cons_False; [done|tauto].
  - by rw filter_cons_True.
Qed.

Lemma dead_alive0 q : uq_alive q = 0 → dead q = q.
Proof. destruct q; simpl. by intros ->. Qed.

(** One slot of the drain. *)
Lemma wp_drain_queue g c ndev i G uq x U (Q : unit → snvm → Prop) s :
  k_groups s !! g = Some G → g_queues G !! i = Some uq → k_ctrls s !! c = Some x →
  pool_wf x U → (uq_alive uq ≠ 0 → uq_qid uq ∈ U) →
  let ids := if decide (uq_alive uq = 0) then [] else [uq_qid uq] in
  (∀ s' x' es, pool_wf x' (U ∖ list_to_set ids) → rebitmap x x' → drained ndev ids es →
     steps es (set_group g G<{g_queues := <[i := dead uq]> (g_queues G)}> (set_ctrl c x' s)) s' →
     Q tt s') →
  wp (drain_queue g (Some c) ndev i) Q s.
Proof.
  intros Hg Hi Hc Hwf Hin ids HQ. rw /drain_queue. wp_step. eapply wp_load; [done|].
  wp_step. eapply wp_from_option; [done|]. subst ids. destruct (decide (uq_alive uq = 0)) as [E|E].
  { rw E Z.eqb_refl. apply wp_ret. eapply (HQ s x []); [by rw /= difference_empty_L|apply rebitmap_refl| |].
    - by destruct ndev.
    - rw dead_alive0 // list_insert_id // set_ctrl_id // set_group_id; [apply steps_refl|].
      rw Hg. by destruct G. }
  assert ((uq_alive uq =? 0) = false) as -> by lia.
  wp_step. apply (wp_mono _ (λ _ s1, ∃ es, drained ndev [uq_qid uq] es ∧ steps es s s1)).
  { destruct ndev as [d|].
    - wp_step. apply wp_submit. intros r1 s1 H1. wp_step. apply wp_submit. intros r2 s2 H2.
      wp_step. eexists. split; [|eapply steps_trans; [exact H1|exact H2]].
      exists r1, r2, []. done.
    - wp_step. exists []. split; [done|apply steps_refl]. }
  intros _ s1 (es & Hdr & t & ->). wp_step. eapply (wp_qid_free c x U); [done|done|by apply Hin|].
  intros s2 x' Hwf' Hx' _ ->. eapply wp_store; [done|].
  eapply (HQ _ x' es); [|done|done|].
  - by rw /= right_id_L.
  - by exists t.
Qed.

Lemma wp_drain_loop g c ndev k G x U (Q : unit → snvm → Prop) s :
  k_groups s !! g = Some G → (k ≤ length (g_queues G))%nat → k_ctrls s !! c = Some x →
  pool_wf x U →
  let ids := alive_qids (take k (g_queues G)) in
  NoDup ids → (∀ q, q ∈ ids → q ∈ U) →
  (∀ s' x' es, pool_wf x' (U ∖ list_to_set ids) → rebitmap x x' → drained ndev (reverse ids) es →
     steps es (set_group g G<{g_queues := (dead <$> take k (g_queues G)) ++ drop k (g_queues G)}>
                 (set_ctrl c x' s)) s' → Q tt s') →
  wp (kfor (drain_queue g (Some c) ndev) (reverse (seq 0 k))) Q s.
Proof.
  revert G x U s Q. induction k as [|k IH]; intros G x U s Q Hg Hk Hc Hwf ids Hnd Hin HQ.
  { apply wp_ret. eapply (HQ s x []); [by rw /= difference_empty_L|apply rebitmap_refl|by destruct ndev|].
    rw take_0 drop_0 /= set_ctrl_id // set_group_id; [apply steps_refl|]. rw Hg. by destruct G. }
  destruct (lookup_lt_is_Some_2 (g_queues G) k) as [uq Huq]; [lia|].
  rw seq_S reverse_snoc. cbn [kfor Nat.add].
  assert (ids = alive_qids (take k (g_queues G)) ++
    (if decide (uq_alive uq = 0) then [] else [uq_qid uq])) as Eids.
  { rw /ids (take_S_r _ _ _ Huq). apply alive_qids_snoc. }
  rw Eids in Hnd Hin HQ. clear Eids ids.
  set (one := if decide (uq_alive uq = 0) then [] else [uq_qid uq]) in *.
  apply NoDup_app in Hnd as (Hnd & Hdis & _). wp_step.
  eapply (wp_drain_queue g c ndev k G uq x U); [done..| |].
  { intros Ha. apply Hin. rw /one. rw decide_False //. set_solver. }
  intros s1 x1 es1 Hwf1 Hx1 Hdr1 H1. pose proof H1 as (t1 & E1).
  eapply (IH G<{g_queues := <[k := dead uq]> (g_queues G)}> x1 (U ∖ list_to_set one)).
  { by rw E1 /= lookup_insert_eq. }
  { rw /= length_insert. lia. }
  { by rw E1 /= lookup_insert_eq. }
  { done. }
  { rw /= take_insert_ge //. }
  { rw /= take_insert_ge //. intros q Hq. apply elem_of_difference. split; [apply Hin; set_solver|].
    rw elem_of_list_to_set. by apply Hdis. }
  rw /= take_insert_ge //. intros s' x' es Hwf' Hx' Hdr Hs.
  eapply (HQ s' x' (es1 ++ es)).
  - replace (U ∖ list_to_set _) with
      ((U ∖ list_to_set one) ∖ list_to_set (alive_qids (take k (g_queues G)))); [done|].
    rw list_to_set_app_L. set_solver.
  - by eapply rebitmap_trans.
  - rw reverse_app. apply drained_app; [|done]. rw /one. by case_decide.
  - rw (drop_S _ (dead uq) k) in Hs; [|by apply list_lookup_insert_eq; lia].
    rw drop_insert_lt in Hs; [|lia].
    set (G2 := (G<{g_queues := (dead <$> take k (g_queues G)) ++
                     dead uq :: drop (S k) (g_queues G)}>)).
    assert (G<{g_queues := (dead <$> take (S k) (g_queues G)) ++ drop (S k) (g_queues G)}> = G2)
      as ->.
    { rw /G2 (take_S_r _ _ _ Huq) fmap_app -app_assoc //. }
    eapply steps_trans; [|exact Hs].
    eapply (steps_framed (λ s, set_group g G2 (set_ctrl c x' s))) in H1; [|apply framed_compose; apply _].
    revert H1. by rw set_ctrl_group set_group_set set_ctrl_set.
Qed.

(** The live device behind a controller, as a function of the state. *)
Definition live_ndev (s : snvm) (x : ctrl) : option ptr :=
  pd ← k_pdevs s !! c_pdev x;
  if negb (bool_decide (pd_driver pd = Some PCI_DRIVER_NAME)) then None else
  d ← pd_drvdata pd; nd ← k_ndevs s !! d;
  if nd_admin_q nd : bool then Some d else None.

(** The PCI device of a controller exists, and snvme's driver data is a device. *)
Definition pdev_ok (s : snvm) (x : ctrl) : Prop :=
  ∃ pd, k_pdevs s !! c_pdev x = Some pd ∧
    (pd_driver pd = Some PCI_DRIVER_NAME → ∀ d, pd_drvdata pd = Some d → is_Some (k_ndevs s !! d)).

Lemma wp_get_live_ndev c x (Q : option ptr → snvm → Prop) s :
  k_ctrls s !! c = Some x → pdev_ok s x → Q (live_ndev s x) s →
  wp (snvm_ctrl_get_live_ndev (Some c)) Q s.
Proof.
  intros Hc (pd & Hpd & Hnd) HQ. rw /snvm_ctrl_get_live_ndev. wp_step. eapply wp_load; [done|].
  wp_step. eapply wp_load; [done|]. rw /live_ndev Hpd /= in HQ. wp_step.
  { wp_step. done. }
  rename select (negb _ = false) into Hdr. apply negb_false_iff, bool_decide_eq_true in Hdr.
  destruct (pd_drvdata pd) as [d|] eqn:Ed; [|by wp_step].
  destruct (Hnd Hdr d eq_refl) as [nd Hn]. rw /= Hn /= in HQ.
  wp_step. eapply wp_load; [done|]. by wp_step.
Qed.

Definition drop_group (g : ptr) (id : Z) (s : snvm) : snvm :=
  s<{k_group_ida ::= λ ids, ids ∖ {[id]} }><{k_groups ::= delete g}>.
#[export] Instance framed_drop_group g id : Framed (drop_group g id).
Proof. done. Qed.

Lemma drop_maps_set_group ps g X s :
  ∃ X', drop_maps ps (set_group g X s) = set_group g X' (drop_maps ps s) ∧
    g_group_id X' = g_group_id X.
Proof.
  revert X s. induction ps as [|p ps IH]; intros X s; [by eauto|].
  destruct (IH X<{g_maps ::= unlink p}> (drop_map p s)) as (X' & E & Hid).
  exists X'. split; [|done]. rw -E. rw /drop_maps /=. f_equal.
  rw /drop_map /unlink_group /unlink_global /set_group /=. by rw fmap_insert.
Qed.

Lemma drop_group_set g id X s : drop_group g id (set_group g X s) = drop_group g id s.
Proof. rw /drop_group /set_group /=. by rw delete_insert_eq. Qed.

(** Destroying a group: first the admin commands that delete its queues, then
    the release of its maps; its ids return to the pool and its group id to the
    IDA. *)
Lemma wp_destroy_qgroup g c G x U (Q : unit → snvm → Prop) s :
  k_groups s !! g = Some G → k_ctrls s !! c = Some x → pdev_ok s x → pool_wf x U →
  Z.of_nat (length (g_queues G)) = NVM_MAX_QUEUES_PER_GROUP →
  let ids := alive_qids (g_queues G) in
  NoDup ids → (∀ q, q ∈ ids → q ∈ U) →
  NoDup (g_maps G) → list_ok (g_maps G) s → allocated (k_ctrls s) (k_ctrl_list s) →
  (∀ s' x' adm mem, pool_wf x' (U ∖ list_to_set ids) → rebitmap x x' →
     drained (live_ndev s x) (reverse ids) adm → Forall mem_event mem →
     trace mem = purge_events (set_ctrl c x' s) (g_maps G) →
     steps (adm ++ mem)
       (drop_group g (g_group_id G) (drop_maps (g_maps G) (set_ctrl c x' s))) s' → Q tt s') →
  wp (destroy_qgroup_locked g (Some c)) Q s.
Proof.
  intros Hg Hc Hpd Hwf Hlen ids Hnd Hin Hm Hok Hcl HQ. rw /destroy_qgroup_locked. wp_step.
  eapply wp_get_live_ndev; [done..|].
  assert (Z.to_nat NVM_MAX_QUEUES_PER_GROUP = length (g_queues G)) as -> by lia.
  wp_step. eapply (wp_drain_loop g c _ _ G x U); [done|done|done|done|by rw firstn_all..|].
  rw firstn_all drop_all app_nil_r. intros s1 x' adm Hwf' Hx' Hdr H1. pose proof H1 as (t1 & E1).
  set (X0 := G<{g_queues := dead <$> g_queues G}>) in *.
  assert (k_groups s1 !! g = Some X0) as Hg1 by (by rw E1 /= lookup_insert_eq).
  wp_step. eapply wp_alter_obj; [done|]. set (X1 := X0<{g_cur_queues := 0}>).
  change (on_heap <[g := X1]> s1) with (set_group g X1 s1).
  wp_step. eapply wp_load; [by rw /= lookup_insert_eq|]. change (g_maps X1) with (g_maps G).
  wp_step. apply wp_release_all; [done|by rw E1|rw E1; by apply allocated_insert|].
  intros s2 (mem & Hmem & Htr & H2)%moves_steps.
  destruct (drop_maps_set_group (g_maps G) g X1 s1) as (X2 & E2 & Hid). rw E2 in H2.
  assert (k_groups s2 !! g = Some X2) as Hg2 by (destruct H2 as (t2 & ->); by rw /= lookup_insert_eq).
  wp_step. eapply wp_alter_obj; [done|]. set (X3 := X2<{g_nr_maps := 0}>).
  change (on_heap <[g := X3]> s2) with (set_group g X3 s2).
  wp_step. eapply wp_load; [by rw /= lookup_insert_eq|]. change (g_group_id X3) with (g_group_id X2).
  rw Hid. wp_step. wp_step. eapply wp_kfree_obj; [by rw /= lookup_insert_eq|].
  change (Q tt (drop_group g (g_group_id G) (set_group g X3 s2))). rw drop_group_set.
  eapply (HQ _ x' adm mem); [done..| |].
  { rw Htr. by rw E1. }
  eapply steps_trans.
  - eapply (steps_framed (λ s, drop_group g (g_group_id G) (drop_maps (g_maps G) s))) in H1;
      [|apply framed_compose; apply _].
    destruct (drop_maps_set_group (g_maps G) g X0 (set_ctrl c x' s)) as (X4 & E4 & _).
    rw E4 drop_group_set in H1. exact H1.
  - apply (steps_framed (drop_group g (g_group_id G))) in H2; [|apply _]. by rw drop_group_set in H2.
Qed.
End qgroup_lemmas.
