(* ===== verification/Inv.v ===== *)
(** * The invariant of the module's state

    What holds between two system calls: every list names allocated objects, a
    map is on exactly one global list and can be released, a group belongs to
    exactly one open file, and the bits that are set in a controller's pool of
    queue ids are exactly the ids of the live queues on it, each of them used by
    exactly one queue. *)
From S2P Require Import Prelude KState P2p Ctrl Map QidPool QGroup.

(** All maps on the global lists. *)
Definition listed (s : snvm) : list ptr := k_host_list s ++ k_device_list s ++ k_device_queue_list s.

Definition ndev_ok (nd : nvme_dev) : Prop :=
  0 ≤ nd_online_queues nd ∧ 0 ≤ nd_ctrl_max_io_queues nd < 2 ^ 16.

(** A map can be released whatever controllers there are. *)
Definition map_ok (m : map) : Prop :=
  releasable max_num_ctrls m ∧
  1 ≤ m_n_addrs m ≤ Z.of_nat (length (m_addrs m)).

Definition group_ok (s : snvm) (G : snvm_qgroup) : Prop :=
  Z.of_nat (length (g_queues G)) = NVM_MAX_QUEUES_PER_GROUP ∧
  g_max_queues G = NVM_MAX_QUEUES_PER_GROUP ∧
  0 ≤ g_cur_queues G ≤ NVM_MAX_QUEUES_PER_GROUP ∧
  (∀ i uq, g_queues G !! i = Some uq → uq_alive uq ≠ 0 ↔ Z.of_nat i < g_cur_queues G) ∧
  0 < g_group_id G < 2 ^ 31 ∧
  NoDup (g_maps G) ∧
  (∀ p, p ∈ g_maps G → ∃ m, k_maps s !! p = Some m ∧ m_group_id m = g_group_id G ∧
     m_kind m ≠ NVM_MAP_KIND_DATA).

Definition owner_ok (s : snvm) (O : snvm_dev_owner) : Prop :=
  is_Some (k_ctrls s !! o_ctrl O) ∧
  NoDup (o_groups O) ∧ (∀ g, g ∈ o_groups O → is_Some (k_groups s !! g)) ∧
  o_nr_groups O = Z.of_nat (length (o_groups O)) ∧ o_nr_groups O ≤ NVM_MAX_GROUPS_PER_FD ∧
  NoDup (o_data_maps O) ∧
  (∀ p, p ∈ o_data_maps O → ∃ m, k_maps s !! p = Some m ∧ m_kind m = NVM_MAP_KIND_DATA ∧
     m_group_id m = 0).

(** Slot [i] of group [g] is a live queue with id [q] on controller [c]. *)
Definition live_slot (s : snvm) (c : ptr) (k : ptr * nat) (q : Z) : Prop :=
  ∃ o O G uq, k_owners s !! o = Some O ∧ o_ctrl O = c ∧ k.1 ∈ o_groups O ∧
    k_groups s !! k.1 = Some G ∧ g_queues G !! k.2 = Some uq ∧ uq_alive uq ≠ 0 ∧ uq_qid uq = q.

Definition qids_ok (s : snvm) (c : ptr) (x : ctrl) : Prop :=
  ∃ U, pool_wf x U ∧ (∀ q, q ∈ U ↔ ∃ k, live_slot s c k q) ∧
    (∀ k k' q, live_slot s c k q → live_slot s c k' q → k = k').

(** No device is driven by snvme. *)
Definition none_bound (devs : gmap ptr pci_dev) : Prop :=
  map_Forall (λ _ pd, pd_driver pd ≠ Some PCI_DRIVER_NAME) devs.

Record Inv (s : snvm) : Prop := {
  inv_ctrl_nodup : NoDup (k_ctrl_list s);
  inv_ctrl_list : ∀ c, c ∈ k_ctrl_list s ↔ is_Some (k_ctrls s !! c);
  inv_ctrl_max : (length (k_ctrl_list s) ≤ max_num_ctrls)%nat;
  inv_pdev : map_Forall (λ _ x, pdev_ok s x) (k_ctrls s);
  inv_ndev : map_Forall (λ _ nd, ndev_ok nd) (k_ndevs s);
  inv_drv : ∀ d pd n, k_pdevs s !! d = Some pd → pd_driver pd = Some PCI_DRIVER_NAME →
    pd_drvdata pd = Some n → is_Some (k_ndevs s !! n) ∧
    ∀ d' pd', k_pdevs s !! d' = Some pd' → pd_driver pd' = Some PCI_DRIVER_NAME →
      pd_drvdata pd' = Some n → d' = d;
  inv_map : map_Forall (λ _ m, map_ok m) (k_maps s);
  inv_listed_nodup : NoDup (listed s);
  inv_listed : ∀ p, p ∈ listed s ↔ is_Some (k_maps s !! p);
  inv_group : map_Forall (λ _ G, group_ok s G) (k_groups s);
  inv_group_ida : ∀ i, i ∈ k_group_ida s ↔ ∃ g G, k_groups s !! g = Some G ∧ g_group_id G = i;
  inv_group_id : ∀ g g' G G', k_groups s !! g = Some G → k_groups s !! g' = Some G' →
    g_group_id G = g_group_id G' → g = g';
  inv_owner : map_Forall (λ _ O, owner_ok s O) (k_owners s);
  inv_owned : ∀ g, is_Some (k_groups s !! g) → ∃ o O, k_owners s !! o = Some O ∧ g ∈ o_groups O;
  inv_owned_once : ∀ o o' O O' g, k_owners s !! o = Some O → k_owners s !! o' = Some O' →
    g ∈ o_groups O → g ∈ o_groups O' → o = o';
  inv_file : ∀ f F o, k_files s !! f = Some F → f_private F = Some o →
    ∃ O, k_owners s !! o = Some O ∧ o_ctrl O = f_cdev F;
  inv_file_once : ∀ f f' F F' o, k_files s !! f = Some F → k_files s !! f' = Some F' →
    f_private F = Some o → f_private F' = Some o → f = f';
  inv_next : ∀ p, (k_next s ≤ p)%positive → k_maps s !! p = None ∧ k_groups s !! p = None ∧
    k_owners s !! p = None ∧ k_ctrls s !! p = None ∧ k_ndevs s !! p = None;
  inv_qids : map_Forall (λ c x, qids_ok s c x) (k_ctrls s);
  inv_found : k_driver_found s = false → k_registered s = 0 ∧ none_bound (k_pdevs s);
}.

(** The log and the tick do not matter. *)
Lemma Inv_core s s' : s' ≡ₗ s → Inv s → Inv s'.
Proof.
  intros (l & t & ->)%same_core_inv []. by constructor.
Qed.

Lemma Inv_ctrls s : Inv s → allocated (k_ctrls s) (k_ctrl_list s).
Proof. intros H. apply Forall_forall. intros c. by apply inv_ctrl_list. Qed.

Lemma Inv_glist_nodup s l : Inv s → NoDup (k_glist l s).
Proof.
  intros H. pose proof (inv_listed_nodup s H) as Hnd. rw /listed in Hnd.
  apply NoDup_app in Hnd as (H1 & _ & Hnd). apply NoDup_app in Hnd as (H2 & _ & H3).
  by destruct l.
Qed.

Lemma glist_listed l s p : p ∈ k_glist l s → p ∈ listed s.
Proof. rw /listed. destruct l; set_solver. Qed.

Lemma releasable_mono n n' m : (n' ≤ n)%nat → releasable n m → releasable n' m.
Proof.
  rw /releasable. destruct (m_release m) as [[]|], (m_data m); try done.
  intros Hn [? ?]. split; [done|lia].
Qed.
Lemma Inv_releasable s p m : Inv s → k_maps s !! p = Some m → releasable (length (k_ctrl_list s)) m.
Proof. intros H Hm. eapply releasable_mono; [apply (inv_ctrl_max s H)|]. by apply (inv_map s H p m Hm). Qed.

Lemma Inv_list_ok s ps : Inv s → (∀ p, p ∈ ps → is_Some (k_maps s !! p)) → list_ok ps s.
Proof.
  intros H Hps. apply Forall_forall. intros p [m Hm]%Hps. exists m. split; [done|].
  by eapply Inv_releasable.
Qed.
Lemma Inv_glist_ok s l : Inv s → list_ok (k_glist l s) s.
Proof.
  intros H. apply Inv_list_ok; [done|]. intros p Hp. apply inv_listed; [done|].
  by eapply glist_listed.
Qed.

(** ** Losing a map *)

Lemma listed_drop_map p s : listed (drop_map p s) = unlink p (listed s).
Proof. rw /listed /=. by rw !unlink_app. Qed.

Lemma drop_map_groups p s g :
  k_groups (drop_map p s) !! g = (λ G, G<{g_maps ::= unlink p}>) <$> k_groups s !! g.
Proof. apply lookup_fmap. Qed.
Lemma drop_map_owners p s o :
  k_owners (drop_map p s) !! o = (λ O, O<{o_data_maps ::= unlink p}>) <$> k_owners s !! o.
Proof. apply lookup_fmap. Qed.

Lemma live_slot_drop_map p s c k q : live_slot (drop_map p s) c k q ↔ live_slot s c k q.
Proof.
  rw /live_slot. split.
  - intros (o & O & G & uq & Ho & Hc & Hg & HG & Hi & Ha & Hq).
    rw drop_map_owners in Ho. rw drop_map_groups in HG.
    apply fmap_Some in Ho as (O' & Ho & ->). apply fmap_Some in HG as (G' & HG & ->).
    by exists o, O', G', uq.
  - intros (o & O & G & uq & Ho & Hc & Hg & HG & Hi & Ha & Hq).
    exists o, (O<{o_data_maps ::= unlink p}>), (G<{g_maps ::= unlink p}>), uq.
    rw drop_map_owners drop_map_groups Ho HG. done.
Qed.

Lemma Inv_drop_map p s : Inv s → Inv (drop_map p s).
Proof.
  intros H. pose proof H as []. constructor; try done.
  - intros q m Hm. destruct (decide (q = p)) as [->|]; [by rw /= lookup_delete_eq in Hm|].
    rw drop_map_lookup // in Hm. by apply (inv_map0 q).
  - rw listed_drop_map. by apply NoDup_unlink.
  - intros q. rw listed_drop_map elem_of_unlink inv_listed0 /=. rw lookup_delete_is_Some. naive_solver.
  - intros g G HG. rw drop_map_groups in HG. apply fmap_Some in HG as (G' & HG & ->).
    destruct (inv_group0 g G' HG) as (H1 & H2 & H3 & H4 & H5 & H6 & H7). do 5 (split; [done|]). split.
    + by apply NoDup_unlink.
    + intros q [Hq Hne]%elem_of_unlink. destruct (H7 q Hq) as (m & ? & ?). exists m.
      by rw drop_map_lookup.
  - intros i. rw inv_group_ida0. split; intros (g & G & HG & Hi).
    + exists g, (G<{g_maps ::= unlink p}>). by rw drop_map_groups HG.
    + rw drop_map_groups in HG. apply fmap_Some in HG as (G' & HG & ->). by exists g, G'.
  - intros g g' G G' HG HG'. rw drop_map_groups in HG. rw drop_map_groups in HG'.
    apply fmap_Some in HG as (? & HG & ->). apply fmap_Some in HG' as (? & HG' & ->).
    exact (inv_group_id0 g g' _ _ HG HG').
  - intros o O HO. rw drop_map_owners in HO. apply fmap_Some in HO as (O' & HO & ->).
    destruct (inv_owner0 o O' HO) as (H1 & H2 & H3 & H4 & H5 & H6 & H7). split_and!; try done.
    + intros g [G HG]%H3. rw drop_map_groups HG. by eexists.
    + by apply NoDup_unlink.
    + intros q [Hq Hne]%elem_of_unlink. destruct (H7 q Hq) as (m & ? & ?). exists m.
      by rw drop_map_lookup.
  - intros g. rw drop_map_groups fmap_is_Some. intros (o & O & HO & Hg)%inv_owned0.
    exists o, (O<{o_data_maps ::= unlink p}>). by rw drop_map_owners HO.
  - intros o o' O O' g HO HO'. rw drop_map_owners in HO. rw drop_map_owners in HO'.
    apply fmap_Some in HO as (? & HO & ->). apply fmap_Some in HO' as (? & HO' & ->).
    exact (inv_owned_once0 o o' _ _ g HO HO').
  - intros f F o HF Hp. destruct (inv_file0 f F o HF Hp) as (O & HO & Hc).
    exists (O<{o_data_maps ::= unlink p}>). by rw drop_map_owners HO.
  - intros q Hq. destruct (inv_next0 q Hq) as (H1 & H2 & H3 & H4 & H5).
    rw drop_map_groups drop_map_owners H2 H3. split_and!; try done.
    rw /=. by apply lookup_delete_None; right.
  - intros c x Hc. destruct (inv_qids0 c x Hc) as (U & Hwf & HU & Hinj). exists U.
    split_and!; [done| |].
    + intros q. rw HU. by setoid_rewrite live_slot_drop_map.
    + intros k k' q. rw !live_slot_drop_map. apply Hinj.
Qed.

Lemma Inv_drop_maps ps s : Inv s → Inv (drop_maps ps s).
Proof. revert s. induction ps as [|p ps IH]; intros s Hs; [done|]. by apply IH, Inv_drop_map. Qed.

(** ** Gaining a map *)

(** No group and no file lists [p]. *)
Definition unattached (p : ptr) (s : snvm) : Prop :=
  map_Forall (λ _ G, p ∉ g_maps G) (k_groups s) ∧ map_Forall (λ _ O, p ∉ o_data_maps O) (k_owners s).

Lemma Inv_unattached s p : Inv s → k_maps s !! p = None → unattached p s.
Proof.
  intros H Hp. split.
  - intros g G HG Hin. destruct (inv_group s H g G HG) as (_&_&_&_&_&_&Hm).
    destruct (Hm p Hin) as (m & ? & _). congruence.
  - intros o O HO Hin. destruct (inv_owner s H o O HO) as (_&_&_&_&_&_&Hm).
    destruct (Hm p Hin) as (m & ? & _). congruence.
Qed.

Lemma Inv_next_ok s : Inv s → next_ok s.
Proof.
  intros H. assert (k_maps s !! k_next s = None) as Hp by (apply (inv_next s H); lia).
  split; [done|]. destruct (Inv_unattached s _ H Hp) as [Hg Ho]. split_and!; [|done|done].
  intros l Hin%glist_listed%inv_listed; [|done]. rw Hp in Hin. by destruct Hin.
Qed.

Lemma live_slot_frame s s' c k q :
  k_owners s' = k_owners s → k_groups s' = k_groups s → live_slot s' c k q ↔ live_slot s c k q.
Proof. intros Eo Eg. by rw /live_slot Eo Eg. Qed.

Lemma qids_ok_frame s s' c x :
  k_owners s' = k_owners s → k_groups s' = k_groups s → qids_ok s c x → qids_ok s' c x.
Proof.
  intros Eo Eg (U & Hwf & HU & Hinj). exists U. split_and!; [done| |].
  - intros q. rw HU. by setoid_rewrite (live_slot_frame s s').
  - intros k k' q. rw !(live_slot_frame s s') //. apply Hinj.
Qed.

Lemma listed_insert l p s : listed (glist_insert l p s) ≡ₚ p :: listed s.
Proof.
  rw /listed. destruct l; simpl; rw -?app_assoc /=.
  - by rw -Permutation_middle.
  - by rw -!Permutation_middle.
  - by rw !app_assoc -Permutation_cons_append.
Qed.

Lemma Inv_new_map l m s :
  Inv s → map_ok m → m_group_id m = 0 →
  Inv (glist_insert l (k_next s) (set_map (k_next s) m (bump s))).
Proof.
  intros H Hm Hg0. pose proof H as []. set (p := k_next s).
  destruct (inv_next0 p ltac:(lia)) as (Hp & _).
  assert (p ∉ listed s) as Hpl by (rw inv_listed0 Hp; by intros []).
  constructor; try done.
  - intros q mq Hq. rw /= lookup_insert in Hq. case_decide; simplify_eq; [done|]. by apply (inv_map0 q).
  - rw listed_insert. by constructor.
  - intros q. rw listed_insert elem_of_cons /= lookup_insert.
    case_decide as E; [subst; split; [by eexists|by left]|].
    split; [intros [->|?]; [done|by apply inv_listed0]|intros ?; right; by apply inv_listed0].
  - intros g G HG. destruct (inv_group0 g G HG) as (H1 & H2 & H3 & H4 & H5 & H6 & H7).
    do 6 (split; [done|]). intros q Hq. destruct (H7 q Hq) as (mq & Hq' & ?). exists mq.
    split; [|done]. rw /= lookup_insert_ne //. intros <-. congruence.
  - intros o O HO. destruct (inv_owner0 o O HO) as (H1 & H2 & H3 & H4 & H5 & H6 & H7).
    do 6 (split; [done|]). intros q Hq. destruct (H7 q Hq) as (mq & Hq' & ?). exists mq.
    split; [|done]. rw /= lookup_insert_ne //. intros <-. congruence.
  - intros q Hq. simpl in Hq. destruct (inv_next0 q) as (H1 & ?); [unfold p in *; lia|].
    split; [|done]. rw /= lookup_insert_ne //. unfold p. lia.
Qed.

(** A map that is on no group's or file's list may change freely. *)
Lemma Inv_set_map p m m' s :
  Inv s → k_maps s !! p = Some m → unattached p s → map_ok m' → Inv (set_map p m' s).
Proof.
  intros H Hp [Hug Huo] Hm'. pose proof H as []. constructor; try done.
  - intros q mq Hq. rw /= lookup_insert in Hq. case_decide; simplify_eq; [done|]. by apply (inv_map0 q).
  - intros q. rw inv_listed0 /= lookup_insert. case_decide; simplify_eq; [|done]. rw Hp. naive_solver.
  - intros g G HG. destruct (inv_group0 g G HG) as (H1 & H2 & H3 & H4 & H5 & H6 & H7).
    do 6 (split; [done|]). intros q Hq. destruct (H7 q Hq) as (mq & ? & ?). exists mq.
    split; [|done]. rw /= lookup_insert_ne //. intros ->. by apply (Hug g G HG).
  - intros o O HO. destruct (inv_owner0 o O HO) as (H1 & H2 & H3 & H4 & H5 & H6 & H7).
    do 6 (split; [done|]). intros q Hq. destruct (H7 q Hq) as (mq & ? & ?). exists mq.
    split; [|done]. rw /= lookup_insert_ne //. intros ->. by apply (Huo o O HO).
  - intros q Hq. destruct (inv_next0 q Hq) as (H1 & ?). split; [|done].
    rw /= lookup_insert_ne //. intros ->. congruence.
Qed.

(** ** Updating controllers, files and groups *)

Definition set_owner (o : ptr) (O : snvm_dev_owner) (s : snvm) : snvm := s<{k_owners ::= <[o := O]>}>.
#[export] Instance framed_set_owner o O : Framed (set_owner o O).
Proof. done. Qed.

(** [x'] has the device of [x] and a pool with the same ids taken. *)
Definition same_pool (x x' : ctrl) : Prop :=
  c_pdev x' = c_pdev x ∧ (∀ U, pool_wf x U → pool_wf x' U).

Lemma Inv_set_ctrl c x x' s :
  Inv s → k_ctrls s !! c = Some x → same_pool x x' → Inv (set_ctrl c x' s).
Proof.
  intros H Hc (E1 & E2). pose proof H as []. constructor; try done.
  - intros c'. rw inv_ctrl_list0 /= lookup_insert. case_decide; simplify_eq; [|done]. rw Hc. naive_solver.
  - intros c' y Hy. rw /= lookup_insert in Hy. case_decide; simplify_eq; [|by apply (inv_pdev0 c')].
    destruct (inv_pdev0 c' x Hc) as (pd & ? & ?). exists pd. by rw E1.
  - intros o O HO. destruct (inv_owner0 o O HO) as (H1 & ?). split; [|done].
    rw /= lookup_insert. by case_decide.
  - intros q Hq. destruct (inv_next0 q Hq) as (H1 & H2 & H3 & H4 & H5). split_and!; try done.
    rw /= lookup_insert_ne //. intros ->. congruence.
  - intros c' y Hy. rw /= lookup_insert in Hy. case_decide; simplify_eq.
    + destruct (inv_qids0 c' x Hc) as (U & Hwf & ?). exists U. split; [|done]. by apply E2.
    + by apply (inv_qids0 c').
Qed.

(** Updating a file's descriptor without touching its groups. *)
Lemma live_slot_owner s o O O' c k q :
  k_owners s !! o = Some O → o_ctrl O' = o_ctrl O → o_groups O' = o_groups O →
  live_slot (set_owner o O' s) c k q ↔ live_slot s c k q.
Proof.
  intros HO Hc Hg. rw /live_slot /=. split.
  - intros (o' & Ox & G & uq & Ho & Hrest). rw lookup_insert in Ho. case_decide; simplify_eq.
    + exists o', O, G, uq. by rw -Hc -Hg.
    + by exists o', Ox, G, uq.
  - intros (o' & Ox & G & uq & Ho & Hrest). destruct (decide (o = o')) as [->|Hne].
    + exists o', O', G, uq. rw lookup_insert_eq. simplify_eq. by rw Hc Hg.
    + exists o', Ox, G, uq. by rw lookup_insert_ne.
Qed.

Lemma Inv_set_owner o O O' s :
  Inv s → k_owners s !! o = Some O → o_ctrl O' = o_ctrl O → o_groups O' = o_groups O →
  o_nr_groups O' = o_nr_groups O → NoDup (o_data_maps O') →
  (∀ p, p ∈ o_data_maps O' → ∃ m, k_maps s !! p = Some m ∧ m_kind m = NVM_MAP_KIND_DATA ∧
     m_group_id m = 0) →
  Inv (set_owner o O' s).
Proof.
  intros H HO Hc Hg Hn Hnd Hdm. pose proof H as []. constructor; try done.
  - intros o' Ox Ho. rw /= lookup_insert in Ho. case_decide; simplify_eq; [|by apply (inv_owner0 o')].
    destruct (inv_owner0 o' O HO) as (H1 & H2 & H3 & H4 & H5 & H6 & H7).
    rw /owner_ok Hc Hg Hn. done.
  - intros g (o' & Ox & Ho & Hin)%inv_owned0. destruct (decide (o = o')) as [->|].
    + exists o', O'. rw /= lookup_insert_eq. simplify_eq. by rw Hg.
    + exists o', Ox. by rw /= lookup_insert_ne.
  - assert (∀ o' Ox, k_owners (set_owner o O' s) !! o' = Some Ox →
      ∃ Oy, k_owners s !! o' = Some Oy ∧ o_groups Ox = o_groups Oy) as Hlook.
    { intros o' Ox Ho. rw /= lookup_insert in Ho. case_decide; simplify_eq; by eauto. }
    intros o1 o2 O1 O2 g (X1 & HX1 & E1)%Hlook (X2 & HX2 & E2)%Hlook. rw E1 E2.
    exact (inv_owned_once0 o1 o2 X1 X2 g HX1 HX2).
  - intros f F o' HF Hp. destruct (inv_file0 f F o' HF Hp) as (Ox & HOx & Hcx).
    destruct (decide (o = o')) as [->|].
    + exists O'. rw /= lookup_insert_eq. simplify_eq. by rw Hc.
    + exists Ox. by rw /= lookup_insert_ne.
  - intros q Hq. destruct (inv_next0 q Hq) as (H1 & H2 & H3 & H4 & H5). split_and!; try done.
    rw /= lookup_insert_ne //. intros ->. congruence.
  - intros c' x Hx. destruct (inv_qids0 c' x Hx) as (U & Hwf & HU & Hinj). exists U.
    split_and!; [done| |].
    + intros q. rw HU. by setoid_rewrite (live_slot_owner s o O O').
    + intros k k' q. rw !(live_slot_owner s o O O') //. apply Hinj.
Qed.

(** The live queues of two slot arrays are the same. *)
Definition same_alive (qs qs' : list snvm_user_queue) : Prop :=
  ∀ i uq, uq_alive uq ≠ 0 → qs !! i = Some uq ↔ qs' !! i = Some uq.

(** Updating a group without touching its live queues. *)
Lemma live_slot_group s g G G' c k q :
  k_groups s !! g = Some G → same_alive (g_queues G) (g_queues G') →
  live_slot (set_group g G' s) c k q ↔ live_slot s c k q.
Proof.
  intros HG Hq. rw /live_slot /=. split.
  - intros (o & O & Gx & uq & Ho & Hc & Hin & Hgx & Hi & Ha & Hrest). rw lookup_insert in Hgx.
    case_decide; simplify_eq.
    + exists o, O, G, uq. by rw Hq.
    + by exists o, O, Gx, uq.
  - intros (o & O & Gx & uq & Ho & Hc & Hin & Hgx & Hi & Ha & Hrest).
    destruct (decide (g = k.1)) as [->|Hne].
    + exists o, O, G', uq. rw lookup_insert_eq. simplify_eq. by rw -Hq.
    + exists o, O, Gx, uq. by rw lookup_insert_ne.
Qed.

Lemma Inv_set_group g G G' s :
  Inv s → k_groups s !! g = Some G → same_alive (g_queues G) (g_queues G') →
  g_group_id G' = g_group_id G → group_ok s G' → Inv (set_group g G' s).
Proof.
  intros H HG Hq Hid Hok. pose proof H as []. constructor; try done.
  - intros g' Gx Hg. rw /= lookup_insert in Hg. case_decide; simplify_eq; [done|].
    by apply (inv_group0 g').
  - intros i. rw inv_group_ida0. split; intros (g' & Gx & Hg & Hi).
    + destruct (decide (g = g')) as [->|].
      * exists g', G'. rw /= lookup_insert_eq. simplify_eq. by rw Hid.
      * exists g', Gx. by rw /= lookup_insert_ne.
    + rw /= lookup_insert in Hg. case_decide; simplify_eq; [exists g', G|by exists g', Gx].
      by rw Hid.
  - assert (∀ g' Gx, k_groups (set_group g G' s) !! g' = Some Gx →
      ∃ Gy, k_groups s !! g' = Some Gy ∧ g_group_id Gx = g_group_id Gy) as Hlook.
    { intros g' Gx Hg. rw /= lookup_insert in Hg. case_decide; simplify_eq; by eauto. }
    intros g1 g2 G1 G2 (X1 & HX1 & E1)%Hlook (X2 & HX2 & E2)%Hlook. rw E1 E2.
    exact (inv_group_id0 g1 g2 X1 X2 HX1 HX2).
  - intros o O HO. destruct (inv_owner0 o O HO) as (H1 & H2 & H3 & ?). do 2 (split; [done|]).
    split; [|done]. intros g' Hin. rw /= lookup_insert. case_decide; [done|]. by apply H3.
  - intros g' Hg'. apply inv_owned0. rw /= lookup_insert in Hg'. case_decide; [|done].
    subst. by rw HG.
  - intros q Hq'. destruct (inv_next0 q Hq') as (H1 & H2 & H3 & H4 & H5). split_and!; try done.
    rw /= lookup_insert_ne //. intros ->. congruence.
  - intros c' x Hx. destruct (inv_qids0 c' x Hx) as (U & Hwf & HU & Hinj). exists U.
    split_and!; [done| |].
    + intros q. rw HU. by setoid_rewrite (live_slot_group s g G G').
    + intros k k' q. rw !(live_slot_group s g G G') //. apply Hinj.
Qed.

(** ** Creating and destroying groups *)

Lemma NoDup_filter_fmap {A B} (P : A → Prop) `{!∀ x, Decision (P x)} (f : A → B) (l : list A) :
  (∀ i j x y, l !! i = Some x → l !! j = Some y → P x → P y → f x = f y → i = j) →
  NoDup (f <$> filter P l).
Proof.
  induction l as [|a l IH]; intros Hinj; [constructor|]. rw filter_cons.
  assert (NoDup (f <$> filter P l)) as Hnd.
  { apply IH. intros i j x y Hi Hj Px Py E. by apply (Hinj (S i) (S j) x y) in E as [= ->]. }
  case_decide as Pa; [|done]. simpl. constructor; [|done].
  intros (b & Eb & (Pb & Hb)%list_elem_of_filter)%list_elem_of_fmap.
  apply list_elem_of_lookup in Hb as [j Hj]. by specialize (Hinj 0%nat (S j) a b eq_refl Hj Pa Pb Eb).
Qed.

(** The ids of a group's live queues: distinct, and taken from the pool of the
    controller of the group's file. *)
Lemma elem_of_alive_qids qs q :
  q ∈ alive_qids qs ↔ ∃ i uq, qs !! i = Some uq ∧ uq_alive uq ≠ 0 ∧ uq_qid uq = q.
Proof.
  rw /alive_qids list_elem_of_fmap. split.
  - intros (uq & -> & (Ha & [i Hi]%list_elem_of_lookup)%list_elem_of_filter). by exists i, uq.
  - intros (i & uq & Hi & Ha & <-). exists uq. split; [done|]. apply list_elem_of_filter.
    split; [done|]. by eapply list_elem_of_lookup_2.
Qed.

Lemma Inv_group_qids s o O g G x U :
  Inv s → k_owners s !! o = Some O → g ∈ o_groups O → k_groups s !! g = Some G →
  k_ctrls s !! o_ctrl O = Some x → pool_wf x U →
  (∀ q, q ∈ U ↔ ∃ k, live_slot s (o_ctrl O) k q) →
  (∀ k k' q, live_slot s (o_ctrl O) k q → live_slot s (o_ctrl O) k' q → k = k') →
  NoDup (alive_qids (g_queues G)) ∧ (∀ q, q ∈ alive_qids (g_queues G) → q ∈ U).
Proof.
  intros H HO Hg HG Hx Hwf HU Hinj. split.
  - apply NoDup_filter_fmap. intros i j uq uq' Hi Hj Ha Ha' E.
    assert ((g, i) = (g, j)) as [= ->]; [|done].
    apply (Hinj _ _ (uq_qid uq)); [by exists o, O, G, uq|by exists o, O, G, uq'].
  - intros q (i & uq & Hi & Ha & Hq)%elem_of_alive_qids. apply HU. exists (g, i). by exists o, O, G, uq.
Qed.

(** A group as [NVM_CREATE_QUEUE_GROUP] makes it. *)
Definition new_group (id : Z) : snvm_qgroup :=
  Qgroup id NVM_MAX_QUEUES_PER_GROUP [] 0
    (replicate (Z.to_nat NVM_MAX_QUEUES_PER_GROUP) (UserQueue 0 0 0 0)) 0.
Definition take_group_id (id : Z) (s : snvm) : snvm := s<{k_group_ida := {[id]} ∪ k_group_ida s}>.
#[export] Instance framed_take_group_id id : Framed (take_group_id id).
Proof. done. Qed.

Lemma group_ok_new s id : 0 < id < 2 ^ 31 → group_ok s (new_group id).
Proof.
  intros Hid. do 2 (split; [done|]). split; [by rw /NVM_MAX_QUEUES_PER_GROUP|]. split.
  - intros i uq [-> _]%lookup_replicate. simpl. lia.
  - split; [done|]. split; [constructor|]. by intros p ?%elem_of_nil.
Qed.

Lemma Inv_new_group o O id s :
  Inv s → k_owners s !! o = Some O → id ∉ k_group_ida s → 0 < id < 2 ^ 31 →
  o_nr_groups O < NVM_MAX_GROUPS_PER_FD →
  Inv (set_owner o O<{o_groups := o_groups O ++ [k_next s] }>
                    <{o_nr_groups := u32 (o_nr_groups O + 1)}>
        (set_group (k_next s) (new_group id) (bump (take_group_id id s)))).
Proof.
  intros H HO Hid Hr Hn. pose proof H as [].
  destruct (inv_next0 (k_next s) ltac:(lia)) as (_ & Hng & _ & _).
  destruct (inv_owner0 o O HO) as (O1 & O2 & O3 & O4 & O5 & O6 & O7).
  assert (o_groups O = []) as Eg.
  { rw /NVM_MAX_GROUPS_PER_FD in Hn. destruct (o_groups O); [done|]. simpl in O4. lia. }
  set (p := k_next s) in *. set (O' := O<{o_groups := _}><{o_nr_groups := _}>).
  set (s' := set_owner o O' _).
  assert (∀ g G, k_groups s' !! g = Some G →
    (g = p ∧ G = new_group id) ∨ (g ≠ p ∧ k_groups s !! g = Some G)) as Hlg.
  { intros g G HG. rw /= lookup_insert in HG. case_decide; simplify_eq; auto. }
  assert (∀ o' Ox, k_owners s' !! o' = Some Ox → (o' = o ∧ Ox = O') ∨ (o' ≠ o ∧ k_owners s !! o' = Some Ox))
    as Hlo.
  { intros o' Ox Ho. rw /= lookup_insert in Ho. case_decide; simplify_eq; auto. }
  assert (∀ o' Ox, k_owners s !! o' = Some Ox → p ∉ o_groups Ox) as Hpn.
  { intros o' Ox Ho Hin. destruct (inv_owner0 o' Ox Ho) as (_ & _ & H3 & _).
    destruct (H3 p Hin) as [? ?]. congruence. }
  assert (∀ c k q, live_slot s' c k q ↔ live_slot s c k q) as Hslot.
  { intros c k q. split.
    - intros (o' & Ox & G & uq & [[-> ->]|[Hne Ho]]%Hlo & Hc & Hin & [[Ek ->]|[Hk HG]]%Hlg & Hi & Ha & Hq).
      + apply lookup_replicate in Hi as [-> _]. done.
      + rw /= Eg in Hin. apply list_elem_of_singleton in Hin. done.
      + apply lookup_replicate in Hi as [-> _]. done.
      + by exists o', Ox, G, uq.
    - intros (o' & Ox & G & uq & Ho & Hc & Hin & HG & Hrest).
      assert (k.1 ≠ p) by (intros E; rw E in HG; congruence).
      destruct (decide (o' = o)) as [->|].
      + exists o, O', G, uq. rw /= lookup_insert_eq lookup_insert_ne //. simplify_eq.
        do 2 (split; [done|]). split; [apply elem_of_app; by left|done].
      + exists o', Ox, G, uq. by rw /= !lookup_insert_ne. }
  constructor; try done.
  - intros g G [[-> ->]|[_ HG]]%Hlg; [by apply group_ok_new|by apply (inv_group0 g)].
  - intros i. rw /= elem_of_union elem_of_singleton inv_group_ida0. split.
    + intros [->|(g & G & HG & Hi)]; [exists p, (new_group id); by rw lookup_insert_eq|].
      exists g, G. rw lookup_insert_ne //. congruence.
    + intros (g & G & [[-> ->]|[_ HG]]%Hlg & Hi); [by left|right; by eauto].
  - intros g g' G G' [[-> ->]|[_ HG]]%Hlg [[-> ->]|[_ HG']]%Hlg; simpl; [done|..].
    + intros ->. destruct Hid. apply inv_group_ida0. by eauto.
    + intros <-. destruct Hid. apply inv_group_ida0. by eauto.
    + exact (inv_group_id0 g g' _ _ HG HG').
  - intros o' Ox [[-> ->]|[Hne Ho]]%Hlo.
    + split; [done|]. rw /= Eg /=. split; [apply NoDup_singleton|]. split.
      { intros g Ep%list_elem_of_singleton. rw Ep lookup_insert_eq. by eexists. }
      rw O4 Eg /=. by split_and!.
    + destruct (inv_owner0 o' Ox Ho) as (H1 & H2 & H3 & ?). do 2 (split; [done|]). split; [|done].
      intros g Hg. rw /= lookup_insert. case_decide; [by eexists|by apply H3].
  - intros g [G [[-> ->]|[_ HG]]%Hlg].
    + exists o, O'. rw /= lookup_insert_eq. split; [done|]. set_solver.
    + destruct (inv_owned0 g) as (o' & Ox & Ho & Hg); [by eexists|].
      destruct (decide (o' = o)) as [->|].
      * exists o, O'. rw /= lookup_insert_eq. split; [done|]. simplify_eq. set_solver.
      * exists o', Ox. by rw /= lookup_insert_ne.
  - intros o1 o2 O1' O2' g [[-> ->]|[Hn1 H1]]%Hlo [[-> ->]|[Hn2 H2]]%Hlo; [done|..].
    + simpl. intros [Hg|Ep%list_elem_of_singleton]%elem_of_app Hg2;
        [|subst g; by destruct (Hpn o2 O2' H2)].
      exact (inv_owned_once0 o o2 _ _ g HO H2 Hg Hg2).
    + simpl. intros Hg1 [Hg|Ep%list_elem_of_singleton]%elem_of_app;
        [|subst g; by destruct (Hpn o1 O1' H1)].
      exact (inv_owned_once0 o1 o _ _ g H1 HO Hg1 Hg).
    + exact (inv_owned_once0 o1 o2 _ _ g H1 H2).
  - intros f F o' HF Hp. destruct (inv_file0 f F o' HF Hp) as (Ox & HOx & Hcx).
    destruct (decide (o = o')) as [->|].
    + exists O'. rw /= lookup_insert_eq. by simplify_eq.
    + exists Ox. by rw /= lookup_insert_ne.
  - intros q Hq. simpl in Hq. destruct (inv_next0 q) as (H1 & H2 & H3 & H4 & H5); [unfold p in *; lia|].
    split_and!; try done.
    + rw /= lookup_insert_ne //. unfold p. lia.
    + rw /= lookup_insert_ne //. intros ->. congruence.
  - intros c' x Hx. destruct (inv_qids0 c' x Hx) as (U & Hwf & HU & Hinj). exists U.
    split_and!; [done| |].
    + intros q. rw HU. by setoid_rewrite Hslot.
    + intros k k' q. rw !Hslot. apply Hinj.
Qed.

(** Removing a group without maps whose ids have gone back to the pool. *)
Lemma Inv_drop_group o O O' g G x x' U s :
  Inv s → k_owners s !! o = Some O → g ∈ o_groups O → k_groups s !! g = Some G → g_maps G = [] →
  k_ctrls s !! o_ctrl O = Some x →
  (∀ q, q ∈ U ↔ ∃ k, live_slot s (o_ctrl O) k q) →
  (∀ k k' q, live_slot s (o_ctrl O) k q → live_slot s (o_ctrl O) k' q → k = k') →
  c_pdev x' = c_pdev x → pool_wf x' (U ∖ list_to_set (alive_qids (g_queues G))) →
  O' = O<{o_groups ::= unlink g}><{o_nr_groups := o_nr_groups O - 1}> →
  Inv (drop_group g (g_group_id G) (set_ctrl (o_ctrl O) x' (set_owner o O' s))).
Proof.
  intros H HO Hg HG Hgm Hx HU Hinj Hpd Hwf ->. pose proof H as []. set (c := o_ctrl O) in *.
  destruct (inv_owner0 o O HO) as (O1 & O2 & O3 & O4 & O5 & O6 & O7).
  set (O' := O<{o_groups ::= unlink g}><{o_nr_groups := o_nr_groups O - 1}>).
  set (s' := drop_group g _ _).
  assert (∀ g' G', k_groups s' !! g' = Some G' ↔ g' ≠ g ∧ k_groups s !! g' = Some G') as Hlg.
  { intros g' G'. rw /= lookup_delete_Some. naive_solver. }
  assert (∀ o' Ox, k_owners s' !! o' = Some Ox → (o' = o ∧ Ox = O') ∨ (o' ≠ o ∧ k_owners s !! o' = Some Ox))
    as Hlo.
  { intros o' Ox Ho. rw /= lookup_insert in Ho. case_decide; simplify_eq; auto. }
  assert (∀ o' Ox, k_owners s !! o' = Some Ox → o' ≠ o → g ∉ o_groups Ox) as Hgo.
  { intros o' Ox Ho Hne Hin. destruct Hne. exact (inv_owned_once0 o' o _ _ g Ho HO Hin Hg). }
  assert (∀ c' k q, live_slot s' c' k q ↔ live_slot s c' k q ∧ k.1 ≠ g) as Hslot.
  { intros c' k q. split.
    - intros (o' & Ox & G' & uq & Ho & Hc & Hin & (Hne & HG')%Hlg & Hrest). split; [|done].
      apply Hlo in Ho as [[-> ->]|[Hno Ho]].
      + exists o, O, G', uq. simpl in Hin. apply elem_of_unlink in Hin as [Hin _]. done.
      + by exists o', Ox, G', uq.
    - intros [(o' & Ox & G' & uq & Ho & Hc & Hin & HG' & Hrest) Hne].
      destruct (decide (o' = o)) as [->|Hno].
      + exists o, O', G', uq. rw Hlg /= lookup_insert_eq. simplify_eq.
        do 2 (split; [done|]). split; [by apply elem_of_unlink|done].
      + exists o', Ox, G', uq. rw Hlg /= lookup_insert_ne //. }
  assert (∀ c' k q, live_slot s c' k q → k.1 = g → c' = c ∧ q ∈ alive_qids (g_queues G)) as Hslotg.
  { intros c' [k i] q (o' & Ox & G' & uq & Ho & Hc & Hin & HG' & Hi & Ha & Hq) Ek. simpl in *. subst k.
    destruct (decide (o' = o)) as [->|Hno]; [|by destruct (Hgo o' Ox Ho Hno)].
    simplify_eq. split; [done|]. apply elem_of_alive_qids. by eauto. }
  constructor; try done.
  - intros c'. rw inv_ctrl_list0 /= lookup_insert. case_decide; simplify_eq; [|done]. rw Hx. naive_solver.
  - intros c' y Hy. rw /= lookup_insert in Hy. case_decide; simplify_eq; [|by apply (inv_pdev0 c')].
    destruct (inv_pdev0 _ x Hx) as (pd & ? & ?). exists pd. by rw Hpd.
  - intros g' G' [_ HG']%Hlg. by apply (inv_group0 g').
  - intros i. rw /= elem_of_difference elem_of_singleton inv_group_ida0. split.
    + intros [(g' & G' & HG' & Hi) Hne]. exists g', G'. rw Hlg. split; [|done]. split; [|done].
      intros ->. simplify_eq.
    + intros (g' & G' & [Hne HG']%Hlg & Hi). split; [by eauto|]. intros ->. destruct Hne.
      by apply (inv_group_id0 g' g G' G).
  - intros g1 g2 G1 G2 [_ H1]%Hlg [_ H2]%Hlg. exact (inv_group_id0 g1 g2 _ _ H1 H2).
  - intros o' Ox [[-> ->]|[Hne Ho]]%Hlo.
    + split; [rw /= lookup_insert_eq; by eexists|]. split; [by apply NoDup_unlink|]. split.
      { intros g' [Hin Hne]%elem_of_unlink. destruct (O3 g' Hin) as [G' HG']. exists G'. by apply Hlg. }
      assert (o_groups O = [g]) as Eg.
      { rw /NVM_MAX_GROUPS_PER_FD in O5. destruct (o_groups O) as [|a [|b l]]; simpl in O4.
        - by apply elem_of_nil in Hg. - apply list_elem_of_singleton in Hg. by subst. - lia. }
      rw /= O4 Eg /=. rw unlink_cons_eq; [|apply not_elem_of_nil]. by split_and!.
    + destruct (inv_owner0 o' Ox Ho) as (H1 & H2 & H3 & ?).
      split; [rw /= lookup_insert; by case_decide|]. split; [done|]. split; [|done].
      intros g' Hin. destruct (H3 g' Hin) as [G' HG']. exists G'. apply Hlg. split; [|done].
      intros ->. by destruct (Hgo o' Ox Ho Hne).
  - intros g' [G' [Hne HG']%Hlg]. destruct (inv_owned0 g') as (o' & Ox & Ho & Hin); [by eexists|].
    destruct (decide (o' = o)) as [->|].
    + exists o, O'. rw /= lookup_insert_eq. split; [done|]. simplify_eq. by apply elem_of_unlink.
    + exists o', Ox. by rw /= lookup_insert_ne.
  - intros o1 o2 X1 X2 g' [[-> ->]|[Hn1 H1]]%Hlo [[-> ->]|[Hn2 H2]]%Hlo; [done|..]; simpl.
    + intros [Hi1 _]%elem_of_unlink Hi2. exact (inv_owned_once0 o o2 _ _ g' HO H2 Hi1 Hi2).
    + intros Hi1 [Hi2 _]%elem_of_unlink. exact (inv_owned_once0 o1 o _ _ g' H1 HO Hi1 Hi2).
    + exact (inv_owned_once0 o1 o2 _ _ g' H1 H2).
  - intros f F o' HF Hp. destruct (inv_file0 f F o' HF Hp) as (Ox & HOx & Hcx).
    destruct (decide (o = o')) as [->|].
    + exists O'. rw /= lookup_insert_eq. by simplify_eq.
    + exists Ox. by rw /= lookup_insert_ne.
  - intros q Hq. destruct (inv_next0 q Hq) as (H1 & H2 & H3 & H4 & H5). split_and!; try done.
    + rw /= lookup_delete_None. by right.
    + rw /= lookup_insert_ne //. intros ->. congruence.
    + rw /= lookup_insert_ne //. intros ->. congruence.
  - intros c' y Hy. rw /= lookup_insert in Hy. case_decide as Ec; simplify_eq.
    + exists (U ∖ list_to_set (alive_qids (g_queues G))). split_and!; [done| |].
      * intros q. rw elem_of_difference elem_of_list_to_set HU. setoid_rewrite Hslot. split.
        -- intros [[k Hk] Hnq]. exists k. split; [done|]. intros Ek. destruct Hnq.
           by eapply Hslotg.
        -- intros (k & Hk & Hne). split; [by eauto|]. intros (i & uq & Hi & Ha & Hq)%elem_of_alive_qids.
           assert (k = (g, i)) as ->; [|done]. apply (Hinj _ _ q); [done|]. by exists o, O, G, uq.
      * intros k k' q. rw !Hslot. intros [Hk _] [Hk' _]. by apply (Hinj k k' q).
    + destruct (inv_qids0 c' y Hy) as (U' & Hwf' & HU' & Hinj'). exists U'. split_and!; [done| |].
      * intros q. rw HU'. setoid_rewrite Hslot. split; [|naive_solver]. intros [k Hk]. exists k.
        split; [done|]. intros Ek. by destruct (Hslotg c' k q Hk Ek).
      * intros k k' q. rw !Hslot. intros [Hk _] [Hk' _]. by apply (Hinj' k k' q).
Qed.

(** ** Adding queues *)

Definition put_slots (qs : list snvm_user_queue) (cur : nat) (new : list snvm_user_queue) :
    list snvm_user_queue :=
  take cur qs ++ new ++ drop (cur + length new) qs.

Lemma lookup_put_slots qs cur new i :
  (cur + length new ≤ length qs)%nat →
  put_slots qs cur new !! i =
    if decide (cur ≤ i < cur + length new)%nat then new !! (i - cur)%nat else qs !! i.
Proof.
  intros Hl. rw /put_slots. case_decide as Hi.
  - rw lookup_app_r ?length_take; [|lia]. rw lookup_app_l; [|lia]. f_equal. lia.
  - destruct (decide (i < cur)%nat).
    + rw lookup_app_l ?length_take; [|lia]. by rw lookup_take_lt.
    + rw lookup_app_r ?length_take; [|lia]. rw lookup_app_r; [|lia]. rw lookup_drop. f_equal. lia.
Qed.

Lemma length_put_slots qs cur new :
  (cur + length new ≤ length qs)%nat → length (put_slots qs cur new) = length qs.
Proof. intros. rw /put_slots !length_app length_take length_drop. lia. Qed.

Section add_queues.
Variables (s : snvm) (o g : ptr) (O : snvm_dev_owner) (G : snvm_qgroup) (x x' : ctrl) (U : gset Z).
Variables (new : list snvm_user_queue).
Hypothesis Hinv : Inv s.
Hypothesis HO : k_owners s !! o = Some O.
Hypothesis Hg : g ∈ o_groups O.
Hypothesis HG : k_groups s !! g = Some G.
Hypothesis Hx : k_ctrls s !! o_ctrl O = Some x.
Hypothesis HU : ∀ q, q ∈ U ↔ ∃ k, live_slot s (o_ctrl O) k q.
Hypothesis Hinj : ∀ k k' q, live_slot s (o_ctrl O) k q → live_slot s (o_ctrl O) k' q → k = k'.
Hypothesis Hpd : c_pdev x' = c_pdev x.
Hypothesis Hwf : pool_wf x' (U ∪ list_to_set (uq_qid <$> new)).
Hypothesis Hnd : NoDup (uq_qid <$> new).
Hypothesis Hfresh : ∀ q, q ∈ uq_qid <$> new → q ∉ U.
Hypothesis Halive : Forall (λ uq, uq_alive uq ≠ 0) new.
Hypothesis Hfit : g_cur_queues G + Z.of_nat (length new) ≤ NVM_MAX_QUEUES_PER_GROUP.

Let cur : nat := Z.to_nat (g_cur_queues G).
Let G' : snvm_qgroup := G<{g_queues := put_slots (g_queues G) cur new}>
                         <{g_cur_queues := g_cur_queues G + Z.of_nat (length new)}>.
Let s' : snvm := set_group g G' (set_ctrl (o_ctrl O) x' s).

Lemma add_queues_room : (cur + length new ≤ length (g_queues G))%nat.
Proof. destruct (inv_group s Hinv g G HG) as (H1 & _ & H3 & _). lia. Qed.

Lemma live_slot_add c k q :
  live_slot s' c k q ↔
    live_slot s c k q ∨
    (c = o_ctrl O ∧ k.1 = g ∧ (cur ≤ k.2)%nat ∧ (uq_qid <$> new) !! (k.2 - cur)%nat = Some q).
Proof.
  pose proof add_queues_room as Hroom. destruct (inv_group s Hinv g G HG) as (H1 & _ & H3 & H4 & _).
  split.
  - intros (o' & Ox & Gx & uq & Ho & Hc & Hin & HGx & Hi & Ha & Hq). rw /= lookup_insert in HGx.
    change (k_owners s !! o' = Some Ox) in Ho. case_decide as Ek; [|left; by exists o', Ox, Gx, uq]. simplify_eq.
    assert (o' = o) as -> by (by apply (inv_owned_once s Hinv o' o Ox O k.1)).
    simplify_eq. rw /= lookup_put_slots // in Hi. case_decide as Hr.
    + right. split_and!; [done..|lia|]. by rw list_lookup_fmap Hi.
    + left. by exists o, O, G, uq.
  - intros [(o' & Ox & Gx & uq & Ho & Hc & Hin & HGx & Hi & Ha & Hq)|(-> & Ek & Hk & Hq)].
    + destruct (decide (g = k.1)) as [->|]; [|by exists o', Ox, Gx, uq; rw /= lookup_insert_ne].
      simplify_eq. exists o', Ox, G', uq. rw /= lookup_insert_eq lookup_put_slots //.
      case_decide; [|done]. exfalso. apply (H4 _ _ Hi) in Ha. lia.
    + rw list_lookup_fmap in Hq. apply fmap_Some in Hq as (uq & Hi & ->).
      pose proof (lookup_lt_Some _ _ _ Hi).
      exists o, O, G', uq. rw Ek /= lookup_insert_eq lookup_put_slots // decide_True; [|lia].
      split_and!; try done. exact (Forall_lookup_1 _ _ _ _ Halive Hi).
Qed.

Lemma group_ok_add : group_ok s G'.
Proof.
  pose proof add_queues_room as Hroom.
  destruct (inv_group s Hinv g G HG) as (H1 & H2 & H3 & H4 & H5 & H6 & H7).
  split; [by rw /= length_put_slots|]. split; [done|]. split; [simpl; lia|]. split; [|done].
  intros i uq. rw /= lookup_put_slots //. case_decide.
  - intros Hi. pose proof (Forall_lookup_1 _ _ _ _ Halive Hi). simpl in *. lia.
  - intros Hi%H4. lia.
Qed.

Lemma Inv_add_queues : Inv s'.
Proof.
  pose proof Hinv as [].
  assert (∀ g' Gx, k_groups s' !! g' = Some Gx →
      ∃ Gy, k_groups s !! g' = Some Gy ∧ g_group_id Gx = g_group_id Gy) as Hlook.
  { intros g' Gx Hg'. rw /= lookup_insert in Hg'. case_decide; simplify_eq; by eauto. }
  constructor; try done.
  - intros c'. rw inv_ctrl_list0 /= lookup_insert. case_decide; simplify_eq; [|done]. rw Hx. naive_solver.
  - intros c' y Hy. rw /= lookup_insert in Hy. case_decide; simplify_eq; [|by apply (inv_pdev0 c')].
    destruct (inv_pdev0 _ x Hx) as (pd & ? & ?). exists pd. by rw Hpd.
  - intros g' Gx Hg'. rw /= lookup_insert in Hg'. case_decide; [|by apply (inv_group0 g')].
    apply (inj Some) in Hg' as <-. apply group_ok_add.
  - intros i. rw inv_group_ida0. split; intros (g' & Gx & Hg' & Hi).
    + destruct (decide (g = g')) as [->|].
      * exists g', G'. rw /= lookup_insert_eq. by simplify_eq.
      * exists g', Gx. by rw /= lookup_insert_ne.
    + apply Hlook in Hg' as (Gy & ? & E). exists g', Gy. by rw -E.
  - intros g1 g2 G1 G2 (X1 & HX1 & E1)%Hlook (X2 & HX2 & E2)%Hlook. rw E1 E2.
    exact (inv_group_id0 g1 g2 X1 X2 HX1 HX2).
  - intros o' Ox Ho. destruct (inv_owner0 o' Ox Ho) as (H1 & H2 & H3 & ?).
    split; [rw /= lookup_insert; by case_decide|]. split; [done|].
    split; [|done]. intros g' Hin. rw /= lookup_insert. case_decide; [done|]. by apply H3.
  - intros g' [Gx (Gy & ? & _)%Hlook]. apply inv_owned0. by eexists.
  - intros q Hq. destruct (inv_next0 q Hq) as (H1 & H2 & H3 & H4 & H5). split_and!; try done.
    + rw /= lookup_insert_ne //. intros ?. congruence.
    + rw /= lookup_insert_ne //. intros ?. congruence.
  - intros c' y Hy. rw /= lookup_insert in Hy.
    case_decide as Ec; [rw -Ec; apply (inj Some) in Hy as <-|].
    + exists (U ∪ list_to_set (uq_qid <$> new)). split_and!; [done| |].
      * intros q. rw elem_of_union elem_of_list_to_set HU. setoid_rewrite live_slot_add. split.
        -- intros [[k Hk]|[i Hi]%list_elem_of_lookup]; [by eauto|]. exists (g, (cur + i)%nat). right.
           simpl. split_and!; [done..|lia|]. by replace (cur + i - cur)%nat with i by lia.
        -- intros [k [Hk|(_ & _ & _ & Hq)]]; [by eauto|]. right. by eapply list_elem_of_lookup_2.
      * intros k k' q. rw !live_slot_add.
        intros [Hk|(_ & Ek & Hk & Hq)] [Hk'|(_ & Ek' & Hk' & Hq')].
        -- by apply (Hinj k k' q).
        -- destruct (Hfresh q); [by eapply list_elem_of_lookup_2|]. apply HU. by eauto.
        -- destruct (Hfresh q); [by eapply list_elem_of_lookup_2|]. apply HU. by eauto.
        -- pose proof (NoDup_lookup _ _ _ _ Hnd Hq Hq'). destruct k, k'; simpl in *. subst. f_equal. lia.
    + destruct (inv_qids0 c' y Hy) as (U' & Hwf' & HU' & Hinj'). exists U'. split_and!; [done| |].
      * intros q. rw HU'. setoid_rewrite live_slot_add. naive_solver.
      * intros k k' q. rw !live_slot_add.
        intros [Hk|(? & _)] [Hk'|(? & _)]; [by apply (Hinj' k k' q)|congruence..].
Qed.
End add_queues.

(** ** Opening and closing files *)

Definition set_file (f : ptr) (F : file) (s : snvm) : snvm := s<{k_files ::= <[f := F]>}>.
#[export] Instance framed_set_file f F : Framed (set_file f F).
Proof. done. Qed.
Definition drop_owner (o : ptr) (s : snvm) : snvm := s<{k_owners ::= delete o}>.
#[export] Instance framed_drop_owner o : Framed (drop_owner o).
Proof. done. Qed.

Lemma Inv_open f F task s :
  Inv s → k_files s !! f = Some F → f_private F = None → is_Some (k_ctrls s !! f_cdev F) →
  Inv (set_file f F<{f_private := Some (k_next s)}>
        (set_owner (k_next s) (DevOwner (f_cdev F) task [] 0 [] 0) (bump s))).
Proof.
  intros H HF HFp Hc. pose proof H as []. set (p := k_next s).
  destruct (inv_next0 p ltac:(lia)) as (_ & _ & Hpo & _).
  set (O := DevOwner (f_cdev F) task [] 0 [] 0). set (s' := set_file f _ _).
  assert (∀ o Ox, k_owners s' !! o = Some Ox → (o = p ∧ Ox = O) ∨ (o ≠ p ∧ k_owners s !! o = Some Ox))
    as Hlo.
  { intros o Ox Ho. rw /= lookup_insert in Ho. case_decide; simplify_eq; auto. }
  assert (∀ o, is_Some (k_owners s !! o) → k_owners s' !! o = k_owners s !! o) as Hold.
  { intros o [Ox Ho]. rw /= lookup_insert_ne //. congruence. }
  assert (∀ f' F' o, k_files s' !! f' = Some F' → f_private F' = Some o →
    (f' = f ∧ o = p ∧ f_cdev F' = f_cdev F) ∨ (k_files s !! f' = Some F')) as Hlf.
  { intros f' F' o HF' Hp'. rw /= lookup_insert in HF'. case_decide; simplify_eq/=; auto. }
  assert (∀ c k q, live_slot s' c k q ↔ live_slot s c k q) as Hslot.
  { intros c k q. split.
    - intros (o & Ox & G & uq & [[-> ->]|[_ Ho]]%Hlo & Hc' & Hin & Hrest); [by apply elem_of_nil in Hin|].
      by exists o, Ox, G, uq.
    - intros (o & Ox & G & uq & Ho & Hrest). exists o, Ox, G, uq. by rw Hold. }
  constructor; try done.
  - intros o Ox [[-> ->]|[_ Ho]]%Hlo; [|by apply (inv_owner0 o)].
    split; [done|]. split; [constructor|]. split; [by intros g ?%elem_of_nil|].
    do 2 (split; [done|]). split; [constructor|by intros g ?%elem_of_nil].
  - intros g (o & Ox & Ho & Hg)%inv_owned0. exists o, Ox. by rw Hold.
  - intros o o' Ox Ox' g [[-> ->]|[_ Ho]]%Hlo [[-> ->]|[_ Ho']]%Hlo; [done|..].
    + by intros ?%elem_of_nil.
    + by intros _ ?%elem_of_nil.
    + exact (inv_owned_once0 o o' _ _ g Ho Ho').
  - intros f' F' o HF' Hp'. destruct (Hlf f' F' o HF' Hp') as [(-> & -> & E)|HF''].
    + exists O. by rw /= lookup_insert_eq E.
    + destruct (inv_file0 f' F' o HF'' Hp') as (Ox & Ho & ?). exists Ox. by rw Hold.
  - intros f1 f2 F1 F2 o H1 H2 Hp1 Hp2.
    destruct (Hlf f1 F1 o H1 Hp1) as [(-> & Eo & _)|H1'], (Hlf f2 F2 o H2 Hp2) as [(-> & Eo' & _)|H2'].
    + done.
    + destruct (inv_file0 f2 F2 o H2' Hp2) as (Ox & Ho & _). congruence.
    + destruct (inv_file0 f1 F1 o H1' Hp1) as (Ox & Ho & _). congruence.
    + exact (inv_file_once0 f1 f2 F1 F2 o H1' H2' Hp1 Hp2).
  - intros q Hq. simpl in Hq. destruct (inv_next0 q) as (H1 & H2 & H3 & H4 & H5); [unfold p in *; lia|].
    split_and!; try done. rw /= lookup_insert_ne //. unfold p. lia.
  - intros c' x Hx. destruct (inv_qids0 c' x Hx) as (U & Hwf & HU & Hinj). exists U.
    split_and!; [done| |].
    + intros q. rw HU. by setoid_rewrite Hslot.
    + intros k k' q. rw !Hslot. apply Hinj.
Qed.

Lemma Inv_close f F o O s :
  Inv s → k_files s !! f = Some F → f_private F = Some o → k_owners s !! o = Some O →
  o_groups O = [] → Inv (set_file f F<{f_private := None}> (drop_owner o s)).
Proof.
  intros H HF HFp HO Hg. pose proof H as []. set (s' := set_file f _ _).
  assert (∀ o' Ox, k_owners s' !! o' = Some Ox ↔ o' ≠ o ∧ k_owners s !! o' = Some Ox) as Hlo.
  { intros o' Ox. rw /= lookup_delete_Some. naive_solver. }
  assert (∀ f' F' o', k_files s' !! f' = Some F' → f_private F' = Some o' →
    f' ≠ f ∧ k_files s !! f' = Some F') as Hlf.
  { intros f' F' o' HF' Hp'. rw /= lookup_insert in HF'. case_decide; simplify_eq/=; auto. }
  assert (∀ c k q, live_slot s' c k q ↔ live_slot s c k q) as Hslot.
  { intros c k q. split.
    - intros (o' & Ox & G & uq & [_ Ho]%Hlo & Hrest). by exists o', Ox, G, uq.
    - intros (o' & Ox & G & uq & Ho & Hc & Hin & Hrest). exists o', Ox, G, uq. rw Hlo.
      split; [|done]. split; [|done]. intros ->. simplify_eq. rw Hg in Hin. by apply elem_of_nil in Hin. }
  constructor; try done.
  - intros o' Ox [_ Ho]%Hlo. by apply (inv_owner0 o').
  - intros g (o' & Ox & Ho & Hin)%inv_owned0. exists o', Ox. rw Hlo. split; [|done]. split; [|done].
    intros ->. simplify_eq. rw Hg in Hin. by apply elem_of_nil in Hin.
  - intros o1 o2 O1 O2 g [_ H1]%Hlo [_ H2]%Hlo. exact (inv_owned_once0 o1 o2 _ _ g H1 H2).
  - intros f' F' o' HF' Hp'. destruct (Hlf f' F' o' HF' Hp') as [Hne HF''].
    destruct (inv_file0 f' F' o' HF'' Hp') as (Ox & Ho & ?). exists Ox. rw Hlo. split; [|done].
    split; [|done]. intros ->. destruct Hne. by apply (inv_file_once0 f' f F' F o).
  - intros f1 f2 F1 F2 o' H1 H2 Hp1 Hp2.
    destruct (Hlf f1 F1 o' H1 Hp1) as [_ H1'], (Hlf f2 F2 o' H2 Hp2) as [_ H2'].
    exact (inv_file_once0 f1 f2 F1 F2 o' H1' H2' Hp1 Hp2).
  - intros q Hq. destruct (inv_next0 q Hq) as (H1 & H2 & H3 & H4 & H5). split_and!; try done.
    rw /= lookup_delete_None. by right.
  - intros c' x Hx. destruct (inv_qids0 c' x Hx) as (U & Hwf & HU & Hinj). exists U.
    split_and!; [done| |].
    + intros q. rw HU. by setoid_rewrite Hslot.
    + intros k k' q. rw !Hslot. apply Hinj.
Qed.
