(* ===== verification/DevIoctl.v ===== *)
(** * The ioctls of /dev/ssnvme<N> (pci.c)

    One definition per case of [snvm_dev_map_ioctl].  The payload is an argument;
    whether it can be copied in is asked of the environment, and what is copied
    out is recorded in the log.  [c] is the controller the dispatcher found for
    the file [f].  Mutexes are left out: a handler runs to completion. *)
From S2P Require Import Prelude KState P2p Ctrl Map QidPool QGroup.

Definition NVME_REG_DBS : Z := 0x1000.

Section dev_ioctl.
Context `{!kenv, !P2pBackend}.
Variable current : ptr.

Definition copy_from_user : K snvm bool := ask env_copy_from.
Definition copy_to_user (o : user_out) : K snvm bool :=
  ok ← ask env_copy_to; when ok (emit (EvCopyOut o));; mret ok.

(** [copy_to_user(request.ioaddrs, map->addrs, map->n_addrs * 8)]; reading past
    the end of the array is a fault. *)
Definition copy_addrs_to_user (p : ptr) : K snvm bool :=
  m ← load (V:=map) p;
  let n := Z.to_nat (m_n_addrs m) in
  if (length (m_addrs m) <? n)%nat then fault else
  copy_to_user (OutAddrs (take n (m_addrs m))).

(** ** Counters *)

Definition ctrl_account (c : ptr) (is_cq : Z) : K snvm unit :=
  alter_obj c (λ x : ctrl, x<{c_ioq_map_num := u32 (c_ioq_map_num x + 1)}>
    <{c_cq_num ::= λ n, if c_true is_cq then u32 (n + 1) else n}>).
Definition ctrl_unaccount (c : ptr) (is_cq : Z) : K snvm unit :=
  alter_obj c (λ x : ctrl, x<{c_cq_num ::= λ n, if c_true is_cq then u32 (n - 1) else n}>
    <{c_ioq_map_num := u32 (c_ioq_map_num x - 1)}>).
(** [if (n > 0) n--]. *)
Definition dec_guarded (n : Z) : Z := if 0 <? n then n - 1 else n.

(** ** NVM_MAP_HOST_MEMORY and NVM_MAP_DEVICE_MEMORY *)

Definition map_req_bad (rq : nvm_ioctl_map) : bool :=
  existsb (λ x, negb (x =? 0)) (rq_reserved0 rq) ||
  (NVM_MAP_KIND_DATA <? rq_map_kind rq) ||
  (((rq_map_kind rq =? NVM_MAP_KIND_RING_SQ) || (rq_map_kind rq =? NVM_MAP_KIND_RING_CQ)) &&
   (rq_group_id rq =? 0)).

(** Put a new map on the file's list of data buffers. *)
Definition attach_data (f p : ptr) : K snvm Z :=
  file ← load (V:=file) f;
  match f_private file with
  | None => unmap_and_release p;; mret (- ENODEV)
  | Some o =>
    alter_obj o (λ x : snvm_dev_owner, x<{o_data_maps := o_data_maps x ++ [p] }>
                   <{o_nr_data_maps := u32 (o_nr_data_maps x + 1)}>);;
    mret 0
  end.

(** Put a new map on the list of the file's group [group_id]. *)
Definition attach_group (f p : ptr) (group_id : Z) : K snvm Z :=
  file ← load (V:=file) f;
  match f_private file with
  | None => unmap_and_release p;; mret (- ENODEV)
  | Some o =>
    og ← find_qgroup_locked o group_id;
    match og with
    | None => unmap_and_release p;; mret (- ENOENT)
    | Some g =>
      alter_obj p (λ m : map, m<{m_group_id := group_id}>);;
      alter_obj g (λ x : snvm_qgroup, x<{g_maps := g_maps x ++ [p] }>
                     <{g_nr_maps := u32 (g_nr_maps x + 1)}>);;
      mret 0
    end
  end.

(** Count a new ring against the controller's budget. *)
Definition account_ioq (c p : ptr) (rq : nvm_ioctl_map) : K snvm Z :=
  ctrl ← load (V:=ctrl) c;
  if c_ioq_num ctrl <? u32 (c_ioq_map_num ctrl + 1) then
    unmap_and_release p;; mret (- EFAULT)
  else
    alter_obj p (λ m : map, m<{m_ioq_idx := rq_ioq_idx rq}><{m_is_cq := rq_is_cq rq}>);;
    ctrl_account c (rq_is_cq rq);;
    mret 0.

Definition unattach_data (f : ptr) : K snvm unit :=
  file ← load (V:=file) f;
  match f_private file with
  | None => mret tt
  | Some o => alter_obj o (λ x : snvm_dev_owner, x<{o_nr_data_maps ::= dec_guarded}>)
  end.
Definition unattach_group (f : ptr) (group_id : Z) : K snvm unit :=
  file ← load (V:=file) f;
  match f_private file with
  | None => mret tt
  | Some o =>
    og ← find_qgroup_locked o group_id;
    match og with
    | None => mret tt
    | Some g => alter_obj g (λ x : snvm_qgroup, x<{g_nr_maps := u32 (g_nr_maps x - 1)}>)
    end
  end.

(** Where a new host map goes, and how that is undone when the addresses cannot
    be copied out. *)
Definition map_host_attach (f c p : ptr) (rq : nvm_ioctl_map) : K snvm Z :=
  if rq_map_kind rq =? NVM_MAP_KIND_DATA then attach_data f p
  else if negb (rq_group_id rq =? 0) then attach_group f p (rq_group_id rq)
  else if 0 <=? rq_ioq_idx rq then account_ioq c p rq
  else mret 0.
Definition map_host_rollback (f c p : ptr) (rq : nvm_ioctl_map) : K snvm unit :=
  if rq_map_kind rq =? NVM_MAP_KIND_DATA then unattach_data f
  else if negb (rq_group_id rq =? 0) then unattach_group f (rq_group_id rq)
  else if 0 <=? rq_ioq_idx rq then m ← load (V:=map) p; ctrl_unaccount c (m_is_cq m)
  else mret tt.

Definition nvm_map_host_memory (f c : ptr) (rq : nvm_ioctl_map) : K snvm Z :=
  ok ← copy_from_user;
  if negb ok then mret (- EFAULT) else
  if map_req_bad rq then mret (- EINVAL) else
  r ← map_userspace current HostList c (rq_vaddr_start rq) (rq_n_pages rq);
  match r with
  | inl e => mret e
  | inr p =>
    alter_obj p (λ m : map, m<{m_kind := rq_map_kind rq}>);;
    err ← map_host_attach f c p rq;
    if c_true err then mret err else
    ok ← copy_addrs_to_user p;
    if (ok : bool) then mret 0 else
    map_host_rollback f c p rq;;
    unmap_and_release p;;
    mret (- EFAULT)
  end.

Definition map_device_attach (f p : ptr) (rq : nvm_ioctl_map) : K snvm Z :=
  if rq_map_kind rq =? NVM_MAP_KIND_DATA then attach_data f p
  else if negb (rq_group_id rq =? 0) then attach_group f p (rq_group_id rq)
  else mret 0.
Definition map_device_rollback (f : ptr) (rq : nvm_ioctl_map) : K snvm unit :=
  if rq_map_kind rq =? NVM_MAP_KIND_DATA then unattach_data f
  else if negb (rq_group_id rq =? 0) then unattach_group f (rq_group_id rq)
  else mret tt.

Definition nvm_map_device_memory (f c : ptr) (rq : nvm_ioctl_map) : K snvm Z :=
  ok ← copy_from_user;
  if negb ok then mret (- EFAULT) else
  if map_req_bad rq then mret (- EINVAL) else
  r ← map_device_memory current DeviceList c (rq_vaddr_start rq) (rq_n_pages rq);
  match r with
  | inl e => mret e
  | inr p =>
    alter_obj p (λ m : map, m<{m_kind := rq_map_kind rq}>);;
    err ← map_device_attach f p rq;
    if c_true err then mret err else
    ok ← copy_addrs_to_user p;
    if (ok : bool) then mret 0 else
    map_device_rollback f rq;;
    unmap_and_release p;;
    mret (- EFAULT)
  end.

Definition nvm_map_device_queue_memory (c : ptr) (rq : nvm_ioctl_map) : K snvm Z :=
  ok ← copy_from_user;
  if negb ok then mret (- EFAULT) else
  if rq_ioq_idx rq <? 0 then mret (- EFAULT) else
  r ← map_device_ioqueue_memory current DeviceQueueList c (rq_vaddr_start rq) (rq_n_pages rq);
  match r with
  | inl e => mret e
  | inr p =>
    err ← account_ioq c p rq;
    if c_true err then mret err else
    ok ← copy_addrs_to_user p;
    if (ok : bool) then mret 0 else
    m ← load (V:=map) p;
    ctrl_unaccount c (m_is_cq m);;
    unmap_and_release p;;
    mret (- EFAULT)
  end.

(** ** NVM_UNMAP_* *)

(** The bookkeeping for a map that leaves a file or a group. *)
Definition unmap_counters (f : ptr) (m : map) : K snvm unit :=
  file ← load (V:=file) f;
  match f_private file with
  | None => mret tt
  | Some o =>
    if m_kind m =? NVM_MAP_KIND_DATA then
      alter_obj o (λ x : snvm_dev_owner, x<{o_nr_data_maps ::= dec_guarded}>)
    else if m_group_id m =? 0 then mret tt else
    og ← find_qgroup_locked o (m_group_id m);
    match og with
    | None => mret tt
    | Some g => alter_obj g (λ x : snvm_qgroup, x<{g_nr_maps ::= dec_guarded}>)
    end
  end.

Definition nvm_unmap_host_memory (f c : ptr) (addr : Z) : K snvm Z :=
  ok ← copy_from_user;
  if negb ok then mret (- EFAULT) else
  om ← map_find current HostList addr;
  match om with
  | None => mret (- EINVAL)
  | Some p =>
    m ← load (V:=map) p;
    when (0 <=? m_ioq_idx m) (ctrl_unaccount c (m_is_cq m));;
    unmap_counters f m;;
    unmap_and_release p;;
    mret 0
  end.

Definition nvm_unmap_device_memory (f : ptr) (addr : Z) : K snvm Z :=
  ok ← copy_from_user;
  if negb ok then mret (- EFAULT) else
  om ← map_find current DeviceList addr;
  match om with
  | None => mret (- EINVAL)
  | Some p =>
    m ← load (V:=map) p;
    unmap_counters f m;;
    unmap_and_release p;;
    mret 0
  end.

Definition nvm_unmap_device_queue_memory (c : ptr) (addr : Z) : K snvm Z :=
  ok ← copy_from_user;
  if negb ok then mret (- EFAULT) else
  om ← map_find current DeviceQueueList addr;
  match om with
  | None => mret (- EINVAL)
  | Some p =>
    m ← load (V:=map) p;
    when (0 <=? m_ioq_idx m) (ctrl_unaccount c (m_is_cq m));;
    unmap_and_release p;;
    mret 0
  end.

(** ** The queue budget *)

(** The loop over the groups: [None] when a reserved field is set, else the sum
    of the counts in 32 bits. *)
Fixpoint groups_sum (gs : list nvm_queue_group) (sum : Z) : option Z :=
  match gs with
  | [] => Some sum
  | g :: gs => if c_true (qg_reserved g) then None else groups_sum gs (u32 (sum + qg_count g))
  end.

Definition setup_ok (x : ctrl) (su : nvm_ioctl_setup) : bool :=
  negb (su_ioq_num su =? 0) &&
  negb (c_true (c_ioq_num x) && (c_ioq_num x <? su_ioq_num su)) &&
  negb (existsb c_true (su_reserved su)) &&
  negb (SNVM_MAX_QUEUE_GROUPS <? su_nr_groups su) &&
  ((su_nr_groups su =? 0) ||
   match groups_sum (take (Z.to_nat (su_nr_groups su)) (su_groups su)) 0 with
   | Some sum => sum =? su_ioq_num su
   | None => false
   end).

Definition commit_setup (x : ctrl) (su : nvm_ioctl_setup) : ctrl :=
  let n := Z.to_nat (su_nr_groups su) in
  x<{c_ioq_num := su_ioq_num su}>
      <{c_on_host := c_bool (c_true (Z.land (su_flags su) NVM_QUEUE_SETUP_F_ON_HOST))}>
      <{c_setup := QueueSetup 1 (su_ioq_num su) (su_flags su) (su_cap_kernel_ioq su)
          (su_nr_write su) (su_nr_poll su) (su_nr_groups su)
          (((λ g, NvmQueueGroup (qg_owner_id g) (qg_count g) (qg_numa_node g) 0)
              <$> take n (su_groups su)) ++ drop n (qs_groups (c_setup x)))}>.

Definition nvm_set_ioq_num (c : ptr) (su : nvm_ioctl_setup) : K snvm Z :=
  ok ← copy_from_user;
  if negb ok then mret (- EFAULT) else
  ctrl ← load (V:=ctrl) c;
  if negb (setup_ok ctrl su) then mret (- EINVAL) else
  store c (commit_setup ctrl su);;
  mret 0.

Definition nvm_set_share_reg (c : ptr) (rq : nvm_ioctl_map) : K snvm Z :=
  ok ← copy_from_user;
  if negb ok then mret (- EFAULT) else
  alter_obj c (λ x : ctrl, x<{c_use_sreg := u32 (rq_ioq_idx rq)}>);;
  mret 0.

Definition nvm_clear_ioq_num (c : ptr) : K snvm Z :=
  alter_obj c (λ x : ctrl, x<{c_ioq_map_num := 0}><{c_cq_num := 0}>);;
  mret 0.

Definition nvm_set_kernel_ioq_cap (c : ptr) (cap : Z) : K snvm Z :=
  ok ← copy_from_user;
  if negb ok then mret (- EFAULT) else
  alter_obj c (λ x : ctrl, x<{c_setup ::= λ q, q<{qs_cap_kernel_ioq := cap}><{qs_valid := 1}>}>);;
  mret 0.

(** ** NVM_GET_DEV_INFO *)

(** The wait for namespace 1: look it up, sleep 50 ms while less than 5 s have
    passed.  [fuel] bounds the number of lookups. *)
Fixpoint ns_wait (fuel : nat) (d : ptr) (wait_ms : Z) : K snvm (option (string * Z)) :=
  match fuel with
  | O => fault
  | S fuel =>
    ns ← ask (λ t, env_find_ns t d);
    match ns with
    | Some _ => mret ns
    | None => if wait_ms <? 5000 then ns_wait fuel d (wait_ms + 50) else mret None
    end
  end.
Definition find_ns (d : ptr) : K snvm (option (string * Z)) :=
  ns ← ask (λ t, env_find_ns t d);
  match ns with
  | Some _ => mret ns
  | None => ns_wait 101 d 0
  end.

Definition dev_info (pd : pci_dev) (nd : nvme_dev) (disk_name : string) (lba_shift : Z) :
    nvm_ioctl_dev :=
  NvmIoctlDev (nd_nr_user_use_cq nd)
    (if c_true (nd_user_start_qid nd) then nd_user_start_qid nd else nd_online_queues nd)
    (u8 (nd_db_stride nd)) (u64 (Z.shiftl (nd_max_hw_sectors nd) 9)) (Z.shiftl 1 lba_shift)
    disk_name (u16 (nd_q_depth nd)) (u32 (pd_bar0_len pd)) (nd_ctrl_max_io_queues nd)
    NVM_MAX_QUEUES_PER_GROUP (u32 (nd_sgls nd)).

Definition nvm_get_dev_info (c : ptr) : K snvm Z :=
  ctrl ← load (V:=ctrl) c;
  pd ← load (V:=pci_dev) (c_pdev ctrl);
  match pd_drvdata pd with
  | None => mret (- EFAULT)
  | Some d =>
    nd ← load (V:=nvme_dev) d;
    ns ← find_ns d;
    match ns with
    | None => mret (- EFAULT)
    | Some (disk_name, lba_shift) =>
      ok ← copy_to_user (OutDev (dev_info pd nd disk_name lba_shift));
      mret (if (ok : bool) then 0 else - EFAULT)
    end
  end.

(** ** Queue groups *)

Definition empty_queue : snvm_user_queue := UserQueue 0 0 0 0.

Definition nvm_create_queue_group (f c : ptr) (rq : nvm_ioctl_queue_group) : K snvm Z :=
  file ← load (V:=file) f;
  match f_private file with
  | None => mret (- ENODEV)
  | Some o =>
    ok ← copy_from_user;
    if negb ok then mret (- EFAULT) else
    if c_true (cg_flags rq) then mret (- EINVAL) else
    if existsb c_true (cg_reserved rq) then mret (- EINVAL) else
    own ← load (V:=snvm_dev_owner) o;
    if NVM_MAX_GROUPS_PER_FD <=? o_nr_groups own then mret (- EBUSY) else
    a ← ask env_alloc;
    if negb a then mret (- ENOMEM) else
    ida ← gets k_group_ida;
    new_id ← ask (λ t, env_ida t ida 1);
    if new_id <? 0 then mret new_id else
    modify (λ s, s<{k_group_ida := {[new_id]} ∪ k_group_ida s}>);;
    g ← create (Qgroup (u32 new_id) NVM_MAX_QUEUES_PER_GROUP [] 0
                  (replicate (Z.to_nat NVM_MAX_QUEUES_PER_GROUP) empty_queue) 0);
    store o own<{o_groups := o_groups own ++ [g] }><{o_nr_groups := u32 (o_nr_groups own + 1)}>;;
    ok ← copy_to_user (OutGroup (NvmIoctlQueueGroup (u32 new_id) (cg_flags rq)
                                   NVM_MAX_QUEUES_PER_GROUP (cg_reserved rq)));
    if (ok : bool) then mret 0 else
    alter_obj o (λ x : snvm_dev_owner, x<{o_groups ::= unlink g}>
                   <{o_nr_groups := u32 (o_nr_groups x - 1)}>);;
    destroy_qgroup_locked g (Some c);;
    mret (- EFAULT)
  end.

Definition nvm_destroy_queue_group (f c : ptr) (group_id : Z) : K snvm Z :=
  file ← load (V:=file) f;
  match f_private file with
  | None => mret (- ENODEV)
  | Some o =>
    ok ← copy_from_user;
    if negb ok then mret (- EFAULT) else
    if group_id =? 0 then mret (- EINVAL) else
    og ← find_qgroup_locked o group_id;
    match og with
    | None => mret (- ENOENT)
    | Some g =>
      alter_obj o (λ x : snvm_dev_owner, x<{o_groups ::= unlink g}>
                     <{o_nr_groups := u32 (o_nr_groups x - 1)}>);;
      destroy_qgroup_locked g (Some c);;
      mret 0
    end
  end.

(** ** NVM_ADD_USER_QUEUE *)

(** A pair is refused when an address is 0, when the two are equal, or when one
    repeats an earlier pair. *)
Definition pair_bad (prev : list nvm_user_queue_pair_in) (p : nvm_user_queue_pair_in) : bool :=
  (pi_sq_vaddr p =? 0) || (pi_cq_vaddr p =? 0) || (pi_sq_vaddr p =? pi_cq_vaddr p) ||
  existsb (λ q, (pi_sq_vaddr p =? pi_sq_vaddr q) || (pi_cq_vaddr p =? pi_cq_vaddr q)) prev.
Fixpoint pairs_ok (prev ps : list nvm_user_queue_pair_in) : bool :=
  match ps with
  | [] => true
  | p :: ps => negb (pair_bad prev p) && pairs_ok (prev ++ [p]) ps
  end.

(** The pairs of a request: the first [nr_pairs] of the array. *)
Definition req_pairs (rq : nvm_ioctl_add_user_queue) : list nvm_user_queue_pair_in :=
  take (Z.to_nat (aq_nr_pairs rq)) (aq_pairs rq).
Definition add_req_ok (rq : nvm_ioctl_add_user_queue) : bool :=
  negb (c_true (aq_flags rq)) && negb (existsb c_true (aq_reserved rq)) &&
  negb ((aq_nr_pairs rq =? 0) || (NVM_MAX_QUEUES_PER_GROUP <? aq_nr_pairs rq)) &&
  pairs_ok [] (req_pairs rq).

(** Does the map [m] hold the ring at [vaddr], given the kind such a ring has? *)
Definition ring_matches (kind vaddr : Z) (m : map) : bool :=
  let sz := if c_true (m_page_size m) then m_page_size m else PAGE_SIZE in
  (m_vaddr m =? page_align sz vaddr) && ((m_kind m =? 0) || (m_kind m =? kind)).

(** The walk over the group's maps for one pair, with what was found so far. *)
Fixpoint resolve_walk (pr : nvm_user_queue_pair_in) (maps : list ptr) (m_sq m_cq : option ptr) :
    K snvm (option ptr * option ptr) :=
  match maps with
  | [] => mret (m_sq, m_cq)
  | cursor :: maps =>
    m ← load (V:=map) cursor;
    if m_kind m =? NVM_MAP_KIND_DATA then resolve_walk pr maps m_sq m_cq else
    let m_sq := if ring_matches NVM_MAP_KIND_RING_SQ (pi_sq_vaddr pr) m then Some cursor else m_sq in
    let m_cq := if ring_matches NVM_MAP_KIND_RING_CQ (pi_cq_vaddr pr) m then Some cursor else m_cq in
    match m_sq, m_cq with
    | Some _, Some _ => mret (m_sq, m_cq)
    | _, _ => resolve_walk pr maps m_sq m_cq
    end
  end.

(** The maps of every pair, or [None] when one is missing. *)
Fixpoint resolve_pairs (maps : list ptr) (prs : list nvm_user_queue_pair_in) :
    K snvm (option (list (ptr * ptr))) :=
  match prs with
  | [] => mret (Some [])
  | pr :: prs =>
    r ← resolve_walk pr maps None None;
    match r with
    | (Some m_sq, Some m_cq) =>
      rs ← resolve_pairs maps prs;
      mret (cons (m_sq, m_cq) <$> rs)
    | _ => mret None
    end
  end.

(** Create the queues: the first error and how many pairs were created. *)
Fixpoint create_queues (d : ptr) (l : list (ptr * ptr * Z)) (created : nat) : K snvm (Z * nat) :=
  match l with
  | [] => mret (0, created)
  | (sq_map, cq_map, qid) :: l =>
    rc ← adapter_alloc_cq_user d cq_map qid;
    if c_true rc then mret (rc, created) else
    rc ← adapter_alloc_sq_user d sq_map qid;
    if c_true rc then _ ← adapter_delete_cq d qid; mret (rc, created) else
    create_queues d l (S created)
  end.

(** The rollback label: delete what was created, last pair first, and give the
    ids back. *)
Definition delete_pair (d : ptr) (qid : Z) : K snvm unit :=
  _ ← adapter_delete_sq d qid; _ ← adapter_delete_cq d qid; mret tt.
Definition add_rollback (c d : ptr) (qids : list Z) (created : nat) : K snvm unit :=
  kfor (delete_pair d) (reverse (take created qids));;
  kfor (snvm_user_qid_free_locked c) qids.

(** Doorbell registers of queue [qid], as byte offsets into BAR 0. *)
Definition sq_doorbell (db_stride qid : Z) : Z := u32 (NVME_REG_DBS + qid * 2 * db_stride * 4).
Definition cq_doorbell (db_stride qid : Z) : Z := u32 (NVME_REG_DBS + (qid * 2 + 1) * db_stride * 4).
Definition pair_out (nd : nvme_dev) (qid : Z) : nvm_user_queue_pair_out :=
  PairOut (sq_doorbell (nd_db_stride nd) qid) (cq_doorbell (nd_db_stride nd) qid) qid.

(** Record the new queues in the slots from [i] on. *)
Fixpoint commit_queues (g : ptr) (i : nat) (l : list (nvm_user_queue_pair_in * Z)) : K snvm unit :=
  match l with
  | [] => mret tt
  | (pr, qid) :: l =>
    grp ← load (V:=snvm_qgroup) g;
    _ ← from_option_k (g_queues grp !! i);
    store g grp<{g_queues := <[i := UserQueue qid 1 (pi_sq_vaddr pr) (pi_cq_vaddr pr)]> (g_queues grp)}>;;
    commit_queues g (S i) l
  end.

(** Revert slot [i] after a failed copy to user space. *)
Definition uncommit_queue (g c d : ptr) (i : nat) : K snvm unit :=
  grp ← load (V:=snvm_qgroup) g;
  uq ← from_option_k (g_queues grp !! i);
  _ ← adapter_delete_sq d (uq_qid uq);
  _ ← adapter_delete_cq d (uq_qid uq);
  store g grp<{g_queues := <[i := uq<{uq_alive := 0}>]> (g_queues grp)}>;;
  snvm_user_qid_free_locked c (uq_qid uq).

(** Record the created queues and report them; when the report cannot be copied
    out, delete them again. *)
Definition add_commit (c d g : ptr) (nd : nvme_dev) (rq : nvm_ioctl_add_user_queue)
    (qids : list Z) : K snvm Z :=
  grp ← load (V:=snvm_qgroup) g;
  let cur := Z.to_nat (g_cur_queues grp) in
  commit_queues g cur (zip (req_pairs rq) qids);;
  alter_obj g (λ x : snvm_qgroup, x<{g_cur_queues := u32 (g_cur_queues x + aq_nr_pairs rq)}>);;
  ok ← copy_to_user (OutPairs (pair_out nd <$> qids));
  if (ok : bool) then mret 0 else
  kfor (uncommit_queue g c d) (seq cur (Z.to_nat (aq_nr_pairs rq)));;
  alter_obj g (λ x : snvm_qgroup, x<{g_cur_queues := u32 (g_cur_queues x - aq_nr_pairs rq)}>);;
  mret (- EFAULT).

(** The second half of the handler, once the group [g] and the maps are known. *)
Definition add_queues (c d g : ptr) (rq : nvm_ioctl_add_user_queue) (rings : list (ptr * ptr)) :
    K snvm Z :=
  nd ← load (V:=nvme_dev) d;
  rc ← snvm_user_qid_pool_init_locked c (Some nd);
  if c_true rc then mret rc else
  r ← snvm_user_qid_alloc_locked c (aq_nr_pairs rq);
  if c_true r.1 then mret r.1 else
  let qids := r.2 in
  r ← create_queues d (zip rings qids) 0;
  if c_true r.1 then add_rollback c d qids r.2;; mret r.1 else
  add_commit c d g nd rq qids.

Definition nvm_add_user_queue (f c : ptr) (rq : nvm_ioctl_add_user_queue) : K snvm Z :=
  file ← load (V:=file) f;
  match f_private file with
  | None => mret (- ENODEV)
  | Some o =>
    a ← ask env_alloc;
    if negb a then mret (- ENOMEM) else
    ok ← copy_from_user;
    if negb ok then mret (- EFAULT) else
    if negb (add_req_ok rq) then mret (- EINVAL) else
    ond ← snvm_ctrl_get_live_ndev (Some c);
    match ond with
    | None => mret (- ENODEV)
    | Some d =>
      og ← find_qgroup_locked o (aq_group_id rq);
      match og with
      | None => mret (- ENOENT)
      | Some g =>
        grp ← load (V:=snvm_qgroup) g;
        if g_max_queues grp <? u32 (g_cur_queues grp + aq_nr_pairs rq) then mret (- EBUSY) else
        rs ← resolve_pairs (g_maps grp) (req_pairs rq);
        match rs with
        | None => mret (- ENOENT)
        | Some rings => add_queues c d g rq rings
        end
      end
    end
  end.

(** ** The dispatcher *)

(** A command with its payload. *)
Inductive dev_cmd :=
| NVM_MAP_HOST_MEMORY (rq : nvm_ioctl_map)
| NVM_MAP_DEVICE_MEMORY (rq : nvm_ioctl_map)
| NVM_MAP_DEVICE_QUEUE_MEMORY (rq : nvm_ioctl_map)
| NVM_UNMAP_HOST_MEMORY (addr : Z)
| NVM_UNMAP_DEVICE_MEMORY (addr : Z)
| NVM_UNMAP_DEVICE_QUEUE_MEMORY (addr : Z)
| NVM_SET_IOQ_NUM (su : nvm_ioctl_setup)
| NVM_SET_SHARE_REG (rq : nvm_ioctl_map)
| NVM_GET_DEV_INFO
| NVM_CLEAR_IOQ_NUM
| NVM_CREATE_QUEUE_GROUP (rq : nvm_ioctl_queue_group)
| NVM_DESTROY_QUEUE_GROUP (group_id : Z)
| NVM_ADD_USER_QUEUE (rq : nvm_ioctl_add_user_queue)
| NVM_SET_KERNEL_IOQ_CAP (cap : Z)
| DevUnknown (cmd : Z).

Definition snvm_dev_map_ioctl (f : ptr) (cmd : dev_cmd) : K snvm Z :=
  file ← load (V:=file) f;
  oc ← ctrl_find_by_inode (f_cdev file);
  match oc with
  | None => mret (- EBADF)
  | Some c =>
    match cmd with
    | NVM_MAP_HOST_MEMORY rq => nvm_map_host_memory f c rq
    | NVM_MAP_DEVICE_MEMORY rq => nvm_map_device_memory f c rq
    | NVM_MAP_DEVICE_QUEUE_MEMORY rq => nvm_map_device_queue_memory c rq
    | NVM_UNMAP_HOST_MEMORY addr => nvm_unmap_host_memory f c addr
    | NVM_UNMAP_DEVICE_MEMORY addr => nvm_unmap_device_memory f addr
    | NVM_UNMAP_DEVICE_QUEUE_MEMORY addr => nvm_unmap_device_queue_memory c addr
    | NVM_SET_IOQ_NUM su => nvm_set_ioq_num c su
    | NVM_SET_SHARE_REG rq => nvm_set_share_reg c rq
    | NVM_GET_DEV_INFO => nvm_get_dev_info c
    | NVM_CLEAR_IOQ_NUM => nvm_clear_ioq_num c
    | NVM_CREATE_QUEUE_GROUP rq => nvm_create_queue_group f c rq
    | NVM_DESTROY_QUEUE_GROUP gid => nvm_destroy_queue_group f c gid
    | NVM_ADD_USER_QUEUE rq => nvm_add_user_queue f c rq
    | NVM_SET_KERNEL_IOQ_CAP cap => nvm_set_kernel_ioq_cap c cap
    | DevUnknown _ => mret (- EINVAL)
    end
  end.
End dev_ioctl.
