(* ===== verification/DevFile.v ===== *)
(** * The file operations of /dev/ssnvme<N> (pci.c)

    [open], [release] and [mmap]; [unlocked_ioctl] is in DevIoctl.v. *)
From S2P Require Import Prelude KState P2p Ctrl Map QidPool QGroup DevIoctl.

Section dev_file.
Context `{!kenv, !P2pBackend}.
Variable current : ptr.

Definition svm_mmap_registers (f : ptr) (vm_start vm_end : Z) : K snvm Z :=
  file ← load (V:=file) f;
  oc ← ctrl_find_by_inode (f_cdev file);
  match oc with
  | None => mret (- EBADF)
  | Some c =>
    ctrl ← load (V:=ctrl) c;
    pd ← load (V:=pci_dev) (c_pdev ctrl);
    if pd_bar0_len pd <? u64 (vm_end - vm_start) then mret (- EINVAL) else
    r ← ask env_iomap;
    when (r =? 0) (emit (EvIomap (pd_bar0_start pd) (u64 (vm_end - vm_start))));;
    mret r
  end.

Definition snvm_dev_open (f : ptr) : K snvm Z :=
  file ← load (V:=file) f;
  oc ← ctrl_find_by_inode (f_cdev file);
  match oc with
  | None => mret (- ENODEV)
  | Some c =>
    a ← ask env_alloc;
    if negb a then mret (- ENOMEM) else
    o ← create (DevOwner c current [] 0 [] 0);
    alter_obj f (λ x, x<{f_private := Some o}>);;
    mret 0
  end.

(** Pass 1: the rings of [owner] on a list, and how many of them are CQs. *)
Fixpoint count_rings (owner : ptr) (ps : list ptr) (rb : Z * Z) : K snvm (Z * Z) :=
  match ps with
  | [] => mret rb
  | p :: ps =>
    m ← load (V:=map) p;
    count_rings owner ps
      (if bool_decide (m_owner m = owner) && (0 <=? m_ioq_idx m)
       then (rb.1 + 1, if c_true (m_is_cq m) then rb.2 + 1 else rb.2) else rb)
  end.

(** [have < sub ? 0 : have - sub]. *)
Definition sub_checked (have sub : Z) : Z := if have <? sub then 0 else have - sub.

(** Pass 2, the counters and the end of the descriptor. *)
Definition release_tail (f o c owner : ptr) (rb : Z * Z) : K snvm Z :=
  _ ← map_purge_by_owner HostList owner;
  _ ← map_purge_by_owner DeviceList owner;
  _ ← map_purge_by_owner DeviceQueueList owner;
  alter_obj c (λ x : ctrl, x<{c_cq_num := sub_checked (c_cq_num x) rb.2}>
                            <{c_ioq_map_num := sub_checked (c_ioq_map_num x) rb.1}>);;
  kfree_obj snvm_dev_owner o;;
  alter_obj f (λ x, x<{f_private := None}>);;
  mret 0.

Definition snvm_dev_release (f : ptr) : K snvm Z :=
  file ← load (V:=file) f;
  match f_private file with
  | None => mret 0
  | Some o =>
    own ← load (V:=snvm_dev_owner) o;
    let c := o_ctrl own in
    let owner := o_owner own in
    kfor (λ g, alter_obj o (λ x : snvm_dev_owner, x<{o_groups ::= unlink g}>);;
               destroy_qgroup_locked g (Some c)) (o_groups own);;
    alter_obj o (λ x : snvm_dev_owner, x<{o_nr_groups := 0}>);;
    own ← load (V:=snvm_dev_owner) o;
    kfor unmap_and_release (o_data_maps own);;
    alter_obj o (λ x : snvm_dev_owner, x<{o_nr_data_maps := 0}>);;
    hs ← gets k_host_list;
    rb ← count_rings owner hs (0, 0);
    qs ← gets k_device_queue_list;
    rb ← count_rings owner qs rb;
    release_tail f o c owner rb
  end.
End dev_file.
