(* ===== verification/DevInv.v ===== *)
(** * The ioctls keep the invariant

    Each handler of /dev/ssnvme<N>, run in a state that satisfies [Inv], returns
    without a fault and leaves a state that satisfies [Inv]. *)
From S2P Require Import Prelude KState P2p Ctrl Map QidPool QGroup Inv.
From S2P Require Import DevIoctl.

(** A state that differs from one satisfying [Inv] in its log and tick only. *)
Ltac inv_core :=
  lazymatch goal with
  | H : Inv ?s |- Inv _ => refine (Inv_core s _ _ H); done
  end.

(** Fields of a map the release callback depends on. *)
Definition same_mapping (m m' : map) : Prop :=
  m_release m' = m_release m ∧ m_data m' = m_data m ∧ m_n_addrs m' = m_n_addrs m ∧
  m_addrs m' = m_addrs m.
Lemma map_ok_same m m' : same_mapping m m' → map_ok m → map_ok m'.
Proof. intros (E1 & E2 & E3 & E4). by rw /map_ok /releasable E1 E2 E3 E4. Qed.

Lemma same_pool_fields x x' :
  c_pdev x' = c_pdev x → c_user_qid_bitmap x' = c_user_qid_bitmap x →
  c_user_qid_first x' = c_user_qid_first x → c_user_qid_last x' = c_user_qid_last x → same_pool x x'.
Proof. intros E1 E2 E3 E4. split; [done|]. by rw /pool_wf E2 E3 E4. Qed.

Section dev_inv.
Context {E : kenv} {EL : kenv_laws E} {B : P2pBackend} {BL : P2pLaws B}.
Variable current : ptr.

Lemma wp_copy_from (Q : bool → snvm → Prop) s :
  (∀ ok t, Q ok s<{k_tick := t}>) → wp copy_from_user Q s.
Proof. intros HQ. apply wp_ask, HQ. Qed.

Lemma wp_copy_to out (Q : bool → snvm → Prop) s :
  (∀ s', steps [] s s' → Q false s') → (∀ s', steps [EvCopyOut out] s s' → Q true s') →
  wp (copy_to_user out) Q s.
Proof.
  intros Hno Hyes. rw /copy_to_user. wp_step. apply wp_ask. destruct (env_copy_to _).
  - wp_step. apply wp_when; [|done]. intros _. apply wp_emit. wp_step. apply Hyes.
    eapply (steps_trans []); [apply steps_tick|apply steps_emit].
  - wp_step. apply wp_when; [done|]. intros _. wp_step. apply Hno, steps_tick.
Qed.

Lemma wp_unmap_inv p m (Q : unit → snvm → Prop) s :
  Inv s → k_maps s !! p = Some m →
  (∀ s', moves (release_events s m) (drop_map p s) s' → Inv s' → Q tt s') →
  wp (unmap_and_release p) Q s.
Proof.
  intros H Hp HQ. eapply wp_unmap_and_release; [done|by eapply Inv_releasable|by apply Inv_ctrls|].
  intros s' Hs. apply HQ; [done|]. eapply Inv_core; [by eapply moves_core|]. by apply Inv_drop_map.
Qed.

(** ** Attaching a new map *)

(** The files and the controllers of [s] are still there. *)
Definition still_open (s s' : snvm) : Prop :=
  k_files s' = k_files s ∧ (∀ c, is_Some (k_ctrls s !! c) → is_Some (k_ctrls s' !! c)).
Lemma still_open_refl s : still_open s s.
Proof. done. Qed.
Lemma still_open_set_ctrl c x s : still_open s (set_ctrl c x s).
Proof. split; [done|]. intros c' ?. rw /= lookup_insert_is_Some'. by right. Qed.

(** What an attach step promises: the invariant, and on success the map is there. *)
Definition attached (s0 : snvm) (p : ptr) (m : map) (r : Z) (s : snvm) : Prop :=
  Inv s ∧ (r = 0 → still_open s0 s ∧ ∃ m', k_maps s !! p = Some m' ∧ same_mapping m m').

Lemma wp_release_err p m e s :
  Inv s → k_maps s !! p = Some m → e ≠ 0 →
  wp (unmap_and_release p;; mret e) (attached s p m) s.
Proof.
  intros H Hp He. wp_step. eapply wp_unmap_inv; [done..|]. intros s' _ H'. wp_step. by split.
Qed.

Lemma wp_attach_data f p m s :
  Inv s → is_Some (k_files s !! f) → k_maps s !! p = Some m → unattached p s →
  m_kind m = NVM_MAP_KIND_DATA → m_group_id m = 0 →
  wp (attach_data f p) (attached s p m) s.
Proof.
  intros H [F HF] Hp [_ Hu] Hk Hg. rw /attach_data. wp_step. eapply wp_load; [done|].
  destruct (f_private F) as [o|] eqn:Ho; [|by eapply wp_release_err].
  destruct (inv_file s H f F o HF Ho) as (O & HO & _).
  wp_step. eapply wp_alter_obj; [done|]. wp_step. split; [|intros _; split; [done|by exists m]].
  destruct (inv_owner s H o O HO) as (_ & _ & _ & _ & _ & Hnd & Hdm).
  eapply (Inv_set_owner o O); [done..| |]; simpl.
  - apply NoDup_app. split_and!; [done| |apply NoDup_singleton].
    intros q Hq ->%list_elem_of_singleton. by apply (Hu o O HO).
  - intros q [Hq|Eq%list_elem_of_singleton]%elem_of_app; [by apply Hdm|]. subst. by exists m.
Qed.

(** The group a file's ioctl names: one of the file's own. *)
Lemma wp_find_qgroup o O id (Q : option ptr → snvm → Prop) s :
  Inv s → k_owners s !! o = Some O →
  Q None s →
  (∀ g G, g ∈ o_groups O → k_groups s !! g = Some G → g_group_id G = id → id ≠ 0 → Q (Some g) s) →
  wp (find_qgroup_locked o id) Q s.
Proof.
  intros H HO Hn Hs. rw /find_qgroup_locked. wp_step; [by wp_step|]. wp_step.
  eapply wp_load; [done|]. destruct (inv_owner s H o O HO) as (_ & _ & Hg & _).
  apply wp_kfind; [by apply Forall_forall|].
  destruct (pfind _ _ _) as [g|] eqn:Ef; [|done].
  pose proof (pfind_elem _ _ _ _ Ef). apply pfind_Some in Ef as (l1 & l2 & G & _ & HG & Hid & _).
  apply (Hs g G); [done..|lia|lia].
Qed.

Lemma wp_attach_group f p m id s :
  Inv s → is_Some (k_files s !! f) → k_maps s !! p = Some m → unattached p s →
  m_kind m ≠ NVM_MAP_KIND_DATA →
  wp (attach_group f p id) (attached s p m) s.
Proof.
  intros H [F HF] Hp Hu Hk. rw /attach_group. wp_step. eapply wp_load; [done|].
  destruct (f_private F) as [o|] eqn:Ho; [|by eapply wp_release_err].
  destruct (inv_file s H f F o HF Ho) as (O & HO & _).
  wp_step. eapply (wp_find_qgroup o O); [done..|by eapply wp_release_err|].
  intros g G Hg HG <- _. wp_step. eapply wp_alter_map; [done|]. wp_step.
  eapply wp_alter_obj; [done|]. wp_step. set (m' := m<{m_group_id := g_group_id G}>).
  assert (same_mapping m m') as Hsame by done.
  split; [|intros _; split; [done|exists m'; by rw /= lookup_insert_eq]].
  assert (Inv (set_map p m' s)) as H'.
  { eapply Inv_set_map; [done..|]. eapply map_ok_same; [done|]. by apply (inv_map s H p). }
  eapply (Inv_set_group g G); [done..|].
  destruct (inv_group _ H' g G HG) as (H1 & H2 & H3 & H4 & H5 & H6 & H7).
  do 5 (split; [done|]). simpl. split.
  - apply NoDup_app. split_and!; [done| |apply NoDup_singleton].
    intros q Hq ->%list_elem_of_singleton. by apply (proj1 Hu g G HG).
  - intros q [Hq|Eq%list_elem_of_singleton]%elem_of_app; [by apply H7|]. subst.
    exists m'. by rw lookup_insert_eq.
Qed.

Lemma wp_account_ioq c p m rq s :
  Inv s → is_Some (k_ctrls s !! c) → k_maps s !! p = Some m → unattached p s →
  wp (account_ioq c p rq) (attached s p m) s.
Proof.
  intros H [x Hc] Hp Hu. rw /account_ioq. wp_step. eapply wp_load; [done|].
  wp_step; [by eapply wp_release_err|]. wp_step. eapply wp_alter_map; [done|].
  set (m' := m<{m_ioq_idx := _}><{m_is_cq := _}>).
  assert (Inv (set_map p m' s)) as H'.
  { eapply Inv_set_map; [done..|]. apply (map_ok_same m); [done|]. by apply (inv_map s H p). }
  wp_step. rw /ctrl_account. eapply wp_alter_obj; [done|]. wp_step.
  split; [|intros _; split; [exact (still_open_set_ctrl c _ (set_map p m' s))|exists m'; by rw /= lookup_insert_eq]].
  eapply (Inv_set_ctrl c x); [done|done|by apply same_pool_fields].
Qed.

(** ** Counters *)

Lemma wp_unaccount c is_cq (Q : unit → snvm → Prop) s :
  Inv s → is_Some (k_ctrls s !! c) →
  (∀ x', Inv (set_ctrl c x' s) → Q tt (set_ctrl c x' s)) → wp (ctrl_unaccount c is_cq) Q s.
Proof.
  intros H [x Hc] HQ. rw /ctrl_unaccount. eapply wp_alter_obj; [done|]. apply HQ.
  eapply (Inv_set_ctrl c x); [done|done|by apply same_pool_fields].
Qed.

(** What a change of counters leaves alone. *)
Definition counters_only (s s' : snvm) : Prop :=
  Inv s' ∧ k_maps s' = k_maps s ∧ k_log s' = k_log s.

Lemma wp_dec_data o O s :
  Inv s → k_owners s !! o = Some O →
  wp (alter_obj o (λ x : snvm_dev_owner, x<{o_nr_data_maps ::= dec_guarded}>))
    (λ _, counters_only s) s.
Proof.
  intros H HO. eapply wp_alter_obj; [done|]. split; [|done].
  destruct (inv_owner s H o O HO) as (_ & _ & _ & _ & _ & Hnd & Hdm).
  by eapply (Inv_set_owner o O).
Qed.

Lemma wp_count_group g G f s :
  Inv s → k_groups s !! g = Some G →
  wp (alter_obj g (λ x : snvm_qgroup, x<{g_nr_maps ::= f}>)) (λ _, counters_only s) s.
Proof.
  intros H HG. eapply wp_alter_obj; [done|]. split; [|done].
  eapply (Inv_set_group g G); [done..|]. exact (inv_group s H g G HG).
Qed.

Lemma wp_unattach_data f s :
  Inv s → is_Some (k_files s !! f) → wp (unattach_data f) (λ _, counters_only s) s.
Proof.
  intros H [F HF]. rw /unattach_data. wp_step. eapply wp_load; [done|].
  destruct (f_private F) as [o|] eqn:Ho; [|by wp_step].
  destruct (inv_file s H f F o HF Ho) as (O & HO & _). by eapply wp_dec_data.
Qed.

Lemma wp_unattach_group f id s :
  Inv s → is_Some (k_files s !! f) → wp (unattach_group f id) (λ _, counters_only s) s.
Proof.
  intros H [F HF]. rw /unattach_group. wp_step. eapply wp_load; [done|].
  destruct (f_private F) as [o|] eqn:Ho; [|by wp_step].
  destruct (inv_file s H f F o HF Ho) as (O & HO & _).
  wp_step. eapply (wp_find_qgroup o O); [done|done|by wp_step|]. intros g G _ HG _ _.
  by apply (wp_count_group g G (λ n, u32 (n - 1))).
Qed.

Lemma wp_unmap_counters f m s :
  Inv s → is_Some (k_files s !! f) → wp (unmap_counters f m) (λ _, counters_only s) s.
Proof.
  intros H [F HF]. rw /unmap_counters. wp_step. eapply wp_load; [done|].
  destruct (f_private F) as [o|] eqn:Ho; [|by wp_step].
  destruct (inv_file s H f F o HF Ho) as (O & HO & _). wp_step; [by eapply wp_dec_data|].
  wp_step; [by wp_step|]. wp_step.
  eapply (wp_find_qgroup o O); [done|done|by wp_step|]. intros g G _ HG _ _. by eapply wp_count_group.
Qed.

(** Releasing the map and returning, after the counters were put right. *)
Lemma wp_then_release (cnt : K snvm unit) p m (e : Z) s :
  k_maps s !! p = Some m → wp cnt (λ _, counters_only s) s →
  wp (cnt;; unmap_and_release p;; mret e) (λ _ s', Inv s') s.
Proof.
  intros Hp Hc. wp_step. eapply wp_mono; [exact Hc|]. intros _ s1 (H1 & Em & _). wp_step.
  eapply wp_unmap_inv; [done|by rw Em|]. intros s2 _ H2. by wp_step.
Qed.

(** ** The map handlers *)

Lemma wp_copy_addrs p m (Q : bool → snvm → Prop) s :
  Inv s → k_maps s !! p = Some m →
  (∀ s', steps [] s s' → Q false s') →
  (∀ s', steps [EvCopyOut (OutAddrs (take (Z.to_nat (m_n_addrs m)) (m_addrs m)))] s s' → Q true s') →
  wp (copy_addrs_to_user p) Q s.
Proof.
  intros H Hp Hno Hyes. rw /copy_addrs_to_user. wp_step. eapply wp_load; [done|].
  destruct (inv_map s H p m Hp) as (_ & _ & Hle).
  assert ((length (m_addrs m) <? Z.to_nat (m_n_addrs m))%nat = false) as ->; [apply Nat.ltb_ge; lia|].
  by apply wp_copy_to.
Qed.

(** The end of a map handler: attach, copy out, undo on failure. *)
Lemma wp_map_tail p m (att : K snvm Z) (cnt : K snvm unit) s :
  Inv s → k_maps s !! p = Some m →
  wp att (attached s p m) s →
  (∀ m' s', Inv s' → k_maps s' !! p = Some m' → still_open s s' → wp cnt (λ _, counters_only s') s') →
  wp (err ← att; if c_true err then mret err else
      ok ← copy_addrs_to_user p;
      if (ok : bool) then mret 0 else cnt;; unmap_and_release p;; mret (- EFAULT))
    (λ _ s', Inv s') s.
Proof.
  intros H Hp Hatt Hcnt. wp_step. eapply wp_mono; [exact Hatt|]. intros err s1 [H1 Hok].
  destruct (c_true err) eqn:Ee; [by wp_step|].
  destruct Hok as (Hopen & m' & Hm' & _); [by rw /c_true in Ee; lia|].
  wp_step. eapply wp_copy_addrs; [done..| |].
  - intros s2 Hs2. pose proof (steps_core _ _ _ Hs2) as E2. pose proof (Inv_core _ _ E2 H1) as H2.
    destruct Hs2 as (t & ->). eapply wp_then_release; [done|]. by eapply Hcnt.
  - intros s2 Hs2%steps_core. wp_step. by eapply Inv_core.
Qed.

Lemma map_req_kind rq :
  (rq_map_kind rq =? NVM_MAP_KIND_DATA) = false → rq_map_kind rq ≠ NVM_MAP_KIND_DATA.
Proof. lia. Qed.

(** Setting the kind of a map that was just created. *)
Lemma wp_set_kind p m k (Q : unit → snvm → Prop) s :
  Inv s → k_maps s !! p = Some m → unattached p s →
  (Inv (set_map p m<{m_kind := k}> s) → Q tt (set_map p m<{m_kind := k}> s)) →
  wp (alter_obj p (λ m : map, m<{m_kind := k}>)) Q s.
Proof.
  intros H Hp Hu HQ. eapply wp_alter_map; [done|]. apply HQ. eapply Inv_set_map; [done..|].
  apply (map_ok_same m); [done|]. by apply (inv_map s H p).
Qed.

(** A map made by [map_userspace] or [map_device_memory] satisfies the invariant
    and is attached nowhere. *)
Lemma Inv_mapped ws l m s s' :
  Inv s → map_ok m → m_group_id m = 0 →
  moves ws (glist_insert l (k_next s) (set_map (k_next s) m (bump s))) s' →
  Inv s' ∧ k_maps s' !! k_next s = Some m ∧ unattached (k_next s) s' ∧ still_open s s'.
Proof.
  intros H Hm Hg Hs. split_and!.
  - eapply Inv_core; [by eapply moves_core|]. by apply Inv_new_map.
  - destruct Hs as (es & t & _ & _ & ->). by rw /= lookup_insert_eq.
  - destruct Hs as (es & t & _ & _ & ->). apply (Inv_unattached s); [done|]. by apply (inv_next s H).
  - by destruct Hs as (es & t & _ & _ & ->).
Qed.

Lemma Inv_bump s : Inv s → Inv (bump s).
Proof. intros H. destruct H. constructor; try done. intros p Hp. apply inv_next. simpl in Hp. lia. Qed.

Lemma map_ok_host v pdev n pages addrs :
  1 ≤ Z.of_nat (length pages) → length addrs = length pages →
  map_ok (host_map current v pdev n pages addrs).
Proof.
  intros Hp Ha. split.
  - by eapply releasable_host; [done..|]; rw /= length_app; lia.
  - rw /= length_app. lia.
Qed.

Lemma map_ok_gpu v pdev n t ds :
  1 ≤ n → (1 ≤ length ds)%nat → Forall (λ dm, Z.of_nat (length (pm_addresses dm)) = n) ds →
  map_ok (gpu_map (dev_map current v pdev n) t ds).
Proof.
  intros Hn Hds Hlen. split.
  - by apply releasable_gpu.
  - destruct ds as [|dm ds]; [simpl in Hds; lia|]. apply Forall_cons in Hlen as [Hl _].
    rw /= length_take. lia.
Qed.

Lemma wp_map_host f c rq s :
  Inv s → is_Some (k_files s !! f) → is_Some (k_ctrls s !! c) →
  OFFSET_ADDRS + rq_n_pages rq * 8 < 2 ^ 64 →
  wp (nvm_map_host_memory current f c rq) (λ _ s', Inv s') s.
Proof.
  intros H Hf [x Hc] Hn. rw /nvm_map_host_memory. wp_step. apply wp_copy_from. intros ok t.
  assert (Inv s<{k_tick := t}>) as Ht by inv_core.
  wp_step; [by wp_step|]. wp_step; [by wp_step|]. wp_step.
  eapply wp_map_userspace; [done|done|by apply Inv_next_ok|by apply Inv_ctrls| |].
  - intros b ws err s' _ _ Hs%moves_core. wp_step. eapply Inv_core; [done|]. destruct b; [by apply Inv_bump|done].
  - intros pages addrs s1 Hlen Ha _ Hs1.
    apply Inv_mapped in Hs1 as (H1 & Hp & Hu & Hfs & Hcs); [|done|apply map_ok_host; lia|done].
    change (k_next s<{k_tick := t}>) with (k_next s) in *. set (p := k_next s) in *.
    set (m := host_map _ _ _ _ _ _) in *.
    wp_step. eapply wp_set_kind; [done..|]. intros H2.
    eapply (wp_map_tail p m<{m_kind := rq_map_kind rq}>); [done|by rw /= lookup_insert_eq|..].
    + rw /map_host_attach. wp_step.
      { eapply wp_attach_data; [done|by rw /= Hfs|by rw /= lookup_insert_eq|done|simpl; lia|done]. }
      wp_step.
      { eapply wp_attach_group; [done|by rw /= Hfs|by rw /= lookup_insert_eq|done|simpl; lia]. }
      wp_step.
      { eapply wp_account_ioq; [done|by apply Hcs|by rw /= lookup_insert_eq|done]. }
      wp_step. split; [done|]. intros _. split; [done|]. eexists. by rw /= lookup_insert_eq.
    + intros m' s3 H3 Hm' [Hfs3 Hcs3]. assert (is_Some (k_files s3 !! f)) by (by rw Hfs3 /= Hfs).
      rw /map_host_rollback. wp_step; [by apply wp_unattach_data|].
      wp_step; [by apply wp_unattach_group|]. wp_step; [|by wp_step]. wp_step. eapply wp_load; [done|].
      eapply wp_unaccount; [done|by apply Hcs3, Hcs|]. by intros x'.
Qed.

Lemma Inv_ctrl_listed s c : Inv s → is_Some (k_ctrls s !! c) → (1 ≤ length (k_ctrl_list s))%nat.
Proof.
  intros H Hc%(inv_ctrl_list s H). destruct (k_ctrl_list s); [by apply elem_of_nil in Hc|simpl; lia].
Qed.

Lemma wp_map_device f c rq s :
  Inv s → is_Some (k_files s !! f) → is_Some (k_ctrls s !! c) → rq_n_pages rq < 2 ^ 32 →
  wp (nvm_map_device_memory current f c rq) (λ _ s', Inv s') s.
Proof.
  intros H Hf Hcs0 Hn. pose proof Hcs0 as [x Hc].
  rw /nvm_map_device_memory. wp_step. apply wp_copy_from. intros ok t.
  assert (Inv s<{k_tick := t}>) as Ht by inv_core.
  wp_step; [by wp_step|]. wp_step; [by wp_step|]. wp_step.
  eapply wp_map_device_memory; [done|done|by apply Inv_next_ok|by apply Inv_ctrls|apply (inv_ctrl_max s H)| |].
  - intros b ws err s' _ _ Hs%moves_core. wp_step. eapply Inv_core; [done|]. destruct b; [by apply Inv_bump|done].
  - intros tb ds s1 Hn1 Htb Hds Hlen Hs1.
    apply Inv_mapped in Hs1 as (H1 & Hp & Hu & Hfs & Hcs); [|done| |done];
      [|apply map_ok_gpu; [done..| |done]; rw Hds; by apply (Inv_ctrl_listed s c)].
    change (k_next s<{k_tick := t}>) with (k_next s) in *. set (p := k_next s) in *.
    set (m := gpu_map _ _ _) in *.
    wp_step. eapply wp_set_kind; [done..|]. intros H2.
    eapply (wp_map_tail p m<{m_kind := rq_map_kind rq}>); [done|by rw /= lookup_insert_eq|..].
    + rw /map_device_attach. wp_step.
      { eapply wp_attach_data; [done|by rw /= Hfs|by rw /= lookup_insert_eq|done|simpl; lia|done]. }
      wp_step.
      { eapply wp_attach_group; [done|by rw /= Hfs|by rw /= lookup_insert_eq|done|simpl; lia]. }
      wp_step. split; [done|]. intros _. split; [done|]. eexists. by rw /= lookup_insert_eq.
    + intros m' s3 H3 Hm' [Hfs3 _]. assert (is_Some (k_files s3 !! f)) by (by rw Hfs3 /= Hfs).
      rw /map_device_rollback. wp_step; [by apply wp_unattach_data|].
      wp_step; [by apply wp_unattach_group|]. by wp_step.
Qed.

(** ** Naming a group that is not the file's own *)

Section foreign.
Variables (f o : ptr) (F : file) (O : snvm_dev_owner) (rq : nvm_ioctl_map) (s : snvm).
Hypothesis Hinv : Inv s.
Hypothesis HF : k_files s !! f = Some F.
Hypothesis Ho : f_private F = Some o.
Hypothesis HO : k_owners s !! o = Some O.
Hypothesis Hno : ∀ g G, g ∈ o_groups O → k_groups s !! g = Some G → g_group_id G ≠ rq_group_id rq.
Hypothesis Hkind : rq_map_kind rq ≠ NVM_MAP_KIND_DATA.
Hypothesis Hid : rq_group_id rq ≠ 0.

(** The new map goes as it came. *)
Definition map_refused (r : Z) (s' : snvm) : Prop := r ≠ 0 ∧ (s' ≡ₗ s ∨ s' ≡ₗ bump s).

Lemma wp_attach_foreign l m ws s1 :
  map_ok m → m_group_id m = 0 →
  moves ws (glist_insert l (k_next s) (set_map (k_next s) m (bump s))) s1 →
  wp (attach_group f (k_next s) (rq_group_id rq)) (λ r s', r ≠ 0 ∧ s' ≡ₗ bump s) s1.
Proof.
  intros Hm Hg Hs1. pose proof (Inv_next_ok s Hinv) as [Hnp Hun].
  destruct (Inv_mapped ws l m s s1 Hinv Hm Hg Hs1) as (H1 & Hp & _ & Hfs & _).
  pose proof Hs1 as (es & t & _ & _ & E1).
  rw /attach_group. wp_step. eapply wp_load; [by rw /= Hfs|]. rw Ho. wp_step.
  eapply (wp_find_qgroup o O); [done|by rw E1| |].
  - wp_step. eapply wp_unmap_inv; [done..|]. intros s2 Hs2%moves_core _. wp_step. split; [done|].
    apply same_core_inv in Hs2 as (lg & t2 & ->). rw E1 framed_comm drop_map_inserted //.
  - intros g G Hg' HG Hgid _. rw E1 in HG. by destruct (Hno g G).
Qed.

Lemma wp_map_host_foreign c :
  is_Some (k_ctrls s !! c) → OFFSET_ADDRS + rq_n_pages rq * 8 < 2 ^ 64 →
  wp (nvm_map_host_memory current f c rq) map_refused s.
Proof.
  intros [x Hc] Hn. rw /nvm_map_host_memory. wp_step. apply wp_copy_from. intros ok t.
  assert (Inv s<{k_tick := t}>) as Ht by inv_core.
  wp_step; [wp_step; split; [done|by left]|]. wp_step; [wp_step; split; [done|by left]|]. wp_step.
  eapply wp_map_userspace; [done|done|by apply Inv_next_ok|by apply Inv_ctrls| |].
  - intros b ws err s' He _ Hs%moves_core. wp_step. split; [lia|]. destruct b; [by right|by left].
  - intros pages addrs s1 Hlen Ha _ Hs1. set (m := host_map _ _ _ _ _ _) in *.
    assert (map_ok m) as Hm by (apply map_ok_host; lia).
    pose proof (moves_lookup _ _ _ Hs1) as El. wp_step.
    eapply (wp_alter_map _ _ m); [by rw El /= lookup_insert_eq|].
    rw /map_host_attach. assert ((rq_map_kind rq =? NVM_MAP_KIND_DATA) = false) as -> by lia.
    assert ((rq_group_id rq =? 0) = false) as -> by lia. cbn [negb]. wp_step.
    eapply wp_mono; [eapply (wp_attach_foreign HostList m<{m_kind := rq_map_kind rq}>);
      [by apply (map_ok_same m)|done|]|].
    + apply (moves_framed (set_map (k_next s) m<{m_kind := rq_map_kind rq}>)) in Hs1; [|apply _].
      assert (∀ l p q m' z, set_map p m' (glist_insert l q z) = glist_insert l q (set_map p m' z)) as Ecomm by done.
      cbn [k_next upd] in Hs1. rw Ecomm set_map_set in Hs1. eapply (moves_trans []); [|exact Hs1].
      by apply (moves_tick t).
    + intros r s' [Hr Hs']. assert (c_true r = true) as -> by (rw /c_true; lia). wp_step. split; [done|by right].
Qed.

Lemma wp_map_device_foreign c :
  is_Some (k_ctrls s !! c) → rq_n_pages rq < 2 ^ 32 →
  wp (nvm_map_device_memory current f c rq) map_refused s.
Proof.
  intros Hcs0 Hn. pose proof Hcs0 as [x Hc]. rw /nvm_map_device_memory. wp_step. apply wp_copy_from. intros ok t.
  assert (Inv s<{k_tick := t}>) as Ht by inv_core.
  wp_step; [wp_step; split; [done|by left]|]. wp_step; [wp_step; split; [done|by left]|]. wp_step.
  eapply wp_map_device_memory; [done|done|by apply Inv_next_ok|by apply Inv_ctrls|apply (inv_ctrl_max s Hinv)| |].
  - intros b ws err s' He _ Hs%moves_core. wp_step. split; [lia|]. destruct b; [by right|by left].
  - intros tb ds s1 Hn1 Htb Hds Hlen Hs1. set (m := gpu_map _ _ _) in *.
    assert (map_ok m) as Hm by (apply map_ok_gpu; [done| |done]; rw Hds; by apply (Inv_ctrl_listed s c)).
    pose proof (moves_lookup _ _ _ Hs1) as El. wp_step.
    eapply (wp_alter_map _ _ m); [by rw El /= lookup_insert_eq|].
    rw /map_device_attach. assert ((rq_map_kind rq =? NVM_MAP_KIND_DATA) = false) as -> by lia.
    assert ((rq_group_id rq =? 0) = false) as -> by lia. cbn [negb]. wp_step.
    eapply wp_mono; [eapply (wp_attach_foreign DeviceList m<{m_kind := rq_map_kind rq}>);
      [by apply (map_ok_same m)|done|]|].
    + apply (moves_framed (set_map (k_next s) m<{m_kind := rq_map_kind rq}>)) in Hs1; [|apply _].
      assert (∀ l p q m' z, set_map p m' (glist_insert l q z) = glist_insert l q (set_map p m' z)) as Ecomm by done.
      cbn [k_next upd] in Hs1. rw Ecomm set_map_set in Hs1. eapply (moves_trans []); [|exact Hs1].
      by apply (moves_tick t).
    + intros r s' [Hr Hs']. assert (c_true r = true) as -> by (rw /c_true; lia). wp_step. split; [done|by right].
Qed.
End foreign.

(** ** Requests of any size, and queue memory of a device

    These calls may fault; when they return the invariant holds. *)

Lemma wlp_map_host f c rq s :
  Inv s → is_Some (k_files s !! f) → is_Some (k_ctrls s !! c) →
  wlp (nvm_map_host_memory current f c rq) (λ _ s', Inv s') s.
Proof.
  intros H Hf Hcs. destruct (decide (OFFSET_ADDRS + rq_n_pages rq * 8 < 2 ^ 64)) as [|Hbig].
  { by apply wlp_wp, wp_map_host. }
  destruct Hcs as [x Hc]. rw /nvm_map_host_memory. apply wlp_after, wp_copy_from. intros ok t.
  assert (Inv s<{k_tick := t}>) as Ht by inv_core.
  destruct (negb ok); [by apply wlp_wp, wp_ret|]. destruct (map_req_bad rq); [by apply wlp_wp, wp_ret|].
  apply wlp_bind. rw /map_userspace. assert ((rq_n_pages rq <? 1) = false) as -> by (rw /OFFSET_ADDRS in Hbig; lia).
  apply wlp_bind. rw /create_descriptor. apply wlp_after, wp_ask. destruct (env_alloc _); cbn [negb].
  - apply wlp_after. eapply wp_load; [done|].
    assert ((u64 (SIZEOF_MAP + (rq_n_pages rq - 1) * 8) <? OFFSET_ADDRS + rq_n_pages rq * 8) = true) as ->;
      [|apply wlp_fault]. pose proof (u64_range (SIZEOF_MAP + (rq_n_pages rq - 1) * 8)). lia.
  - do 3 apply wlp_wp, wp_ret. inv_core.
Qed.

Lemma wlp_map_device f c rq s :
  Inv s → is_Some (k_files s !! f) → is_Some (k_ctrls s !! c) →
  wlp (nvm_map_device_memory current f c rq) (λ _ s', Inv s') s.
Proof.
  intros H Hf Hcs. destruct (decide (rq_n_pages rq < 2 ^ 32)) as [|Hbig].
  { by apply wlp_wp, wp_map_device. }
  pose proof Hcs as [x Hc]. rw /nvm_map_device_memory. apply wlp_after, wp_copy_from. intros ok t.
  assert (Inv s<{k_tick := t}>) as Ht by inv_core.
  destruct (negb ok); [by apply wlp_wp, wp_ret|]. destruct (map_req_bad rq); [by apply wlp_wp, wp_ret|].
  apply wlp_bind. eapply wlp_map_device_oversize; [done|lia|by apply Inv_next_ok| |by apply Inv_ctrls|].
  - split; [by apply (Inv_ctrl_listed s c)|apply (inv_ctrl_max s H)].
  - intros b ws err s' _ Hs%moves_core. apply wlp_wp, wp_ret. eapply Inv_core; [done|].
    destruct b; [by apply Inv_bump|done].
Qed.

Lemma map_ok_ioq v pdev n t dm :
  1 ≤ n → Z.of_nat (length (pm_addresses dm)) = n → map_ok (ioq_map current v pdev n t dm).
Proof.
  intros Hn Hl. split; [by exists (SlotMapped dm)|]. rw /= length_take. lia.
Qed.

Lemma wlp_map_device_queue c rq s :
  Inv s → is_Some (k_ctrls s !! c) →
  wlp (nvm_map_device_queue_memory current c rq) (λ _ s', Inv s') s.
Proof.
  intros H [x Hc]. rw /nvm_map_device_queue_memory. apply wlp_after, wp_copy_from. intros ok t.
  assert (Inv s<{k_tick := t}>) as Ht by inv_core.
  destruct (negb ok); [by apply wlp_wp, wp_ret|].
  destruct (rq_ioq_idx rq <? 0); [by apply wlp_wp, wp_ret|]. apply wlp_bind.
  eapply wlp_map_device_ioqueue; [done|by apply Inv_next_ok|by apply Inv_ctrls| |].
  - intros b ws err s' _ Hs%moves_core. apply wlp_wp, wp_ret. eapply Inv_core; [done|].
    destruct b; [by apply Inv_bump|done].
  - intros tb dm s1 Hn Hl Hs1.
    apply Inv_mapped in Hs1 as (H1 & Hp & Hu & Hfs & Hcs); [|done|by apply map_ok_ioq|done].
    apply wlp_wp. set (p := k_next _) in *. wp_step.
    eapply wp_mono; [by apply wp_account_ioq; [|apply Hcs; eexists|..]|]. intros err s2 [H2 Hok].
    destruct (c_true err) eqn:Ee; [by wp_step|].
    destruct Hok as ([_ Hcs2] & m' & Hm' & _); [by rw /c_true in Ee; lia|].
    wp_step. eapply wp_copy_addrs; [done..| |]; intros s3 Hs3; pose proof (steps_core _ _ _ Hs3) as E3;
      pose proof (Inv_core _ _ E3 H2) as H3; [|by wp_step]. destruct Hs3 as (t3 & ->).
    wp_step. eapply wp_load; [done|]. eapply wp_then_release; [done|].
    apply wp_unaccount; [done|by apply Hcs2, Hcs; eexists|]. by intros x'.
Qed.

(** ** The unmap handlers *)

Lemma wp_map_find l addr (Q : option ptr → snvm → Prop) s :
  Inv s → Q None s →
  (∀ p m, p ∈ k_glist l s → k_maps s !! p = Some m → map_matches current addr m = true → Q (Some p) s) →
  wp (map_find current l addr) Q s.
Proof.
  intros H Hn Hs. rw /map_find. wp_step. wp_step. apply wp_kfind.
  - apply Forall_forall. intros p Hp%glist_listed. by apply (inv_listed s H).
  - destruct (pfind _ _ _) as [p|] eqn:Ef; [|done].
    pose proof (pfind_elem _ _ _ _ Ef). apply pfind_Some in Ef as (l1 & l2 & m & _ & Hm & Hf & _).
    by apply (Hs p m).
Qed.

(** Uncount a ring if the map is one. *)
Lemma wp_when_unaccount b c is_cq s :
  Inv s → is_Some (k_ctrls s !! c) →
  wp (when b (ctrl_unaccount c is_cq)) (λ _ s', counters_only s s' ∧ k_files s' = k_files s) s.
Proof.
  intros H Hc. apply wp_when; intros _; [|done]. apply wp_unaccount; [done..|]. by intros x'.
Qed.

Lemma wp_unmap_host f c addr s :
  Inv s → is_Some (k_files s !! f) → is_Some (k_ctrls s !! c) →
  wp (nvm_unmap_host_memory current f c addr) (λ _ s', Inv s') s.
Proof.
  intros H Hf Hc. rw /nvm_unmap_host_memory. wp_step. apply wp_copy_from. intros ok t.
  assert (Inv s<{k_tick := t}>) as Ht by inv_core. wp_step; [by wp_step|]. wp_step.
  apply wp_map_find; [done|by wp_step|]. intros p m _ Hm _. wp_step. eapply wp_load; [done|].
  wp_step. eapply wp_mono; [by apply wp_when_unaccount|]. intros _ s1 ((H1 & E1 & _) & Ef1).
  eapply wp_then_release; [by rw E1|]. apply wp_unmap_counters; [done|by rw Ef1].
Qed.

Lemma wp_unmap_device f addr s :
  Inv s → is_Some (k_files s !! f) →
  wp (nvm_unmap_device_memory current f addr) (λ _ s', Inv s') s.
Proof.
  intros H Hf. rw /nvm_unmap_device_memory. wp_step. apply wp_copy_from. intros ok t.
  assert (Inv s<{k_tick := t}>) as Ht by inv_core. wp_step; [by wp_step|]. wp_step.
  apply wp_map_find; [done|by wp_step|]. intros p m _ Hm _. wp_step. eapply wp_load; [done|].
  eapply wp_then_release; [done|]. by apply wp_unmap_counters.
Qed.

Lemma wp_unmap_device_queue c addr s :
  Inv s → is_Some (k_ctrls s !! c) →
  wp (nvm_unmap_device_queue_memory current c addr) (λ _ s', Inv s') s.
Proof.
  intros H Hc. rw /nvm_unmap_device_queue_memory. wp_step. apply wp_copy_from. intros ok t.
  assert (Inv s<{k_tick := t}>) as Ht by inv_core. wp_step; [by wp_step|]. wp_step.
  apply wp_map_find; [done|by wp_step|]. intros p m _ Hm _. wp_step. eapply wp_load; [done|].
  eapply wp_then_release; [done|]. eapply wp_mono; [by apply wp_when_unaccount|]. by intros _ s1 [? _].
Qed.

(** ** The setters *)

Lemma Inv_alter_ctrl c x x' s :
  Inv s → k_ctrls s !! c = Some x → c_pdev x' = c_pdev x →
  c_user_qid_bitmap x' = c_user_qid_bitmap x → c_user_qid_first x' = c_user_qid_first x →
  c_user_qid_last x' = c_user_qid_last x → Inv (on_heap <[c := x']> s).
Proof. intros. eapply (Inv_set_ctrl c x); [done..|by apply same_pool_fields]. Qed.

Lemma wp_set_ioq_num c su s :
  Inv s → is_Some (k_ctrls s !! c) → wp (nvm_set_ioq_num c su) (λ _ s', Inv s') s.
Proof.
  intros H [x Hc]. rw /nvm_set_ioq_num. wp_step. apply wp_copy_from. intros ok t.
  assert (Inv s<{k_tick := t}>) as Ht by inv_core. wp_step; [by wp_step|]. wp_step.
  eapply wp_load; [done|]. wp_step; [by wp_step|]. wp_step. eapply wp_store; [done|]. wp_step.
  by eapply Inv_alter_ctrl.
Qed.

Lemma wp_set_share_reg c rq s :
  Inv s → is_Some (k_ctrls s !! c) → wp (nvm_set_share_reg c rq) (λ _ s', Inv s') s.
Proof.
  intros H [x Hc]. rw /nvm_set_share_reg. wp_step. apply wp_copy_from. intros ok t.
  assert (Inv s<{k_tick := t}>) as Ht by inv_core. wp_step; [by wp_step|]. wp_step.
  eapply wp_alter_obj; [done|]. wp_step. by eapply Inv_alter_ctrl.
Qed.

Lemma wp_clear_ioq_num c s :
  Inv s → is_Some (k_ctrls s !! c) → wp (nvm_clear_ioq_num c) (λ _ s', Inv s') s.
Proof.
  intros H [x Hc]. rw /nvm_clear_ioq_num. wp_step. eapply wp_alter_obj; [done|]. wp_step.
  by eapply Inv_alter_ctrl.
Qed.

Lemma wp_set_kernel_ioq_cap c cap s :
  Inv s → is_Some (k_ctrls s !! c) → wp (nvm_set_kernel_ioq_cap c cap) (λ _ s', Inv s') s.
Proof.
  intros H [x Hc]. rw /nvm_set_kernel_ioq_cap. wp_step. apply wp_copy_from. intros ok t.
  assert (Inv s<{k_tick := t}>) as Ht by inv_core. wp_step; [by wp_step|]. wp_step.
  eapply wp_alter_obj; [done|]. wp_step. by eapply Inv_alter_ctrl.
Qed.

(** ** NVM_GET_DEV_INFO *)

(** The wait asks for the namespace once per tick, stops at the first answer
    and gives up after [n] questions at the latest. *)
Definition first_answer (d : ptr) (n : Z) (s : snvm) (r : option (string * Z)) (s' : snvm) : Prop :=
  steps [] s s' ∧ k_tick s < k_tick s' ≤ k_tick s + n ∧
  (∀ t, k_tick s ≤ t < k_tick s' - 1 → env_find_ns t d = None) ∧
  r = env_find_ns (k_tick s' - 1) d ∧ (r = None → k_tick s' = k_tick s + n).

Lemma first_answer_now d n s :
  1 ≤ n → (env_find_ns (k_tick s) d = None → n = 1) →
  first_answer d n s (env_find_ns (k_tick s) d) s<{k_tick := k_tick s + 1}>.
Proof.
  intros Hn Hnone. split; [apply steps_tick|]. cbn [k_tick upd]. split; [lia|]. split; [lia|].
  split; [f_equal; lia|]. intros Hr%Hnone. lia.
Qed.

Lemma first_answer_later d n s r s' :
  env_find_ns (k_tick s) d = None →
  first_answer d n s<{k_tick := k_tick s + 1}> r s' → first_answer d (n + 1) s r s'.
Proof.
  intros H0 (H1 & H2 & H3 & H4 & H5). cbn [k_tick upd] in *. split.
  { eapply (steps_trans [] []); [apply steps_tick|exact H1]. }
  split; [lia|]. split; [|split; [done|intros Hr%H5; lia]]. intros t Ht.
  destruct (decide (t = k_tick s)) as [->|]; [done|]. apply H3. lia.
Qed.

Lemma wp_ns_wait k d w s :
  0 ≤ w → w = 5000 - 50 * Z.of_nat k →
  wp (ns_wait (S k) d w) (first_answer d (Z.of_nat k + 1) s) s.
Proof.
  revert w s. induction k as [|k IH]; intros w s Hw Ek; cbn [ns_wait]; wp_step; apply wp_ask.
  - destruct (env_find_ns (k_tick s) d) eqn:Ens.
    + wp_step. rw -Ens. apply first_answer_now; [lia|done].
    + assert ((w <? 5000) = false) as -> by lia. wp_step. rw -Ens.
      apply first_answer_now; [lia|done].
  - destruct (env_find_ns (k_tick s) d) eqn:Ens.
    + wp_step. rw -Ens. apply first_answer_now; [lia|congruence].
    + assert ((w <? 5000) = true) as -> by lia. eapply wp_mono; [apply IH; lia|].
      intros r s' Hr. replace (Z.of_nat (S k) + 1) with (Z.of_nat k + 1 + 1) by lia.
      by apply first_answer_later.
Qed.

Lemma wp_find_ns d s : wp (find_ns d) (first_answer d 102 s) s.
Proof.
  rw /find_ns. wp_step. apply wp_ask. destruct (env_find_ns (k_tick s) d) eqn:Ens.
  - wp_step. rw -Ens. apply first_answer_now; [lia|congruence].
  - eapply wp_mono; [apply (wp_ns_wait 100); lia|]. intros r s' Hr.
    by apply (first_answer_later d 101).
Qed.

(** The driver data of the controller's device is a device structure of this
    module, whoever drives it. *)
Definition drvdata_ok (s : snvm) (c : ptr) : Prop :=
  ∃ x pd, k_ctrls s !! c = Some x ∧ k_pdevs s !! c_pdev x = Some pd ∧
    ∀ d, pd_drvdata pd = Some d → is_Some (k_ndevs s !! d).

Lemma wp_get_dev_info c s :
  Inv s → drvdata_ok s c → wp (nvm_get_dev_info c) (λ _ s', Inv s') s.
Proof.
  intros H (x & pd & Hc & Hpd & Hd). rw /nvm_get_dev_info. wp_step. eapply wp_load; [done|].
  wp_step. eapply wp_load; [done|]. destruct (pd_drvdata pd) as [d|]; [|by wp_step].
  destruct (Hd d eq_refl) as [nd Hnd]. wp_step. eapply wp_load; [done|]. wp_step.
  eapply wp_mono; [apply wp_find_ns|]. intros r s1 (Hs1%steps_core & _).
  assert (Inv s1) as H1 by (by eapply Inv_core). destruct r as [[nm sh]|]; [|by wp_step]. wp_step.
  apply wp_copy_to; intros s2 Hs2%steps_core; wp_step; by eapply Inv_core.
Qed.

(** Whoever drives the device: the call returns only if the data is ours. *)
Lemma wlp_get_dev_info c s :
  Inv s → is_Some (k_ctrls s !! c) → wlp (nvm_get_dev_info c) (λ _ s', Inv s') s.
Proof.
  intros H [x Hc]. destruct (inv_pdev s H c x Hc) as (pd & Hpd & _).
  destruct (pd_drvdata pd) as [d|] eqn:Ed.
  - destruct (k_ndevs s !! d) as [nd|] eqn:Hnd.
    + apply wlp_wp, wp_get_dev_info; [done|]. exists x, pd. split; [done|]. split; [done|].
      intros d' ?. simplify_eq. by eexists.
    + rw /nvm_get_dev_info. apply wlp_after. eapply wp_load; [done|].
      apply wlp_after. eapply wp_load; [done|]. rw Ed. apply wlp_bind. intros nd s'.
      by rw /load /= Hnd.
  - apply wlp_wp, wp_get_dev_info; [done|]. exists x, pd. split; [done|]. split; [done|]. by rw Ed.
Qed.

(** ** Queue groups *)

Definition drop_data (ps : list ptr) (O : snvm_dev_owner) : snvm_dev_owner :=
  O<{o_data_maps ::= λ l, foldl (λ l p, unlink p l) l ps}>.
Definition drop_gmaps (ps : list ptr) (G : snvm_qgroup) : snvm_qgroup :=
  G<{g_maps ::= λ l, foldl (λ l p, unlink p l) l ps}>.

Lemma unlink_all_elem q (ps l : list ptr) : q ∈ foldl (λ l p, unlink p l) l ps ↔ q ∈ l ∧ q ∉ ps.
Proof.
  revert l. induction ps as [|p ps IH]; intros l; simpl; [set_solver|].
  rw IH elem_of_unlink not_elem_of_cons. tauto.
Qed.
Lemma unlink_all (ps : list ptr) : foldl (λ l p, unlink p l) ps ps = [].
Proof.
  destruct (foldl _ ps ps) as [|q l] eqn:E1; [done|].
  assert (q ∈ foldl (λ l p, unlink p l) ps ps) as Hq by (rw E1; set_solver).
  by apply unlink_all_elem in Hq as [? []].
Qed.

Lemma drop_maps_cons p ps s : drop_maps (p :: ps) s = drop_maps ps (drop_map p s).
Proof. done. Qed.
Lemma drop_maps_owner ps o s : k_owners (drop_maps ps s) !! o = drop_data ps <$> k_owners s !! o.
Proof.
  revert s. induction ps as [|p ps IH]; intros s.
  - destruct (k_owners s !! o) as [[]|] eqn:Ho; by rw /drop_maps /= Ho.
  - rw drop_maps_cons IH drop_map_owners. by destruct (k_owners s !! o).
Qed.
Lemma drop_maps_group ps g s : k_groups (drop_maps ps s) !! g = drop_gmaps ps <$> k_groups s !! g.
Proof.
  revert s. induction ps as [|p ps IH]; intros s.
  - destruct (k_groups s !! g) as [[]|] eqn:Hg; by rw /drop_maps /= Hg.
  - rw drop_maps_cons IH drop_map_groups. by destruct (k_groups s !! g).
Qed.
Lemma drop_maps_set_owner ps o X s :
  drop_maps ps (set_owner o X s) = set_owner o (drop_data ps X) (drop_maps ps s).
Proof.
  revert X s. induction ps as [|p ps IH]; intros X s; [by destruct X|].
  rw !drop_maps_cons.
  assert (drop_map p (set_owner o X s) = set_owner o X<{o_data_maps ::= unlink p}> (drop_map p s)) as ->.
  { rw /drop_map /unlink_group /unlink_global /set_owner /=. by rw fmap_insert. }
  by rw IH.
Qed.
Lemma drop_maps_set_ctrl ps c x s : drop_maps ps (set_ctrl c x s) = set_ctrl c x (drop_maps ps s).
Proof.
  revert s. induction ps as [|p ps IH]; intros s; [done|].
  rw !drop_maps_cons -IH. f_equal.
Qed.
Lemma live_slot_drop_maps ps s c k q : live_slot (drop_maps ps s) c k q ↔ live_slot s c k q.
Proof.
  revert s. induction ps as [|p ps IH]; intros s; [done|].
  by rw drop_maps_cons IH live_slot_drop_map.
Qed.
Lemma drop_maps_ctrls ps s : k_ctrls (drop_maps ps s) = k_ctrls s.
Proof. revert s. induction ps as [|p ps IH]; intros s; [done|]. by rw drop_maps_cons IH. Qed.

(** The state after a group is gone. *)
Definition destroyed (g : ptr) (G : snvm_qgroup) (c : ptr) (x' : ctrl) (s : snvm) : snvm :=
  drop_group g (g_group_id G) (drop_maps (g_maps G) (set_ctrl c x' s)).

Lemma nr_groups_one s O g :
  owner_ok s O → g ∈ o_groups O → o_groups O = [g] ∧ o_nr_groups O = 1.
Proof.
  intros (_ & _ & _ & Hn & Hle & _) Hg. rw /NVM_MAX_GROUPS_PER_FD in Hle.
  destruct (o_groups O) as [|a [|b l]]; simpl in Hn.
  - by apply elem_of_nil in Hg.
  - apply list_elem_of_singleton in Hg. by subst.
  - lia.
Qed.

Section destroy.
Variables (s : snvm) (o g : ptr) (O : snvm_dev_owner) (G : snvm_qgroup).
Hypothesis Hinv : Inv s.
Hypothesis HO : k_owners s !! o = Some O.
Hypothesis Hg : g ∈ o_groups O.
Hypothesis HG : k_groups s !! g = Some G.

(** The file's descriptor with the group unlinked. *)
Definition without_group (n : Z) : snvm_dev_owner := O<{o_groups ::= unlink g}><{o_nr_groups := n}>.

Lemma Inv_destroyed x x' U :
  k_ctrls s !! o_ctrl O = Some x →
  (∀ q, q ∈ U ↔ ∃ k, live_slot s (o_ctrl O) k q) →
  (∀ k k' q, live_slot s (o_ctrl O) k q → live_slot s (o_ctrl O) k' q → k = k') →
  c_pdev x' = c_pdev x → pool_wf x' (U ∖ list_to_set (alive_qids (g_queues G))) →
  Inv (destroyed g G (o_ctrl O) x' (set_owner o (without_group 0) s)).
Proof.
  intros Hx HU Hinj Hpd Hwf. set (ps := g_maps G). rw /destroyed drop_maps_set_ctrl drop_maps_set_owner.
  eapply (Inv_drop_group o (drop_data ps O) _ g (drop_gmaps ps G) x x' U).
  - by apply Inv_drop_maps.
  - by rw drop_maps_owner HO.
  - done.
  - by rw drop_maps_group HG.
  - apply unlink_all.
  - by rw drop_maps_ctrls.
  - intros q. rw HU. by setoid_rewrite live_slot_drop_maps.
  - intros k k' q. rw !live_slot_drop_maps. apply Hinj.
  - done.
  - done.
  - destruct (nr_groups_one s O g) as [_ En]; [by apply (inv_owner s Hinv o)|done|].
    rw /without_group /drop_data /=. by rw En.
Qed.

(** What a destruction does to the machine: the Delete commands for the live
    queues, and then nothing but the release of memory. *)
Definition destroy_events (es : list event) : Prop :=
  ∃ x adm mem, k_ctrls s !! o_ctrl O = Some x ∧ es = adm ++ mem ∧
    drained (live_ndev s x) (reverse (alive_qids (g_queues G))) adm ∧ Forall mem_event mem.

(** Destroying a group of the file, whose descriptor no longer lists it. *)
Lemma wp_destroy_inv n (Q : unit → snvm → Prop) :
  (∀ x' s' es, destroy_events es →
     steps es (destroyed g G (o_ctrl O) x' (set_owner o (without_group n) s)) s' →
     Inv (destroyed g G (o_ctrl O) x' (set_owner o (without_group 0) s)) → Q tt s') →
  wp (destroy_qgroup_locked g (Some (o_ctrl O))) Q (set_owner o (without_group n) s).
Proof.
  intros HQ. destruct (inv_owner s Hinv o O HO) as ([x Hx] & _).
  destruct (inv_qids s Hinv _ x Hx) as (U & Hwf & HU & Hinj).
  destruct (Inv_group_qids s o O g G x U) as [Hnd Hin]; [done..|].
  destruct (inv_group s Hinv g G HG) as (Hlen & _ & _ & _ & _ & Hnm & Hgm).
  eapply (wp_destroy_qgroup g (o_ctrl O) G x U); [done|done| |done..| |exact (Inv_ctrls s Hinv)|].
  - by apply (inv_pdev s Hinv (o_ctrl O)).
  - apply (Inv_list_ok s); [done|]. intros p (m & ? & _)%Hgm. by eexists.
  - intros s' x' adm mem Hwf' Hre Hdr Hmem _ Hs. eapply HQ; [by exists x, adm, mem|exact Hs|].
    eapply Inv_destroyed; [done..| |done]. rw /rebitmap in Hre. by rw Hre.
Qed.
End destroy.

Lemma set_owner_alter o X f s :
  on_heap <[o := f X]> (set_owner o X s) = set_owner o (f X) s.
Proof. rw /set_owner /=. by rw insert_insert_eq. Qed.

Definition destroy_post (F : file) (gid : Z) (s : snvm) (r : Z) (s' : snvm) : Prop :=
  Inv s' ∧
  ((r ≠ 0 ∧ steps [] s s') ∨
   (r = 0 ∧ ∃ o O g G es, f_private F = Some o ∧ k_owners s !! o = Some O ∧ g ∈ o_groups O ∧
      k_groups s !! g = Some G ∧ g_group_id G = gid ∧ gid ≠ 0 ∧ destroy_events s O G es ∧
      k_log s' = k_log s ++ es ∧ k_groups s' !! g = None ∧
      (∀ p, p ∈ g_maps G → k_maps s' !! p = None))).

Lemma drop_maps_none ps p s : p ∈ ps → k_maps (drop_maps ps s) !! p = None.
Proof.
  assert (∀ ps s, k_maps s !! p = None → k_maps (drop_maps ps s) !! p = None) as Hkeep.
  { clear. intros ps. induction ps as [|q ps IH]; intros s Hp; [done|]. rw drop_maps_cons. apply IH.
    rw /= lookup_delete_None. by right. }
  revert s. induction ps as [|q ps IH]; intros s Hp; [by apply elem_of_nil in Hp|].
  rw drop_maps_cons. apply elem_of_cons in Hp as [->|Hp]; [|by apply IH].
  apply Hkeep. by rw /= lookup_delete_eq.
Qed.

Lemma destroyed_gone es g G c x' s s' :
  steps es (destroyed g G c x' s) s' →
  k_log s' = k_log s ++ es ∧ k_groups s' !! g = None ∧ (∀ p, p ∈ g_maps G → k_maps s' !! p = None).
Proof.
  intros (t & ->). rw /destroyed. cbn [k_log k_groups k_maps upd]. split_and!.
  - by rw !framed_log.
  - by rw /= lookup_delete_eq.
  - intros p Hp. by apply drop_maps_none.
Qed.

Lemma wp_destroy_group_spec f F c gid s :
  Inv s → k_files s !! f = Some F → f_cdev F = c →
  wp (nvm_destroy_queue_group f c gid) (destroy_post F gid s) s.
Proof.
  intros H HF Hcd. rw /nvm_destroy_queue_group. wp_step. eapply wp_load; [done|].
  destruct (f_private F) as [o|] eqn:Ho;
    [|wp_step; split; [done|]; left; split; [done|apply steps_refl]].
  destruct (inv_file s H f F o HF Ho) as (O & HO & Hc). rw -Hcd -Hc.
  wp_step. apply wp_copy_from. intros ok t.
  set (s1 := upd k_tick _ s). assert (Inv s1) as Ht by inv_core.
  assert (∀ r, r ≠ 0 → destroy_post F gid s r s1) as Herr.
  { intros r Hr. split; [done|]. left. split; [done|apply steps_tick]. }
  wp_step; [wp_step; by apply Herr|]. wp_step; [wp_step; by apply Herr|]. wp_step.
  eapply (wp_find_qgroup o O); [done|done|wp_step; by apply Herr|]. intros g G Hg HG Hid Hid0.
  wp_step. eapply wp_alter_obj; [done|]. wp_step.
  change (on_heap <[o := _]> s1) with (set_owner o (without_group g O (u32 (o_nr_groups O - 1))) s1).
  apply (wp_destroy_inv s1 o g O G); [done..|]. intros x' s2 es Hes Hs2 H2. wp_step.
  destruct (nr_groups_one s O g) as [_ En]; [by apply (inv_owner s H o)|done|].
  rw En in Hs2. split; [by eapply Inv_core; [eapply steps_core|]|]. right. split; [done|].
  destruct (destroyed_gone _ _ _ _ _ _ _ Hs2) as (Hlog & Hgn & Hmn).
  by exists o, O, g, G, es.
Qed.

Lemma wp_destroy_group f c gid s :
  Inv s → (∃ F, k_files s !! f = Some F ∧ f_cdev F = c) →
  wp (nvm_destroy_queue_group f c gid) (λ _ s', Inv s') s.
Proof.
  intros H (F & HF & Hcd). eapply wp_mono; [by eapply wp_destroy_group_spec|]. by intros r s' [? _].
Qed.

Lemma wp_create_group f c rq s :
  Inv s → (∃ F, k_files s !! f = Some F ∧ f_cdev F = c) →
  wp (nvm_create_queue_group f c rq) (λ _ s', Inv s') s.
Proof.
  intros H (F & HF & Hcd). rw /nvm_create_queue_group. wp_step. eapply wp_load; [done|].
  destruct (f_private F) as [o|] eqn:Ho; [|by wp_step].
  destruct (inv_file s H f F o HF Ho) as (O & HO & Hc). rw -Hcd -Hc.
  wp_step. apply wp_copy_from. intros ok t.
  set (s1 := upd k_tick _ s). assert (Inv s1) as Ht by inv_core.
  wp_step; [by wp_step|]. wp_step; [by wp_step|]. wp_step; [by wp_step|]. wp_step.
  eapply wp_load; [done|]. wp_step; [by wp_step|]. wp_step. apply wp_ask.
  set (s2 := upd k_tick _ s1). assert (Inv s2) as H2 by inv_core.
  wp_step; [by wp_step|]. wp_step. wp_step. wp_step. apply wp_ask.
  change (k_group_ida s2) with (k_group_ida s). set (id := env_ida _ _ _).
  set (s3 := upd k_tick _ s2). assert (Inv s3) as H3 by inv_core.
  wp_step; [by wp_step|]. destruct (env_ida_fresh (k_tick s2) (k_group_ida s) 1) as [Hfr Hr]; [lia|].
  fold id in Hfr, Hr. assert (u32 id = id) as -> by (apply u32_id; lia).
  wp_step. wp_step. wp_step. apply wp_create. wp_step. eapply wp_store; [done|].
  set (O' := O<{o_groups := _}><{o_nr_groups := _}>).
  match goal with |- context [wp _ _ ?x] => set (s4 := x) end.
  assert (Inv s4) as H4 by (apply (Inv_new_group o O id s3); [done..|lia|lia]).
  assert (k_owners s4 !! o = Some O') as HO4 by (by rw /= lookup_insert_eq).
  wp_step. apply wp_copy_to; intros s5 Hs5; pose proof (Inv_core _ _ (steps_core _ _ _ Hs5) H4) as H5;
    [|by wp_step]. destruct Hs5 as (t5 & Es5).
  assert (k_owners s5 !! o = Some O') as HO5 by (by rw Es5).
  wp_step. eapply wp_alter_obj; [done|]. wp_step. set (p := k_next s3) in *.
  assert (p ∈ o_groups O') as Hp by (rw /O' /=; set_solver).
  change (on_heap <[o := _]> s5) with (set_owner o (without_group p O' (u32 (o_nr_groups O' - 1))) s5).
  change (o_ctrl O) with (o_ctrl O').
  apply (wp_destroy_inv s5 o p O' (new_group id)); [done..| |].
  { by rw Es5 /= lookup_insert_eq. }
  intros x' s6 es _ Hs6 H6. wp_step.
  destruct (nr_groups_one s5 O' p) as [_ En]; [by apply (inv_owner s5 H5 o)|done|].
  rw En in Hs6. eapply Inv_core; [by eapply steps_core|done].
Qed.
End dev_inv.
