(* ===== verification/AddQueue.v ===== *)
(** * NVM_ADD_USER_QUEUE

    The handler resolves the rings of each pair among the group's own maps,
    takes ids from the pool, creates the queues on the device and records them;
    any failure gives every id back and deletes every queue it created. *)
From S2P Require Import Prelude KState P2p Ctrl Map QidPool QGroup Inv.
From S2P Require Import DevIoctl DevInv.

(** A bitmap stands for one set of ids. *)
Lemma pool_wf_inj x U U' : pool_wf x U → pool_wf x U' → U = U'.
Proof.
  rw /pool_wf. destruct (c_user_qid_bitmap x) as [bm|]; [|by intros -> ->].
  intros (_ & Hr & Hb) (_ & Hr' & Hb'). apply set_eq. intros q.
  assert (∀ V : gset Z, (∀ q, q ∈ V → c_user_qid_first x ≤ q ≤ c_user_qid_last x) →
    (∀ i, 0 ≤ i → Z.testbit bm i = bool_decide (c_user_qid_first x + i ∈ V)) →
    q ∈ V ↔ c_user_qid_first x ≤ q ∧ Z.testbit bm (q - c_user_qid_first x) = true) as Hchar.
  { intros V HV HVb. split.
    - intros Hq. pose proof (HV q Hq). split; [lia|]. rw HVb; [|lia].
      apply bool_decide_eq_true. by replace (c_user_qid_first x + _) with q by lia.
    - intros [Hle Ht]. rw HVb in Ht; [|lia]. apply bool_decide_eq_true in Ht.
      by replace (c_user_qid_first x + _) with q in Ht by lia. }
  by rw (Hchar U) // (Hchar U').
Qed.

Lemma same_pool_wf x x' U : c_pdev x' = c_pdev x → pool_wf x U → pool_wf x' U → same_pool x x'.
Proof. intros E Hx Hx'. split; [done|]. intros V HV. by rw (pool_wf_inj x V U). Qed.

Lemma pool_fresh_wf x nd :
  ndev_ok nd → nd_online_queues nd ≤ nd_ctrl_max_io_queues nd → pool_wf (pool_fresh x nd) ∅.
Proof.
  intros [Hn Hm] Hle. split; [rw /range_ok /=; lia|]. split; [by intros q ?%elem_of_empty|].
  intros i Hi. rw Z.bits_0. symmetry. apply bool_decide_eq_false_2. set_solver.
Qed.

(** Giving back a list of ids. *)
Lemma wp_free_all c x U l (Q : unit → snvm → Prop) s :
  k_ctrls s !! c = Some x → pool_wf x (U ∪ list_to_set l) → NoDup l → (∀ q, q ∈ l → q ∉ U) →
  (∀ x', pool_wf x' U → rebitmap x x' →
     (is_Some (c_user_qid_bitmap x) → is_Some (c_user_qid_bitmap x')) → Q tt (set_ctrl c x' s)) →
  wp (kfor (snvm_user_qid_free_locked c) l) Q s.
Proof.
  revert x s. induction l as [|q l IH]; intros x s Hc Hwf Hnd Hfr HQ; cbn [kfor].
  { wp_step. rw -(set_ctrl_id c x s Hc). apply HQ; [by rw /= right_id_L in Hwf|apply rebitmap_refl|done]. }
  apply NoDup_cons in Hnd as [Hq Hnd]. wp_step. eapply wp_qid_free; [done|exact Hwf|set_solver|].
  intros s1 x1 Hwf1 Hx1 Hb1 ->. eapply (IH x1); [by rw /= lookup_insert_eq| |done|set_solver|].
  - replace (U ∪ list_to_set l) with ((U ∪ list_to_set (q :: l)) ∖ {[q]}); [done|].
    specialize (Hfr q ltac:(set_solver)). clear -Hfr Hq. set_solver.
  - intros x2 Hwf2 Hx2 Hb2. rw set_ctrl_set. apply HQ; [done|by eapply rebitmap_trans|auto].
Qed.

(** ** Rings *)

(** The maps found for one pair: of the group, no data buffers, at the page of
    the address and of the kind the ring has or of no stated kind. *)
Definition ring_of (h : gmap ptr map) (maps : list ptr) (kind vaddr : Z) (p : ptr) : Prop :=
  p ∈ maps ∧ ∃ m, h !! p = Some m ∧ m_kind m ≠ NVM_MAP_KIND_DATA ∧ ring_matches kind vaddr m = true.
Definition rings_of (h : gmap ptr map) (maps : list ptr) (pr : nvm_user_queue_pair_in)
    (r : ptr * ptr) : Prop :=
  ring_of h maps NVM_MAP_KIND_RING_SQ (pi_sq_vaddr pr) r.1 ∧
  ring_of h maps NVM_MAP_KIND_RING_CQ (pi_cq_vaddr pr) r.2.

Section add_queue.
Context {E : kenv} {EL : kenv_laws E} {B : P2pBackend} {BL : P2pLaws B}.

Lemma wp_resolve_walk pr all maps m_sq m_cq (Q : option ptr * option ptr → snvm → Prop) s :
  (∀ p, p ∈ maps → p ∈ all) → allocated (k_maps s) maps →
  (∀ p, m_sq = Some p → ring_of (k_maps s) all NVM_MAP_KIND_RING_SQ (pi_sq_vaddr pr) p) →
  (∀ p, m_cq = Some p → ring_of (k_maps s) all NVM_MAP_KIND_RING_CQ (pi_cq_vaddr pr) p) →
  (∀ r,
    (∀ p, r.1 = Some p → ring_of (k_maps s) all NVM_MAP_KIND_RING_SQ (pi_sq_vaddr pr) p) →
    (∀ p, r.2 = Some p → ring_of (k_maps s) all NVM_MAP_KIND_RING_CQ (pi_cq_vaddr pr) p) → Q r s) →
  wp (resolve_walk pr maps m_sq m_cq) Q s.
Proof.
  revert m_sq m_cq. induction maps as [|p maps IH]; intros m_sq m_cq Hsub Hal Hsq Hcq HQ; cbn [resolve_walk].
  { wp_step. by apply HQ. }
  apply Forall_cons in Hal as [[m Hm] Hal]. wp_step. eapply wp_load; [done|].
  wp_step; [apply IH; [set_solver|done..]|]. cbv zeta.
  assert (∀ k v o, (∀ q, o = Some q → ring_of (k_maps s) all k v q) →
    ∀ q, (if ring_matches k v m then Some p else o) = Some q → ring_of (k_maps s) all k v q) as Hupd.
  { intros k v o Ho q. destruct (ring_matches k v m) eqn:Er; [|apply Ho]. intros [= <-].
    split; [apply Hsub; set_solver|]. exists m. split_and!; [done|lia|done]. }
  specialize (Hupd NVM_MAP_KIND_RING_SQ (pi_sq_vaddr pr) m_sq Hsq) as Hsq'.
  specialize (Hupd NVM_MAP_KIND_RING_CQ (pi_cq_vaddr pr) m_cq Hcq) as Hcq'.
  set (o1 := if ring_matches NVM_MAP_KIND_RING_SQ _ m then _ else m_sq) in *.
  set (o2 := if ring_matches NVM_MAP_KIND_RING_CQ _ m then _ else m_cq) in *. clearbody o1 o2.
  assert (∀ q, q ∈ maps → q ∈ all) by set_solver.
  destruct o1; [destruct o2|]; [wp_step; by apply HQ|by apply IH..].
Qed.

Lemma wp_resolve_pairs maps prs (Q : option (list (ptr * ptr)) → snvm → Prop) s :
  allocated (k_maps s) maps → Q None s →
  (∀ rings, Forall2 (rings_of (k_maps s) maps) prs rings → Q (Some rings) s) →
  wp (resolve_pairs maps prs) Q s.
Proof.
  intros Hal. revert Q. induction prs as [|pr prs IH]; intros Q Hn Hs; cbn [resolve_pairs].
  { wp_step. by apply Hs. }
  wp_step. eapply (wp_resolve_walk pr maps); [done..|]. intros [[p1|] [p2|]] H1 H2; [|by wp_step..].
  wp_step. apply IH; [by wp_step|]. intros rings Hr. wp_step. apply Hs. constructor; [|done].
  by split; [apply H1|apply H2].
Qed.

(** ** Creating the queues *)

(** The ring address of a map. *)
Definition prp_of (h : gmap ptr map) (p : ptr) : option Z := m ← h !! p; m_addrs m !! 0%nat.

Definition cq_cmd (nd : nvme_dev) (prp qid : Z) : nvme_command :=
  CreateCq prp (u16 qid) (u16 (nd_q_depth nd - 1)) NVME_QUEUE_PHYS_CONTIG 0.
Definition sq_cmd (nd : nvme_dev) (prp qid : Z) : nvme_command :=
  CreateSq prp (u16 qid) (u16 (nd_q_depth nd - 1)) NVME_QUEUE_PHYS_CONTIG (u16 qid).

(** The two commands that created the pair [(sq_map, cq_map, qid)]: the
    completion queue before the submission queue that refers to it. *)
Definition pair_created (h : gmap ptr map) (d : ptr) (nd : nvme_dev) (e : ptr * ptr * Z)
    (es : list event) : Prop :=
  ∃ a_sq a_cq, prp_of h e.1.1 = Some a_sq ∧ prp_of h e.1.2 = Some a_cq ∧
    es = [EvAdmin d (cq_cmd nd a_cq e.2) 0; EvAdmin d (sq_cmd nd a_sq e.2) 0].

(** The commands of the pair at which creation stops: a refused CQ, or a
    refused SQ whose CQ is then deleted. *)
Definition pair_failed (d : ptr) (nd : nvme_dev) (q rc : Z) (es : list event) : Prop :=
  ∃ a_cq, es = [EvAdmin d (cq_cmd nd a_cq q) rc] ∨
  ∃ a_sq r, es = [EvAdmin d (cq_cmd nd a_cq q) 0; EvAdmin d (sq_cmd nd a_sq q) rc;
                  EvAdmin d (DeleteQueue nvme_admin_delete_cq (u16 q)) r].

Lemma wp_alloc_cq d nd p a qid (Q : Z → snvm → Prop) s :
  k_ndevs s !! d = Some nd → prp_of (k_maps s) p = Some a →
  (∀ r s', steps [EvAdmin d (cq_cmd nd a qid) r] s s' → Q r s') → wp (adapter_alloc_cq_user d p qid) Q s.
Proof.
  intros Hd (m & Hm & Ha)%bind_Some HQ. rw /adapter_alloc_cq_user. wp_step. eapply wp_load; [done|].
  wp_step. eapply wp_load; [done|]. wp_step. eapply wp_from_option; [done|]. by apply wp_submit.
Qed.
Lemma wp_alloc_sq d nd p a qid (Q : Z → snvm → Prop) s :
  k_ndevs s !! d = Some nd → prp_of (k_maps s) p = Some a →
  (∀ r s', steps [EvAdmin d (sq_cmd nd a qid) r] s s' → Q r s') → wp (adapter_alloc_sq_user d p qid) Q s.
Proof.
  intros Hd (m & Hm & Ha)%bind_Some HQ. rw /adapter_alloc_sq_user. wp_step. eapply wp_load; [done|].
  wp_step. eapply wp_load; [done|]. wp_step. eapply wp_from_option; [done|]. by apply wp_submit.
Qed.

Definition has_prp (h : gmap ptr map) (e : ptr * ptr * Z) : Prop :=
  is_Some (prp_of h e.1.1) ∧ is_Some (prp_of h e.1.2).

Lemma wp_create_queues d nd l n (Q : Z * nat → snvm → Prop) s :
  k_ndevs s !! d = Some nd → Forall (has_prp (k_maps s)) l →
  (∀ ess s', Forall2 (pair_created (k_maps s) d nd) l ess → steps (concat ess) s s' →
     Q (0, (n + length l)%nat) s') →
  (∀ l1 e l2 ess es rc s', l = l1 ++ e :: l2 → Forall2 (pair_created (k_maps s) d nd) l1 ess → rc ≠ 0 →
     pair_failed d nd e.2 rc es → steps (concat ess ++ es) s s' → Q (rc, (n + length l1)%nat) s') →
  wp (create_queues d l n) Q s.
Proof.
  revert n Q s. induction l as [|[[sq cq] q] l IH]; intros n Q s Hd Hl Hok Herr; cbn [create_queues].
  { wp_step. rw -{1}(Nat.add_0_r n). apply (Hok []); [done|apply steps_refl]. }
  apply Forall_cons in Hl as [[[a1 H1] [a2 H2]] Hl]. simpl in H1, H2.
  wp_step. eapply wp_alloc_cq; [done..|]. intros r1 s1 Hs1. pose proof Hs1 as (t1 & E1).
  wp_step.
  { wp_step. rw -{1}(Nat.add_0_r n). eapply (Herr [] (sq, cq, q) l []); [done|done|rw /c_true in E0; lia| |exact Hs1].
    exists a2. by left. }
  assert (r1 = 0) as -> by (rw /c_true in E0; lia). wp_step.
  eapply (wp_alloc_sq _ nd _ a1); [by rw E1|by rw E1|]. intros r2 s2 Hs2. pose proof Hs2 as (t2 & E2).
  wp_step.
  { wp_step. apply wp_submit. intros r3 s3 Hs3. wp_step. rw -{1}(Nat.add_0_r n).
    eapply (Herr [] (sq, cq, q) l []); [done|done|rw /c_true in E3; lia| |].
    - exists a2. right. exists a1, r3. done.
    - eapply (steps_trans [_]); [exact Hs1|]. eapply (steps_trans [_]); [exact Hs2|exact Hs3]. }
  assert (r2 = 0) as -> by (rw /c_true in E3; lia).
  assert (k_maps s2 = k_maps s) as Em by (by rw E2 E1).
  assert (steps [EvAdmin d (cq_cmd nd a2 q) 0; EvAdmin d (sq_cmd nd a1 q) 0] s s2) as Hs
    by (eapply (steps_trans [_]); [exact Hs1|exact Hs2]).
  apply IH; [by rw E2 E1|by rw Em|..].
  - rw Em. intros ess s' Hess Hs'. rw Nat.add_succ_comm. eapply (Hok (_ :: ess)).
    + constructor; [|done]. by exists a1, a2.
    + eapply steps_trans; [exact Hs|exact Hs'].
  - rw Em. intros l1 e l2 ess es rc s' -> Hess Hrc Hf Hs'. rw Nat.add_succ_comm.
    eapply (Herr ((sq, cq, q) :: l1) e l2 (_ :: ess)); [done| |done|done|].
    + constructor; [|done]. by exists a1, a2.
    + cbn [concat]. rw -app_assoc. eapply steps_trans; [exact Hs|exact Hs'].
Qed.

(** ** Undoing *)

Lemma wp_delete_pairs d l (Q : unit → snvm → Prop) s :
  (∀ es s', drained (Some d) l es → steps es s s' → Q tt s') → wp (kfor (delete_pair d) l) Q s.
Proof.
  revert Q s. induction l as [|q l IH]; intros Q s HQ; cbn [kfor].
  { wp_step. by apply (HQ []); [|apply steps_refl]. }
  rw /delete_pair. wp_step. wp_step. apply wp_submit. intros r1 s1 H1. wp_step. apply wp_submit.
  intros r2 s2 H2. wp_step. apply IH. intros es s3 Hd H3. eapply (HQ (_ :: _ :: es)).
  - exists r1, r2, es. done.
  - eapply (steps_trans [_]); [exact H1|]. eapply (steps_trans [_]); [exact H2|exact H3].
Qed.

(** ** Recording *)

Definition new_queue (e : nvm_user_queue_pair_in * Z) : snvm_user_queue :=
  UserQueue e.2 1 (pi_sq_vaddr e.1) (pi_cq_vaddr e.1).

Lemma put_slots_cons qs i a new :
  (i < length qs)%nat → put_slots (<[i := a]> qs) (S i) new = put_slots qs i (a :: new).
Proof.
  intros Hi. rw /put_slots. rw (take_S_r _ _ a); [|by apply list_lookup_insert_eq].
  rw take_insert_ge // -app_assoc /=. rw drop_insert_lt; [|lia]. do 4 f_equal. lia.
Qed.

Lemma wp_commit_queues g i l G (Q : unit → snvm → Prop) s :
  k_groups s !! g = Some G → (i + length l ≤ length (g_queues G))%nat →
  Q tt (set_group g G<{g_queues := put_slots (g_queues G) i (new_queue <$> l)}> s) →
  wp (commit_queues g i l) Q s.
Proof.
  revert i G s. induction l as [|[pr q] l IH]; intros i G s HG Hl HQ; cbn [commit_queues].
  { wp_step. rw /put_slots /= Nat.add_0_r take_drop in HQ.
    rw set_group_id in HQ; [done|]. rw HG. by destruct G. }
  simpl in Hl. wp_step. eapply wp_load; [done|].
  destruct (lookup_lt_is_Some_2 (g_queues G) i) as [uq Hi]; [lia|].
  wp_step. eapply wp_from_option; [done|]. wp_step. eapply wp_store; [done|].
  change (on_heap <[g := ?x]> s) with (set_group g x s). eapply IH; [by rw /= lookup_insert_eq| |].
  - rw /= length_insert. lia.
  - rw set_group_set /=. rw put_slots_cons; [|lia]. exact HQ.
Qed.

Lemma wp_uncommit g c d new pre post G x U (Q : unit → snvm → Prop) s :
  k_groups s !! g = Some G → g_queues G = pre ++ new ++ post → k_ctrls s !! c = Some x →
  pool_wf x (U ∪ list_to_set (uq_qid <$> new)) → NoDup (uq_qid <$> new) →
  (∀ q, q ∈ uq_qid <$> new → q ∉ U) →
  (∀ x' es s', pool_wf x' U → rebitmap x x' → drained (Some d) (uq_qid <$> new) es →
     steps es (set_group g G<{g_queues := pre ++ (dead <$> new) ++ post}> (set_ctrl c x' s)) s' → Q tt s') →
  wp (kfor (uncommit_queue g c d) (seq (length pre) (length new))) Q s.
Proof.
  revert pre G x s Q. induction new as [|uq new IH]; intros pre G x s Q HG Hqs Hc Hwf Hnd Hfr HQ;
    cbn [kfor seq length].
  { wp_step. apply (HQ x []); [by rw /= right_id_L in Hwf|apply rebitmap_refl|done|].
    rw /= -Hqs set_ctrl_id // set_group_id; [apply steps_refl|]. rw HG. by destruct G. }
  cbn [fmap list_fmap] in *. apply NoDup_cons in Hnd as [Hq Hnd].
  rw /uncommit_queue. wp_step. wp_step. eapply wp_load; [done|]. wp_step.
  eapply wp_from_option; [by rw Hqs; apply list_lookup_middle|].
  wp_step. apply wp_submit. intros r1 s1 H1. wp_step. apply wp_submit. intros r2 s2 H2.
  pose proof (steps_trans _ _ _ _ _ H1 H2) as H12. destruct H12 as (t & Es2). wp_step.
  eapply wp_store; [by rw Es2|]. change (on_heap <[g := ?x]> s2) with (set_group g x s2).
  set (G1 := G<{g_queues := _}>).
  eapply (wp_qid_free c x); [by rw Es2|exact Hwf|set_solver|]. intros s3 x1 Hwf1 Hx1 _ ->.
  assert (g_queues G1 = (pre ++ [dead uq]) ++ new ++ post) as EG1.
  { rw /G1 /= Hqs insert_app_r_alt // Nat.sub_diag /= -app_assoc //. }
  replace (S (length pre)) with (length (pre ++ [dead uq])) by (rw length_app /=; lia).
  eapply (IH _ G1 x1 (set_ctrl c x1 (set_group g G1 s2)));
    [by rw /= lookup_insert_eq|exact EG1|by rw /= lookup_insert_eq| |done|set_solver|].
  { replace (U ∪ list_to_set (uq_qid <$> new)) with
      ((U ∪ list_to_set (uq_qid uq :: (uq_qid <$> new))) ∖ {[uq_qid uq]}); [done|].
    specialize (Hfr (uq_qid uq) ltac:(set_solver)). clear -Hfr Hq. set_solver. }
  intros x2 es s4 Hwf2 Hx2 Hdr Hs4. eapply (HQ x2 (_ :: _ :: es)); [done|by eapply rebitmap_trans| |].
  - exists r1, r2, es. done.
  - assert (G1<{g_queues := (pre ++ [dead uq]) ++ (dead <$> new) ++ post}> =
      G<{g_queues := pre ++ (dead uq :: (dead <$> new)) ++ post}>) as EG2 by (rw /G1 -app_assoc //).
    rw EG2 set_ctrl_set set_ctrl_group set_group_set in Hs4.
    eapply (steps_trans [_; _]); [|exact Hs4].
    eapply (steps_framed (λ s, set_group g _ (set_ctrl c x2 s))); [apply framed_compose; apply _|].
    exists t. exact Es2.
Qed.

(** ** The queues that exist on the device

    The pairs (is it an SQ?, id) that a sequence of admin commands leaves: a
    create command that succeeds adds one, a delete command that succeeds removes
    one, and a command the device refuses changes nothing. *)
Definition dev_apply (qs : gset (bool * Z)) (e : event) : gset (bool * Z) :=
  match e with
  | EvAdmin _ (CreateCq _ q _ _ _) rc => if rc =? 0 then {[(false, q)]} ∪ qs else qs
  | EvAdmin _ (CreateSq _ q _ _ _) rc => if rc =? 0 then {[(true, q)]} ∪ qs else qs
  | EvAdmin _ (DeleteQueue op q) rc => if rc =? 0 then qs ∖ {[(op =? nvme_admin_delete_sq, q)]} else qs
  | _ => qs
  end.
Definition dev_run (es : list event) (qs : gset (bool * Z)) : gset (bool * Z) := foldl dev_apply qs es.

(** The queues whose deletion the device refused. *)
Definition refusal (e : event) : option (bool * Z) :=
  match e with
  | EvAdmin _ (DeleteQueue op q) rc => if rc =? 0 then None else Some (op =? nvme_admin_delete_sq, q)
  | _ => None
  end.
Definition refused (es : list event) : list (bool * Z) := omap refusal es.

Lemma dev_run_app es es' qs : dev_run (es ++ es') qs = dev_run es' (dev_run es qs).
Proof. apply foldl_app. Qed.
Lemma refused_app es es' : refused (es ++ es') = refused es ++ refused es'.
Proof. apply omap_app. Qed.

Definition qid16 (q : Z) : Prop := 0 ≤ q < 2 ^ 16.

Lemma elem_of_dev_created h d nd l ess qs b q :
  Forall2 (pair_created h d nd) l ess → Forall qid16 l.*2 →
  (b, q) ∈ dev_run (concat ess) qs ↔ (b, q) ∈ qs ∨ q ∈ l.*2.
Proof.
  intros Hess. revert qs. induction Hess as [|e es l ess (a1 & a2 & _ & _ & ->) _ IH]; intros qs Hr.
  { simpl. set_solver. }
  apply Forall_cons in Hr as [He Hr]. cbn [concat]. rw dev_run_app IH // fmap_cons elem_of_cons.
  rw /dev_run /=. rw u16_id //. destruct b; set_solver.
Qed.
Lemma refused_created h d nd l ess : Forall2 (pair_created h d nd) l ess → refused (concat ess) = [].
Proof.
  induction 1 as [|e es l ess (a1 & a2 & _ & _ & ->) _ IH]; [done|]. cbn [concat]. by rw refused_app IH.
Qed.

Lemma refused_drained d l es b q :
  drained (Some d) l es → Forall qid16 l → (b, q) ∈ refused es → q ∈ l.
Proof.
  revert es. induction l as [|q' l IH]; intros es; cbn [drained]; [by intros -> _ ?%elem_of_nil|].
  intros (r1 & r2 & es' & -> & Hd) [Hq Hr]%Forall_cons. rw /refused /= -/(refused es') u16_id //.
  specialize (IH es' Hd Hr). destruct (r1 =? 0), (r2 =? 0); set_solver.
Qed.

Lemma elem_of_dev_drained d l es qs b q :
  drained (Some d) l es → Forall qid16 l → NoDup l →
  (b, q) ∈ dev_run es qs ↔ (b, q) ∈ qs ∧ (q ∉ l ∨ (b, q) ∈ refused es).
Proof.
  revert es qs. induction l as [|q' l IH]; intros es qs; cbn [drained].
  { intros -> _ _. simpl. set_solver. }
  intros (r1 & r2 & es' & -> & Hd) [Hq Hr]%Forall_cons [Hn Hnd]%NoDup_cons.
  pose proof (refused_drained _ _ _ b q Hd Hr) as Hsub.
  rw /dev_run /= -/(dev_run es' _) /refused /= -/(refused es') u16_id // IH // not_elem_of_cons.
  destruct (decide (q = q')) as [->|Hne].
  - destruct b, (r1 =? 0) eqn:?, (r2 =? 0) eqn:?; set_solver.
  - destruct b, (r1 =? 0) eqn:?, (r2 =? 0) eqn:?; set_solver.
Qed.

Lemma dev_run_failed d nd q rc es qs b q' :
  pair_failed d nd q rc es → rc ≠ 0 → qid16 q → (false, q) ∉ qs →
  ((b, q') ∈ dev_run es qs ↔ (b, q') ∈ qs ∨ (b, q') ∈ refused es) ∧ ((b, q') ∈ refused es → q' = q).
Proof.
  intros (a & [->|(a' & r & ->)]) Hrc Hq Hn; rw /dev_run /refused /=.
  - assert ((rc =? 0) = false) as -> by lia. set_solver.
  - assert ((rc =? 0) = false) as -> by lia. rw u16_id //. destruct (r =? 0); set_solver.
Qed.

(** ** The handler *)

Lemma wp_pool_ready c x nd U (Q : Z → snvm → Prop) s :
  k_ctrls s !! c = Some x → pool_wf x U → ndev_ok nd →
  (∀ e s', e < 0 → steps [] s s' → Q e s') →
  (∀ x1 s', c_pdev x1 = c_pdev x → pool_wf x1 U → is_Some (c_user_qid_bitmap x1) →
     steps [] (set_ctrl c x1 s) s' → Q 0 s') →
  wp (snvm_user_qid_pool_init_locked c (Some nd)) Q s.
Proof.
  intros Hc Hwf Hnd Herr Hok. eapply wp_pool_init; [done|..].
  - intros Hb. eapply (Hok x); [done..|]. rw set_ctrl_id //. apply steps_refl.
  - intros s' e _ He Es El. apply Herr; [done|]. by apply steps_of_core.
  - intros s' Hb _ _ Hle Es El. eapply (Hok (pool_fresh x nd)); [done| |done|by apply steps_of_core].
    rw /pool_wf Hb in Hwf. rw Hwf. by apply pool_fresh_wf.
Qed.

Section add.
Variables (s : snvm) (o g d : ptr) (O : snvm_dev_owner) (G : snvm_qgroup) (nd : nvme_dev).
Variables (x : ctrl) (U : gset Z) (rq : nvm_ioctl_add_user_queue) (rings : list (ptr * ptr)).
Hypothesis Hinv : Inv s.
Hypothesis HO : k_owners s !! o = Some O.
Hypothesis Hg : g ∈ o_groups O.
Hypothesis HG : k_groups s !! g = Some G.
Hypothesis Hd : k_ndevs s !! d = Some nd.
Hypothesis Hx : k_ctrls s !! o_ctrl O = Some x.
Hypothesis Hwf : pool_wf x U.
Hypothesis HU : ∀ q, q ∈ U ↔ ∃ k, live_slot s (o_ctrl O) k q.
Hypothesis Hinj : ∀ k k' q, live_slot s (o_ctrl O) k q → live_slot s (o_ctrl O) k' q → k = k'.
Hypothesis Hrings : Forall2 (rings_of (k_maps s) (g_maps G)) (req_pairs rq) rings.
Hypothesis Hlen : Z.of_nat (length (req_pairs rq)) = aq_nr_pairs rq.
Hypothesis Hfit : g_cur_queues G + aq_nr_pairs rq ≤ NVM_MAX_QUEUES_PER_GROUP.
Let c : ptr := o_ctrl O.
Let cur : nat := Z.to_nat (g_cur_queues G).

(** The new queues, recorded. *)
Definition added_queues (qids : list Z) : list snvm_user_queue := new_queue <$> zip (req_pairs rq) qids.
Definition added_group (qids : list Z) : snvm_qgroup :=
  G<{g_queues := put_slots (g_queues G) cur (added_queues qids)}>
   <{g_cur_queues := g_cur_queues G + aq_nr_pairs rq}>.

Definition add_done (s' : snvm) : Prop := ∃ x' qids ess,
  NoDup qids ∧ Z.of_nat (length qids) = aq_nr_pairs rq ∧ Forall qid16 qids ∧ (∀ q, q ∈ qids → q ∉ U) ∧
  pool_wf x' (U ∪ list_to_set qids) ∧ c_pdev x' = c_pdev x ∧
  Forall2 (pair_created (k_maps s) d nd) (zip rings qids) ess ∧
  steps (concat ess ++ [EvCopyOut (OutPairs (pair_out nd <$> qids))])
    (set_group g (added_group qids) (set_ctrl c x' s)) s'.

(** Commands whose only lasting effect on a device whose queues are those of [U]
    are the queues it refused to delete. *)
Definition no_effect (es : list event) : Prop :=
  ∀ qs, (∀ b q, (b, q) ∈ qs → q ∈ U) →
    ∀ b q, (b, q) ∈ dev_run es qs ↔ (b, q) ∈ qs ∨ (b, q) ∈ refused es.
Lemma no_effect_nil : no_effect [].
Proof. intros qs _ b q. simpl. set_solver. Qed.

Definition add_undone (s' : snvm) : Prop := ∃ x' G' es,
  pool_wf x' U ∧ c_pdev x' = c_pdev x ∧ same_alive (g_queues G) (g_queues G') ∧
  length (g_queues G') = length (g_queues G) ∧ G' = G<{g_queues := g_queues G'}> ∧
  no_effect es ∧ steps es (set_group g G' (set_ctrl c x' s)) s'.

Lemma rings_has_prp qids : length qids = length rings → Forall (has_prp (k_maps s)) (zip rings qids).
Proof.
  intros Hl. apply Forall_forall. intros [[sq cq] q] Hin%elem_of_zip_l.
  assert (∀ k v p, ring_of (k_maps s) (g_maps G) k v p → is_Some (prp_of (k_maps s) p)) as Hprp.
  { intros k v p (_ & m & Hm & _). rw /prp_of Hm /=. apply lookup_lt_is_Some_2.
    destruct (inv_map s Hinv p m Hm) as (_ & ? & ?). lia. }
  apply list_elem_of_lookup in Hin as [i Hi].
  destruct (Forall2_lookup_r _ _ _ _ _ Hrings Hi) as (pr & _ & Hsq & Hcq). split; by eapply Hprp.
Qed.

Lemma Inv_undone s' : add_undone s' → Inv s'.
Proof.
  intros (x' & G' & es & Hwf' & Hpd & Halive & Hql & EG & _ & Hs).
  eapply Inv_core; [by eapply steps_core|].
  assert (Inv (set_ctrl c x' s)) as H1 by (eapply (Inv_set_ctrl c x); [done..|by eapply same_pool_wf]).
  eapply (Inv_set_group g G); [done|done|done|by rw EG|].
  destruct (inv_group _ Hinv g G HG) as (G1 & G2 & G3 & G4 & G5 & G6 & G7). rw EG.
  split; [by rw /= Hql|]. do 2 (split; [done|]). split; [|done]. simpl. intros i uq Hi. split.
  - intros Ha. apply (G4 i uq); [|done]. by apply Halive.
  - intros Hlt. destruct (lookup_lt_is_Some_2 (g_queues G) i) as [uq' Hi']; [lia|].
    assert (uq_alive uq' ≠ 0) as Ha' by (by apply (G4 i uq')). apply (Halive i uq' Ha') in Hi'. congruence.
Qed.

Lemma Inv_done s' : add_done s' → Inv s'.
Proof.
  intros (x' & qids & ess & Hnd & Hl & Hr & Hfr & Hwf' & Hpd & _ & Hs).
  assert (uq_qid <$> added_queues qids = qids) as Eq.
  { rw /added_queues -list_fmap_compose. rw (list_fmap_ext _ snd) //.
    rw snd_zip; [done|]. lia. }
  assert (Z.of_nat (length (added_queues qids)) = aq_nr_pairs rq) as El.
  { rw -(length_fmap uq_qid) Eq //. }
  eapply Inv_core; [by eapply steps_core|]. rw /added_group -El.
  eapply (Inv_add_queues s o g O G x x' U); rw ?Eq //; [|lia].
  apply Forall_forall. intros uq (e & -> & _)%list_elem_of_fmap. done.
Qed.

Lemma no_effect_rollback qids l1 e l2 ess es1 es2 rc :
  Forall qid16 qids → length rings = length qids → (∀ q, q ∈ qids → q ∉ U) → NoDup qids →
  zip rings qids = l1 ++ e :: l2 → Forall2 (pair_created (k_maps s) d nd) l1 ess → rc ≠ 0 →
  pair_failed d nd e.2 rc es1 → drained (Some d) (reverse (take (length l1) qids)) es2 →
  no_effect ((concat ess ++ es1) ++ es2).
Proof.
  intros Hr Hl Hfr Hnd Ez Hess Hrc Hf Hdr qs Hqs.
  assert (qids = l1.*2 ++ e.2 :: l2.*2) as Eq by (rw -(snd_zip rings qids); [by rw Ez fmap_app|lia]).
  assert (take (length l1) qids = l1.*2) as Et by (rw Eq take_app_length' // length_fmap //).
  rw Et in Hdr. rw Eq in Hr. apply Forall_app in Hr as [Hr1 [Hre _]%Forall_cons].
  rw Eq in Hnd. apply NoDup_app in Hnd as (Hnd1 & Hdis & _). intros b q.
  assert (Forall qid16 (reverse l1.*2)) as Hrr by (by apply Forall_reverse).
  pose proof (refused_drained _ _ _ b q Hdr Hrr) as Hsub. rw elem_of_reverse in Hsub.
  assert ((false, e.2) ∉ dev_run (concat ess) qs) as Hnew.
  { rw (elem_of_dev_created _ _ _ _ _ _ _ _ Hess) //. intros [Hin|Hin].
    - apply (Hfr e.2); [rw Eq; set_solver|by eapply Hqs].
    - apply (Hdis e.2); [done|set_solver]. }
  destruct (dev_run_failed d nd e.2 rc es1 _ b q Hf Hrc Hre Hnew) as [H1 H1'].
  rw !dev_run_app (elem_of_dev_drained _ _ _ _ _ _ Hdr) //; [|by rw (reverse_Permutation l1.*2)].
  rw H1 (elem_of_dev_created _ _ _ _ _ _ _ _ Hess) // elem_of_reverse.
  rw !refused_app (refused_created _ _ _ _ _ Hess) app_nil_l elem_of_app.
  assert (¬ ((b, q) ∈ qs ∧ q ∈ l1.*2)) as Hold.
  { intros [Hin Hq]. apply (Hfr q); [rw Eq; set_solver|by eapply Hqs]. }
  assert (¬ ((b, q) ∈ refused es1 ∧ q ∈ l1.*2)) as Hold1.
  { intros [->%H1' Hq]. apply (Hdis e.2); [done|set_solver]. }
  tauto.
Qed.

Lemma no_effect_revert qids ess es :
  Forall qid16 qids → length rings = length qids → (∀ q, q ∈ qids → q ∉ U) → NoDup qids →
  Forall2 (pair_created (k_maps s) d nd) (zip rings qids) ess → drained (Some d) qids es →
  no_effect (concat ess ++ es).
Proof.
  intros Hr Hl Hfr Hnd Hess Hdr qs Hqs b q.
  assert ((zip rings qids).*2 = qids) as Eq by (apply snd_zip; lia).
  pose proof (refused_drained _ _ _ b q Hdr Hr) as Hsub.
  rw dev_run_app (elem_of_dev_drained _ _ _ _ _ _ Hdr) // (elem_of_dev_created _ _ _ _ _ _ _ _ Hess) Eq //.
  rw refused_app (refused_created _ _ _ _ _ Hess) app_nil_l.
  assert (¬ ((b, q) ∈ qs ∧ q ∈ qids)) as Hold; [|tauto].
  intros [Hin Hq]. apply (Hfr q); [done|by eapply Hqs].
Qed.

(** A group's slots past its count are dead, so reverting them changes nothing. *)
Lemma same_alive_revert new :
  (cur + length new ≤ length (g_queues G))%nat →
  same_alive (g_queues G) (put_slots (g_queues G) cur (dead <$> new)).
Proof.
  intros Hl i uq Ha. destruct (inv_group _ Hinv g G HG) as (G1 & _ & G3 & G4 & _).
  rw lookup_put_slots ?length_fmap //. case_decide as Hi; [|done]. rw list_lookup_fmap. split.
  - intros Hq. apply (G4 i uq) in Ha; [lia|done].
  - intros (uq' & _ & ->)%fmap_Some. done.
Qed.

(** What the handler promises at the end, [r] being its result. *)
Definition add_post (r : Z) (s' : snvm) : Prop := (r = 0 ∧ add_done s') ∨ (r ≠ 0 ∧ add_undone s').

(** The second half: the queues exist on the device. *)
Section commit.
Variables (x2 : ctrl) (qids : list Z) (ess : list (list event)) (s3 : snvm).
Hypothesis Hlq : Z.of_nat (length qids) = aq_nr_pairs rq.
Hypothesis Hnd : NoDup qids.
Hypothesis Hr16 : Forall qid16 qids.
Hypothesis Hfr : ∀ q, q ∈ qids → q ∉ U.
Hypothesis Hwf2 : pool_wf x2 (U ∪ list_to_set qids).
Hypothesis Hp2 : c_pdev x2 = c_pdev x.
Hypothesis Hess : Forall2 (pair_created (k_maps s) d nd) (zip rings qids) ess.
Hypothesis H3 : steps (concat ess) (set_ctrl c x2 s) s3.

Lemma added_qids : uq_qid <$> added_queues qids = qids.
Proof.
  rw /added_queues -list_fmap_compose (list_fmap_ext _ snd) // snd_zip //. lia.
Qed.
Lemma length_added : length (added_queues qids) = length qids.
Proof. by rw -(length_fmap uq_qid) added_qids. Qed.

Lemma steps_added : steps (concat ess) (set_group g (added_group qids) (set_ctrl c x2 s))
  (set_group g (added_group qids) s3).
Proof. eapply steps_framed; [apply _|exact H3]. Qed.

(** Reverting the new slots. *)
Lemma wp_add_revert s4 :
  steps [] (set_group g (added_group qids) s3) s4 →
  wp (kfor (uncommit_queue g c d) (seq cur (Z.to_nat (aq_nr_pairs rq)));;
      alter_obj g (λ y : snvm_qgroup, y<{g_cur_queues := u32 (g_cur_queues y - aq_nr_pairs rq)}>);;
      mret (- EFAULT)) add_post s4.
Proof.
  intros Hs4. pose proof (steps_trans _ _ _ _ _ steps_added Hs4) as H14. rw app_nil_r in H14.
  pose proof H14 as (t4 & Es4). destruct (inv_group s Hinv g G HG) as (G1 & _ & G3 & _).
  pose proof length_added as El. pose proof Hfit as Hfit'. rw /NVM_MAX_QUEUES_PER_GROUP in G1 G3 Hfit'.
  set (new := added_queues qids) in *. set (post := drop (cur + length new) (g_queues G)).
  replace (Z.to_nat (aq_nr_pairs rq)) with (length new) by lia.
  assert (length (take cur (g_queues G)) = cur) as Ecur by (rw length_take; lia).
  wp_step. rw -Ecur.
  eapply (wp_uncommit g c d new (take cur (g_queues G)) post (added_group qids) x2 U);
    [by rw Es4 /= lookup_insert_eq|done|by rw Es4 /= lookup_insert_eq|by rw added_qids..|].
  intros x5 es5 s5 Hwf5 Hx5 Hdr Hs5. rw added_qids in Hdr. pose proof Hs5 as (t5 & Es5).
  wp_step. eapply wp_alter_obj; [by rw Es5 /= lookup_insert_eq|]. wp_step. right. split; [done|].
  cbn [g_cur_queues upd added_group].
  assert (u32 (g_cur_queues G + aq_nr_pairs rq - aq_nr_pairs rq) = g_cur_queues G) as ->.
  { replace (_ - _) with (g_cur_queues G) by lia. apply u32_id. lia. }
  assert (put_slots (g_queues G) cur (dead <$> new) =
    take cur (g_queues G) ++ (dead <$> new) ++ post) as Eps by (by rw /put_slots length_fmap).
  set (G' := G<{g_queues := take cur (g_queues G) ++ (dead <$> new) ++ post}>).
  exists x5, G', (concat ess ++ es5). split; [done|]. split; [by rw Hx5|].
  split; [rw /= -Eps; apply same_alive_revert; lia|].
  split; [rw /= -Eps length_put_slots // length_fmap; lia|]. split; [done|].
  split; [apply (no_effect_revert qids); [done| |done..]|].
  { pose proof (Forall2_length _ _ _ Hrings). lia. }
  apply (steps_framed (set_group g G')) in Hs5; [|apply _]. rw set_group_set in Hs5.
  eapply steps_trans; [|exact Hs5].
  apply (steps_framed (λ s, set_group g G' (set_ctrl c x5 s))) in H14; [|apply framed_compose; apply _].
  by rw set_ctrl_group set_group_set set_ctrl_set in H14.
Qed.

Lemma wp_add_commit : wp (add_commit c d g nd rq qids) add_post s3.
Proof.
  rw /add_commit. pose proof H3 as (t3 & Es3). wp_step. eapply wp_load; [by rw Es3|]. wp_step.
  destruct (inv_group s Hinv g G HG) as (G1 & _ & G3 & _).
  pose proof Hfit as Hfit'. rw /NVM_MAX_QUEUES_PER_GROUP in G1 G3 Hfit'.
  eapply (wp_commit_queues g _ _ G); [by rw Es3|rw length_zip; lia|].
  fold (added_queues qids). wp_step. eapply wp_alter_obj; [by rw /= lookup_insert_eq|].
  change (on_heap <[g := ?y]> ?z) with (set_group g y z). rw set_group_set. wp_step.
  cbn [g_cur_queues upd].
  assert (u32 (g_cur_queues G + aq_nr_pairs rq) = g_cur_queues G + aq_nr_pairs rq) as ->
    by (apply u32_id; lia).
  fold (added_group qids). apply wp_copy_to; intros s4 Hs4; [by apply wp_add_revert|].
  wp_step. left. split; [done|]. exists x2, qids, ess. do 7 (split; [done|]).
  eapply steps_trans; [exact steps_added|exact Hs4].
Qed.
End commit.

Lemma wp_add_queues : wp (add_queues c d g rq rings) add_post s.
Proof.
  pose proof (Forall2_length _ _ _ Hrings) as Hlr.
  rw /add_queues. wp_step. eapply wp_load; [done|]. wp_step.
  eapply (wp_pool_ready c x nd U); [done|done|by apply (inv_ndev s Hinv d)|..].
  { intros e s1 He Hs1. assert (c_true e = true) as -> by (rw /c_true; lia). wp_step. right.
    split; [lia|]. exists x, G, []. do 4 (split; [done|]). split; [by destruct G|]. split; [apply no_effect_nil|].
    rw set_ctrl_id // set_group_id //. }
  intros x1 s1 Hp1 Hwf1 Hb1 (t1 & ->). cbn [c_true]. wp_step; [done|]. wp_step.
  eapply (wp_qid_alloc c x1 U); [by rw /= lookup_insert_eq|done|done|lia|..].
  { intros s2 x2 qids Hwf2 Hx2 ->. cbn [fst snd]. wp_step; [|done]. wp_step. right. split; [done|].
    exists x2, G, []. split; [done|]. split; [by rw Hx2|]. do 2 (split; [done|]).
    split; [by destruct G|]. split; [apply no_effect_nil|]. rw set_group_id //. exists t1.
    rw /set_ctrl /=. by rw insert_insert_eq. }
  intros s2 x2 qids Hlq Hnd Hfr Hwf2 Hx2 Hb2 Hrange Es2. cbn [fst snd]. wp_step; [done|].
  assert (Forall qid16 qids) as Hr16.
  { apply Forall_forall. intros q Hq. pose proof (Hrange q Hq) as Hq'. rw /pool_wf in Hwf1.
    destruct Hb1 as [bm Hbm]. rw Hbm in Hwf1. destruct Hwf1 as [[Hr0 Hr1] _].
    rw /qid16. lia. }
  assert (steps [] (set_ctrl c x2 s) s2) as Hs2.
  { exists t1. rw Es2 /set_ctrl /=. by rw insert_insert_eq. }
  clear Es2. pose proof Hs2 as (t2 & Es2).
  wp_step. eapply (wp_create_queues d nd); [by rw Es2|rw Es2; apply rings_has_prp; lia|..].
  - intros ess s3 Hess Hs3. cbn [fst snd]. wp_step; [done|].
    assert (k_maps s2 = k_maps s) as Em by (by rw Es2). rw Em in Hess.
    eapply (wp_add_commit x2 qids ess); [done..|by rw Hx2|done|].
    eapply (steps_trans []); [exact Hs2|exact Hs3].
  - intros l1 e l2 ess es1 rc s3 Ez Hess Hrc Hf Hs3. cbn [fst snd Nat.add].
    assert (c_true rc = true) as -> by (rw /c_true; lia).
    pose proof (steps_trans _ _ _ _ _ Hs2 Hs3) as H13. cbn [app] in H13.
    rw /add_rollback. wp_step. wp_step. apply wp_delete_pairs. intros es2 s4 Hdr Hs4.
    pose proof (steps_trans _ _ _ _ _ H13 Hs4) as H14. pose proof H14 as (t4 & Es4).
    eapply (wp_free_all c x2 U); [by rw Es4 /= lookup_insert_eq|done..|].
    intros x5 Hwf5 Hx5 _. wp_step. right. split; [done|].
    exists x5, G, ((concat ess ++ es1) ++ es2). split; [done|]. split; [by rw Hx5 Hx2|].
    do 2 (split; [done|]). split; [by destruct G|]. split.
    + assert (k_maps s2 = k_maps s) as Em by (by rw Es2). rw Em in Hess.
      eapply (no_effect_rollback qids); [done|lia|done..].
    + apply (steps_framed (set_ctrl c x5)) in H14; [|apply _]. rw set_ctrl_set in H14.
      rw set_group_id //.
Qed.
End add.

(** The request as the C type has it: an array of 16 pairs. *)
Definition add_req_wf (rq : nvm_ioctl_add_user_queue) : Prop :=
  Z.of_nat (length (aq_pairs rq)) = NVM_MAX_QUEUES_PER_GROUP ∧ 0 ≤ aq_nr_pairs rq.

Lemma add_req_ok_len rq :
  add_req_wf rq → add_req_ok rq = true →
  1 ≤ aq_nr_pairs rq ≤ NVM_MAX_QUEUES_PER_GROUP ∧ Z.of_nat (length (req_pairs rq)) = aq_nr_pairs rq.
Proof.
  intros [Hw Hnn]. rw /add_req_ok !andb_true_iff !negb_true_iff orb_false_iff.
  intros [[_ [H1 H2]] _]. split; [lia|]. rw /req_pairs length_take. lia.
Qed.

(** What the handler does when it reaches the pool: [add_done] on success, and
    [add_undone] on failure, for the group the request names. *)
Lemma wp_add_user_queue f F c rq s :
  Inv s → k_files s !! f = Some F → f_cdev F = c → add_req_wf rq →
  wp (nvm_add_user_queue f c rq) (λ r s',
    (r ≠ 0 ∧ steps [] s s') ∨
    ∃ s0 o O g G d nd x U rings, steps [] s s0 ∧ f_private F = Some o ∧ k_owners s !! o = Some O ∧
      g ∈ o_groups O ∧ k_groups s !! g = Some G ∧ g_group_id G = aq_group_id rq ∧
      live_ndev s x = Some d ∧ k_ndevs s !! d = Some nd ∧ k_ctrls s !! c = Some x ∧ o_ctrl O = c ∧
      pool_wf x U ∧ add_req_ok rq = true ∧
      Forall2 (rings_of (k_maps s) (g_maps G)) (req_pairs rq) rings ∧
      g_cur_queues G + aq_nr_pairs rq ≤ NVM_MAX_QUEUES_PER_GROUP ∧ Inv s' ∧
      add_post s0 g d O G nd x U rq rings r s') s.
Proof.
  intros H HF Hcd Hw. rw /nvm_add_user_queue. wp_step. eapply wp_load; [done|].
  destruct (f_private F) as [o|] eqn:Ho; [|wp_step; left; split; [done|apply steps_refl]].
  destruct (inv_file s H f F o HF Ho) as (O & HO & Hc). rw Hcd in Hc. clear Hcd. subst c. set (c := o_ctrl O).
  wp_step. apply wp_ask. set (s1 := upd k_tick _ s).
  assert (steps [] s s1) as Hs1 by apply steps_tick. wp_step; [wp_step; by left|].
  wp_step. apply wp_copy_from. intros ok t. set (s2 := upd k_tick _ s1).
  assert (steps [] s s2) as Hs2 by (eapply (steps_trans [] []); [exact Hs1|apply steps_tick]).
  assert (Inv s2) as H2 by (by eapply Inv_core; [eapply steps_core|]).
  wp_step; [wp_step; by left|]. wp_step; [wp_step; by left|].
  rename select (negb (add_req_ok rq) = false) into Hok. apply negb_false_iff in Hok.
  destruct (inv_owner s H o O HO) as ([x Hx] & _). 
  destruct (inv_qids s H c x Hx) as (U & Hwf & HU & Hinj).
  wp_step. eapply (wp_get_live_ndev c x); [done|exact (inv_pdev s H c x Hx)|].
  destruct (live_ndev s2 x) as [d|] eqn:Elive; [|wp_step; by left].
  wp_step. eapply (wp_find_qgroup o O); [done|done|wp_step; by left|].
  intros g G Hg HG Hid _. wp_step. eapply wp_load; [done|].
  destruct (add_req_ok_len rq Hw Hok) as [Hn Hl].
  destruct (inv_group s H g G HG) as (_ & Hmax & Hcur & _ & _ & _ & Hgm).
  rw /NVM_MAX_QUEUES_PER_GROUP in Hn Hcur.
  rw u32_id; [|lia]. rw Hmax. wp_step; [wp_step; by left|].
  rename select ((_ <? _) = false) into Hroom. wp_step.
  eapply wp_resolve_pairs; [apply Forall_forall; intros p (m & ? & _)%Hgm; by eexists|wp_step; by left|].
  intros rings Hr.
  assert (∃ nd, k_ndevs s !! d = Some nd) as [nd Hnd].
  { rw /live_ndev in Elive. apply bind_Some in Elive as (pd & _ & Elive). case_match; [done|].
    apply bind_Some in Elive as (d' & _ & Elive). apply bind_Some in Elive as (nd & Hnd & Elive).
    case_match; simplify_eq. by exists nd. }
  eapply wp_mono; [by eapply (wp_add_queues s2 o g d O G nd x U); try done; lia|].
  intros r s3 Hpost. right. exists s2, o, O, g, G, d, nd, x, U, rings.
  do 13 (split; [done|]). split; [lia|]. split; [|done].
  destruct Hpost as [[_ Hd]|[_ Hu]].
  - eapply (Inv_done s2 o g d O G nd x U rq rings); try done; lia.
  - by eapply (Inv_undone s2 g O G x U).
Qed.
End add_queue.
