(* ===== verification/DevStep.v ===== *)
(** * File operations and the invariant

    [open] and [release] keep the invariant, [release] leaves nothing of the
    closed file behind, and so every system call on /dev/ssnvme<N> keeps it. *)
From S2P Require Import Prelude KState P2p Ctrl Map QidPool QGroup Inv.
From S2P Require Import DevIoctl DevFile DevInv AddQueue.

(** ** Losing maps *)

(** Exactly the maps that satisfy [P] are gone, from the heap and the lists. *)
Definition minus (P : ptr → Prop) (s s' : snvm) : Prop :=
  (∀ p m, k_maps s' !! p = Some m ↔ k_maps s !! p = Some m ∧ ¬ P p) ∧
  (∀ l p, p ∈ k_glist l s' ↔ p ∈ k_glist l s ∧ ¬ P p).

Lemma minus_trans P P' s1 s2 s3 :
  minus P s1 s2 → minus P' s2 s3 → minus (λ p, P p ∨ P' p) s1 s3.
Proof.
  intros [M1 L1] [M2 L2]. split.
  - intros p m. rw M2 M1. tauto.
  - intros l p. rw L2 L1. tauto.
Qed.
Lemma minus_frame P s1 s2 s2' :
  k_maps s2' = k_maps s2 → (∀ l, k_glist l s2' = k_glist l s2) → minus P s1 s2 → minus P s1 s2'.
Proof. intros E1 E2 [M L]. split; [by rw E1|]. intros l p. by rw E2. Qed.
Lemma minus_core P s1 s2 s2' : s2' ≡ₗ s2 → minus P s1 s2 → minus P s1 s2'.
Proof. intros (l & t & ->)%same_core_inv. by apply minus_frame; [|intros []]. Qed.
Lemma minus_refl P s : (∀ p, ¬ P p) → minus P s s.
Proof. intros HP. split; intros; naive_solver. Qed.

Lemma minus_drop_map p s : minus (.= p) s (drop_map p s).
Proof.
  split.
  - intros q m. destruct (decide (q = p)) as [->|Hne].
    + rw /= lookup_delete_eq. naive_solver.
    + rw drop_map_lookup //. tauto.
  - intros l q. rw drop_map_glist elem_of_unlink. tauto.
Qed.
Lemma minus_drop_maps ps s : minus (.∈ ps) s (drop_maps ps s).
Proof.
  revert s. induction ps as [|p ps IH]; intros s.
  - apply minus_refl. intros q ?%elem_of_nil. done.
  - rw drop_maps_cons. pose proof (minus_trans _ _ _ _ _ (minus_drop_map p s) (IH (drop_map p s))) as [M L].
    split; intros; setoid_rewrite elem_of_cons; [apply M|apply L].
Qed.

Section dev_step.
Context {E : kenv} {EL : kenv_laws E} {B : P2pBackend} {BL : P2pLaws B}.
Variable current : ptr.

(** ** open *)

Lemma wp_open f F s :
  Inv s → k_files s !! f = Some F → f_private F = None →
  wp (snvm_dev_open current f) (λ r s', Inv s' ∧
    (r = 0 → f_cdev F ∈ k_ctrl_list s ∧
       ∃ o, k_files s' !! f = Some F<{f_private := Some o}> ∧ k_owners s !! o = None ∧
         k_owners s' = <[o := DevOwner (f_cdev F) current [] 0 [] 0]> (k_owners s))) s.
Proof.
  intros H HF HFp. rw /snvm_dev_open. wp_step. eapply wp_load; [done|]. wp_step.
  apply wp_ctrl_find_by_inode; [by apply Inv_ctrls|]. case_bool_decide as Hin; [|by wp_step].
  wp_step. apply wp_ask. set (s1 := upd k_tick _ s). assert (Inv s1) as H1 by inv_core.
  wp_step; [by wp_step|]. wp_step. apply wp_create. wp_step. eapply wp_alter_obj; [done|]. wp_step.
  split.
  - apply (Inv_open f F current s1); [done..|]. by apply (inv_ctrl_list s H).
  - intros _. split; [done|]. exists (k_next s). rw /= lookup_insert_eq. split; [done|].
    split; [|done]. by apply (inv_next s H).
Qed.

(** ** release *)

Lemma wp_count_rings owner ps rb (Q : Z * Z → snvm → Prop) s :
  allocated (k_maps s) ps → (∀ rb', Q rb' s) → wp (count_rings owner ps rb) Q s.
Proof.
  intros Hal HQ. revert rb. induction Hal as [|p ps [m Hm] _ IH]; intros rb; cbn [count_rings].
  - wp_step. apply HQ.
  - wp_step. eapply wp_load; [done|]. apply IH.
Qed.

Lemma Inv_allocated s l : Inv s → allocated (k_maps s) (k_glist l s).
Proof. intros H. apply Forall_forall. intros p Hp%glist_listed. by apply (inv_listed s H). Qed.

Lemma drop_maps_files ps s : k_files (drop_maps ps s) = k_files s.
Proof. revert s. induction ps as [|p ps IH]; intros s; [done|]. by rw drop_maps_cons IH. Qed.

(** What the passes of [release] leave of a file: its descriptor, less maps. *)
Definition keeps_file (f : ptr) (F : file) (o : ptr) (O : snvm_dev_owner) (s : snvm) : Prop :=
  Inv s ∧ k_files s !! f = Some F ∧ (∀ g, g ∈ o_groups O → k_groups s !! g = None) ∧
  ∃ O', k_owners s !! o = Some O' ∧ o_ctrl O' = o_ctrl O ∧ o_groups O' = [].

Lemma keeps_drop f F o O ps s s' :
  s' ≡ₗ drop_maps ps s → keeps_file f F o O s → keeps_file f F o O s'.
Proof.
  intros Es (H & HF & Hgs & O' & HO & Hc & Hg). split; [by eapply Inv_core; [|apply Inv_drop_maps]|].
  apply same_core_inv in Es as (l & t & ->). cbn [k_files k_owners k_groups upd].
  split; [by rw drop_maps_files|]. split; [intros g Hin; by rw drop_maps_group Hgs|]. exists (drop_data ps O'). by rw drop_maps_owner HO.
Qed.

(** One purge: the maps of [owner] without a group leave the list. *)
Definition purged (l : glist) (owner : ptr) (s : snvm) (p : ptr) : Prop :=
  p ∈ k_glist l s ∧ ∃ m, k_maps s !! p = Some m ∧ purgeable owner m = true.

Lemma wp_purge l owner f F o O (Q : Z → snvm → Prop) s :
  keeps_file f F o O s →
  (∀ n s', keeps_file f F o O s' → minus (purged l owner s) s s' → Q n s') →
  wp (map_purge_by_owner l owner) Q s.
Proof.
  intros Hk HQ. pose proof Hk as (H & _).
  apply wp_map_purge_by_owner; [by apply Inv_glist_nodup|by apply Inv_glist_ok|by apply Inv_ctrls|].
  intros s' Hs%moves_core. apply HQ; [by eapply keeps_drop|]. eapply minus_core; [exact Hs|].
  set (vs := victims _ _ _). assert (∀ p, p ∈ vs ↔ purged l owner s p) as Hvs.
  { intros p. rw /vs /victims list_elem_of_filter /victim /purged.
    destruct (k_maps s !! p) as [m|]; naive_solver. }
  destruct (minus_drop_maps vs s) as [M L]. split.
  - intros p m. rw M Hvs. done.
  - intros l' p. rw L Hvs. done.
Qed.

Definition in_groups (s : snvm) (O : snvm_dev_owner) (p : ptr) : Prop :=
  ∃ g G, g ∈ o_groups O ∧ k_groups s !! g = Some G ∧ p ∈ g_maps G.

(** The state once the groups are destroyed. *)
Definition groups_gone (f : ptr) (F : file) (o : ptr) (O : snvm_dev_owner) (s s' : snvm) : Prop :=
  keeps_file f F o O s' ∧ minus (in_groups s O) s s' ∧
  ∃ O', k_owners s' !! o = Some O' ∧
    (∀ p, p ∈ o_data_maps O' ↔ p ∈ o_data_maps O ∧ ¬ in_groups s O p).

Lemma groups_none f F o O s :
  Inv s → k_files s !! f = Some F → k_owners s !! o = Some O → o_groups O = [] →
  groups_gone f F o O s (set_owner o O<{o_nr_groups := 0}> s).
Proof.
  intros H HF HO Hg. destruct (inv_owner s H o O HO) as (_ & _ & _ & Hn & _). rw Hg /= in Hn.
  assert (set_owner o O<{o_nr_groups := 0}> s = s) as ->.
  { rw /set_owner /=. rw insert_id; [by destruct s|]. rw HO. destruct O. simpl in *. by subst. }
  assert (∀ p, ¬ in_groups s O p) as Hno.
  { intros p (g & G & Hin & _). rw Hg in Hin. by apply elem_of_nil in Hin. }
  split; [split_and!; [done|done|intros g; rw Hg; by intros ?%elem_of_nil|]; by exists O|].
  split; [by apply minus_refl|]. exists O. split; [done|]. naive_solver.
Qed.

Lemma groups_one f F o O g G x' s s1 es :
  Inv s → k_files s !! f = Some F → k_owners s !! o = Some O → o_groups O = [g] →
  k_groups s !! g = Some G →
  steps es (destroyed g G (o_ctrl O) x' (set_owner o (without_group g O 0) s)) s1 →
  Inv (destroyed g G (o_ctrl O) x' (set_owner o (without_group g O 0) s)) →
  groups_gone f F o O s s1.
Proof.
  intros H HF HO Hg HG Hs H'. set (ps := g_maps G).
  assert (unlink g (o_groups O) = []) as Eu by (rw Hg; apply unlink_cons_eq, not_elem_of_nil).
  assert (∀ p, in_groups s O p ↔ p ∈ ps) as Hin.
  { intros p. rw /in_groups Hg. split.
    - intros (g' & G' & Eg%list_elem_of_singleton & HG' & Hp). subst. by simplify_eq.
    - intros Hp. exists g, G. split; [|done]. by apply list_elem_of_singleton. }
  pose proof (steps_core _ _ _ Hs) as Es. rw /destroyed drop_maps_set_ctrl drop_maps_set_owner in Es.
  set (X := drop_data ps (without_group g O 0)) in *.
  assert (k_owners s1 !! o = Some X ∧ k_files s1 !! f = Some F ∧ k_groups s1 !! g = None) as (HX & HF1 & Hg1).
  { apply same_core_inv in Es as (l & t & ->). cbn [k_owners k_files k_groups upd]. split_and!.
    - by rw /= lookup_insert_eq.
    - by rw /= drop_maps_files.
    - by rw /= lookup_delete_eq. }
  split.
  { split; [eapply Inv_core; [by eapply steps_core|done]|]. split; [done|].
    split; [intros g'; rw Hg; by intros ->%list_elem_of_singleton|]. by exists X. }
  split.
  { eapply minus_core; [exact Es|]. destruct (minus_drop_maps ps s) as [M L].
    split; [intros p m|intros l p]; rw Hin; [apply M|rw -L; by destruct l]. }
  exists X. split; [done|]. intros p. rw Hin /X /drop_data /=. apply unlink_all_elem.
Qed.

(** The loop over the groups, up to the reset of their number. *)
Lemma wp_release_groups f F o O (Q : unit → snvm → Prop) s :
  Inv s → k_files s !! f = Some F → k_owners s !! o = Some O →
  (∀ s1 O1, k_owners s1 !! o = Some O1 →
     groups_gone f F o O s (set_owner o O1<{o_nr_groups := 0}> s1) → Q tt s1) →
  wp (kfor (λ g, alter_obj o (λ x : snvm_dev_owner, x<{o_groups ::= unlink g}>);;
                 destroy_qgroup_locked g (Some (o_ctrl O))) (o_groups O)) Q s.
Proof.
  intros H HF HO HQ. pose proof (inv_owner s H o O HO) as Hok. pose proof Hok as (_ & _ & Hgs & _).
  destruct (o_groups O) as [|g l] eqn:Hg; [apply wp_ret, (HQ s O); [done|by apply groups_none]|].
  destruct (nr_groups_one s O g) as [Eg En]; [done|rw Hg; set_solver|].
  rw Hg in Eg. simplify_eq. destruct (Hgs g) as [G HG]; [set_solver|].
  cbn [kfor]. wp_step. wp_step. eapply wp_alter_obj; [done|].
  assert (O<{o_groups ::= unlink g}> = without_group g O (o_nr_groups O)) as -> by (by destruct O).
  change (on_heap <[o := ?y]> s) with (set_owner o y s).
  apply (wp_destroy_inv s o g O G); [done|done|rw Hg; set_solver|done|].
  intros x' s1 es _ Hs1 H1. wp_step.
  set (X := drop_data (g_maps G) (without_group g O (o_nr_groups O))).
  assert (k_owners s1 !! o = Some X) as HX.
  { destruct Hs1 as (t & ->). rw /destroyed drop_maps_set_ctrl drop_maps_set_owner /=.
    by rw lookup_insert_eq. }
  apply (HQ s1 X HX). eapply (groups_one f F o O g G x' s _ es); [done..| |done].
  apply (steps_framed (set_owner o X<{o_nr_groups := 0}>)) in Hs1; [|apply _].
  assert (set_owner o X<{o_nr_groups := 0}>
      (destroyed g G (o_ctrl O) x' (set_owner o (without_group g O (o_nr_groups O)) s)) =
    destroyed g G (o_ctrl O) x' (set_owner o (without_group g O 0) s)) as Eq.
  { rw /destroyed !drop_maps_set_ctrl !drop_maps_set_owner.
    rw /set_owner /drop_group /=. by rw insert_insert_eq. }
  by rw Eq in Hs1.
Qed.

(** Everything that belongs to the file, and every map of its task that is in
    no group. *)
Definition released (s : snvm) (O : snvm_dev_owner) (p : ptr) : Prop :=
  in_groups s O p ∨ p ∈ o_data_maps O ∨
  ∃ m, k_maps s !! p = Some m ∧ purgeable (o_owner O) m = true.

Lemma keeps_set_owner f F o O O1 n s :
  keeps_file f F o O s → k_owners s !! o = Some O1 →
  keeps_file f F o O (set_owner o O1<{o_nr_data_maps := n}> s).
Proof.
  intros (H & HF & Hgs & O' & HO & Hc & Hg) HO1. simplify_eq.
  destruct (inv_owner s H o O' HO) as (_ & _ & _ & _ & _ & Hnd & Hdm).
  split; [by eapply (Inv_set_owner o O')|]. do 2 (split; [done|]). eexists. by rw /= lookup_insert_eq.
Qed.

(** Three purges clear all lists. *)
Lemma purged_all owner P s0 s1 s2 s3 s4 :
  Inv s0 → minus P s0 s1 → minus (purged HostList owner s1) s1 s2 →
  minus (purged DeviceList owner s2) s2 s3 → minus (purged DeviceQueueList owner s3) s3 s4 →
  ∀ p m, k_maps s4 !! p = Some m ↔
    k_maps s0 !! p = Some m ∧ ¬ (P p ∨ ∃ m, k_maps s0 !! p = Some m ∧ purgeable owner m = true).
Proof.
  intros H [M1 L1] [M2 L2] [M3 L3] [M4 L4] p m. rw M4 M3 M2 M1. split.
  - intros ((((Hm & HP) & H1) & H2) & H3). split; [done|]. intros [?|(m' & Hm' & Hp)]; [done|].
    simplify_eq. assert (k_maps s1 !! p = Some m) as Hs1 by (by apply M1).
    assert (k_maps s2 !! p = Some m) as Hs2 by (by apply M2).
    assert (k_maps s3 !! p = Some m) as Hs3 by (by apply M3).
    assert (p ∈ listed s0) as Hl by (apply inv_listed; [done|by eexists]). rw /listed !elem_of_app in Hl.
    destruct Hl as [Hl|[Hl|Hl]].
    + apply H1. split; [by apply L1|by eexists].
    + apply H2. split; [|by eexists]. apply L2. split; [by apply L1|done].
    + apply H3. split; [|by eexists]. apply L3. split; [|done]. apply L2. split; [by apply L1|done].
  - intros [Hm Hn]. split_and!; [done|tauto|..].
    + intros (_ & m' & Hm'%M1 & Hp). apply Hn. right. exists m'. tauto.
    + intros (_ & m' & [[Hm' _]%M1 _]%M2 & Hp). apply Hn. right. by exists m'.
    + intros (_ & m' & [[[Hm' _]%M1 _]%M2 _]%M3 & Hp). apply Hn. right. by exists m'.
Qed.

Definition release_post (f : ptr) (F : file) (o : ptr) (O : snvm_dev_owner) (s : snvm)
    (r : Z) (s' : snvm) : Prop :=
  r = 0 ∧ Inv s' ∧ k_files s' !! f = Some F<{f_private := None}> ∧ k_owners s' !! o = None ∧
  (∀ g, g ∈ o_groups O → k_groups s' !! g = None) ∧
  (∀ p m, k_maps s' !! p = Some m ↔ k_maps s !! p = Some m ∧ ¬ released s O p).

Lemma wp_release_tail f F o O rb s s4 :
  Inv s → f_private F = Some o → keeps_file f F o O s4 →
  minus (λ p, in_groups s O p ∨ p ∈ o_data_maps O) s s4 →
  wp (release_tail f o (o_ctrl O) (o_owner O) rb) (release_post f F o O s) s4.
Proof.
  intros H Hp Hk4 Hm4. rw /release_tail.
  wp_step. eapply wp_purge; [exact Hk4|]. intros _ s5 Hk5 Hm5.
  wp_step. eapply wp_purge; [exact Hk5|]. intros _ s6 Hk6 Hm6.
  wp_step. eapply wp_purge; [exact Hk6|]. intros _ s7 (H7 & HF7 & Hg7 & O7 & HO7 & Hc7 & Hgs7) Hm7.
  destruct (inv_owner s7 H7 o O7 HO7) as ([x Hx] & _). rw Hc7 in Hx.
  wp_step. eapply wp_alter_obj; [done|]. wp_step. eapply wp_kfree_obj; [done|]. wp_step.
  eapply wp_alter_obj; [done|]. wp_step. split; [done|].
  match goal with |- Inv (on_heap _ (on_heap _ ?y)) ∧ _ => set (s8 := y) end.
  assert (Inv s8) as H8 by (by eapply Inv_alter_ctrl).
  split; [by apply (Inv_close f F o O7 s8)|]. split; [by rw /= lookup_insert_eq|].
  split; [by rw /= lookup_delete_eq|]. split; [done|].
  intros p m. rw /released.
  rw (purged_all (o_owner O) _ s s4 s5 s6 s7 H Hm4 Hm5 Hm6 Hm7 p m). tauto.
Qed.

Lemma wp_release f F o O s :
  Inv s → k_files s !! f = Some F → f_private F = Some o → k_owners s !! o = Some O →
  wp (snvm_dev_release f) (release_post f F o O s) s.
Proof.
  intros H HF Hp HO. rw /snvm_dev_release. wp_step. eapply wp_load; [done|]. rw Hp. wp_step.
  eapply wp_load; [done|]. wp_step. eapply (wp_release_groups f F o O); [done..|].
  intros s1 O1 HO1 (Hk2 & Hm2 & O2 & HO2 & Hd2). wp_step. eapply wp_alter_obj; [done|].
  change (on_heap <[o := ?y]> s1) with (set_owner o y s1). set (s2 := set_owner o _ s1) in *.
  pose proof Hk2 as (H2 & _). destruct (inv_owner s2 H2 o O2 HO2) as (_ & _ & _ & _ & _ & Hnd & Hdm).
  wp_step. eapply wp_load; [done|]. wp_step.
  apply wp_release_all; [done|apply Inv_list_ok; [done|]; intros p (m & ? & _)%Hdm; by eexists|
    by apply Inv_ctrls|]. intros s3 Hs3%moves_core. set (ps := o_data_maps O2) in *.
  pose proof (keeps_drop _ _ _ _ _ _ _ Hs3 Hk2) as Hk3.
  assert (k_owners s3 !! o = Some (drop_data ps O2)) as HO3.
  { apply same_core_inv in Hs3 as (l & t & ->). cbn [k_owners upd]. by rw drop_maps_owner HO2. }
  pose proof (minus_trans _ _ _ _ _ Hm2 (minus_core _ _ _ _ Hs3 (minus_drop_maps ps s2))) as Hm3.
  wp_step. eapply wp_alter_obj; [done|]. change (on_heap <[o := ?y]> s3) with (set_owner o y s3).
  set (s4 := set_owner o _ s3). pose proof (keeps_set_owner _ _ _ _ _ 0 _ Hk3 HO3) as Hk4.
  assert (minus (λ p, in_groups s O p ∨ p ∈ o_data_maps O) s s4) as Hm4.
  { destruct Hm3 as [M L]. split; [intros p m|intros l p].
    - rw M Hd2. tauto.
    - assert (k_glist l s4 = k_glist l s3) as -> by (by destruct l). rw L Hd2. tauto. }
  wp_step. wp_step. wp_step. apply wp_count_rings; [apply (Inv_allocated s4 HostList), Hk4|].
  intros rb1. wp_step. wp_step. wp_step.
  apply wp_count_rings; [apply (Inv_allocated s4 DeviceQueueList), Hk4|]. intros rb2.
  exact (wp_release_tail f F o O rb2 s s4 H Hp Hk4 Hm4).
Qed.

(** ** The dispatcher *)

(** The request structure of NVM_ADD_USER_QUEUE has its fixed array of pairs and
    an unsigned count; every other command is accepted as it is. *)
Definition cmd_wf (cmd : dev_cmd) : Prop :=
  match cmd with NVM_ADD_USER_QUEUE rq => add_req_wf rq | _ => True end.

(** The commands that cannot fault: sizes whose descriptor does not overflow, and
    for NVM_GET_DEV_INFO driver data that is this module's.  The legacy command
    NVM_MAP_DEVICE_QUEUE_MEMORY is not among them: its error path reads a slot that
    was never written. *)
Definition cmd_ok (s : snvm) (c : ptr) (cmd : dev_cmd) : Prop :=
  match cmd with
  | NVM_MAP_HOST_MEMORY rq => OFFSET_ADDRS + rq_n_pages rq * 8 < 2 ^ 64
  | NVM_MAP_DEVICE_MEMORY rq => rq_n_pages rq < 2 ^ 32
  | NVM_MAP_DEVICE_QUEUE_MEMORY _ => False
  | NVM_GET_DEV_INFO => drvdata_ok s c
  | NVM_ADD_USER_QUEUE rq => add_req_wf rq
  | _ => True
  end.

Lemma wp_dev_ioctl f F cmd s :
  Inv s → k_files s !! f = Some F → cmd_ok s (f_cdev F) cmd →
  wp (snvm_dev_map_ioctl current f cmd) (λ _ s', Inv s') s.
Proof.
  intros H HF Hok. assert (is_Some (k_files s !! f)) as Hf by (by eexists).
  rw /snvm_dev_map_ioctl. wp_step. eapply wp_load; [done|]. wp_step.
  apply wp_ctrl_find_by_inode; [by apply Inv_ctrls|]. case_bool_decide as Hin; [|by wp_step].
  apply (inv_ctrl_list s H) in Hin as Hc.
  destruct cmd; cbn [cmd_ok] in Hok; try done.
  - by apply wp_map_host.
  - by apply wp_map_device.
  - by apply wp_unmap_host.
  - by apply wp_unmap_device.
  - by apply wp_unmap_device_queue.
  - by apply wp_set_ioq_num.
  - by apply wp_set_share_reg.
  - by apply wp_get_dev_info.
  - by apply wp_clear_ioq_num.
  - apply wp_create_group; [done|by exists F].
  - apply wp_destroy_group; [done|by exists F].
  - eapply wp_mono; [by eapply wp_add_user_queue|].
    intros r s' [[_ Hs%steps_core]|(?&?&?&?&?&?&?&?&?&?&?&?&?&?&?&?&?&?&?&?&?&?&?&?&?&_)]; [by eapply Inv_core|done].
  - by apply wp_set_kernel_ioq_cap.
Qed.

Lemma cmd_wf_ok s c cmd :
  cmd_wf cmd →
  match cmd with
  | NVM_MAP_HOST_MEMORY _ | NVM_MAP_DEVICE_MEMORY _ | NVM_MAP_DEVICE_QUEUE_MEMORY _
  | NVM_GET_DEV_INFO => True
  | _ => cmd_ok s c cmd
  end.
Proof. by destruct cmd. Qed.

Lemma cmd_ok_wf s c cmd : cmd_ok s c cmd → cmd_wf cmd.
Proof. by destruct cmd. Qed.

(** Whatever the command: when it returns, the invariant holds. *)
Lemma wlp_dev_ioctl f F cmd s :
  Inv s → k_files s !! f = Some F → cmd_wf cmd →
  wlp (snvm_dev_map_ioctl current f cmd) (λ _ s', Inv s') s.
Proof.
  intros H HF Hwf%(cmd_wf_ok s (f_cdev F)). assert (is_Some (k_files s !! f)) as Hf by (by eexists).
  destruct cmd; try (by eapply wlp_wp, wp_dev_ioctl);
    (rw /snvm_dev_map_ioctl; apply wlp_after; eapply wp_load; [done|]; apply wlp_after;
     apply wp_ctrl_find_by_inode; [by apply Inv_ctrls|]; case_bool_decide as Hin; [|by apply wlp_wp, wp_ret];
     apply (inv_ctrl_list s H) in Hin as Hc).
  - by apply wlp_map_host.
  - by apply wlp_map_device.
  - by apply wlp_map_device_queue.
  - by apply wlp_get_dev_info.
Qed.

Lemma wp_mmap f vs ve s :
  Inv s → is_Some (k_files s !! f) →
  wp (svm_mmap_registers f vs ve) (λ r s', Inv s' ∧
    (r = 0 → ∃ F x pd, k_files s !! f = Some F ∧ k_ctrls s !! f_cdev F = Some x ∧
       k_pdevs s !! c_pdev x = Some pd ∧ u64 (ve - vs) ≤ pd_bar0_len pd ∧
       steps [EvIomap (pd_bar0_start pd) (u64 (ve - vs))] s s')) s.
Proof.
  intros H [F HF]. rw /svm_mmap_registers. wp_step. eapply wp_load; [done|]. wp_step.
  apply wp_ctrl_find_by_inode; [by apply Inv_ctrls|]. case_bool_decide as Hin; [|by wp_step].
  apply (inv_ctrl_list s H) in Hin as [x Hx]. wp_step. eapply wp_load; [done|].
  destruct (inv_pdev s H _ x Hx) as (pd & Hpd & _). wp_step. eapply wp_load; [done|].
  wp_step; [by wp_step|]. wp_step. apply wp_ask. set (s1 := upd k_tick _ s).
  assert (Inv s1) as H1 by inv_core. wp_step. apply wp_when; intros Er.
  - apply wp_emit. wp_step. split; [inv_core|]. intros _. exists F, x, pd. split_and!; [done..|lia|].
    eapply (steps_trans []); [apply steps_tick|apply steps_emit].
  - wp_step. split; [done|]. intros Er0. rw Er0 in Er. done.
Qed.
End dev_step.
