(* ===== verification/Control.v ===== *)
(** * The control plane (pci.c)

    /dev/snvm_control: creating and removing the character devices of
    controllers, binding PCI devices to snvme and releasing them, and loading and
    unloading the module. *)
From S2P Require Import Prelude KState P2p Ctrl Map QidPool QGroup.

(** [max_num_ctrls] of pci.c, a module parameter with this default. *)
Definition max_num_ctrls_param : Z := 64.
Definition PCI_CLASS_STORAGE_EXPRESS : Z := 0x010802.
Definition PCI_DEVFN (slot func : Z) : Z := Z.lor (Z.shiftl (Z.land slot 0x1f) 3) (Z.land func 0x07).

Section control.
Context `{!kenv, !P2pBackend}.

(** ** The PCI core *)

Definition same_bdf (a b : pci_device_addr) : bool :=
  (pa_domain a =? pa_domain b) && (pa_bus a =? pa_bus b) &&
  (PCI_DEVFN (pa_slot a) (pa_func a) =? PCI_DEVFN (pa_slot b) (pa_func b)).

(** [pci_get_domain_bus_and_slot]: the device at an address, with a reference. *)
Definition TO_PCI_DEV (addr : pci_device_addr) : K snvm (option ptr) :=
  devs ← gets k_pdevs;
  match list_find (λ kv, same_bdf (pd_addr kv.2) addr = true) (map_to_list devs) with
  | None => mret None
  | Some (_, (d, pd)) => store d pd<{pd_refs := pd_refs pd + 1}>;; mret (Some d)
  end.
Definition pci_dev_put (d : ptr) : K snvm unit :=
  alter_obj d (λ pd : pci_dev, pd<{pd_refs := pd_refs pd - 1}>).

(** [if (pci_is_enabled(pdev)) pci_disable_device(pdev)]. *)
Definition pci_disable_if_enabled (d : ptr) : K snvm unit :=
  alter_obj d (λ pd : pci_dev, pd<{pd_enable_cnt ::= λ n, if 0 <? n then n - 1 else n}>).

(** [device_release_driver]: the driver's remove callback runs, and the device
    has neither a driver nor driver data any more. *)
Definition device_release_driver (d : ptr) : K snvm unit :=
  pd ← load (V:=pci_dev) d;
  emit (EvReleaseDriver d (pd_driver pd));;
  when (bool_decide (pd_driver pd = Some PCI_DRIVER_NAME))
    (modify (λ s, s<{k_ndevs ::= λ h, if pd_drvdata pd is Some n then delete n h else h}>));;
  store d pd<{pd_driver := None}><{pd_drvdata := None}>.

(** [device_attach]: the driver core offers the device to the registered
    drivers, and [nvme_probe] refuses one without a controller object. *)
Definition device_attach (d : ptr) : K snvm Z :=
  r ← ask (λ t, env_device_attach t d PCI_DRIVER_NAME);
  if negb (r.1 =? 1) then mret r.1 else
  oc ← ctrl_find_by_pci_dev d;
  match oc with
  | None => mret 0
  | Some _ =>
    n ← create r.2;
    alter_obj d (λ pd : pci_dev, pd<{pd_driver := Some PCI_DRIVER_NAME}><{pd_drvdata := Some n}>);;
    emit (EvAttachDriver d PCI_DRIVER_NAME);;
    mret 1
  end.

(** ** Character devices *)

Definition snvm_chrdev_create (d : ptr) (class : Z) : K snvm Z :=
  pd ← load (V:=pci_dev) d;
  if negb (pd_class pd =? class) then mret (-1) else
  ida ← gets k_minor_ida;
  minor ← ask (λ t, env_ida t ida 0);
  if minor <? 0 then mret minor else
  modify (λ s, s<{k_minor_ida := {[minor]} ∪ k_minor_ida s}>);;
  r ← ctrl_get d minor;
  match r with
  | inl e => mret e
  | inr c =>
    first ← gets k_dev_first;
    err ← ctrl_chrdev_create c first;
    if c_true err then
      ctrl_put c;;
      modify (λ s, s<{k_minor_ida := k_minor_ida s ∖ {[minor]} }>);;
      mret err
    else mret 0
  end.

(** The result and the contents of [*dev_addr] afterwards. *)
Definition snvm_chrdev_helper (addr : pci_device_addr) (create : bool) :
    K snvm (Z * pci_device_addr) :=
  od ← TO_PCI_DEV addr;
  match od with
  | None => mret (- EFAULT, addr)
  | Some d =>
    oc ← ctrl_find_by_pci_dev d;
    r ← match create, oc with
        | true, None =>
          ret ← snvm_chrdev_create d PCI_CLASS_STORAGE_EXPRESS;
          if c_true ret then mret (ret, addr) else
          oc ← ctrl_find_by_pci_dev d;
          c ← from_option_k oc;
          ctrl ← load (V:=ctrl) c;
          mret (ret, PciDeviceAddr (c_number ctrl) 0 0 0)
        | true, Some c => ctrl ← load (V:=ctrl) c; mret (0, PciDeviceAddr (c_number ctrl) 0 0 0)
        | false, Some c =>
          ctrl ← load (V:=ctrl) c;
          ctrl_put c;;
          modify (λ s, s<{k_minor_ida := k_minor_ida s ∖ {[c_number ctrl]} }>);;
          mret (0, addr)
        | false, None => mret (0, addr)
        end;
    pci_dev_put d;;
    mret r
  end.

(** ** Binding *)

(** [pci_register_driver] also probes every device without a driver. *)
Definition snvm_register_driver : K snvm Z :=
  r ← ask env_register_driver;
  if c_true r then mret r else
  emit EvRegisterDriver;;
  modify (λ s, s<{k_driver_found := true}>);;
  devs ← gets (λ s, (map_to_list (k_pdevs s)).*1);
  kfor (λ d, pd ← load (V:=pci_dev) d;
             if pd_driver pd is Some _ then mret tt
             else (_ ← device_attach d; mret tt)) devs;;
  mret 0.

Definition register_driver : K snvm Z :=
  found ← gets k_driver_found;
  reg ← gets k_registered;
  if negb found && (reg =? 0) then
    ret ← snvm_register_driver;
    when (negb (c_true ret)) (modify (λ s, s<{k_registered := 1}>));;
    mret ret
  else mret 0.

Definition snvm_rebind_driver (addr : pci_device_addr) : K snvm Z :=
  od ← TO_PCI_DEV addr;
  match od with
  | None => mret (- ENODEV)
  | Some d =>
    pd ← load (V:=pci_dev) d;
    match pd_driver pd with
    | Some _ => pci_disable_if_enabled d;; device_release_driver d
    | None => mret tt
    end;;
    err ← register_driver;
    if c_true err then pci_dev_put d;; mret (- EFAULT) else
    pd ← load (V:=pci_dev) d;
    ret ← match pd_driver pd with
          | Some _ => mret 0
          | None =>
            a ← ask env_alloc;
            alter_obj d (λ pd : pci_dev,
              pd<{pd_driver_override := if (a : bool) then Some PCI_DRIVER_NAME else None}>);;
            if negb a then mret (- ENOMEM) else
            ret ← device_attach d;
            mret (if ret <? 0 then ret else if ret =? 0 then - ENODEV else 0)
          end;
    pci_dev_put d;;
    mret ret
  end.

Definition snvm_unbind_driver (addr : pci_device_addr) : K snvm Z :=
  od ← TO_PCI_DEV addr;
  match od with
  | None => mret (- EFAULT)
  | Some d =>
    pd ← load (V:=pci_dev) d;
    if negb (bool_decide (pd_driver pd = Some PCI_DRIVER_NAME)) then mret (- EFAULT) else
    pci_disable_if_enabled d;;
    device_release_driver d;;
    pci_dev_put d;;
    mret 0
  end.

(** ** The control device *)

Inductive ctl_cmd :=
| SNVM_DEVICE_BIND
| SNVM_DEVICE_UNBIND
| SNVM_CHRDEV_CREATE
| SNVM_CHRDEV_REMOVE
| CtlUnknown (cmd : Z).

Definition SIZEOF_PCI_ADDR : Z := 16.

(** [copy_to_user] returns the number of bytes it did not copy. *)
Definition snvm_ioctl (cmd : ctl_cmd) (addr : pci_device_addr) : K snvm Z :=
  ok ← ask env_copy_from;
  if negb ok then mret (- EFAULT) else
  match cmd with
  | SNVM_DEVICE_BIND => snvm_rebind_driver addr
  | SNVM_DEVICE_UNBIND => snvm_unbind_driver addr
  | SNVM_CHRDEV_CREATE =>
    r ← snvm_chrdev_helper addr true;
    if c_true r.1 then mret r.1 else
    ok ← ask env_copy_to;
    when ok (emit (EvCopyOut (OutPciAddr r.2)));;
    mret (if (ok : bool) then 0 else SIZEOF_PCI_ADDR)
  | SNVM_CHRDEV_REMOVE => r ← snvm_chrdev_helper addr false; mret r.1
  | CtlUnknown _ => mret (- ENOTTY)
  end.

(** ** Loading and unloading *)

Fixpoint clear_ctrl_list (fuel : nat) (i : Z) : K snvm Z :=
  l ← gets k_ctrl_list;
  match head l, fuel with
  | None, _ => mret i
  | Some _, O => fault
  | Some c, S fuel => ctrl_put c;; clear_ctrl_list fuel (i + 1)
  end.

Fixpoint clear_map_list (fuel : nat) (l : glist) (i : Z) : K snvm Z :=
  ps ← gets (k_glist l);
  match head ps, fuel with
  | None, _ => mret i
  | Some _, O => fault
  | Some p, S fuel => unmap_and_release p;; clear_map_list fuel l (i + 1)
  end.
(** Each iteration removes a node, so the length of the list is enough fuel. *)
Definition clear_map_list' (l : glist) : K snvm Z :=
  ps ← gets (k_glist l); clear_map_list (length ps) l 0.
Definition clear_ctrl_list' : K snvm Z :=
  l ← gets k_ctrl_list; clear_ctrl_list (length l) 0.

(** [pci_unregister_driver] releases every device the driver holds. *)
Definition snvm_unregister_driver : K snvm unit :=
  devs ← gets (λ s, (map_to_list (k_pdevs s)).*1);
  kfor (λ d, pd ← load (V:=pci_dev) d;
             when (bool_decide (pd_driver pd = Some PCI_DRIVER_NAME)) (device_release_driver d)) devs;;
  emit EvUnregisterDriver;;
  modify (λ s, s<{k_driver_found := false}>).

Definition clean_driver : K snvm Z :=
  _ ← clear_map_list' DeviceList;
  _ ← clear_map_list' DeviceQueueList;
  _ ← clear_map_list' HostList;
  found ← gets k_driver_found;
  when found snvm_unregister_driver;;
  mret 0.

Definition snvm_devno (first : Z) : Z := MKDEV (MAJOR first) max_num_ctrls_param.

Definition snvm_cdev_init : K snvm Z :=
  r ← ask env_class_create;
  if r <? 0 then mret r else
  emit EvClassCreate;;
  rr ← ask env_chrdev_region;
  if rr.1 <? 0 then emit EvClassDestroy;; mret rr.1 else
  emit (EvRegionAlloc max_num_ctrls_param);;
  modify (λ s, s<{k_dev_first := rr.2}>);;
  let devno := snvm_devno rr.2 in
  r ← ask env_cdev_add;
  if r <? 0 then
    emit (EvRegionFree max_num_ctrls_param);; emit EvClassDestroy;; mret r
  else
  emit (EvCdevAdd devno);;
  r ← ask env_device_create;
  if r <? 0 then
    emit (EvCdevDel devno);; emit (EvRegionFree max_num_ctrls_param);; emit EvClassDestroy;; mret r
  else
  emit (EvDeviceCreate devno "snvm_control");;
  mret 0.

Definition snvm_cdev_release : K snvm unit :=
  first ← gets k_dev_first;
  emit (EvDeviceDestroy (snvm_devno first));;
  emit (EvCdevDel (snvm_devno first));;
  emit (EvRegionFree max_num_ctrls_param);;
  emit EvClassDestroy;;
  modify (λ s, s<{k_minor_ida := ∅}>).

Definition nvme_init : K snvm Z :=
  modify (λ s, s<{k_registered := 0}>);;
  _ ← p2p_init;
  modify (λ s, s<{k_ctrl_list := []  }><{k_host_list := [] }><{k_device_list := [] }>
                <{k_device_queue_list := [] }>);;
  snvm_cdev_init.

Definition nvme_exit : K snvm unit :=
  _ ← clear_map_list' DeviceList;
  _ ← clear_map_list' DeviceQueueList;
  _ ← clear_map_list' HostList;
  _ ← clean_driver;
  p2p_exit;;
  _ ← clear_ctrl_list';
  snvm_cdev_release.
End control.
