(* ===== verification/ControlInv.v ===== *)
(** * The control plane keeps the invariant

    Creating and removing controllers, binding and unbinding devices. *)
From S2P Require Import Prelude KState P2p Ctrl Map QidPool QGroup Inv.
From S2P Require Import DevInv Control.

(** ** Controllers come and go *)

Lemma Inv_drop_ctrl c s :
  Inv s → map_Forall (λ _ O, o_ctrl O ≠ c) (k_owners s) → Inv (drop_ctrl c s).
Proof.
  intros H Hno. pose proof H as []. constructor; try done.
  - by apply NoDup_unlink.
  - intros c'. rw /= elem_of_unlink inv_ctrl_list lookup_delete_is_Some. naive_solver.
  - simpl. pose proof (length_unlink_le c (k_ctrl_list s)). lia.
  - intros c' x Hx. rw /= lookup_delete_Some in Hx. destruct Hx as [_ Hx]. by apply (inv_pdev c').
  - intros o O HO. destruct (inv_owner o O HO) as (H1 & ?). split; [|done].
    rw /= lookup_delete_is_Some. split; [|done]. intros E. by apply (Hno o O HO).
  - intros p Hp. destruct (inv_next p Hp) as (H1 & H2 & H3 & H4 & H5). split_and!; try done.
    rw /= lookup_delete_None. by right.
  - intros c' x Hx. rw /= lookup_delete_Some in Hx. destruct Hx as [_ Hx]. by apply (inv_qids c').
Qed.

Lemma Inv_add_ctrl x s :
  Inv s → (length (k_ctrl_list s) < max_num_ctrls)%nat → is_Some (k_pdevs s !! c_pdev x) →
  c_user_qid_bitmap x = None → Inv (add_ctrl x s).
Proof.
  intros H Hlen [pd Hpd] Hbm. pose proof H as []. set (p := k_next s).
  destruct (inv_next p ltac:(lia)) as (_ & _ & _ & Hp & _).
  constructor; try done.
  - simpl. apply NoDup_app. split_and!; [done| |apply NoDup_singleton].
    intros q Hq Eq%list_elem_of_singleton. apply inv_ctrl_list in Hq as [y Hy].
    rw Eq in Hy. fold p in Hy. congruence.
  - intros c. rw /= elem_of_app list_elem_of_singleton lookup_insert_is_Some inv_ctrl_list.
    destruct (decide (p = c)) as [<-|]; naive_solver.
  - rw /= length_app /=. lia.
  - intros c y Hy. rw /= lookup_insert in Hy. case_decide; simplify_eq; [|by apply (inv_pdev c)].
    exists pd. split; [done|]. intros Hd n Hn. exact (proj1 (inv_drv (c_pdev y) pd n Hpd Hd Hn)).
  - intros o O HO. destruct (inv_owner o O HO) as (H1 & ?). split; [|done].
    rw /= lookup_insert_is_Some'. by right.
  - intros q Hq. simpl in Hq. destruct (inv_next q) as (H1 & H2 & H3 & H4 & H5); [unfold p in *; lia|].
    split_and!; try done. rw /= lookup_insert_ne //. unfold p. lia.
  - intros c y Hy. rw /= lookup_insert in Hy. case_decide; simplify_eq; [|by apply (inv_qids c)].
    assert (∀ k q, ¬ live_slot s (k_next s) k q) as Hno.
    { intros k q (o & O & G & uq & HO & Hc & _). destruct (inv_owner o O HO) as ([y' Hy'] & _).
      rw Hc in Hy'. fold p in Hy'. congruence. }
    exists ∅. split_and!.
    + by rw /pool_wf Hbm.
    + intros q. split; [by intros ?%elem_of_empty|]. intros [k Hk]. by destruct (Hno k q).
    + intros k k' q Hk. by destruct (Hno k q).
Qed.

(** ** PCI devices *)

Definition set_pdev (d : ptr) (pd : pci_dev) (s : snvm) : snvm := s<{k_pdevs ::= <[d := pd]>}>.
#[export] Instance framed_set_pdev d pd : Framed (set_pdev d pd).
Proof. done. Qed.

(** The driver and its data stay the same. *)
Definition same_driver (pd pd' : pci_dev) : Prop :=
  pd_driver pd' = pd_driver pd ∧ pd_drvdata pd' = pd_drvdata pd.

Lemma Inv_set_pdev d pd pd' s :
  Inv s → k_pdevs s !! d = Some pd → same_driver pd pd' → Inv (set_pdev d pd' s).
Proof.
  intros H Hd [E1 E2]. pose proof H as [].
  assert (∀ d' q, k_pdevs (set_pdev d pd' s) !! d' = Some q →
    ∃ q', k_pdevs s !! d' = Some q' ∧ pd_driver q = pd_driver q' ∧ pd_drvdata q = pd_drvdata q') as Hl.
  { intros d' q Hq. rw /= lookup_insert in Hq. case_decide; simplify_eq; by eauto. }
  constructor; try done.
  - intros c x Hx. destruct (inv_pdev c x Hx) as (q & Hq & Hn). rw /pdev_ok /= lookup_insert.
    case_decide; [|by exists q]. exists pd'. simplify_eq. by rw E1 E2.
  - intros d1 q1 n (q1' & H1 & F1 & F2)%Hl. rw F1 F2. intros Hr Hn.
    destruct (inv_drv d1 q1' n H1 Hr Hn) as [? Hu]. split; [done|].
    intros d2 q2 (q2' & H2 & F3 & F4)%Hl. rw F3 F4. by apply Hu.
  - intros Hf. destruct (inv_found Hf) as [Hr Hnb]. split; [done|].
    intros d1 q1 (q1' & H1 & F1 & _)%Hl. rw F1. by apply (Hnb d1).
Qed.

(** Taking the driver away: snvme's device structure is freed. *)
Definition unbound (d : ptr) (pd : pci_dev) (s : snvm) : snvm :=
  set_pdev d pd<{pd_driver := None}><{pd_drvdata := None}>
    (if bool_decide (pd_driver pd = Some PCI_DRIVER_NAME)
     then s<{k_ndevs ::= λ h, if pd_drvdata pd is Some n then delete n h else h}> else s).

Lemma Inv_unbound d pd s : Inv s → k_pdevs s !! d = Some pd → Inv (unbound d pd s).
Proof.
  intros H Hd. pose proof H as [].
  set (h := k_ndevs (unbound d pd s)).
  assert (∀ n, is_Some (h !! n) → is_Some (k_ndevs s !! n)) as Hsub.
  { intros n. rw /h /unbound. case_bool_decide; [|done]. simpl. destruct (pd_drvdata pd); [|done].
    rw lookup_delete_is_Some. tauto. }
  assert (∀ d' q n, d' ≠ d → k_pdevs s !! d' = Some q → pd_driver q = Some PCI_DRIVER_NAME →
    pd_drvdata q = Some n → is_Some (h !! n)) as Hkeep.
  { intros d' q n Hne Hq Hr Hn. destruct (inv_drv d' q n Hq Hr Hn) as [Hs Hu].
    rw /h /unbound. case_bool_decide as Hdr; [|done]. simpl.
    destruct (pd_drvdata pd) as [n'|] eqn:En; [|done]. rw lookup_delete_is_Some. split; [|done].
    intros ->. by specialize (Hu d pd Hd Hdr En). }
  assert (∀ d' q, k_pdevs (unbound d pd s) !! d' = Some q → pd_driver q = Some PCI_DRIVER_NAME →
    d' ≠ d ∧ k_pdevs s !! d' = Some q) as Hl.
  { intros d' q Hq Hr. rw /unbound in Hq. case_bool_decide; simpl in Hq; rw lookup_insert in Hq;
      case_decide; simplify_eq/=; done. }
  assert (∀ p, h !! p = None ∨ h !! p = k_ndevs s !! p) as Hcase.
  { intros p. rw /h /unbound. case_bool_decide; [|by right]. simpl. destruct (pd_drvdata pd); [|by right].
    rw lookup_delete. case_decide; [by left|by right]. }
  constructor; try (rw /unbound; case_bool_decide; done).
  - intros c x Hx. assert (k_ctrls s !! c = Some x) as Hx'.
    { rw /unbound in Hx. by case_bool_decide. }
    destruct (inv_pdev c x Hx') as (q & Hq & Hn).
    destruct (decide (c_pdev x = d)) as [E|Hne].
    + exists pd<{pd_driver := None}><{pd_drvdata := None}>. split; [|done].
      rw /unbound. case_bool_decide; by rw /= E lookup_insert_eq.
    + exists q. split; [rw /unbound; case_bool_decide; by rw /= lookup_insert_ne|].
      intros Hr n Hn'. by apply (Hkeep (c_pdev x) q).
  - intros n nd Hn. destruct (Hcase n) as [E|E]; fold h in Hn; rw E in Hn; [done|]. by apply (inv_ndev n).
  - intros d1 q1 n H1 Hr Hn. destruct (Hl d1 q1 H1 Hr) as [Hne H1']. split; [by apply (Hkeep d1 q1)|].
    intros d2 q2 H2 Hr2 Hn2. destruct (Hl d2 q2 H2 Hr2) as [_ H2'].
    exact (proj2 (inv_drv d1 q1 n H1' Hr Hn) d2 q2 H2' Hr2 Hn2).
  - intros p Hp. assert ((k_next s ≤ p)%positive) as Hp'.
    { rw /unbound in Hp. by case_bool_decide. }
    destruct (inv_next p Hp') as (H1 & H2 & H3 & H4 & H5).
    assert (h !! p = None) as Hh by (destruct (Hcase p) as [Eh|Eh]; by rw Eh).
    do 4 (split; [rw /unbound; by case_bool_decide|]). exact Hh.
  - intros Hf. assert (k_driver_found s = false) as Hf' by (rw /unbound in Hf; by case_bool_decide).
    destruct (inv_found Hf') as [Hr Hnb]. split; [rw /unbound; by case_bool_decide|].
    intros d1 q1 H1 Hr1. destruct (Hl d1 q1 H1 Hr1) as [_ H1']. by apply (Hnb d1 q1).
Qed.

(** Giving the device to snvme. *)
Definition bound (d : ptr) (pd : pci_dev) (nd : nvme_dev) (s : snvm) : snvm :=
  set_pdev d pd<{pd_driver := Some PCI_DRIVER_NAME}><{pd_drvdata := Some (k_next s)}>
    (s<{k_next ::= Pos.succ}><{k_ndevs ::= <[k_next s := nd]>}>).

Lemma Inv_bound d pd nd s :
  Inv s → k_driver_found s = true → k_pdevs s !! d = Some pd → ndev_ok nd → Inv (bound d pd nd s).
Proof.
  intros H Hfd Hd Hnd. pose proof H as []. set (p := k_next s).
  destruct (inv_next p ltac:(lia)) as (_ & _ & _ & _ & Hp).
  assert (∀ n, is_Some (k_ndevs s !! n) → is_Some (<[p := nd]> (k_ndevs s) !! n)) as Hk.
  { intros n ?. rw lookup_insert_is_Some'. by right. }
  assert (∀ d' q n, k_pdevs (bound d pd nd s) !! d' = Some q → pd_driver q = Some PCI_DRIVER_NAME →
    pd_drvdata q = Some n →
    (d' = d ∧ n = p) ∨ (d' ≠ d ∧ n ≠ p ∧ k_pdevs s !! d' = Some q)) as Hl.
  { intros d' q n Hq Hr Hn. rw /bound /= lookup_insert in Hq. case_decide as Ed.
    - left. simplify_eq/=. done.
    - right. split_and!; [done| |done]. intros ->.
      destruct (inv_drv d' q p Hq Hr Hn) as [[? ?] _]. congruence. }
  constructor; try done.
  - intros c x Hx. destruct (inv_pdev c x Hx) as (q & Hq & Hn). rw /pdev_ok /= lookup_insert.
    case_decide.
    + eexists. split; [done|]. simpl. intros _ n [= <-]. fold p. rw lookup_insert_eq. by eexists.
    + exists q. split; [done|]. intros Hr n Hn'. by apply Hk, (Hn Hr).
  - intros n nd' Hn. rw /= lookup_insert in Hn. case_decide; simplify_eq; [done|]. by apply (inv_ndev n).
  - intros d1 q1 n H1 Hr Hn. destruct (Hl d1 q1 n H1 Hr Hn) as [[-> ->]|(Hne & Hnp & H1')].
    + split; [rw /= lookup_insert_eq; by eexists|]. intros d2 q2 H2 Hr2 Hn2.
      by destruct (Hl d2 q2 p H2 Hr2 Hn2) as [[-> _]|(_ & ? & _)].
    + destruct (inv_drv d1 q1 n H1' Hr Hn) as [Hs Hu]. split; [by apply Hk|].
      intros d2 q2 H2 Hr2 Hn2. destruct (Hl d2 q2 n H2 Hr2 Hn2) as [[_ ?]|(_ & _ & H2')]; [done|].
      by apply (Hu d2 q2).
  - intros q Hq. simpl in Hq. destruct (inv_next q) as (H1 & H2 & H3 & H4 & H5); [unfold p in *; lia|].
    split_and!; try done. rw /= lookup_insert_ne //. unfold p. lia.
  - intros Hf. simpl in Hf. congruence.
Qed.

(** No reference to a PCI device is gained or lost. *)
Definition same_refs (s s' : snvm) : Prop :=
  ∀ d, pd_refs <$> k_pdevs s' !! d = pd_refs <$> k_pdevs s !! d.
Lemma same_refs_refl s : same_refs s s.
Proof. done. Qed.
Lemma same_refs_trans s1 s2 s3 : same_refs s1 s2 → same_refs s2 s3 → same_refs s1 s3.
Proof. intros H1 H2 d. by rw H2 H1. Qed.
Lemma same_refs_is_Some s s' d : same_refs s s' → is_Some (k_pdevs s !! d) → is_Some (k_pdevs s' !! d).
Proof. intros Hr Hd. rw -(fmap_is_Some pd_refs) Hr fmap_is_Some //. Qed.
Lemma same_refs_insert s s' d pd pd' :
  k_pdevs s !! d = Some pd → k_pdevs s' = <[d := pd']> (k_pdevs s) → pd_refs pd' = pd_refs pd →
  same_refs s s'.
Proof. intros Hd Es Er d'. rw Es lookup_insert. case_decide; [subst; by rw Hd /= Er|done]. Qed.

Section control_inv.
Context {E : kenv} {EL : kenv_laws E} {B : P2pBackend} {BL : P2pLaws B}.

(** ** Binding *)

Lemma wp_to_pci_dev addr (Q : option ptr → snvm → Prop) s :
  ((∀ d pd, k_pdevs s !! d = Some pd → same_bdf (pd_addr pd) addr = false) → Q None s) →
  (∀ d pd, k_pdevs s !! d = Some pd → same_bdf (pd_addr pd) addr = true →
     Q (Some d) (set_pdev d pd<{pd_refs := pd_refs pd + 1}> s)) →
  wp (TO_PCI_DEV addr) Q s.
Proof.
  intros Hn Hs. rw /TO_PCI_DEV. wp_step. wp_step. destruct (list_find _ _) as [[i [d pd]]|] eqn:Ef.
  - apply list_find_Some in Ef as (Hi & Hb & _). apply list_elem_of_lookup_2, elem_of_map_to_list in Hi.
    wp_step. eapply wp_store; [done|]. wp_step. by apply Hs.
  - wp_step. apply Hn. intros d pd Hd. apply list_find_None in Ef. rw Forall_forall in Ef.
    apply not_true_is_false, (Ef (d, pd)), elem_of_map_to_list, Hd.
Qed.

Lemma wp_alter_pdev d pd f (Q : unit → snvm → Prop) s :
  Inv s → k_pdevs s !! d = Some pd → same_driver pd (f pd) →
  (Inv (set_pdev d (f pd) s) → Q tt (set_pdev d (f pd) s)) → wp (alter_obj d f) Q s.
Proof.
  intros H Hd Hs HQ. eapply wp_alter_obj; [done|]. apply HQ. by eapply Inv_set_pdev.
Qed.

Lemma wp_device_release_driver d pd (Q : unit → snvm → Prop) s :
  Inv s → k_pdevs s !! d = Some pd →
  (∀ s', steps [EvReleaseDriver d (pd_driver pd)] (unbound d pd s) s' → Inv s' → Q tt s') →
  wp (device_release_driver d) Q s.
Proof.
  intros H Hd HQ. rw /device_release_driver. wp_step. eapply wp_load; [done|]. wp_step. apply wp_emit.
  assert (∀ s', steps [EvReleaseDriver d (pd_driver pd)] (unbound d pd s) s' → Q tt s') as HQ'.
  { intros s' Hs. apply HQ; [done|]. eapply Inv_core; [by eapply steps_core|]. by apply Inv_unbound. }
  wp_step. apply wp_when; intros Hb.
  - apply wp_modify. eapply wp_store; [done|]. apply HQ'. rw /unbound Hb. by exists (k_tick s).
  - eapply wp_store; [done|]. apply HQ'. rw /unbound Hb. by exists (k_tick s).
Qed.

(** What is left of the device and of its structure. *)
Lemma unbound_spec d pd es s s' :
  steps es (unbound d pd s) s' →
  k_pdevs s' = <[d := pd<{pd_driver := None}><{pd_drvdata := None}>]> (k_pdevs s) ∧
  (pd_driver pd = Some PCI_DRIVER_NAME → ∀ n, pd_drvdata pd = Some n → k_ndevs s' !! n = None).
Proof.
  intros (t & ->). rw /unbound. split; [by case_bool_decide|]. intros Hd n Hn.
  rw bool_decide_eq_true_2 // /= Hn. apply lookup_delete_eq.
Qed.

Lemma wp_device_attach d (Q : Z → snvm → Prop) s :
  Inv s → k_driver_found s = true → is_Some (k_pdevs s !! d) →
  (∀ r s', Inv s' → k_driver_found s' = true → same_refs s s' → r ≤ 1 → (r = 1 → ∃ pd', k_pdevs s' !! d = Some pd' ∧
     pd_driver pd' = Some PCI_DRIVER_NAME) → Q r s') →
  wp (device_attach d) Q s.
Proof.
  intros H Hfd [pd Hd] HQ. rw /device_attach. wp_step. apply wp_ask.
  set (s1 := upd k_tick _ s). assert (Inv s1) as H1 by inv_core.
  pose proof (env_attach_result (k_tick s) d PCI_DRIVER_NAME) as Hle.
  wp_step; [wp_step; apply HQ; [done|done|done|lia|lia]|]. wp_step.
  apply wp_ctrl_find_by_pci_dev; [by apply Inv_ctrls|].
  destruct (pfind _ _ _); [|wp_step; apply HQ; [done|done|done|lia|lia]].
  wp_step. apply wp_create. wp_step. eapply wp_alter_obj; [done|]. wp_step. apply wp_emit. wp_step.
  set (nd := (env_device_attach _ _ _).2).
  assert (Inv (bound d pd nd s1)) as H2 by (apply Inv_bound; [done..|apply env_attach_queues]).
  apply HQ; [inv_core|done|by eapply (same_refs_insert s _ d pd)|done|].
  intros _. rw /= lookup_insert_eq. by eexists.
Qed.

Lemma wp_register_driver (Q : Z → snvm → Prop) s :
  Inv s →
  (∀ r s', Inv s' → same_refs s s' → (c_true r = false → k_driver_found s' = true) → Q r s') →
  wp register_driver Q s.
Proof.
  intros H HQ. rw /register_driver. wp_step. wp_step. wp_step. wp_step. wp_step.
  2: { wp_step. apply HQ; [done|done|]. intros _. apply not_false_is_true. intros Hf.
       destruct (inv_found s H Hf) as [Hr _]. rename select (_ && _ = false) into Hb. by rw Hf Hr in Hb. }
  rw /snvm_register_driver. wp_step. wp_step. apply wp_ask.
  set (s1 := upd k_tick _ s). assert (Inv s1) as H1 by inv_core. wp_step.
  { wp_step. wp_step. apply wp_when; intros Hz; [by rename select (c_true _ = true) into Ht; rw Ht in Hz|].
    wp_step. apply HQ; [done|done|]. intros Ht. by rw Ht in Hz. }
  wp_step. apply wp_emit. wp_step. wp_step. wp_step. wp_step. wp_step.
  eapply (wp_kfor _ _ (λ ds s2, (Inv s2 ∧ k_driver_found s2 = true) ∧
    (∀ d, d ∈ ds → is_Some (k_pdevs s2 !! d)) ∧ same_refs s s2)).
  - split; [split; [destruct H1; by constructor|done]|]. split; [|done]. intros d ([k pd] & -> & Hd)%list_elem_of_fmap.
    apply elem_of_map_to_list in Hd. by eexists.
  - intros d ds s2 ([H2 Hf2] & Hds & Hk). destruct (Hds d) as [pd Hd]; [set_solver|]. wp_step.
    eapply wp_load; [done|]. destruct (pd_driver pd).
    + wp_step. split; [done|]. split; [set_solver|done].
    + wp_step. apply wp_device_attach; [done|done|by eexists|]. intros r s3 H3 Hf3 Hk3 _ _. wp_step.
      split; [done|]. split; [|by eapply same_refs_trans].
      intros d' Hd'. eapply same_refs_is_Some; [done|]. apply Hds. set_solver.
  - intros s2 ([H2 Hf2] & _ & Hk). wp_step. wp_step. apply wp_when; intros _; [apply wp_modify; wp_step|wp_step];
      (apply HQ; [|done|done]); [|done]. destruct H2. constructor; try done. simpl. congruence.
Qed.

(** Rebinding: the result is 0 or an errno, references balance, and after 0
    the device at the address has a driver. *)
Definition rebind_post (addr : pci_device_addr) (s : snvm) (r : Z) (s' : snvm) : Prop :=
  Inv s' ∧ same_refs s s' ∧
  (r = 0 → ∃ d pd, k_pdevs s' !! d = Some pd ∧ is_Some (pd_driver pd) ∧
     ∃ pd0, k_pdevs s !! d = Some pd0 ∧ same_bdf (pd_addr pd0) addr = true).

(** Taking the old driver away, if there is one. *)
Lemma wp_take_driver d pd (Q : unit → snvm → Prop) s :
  Inv s → k_pdevs s !! d = Some pd → (∀ s', Inv s' → same_refs s s' → Q tt s') →
  wp (match pd_driver pd with
      | Some _ => pci_disable_if_enabled d;; device_release_driver d
      | None => mret tt
      end) Q s.
Proof.
  intros H Hd HQ. destruct (pd_driver pd) eqn:Edr; [|by wp_step; apply HQ].
  wp_step. rw /pci_disable_if_enabled. eapply wp_alter_pdev; [done..|]. intros H2.
  eapply wp_device_release_driver; [done|by rw /= lookup_insert_eq|]. intros s3 (t & ->) H3.
  apply HQ; [done|]. eapply (same_refs_insert _ _ d pd); [done| |].
  - rw /unbound. case_bool_decide; by rw /= insert_insert_eq.
  - done.
Qed.

(** Offering the device to snvme, if no driver has claimed it. *)
Lemma wp_offer_driver d (Q : Z → snvm → Prop) s :
  Inv s → k_driver_found s = true → is_Some (k_pdevs s !! d) →
  (∀ r s', Inv s' → same_refs s s' → (r = 0 → ∃ pd, k_pdevs s' !! d = Some pd ∧ is_Some (pd_driver pd)) →
     Q r s') →
  wp (pd ← load (V:=pci_dev) d;
      match pd_driver pd with
      | Some _ => mret 0
      | None =>
        a ← ask env_alloc;
        alter_obj d (λ pd : pci_dev,
          pd<{pd_driver_override := if (a : bool) then Some PCI_DRIVER_NAME else None}>);;
        if negb a then mret (- ENOMEM) else
        ret ← device_attach d;
        mret (if ret <? 0 then ret else if ret =? 0 then - ENODEV else 0)
      end) Q s.
Proof.
  intros H Hfd [pd Hd] HQ. wp_step. eapply wp_load; [done|].
  destruct (pd_driver pd) eqn:Edr.
  { wp_step. apply HQ; [done|done|]. intros _. exists pd. by rw Edr. }
  wp_step. apply wp_ask. set (s1 := upd k_tick _ s). assert (Inv s1) as H1 by inv_core.
  wp_step. eapply (wp_alter_pdev d pd); [done|done|done|]. intros H2.
  match goal with |- wp _ _ ?y => set (s2 := y) in * end.
  assert (same_refs s s2) as Hr2 by (by eapply (same_refs_insert s s2 d pd)).
  wp_step; [wp_step; by apply HQ|]. wp_step.
  apply wp_device_attach; [done|done|by eapply same_refs_is_Some|]. intros r s3 H3 _ Hr3 Hle Hb. wp_step.
  apply HQ; [done|by eapply same_refs_trans|].
  destruct (Z.ltb_spec r 0); [lia|]. destruct (Z.eqb_spec r 0); [done|].
  intros _. destruct (Hb ltac:(lia)) as (pd' & Hd' & Hdr). exists pd'. by rw Hdr.
Qed.

Lemma wp_rebind addr s : Inv s → wp (snvm_rebind_driver addr) (rebind_post addr s) s.
Proof.
  intros H. rw /snvm_rebind_driver. wp_step. apply wp_to_pci_dev; [by intros _; wp_step|].
  intros d pd Hd Hb. set (s1 := set_pdev _ _ _).
  assert (Inv s1) as H1 by (by eapply Inv_set_pdev).
  wp_step. eapply wp_load; [by rw /= lookup_insert_eq|]. wp_step.
  eapply (wp_take_driver d); [done|by rw /= lookup_insert_eq|]. intros s2 H2 Hr2.
  wp_step. apply wp_register_driver; [done|]. intros err s3 H3 Hr3 Hf3.
  pose proof (same_refs_trans _ _ _ Hr2 Hr3) as Hr13.
  assert (∀ r s', Inv s' → same_refs s1 s' →
    (r = 0 → ∃ pd', k_pdevs s' !! d = Some pd' ∧ is_Some (pd_driver pd')) →
    wp (pci_dev_put d;; mret r) (rebind_post addr s) s') as Hput.
  { intros r s' H' Hr' Hz.
    destruct (same_refs_is_Some s1 s' d Hr') as [pd' Hd']; [by rw /= lookup_insert_eq|].
    pose proof (Hr' d) as Ed. rw Hd' /= lookup_insert_eq /= in Ed. simplify_eq.
    wp_step. rw /pci_dev_put. eapply wp_alter_pdev; [done..|]. intros H4. wp_step. split; [done|]. split.
    - intros d'. rw /= lookup_insert. case_decide as Ec; [subst; rw Hd /=; f_equal; lia|].
      rw Hr' /= lookup_insert_ne //.
    - intros (pd'' & Hd'' & Hdr)%Hz. simplify_eq. exists d. eexists. rw /= lookup_insert_eq.
      split; [done|]. split; [done|]. by exists pd. }
  wp_step; [by apply Hput|]. apply wp_assoc.
  apply wp_offer_driver; [done|by apply Hf3| |].
  - eapply same_refs_is_Some; [exact Hr13|]. by rw /= lookup_insert_eq.
  - intros r s4 H4 Hr4 Hz. apply Hput; [done|by eapply same_refs_trans|done].
Qed.

(** Unbinding: refused unless snvme drives the device; then the device has no
    driver and the reference taken is given back. *)
Definition unbind_post (addr : pci_device_addr) (s : snvm) (r : Z) (s' : snvm) : Prop :=
  Inv s' ∧
  ((r = - EFAULT ∧ k_ndevs s' = k_ndevs s ∧
    ∀ d, pd_driver <$> k_pdevs s' !! d = pd_driver <$> k_pdevs s !! d) ∨
   (r = 0 ∧ same_refs s s' ∧ ∃ d pd pd', k_pdevs s !! d = Some pd ∧ same_bdf (pd_addr pd) addr = true ∧
      pd_driver pd = Some PCI_DRIVER_NAME ∧ k_pdevs s' !! d = Some pd' ∧ pd_driver pd' = None ∧
      pd_drvdata pd' = None ∧ (∀ n, pd_drvdata pd = Some n → k_ndevs s' !! n = None))).

Lemma wp_unbind addr s : Inv s → wp (snvm_unbind_driver addr) (unbind_post addr s) s.
Proof.
  intros H. rw /snvm_unbind_driver. wp_step. apply wp_to_pci_dev.
  { intros _. wp_step. split; [done|]. by left. }
  intros d pd Hd Hb. set (s1 := set_pdev _ _ _).
  assert (Inv s1) as H1 by (by eapply Inv_set_pdev).
  wp_step. eapply wp_load; [by rw /= lookup_insert_eq|]. cbn [pd_driver upd]. wp_step.
  { wp_step. split; [done|]. left. split; [done|]. split; [done|]. intros d'.
    destruct (decide (d = d')) as [<-|]; [by rw /= lookup_insert_eq Hd|by rw /= lookup_insert_ne]. }
  rename select (negb _ = false) into Hdr. apply negb_false_iff, bool_decide_eq_true in Hdr.
  wp_step. rw /pci_disable_if_enabled. eapply wp_alter_pdev; [done|by rw /= lookup_insert_eq|done|].
  intros H2. wp_step. eapply wp_device_release_driver; [done|by rw /= lookup_insert_eq|].
  intros s3 Hs3 H3. destruct (unbound_spec _ _ _ _ _ Hs3) as [Ep En]. specialize (En Hdr). clear Hs3 H1 H2.
  rw /= !insert_insert_eq in Ep. wp_step. rw /pci_dev_put.
  eapply wp_alter_pdev; [done|by rw Ep lookup_insert_eq|done|].
  intros H4. wp_step. split; [done|]. right. split; [done|]. split.
  - intros d'. rw /= Ep insert_insert_eq lookup_insert. case_decide as Ed; [rw -Ed Hd /=; f_equal; lia|done].
  - exists d, pd. eexists. do 3 (split; [done|]). by rw /= lookup_insert_eq.
Qed.

(** ** Character devices *)

Lemma Inv_minors s ids : Inv s → Inv s<{k_minor_ida := ids}>.
Proof. intros []. by constructor. Qed.

(** A controller that no open file uses. *)
Definition unused (c : ptr) (s : snvm) : Prop := map_Forall (λ _ O, o_ctrl O ≠ c) (k_owners s).

Lemma wp_ctrl_put_inv c (Q : unit → snvm → Prop) s :
  Inv s → is_Some (k_ctrls s !! c) → unused c s →
  (∀ s', s' ≡ₗ drop_ctrl c s → Inv s' → Q tt s') → wp (ctrl_put c) Q s.
Proof.
  intros H [x Hc] Hu HQ. eapply wp_ctrl_put; [done|]. intros s' Es _. apply HQ; [done|].
  eapply Inv_core; [exact Es|]. by apply Inv_drop_ctrl.
Qed.

(** A successful creation adds a controller with a new minor and its character
    device; a failed one leaves the controllers as they were. *)
Definition create_post (d : ptr) (s : snvm) (r : Z) (s' : snvm) : Prop :=
  Inv s' ∧ k_pdevs s' = k_pdevs s ∧
  (r = 0 → ∃ x, k_ctrl_list s' = k_ctrl_list s ++ [k_next s] ∧
     k_ctrls s' = <[k_next s := x]> (k_ctrls s) ∧ c_pdev x = d ∧ c_chrdev x = true ∧
     (c_number x ∉ k_minor_ida s) ∧ k_minor_ida s' = {[c_number x]} ∪ k_minor_ida s) ∧
  (r ≠ 0 → k_ctrl_list s' = k_ctrl_list s ∧ k_ctrls s' = k_ctrls s).

Lemma wp_snvm_chrdev_create d class s :
  Inv s → is_Some (k_pdevs s !! d) → (length (k_ctrl_list s) < max_num_ctrls)%nat →
  wp (snvm_chrdev_create d class) (create_post d s) s.
Proof.
  intros H [pd Hd] Hlen. rw /snvm_chrdev_create. wp_step. eapply wp_load; [done|].
  wp_step; [by wp_step|]. wp_step. wp_step. wp_step. apply wp_ask. set (minor := env_ida _ _ _).
  set (s1 := upd k_tick _ s). assert (Inv s1) as H1 by inv_core. wp_step.
  { wp_step. split_and!; try done. intros ?. lia. }
  destruct (env_ida_fresh (k_tick s) (k_minor_ida s) 0) as [Hfr _]; [lia|]. fold minor in Hfr.
  wp_step. wp_step. match goal with |- wp _ _ ?y => set (s2 := y) end.
  assert (Inv s2) as H2 by (by apply Inv_minors). wp_step. apply wp_ctrl_get.
  { intros s3 Es _. wp_step. split; [by eapply Inv_core|].
    by apply same_core_inv in Es as (l & t & ->). }
  intros s3 on_host Es _. set (x := new_ctrl d minor on_host) in *.
  assert (Inv s3) as H3 by (eapply Inv_core; [exact Es|]; apply Inv_add_ctrl; [done|done|by eexists|done]).
  apply same_core_inv in Es as (l & t & ->). change (k_next s2) with (k_next s) in *.
  set (c := k_next s) in *. wp_step. wp_step. wp_step.
  eapply wp_ctrl_chrdev_create; [by rw /= lookup_insert_eq|done|..].
  - intros s4 err es _ Es _ Herr _. assert (c_true err = true) as -> by (rw /c_true; lia).
    assert (Inv s4) as H4.
    { eapply Inv_core; [exact Es|]. by eapply Inv_set_ctrl; [done|by rw /= lookup_insert_eq|apply same_pool_fields]. }
    apply same_core_inv in Es as (l4 & t4 & ->). wp_step.
    apply wp_ctrl_put_inv; [done|by rw /= lookup_insert_eq|..].
    { intros o O HO. destruct (inv_owner s H o O HO) as ([y Hy] & _) . intros Ec. rw Ec in Hy.
      destruct (inv_next s H c) as (_ & _ & _ & Hn & _); [unfold c; lia|]. congruence. }
    intros s5 Es5 H5. wp_step. wp_step. wp_step. apply same_core_inv in Es5 as (l5 & t5 & ->).
    split; [by apply Inv_minors|]. split; [done|]. split; [done|]. intros _. simpl.
    assert (k_ctrls s !! c = None) as Hcn by (apply (inv_next s H); unfold c; lia). split.
    + apply unlink_snoc_fresh. rw (inv_ctrl_list s H) Hcn. by intros [].
    + by rw insert_insert_eq delete_insert_id.
  - intros s4 _ Es _. cbn [c_true]. wp_step; [done|]. wp_step. split.
    + eapply Inv_core; [exact Es|].
      by eapply Inv_set_ctrl; [done|by rw /= lookup_insert_eq|apply same_pool_fields].
    + apply same_core_inv in Es as (l4 & t4 & ->). split; [done|]. split; [|done].
      intros _. eexists. split; [done|]. split; [by rw /= insert_insert_eq|]. done.
Qed.

(** The controllers of the device at an address. *)
Definition ctrl_at (s : snvm) (addr : pci_device_addr) (c : ptr) (x : ctrl) : Prop :=
  k_ctrls s !! c = Some x ∧ ∃ pd, k_pdevs s !! c_pdev x = Some pd ∧ same_bdf (pd_addr pd) addr = true.

(** When the control device may be asked: there is room for a new controller,
    or no open file uses the one to be removed. *)
Definition helper_ok (s : snvm) (addr : pci_device_addr) (create : bool) : Prop :=
  if create then (length (k_ctrl_list s) < max_num_ctrls)%nat
  else ∀ c x, ctrl_at s addr c x → unused c s.

Lemma pfind_pdev_Some s d c :
  pfind (k_ctrls s) (λ _ x, bool_decide (c_pdev x = d)) (k_ctrl_list s) = Some c →
  ∃ x, k_ctrls s !! c = Some x ∧ c_pdev x = d.
Proof. intros (l1 & l2 & x & _ & Hx & Hd & _)%pfind_Some. exists x. by apply bool_decide_eq_true in Hd. Qed.

Lemma pfind_pdev_is_Some s d c x :
  Inv s → k_ctrls s !! c = Some x → c_pdev x = d →
  is_Some (pfind (k_ctrls s) (λ _ x, bool_decide (c_pdev x = d)) (k_ctrl_list s)).
Proof.
  intros H Hx Hd. destruct (pfind _ _ _) eqn:Ef; [by eexists|].
  apply pfind_None in Ef; [|by apply Inv_ctrls]. rw Forall_forall in Ef.
  assert (c ∈ k_ctrl_list s) as Hc by (apply inv_ctrl_list; [done|by eexists]).
  specialize (Ef c Hc x Hx). by rw bool_decide_eq_true_2 in Ef.
Qed.

(** Releasing the reference the lookup took. *)
Lemma wp_put_ref {A} (a : A) d pd (Q : A → snvm → Prop) s :
  Inv s → k_pdevs s !! d = Some pd →
  (Inv (set_pdev d pd<{pd_refs := pd_refs pd - 1}> s) →
     Q a (set_pdev d pd<{pd_refs := pd_refs pd - 1}> s)) →
  wp (pci_dev_put d;; mret a) Q s.
Proof.
  intros H Hd HQ. wp_step. rw /pci_dev_put. eapply wp_alter_pdev; [done..|]. intros H'. wp_step. by apply HQ.
Qed.

Lemma set_pdev_back d pd s :
  k_pdevs s !! d = Some pd → set_pdev d pd<{pd_refs := pd_refs pd + 1 - 1}> s = s.
Proof.
  intros Hd. rw /set_pdev. cbn [k_pdevs upd]. assert (pd_refs pd + 1 - 1 = pd_refs pd) as -> by lia.
  rw insert_id; [by destruct s|]. rw Hd. by destruct pd.
Qed.
Lemma set_pdev_set d p q s : set_pdev d p (set_pdev d q s) = set_pdev d p s.
Proof. rw /set_pdev /=. by rw insert_insert_eq. Qed.

(** At most one device answers to an address. *)
Definition bdf_unique (s : snvm) (addr : pci_device_addr) : Prop :=
  ∀ d d' pd pd', k_pdevs s !! d = Some pd → k_pdevs s !! d' = Some pd' →
    same_bdf (pd_addr pd) addr = true → same_bdf (pd_addr pd') addr = true → d = d'.

Lemma wp_helper_create addr s :
  Inv s → helper_ok s addr true →
  wp (snvm_chrdev_helper addr true) (λ r s', Inv s' ∧
    (r.1 = 0 → ∃ c x, ctrl_at s' addr c x ∧ r.2 = PciDeviceAddr (c_number x) 0 0 0) ∧
    (bdf_unique s addr → ∀ c x, ctrl_at s addr c x → r.1 = 0 ∧ s' ≡ₗ s)) s.
Proof.
  intros H Hok. rw /snvm_chrdev_helper. wp_step. apply wp_to_pci_dev.
  { intros Hno. wp_step. split; [done|]. split; [done|]. intros _ c x (_ & pd & Hd & Hb).
    by rw (Hno _ _ Hd) in Hb. }
  intros d pd Hd Hb. set (s1 := set_pdev _ _ _).
  assert (Inv s1) as H1 by (by eapply Inv_set_pdev).
  assert (k_pdevs s1 !! d = Some pd<{pd_refs := pd_refs pd + 1}>) as Hd1 by (by rw /= lookup_insert_eq).
  wp_step. apply wp_ctrl_find_by_pci_dev; [by apply Inv_ctrls|]. wp_step.
  change (k_ctrls s1) with (k_ctrls s). change (k_ctrl_list s1) with (k_ctrl_list s).
  destruct (pfind _ _ _) as [c|] eqn:Ef.
  - destruct (pfind_pdev_Some s d c Ef) as (x & Hx & Hxd).
    wp_step. eapply wp_load; [done|]. wp_step. eapply wp_put_ref; [done..|]. intros H2.
    assert (set_pdev d pd<{pd_refs := pd_refs pd + 1 - 1}> s1 = s) as Eback.
    { by rw set_pdev_set set_pdev_back. }
    change (upd pd_refs (λ _, pd_refs pd<{pd_refs := pd_refs pd + 1}> - 1) pd<{pd_refs := pd_refs pd + 1}>)
      with (pd<{pd_refs := pd_refs pd + 1 - 1}>). rw Eback.
    split; [done|]. split; [|done]. intros _. exists c, x. split; [|done]. split; [done|].
    exists pd. by rw Hxd.
  - wp_step. eapply wp_mono; [apply (wp_snvm_chrdev_create d); [done|by eexists|exact Hok]|].
    intros ret s2 (H2 & Ep2 & Hz & Hnz). wp_step.
    { wp_step. eapply wp_put_ref; [done|by rw Ep2|]. intros H3. split; [done|].
      split; [simpl; intros E0'; rw /c_true E0' in E0; done|].
      intros Hu c x (Hx & pd' & Hpd' & Hb').
      assert (c_pdev x = d) as Exd by (by eapply (Hu _ d pd' pd)).
      destruct (pfind_pdev_is_Some s d c x H Hx Exd) as [? ?]. congruence. }
    assert (ret = 0) as -> by (rw /c_true in E0; lia).
    destruct (Hz eq_refl) as (x & El & Ec & Hxd & _). wp_step.
    apply wp_ctrl_find_by_pci_dev; [by apply Inv_ctrls|].
    destruct (pfind_pdev_is_Some s2 d (k_next s1) x) as [c' Ef']; [done|by rw Ec lookup_insert_eq|done|].
    rw Ef'. destruct (pfind_pdev_Some s2 d c' Ef') as (x' & Hx' & Hxd').
    wp_step. eapply wp_from_option; [done|]. wp_step. eapply wp_load; [done|]. wp_step.
    eapply wp_put_ref; [done|by rw Ep2|]. intros H3. split; [done|]. split.
    + intros _. exists c', x'. split; [|done]. split; [done|]. eexists. by rw Hxd' /= lookup_insert_eq.
    + intros Hu c x0 (Hx0 & pd' & Hpd' & Hb').
      assert (c_pdev x0 = d) as Exd by (by eapply (Hu _ d pd' pd)).
      destruct (pfind_pdev_is_Some s d c x0 H Hx0 Exd) as [? ?]. congruence.
Qed.

Lemma wp_helper_remove addr s :
  Inv s → helper_ok s addr false →
  wp (snvm_chrdev_helper addr false) (λ r s', Inv s' ∧
    (s' ≡ₗ s ∨ ∃ c x, ctrl_at s addr c x ∧ r.1 = 0 ∧
       s' ≡ₗ (drop_ctrl c s)<{k_minor_ida := k_minor_ida s ∖ {[c_number x]} }>)) s.
Proof.
  intros H Hok. rw /snvm_chrdev_helper. wp_step. apply wp_to_pci_dev.
  { intros _. wp_step. split; [done|by left]. }
  intros d pd Hd Hb. set (s1 := set_pdev _ _ _).
  assert (Inv s1) as H1 by (by eapply Inv_set_pdev).
  assert (k_pdevs s1 !! d = Some pd<{pd_refs := pd_refs pd + 1}>) as Hd1 by (by rw /= lookup_insert_eq).
  assert (∀ pd', pd' = pd<{pd_refs := pd_refs pd + 1 - 1}> →
    <[d := pd']> (<[d := pd<{pd_refs := pd_refs pd + 1}>]> (k_pdevs s)) = k_pdevs s) as Eset.
  { intros pd' ->. rw insert_insert_eq insert_id // Hd. replace (pd_refs pd + 1 - 1) with (pd_refs pd) by lia.
    by destruct pd. }
  wp_step. apply wp_ctrl_find_by_pci_dev; [by apply Inv_ctrls|]. wp_step.
  change (k_ctrls s1) with (k_ctrls s). change (k_ctrl_list s1) with (k_ctrl_list s).
  destruct (pfind _ _ _) as [c|] eqn:Ef.
  - destruct (pfind_pdev_Some s d c Ef) as (x & Hx & Hxd).
    assert (ctrl_at s addr c x) as Hat by (split; [done|]; exists pd; by rw Hxd).
    wp_step. eapply wp_load; [done|]. wp_step.
    apply wp_ctrl_put_inv; [done|by eexists|exact (Hok c x Hat)|]. intros s2 Es2 H2.
    apply same_core_inv in Es2 as (l & t & ->). wp_step. wp_step. wp_step.
    eapply wp_put_ref; [by apply Inv_minors|done|]. intros H3. split; [done|].
    right. exists c, x. split; [done|]. split; [done|].
    rw /same_core /core /s1 /set_pdev /=. by rw Eset.
  - wp_step. eapply wp_put_ref; [done..|]. intros H2. split; [done|]. left.
    rw /same_core /core /s1 /set_pdev /=. by rw Eset.
Qed.

Lemma wp_control cmd addr s :
  Inv s → (cmd = SNVM_CHRDEV_CREATE → helper_ok s addr true) →
  (cmd = SNVM_CHRDEV_REMOVE → helper_ok s addr false) →
  wp (snvm_ioctl cmd addr) (λ _ s', Inv s') s.
Proof.
  intros H Hc Hr. rw /snvm_ioctl. wp_step. apply wp_ask. set (s1 := upd k_tick _ s).
  assert (Inv s1) as H1 by inv_core. wp_step; [by wp_step|]. destruct cmd.
  - eapply wp_mono; [by apply wp_rebind|]. by intros r s' [? _].
  - eapply wp_mono; [by apply wp_unbind|]. by intros r s' [? _].
  - wp_step. eapply wp_mono; [by apply wp_helper_create; [|apply Hc]|]. intros r s2 (H2 & _).
    wp_step; [by wp_step|]. wp_step. apply wp_ask. wp_step.
    apply wp_when; intros _; [apply wp_emit|]; wp_step; inv_core.
  - wp_step. eapply wp_mono; [by apply wp_helper_remove; [|apply Hr]|]. intros r s2 (H2 & _). by wp_step.
  - by wp_step.
Qed.
End control_inv.
