(* ===== verification/System.v ===== *)
(** * The module as a transition system

    A state is what the module holds between two calls into it.  A step is one
    system call, or an event of the kernel around the module: the VFS hands it a
    new [struct file], or a PCI device appears.  A step is atomic: the handlers hold
    the mutexes of what they use, but for one place, which is not modelled:
    NVM_ADD_USER_QUEUE drops [groups_lock] before it copies its result out and takes
    it again when that fails, and another thread may use the same file in between.
    A call that faults makes no step, and neither do removing a controller while a
    file is open on it and creating a ninth controller ([helper_ok]); Findings.v has
    what happens then. *)
From S2P Require Import Prelude KState P2p Ctrl Map QidPool QGroup Inv.
From S2P Require Import DevIoctl DevFile DevInv AddQueue DevStep Control ControlInv.

(** The module's data before it is loaded. *)
Definition empty_state (tick : Z) (devs : gmap ptr pci_dev) : snvm :=
  Snvm tick [] 1 ∅ ∅ ∅ ∅ ∅ ∅ devs [] [] [] [] ∅ ∅ 0 false 0.

Section system.
Context {E : kenv} {EL : kenv_laws E} {B : P2pBackend} {BL : P2pLaws B}.

Inductive sys_step : snvm → snvm → Prop :=
| step_file f c s :
    k_files s !! f = None → sys_step s (set_file f (File c None) s)
| step_pci_add d pd s :
    k_pdevs s !! d = None → pd_driver pd = None → sys_step s (set_pdev d pd s)
| step_open current f F r s s' :
    k_files s !! f = Some F → f_private F = None →
    snvm_dev_open current f s = Some (r, s') → sys_step s s'
| step_ioctl current f F cmd r s s' :
    k_files s !! f = Some F → cmd_wf cmd →
    snvm_dev_map_ioctl current f cmd s = Some (r, s') → sys_step s s'
| step_mmap f vs ve r s s' :
    is_Some (k_files s !! f) → svm_mmap_registers f vs ve s = Some (r, s') → sys_step s s'
| step_release f r s s' :
    is_Some (k_files s !! f) → snvm_dev_release f s = Some (r, s') → sys_step s s'
| step_control cmd addr r s s' :
    (cmd = SNVM_CHRDEV_CREATE → helper_ok s addr true) →
    (cmd = SNVM_CHRDEV_REMOVE → helper_ok s addr false) →
    snvm_ioctl cmd addr s = Some (r, s') → sys_step s s'.

(** The states of the loaded module. *)
Definition reachable (s : snvm) : Prop :=
  ∃ tick devs s0, none_bound devs ∧ nvme_init (empty_state tick devs) = Some (0, s0) ∧
    rtc sys_step s0 s.

Lemma Inv_file s f c : Inv s → k_files s !! f = None → Inv (set_file f (File c None) s).
Proof.
  intros H Hf. pose proof H as []. constructor; try done.
  - intros f' F o HF. rw /= lookup_insert in HF. case_decide; simplify_eq/=; [done|]. by apply (inv_file f').
  - intros f1 f2 F1 F2 o H1 H2. rw /= !lookup_insert in H1, H2.
    repeat case_decide; simplify_eq/=; try done. by apply (inv_file_once f1 f2 F1 F2 o).
Qed.

Lemma Inv_pci_add s d pd :
  Inv s → k_pdevs s !! d = None → pd_driver pd = None → Inv (set_pdev d pd s).
Proof.
  intros H Hd Hn. pose proof H as [].
  assert (∀ d' q, k_pdevs (set_pdev d pd s) !! d' = Some q → pd_driver q = Some PCI_DRIVER_NAME →
    k_pdevs s !! d' = Some q) as Hl.
  { intros d' q Hq Hr. rw /= lookup_insert in Hq. by case_decide; simplify_eq/=. }
  constructor; try done.
  - intros c x Hx. destruct (inv_pdev c x Hx) as (q & Hq & ?). exists q. split; [|done].
    rw /= lookup_insert_ne //. congruence.
  - intros d1 q1 n H1 Hr1 Hn1. destruct (inv_drv d1 q1 n (Hl _ _ H1 Hr1) Hr1 Hn1) as [? Hu].
    split; [done|]. intros d2 q2 H2 Hr2 Hn2. exact (Hu d2 q2 (Hl _ _ H2 Hr2) Hr2 Hn2).
  - intros Hf. destruct (inv_found Hf) as [? Hnb]. split; [done|].
    intros d1 q1 H1 Hr1. by apply (Hnb d1 q1 (Hl _ _ H1 Hr1)).
Qed.

Lemma Inv_release f s :
  Inv s → is_Some (k_files s !! f) → wp (snvm_dev_release f) (λ _ s', Inv s') s.
Proof.
  intros H [F HF]. destruct (f_private F) as [o|] eqn:Ho.
  - destruct (inv_file s H f F o HF Ho) as (O & HO & _).
    eapply wp_mono; [by eapply wp_release|]. by intros r s' (_ & ? & _).
  - rw /snvm_dev_release. wp_step. eapply wp_load; [done|]. rw Ho. by wp_step.
Qed.

Lemma Inv_step s s' : sys_step s s' → Inv s → Inv s'.
Proof.
  destruct 1; intros HI.
  - by apply Inv_file.
  - by apply Inv_pci_add.
  - by destruct (run_wp _ _ _ _ _ H1 (wp_open current f F s HI H H0)).
  - exact (wlp_dev_ioctl current f F cmd s HI H H0 _ _ H1).
  - by destruct (run_wp _ _ _ _ _ H0 (wp_mmap f vs ve s HI H)).
  - exact (run_wp _ _ _ _ _ H0 (Inv_release f s HI H)).
  - exact (run_wp _ _ _ _ _ H1 (wp_control cmd addr s HI H H0)).
Qed.

Lemma Inv_empty tick devs : none_bound devs → Inv (empty_state tick devs).
Proof.
  intros Hnb. constructor; try done.
  - constructor.
  - intros c. simpl. split; [by intros ?%elem_of_nil|by intros [? ?]].
  - simpl. lia.
  - intros d pd n Hd Hr. by destruct (Hnb d pd Hd).
  - constructor.
  - intros p. split; [by intros ?%elem_of_nil|by intros [? ?]].
  - intros i. simpl. split; [by intros ?%elem_of_empty|by intros (? & ? & ? & _)].
  - by intros g [? ?].
Qed.

(** ** Loading the module *)

(** What takes back a resource. *)
Definition undo (e : event) : event :=
  match e with
  | EvClassCreate => EvClassDestroy
  | EvRegionAlloc n => EvRegionFree n
  | EvCdevAdd r => EvCdevDel r
  | EvDeviceCreate r _ => EvDeviceDestroy r
  | e => e
  end.
(** Everything that was acquired is given back, last one first. *)
Definition rolled_back (es : list event) : Prop := ∃ l, es = l ++ (undo <$> reverse l).

Definition loaded_events (first : Z) : list event :=
  [EvClassCreate; EvRegionAlloc max_num_ctrls_param; EvCdevAdd (snvm_devno first);
   EvDeviceCreate (snvm_devno first) "snvm_control"].

Lemma wp_cdev_init s :
  wp snvm_cdev_init (λ r s', ∃ first es, steps es s<{k_dev_first := first}> s' ∧
    ((r = 0 ∧ es = loaded_events first) ∨ (r < 0 ∧ rolled_back es))) s.
Proof.
  rw /snvm_cdev_init.
  assert (∀ r s', r < 0 → steps [] s s' → ∃ first es, steps es s<{k_dev_first := first}> s' ∧
    ((r = 0 ∧ es = loaded_events first) ∨ (r < 0 ∧ rolled_back es))) as Hnone.
  { intros r s' Hr Hs. exists (k_dev_first s), []. assert (s<{k_dev_first := k_dev_first s}> = s) as ->
      by (by destruct s). split; [done|]. right. split; [done|]. by exists []. }
  wp_step. apply wp_ask. wp_step; [wp_step; apply Hnone; [lia|apply steps_tick]|].
  wp_step. apply wp_emit. wp_step. apply wp_ask. destruct (env_chrdev_region _) as [rr first]. cbn [fst snd].
  wp_step.
  { wp_step. apply wp_emit. wp_step. exists (k_dev_first s), [EvClassCreate; EvClassDestroy]. split.
    - exists (k_tick s + 1 + 1). destruct s; cbn. by rw -app_assoc.
    - right. split; [lia|]. by exists [EvClassCreate]. }
  wp_step. apply wp_emit. wp_step. wp_step. wp_step. apply wp_ask. wp_step.
  { wp_step. apply wp_emit. wp_step. apply wp_emit. wp_step.
    exists first, [EvClassCreate; EvRegionAlloc max_num_ctrls_param;
                   EvRegionFree max_num_ctrls_param; EvClassDestroy]. split.
    - eexists. cbn. by rw -!app_assoc.
    - right. split; [lia|]. by exists [EvClassCreate; EvRegionAlloc max_num_ctrls_param]. }
  wp_step. apply wp_emit. wp_step. apply wp_ask. wp_step.
  - wp_step. apply wp_emit. wp_step. apply wp_emit. wp_step. apply wp_emit. wp_step.
    exists first, [EvClassCreate; EvRegionAlloc max_num_ctrls_param; EvCdevAdd (snvm_devno first);
      EvCdevDel (snvm_devno first); EvRegionFree max_num_ctrls_param; EvClassDestroy]. split.
    + eexists. cbn. by rw -!app_assoc.
    + right. split; [lia|].
      by exists [EvClassCreate; EvRegionAlloc max_num_ctrls_param; EvCdevAdd (snvm_devno first)].
  - wp_step. apply wp_emit. wp_step. exists first, (loaded_events first). split.
    + eexists. cbn. by rw -!app_assoc.
    + by left.
Qed.

Lemma Inv_dev_first s first : Inv s → Inv s<{k_dev_first := first}>.
Proof. intros []. by constructor. Qed.

Lemma Inv_init tick devs r s :
  none_bound devs → nvme_init (empty_state tick devs) = Some (r, s) → Inv s.
Proof.
  intros Hnb Hrun. eapply (run_wp _ (λ _ s', Inv s') _ _ _ Hrun).
  rw /nvme_init. wp_step. wp_step. wp_step. eapply wp_mono; [apply p2p_init_ok|]. intros rc s1 Hq.
  apply quiet_inv in Hq as (es1 & t1 & Hes1 & ->). wp_step. wp_step.
  eapply wp_mono; [apply wp_cdev_init|]. intros _ s' (first & es & Hs%steps_core & _).
  eapply Inv_core; [exact Hs|]. apply Inv_dev_first. refine (Inv_core (empty_state tick devs) _ _ _); [done|].
  by apply Inv_empty.
Qed.

Lemma reachable_step s s' : reachable s → sys_step s s' → reachable s'.
Proof. intros (t & devs & s0 & H1 & H2 & H3) Hs. exists t, devs, s0. split_and!; [done..|]. by eapply rtc_r. Qed.

Lemma reachable_Inv s : reachable s → Inv s.
Proof.
  intros (tick & devs & s0 & Hnb & Hinit & Hsteps).
  assert (Inv s0) as H0 by (by eapply Inv_init). clear Hinit.
  induction Hsteps as [|s1 s2 s3 Hstep _ IH]; [done|]. apply IH. by eapply Inv_step.
Qed.

(** ** Unloading the module *)

(** Controllers, devices and open files are untouched. *)
Definition only_maps (s s' : snvm) : Prop :=
  k_ctrls s' = k_ctrls s ∧ k_pdevs s' = k_pdevs s ∧ dom (k_owners s') = dom (k_owners s) ∧
  k_driver_found s' = k_driver_found s.

Lemma wp_clear_map_list l fuel i s :
  Inv s → (length (k_glist l s) ≤ fuel)%nat →
  wp (clear_map_list fuel l i) (λ n s', Inv s' ∧ n = i + Z.of_nat (length (k_glist l s)) ∧
    minus (.∈ k_glist l s) s s' ∧ only_maps s s') s.
Proof.
  revert i s. induction fuel as [|fuel IH]; intros i s H Hl; cbn [clear_map_list]; wp_step; wp_step;
    (destruct (k_glist l s) as [|p ps] eqn:El; cbn [head];
      [wp_step; split_and!; [done|simpl; lia| |done]; apply minus_refl; by intros ? ?%elem_of_nil|]).
  { simpl in Hl. lia. }
  assert (is_Some (k_maps s !! p)) as [m Hm].
  { apply (inv_listed s H), (glist_listed l). rw El. set_solver. }
  wp_step. eapply wp_unmap_inv; [done..|]. intros s1 Hm1 H1. pose proof (moves_core _ _ _ Hm1) as Ec.
  pose proof (Inv_glist_nodup s l H) as Hnd. rw El in Hnd. apply NoDup_cons in Hnd as [Hp Hnd].
  assert (k_glist l s1 = ps) as El1.
  { apply same_core_inv in Ec as (lg & t & ->). 
    assert (k_glist l (drop_map p s) = ps) as Ed by (by rw drop_map_glist El unlink_cons_eq).
    rw -Ed. by destruct l. }
  assert (only_maps s s1) as Ho1.
  { apply same_core_inv in Ec as (lg & t & ->). split_and!; [done..| |done]. simpl. apply dom_fmap_L. }
  pose proof (minus_core _ _ _ _ Ec (minus_drop_map p s)) as Hmin1.
  eapply wp_mono; [apply IH; [done|rw El1; simpl in Hl; lia]|].
  intros n s2 (H2 & -> & Hmin2 & (Ho2 & Ho3 & Ho4 & Ho5)). rw El1 in Hmin2 |- *.
  destruct Ho1 as (Ha & Hb & Hc & Hd).
  split; [done|]. split; [simpl; lia|]. split.
  - destruct (minus_trans _ _ _ _ _ Hmin1 Hmin2) as [M L].
    split; intros; setoid_rewrite elem_of_cons; [apply M|apply L].
  - split_and!; congruence.
Qed.

Lemma wp_clear_maps l s :
  Inv s → wp (clear_map_list' l) (λ n s', Inv s' ∧ n = Z.of_nat (length (k_glist l s)) ∧
    minus (.∈ k_glist l s) s s' ∧ only_maps s s') s.
Proof.
  intros H. rw /clear_map_list'. wp_step. wp_step. exact (wp_clear_map_list l _ 0 s H (le_n _)).
Qed.

(** After the three lists are cleared there is no map. *)
Lemma cleared s s1 s2 s3 :
  Inv s → minus (.∈ k_device_list s) s s1 → minus (.∈ k_device_queue_list s1) s1 s2 →
  minus (.∈ k_host_list s2) s2 s3 → k_maps s3 = ∅.
Proof.
  intros H [M1 L1] [M2 L2] [M3 L3]. apply map_empty. intros p.
  destruct (k_maps s3 !! p) as [m|] eqn:Hm; [|done]. exfalso.
  apply M3 in Hm as [Hm H3]. apply M2 in Hm as [Hm H2]. apply M1 in Hm as [Hm H1].
  assert (p ∈ listed s) as Hl by (apply inv_listed; [done|by eexists]). rw /listed !elem_of_app in Hl.
  destruct Hl as [Hl|[Hl|Hl]]; [|done|].
  - apply H3, (L2 HostList). split; [by apply (L1 HostList)|done].
  - by apply H2, (L1 DeviceQueueList).
Qed.

Lemma Inv_no_maps s : Inv s → k_maps s = ∅ → ∀ l, k_glist l s = [].
Proof.
  intros H Hm l. destruct (k_glist l s) as [|p ps] eqn:El; [done|].
  assert (p ∈ listed s) as Hp by (apply (glist_listed l); rw El; set_solver).
  apply (inv_listed s H) in Hp as [m Hp]. by rw Hm in Hp.
Qed.

(** Clearing empty lists does nothing. *)
Lemma wp_clear_none l s (Q : Z → snvm → Prop) :
  k_glist l s = [] → Q 0 s → wp (clear_map_list' l) Q s.
Proof.
  intros El HQ. rw /clear_map_list'. wp_step. wp_step. rw El. cbn [length clear_map_list].
  wp_step. wp_step. rw El. by wp_step.
Qed.

Lemma wp_unregister s :
  Inv s → wp snvm_unregister_driver (λ _ s', (∀ l, k_glist l s' = k_glist l s) ∧
    k_maps s' = k_maps s ∧ k_ctrls s' = k_ctrls s ∧ k_ctrl_list s' = k_ctrl_list s ∧
    none_bound (k_pdevs s')) s.
Proof.
  intros H. rw /snvm_unregister_driver. wp_step. wp_step. wp_step.
  eapply (wp_kfor _ _ (λ ds s2, (Inv s2 ∧ ∀ l, k_glist l s2 = k_glist l s) ∧ k_maps s2 = k_maps s ∧
    k_ctrls s2 = k_ctrls s ∧ k_ctrl_list s2 = k_ctrl_list s ∧ (∀ d, d ∈ ds → is_Some (k_pdevs s2 !! d)) ∧
    (∀ d pd, k_pdevs s2 !! d = Some pd → pd_driver pd = Some PCI_DRIVER_NAME → d ∈ ds))).
  - do 4 (split; [done|]). split.
    + intros d ([k pd] & -> & Hd)%list_elem_of_fmap. apply elem_of_map_to_list in Hd. by eexists.
    + intros d pd Hd _. apply list_elem_of_fmap. exists (d, pd). split; [done|]. by apply elem_of_map_to_list.
  - intros d ds s2 ([H2 El2] & E1 & E2 & E3 & Hds & Hb). destruct (Hds d) as [pd Hd]; [set_solver|].
    wp_step. eapply wp_load; [done|]. apply wp_when; intros Hdr.
    + eapply wp_device_release_driver; [done..|]. intros s3 (t & ->) H3.
      rw /unbound Hdr in H3 |- *. split; [split; [done|]; intros l; rw -El2; by destruct l|].
      do 3 (split; [done|]). cbn [k_pdevs set_pdev upd]. split.
      * intros d' Hd'. rw lookup_insert_is_Some'. right. apply Hds. set_solver.
      * intros d' pd' Hd' Hr. rw lookup_insert in Hd'. case_decide; [by simplify_eq|].
        specialize (Hb d' pd' Hd' Hr). set_solver.
    + apply bool_decide_eq_false in Hdr. do 4 (split; [done|]). split; [set_solver|].
      intros d' pd' Hd' Hr. specialize (Hb d' pd' Hd' Hr). apply elem_of_cons in Hb as [->|?]; [|done].
      by simplify_eq.
  - intros s2 ([H2 El2] & E1 & E2 & E3 & _ & Hb). wp_step. apply wp_emit. wp_step.
    split; [intros l; rw -El2; by destruct l|]. do 3 (split; [done|]).
    intros d pd Hd Hr. by apply (Hb d pd Hd) in Hr as ?%elem_of_nil.
Qed.

(** The controllers are those of the list. *)
Definition ctrls_listed (s : snvm) : Prop :=
  NoDup (k_ctrl_list s) ∧ ∀ c, c ∈ k_ctrl_list s ↔ is_Some (k_ctrls s !! c).

Lemma wp_clear_ctrl_list fuel i s :
  ctrls_listed s → (length (k_ctrl_list s) ≤ fuel)%nat →
  wp (clear_ctrl_list fuel i) (λ n s', n = i + Z.of_nat (length (k_ctrl_list s)) ∧
    k_ctrls s' = ∅ ∧ k_ctrl_list s' = [] ∧ k_maps s' = k_maps s ∧ k_pdevs s' = k_pdevs s ∧
    ∀ l, k_glist l s' = k_glist l s) s.
Proof.
  revert i s. induction fuel as [|fuel IH]; intros i s [Hnd Hl] Hf; cbn [clear_ctrl_list]; wp_step; wp_step;
    (destruct (k_ctrl_list s) as [|c cs] eqn:El; cbn [head];
      [wp_step; split_and!; [simpl; lia| |done..]; apply map_empty; intros c;
       destruct (k_ctrls s !! c) eqn:Ec; [|done];
       assert (c ∈ []) as []%elem_of_nil by (apply Hl; by eexists)|]).
  { simpl in Hf. lia. }
  apply NoDup_cons in Hnd as [Hc Hnd]. destruct (proj1 (Hl c)) as [x Hx]; [set_solver|].
  wp_step. eapply wp_ctrl_put; [done|]. intros s1 (lg & t & ->)%same_core_inv _.
  assert (unlink c (k_ctrl_list s) = cs) as Eu by (by rw El unlink_cons_eq).
  eapply wp_mono; [apply IH; [|rw /= Eu; simpl in Hf; lia]|].
  - split; simpl; rw Eu; [done|]. intros c'. rw lookup_delete_is_Some -Hl elem_of_cons.
    split; [|naive_solver]. intros Hin. split; [by intros <-|by right].
  - intros n s2 (-> & Ha & Hb & Hm & Hp & Hg). simpl in Hm, Hp. rw /= Eu. split_and!; [simpl; lia|done..|].
    intros l. rw Hg. by destruct l.
Qed.

(** What remains after unloading. *)
Definition unloaded (s' : snvm) : Prop :=
  k_maps s' = ∅ ∧ k_ctrls s' = ∅ ∧ k_ctrl_list s' = [] ∧ (∀ l, k_glist l s' = []) ∧
  k_minor_ida s' = ∅ ∧ none_bound (k_pdevs s').

Lemma wp_nvme_exit s : Inv s → wp nvme_exit (λ _ s', unloaded s') s.
Proof.
  intros H. rw /nvme_exit.
  wp_step. eapply wp_mono; [by apply wp_clear_maps|]. intros _ s1 (H1 & _ & Hm1 & _).
  wp_step. eapply wp_mono; [by apply wp_clear_maps|]. intros _ s2 (H2 & _ & Hm2 & _).
  wp_step. eapply wp_mono; [by apply wp_clear_maps|]. intros _ s3 (H3 & _ & Hm3 & _).
  pose proof (cleared s s1 s2 s3 H Hm1 Hm2 Hm3) as He. pose proof (Inv_no_maps s3 H3 He) as Hl3.
  wp_step. rw /clean_driver. wp_step. apply wp_clear_none; [done|]. wp_step. apply wp_clear_none; [done|].
  wp_step. apply wp_clear_none; [done|]. wp_step. wp_step. wp_step.
  apply (wp_mono _ (λ _ s4, (∀ l, k_glist l s4 = []) ∧ k_maps s4 = ∅ ∧ ctrls_listed s4 ∧
    none_bound (k_pdevs s4))).
  { pose proof (inv_ctrl_nodup s3 H3). pose proof (inv_ctrl_list s3 H3). apply wp_when; intros Hf.
    - eapply wp_mono; [by apply wp_unregister|]. intros _ s4 (Hg & Em & Ec & El & Hnb).
      split; [intros l; by rw Hg|]. split; [by rw Em|]. split; [|done]. by rw /ctrls_listed Ec El.
    - do 2 (split; [done|]). split; [done|]. exact (proj2 (inv_found s3 H3 Hf)). }
  intros _ s4 (Hg4 & Em4 & Hcl4 & Hnb4). wp_step. wp_step. eapply wp_mono; [apply p2p_exit_ok|].
  intros u s5 (es & t & Hes & ->)%quiet_inv. wp_step. rw /clear_ctrl_list'. wp_step. wp_step.
  eapply wp_mono; [by apply wp_clear_ctrl_list|]. intros n s6 (_ & Ec & Ecl & Em & Ep & Hg).
  simpl in Em, Ep. rw /snvm_cdev_release. wp_step. wp_step. repeat (wp_step; apply wp_emit). wp_step.
  split_and!; [by rw /= Em|done..| |done|by rw /= Ep]. intros l. rw -(Hg4 l). specialize (Hg l).
  by destruct l.
Qed.
End system.
