(* ===== verification/Machine.v ===== *)
(** * A concrete machine

    An environment in which every call succeeds unless told otherwise, and the
    states a session on it goes through: load the module, create and bind a
    controller, open its device, create a group, map two rings and a data buffer,
    add a queue pair.  The witnesses of the theorems run on it. *)
From S2P Require Import Prelude KState P2p Ctrl Map QidPool QGroup Inv.
From S2P Require Import DevIoctl DevFile DevInv AddQueue DevStep Control ControlInv System.

(** ** The environment *)

(** The least id from [start] on that is not in use. *)
Definition ida_first (used : gset Z) (start : Z) : Z :=
  match list_find (λ i, i ∉ used) (seqZ start (Z.of_nat (size used) + 1)) with
  | Some (_, i) => if i <? 2 ^ 31 then i else - ENOSPC
  | None => - ENOSPC
  end.

Definition demo_ndev : nvme_dev := NvmeDev true 5 5 8 1024 1 5 0 1024 0.

(** [copy_out t] tells whether the copy at tick [t] succeeds, [admin t cmd] how
    the controller answers a command. *)
Definition machine (copy_out : Z → bool) (admin : Z → nvme_command → Z) : kenv := {|
  env_alloc _ := true;
  env_uninit _ := 0;
  env_copy_from _ := true;
  env_copy_to := copy_out;
  env_gup _ v n := (n, seqZ (v / PAGE_SIZE) n);
  env_dma_map_page _ _ page := 2 ^ 40 + page * PAGE_SIZE;
  env_dma_mapping_error _ _ := 0;
  env_ida _ := ida_first;
  env_admin t _ cmd := admin t cmd;
  env_find_ns _ _ := Some ("snvme0n1"%string, 9);
  env_iomap _ := 0;
  env_cdev_add _ := 0;
  env_device_create _ := 0;
  env_class_create _ := 0;
  env_chrdev_region _ := (0, MKDEV 240 0);
  env_register_driver _ := 0;
  env_device_attach _ _ _ := (1, demo_ndev);
|}.

#[export] Instance machine_laws co ad : kenv_laws (machine co ad).
Proof.
  split.
  - intros t v n Hn. simpl in *. rw length_seqZ. lia.
  - intros t v n Hn. simpl. lia.
  - done.
  - intros t u a. simpl. rw /ida_first. destruct (list_find _ _) as [[i z]|] eqn:Ef; [|done].
    apply list_find_Some in Ef as (Hz & Hu & _). apply list_elem_of_lookup_2, elem_of_seqZ in Hz.
    destruct (Z.ltb_spec z (2 ^ 31)); [|done]. intros _. split; [done|lia].
  - intros t d n. simpl. lia.
  - intros t d n. simpl. lia.
Qed.

(** Device memory: every descriptor names a dma-buf of one contiguous segment. *)
Definition demo_dma_buf : Npu.dma_buf_env := {|
  Npu.env_dma_buf_get _ fd := if fd <? 0 then inl (- EBADF) else inr (100 + fd);
  Npu.env_dma_buf_attach _ buf _ := inr (buf + 1000);
  Npu.env_map_attachment _ attach := inr (attach, [(2 ^ 44, 2 ^ 20)]);
|}.
#[export] Instance demo_dma_buf_laws : Npu.dma_buf_laws demo_dma_buf.
Proof.
  split; simpl; [|done|done]. intros t fd e. destruct (fd <? 0); [|done]. by intros [= <-].
Qed.

(** The controller refuses to create the submission queue 8 and to delete the
    completion queue 7; the session below does not come to these ids. *)
Definition controller (cmd : nvme_command) : Z :=
  match cmd with
  | CreateSq _ 8 _ _ _ => 1
  | DeleteQueue 4 7 => 1
  | _ => 0
  end.
Definition good : kenv := machine (λ _, true) (λ _, controller).
Definition npu : P2pBackend := @Npu.npu_backend good demo_dma_buf.
#[export] Instance npu_ok : P2pLaws npu.
Proof. apply Npu.npu_laws. Qed.

(** ** Running *)

Definition exec {A} (m : K snvm A) (s : snvm) : snvm := from_option snd s (m s).
Definition result {A} (m : K snvm A) (s : snvm) : option A := fst <$> m s.

Lemma exec_run {A} (m : K snvm A) s r : result m s = Some r → m s = Some (r, exec m s).
Proof. rw /result /exec. destruct (m s) as [[a s']|]; simpl; [|done]. by intros [= ->]. Qed.

(** ** The session *)

Section session.
Existing Instance good.
Existing Instance npu.

Definition bdf : pci_device_addr := PciDeviceAddr 0 1 0 0.
Definition demo_pdev : pci_dev := PciDev bdf PCI_CLASS_STORAGE_EXPRESS None None 1 None 0xf0000000 0x4000 1.
Definition demo_devs : gmap ptr pci_dev := {[1%positive := demo_pdev]}.

Definition task : ptr := 77.
Definition the_file : ptr := 5.
Definition the_ctrl : ptr := 1.

Definition map_rq (vaddr kind gid : Z) : nvm_ioctl_map := NvmIoctlMap vaddr 1 (-1) 0 gid kind [].
Definition group_rq : nvm_ioctl_queue_group := NvmIoctlQueueGroup 0 0 0 [].
Definition sq_va : Z := 0x7000_0000.
Definition cq_va : Z := 0x7000_1000.
Definition data_va : Z := 0x7000_2000.
Definition add_rq : nvm_ioctl_add_user_queue :=
  AddUserQueue 1 1 0 [] (PairIn sq_va cq_va :: replicate 15 (PairIn 0 0)).

Definition st_loaded : snvm := exec nvme_init (empty_state 0 demo_devs).
Definition st_created : snvm := exec (snvm_ioctl SNVM_CHRDEV_CREATE bdf) st_loaded.
Definition st_bound : snvm := exec (snvm_ioctl SNVM_DEVICE_BIND bdf) st_created.
Definition st_file : snvm := set_file the_file (File the_ctrl None) st_bound.
Definition st_open : snvm := exec (snvm_dev_open task the_file) st_file.
Definition ioctl_on (cmd : dev_cmd) (s : snvm) : snvm := exec (snvm_dev_map_ioctl task the_file cmd) s.
Definition st_group : snvm := ioctl_on (NVM_CREATE_QUEUE_GROUP group_rq) st_open.
Definition st_sq : snvm := ioctl_on (NVM_MAP_HOST_MEMORY (map_rq sq_va NVM_MAP_KIND_RING_SQ 1)) st_group.
Definition st_cq : snvm := ioctl_on (NVM_MAP_HOST_MEMORY (map_rq cq_va NVM_MAP_KIND_RING_CQ 1)) st_sq.
Definition st_data : snvm := ioctl_on (NVM_MAP_HOST_MEMORY (map_rq data_va NVM_MAP_KIND_DATA 0)) st_cq.
Definition st_queue : snvm := ioctl_on (NVM_ADD_USER_QUEUE add_rq) st_data.
(** Three more pairs, whose rings lie in the same two pages. *)
Definition three_rq : nvm_ioctl_add_user_queue :=
  AddUserQueue 1 3 0 [] ((λ i, PairIn (sq_va + i) (cq_va + i)) <$> seqZ 0 16).
(** After the legacy set-up, a page of device memory mapped as a queue. *)
Definition setup_rq : nvm_ioctl_setup := NvmIoctlSetup 2 0 0 0 0 0 [] [].
Definition devq_rq : nvm_ioctl_map := NvmIoctlMap 0x10000 1 0 0 0 0 [].
Definition st_setup : snvm := ioctl_on (NVM_SET_IOQ_NUM setup_rq) st_queue.
Definition st_devq : snvm := ioctl_on (NVM_MAP_DEVICE_QUEUE_MEMORY devq_rq) st_setup.

(** Every call of the session returns 0. *)
Lemma session_ok :
  (result nvme_init (empty_state 0 demo_devs),
   result (snvm_ioctl SNVM_CHRDEV_CREATE bdf) st_loaded,
   result (snvm_ioctl SNVM_DEVICE_BIND bdf) st_created,
   result (snvm_dev_open task the_file) st_file,
   result (snvm_dev_map_ioctl task the_file (NVM_CREATE_QUEUE_GROUP group_rq)) st_open,
   result (snvm_dev_map_ioctl task the_file (NVM_MAP_HOST_MEMORY (map_rq sq_va NVM_MAP_KIND_RING_SQ 1))) st_group,
   result (snvm_dev_map_ioctl task the_file (NVM_MAP_HOST_MEMORY (map_rq cq_va NVM_MAP_KIND_RING_CQ 1))) st_sq,
   result (snvm_dev_map_ioctl task the_file (NVM_MAP_HOST_MEMORY (map_rq data_va NVM_MAP_KIND_DATA 0))) st_cq,
   result (snvm_dev_map_ioctl task the_file (NVM_ADD_USER_QUEUE add_rq)) st_data) =
  (Some 0, Some 0, Some 0, Some 0, Some 0, Some 0, Some 0, Some 0, Some 0).
Proof. vm_compute. reflexivity. Qed.

Lemma step_exec_ioctl f F cmd r s :
  k_files s !! f = Some F → cmd_wf cmd →
  result (snvm_dev_map_ioctl task f cmd) s = Some r →
  sys_step s (exec (snvm_dev_map_ioctl task f cmd) s).
Proof. intros HF Hok Hr. by eapply step_ioctl; [..|apply exec_run]. Qed.

Lemma step_exec_control cmd addr r s :
  (cmd = SNVM_CHRDEV_CREATE → helper_ok s addr true) →
  (cmd = SNVM_CHRDEV_REMOVE → helper_ok s addr false) →
  result (snvm_ioctl cmd addr) s = Some r → sys_step s (exec (snvm_ioctl cmd addr) s).
Proof. intros H1 H2 Hr. by eapply step_control; [..|apply exec_run]. Qed.

Lemma session_none_bound : none_bound demo_devs.
Proof. apply map_Forall_singleton. done. Qed.

Lemma reachable_loaded : reachable st_loaded.
Proof.
  exists 0, demo_devs, st_loaded. split; [apply session_none_bound|].
  split; [|apply rtc_refl]. apply (exec_run nvme_init (empty_state 0 demo_devs)). vm_compute. reflexivity.
Qed.


(** An ioctl of the session that returns 0 leads to a reachable state. *)
Lemma reachable_ioctl cmd F s :
  reachable s → k_files s !! the_file = Some F → cmd_wf cmd →
  result (snvm_dev_map_ioctl task the_file cmd) s = Some 0 → reachable (ioctl_on cmd s).
Proof. intros Hs HF Hok Hr. eapply reachable_step; [done|]. by eapply step_exec_ioctl. Qed.

Lemma reachable_file : reachable st_file.
Proof.
  assert (reachable st_created) as H1.
  { eapply reachable_step; [apply reachable_loaded|].
    apply (step_exec_control SNVM_CHRDEV_CREATE bdf 0); [intros _; vm_compute; lia|discriminate|].
    vm_compute. reflexivity. }
  assert (reachable st_bound) as H2.
  { eapply reachable_step; [exact H1|].
    apply (step_exec_control SNVM_DEVICE_BIND bdf 0); [discriminate..|]. vm_compute. reflexivity. }
  eapply reachable_step; [exact H2|]. apply step_file. vm_compute. reflexivity.
Qed.
Lemma reachable_open : reachable st_open.
Proof.
  eapply reachable_step; [exact reachable_file|].
  apply (step_open task the_file (File the_ctrl None) 0); [vm_compute; reflexivity|reflexivity|].
  apply (exec_run (snvm_dev_open task the_file) st_file). vm_compute. reflexivity.
Qed.

Definition open_file : file := File the_ctrl (Some 3%positive).
Lemma reachable_group : reachable st_group.
Proof.
  apply (reachable_ioctl _ open_file); [exact reachable_open|vm_compute; reflexivity|done|vm_compute; reflexivity].
Qed.
Lemma reachable_sq : reachable st_sq.
Proof.
  apply (reachable_ioctl _ open_file);
    [exact reachable_group|vm_compute; reflexivity|done|vm_compute; reflexivity].
Qed.
Lemma reachable_cq : reachable st_cq.
Proof.
  apply (reachable_ioctl _ open_file);
    [exact reachable_sq|vm_compute; reflexivity|done|vm_compute; reflexivity].
Qed.
Lemma reachable_data : reachable st_data.
Proof.
  apply (reachable_ioctl _ open_file);
    [exact reachable_cq|vm_compute; reflexivity|done|vm_compute; reflexivity].
Qed.
Lemma reachable_queue : reachable st_queue.
Proof.
  apply (reachable_ioctl _ open_file);
    [exact reachable_data|vm_compute; reflexivity|by split|vm_compute; reflexivity].
Qed.

Lemma reachable_devq : reachable st_devq.
Proof.
  assert (reachable st_setup) as H1.
  { apply (reachable_ioctl _ open_file);
      [exact reachable_queue|vm_compute; reflexivity|done|vm_compute; reflexivity]. }
  apply (reachable_ioctl _ open_file); [exact H1|vm_compute; reflexivity|done|vm_compute; reflexivity].
Qed.
(** The list of device queues is not empty. *)
Lemma session_devq : k_device_queue_list st_devq = [8%positive] ∧ k_device_queue_list st_queue = [].
Proof. vm_compute. done. Qed.

(** What the session has created: the file's descriptor, its group, the maps of
    the two rings and of the buffer, and one queue with id 5. *)
Lemma session_objects :
  (f_private <$> k_files st_queue !! the_file, k_next st_queue, k_host_list st_queue,
   (λ g, (g_group_id g, g_maps g, g_cur_queues g, alive_qids (g_queues g))) <$> k_groups st_queue !! 4%positive,
   (λ o, (o_groups o, o_data_maps o)) <$> k_owners st_queue !! 3%positive) =
  (Some (Some 3%positive), 8%positive, [5; 6; 7]%positive, Some (1, [5; 6]%positive, 1, [5]),
   Some ([4%positive], [7%positive])).
Proof. vm_compute. reflexivity. Qed.
End session.
