(* ===== verification/PhaseRing.v ===== *)
(** * Rings with a phase tag

    How a reader finds new entries in a ring without reading the writer's
    position: every entry carries a tag that changes from one round to the next.
    The theory is shared by the completion queues of the kernel driver (pci.c) and
    of the user library (nvm_queue.h).  Entries are numbered from 0 in the order
    in which they are posted. *)
From S2P Require Import Prelude.

(** The slot of the [n]th entry and its tag: 1 in the first round. *)
Definition slot_of (qs n : Z) : Z := n mod qs.
Definition phase_of (qs n : Z) : bool := Z.even (n / qs).

Section ring.
Context {A : Type}.
Variable tag : A → bool.
Variable qs : Z.
Hypothesis qs_pos : 0 < qs.

(** The memory of a ring in which [posted] has been posted: each of the last
    [qs] entries is in its slot, a slot never written has tag 0, and entries have
    the tag of their round. *)
Record ring_ok (posted mem : list A) : Prop := {
  ring_length : Z.of_nat (length mem) = qs;
  ring_posted : ∀ j a, posted !! j = Some a → Z.of_nat (length posted) ≤ Z.of_nat j + qs →
    mem !! Z.to_nat (slot_of qs (Z.of_nat j)) = Some a;
  ring_blank : ∀ i, Z.of_nat (length posted) ≤ Z.of_nat i < qs → ∃ a, mem !! i = Some a ∧ tag a = false;
  ring_tag : ∀ j a, posted !! j = Some a → tag a = phase_of qs (Z.of_nat j);
}.

Lemma slot_range n : 0 ≤ slot_of qs n < qs.
Proof. by apply Z.mod_pos_bound. Qed.

(** Two entries less than a round apart are in different slots. *)
Lemma slot_distinct n m : 0 < n - m < qs → slot_of qs n ≠ slot_of qs m.
Proof.
  rw /slot_of. intros Hd He. pose proof (Z.div_mod n qs ltac:(lia)). pose proof (Z.div_mod m qs ltac:(lia)).
  assert (n - m = qs * (n / qs - m / qs)) by lia. assert (n / qs - m / qs ≠ 0) by nia. nia.
Qed.

(** A round later the tag has changed. *)
Lemma phase_round n : phase_of qs (n + qs) = negb (phase_of qs n).
Proof.
  rw /phase_of. replace (n + qs) with (n + 1 * qs) by lia. rw Z_div_plus_full; [|lia].
  rw Z.add_1_r Z.even_succ -Z.negb_even //.
Qed.

(** Advancing by one, as the code does it. *)
Lemma ring_advance n :
  slot_of qs (n + 1) = (if slot_of qs n + 1 =? qs then 0 else slot_of qs n + 1) ∧
  phase_of qs (n + 1) = (if slot_of qs n + 1 =? qs then negb (phase_of qs n) else phase_of qs n).
Proof.
  pose proof (slot_range n) as Hr. pose proof (Z.div_mod n qs ltac:(lia)) as Hn. rw -/(slot_of qs n) in Hn.
  destruct (Z.eqb_spec (slot_of qs n + 1) qs) as [Hw|Hw].
  - assert (n + 1 = 0 + (n / qs + 1) * qs) as Hn1 by lia.
    assert ((n + 1) / qs = n / qs + 1) as Hd by (rw Hn1 Z_div_plus_full ?Zdiv_0_l; lia).
    split; [rw /slot_of Hn1 Z_mod_plus_full //|]. rw /phase_of Hd Z.add_1_r Z.even_succ -Z.negb_even //.
  - assert (n + 1 = (slot_of qs n + 1) + n / qs * qs) as Hn1 by lia.
    split; [rw {1}/slot_of Hn1 Z_mod_plus_full Z.mod_small //; lia|].
    rw /phase_of {1}Hn1 Z_div_plus_full; [|lia]. rw Zdiv_small //; lia.
Qed.

Lemma ring_ok_blank mem :
  Z.of_nat (length mem) = qs → Forall (λ a, tag a = false) mem → ring_ok [] mem.
Proof.
  intros Hl Ht. split; [done|done| |done]. intros i [_ Hi].
  destruct (lookup_lt_is_Some_2 mem i ltac:(lia)) as [a Ha]. exists a. split; [done|].
  by eapply Forall_lookup_1 in Ht.
Qed.

(** Posting writes the next slot, with the tag of the round. *)
Lemma ring_ok_post posted mem a :
  let n := Z.of_nat (length posted) in
  ring_ok posted mem → tag a = phase_of qs n →
  ring_ok (posted ++ [a]) (<[Z.to_nat (slot_of qs n) := a]> mem).
Proof.
  intros n [Hl Hp Hb Ht] Ha. pose proof (slot_range n) as Hs. split.
  - by rw length_insert.
  - intros j b Hj. rw length_app /=. intros Hn.
    apply lookup_app_Some in Hj as [Hj|[Hge Hj]].
    + pose proof (lookup_lt_Some _ _ _ Hj) as Hlt. rw list_lookup_insert_ne; [apply Hp; [done|lia]|].
      pose proof (slot_distinct n (Z.of_nat j) ltac:(lia)). pose proof (slot_range (Z.of_nat j)). lia.
    + assert (j = length posted) as -> by (apply list_lookup_singleton_Some in Hj as [? _]; lia).
      rw Nat.sub_diag in Hj. injection Hj as <-. apply list_lookup_insert_eq. lia.
  - intros i. rw length_app /=. intros Hi.
    rw list_lookup_insert_ne; [apply Hb; lia|]. rw /slot_of Z.mod_small; lia.
  - intros j b Hj. apply lookup_app_Some in Hj as [Hj|[Hge Hj]]; [by apply Ht|].
    assert (j = length posted) as -> by (apply list_lookup_singleton_Some in Hj as [? _]; lia).
    rw Nat.sub_diag in Hj. by injection Hj as <-.
Qed.

(** What a reader that has taken [k] entries sees in the next slot: the entry
    [k] when its tag is the reader's, and otherwise nothing has been posted. *)
Lemma ring_head posted mem k :
  ring_ok posted mem → 0 ≤ k ≤ Z.of_nat (length posted) ≤ k + qs →
  ∃ a, mem !! Z.to_nat (slot_of qs k) = Some a ∧
    if decide (k < Z.of_nat (length posted))
    then posted !! Z.to_nat k = Some a ∧ tag a = phase_of qs k
    else tag a = negb (phase_of qs k).
Proof.
  intros [Hl Hp Hb Ht] Hk. case_decide as Hlt.
  - destruct (lookup_lt_is_Some_2 posted (Z.to_nat k) ltac:(lia)) as [a Ha]. exists a.
    pose proof (Hp _ _ Ha ltac:(lia)) as Hm. pose proof (Ht _ _ Ha) as Hta.
    rw Z2Nat.id in Hm; [|lia]. rw Z2Nat.id in Hta; [|lia]. done.
  - destruct (decide (k < qs)) as [Hq|Hq].
    + destruct (Hb (Z.to_nat k) ltac:(lia)) as (a & Ha & Hta). exists a.
      rw /slot_of Z.mod_small; [|lia]. split; [done|]. rw Hta /phase_of Zdiv_small //; lia.
    + destruct (lookup_lt_is_Some_2 posted (Z.to_nat (k - qs)) ltac:(lia)) as [a Ha]. exists a.
      pose proof (Hp _ _ Ha ltac:(lia)) as Hm. pose proof (Ht _ _ Ha) as Hta.
      rw Z2Nat.id in Hm; [|lia]. rw Z2Nat.id in Hta; [|lia].
      assert (slot_of qs k = slot_of qs (k - qs)) as ->.
      { rw /slot_of. replace k with (k - qs + 1 * qs) at 1 by lia. apply Z_mod_plus_full. }
      split; [done|]. rw Hta. replace k with (k - qs + qs) at 2 by lia. by rw phase_round negb_involutive.
Qed.

(** A reader whose position [k] may be out of date: an entry with the tag it looks
    for was posted, in the slot of [k]. *)
Lemma ring_read posted mem k a :
  ring_ok posted mem → 0 ≤ k ≤ Z.of_nat (length posted) + qs - 1 →
  mem !! Z.to_nat (slot_of qs k) = Some a → tag a = phase_of qs k →
  ∃ j, posted !! j = Some a ∧ slot_of qs (Z.of_nat j) = slot_of qs k ∧ Z.of_nat (length posted) ≤ Z.of_nat j + qs.
Proof.
  intros [Hl Hp Hb Ht] Hk Ha Htag. set (P := Z.of_nat (length posted)) in *. pose proof (slot_range k) as Hs.
  destruct (Z.lt_ge_cases (slot_of qs k) P) as [Hlt|Hge].
  - (* the last entry posted to the slot *)
    set (j := P - 1 - (P - 1 - slot_of qs k) mod qs).
    pose proof (Z.mod_pos_bound (P - 1 - slot_of qs k) qs qs_pos) as Hm.
    pose proof (Z.mod_le (P - 1 - slot_of qs k) qs ltac:(lia) qs_pos) as Hm'.
    assert (slot_of qs j = slot_of qs k) as Hj.
    { rw /j {1}/slot_of Zminus_mod_idemp_r. replace (P - 1 - (P - 1 - slot_of qs k)) with (slot_of qs k) by lia.
      rw /slot_of Zmod_mod //. }
    destruct (lookup_lt_is_Some_2 posted (Z.to_nat j) ltac:(lia)) as [b Hbj]. exists (Z.to_nat j).
    assert (Z.of_nat (Z.to_nat j) = j) as Ej by lia. pose proof (Hp _ _ Hbj ltac:(lia)) as Hmem.
    rw Ej Hj Ha in Hmem. injection Hmem as <-. rw Ej. split; [done|]. split; [done|lia].
  - destruct (Hb (Z.to_nat (slot_of qs k)) ltac:(lia)) as (b & Hbk & Htb). rw Ha in Hbk. injection Hbk as <-.
    rw Htb /phase_of in Htag. exfalso. pose proof (Z.div_mod k qs ltac:(lia)) as Hd. rw -/(slot_of qs k) in Hd.
    assert (k / qs = 0) as E0 by nia. by rw E0 in Htag.
Qed.
End ring.

(** Positions less than a round apart are told apart by their slots. *)
Lemma slot_diff qs a b : 0 < qs → 0 ≤ a - b < qs → (slot_of qs a - slot_of qs b) mod qs = a - b.
Proof. intros Hq Hd. rw /slot_of -Zminus_mod Z.mod_small //. Qed.

Lemma slot_eq qs a b : 0 < qs → 0 ≤ a - b < qs → slot_of qs a = slot_of qs b ↔ a = b.
Proof.
  intros Hq Hd. split; [|by intros ->]. intros He. apply (slot_diff qs a b Hq) in Hd as Hs.
  rw He Z.sub_diag Zmod_0_l in Hs. lia.
Qed.

(** The step of an index as the code writes it. *)
Lemma slot_step qs n : 2 ≤ qs ≤ 2 ^ 16 →
  slot_of qs (n + 1) = (if u32 (slot_of qs n + 1) =? qs then 0 else u32 (slot_of qs n + 1)).
Proof.
  intros Hq. destruct (ring_advance qs ltac:(lia) n) as [-> _].
  pose proof (slot_range qs ltac:(lia) n). rw u32_id //. lia.
Qed.
Lemma slot_step16 qs n : 2 ≤ qs ≤ 2 ^ 16 →
  slot_of qs (n + 1) = (if u16 (slot_of qs n + 1) =? qs then 0 else u16 (slot_of qs n + 1)).
Proof.
  intros Hq. destruct (ring_advance qs ltac:(lia) n) as [-> _].
  pose proof (slot_range qs ltac:(lia) n) as Hr. rw /u16.
  destruct (Z.eq_dec (slot_of qs n + 1) (2 ^ 16)) as [E|E].
  - rw E. change (2 ^ 16 mod 2 ^ 16) with 0. destruct (Z.eqb_spec (2 ^ 16) qs); [|lia].
    destruct (Z.eqb_spec 0 qs); lia.
  - rw (Z.mod_small (slot_of qs n + 1)) //. lia.
Qed.
