(* ===== verification/UserQueue.v ===== *)
(** * The queues of the user library (nvm_queue.h, nvm_util.h, queue.cpp)

    A process drives its user queues through these descriptors: it takes slots of
    the submission queue, rings its doorbell, and polls the completion queue for
    entries of the current phase.  The descriptor is a record; a pointer to an
    entry is a byte address; a write to a doorbell register is returned as the
    value written, [None] when there is none. *)
From S2P Require Import Prelude PhaseRing.

(** ** Bit fields *)

Definition NVM_MASK (num_bits : Z) : Z := u64 (Z.shiftl 1 num_bits - 1).
Definition NVM_MASK_PART (hi lo : Z) : Z := u64 (NVM_MASK (hi + 1) - NVM_MASK lo).
Definition RB (v hi lo : Z) : Z := Z.shiftr (Z.land v (NVM_MASK_PART hi lo)) lo.
Definition WB (v hi lo : Z) : Z := Z.land (u64 (Z.shiftl v lo)) (NVM_MASK_PART hi lo).

(** ** Descriptors *)

Record nvm_queue := NvmQueue {
  q_head : Z;
  q_tail : Z;
  q_no : Z;
  q_es : Z;
  q_qs : Z;
  q_phase : Z;
  q_last : Z;
  q_db : option Z;
  q_vaddr : Z;
  q_ioaddr : Z;
}.
#[export] Instance eta_nvm_queue : Settable nvm_queue := λ x,
  NvmQueue (q_head x) (q_tail x) (q_no x) (q_es x) (q_qs x) (q_phase x) (q_last x) (q_db x)
    (q_vaddr x) (q_ioaddr x).

(** C's [!]. *)
Definition c_not (z : Z) : Z := if z =? 0 then 1 else 0.

(** Doorbell registers (regs.h); [dstrd] is the exponent of the stride. *)
Definition SQ_DBL (p y dstrd : Z) : Z := p + 0x1000 + (2 * y) * Z.shiftl 4 dstrd.
Definition CQ_DBL (p y dstrd : Z) : Z := p + 0x1000 + (2 * y + 1) * Z.shiftl 4 dstrd.

Definition SIZEOF_CMD : Z := 64.
Definition SIZEOF_CPL : Z := 16.

(** The error and the descriptor afterwards. *)
Definition nvm_queue_clear (queue : nvm_queue) (mm_ptr dstrd : Z) (cq : bool)
    (no qs vaddr ioaddr : Z) : Z * nvm_queue :=
  if (qs <? 2) || (0x10000 <? qs) then (EINVAL, queue) else
  (0, NvmQueue 0 0 no (if cq then SIZEOF_CPL else SIZEOF_CMD) qs 1 0
        (Some (if cq then CQ_DBL mm_ptr no dstrd else SQ_DBL mm_ptr no dstrd)) vaddr ioaddr).

Definition nvm_queue_reset (q : nvm_queue) : nvm_queue :=
  q<{q_head := 0}><{q_tail := 0}><{q_last := 0}><{q_phase := 1}>.

(** ** Submission *)

Definition nvm_sq_enqueue (sq : nvm_queue) : option Z * nvm_queue :=
  if u16 (u32 (q_tail sq - q_head sq)) mod q_qs sq =? u32 (q_qs sq - 1) then (None, sq) else
  let cmd := q_vaddr sq + q_es sq * q_tail sq in
  let tail := u32 (q_tail sq + 1) in
  (Some cmd,
   if tail =? q_qs sq then sq<{q_phase := c_not (q_phase sq)}><{q_tail := 0}>
   else sq<{q_tail := tail}>).

(** The slot of the [i]th of [n] threads; [last] is the pointer the thread got
    from its previous call. *)
Definition nvm_sq_enqueue_n (sq : nvm_queue) (last : option Z) (n i : Z) : option Z * nvm_queue :=
  let start := q_vaddr sq in
  let last_end := start + q_qs sq * q_es sq in
  if q_qs sq <=? n then (None, sq) else
  let cmd := match last with
             | None => start + q_es sq * i
             | Some last =>
               let cmd := last + n * q_es sq in
               if last_end <=? cmd then start + (cmd - last_end) else cmd
             end in
  (Some cmd, if i =? 0 then sq<{q_tail := u32 (q_tail sq + n) mod q_qs sq}> else sq).

Definition nvm_sq_submit (sq : nvm_queue) : option Z * nvm_queue :=
  if negb (q_last sq =? q_tail sq) && bool_decide (is_Some (q_db sq))
  then (Some (q_tail sq), sq<{q_last := q_tail sq}>)
  else (None, sq).

(** [sq->db != NULL && ++sq->head == sq->qs]. *)
Definition nvm_sq_update (sq : nvm_queue) : nvm_queue :=
  match q_db sq with
  | None => sq
  | Some _ =>
    let head := u32 (q_head sq + 1) in
    if head =? q_qs sq then sq<{q_head := 0}> else sq<{q_head := head}>
  end.

(** ** Completion *)

(** [status addr] is the 16-bit status field of the entry at [addr]. *)
Definition nvm_cq_poll (status : Z → Z) (cq : nvm_queue) : option Z :=
  let cpl := q_vaddr cq + q_es cq * q_head cq in
  if negb (c_not (RB (status cpl) 0 0) =? c_not (q_phase cq)) then None else Some cpl.

Definition nvm_cq_dequeue (status : Z → Z) (cq : nvm_queue) : option Z * nvm_queue :=
  match nvm_cq_poll status cq with
  | None => (None, cq)
  | Some cpl =>
    let head := u32 (q_head cq + 1) in
    (Some cpl,
     if head =? q_qs cq then cq<{q_head := 0}><{q_phase := c_not (q_phase cq)}>
     else cq<{q_head := head}>)
  end.

Definition nvm_cq_update (cq : nvm_queue) : option Z * nvm_queue :=
  if negb (q_last cq =? q_head cq) && bool_decide (is_Some (q_db cq))
  then (Some (q_head cq), cq<{q_tail := q_head cq}><{q_last := q_head cq}>)
  else (None, cq).

(** ** The submission queue is a bounded FIFO *)

Inductive sq_op := SqEnqueue | SqSubmit | SqUpdate.
Inductive sq_out := SqSlot (cmd : option Z) | SqBell (value : option Z) | SqDone.

Definition sq_step (sq : nvm_queue) (o : sq_op) : sq_out * nvm_queue :=
  match o with
  | SqEnqueue => let '(r, sq') := nvm_sq_enqueue sq in (SqSlot r, sq')
  | SqSubmit => let '(r, sq') := nvm_sq_submit sq in (SqBell r, sq')
  | SqUpdate => (SqDone, nvm_sq_update sq)
  end.
Fixpoint sq_run (sq : nvm_queue) (os : list sq_op) : list sq_out * nvm_queue :=
  match os with
  | [] => ([], sq)
  | o :: os => let '(r, sq) := sq_step sq o in let '(rs, sq) := sq_run sq os in (r :: rs, sq)
  end.

(** The specification counts commands: [f_done] are completed, [f_sent] have been
    announced to the controller and [f_next] is the next to be written.  At most
    [qs - 1] are in flight. *)
Record fifo := Fifo { f_done : Z; f_sent : Z; f_next : Z }.
#[export] Instance eta_fifo : Settable fifo := λ x, Fifo (f_done x) (f_sent x) (f_next x).

Definition fifo_step (vaddr es qs : Z) (f : fifo) (o : sq_op) : sq_out * fifo :=
  match o with
  | SqEnqueue =>
    if f_next f - f_done f =? qs - 1 then (SqSlot None, f)
    else (SqSlot (Some (vaddr + es * slot_of qs (f_next f))), f<{f_next := f_next f + 1}>)
  | SqSubmit =>
    (SqBell (if f_sent f =? f_next f then None else Some (slot_of qs (f_next f))),
     f<{f_sent := f_next f}>)
  | SqUpdate => (SqDone, f<{f_done := f_done f + 1}>)
  end.
Fixpoint fifo_run (vaddr es qs : Z) (f : fifo) (os : list sq_op) : list sq_out * fifo :=
  match os with
  | [] => ([], f)
  | o :: os =>
    let '(r, f) := fifo_step vaddr es qs f o in
    let '(rs, f) := fifo_run vaddr es qs f os in (r :: rs, f)
  end.

(** A caller updates the head once for each completion, and the controller
    completes only what was announced. *)
Fixpoint sq_legal (vaddr es qs : Z) (f : fifo) (os : list sq_op) : Prop :=
  match os with
  | [] => True
  | o :: os => (o = SqUpdate → f_done f < f_sent f) ∧ sq_legal vaddr es qs (fifo_step vaddr es qs f o).2 os
  end.

(** The descriptor of a queue with these counts.  The length divides 2^16 because
    the fullness test computes in 16 bits. *)
Record sq_repr (sq : nvm_queue) (f : fifo) : Prop := {
  sqr_size : 2 ≤ q_qs sq ≤ 2 ^ 16;
  sqr_pow : (q_qs sq | 2 ^ 16);
  sqr_db : is_Some (q_db sq);
  sqr_order : 0 ≤ f_done f ≤ f_sent f ∧ f_sent f ≤ f_next f ≤ f_done f + q_qs sq - 1;
  sqr_head : q_head sq = slot_of (q_qs sq) (f_done f);
  sqr_tail : q_tail sq = slot_of (q_qs sq) (f_next f);
  sqr_last : q_last sq = slot_of (q_qs sq) (f_sent f);
}.

Lemma mod16_qs qs x : 0 < qs → (qs | 2 ^ 16) → u16 (u32 x) mod qs = x mod qs.
Proof.
  intros Hq Hd. rw /u16 /u32 Z.mod_mod_divide // Z.mod_mod_divide //.
  eapply Z.divide_trans; [done|]. by exists (2 ^ 16).
Qed.

Lemma sq_step_refines sq f o :
  sq_repr sq f → (o = SqUpdate → f_done f < f_sent f) →
  (sq_step sq o).1 = (fifo_step (q_vaddr sq) (q_es sq) (q_qs sq) f o).1 ∧
  sq_repr (sq_step sq o).2 (fifo_step (q_vaddr sq) (q_es sq) (q_qs sq) f o).2 ∧
  q_vaddr (sq_step sq o).2 = q_vaddr sq ∧ q_es (sq_step sq o).2 = q_es sq ∧ q_qs (sq_step sq o).2 = q_qs sq.
Proof.
  intros [Hq Hp Hdb Ho Hh Ht Hl] Hlegal. destruct o; simpl.
  - rw /nvm_sq_enqueue mod16_qs //; [|lia]. rw Hh Ht slot_diff; [|lia|lia]. rw u32_id; [|lia].
    destruct (Z.eqb_spec (f_next f - f_done f) (q_qs sq - 1)); simpl; [by split_and!|].
    pose proof (slot_step (q_qs sq) (f_next f) Hq) as Hst. rw -Ht in Hst |- *.
    split; [done|]. destruct (u32 (q_tail sq + 1) =? q_qs sq); (split; [|done]); split; simpl; try done; lia.
  - rw /nvm_sq_submit bool_decide_eq_true_2 // andb_true_r Hl Ht.
    pose proof (slot_eq (q_qs sq) (f_next f) (f_sent f) ltac:(lia) ltac:(lia)) as He.
    destruct (Z.eqb_spec (f_sent f) (f_next f)) as [Hs|Hs].
    + rw Hs Z.eqb_refl /=. split; [done|]. split; [|done]. split; simpl; try done; [lia|congruence].
    + rw (proj2 (Z.eqb_neq _ _)) /=; [|naive_solver]. split; [done|]. split; [|done].
      split; simpl; try done. lia.
  - destruct Hdb as [db Hdb]. rw /nvm_sq_update Hdb. specialize (Hlegal eq_refl).
    pose proof (slot_step (q_qs sq) (f_done f) Hq) as Hst. rw -Hh in Hst. split; [done|].
    destruct (u32 (q_head sq + 1) =? q_qs sq); (split; [|done]); split; simpl; try done; lia.
Qed.

Lemma sq_run_refines os : ∀ sq f,
  sq_repr sq f → sq_legal (q_vaddr sq) (q_es sq) (q_qs sq) f os →
  (sq_run sq os).1 = (fifo_run (q_vaddr sq) (q_es sq) (q_qs sq) f os).1 ∧
  sq_repr (sq_run sq os).2 (fifo_run (q_vaddr sq) (q_es sq) (q_qs sq) f os).2.
Proof.
  induction os as [|o os IH]; intros sq f Hr; simpl; [done|]. intros [Ho Hl].
  destruct (sq_step_refines sq f o Hr Ho) as (He & Hr' & Hv & Hs & Hq).
  destruct (sq_step sq o) as [r sq']. destruct (fifo_step _ _ _ f o) as [r' f']. simpl in *. subst r'.
  rw -Hv -Hs -Hq in Hl |- *. destruct (IH sq' f' Hr' Hl) as [He' Hr''].
  destruct (sq_run sq' os). destruct (fifo_run _ _ _ f' os). simpl in *. by subst.
Qed.

Lemma sq_repr_clear q mm_ptr dstrd no qs vaddr ioaddr q' :
  nvm_queue_clear q mm_ptr dstrd false no qs vaddr ioaddr = (0, q') → (qs | 2 ^ 16) →
  sq_repr q' (Fifo 0 0 0).
Proof.
  rw /nvm_queue_clear. destruct (_ || _) eqn:Eb; [done|]. intros [= <-] Hd.
  apply orb_false_iff in Eb as [?%Z.ltb_ge ?%Z.ltb_ge]. split; simpl; try done; lia.
Qed.

(** ** The completion queue delivers what was posted, in order *)

(** An entry: its first three words, and the halves of the last one. *)
Record nvm_cpl := NvmCpl { cpl_dw0 : Z; cpl_dw1 : Z; cpl_dw2 : Z; cpl_cid : Z; cpl_status : Z }.
Definition cpl_tag (c : nvm_cpl) : bool := Z.testbit (cpl_status c) 0.

(** The queue memory, one entry every 16 bytes. *)
Definition mem_entry (vaddr : Z) (mem : list nvm_cpl) (addr : Z) : option nvm_cpl :=
  mem !! Z.to_nat ((addr - vaddr) / SIZEOF_CPL).
Definition mem_status (vaddr : Z) (mem : list nvm_cpl) (addr : Z) : Z :=
  from_option cpl_status 0 (mem_entry vaddr mem addr).

(** A process and a controller around one completion queue.  The controller has
    its own tail and phase, and knows the head that was last written to the
    doorbell; [w_posted] and [w_taken] are the entries posted and dequeued. *)
Record cq_world := CqWorld {
  w_cq : nvm_queue;
  w_mem : list nvm_cpl;
  w_tail : Z;
  w_phase : bool;
  w_head : Z;
  w_posted : list nvm_cpl;
  w_taken : list nvm_cpl;
}.

Definition w_qs (w : cq_world) : Z := q_qs (w_cq w).

(** The controller posts an entry with its phase while the queue is not full; the
    process dequeues and rings the doorbell. *)
Inductive cq_step : cq_world → cq_world → Prop :=
| cq_post c w :
    cpl_tag c = w_phase w → (w_tail w + 1) mod w_qs w ≠ w_head w →
    cq_step w (CqWorld (w_cq w) (<[Z.to_nat (w_tail w) := c]> (w_mem w))
      (if w_tail w + 1 =? w_qs w then 0 else w_tail w + 1)
      (if w_tail w + 1 =? w_qs w then negb (w_phase w) else w_phase w)
      (w_head w) (w_posted w ++ [c]) (w_taken w))
| cq_take w addr cq' c :
    nvm_cq_dequeue (mem_status (q_vaddr (w_cq w)) (w_mem w)) (w_cq w) = (Some addr, cq') →
    mem_entry (q_vaddr (w_cq w)) (w_mem w) addr = Some c →
    cq_step w (CqWorld cq' (w_mem w) (w_tail w) (w_phase w) (w_head w) (w_posted w) (w_taken w ++ [c]))
| cq_bell w v cq' :
    nvm_cq_update (w_cq w) = (Some v, cq') →
    cq_step w (CqWorld cq' (w_mem w) (w_tail w) (w_phase w) v (w_posted w) (w_taken w)).

(** A cleared descriptor over cleared memory. *)
Definition cq_start (q : nvm_queue) (mem : list nvm_cpl) : cq_world := CqWorld q mem 0 true 0 [] [].

(** [r] entries have been given back through the doorbell. *)
Record cq_inv (w : cq_world) (r : Z) : Prop := {
  cqi_size : 2 ≤ w_qs w ≤ 2 ^ 16;
  cqi_es : q_es (w_cq w) = SIZEOF_CPL;
  cqi_db : is_Some (q_db (w_cq w));
  cqi_order : 0 ≤ r ≤ Z.of_nat (length (w_taken w)) ∧
    Z.of_nat (length (w_taken w)) ≤ Z.of_nat (length (w_posted w)) ≤ r + w_qs w - 1;
  cqi_prefix : w_taken w = take (length (w_taken w)) (w_posted w);
  cqi_ring : ring_ok cpl_tag (w_qs w) (w_posted w) (w_mem w);
  cqi_head : q_head (w_cq w) = slot_of (w_qs w) (Z.of_nat (length (w_taken w)));
  cqi_phase : q_phase (w_cq w) = c_bool (phase_of (w_qs w) (Z.of_nat (length (w_taken w))));
  cqi_last : q_last (w_cq w) = slot_of (w_qs w) r;
  cqi_bell : w_head w = slot_of (w_qs w) r;
  cqi_tail : w_tail w = slot_of (w_qs w) (Z.of_nat (length (w_posted w)));
  cqi_tag : w_phase w = phase_of (w_qs w) (Z.of_nat (length (w_posted w)));
}.

Lemma RB_0 v : RB v 0 0 = c_bool (Z.testbit v 0).
Proof.
  rw /RB Z.shiftr_0_r. change (NVM_MASK_PART 0 0) with (Z.ones 1). rw Z.land_ones // Z.pow_1_r.
  rw Z.bit0_odd Zmod_odd. by destruct (Z.odd v).
Qed.

(** The address of a slot and back. *)
Lemma entry_at vaddr mem i :
  0 ≤ i → mem_entry vaddr mem (vaddr + SIZEOF_CPL * i) = mem !! Z.to_nat i.
Proof.
  intros Hi. rw /mem_entry /SIZEOF_CPL. f_equal. replace (vaddr + 16 * i - vaddr) with (i * 16) by lia.
  by rw Z_div_mult.
Qed.

(** What polling sees: the next entry exactly when there is one. *)
Lemma cq_poll_spec w r :
  cq_inv w r →
  let k := length (w_taken w) in
  let addr := q_vaddr (w_cq w) + SIZEOF_CPL * q_head (w_cq w) in
  match w_posted w !! k with
  | Some c => nvm_cq_poll (mem_status (q_vaddr (w_cq w)) (w_mem w)) (w_cq w) = Some addr ∧
      mem_entry (q_vaddr (w_cq w)) (w_mem w) addr = Some c
  | None => nvm_cq_poll (mem_status (q_vaddr (w_cq w)) (w_mem w)) (w_cq w) = None
  end.
Proof.
  intros [Hq Hes Hdb Ho Hpre Hring Hh Hp Hl Hb Ht Htag] k addr.
  pose proof (slot_range (w_qs w) ltac:(lia) (Z.of_nat k)) as Hs. rw -Hh in Hs.
  destruct (ring_head cpl_tag (w_qs w) ltac:(lia) _ _ (Z.of_nat k) Hring ltac:(lia)) as (a & Ha & Hcase).
  rw -Hh in Ha. rw -(entry_at (q_vaddr (w_cq w))) in Ha; [|lia].
  assert (nvm_cq_poll (mem_status (q_vaddr (w_cq w)) (w_mem w)) (w_cq w) =
    if bool_decide (cpl_tag a = phase_of (w_qs w) (Z.of_nat k)) then Some addr else None) as ->.
  { rw /nvm_cq_poll Hes /mem_status Ha /= RB_0 Hp -/(cpl_tag a). fold k addr.
    by destruct (cpl_tag a), (phase_of _ _). }
  case_decide as Hlt.
  - destruct Hcase as [Hk Htg]. rw Nat2Z.id in Hk. rw Hk bool_decide_eq_true_2 //.
  - rw (lookup_ge_None_2 _ k); [|lia]. rw bool_decide_eq_false_2 // Hcase. by destruct (phase_of _ _).
Qed.

Lemma cq_inv_start q mem mm_ptr dstrd no qs vaddr ioaddr q' :
  nvm_queue_clear q mm_ptr dstrd true no qs vaddr ioaddr = (0, q') →
  Z.of_nat (length mem) = qs → Forall (λ c, cpl_tag c = false) mem → cq_inv (cq_start q' mem) 0.
Proof.
  rw /nvm_queue_clear. destruct (_ || _) eqn:Eb; [done|]. intros [= <-] Hl Hm.
  apply orb_false_iff in Eb as [?%Z.ltb_ge ?%Z.ltb_ge].
  split; rw /w_qs /=; try done; [lia|by apply ring_ok_blank].
Qed.

(** Posting one more: the doorbell guard leaves a slot free. *)
Lemma cq_inv_post w r c :
  cq_inv w r → cpl_tag c = w_phase w → (w_tail w + 1) mod w_qs w ≠ w_head w →
  cq_inv (CqWorld (w_cq w) (<[Z.to_nat (w_tail w) := c]> (w_mem w))
    (if w_tail w + 1 =? w_qs w then 0 else w_tail w + 1)
    (if w_tail w + 1 =? w_qs w then negb (w_phase w) else w_phase w)
    (w_head w) (w_posted w ++ [c]) (w_taken w)) r.
Proof.
  intros [Hq Hes Hdb Ho Hpre Hring Hh Hp Hl Hb Ht Htag] Hc Hfull.
  set (n := Z.of_nat (length (w_posted w))) in *. rw /w_qs in Hfull Hq Ho Hring Hh Hp Hl Hb Ht Htag.
  assert (n ≠ r + q_qs (w_cq w) - 1) as Hn.
  { intros En. apply Hfull. rw Hb Ht En /slot_of Zplus_mod_idemp_l.
    replace (r + q_qs (w_cq w) - 1 + 1) with (r + 1 * q_qs (w_cq w)) by lia. by rw Z_mod_plus_full. }
  destruct (ring_advance (q_qs (w_cq w)) ltac:(lia) n) as [Es Ep]. rw -Ht in Es Ep. rw -Htag in Ep.
  assert (Z.of_nat (length (w_posted w ++ [c])) = n + 1) as Hlen by (rw length_app /=; lia).
  split; rw /w_qs /= ?Hlen; try done; [lia| |by rw Ht; apply ring_ok_post; [lia|done|rw -Htag]].
  rw take_app_le //. lia.
Qed.

Lemma cq_inv_take w r addr cq' c :
  cq_inv w r →
  nvm_cq_dequeue (mem_status (q_vaddr (w_cq w)) (w_mem w)) (w_cq w) = (Some addr, cq') →
  mem_entry (q_vaddr (w_cq w)) (w_mem w) addr = Some c →
  cq_inv (CqWorld cq' (w_mem w) (w_tail w) (w_phase w) (w_head w) (w_posted w) (w_taken w ++ [c])) r.
Proof.
  intros Hw Hd Hc. pose proof (cq_poll_spec w r Hw) as Hpoll.
  destruct Hw as [Hq Hes Hdb Ho Hpre Hring Hh Hp Hl Hb Ht Htag]. simpl in Hpoll. rw /nvm_cq_dequeue in Hd.
  destruct (w_posted w !! length (w_taken w)) as [c'|] eqn:Ek; [|by rw Hpoll in Hd].
  destruct Hpoll as [Hpoll Hc']. rw Hpoll in Hd. injection Hd as <- <-. simplify_eq.
  pose proof (lookup_lt_Some _ _ _ Ek) as Hlt. set (k := length (w_taken w)) in *.
  rw /w_qs in Hq Ho Hring Hh Hp Hl Hb Ht Htag |- *.
  destruct (ring_advance (q_qs (w_cq w)) ltac:(lia) (Z.of_nat k)) as [_ Ep].
  pose proof (slot_step (q_qs (w_cq w)) (Z.of_nat k) Hq) as Es. rw -Hh in Es Ep.
  pose proof (slot_range (q_qs (w_cq w)) ltac:(lia) (Z.of_nat k)) as Hs. rw -Hh in Hs.
  assert (Z.of_nat (length (w_taken w ++ [c])) = Z.of_nat k + 1) as Hlen by (rw length_app /=; lia).
  assert (take (length (w_taken w ++ [c])) (w_posted w) = w_taken w ++ [c]) as Htk.
  { rw length_app /= Nat.add_1_r (take_S_r _ _ c) // -Hpre //. }
  rw u32_id in Es; [|lia]. rw u32_id; [|lia].
  destruct (Z.eqb_spec (q_head (w_cq w) + 1) (q_qs (w_cq w))); split; rw /w_qs /= ?Hlen ?Htk; try done; try lia.
  - rw Ep Hp. by destruct (phase_of _ _).
  - by rw Ep Hp.
Qed.

Lemma cq_inv_bell w r v cq' :
  cq_inv w r → nvm_cq_update (w_cq w) = (Some v, cq') →
  cq_inv (CqWorld cq' (w_mem w) (w_tail w) (w_phase w) v (w_posted w) (w_taken w))
    (Z.of_nat (length (w_taken w))).
Proof.
  intros [Hq Hes Hdb Ho Hpre Hring Hh Hp Hl Hb Ht Htag]. rw /nvm_cq_update.
  destruct (_ && _); [|done]. intros [= <- <-]. rw /w_qs in Ho.
  split; rw /w_qs /=; try done; lia.
Qed.

Lemma cq_inv_reachable w w' r : cq_inv w r → rtc cq_step w w' → ∃ r', cq_inv w' r'.
Proof.
  intros Hw Hst. revert r Hw. induction Hst as [w|w w1 w' Hst _ IH]; intros r Hw; [by exists r|].
  destruct Hst; eapply IH; [by apply cq_inv_post|by eapply cq_inv_take|by eapply cq_inv_bell].
Qed.
