(* ===== verification/UserWait.v ===== *)
(** * Waiting for a completion (queue.cpp, lib_util.h)

    [nvm_cq_dequeue_block] polls the completion queue every millisecond until an
    entry is there or the time is over.  The memory of the queue at each poll is an
    argument. *)
From S2P Require Import Prelude PhaseRing UserQueue.

Definition _nvm_delay_remain (remaining_nanoseconds : Z) : Z :=
  if remaining_nanoseconds =? 0 then 0 else remaining_nanoseconds - Z.min 1000000 remaining_nanoseconds.

Fixpoint block_loop (fuel i : nat) (status : nat → Z → Z) (nsecs : Z) (cq : nvm_queue) : option (option Z * nvm_queue) :=
  match nvm_cq_dequeue (status i) cq with
  | (Some cpl, cq) => Some (Some cpl, cq)
  | (None, cq) =>
    if 0 <? nsecs then
      match fuel with O => None | S fuel => block_loop fuel (S i) status (_nvm_delay_remain nsecs) cq end
    else Some (None, cq)
  end.
Definition nvm_cq_dequeue_block (fuel : nat) (status : nat → Z → Z) (cq : nvm_queue) (timeout : Z) : option (option Z * nvm_queue) :=
  block_loop fuel 0 status (u64 (timeout * 1000000)) cq.

Lemma block_loop_first status cq : ∀ n i,
  ∃ r cq', block_loop n i status (Z.of_nat n * 1000000) cq = Some (r, cq') ∧
    match r with
    | None => cq' = cq ∧ ∀ j, (i ≤ j ≤ i + n)%nat → nvm_cq_poll (status j) cq = None
    | Some c => ∃ k, (i ≤ k ≤ i + n)%nat ∧ nvm_cq_dequeue (status k) cq = (Some c, cq') ∧
        ∀ j, (i ≤ j < k)%nat → nvm_cq_poll (status j) cq = None
    end.
Proof.
  assert (∀ i, nvm_cq_dequeue (status i) cq = (None, cq) ∧ nvm_cq_poll (status i) cq = None ∨
    ∃ c cq', nvm_cq_dequeue (status i) cq = (Some c, cq')) as Hd.
  { intros i. rw /nvm_cq_dequeue. destruct (nvm_cq_poll _ _); [right; eauto|by left]. }
  induction n as [|n IH]; intros i; cbn [block_loop]; destruct (Hd i) as [[-> Hp]|(c & cq' & E)].
  - exists None, cq. split; [done|]. split; [done|]. intros j Hj. by assert (j = i) as -> by lia.
  - rw E. exists (Some c), cq'. split; [done|]. exists i. split_and!; [lia..|done|lia].
  - rw (proj2 (Z.ltb_lt _ _)); [|lia]. assert (_nvm_delay_remain (Z.of_nat (S n) * 1000000) = Z.of_nat n * 1000000) as ->.
    { rw /_nvm_delay_remain (proj2 (Z.eqb_neq _ _)); lia. }
    destruct (IH (S i)) as (r & cq' & E & Hr). exists r, cq'. split; [done|]. destruct r as [c|].
    + destruct Hr as (k & Hk & Hk' & Hj). exists k. split_and!; [lia..|done|]. intros j Hj'. destruct (decide (j = i)) as [->|]; [done|]. apply Hj. lia.
    + destruct Hr as [-> Hj]. split; [done|]. intros j Hj'. destruct (decide (j = i)) as [->|]; [done|]. apply Hj. lia.
  - rw E. exists (Some c), cq'. split; [done|]. exists i. split_and!; [lia..|done|lia].
Qed.

(** It returns after at most [timeout] delays, with the first entry there is. *)
Lemma dequeue_block_returns status cq timeout :
  0 ≤ timeout → timeout * 1000000 < 2 ^ 64 →
  ∃ r cq', nvm_cq_dequeue_block (Z.to_nat timeout) status cq timeout = Some (r, cq') ∧
    match r with
    | None => cq' = cq ∧ ∀ j, Z.of_nat j ≤ timeout → nvm_cq_poll (status j) cq = None
    | Some c => ∃ k, Z.of_nat k ≤ timeout ∧ nvm_cq_dequeue (status k) cq = (Some c, cq') ∧
        ∀ j, (j < k)%nat → nvm_cq_poll (status j) cq = None
    end.
Proof.
  intros H0 H1. rw /nvm_cq_dequeue_block /u64 Z.mod_small; [|lia].
  destruct (block_loop_first status cq (Z.to_nat timeout) 0) as (r & cq' & E & Hr). rw Z2Nat.id // in E. exists r, cq'. split; [done|].
  destruct r as [c|].
  - destruct Hr as (k & Hk & Hk' & Hj). exists k. split_and!; [lia|done|]. intros j ?. apply Hj. lia.
  - destruct Hr as [-> Hj]. split; [done|]. intros j ?. apply Hj. lia.
Qed.
