(* ===== verification/UserCmd.v ===== *)
(** * Commands and PRP lists of the user library (nvm_cmd.h)

    A command is its sixteen 32-bit words.  A PRP list is the bus address of its
    page and the page's 64-bit entries; reading or writing outside an array is
    [None]. *)
From S2P Require Import Prelude UserQueue.

(** [NVM_CMD_OPCODE]. *)
Definition NVM_CMD_OPCODE (gen fun_ data : Z) : Z :=
  Z.lor (Z.lor (WB gen 7 7) (WB fun_ 6 2)) (WB data 1 0).
Definition NVM_IO_WRITE : Z := NVM_CMD_OPCODE 0 0 1.
Definition NVM_IO_READ : Z := NVM_CMD_OPCODE 0 0 2.

(** ** The fields of a command *)

Abbreviation nvm_cmd := (list Z).
Definition dword (cmd : nvm_cmd) (i : nat) : Z := default 0 (cmd !! i).

Definition nvm_cmd_header (cmd : nvm_cmd) (cid opcode ns_id : Z) : nvm_cmd :=
  <[1%nat := ns_id]> (<[0%nat := Z.lor (Z.shiftl cid 16) (Z.land opcode 0x7f)]> cmd).

Definition nvm_cmd_data_ptr (cmd : nvm_cmd) (prp1 prp2 : Z) : nvm_cmd :=
  let cmd := <[0%nat := Z.land (dword cmd 0) (u32 (Z.lnot (Z.lor (Z.shiftl 3 14) (Z.shiftl 3 8))))]> cmd in
  let cmd := <[6%nat := u32 prp1]> cmd in
  let cmd := <[7%nat := u32 (Z.shiftr prp1 32)]> cmd in
  let cmd := <[8%nat := u32 prp2]> cmd in
  <[9%nat := u32 (Z.shiftr prp2 32)]> cmd.

Definition nvm_cmd_rw_blks (cmd : nvm_cmd) (start_lba n_blks : Z) : nvm_cmd :=
  let cmd := <[10%nat := u32 start_lba]> cmd in
  let cmd := <[11%nat := u32 (Z.shiftr start_lba 32)]> cmd in
  <[12%nat := Z.lor (Z.land (dword cmd 12) 0xffff0000) (Z.land (n_blks - 1) 0xffff)]> cmd.

(** ** PRP lists *)

Record prp_list := PrpList { pl_ioaddr : Z; pl_entries : list Z }.

(** The number of entries used and the list afterwards.  The test for no pages, here
    and in [nvm_cmd_data], is compiled for the host only; a call without pages on an
    accelerator is not modelled. *)
Definition nvm_prp_list (l : prp_list) (n_pages : nat) (ioaddrs : list Z) : option (nat * prp_list) :=
  let cap := length (pl_entries l) in
  match n_pages with
  | O => Some (O, l)
  | _ =>
    let n_prps := if (cap <? n_pages)%nat then (cap - 1)%nat else n_pages in
    if (cap =? 0)%nat || (length ioaddrs <? n_prps)%nat then None else
    Some (n_prps, PrpList (pl_ioaddr l) (take n_prps ioaddrs ++ drop n_prps (pl_entries l)))
  end.

(** The loop: [prev] is the list filled last, with [used] entries; [n_pages] and
    [ioaddrs] are what is left.  It returns how many more entries were used and
    the lists from [prev] on. *)
Fixpoint chain_loop (prev : prp_list) (used : nat) (lists : list prp_list) (n_pages : nat)
    (ioaddrs : list Z) : option (nat * list prp_list) :=
  match lists with
  | [] => Some (O, [prev])
  | l :: lists =>
    if (n_pages =? 0)%nat then Some (O, prev :: l :: lists) else
    if (length (pl_entries prev) <=? used)%nat then None else
    let prev' := PrpList (pl_ioaddr prev) (<[used := pl_ioaddr l]> (pl_entries prev)) in
    '(n, l') ← nvm_prp_list l n_pages ioaddrs;
    '(m, ls) ← chain_loop l' n lists (n_pages - n) (drop n ioaddrs);
    Some ((n + m)%nat, prev' :: ls)
  end.

Definition nvm_prp_list_chain (lists : list prp_list) (n_pages : nat) (ioaddrs : list Z) :
    option (nat * list prp_list) :=
  match lists with
  | [] => Some (O, [])
  | l :: lists =>
    '(n, l') ← nvm_prp_list l n_pages ioaddrs;
    '(m, ls) ← chain_loop l' n lists (n_pages - n) (drop n ioaddrs);
    Some ((n + m)%nat, ls)
  end.

(** The number of pages covered, the command and the lists. *)
Definition nvm_cmd_data (cmd : nvm_cmd) (lists : list prp_list) (n_pages : nat) (ioaddrs : list Z) :
    option (nat * nvm_cmd * list prp_list) :=
  match n_pages with
  | O => Some (O, cmd, lists)
  | _ =>
    dptr0 ← ioaddrs !! 0%nat;
    if (2 <? n_pages)%nat && negb (length lists =? 0)%nat then
      '(n, lists') ← nvm_prp_list_chain lists (n_pages - 1) (drop 1 ioaddrs);
      l ← head lists;
      Some (S n, nvm_cmd_data_ptr cmd dptr0 (pl_ioaddr l), lists')
    else if (2 <=? n_pages)%nat then
      dptr1 ← ioaddrs !! 1%nat;
      Some (2%nat, nvm_cmd_data_ptr cmd dptr0 dptr1, lists)
    else Some (1%nat, nvm_cmd_data_ptr cmd dptr0 0, lists)
  end.

(** ** How a controller reads them (NVMe 1.4, 4.3) *)

(** The pages of the PRP list at bus address [a]: a list page has [cap] entries,
    and the last one points to the next page when more than [cap] are left. *)
Fixpoint read_list (fuel cap : nat) (lists : list prp_list) (a : Z) (n : nat) : option (list Z) :=
  match fuel with
  | O => None
  | S fuel =>
    '(_, l) ← list_find (λ l, pl_ioaddr l = a) lists;
    if (n <=? cap)%nat then Some (take n (pl_entries l)) else
    next ← pl_entries l !! (cap - 1)%nat;
    rest ← read_list fuel cap lists next (n - (cap - 1));
    Some (take (cap - 1) (pl_entries l) ++ rest)
  end.

Definition cmd_prp1 (cmd : nvm_cmd) : Z := dword cmd 6 + 2 ^ 32 * dword cmd 7.
Definition cmd_prp2 (cmd : nvm_cmd) : Z := dword cmd 8 + 2 ^ 32 * dword cmd 9.

(** The pages of a transfer of [n] pages. *)
Definition read_pages (cap : nat) (lists : list prp_list) (cmd : nvm_cmd) (n : nat) : option (list Z) :=
  match n with
  | O => Some []
  | 1%nat => Some [cmd_prp1 cmd]
  | 2%nat => Some [cmd_prp1 cmd; cmd_prp2 cmd]
  | S n => cons (cmd_prp1 cmd) <$> read_list (length lists) cap lists (cmd_prp2 cmd) n
  end.

(** ** Lists read back *)

Lemma nvm_prp_list_spec l n ioaddrs :
  (0 < length (pl_entries l))%nat → (n ≤ length ioaddrs)%nat →
  let k := if (length (pl_entries l) <? n)%nat then (length (pl_entries l) - 1)%nat else n in
  nvm_prp_list l n ioaddrs = Some (k, PrpList (pl_ioaddr l) (take k ioaddrs ++ drop k (pl_entries l))).
Proof.
  intros Hc Hn k. rw /nvm_prp_list. destruct n as [|n].
  - rw /k /=. by destruct l.
  - rw (proj2 (Nat.eqb_neq (length (pl_entries l)) 0)); [|lia]. cbn [orb]. fold k.
    rw (proj2 (Nat.ltb_ge (length ioaddrs) k)); [done|]. rw /k. destruct (Nat.ltb_spec (length (pl_entries l)) (S n)); lia.
Qed.

(** The chain, one list at a time. *)
Lemma nvm_prp_list_chain_cons l l2 lists n ioaddrs :
  nvm_prp_list_chain (l :: l2 :: lists) n ioaddrs =
  '(k, l') ← nvm_prp_list l n ioaddrs;
  if (n - k =? 0)%nat then Some (k, l' :: l2 :: lists) else
  if (length (pl_entries l') <=? k)%nat then None else
  '(m, ls) ← nvm_prp_list_chain (l2 :: lists) (n - k) (drop k ioaddrs);
  Some ((k + m)%nat, PrpList (pl_ioaddr l') (<[k := pl_ioaddr l2]> (pl_entries l')) :: ls).
Proof.
  rw /nvm_prp_list_chain. destruct (nvm_prp_list l n ioaddrs) as [[k l']|]; simpl; [|done].
  destruct (n - k =? 0)%nat; simpl; [by rw Nat.add_0_r|].
  destruct (length (pl_entries l') <=? k)%nat; simpl; [done|].
  destruct (nvm_prp_list l2 (n - k) (drop k ioaddrs)) as [[k2 l2']|]; simpl; [|done].
  by destruct (chain_loop l2' k2 lists (n - k - k2) (drop k2 (drop k ioaddrs))) as [[m ls]|].
Qed.

Lemma find_list mem l :
  NoDup (pl_ioaddr <$> mem) → l ∈ mem →
  ∃ i, list_find (λ l', pl_ioaddr l' = pl_ioaddr l) mem = Some (i, l).
Proof.
  intros Hnd [i Hi]%list_elem_of_lookup. exists i. apply list_find_Some. split; [done|]. split; [done|].
  intros j l' Hj Hlt He. assert (j = i); [|lia].
  eapply NoDup_lookup; [exact Hnd|by rw list_lookup_fmap Hj /= He|by rw list_lookup_fmap Hi].
Qed.

Lemma read_list_S fuel cap mem a n :
  read_list (S fuel) cap mem a n =
  '(_, l) ← list_find (λ l, pl_ioaddr l = a) mem;
  if (n <=? cap)%nat then Some (take n (pl_entries l)) else
  next ← pl_entries l !! (cap - 1)%nat;
  rest ← read_list fuel cap mem next (n - (cap - 1));
  Some (take (cap - 1) (pl_entries l) ++ rest).
Proof. done. Qed.

(** When a chain has room for all pages, a controller that follows it from its
    first list reads exactly the pages given. *)
Lemma chain_read cap mem lists : ∀ n ioaddrs l0 ls,
  (0 < cap)%nat → head lists = Some l0 → Forall (λ l, length (pl_entries l) = cap) lists →
  (n ≤ length ioaddrs)%nat → NoDup (pl_ioaddr <$> mem) → (0 < n)%nat →
  nvm_prp_list_chain lists n ioaddrs = Some (n, ls) → (∀ l, l ∈ ls → l ∈ mem) →
  read_list (length lists) cap mem (pl_ioaddr l0) n = Some (take n ioaddrs).
Proof.
  induction lists as [|l [|l2 lists] IH]; intros n ioaddrs l0 ls Hcap Hl0 Hlen Hn Hnd Hpos Hch Hin; [done|..];
    injection Hl0 as ->; apply Forall_cons in Hlen as [Hl0 Hlen].
  - rw /nvm_prp_list_chain nvm_prp_list_spec /= in Hch; [|lia|done]. rw Hl0 Nat.add_0_r in Hch.
    destruct (Nat.ltb_spec cap n); [injection Hch; lia|injection Hch as Hls].
    destruct (find_list mem (PrpList (pl_ioaddr l0) (take n ioaddrs ++ drop n (pl_entries l0)))) as [i Hf];
      [done|apply Hin; rw -Hls; set_solver|].
    simpl in Hf |- *. rw Hf /= (proj2 (Nat.leb_le n cap)) //. f_equal. rw take_app_le; [|rw length_take; lia].
    by rw take_take Nat.min_id.
  - rw nvm_prp_list_chain_cons nvm_prp_list_spec in Hch; [|lia|done]. rw Hl0 in Hch.
    set (k := if (cap <? n)%nat then (cap - 1)%nat else n) in Hch.
    cbn [mbind option_bind pl_entries pl_ioaddr] in Hch. set (e := take k ioaddrs ++ drop k (pl_entries l0)) in Hch.
    assert (length (take k ioaddrs) = k) as Hlk.
    { rw length_take /k. destruct (Nat.ltb_spec cap n); lia. }
    assert (length e = cap) as Hle.
    { rw /e length_app Hlk length_drop Hl0 /k. destruct (Nat.ltb_spec cap n); lia. }
    destruct (Nat.eqb_spec (n - k) 0) as [E0|E0].
    + assert (k = n) as Ek by (rw /k in E0 |- *; destruct (Nat.ltb_spec cap n); lia). injection Hch as _ Hls.
      destruct (find_list mem (PrpList (pl_ioaddr l0) e)) as [i Hf]; [done|apply Hin; rw -Hls; set_solver|].
      simpl in Hf |- *. rw Hf /= (proj2 (Nat.leb_le n cap)); [|rw /k in Ek; destruct (Nat.ltb_spec cap n); lia].
      f_equal. rw /e Ek take_app_le; [|rw -Ek; lia]. by rw take_take Nat.min_id.
    + assert (k = (cap - 1)%nat ∧ (cap < n)%nat) as [Ek Hlt]
        by (rw /k in E0 |- *; destruct (Nat.ltb_spec cap n); lia).
      rw Hle (proj2 (Nat.leb_gt cap k)) in Hch; [|lia].
      destruct (nvm_prp_list_chain (l2 :: lists) (n - k) (drop k ioaddrs)) as [[m ls2]|] eqn:Hch2; [|done].
      cbn [mbind option_bind] in Hch. injection Hch as Hm Hls.
      destruct (find_list mem (PrpList (pl_ioaddr l0) (<[k:=pl_ioaddr l2]> e))) as [i Hf];
        [done|apply Hin; rw -Hls; set_solver|].
      assert (read_list (length (l2 :: lists)) cap mem (pl_ioaddr l2) (n - k) = Some (take (n - k) (drop k ioaddrs))) as Hrd.
      { eapply IH; [done|done|done|rw length_drop; lia|done|lia| |].
        - rw Hch2. do 2 f_equal. lia.
        - intros l' Hl'. apply Hin. rw -Hls. set_solver. }
      change (length (l0 :: l2 :: lists)) with (S (length (l2 :: lists))). rw read_list_S.
      simpl in Hf. rw Hf. cbn [mbind option_bind]. rw (proj2 (Nat.leb_gt n cap)); [|done].
      cbn [pl_entries]. rw -Ek list_lookup_insert_eq; [|lia]. cbn [mbind option_bind]. rw Hrd.
      cbn [mbind option_bind]. f_equal.
      rw take_insert_ge; [|lia]. rw /e take_app_le; [|lia]. rw take_take Nat.min_id.
      rw take_drop_commute -{1}(take_drop k (take n ioaddrs)) take_take. f_equal; [f_equal; lia|].
      do 2 f_equal. lia.
Qed.

(** How many pages a chain of lists has room for: each list but the last gives
    one entry to the pointer. *)
Lemma chain_total cap lists : ∀ n ioaddrs,
  (0 < cap)%nat → lists ≠ [] → Forall (λ l, length (pl_entries l) = cap) lists → (n ≤ length ioaddrs)%nat →
  let room := (length lists * (cap - 1))%nat in
  ∃ ls, nvm_prp_list_chain lists n ioaddrs = Some (if (n <=? room + 1)%nat then n else room, ls) ∧
    pl_ioaddr <$> ls = pl_ioaddr <$> lists.
Proof.
  induction lists as [|l [|l2 lists] IH]; intros n ioaddrs Hcap Hne Hlen Hn room; [done|..];
    apply Forall_cons in Hlen as [Hl Hlen].
  - rw /nvm_prp_list_chain nvm_prp_list_spec; [|lia|done]. cbn [mbind option_bind chain_loop]. rw Hl Nat.add_0_r.
    eexists. split; [refine (f_equal (λ k, Some (k, _)) _)|done]. rw /room /=.
    destruct (Nat.ltb_spec cap n), (Nat.leb_spec n (cap - 1 + 0 + 1)); lia.
  - rw nvm_prp_list_chain_cons nvm_prp_list_spec; [|lia|done]. rw Hl.
    cbn [mbind option_bind pl_entries pl_ioaddr]. set (k := if (cap <? n)%nat then (cap - 1)%nat else n).
    destruct (Nat.ltb_spec cap n) as [Hlt|Hlt]; rw /k.
    + rw (proj2 (Nat.eqb_neq (n - (cap - 1)) 0)); [|lia].
      rw (proj2 (Nat.leb_gt _ (cap - 1))); [|rw length_app length_take length_drop; lia].
      destruct (IH (n - (cap - 1))%nat (drop (cap - 1) ioaddrs)) as (ls & Hc & Hio); [done|done|done|rw length_drop; lia|].
      rw Hc. cbn [mbind option_bind]. eexists. split; [refine (f_equal (λ k, Some (k, _)) _)|by rw fmap_cons Hio]. rw /room. cbn [length].
      rw (Nat.mul_succ_l (S (length lists))). set (r := (S (length lists) * (cap - 1))%nat).
      destruct (Nat.leb_spec (n - (cap - 1)) (r + 1)), (Nat.leb_spec n (r + (cap - 1) + 1)); lia.
    + rw Nat.sub_diag /=. eexists. split; [refine (f_equal (λ k, Some (k, _)) _)|done]. rw /room /=.
      generalize (length lists * (cap - 1))%nat as r. intros r.
      destruct (Nat.leb_spec n (cap - 1 + (cap - 1 + r) + 1)); lia.
Qed.

(** ** Fields read back *)

Lemma u32_halves z : 0 ≤ z < 2 ^ 64 → u32 z + 2 ^ 32 * u32 (Z.shiftr z 32) = z.
Proof.
  intros Hz. rw Z.shiftr_div_pow2 // /u32 (Z.mod_small (z / 2 ^ 32)).
  - pose proof (Z.div_mod z (2 ^ 32) ltac:(lia)). lia.
  - split; [apply Z.div_pos; lia|]. apply Z.div_lt_upper_bound; lia.
Qed.

Lemma dword_insert cmd i j v :
  (j < length cmd)%nat → dword (<[j := v]> cmd) i = if decide (i = j) then v else dword cmd i.
Proof.
  intros Hj. rw /dword. case_decide as E; [subst; by rw list_lookup_insert_eq|by rw list_lookup_insert_ne].
Qed.

Lemma cmd_prps cmd prp1 prp2 :
  length cmd = 16%nat → 0 ≤ prp1 < 2 ^ 64 → 0 ≤ prp2 < 2 ^ 64 →
  cmd_prp1 (nvm_cmd_data_ptr cmd prp1 prp2) = prp1 ∧ cmd_prp2 (nvm_cmd_data_ptr cmd prp1 prp2) = prp2.
Proof.
  intros Hl H1 H2. rw /cmd_prp1 /cmd_prp2 /nvm_cmd_data_ptr.
  rw !dword_insert ?length_insert; try lia. by rw !u32_halves.
Qed.

(** A number of [hi] shifted over one of fewer than 16 bits. *)
Lemma land_low hi lo m :
  0 ≤ hi < 2 ^ 16 → 0 ≤ lo < 2 ^ 16 → 0 ≤ m < 2 ^ 16 →
  Z.land (Z.lor (Z.shiftl hi 16) lo) m = Z.land lo m.
Proof.
  intros Hh Hl Hm. rw Z.land_lor_distr_l -{1}(Z.mod_small m (2 ^ 16)) // -Z.land_ones // (Z.land_comm m) Z.land_assoc.
  rw (Z.land_ones (Z.shiftl hi 16)) // Z.shiftl_mul_pow2 // Z_mod_mult. done.
Qed.
Lemma shift_high hi lo :
  0 ≤ lo < 2 ^ 16 → Z.shiftr (Z.lor (Z.shiftl hi 16) lo) 16 = hi.
Proof.
  intros Hl. rw Z.shiftr_lor Z.shiftr_shiftl_l // Z.sub_diag Z.shiftl_0_r.
  rw (Z.shiftr_div_pow2 lo) // Zdiv_small // Z.lor_0_r //.
Qed.

(** Word 0 after the data pointer has cleared FUSE and PSDT, which were 0. *)
Lemma header_kept cid opcode :
  0 ≤ cid < 2 ^ 16 → 0 ≤ opcode < 2 ^ 7 →
  Z.land (Z.lor (Z.shiftl cid 16) (Z.land opcode 0x7f)) (u32 (Z.lnot (Z.lor (Z.shiftl 3 14) (Z.shiftl 3 8)))) =
  Z.lor (Z.shiftl cid 16) opcode.
Proof.
  intros Hc Ho. change (u32 (Z.lnot (Z.lor (Z.shiftl 3 14) (Z.shiftl 3 8)))) with (Z.lor (Z.shiftl 0xffff 16) 0x3cff).
  assert (Z.land opcode 0x7f = opcode) as E7.
  { change 0x7f with (Z.ones 7). rw Z.land_ones // Z.mod_small //. }
  rw E7 Z.land_lor_distr_r (land_low cid opcode 0x3cff) //; [|lia].
  rw Z.land_lor_distr_l -Z.shiftl_land -{1 2}E7 -!Z.land_assoc.
  change (Z.land 0x7f (Z.shiftl 0xffff 16)) with 0. change (Z.land 0x7f 0x3cff) with 0x7f.
  rw Z.land_0_r Z.lor_0_r E7. f_equal. f_equal. change 0xffff with (Z.ones 16). rw Z.land_ones // Z.mod_small //.
Qed.

(** A read or write command as the library builds it. *)
Definition io_cmd (cid opcode ns_id prp1 prp2 slba n_blks : Z) (cmd : nvm_cmd) : nvm_cmd :=
  nvm_cmd_rw_blks (nvm_cmd_data_ptr (nvm_cmd_header cmd cid opcode ns_id) prp1 prp2) slba n_blks.
