(* ===== verification/KernelRing.v ===== *)
(** * The driver's own queues (pci.c)

    How the kernel driver writes commands to a submission queue, when it rings the
    doorbell, with or without the shadow doorbells of the controller ("dbbuf"), and
    how it reads the completion queue.  A write to a doorbell register is returned
    as the register's index in [dev->dbs] and the value.  [nq_sq_cmds] has one
    command per [1 << sqes] bytes.  A shadow doorbell is the contents of its cell,
    [None] when the pointer is NULL. *)
From S2P Require Import Prelude PhaseRing.

(** ** Data *)

(** [struct nvme_completion], with the two words of the result as one number. *)
Record nvme_completion := Cqe {
  cqe_result : Z; cqe_sq_head : Z; cqe_sq_id : Z; cqe_command_id : Z; cqe_status : Z }.

Definition command := list Z.

Record nvme_queue := NvmeQueue {
  nq_qid : Z;
  nq_q_depth : Z;
  nq_q_db : Z;
  nq_sq_cmds : list command;
  nq_cqes : list nvme_completion;
  nq_sq_tail : Z;
  nq_last_sq_tail : Z;
  nq_cq_head : Z;
  nq_cq_phase : Z;
  nq_dbbuf_sq_db : option Z;
  nq_dbbuf_cq_db : option Z;
  nq_dbbuf_sq_ei : Z;
  nq_dbbuf_cq_ei : Z;
}.
#[export] Instance eta_nvme_queue : Settable nvme_queue := λ x,
  NvmeQueue (nq_qid x) (nq_q_depth x) (nq_q_db x) (nq_sq_cmds x) (nq_cqes x) (nq_sq_tail x)
    (nq_last_sq_tail x) (nq_cq_head x) (nq_cq_phase x) (nq_dbbuf_sq_db x) (nq_dbbuf_cq_db x)
    (nq_dbbuf_sq_ei x) (nq_dbbuf_cq_ei x).

Definition sq_idx (qid stride : Z) : Z := u32 (qid * 2 * stride).
Definition cq_idx (qid stride : Z) : Z := u32 ((qid * 2 + 1) * stride).

(** [dbs] and [eis] are the cells of the two buffers, if they are allocated. *)
Definition nvme_dbbuf_init (dbs : option (Z → Z)) (eis : Z → Z) (db_stride : Z) (q : nvme_queue) (qid : Z) :
    nvme_queue :=
  match dbs with
  | Some dbs =>
    if qid =? 0 then q else
    q<{nq_dbbuf_sq_db := Some (dbs (sq_idx qid db_stride))}>
     <{nq_dbbuf_cq_db := Some (dbs (cq_idx qid db_stride))}>
     <{nq_dbbuf_sq_ei := eis (sq_idx qid db_stride)}>
     <{nq_dbbuf_cq_ei := eis (cq_idx qid db_stride)}>
  | None => q
  end.

Definition nvme_init_queue (dbs : option (Z → Z)) (eis : Z → Z) (db_stride : Z) (q : nvme_queue) (qid : Z) :
    nvme_queue :=
  let q := q<{nq_sq_tail := 0}><{nq_last_sq_tail := 0}><{nq_cq_head := 0}><{nq_cq_phase := 1}>
            <{nq_q_db := qid * 2 * db_stride}>
            <{nq_cqes := replicate (length (nq_cqes q)) (Cqe 0 0 0 0 0)}> in
  nvme_dbbuf_init dbs eis db_stride q qid.

(** ** Shadow doorbells *)

Definition nvme_dbbuf_need_event (event_idx new_idx old : Z) : bool :=
  u16 (new_idx - event_idx - 1) <? u16 (new_idx - old).

(** Whether an MMIO is required, and the cell. *)
Definition nvme_dbbuf_update_and_check_event (value : Z) (dbbuf_db : option Z) (dbbuf_ei : Z) :
    bool * option Z :=
  match dbbuf_db with
  | Some db => (nvme_dbbuf_need_event (u16 dbbuf_ei) value (u16 db), Some value)
  | None => (true, None)
  end.

(** ** Submission *)

Definition nvme_write_sq_db (q : nvme_queue) (write_sq : bool) : option (Z * Z) * nvme_queue :=
  let next_tail := u16 (nq_sq_tail q + 1) in
  let next_tail := if next_tail =? nq_q_depth q then 0 else next_tail in
  if negb write_sq && negb (next_tail =? nq_last_sq_tail q) then (None, q) else
  let '(mmio, db) := nvme_dbbuf_update_and_check_event (nq_sq_tail q) (nq_dbbuf_sq_db q) (nq_dbbuf_sq_ei q) in
  (if mmio then Some (nq_q_db q, nq_sq_tail q) else None,
   q<{nq_dbbuf_sq_db := db}><{nq_last_sq_tail := nq_sq_tail q}>).

Definition nvme_submit_cmd (q : nvme_queue) (cmd : command) (write_sq : bool) : option (Z * Z) * nvme_queue :=
  let q := q<{nq_sq_cmds := <[Z.to_nat (nq_sq_tail q) := cmd]> (nq_sq_cmds q)}> in
  let tail := u16 (nq_sq_tail q + 1) in
  let q := q<{nq_sq_tail := if tail =? nq_q_depth q then 0 else tail}> in
  nvme_write_sq_db q write_sq.

Definition nvme_commit_rqs (q : nvme_queue) : option (Z * Z) * nvme_queue :=
  if negb (nq_sq_tail q =? nq_last_sq_tail q) then nvme_write_sq_db q true else (None, q).

(** The constants of <linux/nvme.h>: one of the admin queue's ids is kept for
    asynchronous events. *)
Definition NVME_AQ_BLK_MQ_DEPTH : Z := 31.
Definition nvme_admin_async_event : Z := 0x0c.

(** The command's first word: the opcode and the id; the others are 0. *)
Definition nvme_pci_submit_async_event (q0 : nvme_queue) : option (Z * Z) * nvme_queue :=
  nvme_submit_cmd q0 (Z.lor (Z.shiftl NVME_AQ_BLK_MQ_DEPTH 16) nvme_admin_async_event :: replicate 15 0) true.

(** ** Commands are written in order and announced *)

(** The controller may move its event index at any time. *)
Inductive kq_op := KqSubmit (cmd : command) (last : bool) | KqCommit | KqEvent (ei : Z).

Definition kq_step (q : nvme_queue) (o : kq_op) : option (Z * Z) * nvme_queue :=
  match o with
  | KqSubmit cmd last => nvme_submit_cmd q cmd last
  | KqCommit => nvme_commit_rqs q
  | KqEvent ei => (None, q<{nq_dbbuf_sq_ei := ei}>)
  end.
Fixpoint kq_run (q : nvme_queue) (os : list kq_op) : list (option (Z * Z)) * nvme_queue :=
  match os with
  | [] => ([], q)
  | o :: os => let '(r, q) := kq_step q o in let '(rs, q) := kq_run q os in (r :: rs, q)
  end.

(** The specification: the commands written, how many of them are announced, and
    the controller's event index ([None] without shadow doorbells). *)
Record announced := Announced { an_cmds : list command; an_sent : Z; an_ei : option Z }.
#[export] Instance eta_announced : Settable announced := λ x, Announced (an_cmds x) (an_sent x) (an_ei x).

(** Announcing everything: the controller is interrupted by a write to its
    register unless it told that it needs none before the event index. *)
Definition announce (depth reg : Z) (a : announced) : option (Z * Z) * announced :=
  let n := Z.of_nat (length (an_cmds a)) in
  let wanted := match an_ei a with
                | None => true
                | Some ei => (ei - slot_of depth (an_sent a)) mod depth <? n - an_sent a
                end in
  (if wanted then Some (reg, slot_of depth n) else None, a<{an_sent := n}>).

(** A batch is announced at its end, or as soon as [depth - 1] commands wait. *)
Definition announced_step (depth reg : Z) (a : announced) (o : kq_op) : option (Z * Z) * announced :=
  match o with
  | KqSubmit cmd last =>
    let a := a<{an_cmds := an_cmds a ++ [cmd] }> in
    if last || (Z.of_nat (length (an_cmds a)) - an_sent a =? depth - 1) then announce depth reg a else (None, a)
  | KqCommit =>
    if Z.of_nat (length (an_cmds a)) =? an_sent a then (None, a) else announce depth reg a
  | KqEvent ei => (None, a<{an_ei := (λ _, ei) <$> an_ei a}>)
  end.
Fixpoint announced_run (depth reg : Z) (a : announced) (os : list kq_op) : list (option (Z * Z)) * announced :=
  match os with
  | [] => ([], a)
  | o :: os =>
    let '(r, a) := announced_step depth reg a o in
    let '(rs, a) := announced_run depth reg a os in (r :: rs, a)
  end.

Definition op_ok (depth : Z) (o : kq_op) : Prop :=
  match o with KqEvent ei => 0 ≤ ei < depth | _ => True end.

(** The queue holds these commands; at least [free] more could wait. *)
Record kq_repr (free : Z) (q : nvme_queue) (a : announced) : Prop := {
  kqr_depth : 2 ≤ nq_q_depth q ≤ 2 ^ 16;
  kqr_len : Z.of_nat (length (nq_sq_cmds q)) = nq_q_depth q;
  kqr_order : 0 ≤ an_sent a ≤ Z.of_nat (length (an_cmds a)) ∧
    Z.of_nat (length (an_cmds a)) ≤ an_sent a + nq_q_depth q - 1 - free;
  kqr_tail : nq_sq_tail q = slot_of (nq_q_depth q) (Z.of_nat (length (an_cmds a)));
  kqr_last : nq_last_sq_tail q = slot_of (nq_q_depth q) (an_sent a);
  kqr_mem : ∀ j cmd, an_cmds a !! j = Some cmd → Z.of_nat (length (an_cmds a)) ≤ Z.of_nat j + nq_q_depth q →
    nq_sq_cmds q !! Z.to_nat (slot_of (nq_q_depth q) (Z.of_nat j)) = Some cmd;
  kqr_db : nq_dbbuf_sq_db q = (λ _, nq_last_sq_tail q) <$> an_ei a;
  kqr_ei : ∀ ei, an_ei a = Some ei → nq_dbbuf_sq_ei q = ei ∧ 0 ≤ ei < nq_q_depth q;
}.

(** The 16-bit comparison decides whether the event index lies among the slots
    between the old and the new position, around the end of the ring too. *)
Lemma need_event_slots depth ei new old :
  0 < depth ≤ 2 ^ 16 → 0 ≤ ei < depth → 0 ≤ new < depth → 0 ≤ old < depth →
  nvme_dbbuf_need_event ei new old = ((ei - old) mod depth <? (new - old) mod depth).
Proof.
  intros Hd He Hn Ho. rw /nvme_dbbuf_need_event /u16.
  assert (∀ d x, 0 < d → - d ≤ x < d → x mod d = if x <? 0 then x + d else x) as Hmod.
  { intros d x Hp Hx. destruct (Z.ltb_spec x 0); [|apply Z.mod_small; lia].
    rw -(Z_mod_plus_full x 1) Z.mul_1_l. apply Z.mod_small. lia. }
  rw !Hmod; try lia.
  repeat match goal with |- context [?x <? 0] => destruct (Z.ltb_spec x 0) end;
    apply eq_bool_prop_intro; rw !Is_true_true !Z.ltb_lt; lia.
Qed.

(** Ringing the doorbell, when [n > sent]. *)
Lemma write_sq_db_announce q a :
  kq_repr 0 q a → an_sent a ≠ Z.of_nat (length (an_cmds a)) →
  (nvme_write_sq_db q true).1 = (announce (nq_q_depth q) (nq_q_db q) a).1 ∧
  kq_repr 1 (nvme_write_sq_db q true).2 (announce (nq_q_depth q) (nq_q_db q) a).2 ∧
  nq_q_depth (nvme_write_sq_db q true).2 = nq_q_depth q ∧ nq_q_db (nvme_write_sq_db q true).2 = nq_q_db q.
Proof.
  intros [Hd Hl Ho Ht Hla Hm Hdb Hei] Hne. rw /nvme_write_sq_db /announce /=. set (n := Z.of_nat (length (an_cmds a))) in *.
  rw /nvme_dbbuf_update_and_check_event Hdb. destruct (an_ei a) as [ei|] eqn:Ei; simpl.
  - destruct (Hei ei eq_refl) as [-> He].
    pose proof (slot_range (nq_q_depth q) ltac:(lia) n). pose proof (slot_range (nq_q_depth q) ltac:(lia) (an_sent a)).
    assert (u16 ei = ei) as -> by (apply Z.mod_small; lia).
    assert (u16 (nq_last_sq_tail q) = nq_last_sq_tail q) as -> by (rw Hla; apply Z.mod_small; lia).
    rw Ht Hla (need_event_slots (nq_q_depth q)); [|lia..]. rw (slot_diff (nq_q_depth q) n); [|lia..].
    split; [done|]. split; [|done]. split; simpl; rw ?Ei; try done; fold n; try lia. naive_solver.
  - rw Ht. split; [done|]. split; [|done]. split; simpl; rw ?Ei; try done; fold n; try lia.
Qed.

(** A command that is not the last of its batch is announced only when no other
    could wait after it. *)
Lemma write_sq_db_wait q a :
  kq_repr 0 q a →
  nvme_write_sq_db q false =
  if Z.of_nat (length (an_cmds a)) - an_sent a =? nq_q_depth q - 1 then nvme_write_sq_db q true else (None, q).
Proof.
  intros [Hd Hl Ho Ht Hla _ _ _]. rw /nvme_write_sq_db /=. set (n := Z.of_nat (length (an_cmds a))) in *.
  pose proof (slot_step16 (nq_q_depth q) n Hd) as Hs. rw -Ht in Hs. rw -Hs Hla.
  set (m := an_sent a) in *. destruct (Z.eqb_spec (n - m) (nq_q_depth q - 1)) as [E|E].
  - assert (slot_of (nq_q_depth q) (n + 1) = slot_of (nq_q_depth q) m) as ->; [|by rw Z.eqb_refl].
    rw /slot_of. replace (n + 1) with (m + 1 * nq_q_depth q) by lia. apply Z_mod_plus_full.
  - rw (proj2 (Z.eqb_neq _ _)) //. intros Heq. apply slot_eq in Heq; lia.
Qed.

(** Writing the command. *)
Lemma kq_repr_push q a cmd :
  kq_repr 1 q a →
  let tail := u16 (nq_sq_tail q + 1) in
  kq_repr 0
    (q<{nq_sq_cmds := <[Z.to_nat (nq_sq_tail q) := cmd]> (nq_sq_cmds q)}>
      <{nq_sq_tail := if tail =? nq_q_depth q then 0 else tail}>)
    (a<{an_cmds := an_cmds a ++ [cmd] }>).
Proof.
  intros [Hd Hl Ho Ht Hla Hm Hdb Hei] tail. set (n := Z.of_nat (length (an_cmds a))) in *.
  assert (Z.of_nat (length (an_cmds a ++ [cmd])) = n + 1) as Hn by (rw length_app /=; lia).
  split; simpl; rw ?Hn; try done; try lia.
  - by rw length_insert.
  - rw /tail Ht -slot_step16 //.
  - intros j c Hj Hr. pose proof (slot_range (nq_q_depth q) ltac:(lia) n) as Hs.
    rw Ht. destruct (decide (j = length (an_cmds a))) as [->|Hne].
    + rw list_lookup_middle // in Hj. injection Hj as <-. rw -/n list_lookup_insert_eq //. lia.
    + pose proof (lookup_lt_Some _ _ _ Hj) as Hlt. rw length_app /= in Hlt. rw lookup_app_l in Hj; [|lia].
      rw list_lookup_insert_ne; [apply Hm; [done|lia]|].
      pose proof (slot_distinct (nq_q_depth q) ltac:(lia) n (Z.of_nat j) ltac:(lia)).
      pose proof (slot_range (nq_q_depth q) ltac:(lia) (Z.of_nat j)). lia.
Qed.

Lemma kq_repr_weaken q a : kq_repr 1 q a → kq_repr 0 q a.
Proof. intros [Hd Hl Ho Ht Hla Hm Hdb Hei]. split; try done. lia. Qed.

Lemma kq_step_refines q a o :
  kq_repr 1 q a → op_ok (nq_q_depth q) o →
  (kq_step q o).1 = (announced_step (nq_q_depth q) (nq_q_db q) a o).1 ∧
  kq_repr 1 (kq_step q o).2 (announced_step (nq_q_depth q) (nq_q_db q) a o).2 ∧
  nq_q_depth (kq_step q o).2 = nq_q_depth q ∧ nq_q_db (kq_step q o).2 = nq_q_db q.
Proof.
  intros Hr Ho. destruct o as [cmd last| |ei]; simpl.
  - pose proof (kq_repr_push q a cmd Hr) as Hp. rw /nvme_submit_cmd. simpl in Hp |- *.
    set (q1 := NvmeQueue _ _ _ _ _ _ _ _ _ _ _ _ _) in *. set (a1 := Announced _ _ _) in *.
    assert (an_sent a1 ≠ Z.of_nat (length (an_cmds a1))) as Hne.
    { rw /a1 /= length_app /=. destruct Hr as [_ _ Hor _ _ _ _ _]. lia. }
    change (nq_q_depth q) with (nq_q_depth q1). change (nq_q_db q) with (nq_q_db q1).
    change (an_cmds a ++ [cmd]) with (an_cmds a1). change (an_sent a) with (an_sent a1).
    destruct last; [by apply write_sq_db_announce|]. rw (write_sq_db_wait q1 a1) // orb_false_l.
    destruct (Z.eqb_spec (Z.of_nat (length (an_cmds a1)) - an_sent a1) (nq_q_depth q1 - 1)) as [E|E];
      [by apply write_sq_db_announce|]. split_and!; try done.
    destruct Hp as [Hd Hl Hor Ht Hla Hm Hdb Hei]. cbn [fst snd]. split; try done. lia.
  - pose proof (kq_repr_weaken q a Hr) as Hr0. destruct Hr as [Hd Hl Hor Ht Hla Hm Hdb Hei]. rw /nvme_commit_rqs Ht Hla.
    pose proof (slot_eq (nq_q_depth q) (Z.of_nat (length (an_cmds a))) (an_sent a) ltac:(lia) ltac:(lia)) as Heq.
    destruct (Z.eqb_spec (Z.of_nat (length (an_cmds a))) (an_sent a)) as [E|E].
    + rw E Z.eqb_refl /=. split_and!; done || (split; done || (rw -E; done)).
    + rw (proj2 (Z.eqb_neq (slot_of _ _) _)); [|naive_solver]. apply write_sq_db_announce; congruence.
  - split; [done|]. split; [|done]. destruct Hr as [Hd Hl Hor Ht Hla Hm Hdb Hei].
    split; simpl; try done; rw ?Hdb; destruct (an_ei a); simpl; try done. naive_solver.
Qed.

Lemma kq_run_refines os : ∀ q a,
  kq_repr 1 q a → Forall (op_ok (nq_q_depth q)) os →
  (kq_run q os).1 = (announced_run (nq_q_depth q) (nq_q_db q) a os).1 ∧
  kq_repr 1 (kq_run q os).2 (announced_run (nq_q_depth q) (nq_q_db q) a os).2.
Proof.
  induction os as [|o os IH]; intros q a Hr Hos; simpl; [done|]. apply Forall_cons in Hos as [Ho Hos].
  destruct (kq_step_refines q a o Hr Ho) as (He & Hr' & Hdq & Hbq).
  destruct (kq_step q o) as [r q']. destruct (announced_step _ _ a o) as [r' a']. simpl in *. subst r'.
  rw -Hdq -Hbq in Hos |- *. destruct (IH q' a' Hr' Hos) as [He' Hr''].
  destruct (kq_run q' os). destruct (announced_run _ _ a' os). simpl in *. by subst.
Qed.
