(* ===== verification/KernelCq.v ===== *)
(** * Completion in the driver (pci.c, nvme.h)

    Command ids with their generation, and the loop of the interrupt handler over
    a completion queue to which the controller keeps posting.  Reading outside the
    queue is [None].  The block layer's two answers, whether a timeout is faked and
    whether another CPU finishes the request, are parameters. *)
From S2P Require Import Prelude PhaseRing KernelRing.

(** ** Command ids *)

Definition nvme_genctr_mask (gen : Z) : Z := Z.land gen 0xf.
Definition nvme_cid_install_genctr (gen : Z) : Z := Z.shiftl (nvme_genctr_mask gen) 12.
Definition nvme_genctr_from_cid (cid : Z) : Z := Z.shiftr (Z.land cid 0xf000) 12.
Definition nvme_tag_from_cid (cid : Z) : Z := Z.land cid 0xfff.

(** [struct nvme_request] and the tag of its [struct request]. *)
Record nvme_request := NvmeRequest { rq_tag : Z; rq_genctr : Z; rq_status : Z; rq_result : Z }.
#[export] Instance eta_nvme_request : Settable nvme_request := λ x,
  NvmeRequest (rq_tag x) (rq_genctr x) (rq_status x) (rq_result x).

(** The requests of a tag set, by tag ([blk_mq_tag_to_rq]). *)
Definition blk_mq_tags := gmap Z nvme_request.

Definition nvme_cid (rq : nvme_request) : Z :=
  u16 (Z.lor (nvme_cid_install_genctr (rq_genctr rq)) (rq_tag rq)).

Definition nvme_find_rq (tags : blk_mq_tags) (command_id : Z) : option nvme_request :=
  let genctr := u8 (nvme_genctr_from_cid command_id) in
  let tag := u16 (nvme_tag_from_cid command_id) in
  rq ← tags !! tag;
  if negb (nvme_genctr_mask (rq_genctr rq) =? genctr) then None else Some rq.

(** The end of [snvme_setup_cmd]: a started request gets the next generation. *)
Definition setup_cid (skip_cid_gen : bool) (rq : nvme_request) : Z * nvme_request :=
  let rq := if negb skip_cid_gen then rq<{rq_genctr := u8 (rq_genctr rq + 1)}> else rq in
  (nvme_cid rq, rq).

Definition nvme_is_aen_req (qid command_id : Z) : bool :=
  (qid =? 0) && (NVME_AQ_BLK_MQ_DEPTH <=? nvme_tag_from_cid command_id).

(** ** One entry *)

Inductive cqe_event :=
| CqeAen (status result : Z)
| CqeInvalid (command_id sq_id : Z)
| CqeRemote (tag : Z)
| CqeLocal (tag : Z).

Section block_layer.
Variables (should_fake_timeout complete_request_remote : Z → bool).

(** [nvme_should_fail] is empty without fault injection. *)
Definition nvme_try_complete_req (tags : blk_mq_tags) (req : nvme_request) (status result : Z) :
    bool * blk_mq_tags * list cqe_event :=
  let tags := <[rq_tag req := req<{rq_status := Z.shiftr status 1}><{rq_result := result}>]> tags in
  if should_fake_timeout (rq_tag req) then (true, tags, []) else
  if complete_request_remote (rq_tag req) then (true, tags, [CqeRemote (rq_tag req)]) else (false, tags, []).

(** What an entry does to the requests, and what is reported. *)
Definition handle_entry (qid : Z) (cqe : nvme_completion) (tags : blk_mq_tags) : blk_mq_tags * list cqe_event :=
  if nvme_is_aen_req qid (cqe_command_id cqe) then (tags, [CqeAen (cqe_status cqe) (cqe_result cqe)]) else
  match nvme_find_rq tags (cqe_command_id cqe) with
  | None => (tags, [CqeInvalid (cqe_command_id cqe) (cqe_sq_id cqe)])
  | Some req =>
    let '(done, tags, ev) := nvme_try_complete_req tags req (cqe_status cqe) (cqe_result cqe) in
    (tags, if done then ev else ev ++ [CqeLocal (rq_tag req)])
  end.

(** ** The queue and the controller that posts to it *)

(** The controller's tail, its phase and the head it was told of; the entries
    posted so far. *)
Record cq_state := CqState {
  cs_q : nvme_queue;
  cs_tags : blk_mq_tags;
  cs_log : list cqe_event;
  cs_tail : Z;
  cs_phase : bool;
  cs_head : Z;
  cs_posted : list nvme_completion;
}.
#[local] Instance eta_cq_state : Settable cq_state := λ x,
  CqState (cs_q x) (cs_tags x) (cs_log x) (cs_tail x) (cs_phase x) (cs_head x) (cs_posted x).

Definition cqe_tag (c : nvme_completion) : bool := Z.testbit (cqe_status c) 0.
Definition with_phase (p : bool) (c : nvme_completion) : nvme_completion :=
  Cqe (cqe_result c) (cqe_sq_head c) (cqe_sq_id c) (cqe_command_id c) (2 * (cqe_status c / 2) + c_bool p).

(** The controller posts only into a slot that was given back to it. *)
Definition ctrl_post (st : cq_state) (c : nvme_completion) : cq_state :=
  let depth := nq_q_depth (cs_q st) in
  let c := with_phase (cs_phase st) c in
  if (cs_tail st + 1) mod depth =? cs_head st then st else
  CqState (cs_q st)<{nq_cqes := <[Z.to_nat (cs_tail st) := c]> (nq_cqes (cs_q st))}> (cs_tags st) (cs_log st)
    (if cs_tail st + 1 =? depth then 0 else cs_tail st + 1)
    (if cs_tail st + 1 =? depth then negb (cs_phase st) else cs_phase st)
    (cs_head st) (cs_posted st ++ [c]).

(** The controller moves the event index. *)
Definition ctrl_event (st : cq_state) (ei : Z) : cq_state :=
  st<{cs_q := (cs_q st)<{nq_dbbuf_cq_ei := ei}>}>.

Definition nvme_cqe_pending (q : nvme_queue) : option bool :=
  hcqe ← nq_cqes q !! Z.to_nat (nq_cq_head q);
  Some (Z.land (cqe_status hcqe) 1 =? nq_cq_phase q).

Definition nvme_handle_cqe (st : cq_state) (idx : Z) : option cq_state :=
  cqe ← nq_cqes (cs_q st) !! Z.to_nat idx;
  let '(tags, ev) := handle_entry (nq_qid (cs_q st)) cqe (cs_tags st) in
  Some st<{cs_tags := tags}><{cs_log := cs_log st ++ ev}>.

Definition nvme_update_cq_head (q : nvme_queue) : nvme_queue :=
  let tmp := u32 (nq_cq_head q + 1) in
  if tmp =? nq_q_depth q then q<{nq_cq_head := 0}><{nq_cq_phase := Z.lxor (nq_cq_phase q) 1}>
  else q<{nq_cq_head := u16 tmp}>.

Definition nvme_ring_cq_doorbell (db_stride : Z) (q : nvme_queue) : option (Z * Z) * nvme_queue :=
  let head := nq_cq_head q in
  let '(mmio, db) := nvme_dbbuf_update_and_check_event head (nq_dbbuf_cq_db q) (nq_dbbuf_cq_ei q) in
  (if mmio then Some (nq_q_db q + db_stride, head) else None, q<{nq_dbbuf_cq_db := db}>).

(** [posts i] is what the controller tries to post before the [i]th test. *)
Fixpoint process_loop (fuel i : nat) (posts : nat → list nvme_completion) (found : Z) (st : cq_state) :
    option (Z * cq_state) :=
  match fuel with
  | O => None
  | S fuel =>
    let st := foldl ctrl_post st (posts i) in
    pending ← nvme_cqe_pending (cs_q st);
    if pending : bool then
      st ← nvme_handle_cqe st (nq_cq_head (cs_q st));
      process_loop fuel (S i) posts (found + 1) (st<{cs_q := nvme_update_cq_head (cs_q st)}>)
    else Some (found, st)
  end.

(** The count, the write to the doorbell register and the state; the controller
    learns of the head through the register or through the shadow doorbell. *)
Definition nvme_process_cq (fuel : nat) (posts : nat → list nvme_completion) (db_stride : Z) (st : cq_state) :
    option (Z * option (Z * Z) * cq_state) :=
  '(found, st) ← process_loop fuel 0 posts 0 st;
  if c_true found then
    let '(w, q) := nvme_ring_cq_doorbell db_stride (cs_q st) in
    Some (found, w, st<{cs_q := q}><{cs_head := nq_cq_head q}>)
  else Some (found, None, st).

(** [IRQ_NONE], [IRQ_HANDLED] and [IRQ_WAKE_THREAD]. *)
Definition nvme_irq (fuel : nat) (posts : nat → list nvme_completion) (db_stride : Z) (st : cq_state) :
    option (Z * option (Z * Z) * cq_state) :=
  '(found, w, st) ← nvme_process_cq fuel posts db_stride st;
  Some (if c_true found then 1 else 0, w, st).

Definition nvme_irq_check (q : nvme_queue) : option Z :=
  pending ← nvme_cqe_pending q;
  Some (if pending : bool then 2 else 0).

Definition nvme_poll (fuel : nat) (posts : nat → list nvme_completion) (db_stride : Z) (st : cq_state) :
    option (Z * option (Z * Z) * cq_state) :=
  pending ← nvme_cqe_pending (cs_q st);
  if negb pending then Some (0, None, st) else
  '(found, w, st) ← nvme_process_cq fuel posts db_stride st;
  Some (c_bool (c_true found), w, st).

(** ** The loop handles what was posted *)

(** What the entries [cs] do, one after the other. *)
Definition handle_entries (qid : Z) (cs : list nvme_completion) (st : blk_mq_tags * list cqe_event) :
    blk_mq_tags * list cqe_event :=
  foldl (λ '(tags, log) c, let '(tags, ev) := handle_entry qid c tags in (tags, log ++ ev)) st cs.

(** [k] entries have been handled, [r] of them given back. *)
Record kc_inv (st : cq_state) (k r : Z) : Prop := {
  kc_depth : 2 ≤ nq_q_depth (cs_q st) ≤ 2 ^ 16;
  kc_order : 0 ≤ r ≤ k ∧ k ≤ Z.of_nat (length (cs_posted st)) ≤ r + nq_q_depth (cs_q st) - 1;
  kc_ring : ring_ok cqe_tag (nq_q_depth (cs_q st)) (cs_posted st) (nq_cqes (cs_q st));
  kc_cq_head : nq_cq_head (cs_q st) = slot_of (nq_q_depth (cs_q st)) k;
  kc_cq_phase : nq_cq_phase (cs_q st) = c_bool (phase_of (nq_q_depth (cs_q st)) k);
  kc_tail : cs_tail st = slot_of (nq_q_depth (cs_q st)) (Z.of_nat (length (cs_posted st)));
  kc_phase : cs_phase st = phase_of (nq_q_depth (cs_q st)) (Z.of_nat (length (cs_posted st)));
  kc_head : cs_head st = slot_of (nq_q_depth (cs_q st)) r;
  kc_db : ∀ db, nq_dbbuf_cq_db (cs_q st) = Some db →
    db = slot_of (nq_q_depth (cs_q st)) r ∧ 0 ≤ nq_dbbuf_cq_ei (cs_q st) < nq_q_depth (cs_q st);
}.

(** What the controller and the loop leave alone. *)
Definition same_queue (q q' : nvme_queue) : Prop :=
  nq_qid q' = nq_qid q ∧ nq_q_depth q' = nq_q_depth q ∧ nq_q_db q' = nq_q_db q ∧
  nq_dbbuf_cq_db q' = nq_dbbuf_cq_db q ∧ nq_dbbuf_cq_ei q' = nq_dbbuf_cq_ei q.

Lemma same_queue_trans q1 q2 q3 : same_queue q1 q2 → same_queue q2 q3 → same_queue q1 q3.
Proof. rw /same_queue. intros (-> & -> & -> & -> & ->) (-> & -> & -> & -> & ->). done. Qed.

Lemma with_phase_tag p c : cqe_tag (with_phase p c) = p.
Proof. rw /cqe_tag /with_phase Z.bit0_odd. cbn [cqe_status]. rw Z.add_comm Z.odd_add_mul_2. by destruct p. Qed.

Lemma ctrl_post_inv st k r c :
  kc_inv st k r →
  kc_inv (ctrl_post st c) k r ∧ same_queue (cs_q st) (cs_q (ctrl_post st c)) ∧
  cs_posted st `prefix_of` cs_posted (ctrl_post st c) ∧
  cs_tags (ctrl_post st c) = cs_tags st ∧ cs_log (ctrl_post st c) = cs_log st.
Proof.
  intros Hi. rw /ctrl_post. destruct (Z.eqb_spec ((cs_tail st + 1) mod nq_q_depth (cs_q st)) (cs_head st)) as [E|Hf];
    [by split_and!|].
  destruct Hi as [Hd Ho Hr Hh Hp Ht Htp Hhd Hdb]. set (n := Z.of_nat (length (cs_posted st))) in *.
  set (depth := nq_q_depth (cs_q st)) in *. set (c' := with_phase (cs_phase st) c).
  assert (n ≠ r + depth - 1) as Hn.
  { intros En. apply Hf. rw Hhd Ht En /slot_of Zplus_mod_idemp_l.
    replace (r + depth - 1 + 1) with (r + 1 * depth) by lia. apply Z_mod_plus_full. }
  destruct (ring_advance depth ltac:(lia) n) as [Es Ep]. rw -Ht in Es Ep. rw -Htp in Ep.
  assert (Z.of_nat (length (cs_posted st ++ [c'])) = n + 1) as Hlen by (rw length_app /=; lia).
  split; [|split_and!; try done; by apply prefix_app_r].
  split; cbn -[Z.add]; rw ?Hlen; fold depth; try done; try lia.
  rw Ht. apply ring_ok_post; [lia|done|]. by rw with_phase_tag.
Qed.

Lemma ctrl_posts_inv cs : ∀ st k r,
  kc_inv st k r →
  let st' := foldl ctrl_post st cs in
  kc_inv st' k r ∧ same_queue (cs_q st) (cs_q st') ∧ cs_posted st `prefix_of` cs_posted st' ∧
  cs_tags st' = cs_tags st ∧ cs_log st' = cs_log st.
Proof.
  induction cs as [|c cs IH]; intros st k r Hi; [by split_and!|]. simpl.
  destruct (ctrl_post_inv st k r c Hi) as (Hi1 & Hq1 & Hp1 & Ht1 & Hl1).
  destruct (IH _ k r Hi1) as (Hi2 & Hq2 & Hp2 & Ht2 & Hl2).
  split; [done|]. split; [by eapply same_queue_trans|]. split; [by etrans|]. split; congruence.
Qed.

(** The test sees whether there is an entry that was not handled, and the entry
    at the head is the next one posted. *)
Lemma cqe_pending_spec st k r :
  kc_inv st k r →
  nvme_cqe_pending (cs_q st) = Some (bool_decide (k < Z.of_nat (length (cs_posted st)))) ∧
  (k < Z.of_nat (length (cs_posted st)) →
   nq_cqes (cs_q st) !! Z.to_nat (nq_cq_head (cs_q st)) = cs_posted st !! Z.to_nat k).
Proof.
  intros [Hd Ho Hr Hh Hp Ht Htp Hhd Hdb].
  destruct (ring_head cqe_tag (nq_q_depth (cs_q st)) ltac:(lia) _ _ k Hr ltac:(lia)) as (a & Ha & Hc). rw -Hh in Ha.
  rw /nvme_cqe_pending Ha. cbn [mbind option_bind].
  assert (Z.land (cqe_status a) 1 = c_bool (cqe_tag a)) as ->.
  { change 1 with (Z.ones 1) at 1. rw Z.land_ones // Z.pow_1_r Zmod_odd /cqe_tag Z.bit0_odd. by destruct (Z.odd _). }
  rw Hp. case_decide as Hlt.
  - destruct Hc as [-> ->]. rw bool_decide_eq_true_2 // Z.eqb_refl. done.
  - rw bool_decide_eq_false_2 // Hc. split; [by destruct (phase_of _ k)|lia].
Qed.

Lemma update_cq_head_inv st tags log k r :
  kc_inv st k r → k < Z.of_nat (length (cs_posted st)) →
  kc_inv (CqState (nvme_update_cq_head (cs_q st)) tags log (cs_tail st) (cs_phase st) (cs_head st) (cs_posted st))
    (k + 1) r ∧ same_queue (cs_q st) (nvme_update_cq_head (cs_q st)).
Proof.
  intros [Hd Ho Hr Hh Hp Ht Htp Hhd Hdb] Hk. rw /nvme_update_cq_head.
  destruct (ring_advance (nq_q_depth (cs_q st)) ltac:(lia) k) as [Es Ep].
  pose proof (slot_range (nq_q_depth (cs_q st)) ltac:(lia) k) as Hs. rw -Hh in Es Ep Hs.
  rw u32_id; [|lia]. destruct (Z.eqb_spec (nq_cq_head (cs_q st) + 1) (nq_q_depth (cs_q st))); (split; [|by split_and!]);
    split; simpl; try done; try lia.
  - rw Ep Hp. by destruct (phase_of _ k).
  - rw Es /u16 Z.mod_small //. lia.
  - by rw Ep.
Qed.

(** The loop ends, whatever the controller does meanwhile, because the
    controller may not post to slots that were not given back; by then every
    entry posted has been handled, in order. *)
Lemma process_loop_spec fuel : ∀ i posts found st k r,
  kc_inv st k r → r + nq_q_depth (cs_q st) - k ≤ Z.of_nat fuel →
  ∃ st', let n := Z.of_nat (length (cs_posted st')) in
    process_loop fuel i posts found st = Some (found + (n - k), st') ∧
    kc_inv st' n r ∧ same_queue (cs_q st) (cs_q st') ∧ cs_posted st `prefix_of` cs_posted st' ∧
    (cs_tags st', cs_log st') =
      handle_entries (nq_qid (cs_q st)) (drop (Z.to_nat k) (cs_posted st')) (cs_tags st, cs_log st).
Proof.
  induction fuel as [|fuel IH]; intros i posts found st k r Hi Hfuel.
  { destruct Hi as [_ Ho _ _ _ _ _ _ _]. lia. }
  cbn [process_loop]. destruct (ctrl_posts_inv (posts i) st k r Hi) as (Hi1 & Hq1 & Hp1 & Ht1 & Hl1).
  set (st1 := foldl ctrl_post st (posts i)) in *. cbn zeta in Hi1, Hq1, Hp1, Ht1, Hl1. clearbody st1.
  destruct (cqe_pending_spec st1 k r Hi1) as [-> Hhd]. cbn [mbind option_bind].
  pose proof (kc_order _ _ _ Hi1) as Ho1. pose proof Hq1 as (Eq & Ed & _).
  case_bool_decide as Hk.
  - rw /nvme_handle_cqe (Hhd Hk).
    destruct (lookup_lt_is_Some_2 (cs_posted st1) (Z.to_nat k) ltac:(lia)) as [c Hc]. rw Hc. cbn [mbind option_bind].
    destruct (handle_entry (nq_qid (cs_q st1)) c (cs_tags st1)) as [tags ev] eqn:Eh. cbn [mbind option_bind].
    destruct (update_cq_head_inv st1 tags (cs_log st1 ++ ev) k r Hi1 Hk) as [Hi2 Hq2].
    destruct (IH (S i) posts (found + 1) _ _ _ Hi2) as (st' & Hrun & Hi' & Hq' & Hp' & Hh).
    { cbn [cs_q]. destruct Hq2 as (_ & -> & _). lia. }
    cbn [cs_q cs_posted cs_tags cs_log] in Hq', Hp', Hh. exists st'. cbn zeta. split; [|split; [done|]].
    { refine (eq_trans Hrun _). do 2 f_equal. lia. }
    split; [do 2 (eapply same_queue_trans; [done|]); done|]. split; [by etrans|].
    rw Hh. destruct Hq2 as (-> & _). rw -Eq -Ht1 -Hl1.
    rw (drop_S (cs_posted st') c (Z.to_nat k)); [|by eapply prefix_lookup_Some].
    replace (Z.to_nat (k + 1)) with (S (Z.to_nat k)) by lia. rw /handle_entries /= Eh //.
  - exists st1. assert (k = Z.of_nat (length (cs_posted st1))) as Ek by lia. cbn zeta. rw -Ek.
    split; [do 2 f_equal; lia|]. do 3 (split; [done|]).
    rw Ek Nat2Z.id drop_all /handle_entries /= Ht1 Hl1 //.
Qed.

(** Ringing the doorbell gives the entries back. *)
Lemma ring_cq_doorbell_spec db_stride st k r :
  kc_inv st k r → k = Z.of_nat (length (cs_posted st)) → r < k →
  let q := cs_q st in
  let wanted := match nq_dbbuf_cq_db q with
                | None => true
                | Some _ => (nq_dbbuf_cq_ei q - slot_of (nq_q_depth q) r) mod nq_q_depth q <? k - r
                end in
  (nvme_ring_cq_doorbell db_stride q).1 =
    (if wanted then Some (nq_q_db q + db_stride, slot_of (nq_q_depth q) k) else None) ∧
  kc_inv (st<{cs_q := (nvme_ring_cq_doorbell db_stride q).2}>
            <{cs_head := nq_cq_head (nvme_ring_cq_doorbell db_stride q).2}>) k k ∧
  nq_q_depth (nvme_ring_cq_doorbell db_stride q).2 = nq_q_depth q.
Proof.
  intros [Hd Ho Hr Hh Hp Ht Htp Hhd Hdb] Hk Hlt q. subst q. rw /nvme_ring_cq_doorbell.
  pose proof (slot_range (nq_q_depth (cs_q st)) ltac:(lia) k). pose proof (slot_range (nq_q_depth (cs_q st)) ltac:(lia) r).
  rw /nvme_dbbuf_update_and_check_event. destruct (nq_dbbuf_cq_db (cs_q st)) as [db|] eqn:Edb.
  - destruct (Hdb db eq_refl) as [-> Hei].
    assert (∀ x, 0 ≤ x < nq_q_depth (cs_q st) → u16 x = x) as Hu by (intros x Hx; apply Z.mod_small; lia).
    rw !Hu // Hh (need_event_slots (nq_q_depth (cs_q st))) //; [|lia]. rw slot_diff; [|lia..]. split; [done|].
    split; [|done]. split; simpl; rw ?Edb; try done; try lia. intros db [= <-]. by rw -Hh.
  - split; [by rw Hh|]. split; [|done]. split; simpl; rw ?Edb; try done; lia.
Qed.

Lemma process_cq_spec fuel posts db_stride st k :
  kc_inv st k k → nq_q_depth (cs_q st) ≤ Z.of_nat fuel →
  ∃ w st', let n := Z.of_nat (length (cs_posted st')) in
    nvme_process_cq fuel posts db_stride st = Some (n - k, w, st') ∧
    kc_inv st' n n ∧ nq_q_depth (cs_q st') = nq_q_depth (cs_q st) ∧ cs_posted st `prefix_of` cs_posted st' ∧
    (cs_tags st', cs_log st') =
      handle_entries (nq_qid (cs_q st)) (drop (Z.to_nat k) (cs_posted st')) (cs_tags st, cs_log st) ∧
    (w ≠ None → w = Some (nq_q_db (cs_q st) + db_stride, slot_of (nq_q_depth (cs_q st)) n)) ∧
    (w = None ↔ n = k ∨ (is_Some (nq_dbbuf_cq_db (cs_q st)) ∧
       n - k ≤ (nq_dbbuf_cq_ei (cs_q st) - slot_of (nq_q_depth (cs_q st)) k) mod nq_q_depth (cs_q st))).
Proof.
  intros Hi Hfuel. destruct (process_loop_spec fuel 0 posts 0 st k k Hi ltac:(lia)) as (st' & Hrun & Hi' & Hq & Hp & Hh).
  set (n := Z.of_nat (length (cs_posted st'))) in *. cbn zeta in Hrun, Hi'. pose proof (kc_order _ _ _ Hi') as Ho.
  rw /nvme_process_cq Hrun. cbn [mbind option_bind]. rw Z.add_0_l. rw /c_true.
  destruct Hq as (Eq & Ed & Eb & Edb & Eei).
  destruct (Z.eqb_spec (n - k) 0) as [E|E].
  - exists None, st'. cbn zeta. fold n. split; [done|]. assert (n = k) as En by lia. rw En in Hi' |- *.
    split_and!; try done. by split; [left|].
  - destruct (ring_cq_doorbell_spec db_stride st' n k Hi' ltac:(done) ltac:(lia)) as (Hw & Hi2 & Ed2).
    rw Eb Edb Eei Ed in Hw. cbn zeta in Hi2.
    destruct (nvme_ring_cq_doorbell db_stride (cs_q st')) as [w q]. cbn [fst snd] in Hw, Hi2, Ed2.
    exists w, (CqState q (cs_tags st') (cs_log st') (cs_tail st') (cs_phase st') (nq_cq_head q) (cs_posted st')). cbn zeta. split; [reflexivity|]. cbn [cs_posted cs_tags cs_log]. fold n. split; [exact Hi2|].
    split; [exact (eq_trans Ed2 Ed)|]. split; [done|]. split; [done|]. subst w. destruct (nq_dbbuf_cq_db (cs_q st)) as [db|].
    + destruct (Z.ltb_spec ((nq_dbbuf_cq_ei (cs_q st) - slot_of (nq_q_depth (cs_q st)) k) mod nq_q_depth (cs_q st)) (n - k)).
      * split; [done|]. split; [done|]. intros [?|[_ ?]]; lia.
      * split; [done|]. split; [|done]. intros _. right. by split.
    + split; [done|]. split; [done|]. intros [?|[[??] _]]; [lia|done].
Qed.
End block_layer.
