(* ===== verification/KernelPrp.v ===== *)
(** * Data pointers of the driver's commands (pci.c)

    How the driver turns the scatter list of a request into the PRP entries of a
    command, and frees the list pages again.  Pages come from a DMA pool with
    arbitrary contents; [alloc small k] is the answer to the [k]th allocation of a
    request.  [cap] is the room for list pointers behind the scatter list of the
    request; storing beyond it, reading past the scatter list or outside a page is
    [None]. *)
From S2P Require Import Prelude UserQueue UserCmd.

Definition NVME_CTRL_PAGE_SIZE : Z := 4096.
Definition DIV_ROUND_UP (n d : Z) : Z := (n + d - 1) / d.

Inductive blk_status := BLK_STS_OK | BLK_STS_RESOURCE | BLK_STS_IOERR.
#[export] Instance blk_status_eq_dec : EqDecision blk_status.
Proof. solve_decision. Defined.

(** A mapped element of a scatter list: [sg_dma_address] and [sg_dma_len]. *)
Record scatterlist := Sg { sg_dma_address : Z; sg_dma_len : Z }.

(** What [struct nvme_iod] says of the list pages: their number, where 0 means
    the small pool and -1 none, the address of the first, and the pages. *)
Record nvme_iod := NvmeIod { iod_npages : Z; iod_first_dma : Z; iod_list : list prp_list }.

Section setup.
Variable alloc : bool → nat → option prp_list.

(** The loop: [cur] is the page being filled from entry [i], number [k] of the
    request; [sgs] are the elements after the current one.  It returns the status
    and the pages from [cur] on.  [prp_body] is an iteration after the test for a
    full page, [next] the iterations that follow. *)
Definition prp_body (next : nat → nat → prp_list → list scatterlist → Z → Z → Z → option (blk_status * list prp_list))
    (k i : nat) (cur : prp_list) (sgs : list scatterlist) (dma_addr dma_len length_ : Z) :
    option (blk_status * list prp_list) :=
  if (length (pl_entries cur) <=? i)%nat then None else
  let cur := PrpList (pl_ioaddr cur) (<[i := dma_addr]> (pl_entries cur)) in
  let dma_len := dma_len - NVME_CTRL_PAGE_SIZE in
  let dma_addr := u64 (dma_addr + NVME_CTRL_PAGE_SIZE) in
  let length_ := length_ - NVME_CTRL_PAGE_SIZE in
  if length_ <=? 0 then Some (BLK_STS_OK, [cur]) else
  if 0 <? dma_len then next k (S i) cur sgs dma_addr dma_len length_ else
  if dma_len <? 0 then Some (BLK_STS_IOERR, [cur]) else
  match sgs with
  | [] => None
  | sg :: sgs => next k (S i) cur sgs (sg_dma_address sg) (sg_dma_len sg) length_
  end.
Fixpoint prp_loop (fuel cap : nat) (small : bool) (k i : nat) (cur : prp_list) (sgs : list scatterlist)
    (dma_addr dma_len length_ : Z) : option (blk_status * list prp_list) :=
  match fuel with
  | O => None
  | S fuel =>
    if (i =? 512)%nat then
      match alloc small (S k) with
      | None => Some (BLK_STS_RESOURCE, [cur])
      | Some page =>
        if (cap <=? S k)%nat then None else
        moved ← pl_entries cur !! 511%nat;
        let old := PrpList (pl_ioaddr cur) (<[511%nat := pl_ioaddr page]> (pl_entries cur)) in
        '(st, ls) ← prp_body (prp_loop fuel cap small) (S k) 1
          (PrpList (pl_ioaddr page) (<[0%nat := moved]> (pl_entries page))) sgs dma_addr dma_len length_;
        Some (st, old :: ls)
      end
    else prp_body (prp_loop fuel cap small) k i cur sgs dma_addr dma_len length_
  end.

(** The addresses of the list pages [nvme_free_prps] hands back to the pool: the
    first one from the iod, the others from the last entry of the page before. *)
Fixpoint free_walk (dma_addr : Z) (ls : list prp_list) : option (list Z) :=
  match ls with
  | [] => Some []
  | l :: ls =>
    next ← pl_entries l !! 511%nat;
    rest ← free_walk next ls;
    Some (dma_addr :: rest)
  end.
Definition nvme_free_prps (iod : nvme_iod) : option (list Z) :=
  free_walk (iod_first_dma iod) (take (Z.to_nat (iod_npages iod)) (iod_list iod)).

(** The status, the iod, the two pointers written to the command if any, and the
    pages freed on the way. *)
Definition nvme_pci_setup_prps (cap : nat) (sgl : list scatterlist) (payload : Z) (iod : nvme_iod) :
    option (blk_status * nvme_iod * option (Z * Z) * list Z) :=
  match sgl with
  | [] => None
  | sg :: sgs =>
    let dma_addr := sg_dma_address sg in
    let offset := Z.land dma_addr (NVME_CTRL_PAGE_SIZE - 1) in
    let length_ := payload - (NVME_CTRL_PAGE_SIZE - offset) in
    let done (first_dma npages : Z) (ls : list prp_list) :=
      Some (BLK_STS_OK, NvmeIod npages first_dma ls, Some (sg_dma_address sg, first_dma), []) in
    if length_ <=? 0 then done 0 (iod_npages iod) (iod_list iod) else
    let dma_len := sg_dma_len sg - (NVME_CTRL_PAGE_SIZE - offset) in
    '(dma_addr, dma_len, sgs) ←
      (if negb (dma_len =? 0) then Some (u64 (dma_addr + (NVME_CTRL_PAGE_SIZE - offset)), dma_len, sgs) else
       match sgs with
       | [] => None
       | sg :: sgs => Some (sg_dma_address sg, sg_dma_len sg, sgs)
       end);
    if length_ <=? NVME_CTRL_PAGE_SIZE then done dma_addr (iod_npages iod) (iod_list iod) else
    let nprps := DIV_ROUND_UP length_ NVME_CTRL_PAGE_SIZE in
    let small := nprps <=? 256 / 8 in
    match alloc small 0 with
    | None => Some (BLK_STS_RESOURCE, NvmeIod (-1) dma_addr (iod_list iod), None, [])
    | Some page =>
      if (cap <=? 0)%nat then None else
      '(st, ls) ← prp_loop (Z.to_nat nprps) cap small 0 0 page sgs dma_addr dma_len length_;
      let iod := NvmeIod (if small then Z.of_nat (length ls) - 1 else Z.of_nat (length ls)) (pl_ioaddr page) ls in
      match st with
      | BLK_STS_OK => Some (BLK_STS_OK, iod, Some (sg_dma_address sg, pl_ioaddr page), [])
      | BLK_STS_RESOURCE => freed ← nvme_free_prps iod; Some (BLK_STS_RESOURCE, iod, None, freed)
      | BLK_STS_IOERR => Some (BLK_STS_IOERR, iod, None, [])
      end
    end
  end.
End setup.

(** ** The room for list pointers *)

Definition NVME_MAX_KB_SZ : Z := 4096.
Definition NVME_MAX_SEGS : Z := 127.
Definition SIZEOF_SCATTERLIST : Z := 32.

Definition nvme_pci_npages_prp : Z :=
  let nprps := DIV_ROUND_UP (NVME_MAX_KB_SZ + NVME_CTRL_PAGE_SIZE) NVME_CTRL_PAGE_SIZE in
  DIV_ROUND_UP (8 * nprps) (PAGE_SIZE - 8).
Definition nvme_pci_npages_sgl : Z := DIV_ROUND_UP (NVME_MAX_SEGS * 16) PAGE_SIZE.
Definition nvme_pci_iod_alloc_size : Z :=
  8 * Z.max nvme_pci_npages_prp nvme_pci_npages_sgl + SIZEOF_SCATTERLIST * NVME_MAX_SEGS.

(** What is left behind [nseg] elements ([nvme_pci_iod_list]). *)
Definition iod_list_room (nseg : Z) : nat := Z.to_nat ((nvme_pci_iod_alloc_size - SIZEOF_SCATTERLIST * nseg) / 8).

(** ** Bytes of a transfer *)

(** The bus address of byte [k] of a scatter list, and of what a controller
    reads: the first pointer covers its page from the offset, every other entry a
    whole page. *)
Fixpoint sg_byte (sgl : list scatterlist) (k : Z) : option Z :=
  match sgl with
  | [] => None
  | sg :: sgl => if k <? sg_dma_len sg then Some (sg_dma_address sg + k) else sg_byte sgl (k - sg_dma_len sg)
  end.

Definition prp_entries (mem : list prp_list) (prp2 length_ : Z) : option (list Z) :=
  if length_ <=? 0 then Some [] else
  if length_ <=? NVME_CTRL_PAGE_SIZE then Some [prp2] else
  read_list (length mem) 512 mem prp2 (Z.to_nat (DIV_ROUND_UP length_ NVME_CTRL_PAGE_SIZE)).

Definition prp_byte (mem : list prp_list) (prps : Z * Z) (payload k : Z) : option Z :=
  let first := NVME_CTRL_PAGE_SIZE - prps.1 mod NVME_CTRL_PAGE_SIZE in
  if k <? first then Some (prps.1 + k) else
  es ← prp_entries mem prps.2 (payload - first);
  e ← es !! Z.to_nat ((k - first) / NVME_CTRL_PAGE_SIZE);
  Some (e + (k - first) mod NVME_CTRL_PAGE_SIZE).

(** A scatter list whose elements meet at page boundaries, up to [length_]
    bytes, when [dma_len] of the current element are left. *)
Fixpoint sg_ok (sgs : list scatterlist) (dma_addr dma_len length_ : Z) : Prop :=
  0 < dma_len ∧ 0 ≤ dma_addr ∧ dma_addr + dma_len ≤ 2 ^ 64 ∧
  (length_ ≤ dma_len ∨
   (NVME_CTRL_PAGE_SIZE | dma_len) ∧
   match sgs with
   | [] => False
   | sg :: sgs => sg_ok sgs (sg_dma_address sg) (sg_dma_len sg) (length_ - dma_len)
   end).

(** ** The loop writes the pages of the scatter list *)

Definition chunks (a n : Z) : list Z := (λ j, a + NVME_CTRL_PAGE_SIZE * j) <$> seqZ 0 n.

(** One address per page of [length_] bytes. *)
Fixpoint sg_entries (sgs : list scatterlist) (dma_addr dma_len length_ : Z) : list Z :=
  if length_ <=? dma_len then chunks dma_addr (DIV_ROUND_UP length_ NVME_CTRL_PAGE_SIZE) else
  chunks dma_addr (dma_len / NVME_CTRL_PAGE_SIZE) ++
  match sgs with
  | [] => []
  | sg :: sgs => sg_entries sgs (sg_dma_address sg) (sg_dma_len sg) (length_ - dma_len)
  end.

Lemma chunks_cons a n : 0 < n → chunks a n = a :: chunks (a + NVME_CTRL_PAGE_SIZE) (n - 1).
Proof.
  intros Hn. rw /chunks seqZ_cons // fmap_cons Z.mul_0_r Z.add_0_r. f_equal.
  rw -(fmap_add_seqZ 1 0) -list_fmap_compose. apply list_fmap_ext. intros i x _. rw /compose /NVME_CTRL_PAGE_SIZE. lia.
Qed.
Lemma lookup_chunks a n j : 0 ≤ j < n → chunks a n !! Z.to_nat j = Some (a + NVME_CTRL_PAGE_SIZE * j).
Proof. intros Hj. rw /chunks list_lookup_fmap lookup_seqZ_lt /=; [|lia]. rw Z2Nat.id; [done|lia]. Qed.

Lemma round_up_step n : DIV_ROUND_UP n NVME_CTRL_PAGE_SIZE = DIV_ROUND_UP (n - NVME_CTRL_PAGE_SIZE) NVME_CTRL_PAGE_SIZE + 1.
Proof. rw /DIV_ROUND_UP /NVME_CTRL_PAGE_SIZE. Z.div_mod_to_equations. lia. Qed.
Lemma round_up_one n : 0 < n ≤ NVME_CTRL_PAGE_SIZE → DIV_ROUND_UP n NVME_CTRL_PAGE_SIZE = 1.
Proof. rw /DIV_ROUND_UP /NVME_CTRL_PAGE_SIZE. intros Hn. Z.div_mod_to_equations. lia. Qed.
Lemma round_up_pos n : 0 < n → 0 < DIV_ROUND_UP n NVME_CTRL_PAGE_SIZE.
Proof. rw /DIV_ROUND_UP /NVME_CTRL_PAGE_SIZE. intros Hn. Z.div_mod_to_equations. lia. Qed.

Lemma sg_entries_unfold sgs a l len :
  sg_entries sgs a l len =
  if len <=? l then chunks a (DIV_ROUND_UP len NVME_CTRL_PAGE_SIZE) else
  chunks a (l / NVME_CTRL_PAGE_SIZE) ++
  match sgs with
  | [] => []
  | sg :: sgs => sg_entries sgs (sg_dma_address sg) (sg_dma_len sg) (len - l)
  end.
Proof. by destruct sgs. Qed.
Lemma sg_ok_unfold sgs a l len :
  sg_ok sgs a l len ↔
  0 < l ∧ 0 ≤ a ∧ a + l ≤ 2 ^ 64 ∧
  (len ≤ l ∨ (NVME_CTRL_PAGE_SIZE | l) ∧
   match sgs with
   | [] => False
   | sg :: sgs => sg_ok sgs (sg_dma_address sg) (sg_dma_len sg) (len - l)
   end).
Proof. by destruct sgs. Qed.

(** One page further. *)
Lemma sg_entries_last sgs a l len :
  sg_ok sgs a l len → 0 < len ≤ NVME_CTRL_PAGE_SIZE → sg_entries sgs a l len = [a].
Proof.
  rw sg_ok_unfold sg_entries_unfold. intros (Hl & _ & _ & Hc) Hn.
  assert (len ≤ l) as Hle.
  { destruct Hc as [?|[[q ->] _]]; [done|]. rw /NVME_CTRL_PAGE_SIZE in Hl Hn |- *. nia. }
  rw (proj2 (Z.leb_le _ _) Hle) round_up_one // chunks_cons //.
Qed.
Lemma sg_entries_inside sgs a l len :
  sg_ok sgs a l len → NVME_CTRL_PAGE_SIZE < len → NVME_CTRL_PAGE_SIZE < l →
  sg_ok sgs (a + NVME_CTRL_PAGE_SIZE) (l - NVME_CTRL_PAGE_SIZE) (len - NVME_CTRL_PAGE_SIZE) ∧
  sg_entries sgs a l len =
    a :: sg_entries sgs (a + NVME_CTRL_PAGE_SIZE) (l - NVME_CTRL_PAGE_SIZE) (len - NVME_CTRL_PAGE_SIZE) ∧
  u64 (a + NVME_CTRL_PAGE_SIZE) = a + NVME_CTRL_PAGE_SIZE.
Proof.
  rw !sg_ok_unfold !sg_entries_unfold. intros (Hl & Ha & Hb & Hc) Hn Hs.
  replace (len - NVME_CTRL_PAGE_SIZE - (l - NVME_CTRL_PAGE_SIZE)) with (len - l) by lia.
  split; [|split; [|rw /u64 Z.mod_small //; rw /NVME_CTRL_PAGE_SIZE in Hs |- *; lia]].
  - split_and!; [lia|rw /NVME_CTRL_PAGE_SIZE; lia|lia|]. destruct Hc as [?|[Hd Hr]]; [left; lia|right]. split; [|done].
    by apply Z.divide_sub_r.
  - destruct (Z.leb_spec len l), (Z.leb_spec (len - NVME_CTRL_PAGE_SIZE) (l - NVME_CTRL_PAGE_SIZE)); try lia.
    + rw chunks_cons; [|apply round_up_pos; rw /NVME_CTRL_PAGE_SIZE in Hn; lia]. do 2 f_equal. rw round_up_step. lia.
    + assert (l / NVME_CTRL_PAGE_SIZE = (l - NVME_CTRL_PAGE_SIZE) / NVME_CTRL_PAGE_SIZE + 1) as ->.
      { replace l with (l - NVME_CTRL_PAGE_SIZE + 1 * NVME_CTRL_PAGE_SIZE) at 1 by lia. by rw Z_div_plus_full. }
      rw chunks_cons; [by rw Z.add_simpl_r|]. rw /NVME_CTRL_PAGE_SIZE in Hs |- *.
      pose proof (Z.div_pos (l - 4096) 4096). lia.
Qed.
Lemma sg_entries_next sgs a l len :
  sg_ok sgs a l len → NVME_CTRL_PAGE_SIZE < len → l ≤ NVME_CTRL_PAGE_SIZE →
  l = NVME_CTRL_PAGE_SIZE ∧ ∃ sg sgs', sgs = sg :: sgs' ∧
    sg_ok sgs' (sg_dma_address sg) (sg_dma_len sg) (len - NVME_CTRL_PAGE_SIZE) ∧
    sg_entries sgs a l len = a :: sg_entries sgs' (sg_dma_address sg) (sg_dma_len sg) (len - NVME_CTRL_PAGE_SIZE).
Proof.
  rw sg_ok_unfold sg_entries_unfold. intros (Hl & Ha & Hb & Hc) Hn Hs.
  destruct Hc as [?|[Hd Hr]]; [lia|]. assert (l = NVME_CTRL_PAGE_SIZE) as ->.
  { destruct Hd as [q ->]. rw /NVME_CTRL_PAGE_SIZE in Hl Hs |- *. nia. }
  split; [done|]. destruct sgs as [|sg sgs]; [done|]. exists sg, sgs. split; [done|]. split; [done|].
  rw (proj2 (Z.leb_gt _ _) Hn) Z_div_same // chunks_cons //.
Qed.

Section loop.
Variable alloc : bool → nat → option prp_list.
Definition pool_entries (small : bool) : nat := if small then 32%nat else 512%nat.
Hypothesis alloc_size : ∀ small j p, alloc small j = Some p → length (pl_entries p) = pool_entries small.

(** Page [n] of [ls] is the answer to allocation [k + n]. *)
Definition from_pool (small : bool) (k : nat) (ls : list prp_list) : Prop :=
  ∀ n l, ls !! n = Some l → ∃ p, alloc small (k + n) = Some p ∧ pl_ioaddr l = pl_ioaddr p.

Lemma from_pool_one small k l p : alloc small k = Some p → pl_ioaddr l = pl_ioaddr p → from_pool small k [l].
Proof. intros Hp Hl n x Hx. apply list_lookup_singleton_Some in Hx as [-> <-]. exists p. by rw Nat.add_0_r. Qed.
Lemma from_pool_cons small k l p ls :
  alloc small k = Some p → pl_ioaddr l = pl_ioaddr p → from_pool small (S k) ls → from_pool small k (l :: ls).
Proof.
  intros Hp Hl Hls [|n] x Hx; simpl in Hx; [injection Hx as <-; exists p; by rw Nat.add_0_r|].
  destruct (Hls n x Hx) as (p' & Hp' & E). exists p'. by rw Nat.add_succ_r.
Qed.

(** What holds before an iteration: the elements left cover [len] bytes, and
    their pages fit the page being filled and those that can still be stored. *)
Record prp_pre (cap : nat) (small : bool) (k i : nat) (cur : prp_list) (sgs : list scatterlist) (a l len : Z)
    (n : nat) : Prop := {
  pp_sg : sg_ok sgs a l len;
  pp_len : 0 < len;
  pp_n : DIV_ROUND_UP len NVME_CTRL_PAGE_SIZE = Z.of_nat n;
  pp_size : length (pl_entries cur) = pool_entries small;
  pp_pool : ∃ p, alloc small k = Some p ∧ pl_ioaddr cur = pl_ioaddr p;
  pp_i : (i ≤ 512)%nat;
  pp_small : small = true → (i + n ≤ 32)%nat;
  pp_big : small = false → (k < cap)%nat ∧ (i + n ≤ 512 + 511 * (cap - 1 - k))%nat;
}.

(** What the iterations give: the pages with the entries of all the bytes, as a
    controller reads them; or no memory, because the pool had none. *)
Definition prp_post (small : bool) (k i : nat) (cur : prp_list) (sgs : list scatterlist) (a l len : Z) (n : nat)
    (r : option (blk_status * list prp_list)) : Prop :=
  ∃ st ls, r = Some (st, ls) ∧ from_pool small k ls ∧
    (small = false → free_walk (pl_ioaddr cur) ls = Some (pl_ioaddr <$> ls)) ∧
    (small = true → length ls = 1%nat) ∧
    match st with
    | BLK_STS_OK => ∀ mem, NoDup (pl_ioaddr <$> mem) → (∀ x, x ∈ ls → x ∈ mem) →
        read_list (length ls) 512 mem (pl_ioaddr cur) (i + n) =
          Some (take i (pl_entries cur) ++ sg_entries sgs a l len)
    | BLK_STS_RESOURCE => small = false ∧ ls ≠ [] ∧ ∃ j, alloc small j = None
    | BLK_STS_IOERR => False
    end.

Lemma take_S_insert {A} (l : list A) i x : (i < length l)%nat → take (S i) (<[i := x]> l) = take i l ++ [x].
Proof. intros Hi. rw (take_S_r _ _ x); [by rw take_insert_ge|by apply list_lookup_insert_eq]. Qed.

Lemma free_walk_one small cur cur' :
  length (pl_entries cur') = pool_entries small → pl_ioaddr cur' = pl_ioaddr cur →
  small = false → free_walk (pl_ioaddr cur) [cur'] = Some (pl_ioaddr <$> [cur']).
Proof.
  intros Hl Ha ->. simpl. destruct (lookup_lt_is_Some_2 (pl_entries cur') 511) as [x ->]; [rw Hl /=; lia|].
  by rw /= Ha.
Qed.

(** Passing a result on from the page after its entry [i] was written. *)
Lemma prp_post_step small k i cur sgs a l len n sgs' a' l' len' r :
  (i < length (pl_entries cur))%nat → sg_entries sgs a l len = a :: sg_entries sgs' a' l' len' →
  prp_post small k (S i) (PrpList (pl_ioaddr cur) (<[i := a]> (pl_entries cur))) sgs' a' l' len' n r →
  prp_post small k i cur sgs a l len (S n) r.
Proof.
  intros Hi He (st & ls & -> & Hp & Hf & H1 & Hst). exists st, ls. split; [done|]. split; [done|].
  split; [done|]. split; [done|]. destruct st; [|done|done]. intros mem Hnd Hin. specialize (Hst mem Hnd Hin).
  cbn [pl_ioaddr pl_entries] in Hst. rw take_S_insert // in Hst. rw Nat.add_succ_r -Nat.add_succ_l Hst He -app_assoc //.
Qed.

Lemma prp_body_spec next cap small k i cur sgs a l len n :
  (∀ i cur sgs a l len, prp_pre cap small k i cur sgs a l len n →
     prp_post small k i cur sgs a l len n (next k i cur sgs a l len)) →
  prp_pre cap small k i cur sgs a l len (S n) → (i < 512)%nat →
  prp_post small k i cur sgs a l len (S n) (prp_body next k i cur sgs a l len).
Proof.
  intros IH [Hsg Hlen Hn Hsz Hpool Hi Hsm Hbig] Hlt.
  assert (i < length (pl_entries cur))%nat as Hil by (rw Hsz; destruct small; simpl; [specialize (Hsm eq_refl)|]; lia).
  set (cur' := PrpList (pl_ioaddr cur) (<[i := a]> (pl_entries cur))).
  assert (length (pl_entries cur') = pool_entries small) as Hsz' by (by rw /= length_insert).
  rw /prp_body (proj2 (Nat.leb_gt _ _) Hil). fold cur'.
  assert (DIV_ROUND_UP (len - NVME_CTRL_PAGE_SIZE) NVME_CTRL_PAGE_SIZE = Z.of_nat n) as Hn'
    by (rw round_up_step in Hn; lia).
  assert (∀ sgs' a' l', sg_ok sgs' a' l' (len - NVME_CTRL_PAGE_SIZE) → NVME_CTRL_PAGE_SIZE < len →
    prp_pre cap small k (S i) cur' sgs' a' l' (len - NVME_CTRL_PAGE_SIZE) n) as Hpre.
  { intros sgs' a' l' Hok Hgt. split; try done; [lia| |]; intros E; [specialize (Hsm E)|specialize (Hbig E)]; lia. }
  destruct (Z.leb_spec (len - NVME_CTRL_PAGE_SIZE) 0) as [Hend|Hmore].
  - assert (n = 0)%nat as -> by (rw round_up_one // in Hn; lia).
    pose proof Hpool as (p & Hp & Ep). exists BLK_STS_OK, [cur']. split; [done|]. split; [by eapply from_pool_one|].
    split; [by apply free_walk_one|]. split; [done|]. intros mem Hnd Hin.
    rw (sg_entries_last sgs a l len) //; [|lia]. destruct (find_list mem cur') as [j Hj]; [done|by apply Hin, list_elem_of_here|].
    change (length [cur']) with 1%nat. rw read_list_S. simpl in Hj. rw Hj. cbn [mbind option_bind].
    rw (proj2 (Nat.leb_le (i + 1) 512)); [|lia]. by rw Nat.add_1_r take_S_insert.
  - destruct (Z.ltb_spec 0 (l - NVME_CTRL_PAGE_SIZE)) as [Hin|Hout].
    + destruct (sg_entries_inside sgs a l len Hsg ltac:(lia) ltac:(lia)) as (Hok & He & ->).
      eapply prp_post_step; [done|exact He|]. apply IH, Hpre; [done|lia].
    + destruct (sg_entries_next sgs a l len Hsg ltac:(lia) ltac:(lia)) as (-> & sg & sgs' & -> & Hok & He).
      rw Z.sub_diag. cbn [Z.ltb Z.compare]. eapply prp_post_step; [done|exact He|]. apply IH, Hpre; [done|lia].
Qed.

Lemma prp_loop_spec fuel : ∀ cap small k i cur sgs a l len,
  prp_pre cap small k i cur sgs a l len fuel →
  prp_post small k i cur sgs a l len fuel (prp_loop alloc fuel cap small k i cur sgs a l len).
Proof.
  induction fuel as [|fuel IH]; intros cap small k i cur sgs a l len Hpre.
  { destruct Hpre as [_ Hlen Hn _ _ _ _ _]. pose proof (round_up_pos len Hlen). lia. }
  cbn [prp_loop]. destruct (Nat.eqb_spec i 512) as [->|Hne].
  2:{ apply (prp_body_spec _ cap); [intros; by apply IH|done|]. destruct Hpre as [_ _ _ _ _ Hi _ _]. lia. }
  destruct Hpre as [Hsg Hlen Hn Hsz (p & Hp & Ep) Hi Hsm Hbig].
  destruct small; [specialize (Hsm eq_refl); lia|]. specialize (Hbig eq_refl).
  destruct (alloc false (S k)) as [page|] eqn:Ea.
  2:{ exists BLK_STS_RESOURCE, [cur]. split; [done|]. split; [by eapply from_pool_one|].
      split; [by apply free_walk_one|]. split; [done|]. split; [done|]. split; [done|]. by exists (S k). }
  rw (proj2 (Nat.leb_gt cap (S k))); [|lia].
  destruct (lookup_lt_is_Some_2 (pl_entries cur) 511) as [moved Hm]; [rw Hsz /=; lia|]. rw Hm. cbn [mbind option_bind].
  set (page' := PrpList (pl_ioaddr page) (<[0%nat := moved]> (pl_entries page))).
  pose proof (alloc_size _ _ _ Ea) as Hps. simpl in Hps.
  destruct (prp_body_spec (prp_loop alloc fuel cap false) cap false (S k) 1 page' sgs a l len fuel)
    as (st & ls & -> & Hpl & Hf & _ & Hst).
  { intros. by apply IH. }
  { split; try done; [by rw /= length_insert|by exists page|lia|]. intros _. lia. }
  { lia. }
  cbn [mbind option_bind]. set (old := PrpList (pl_ioaddr cur) (<[511%nat:=pl_ioaddr page]> (pl_entries cur))).
  assert (pl_entries old !! 511%nat = Some (pl_ioaddr page)) as Hlink by (apply list_lookup_insert_eq; rw Hsz /=; lia).
  exists st, (old :: ls). split; [done|]. split; [by eapply from_pool_cons|]. split; [|split; [done|]].
  { intros _. cbn [free_walk]. rw Hlink. cbn [mbind option_bind]. specialize (Hf eq_refl). simpl in Hf. rw Hf //. }
  destruct st; [|by destruct Hst as (? & _ & ?)|done]. intros mem Hnd Hin.
  assert (read_list (length ls) 512 mem (pl_ioaddr page) (1 + S fuel) = Some (moved :: sg_entries sgs a l len)) as Hrd.
  { rw (Hst mem Hnd); [|by intros x Hx; apply Hin, list_elem_of_further]. f_equal. simpl. destruct (pl_entries page) eqn:Epg; [done|done]. }
  destruct (find_list mem old) as [j Hj]; [done|by apply Hin, list_elem_of_here|].
  change (length (old :: ls)) with (S (length ls)). rw read_list_S. change (pl_ioaddr cur) with (pl_ioaddr old).
  rw Hj. cbn [mbind option_bind]. rw (proj2 (Nat.leb_gt (512 + S fuel) 512)); [|lia].
  rw (_ : 512 - 1 = 511)%nat // Hlink. cbn [mbind option_bind].
  replace (512 + S fuel - 511)%nat with (1 + S fuel)%nat by lia. rw Hrd. cbn [mbind option_bind]. f_equal.
  rw take_insert_ge // (take_S_r _ 511 moved) // -app_assoc //.
Qed.
End loop.

(** ** A controller finds every byte *)

(** The scatter list of a request of [payload] bytes: elements meet at page
    boundaries, which the block layer guarantees through [virt_boundary]. *)
Definition sgl_ok (sgl : list scatterlist) (payload : Z) : Prop :=
  match sgl with
  | [] => False
  | sg :: sgs =>
    let a := sg_dma_address sg in let l := sg_dma_len sg in
    0 < l ∧ 0 ≤ a ∧ a + l ≤ 2 ^ 64 ∧
    (payload ≤ l ∨
     (NVME_CTRL_PAGE_SIZE | a + l) ∧
     match sgs with
     | [] => False
     | sg :: sgs => sg_ok sgs (sg_dma_address sg) (sg_dma_len sg) (payload - l)
     end)
  end.

(** Entry [k / 4096] and the offset in it. *)
Lemma sg_entries_byte sgs : ∀ a l len k,
  sg_ok sgs a l len → 0 ≤ k < len →
  ∃ e, sg_entries sgs a l len !! Z.to_nat (k / NVME_CTRL_PAGE_SIZE) = Some e ∧
    sg_byte (Sg a l :: sgs) k = Some (e + k mod NVME_CTRL_PAGE_SIZE).
Proof.
  assert (∀ a n k, 0 ≤ k → k / NVME_CTRL_PAGE_SIZE < n → ∃ e,
    chunks a n !! Z.to_nat (k / NVME_CTRL_PAGE_SIZE) = Some e ∧ Some (a + k) = Some (e + k mod NVME_CTRL_PAGE_SIZE)) as Hch.
  { intros a n k Hk Hn. eexists. split; [apply lookup_chunks; split; [apply Z.div_pos; done|done]|].
    f_equal. rw -Z.add_assoc -Z.div_mod //. }
  induction sgs as [|sg sgs IH]; intros a l len k; rw sg_ok_unfold sg_entries_unfold; intros (Hl & _ & _ & Hc) Hk;
    cbn [sg_byte sg_dma_len sg_dma_address].
  - destruct Hc as [Hle|[_ []]]. rw (proj2 (Z.leb_le _ _) Hle) (proj2 (Z.ltb_lt k l)); [|lia].
    apply Hch; [lia|]. rw /DIV_ROUND_UP /NVME_CTRL_PAGE_SIZE. Z.div_mod_to_equations. lia.
  - destruct (Z.leb_spec len l) as [Hle|Hgt].
    + rw (proj2 (Z.ltb_lt k l)); [|lia]. apply Hch; [lia|].
      rw /DIV_ROUND_UP /NVME_CTRL_PAGE_SIZE. Z.div_mod_to_equations. lia.
    + destruct Hc as [?|[[q ->] Hok]]; [lia|]. rw Z_div_mult //.
      assert (length (chunks a q) = Z.to_nat q) as Hlen by (by rw /chunks length_fmap length_seqZ).
      destruct (Z.ltb_spec k (q * NVME_CTRL_PAGE_SIZE)) as [Hin|Hout].
      * assert (k / NVME_CTRL_PAGE_SIZE < q) as Hq by (by apply Z.div_lt_upper_bound; [|rw Z.mul_comm]).
        assert (0 ≤ k / NVME_CTRL_PAGE_SIZE) by (apply Z.div_pos; [lia|done]).
        rw lookup_app_l; [|rw Hlen; lia]. apply Hch; [lia|done].
      * destruct (IH _ _ _ (k - q * NVME_CTRL_PAGE_SIZE) Hok ltac:(lia)) as (e & He & Hb). exists e.
        assert ((k - q * NVME_CTRL_PAGE_SIZE) / NVME_CTRL_PAGE_SIZE = k / NVME_CTRL_PAGE_SIZE - q) as Ed.
        { replace (k - q * NVME_CTRL_PAGE_SIZE) with (k + - q * NVME_CTRL_PAGE_SIZE) by lia. rw Z_div_plus_full //. }
        assert ((k - q * NVME_CTRL_PAGE_SIZE) mod NVME_CTRL_PAGE_SIZE = k mod NVME_CTRL_PAGE_SIZE) as Em.
        { replace (k - q * NVME_CTRL_PAGE_SIZE) with (k + - q * NVME_CTRL_PAGE_SIZE) by lia. by rw Z_mod_plus_full. }
        assert (q ≤ k / NVME_CTRL_PAGE_SIZE) by (apply Z.div_le_lower_bound; [done|lia]).
        assert (0 < q) by (rw /NVME_CTRL_PAGE_SIZE in Hl; lia).
        rw lookup_app_r Hlen; [|lia]. rw Ed in He. rw Em in Hb.
        split; [rw -He; f_equal; lia|]. by destruct sg.
Qed.

Lemma land_page a : Z.land a (NVME_CTRL_PAGE_SIZE - 1) = a mod NVME_CTRL_PAGE_SIZE.
Proof. change (NVME_CTRL_PAGE_SIZE - 1) with (Z.ones 12). by rw Z.land_ones. Qed.

(** What is left after the page of the first pointer. *)
Definition sg_rest (sg : scatterlist) (sgs : list scatterlist) : option (Z * Z * list scatterlist) :=
  let first := NVME_CTRL_PAGE_SIZE - sg_dma_address sg mod NVME_CTRL_PAGE_SIZE in
  let dma_len := sg_dma_len sg - first in
  if negb (dma_len =? 0) then Some (u64 (sg_dma_address sg + first), dma_len, sgs) else
  match sgs with
  | [] => None
  | sg :: sgs => Some (sg_dma_address sg, sg_dma_len sg, sgs)
  end.

Lemma sg_rest_ok sg sgs payload :
  sgl_ok (sg :: sgs) payload →
  let first := NVME_CTRL_PAGE_SIZE - sg_dma_address sg mod NVME_CTRL_PAGE_SIZE in
  first < payload →
  first ≤ sg_dma_len sg ∧
  ∃ a l sgs', sg_rest sg sgs = Some (a, l, sgs') ∧ sg_ok sgs' a l (payload - first) ∧
    ∀ k, first ≤ k → sg_byte (sg :: sgs) k = sg_byte (Sg a l :: sgs') (k - first).
Proof.
  intros (Hl & Ha & Hb & Hc) first Hp. destruct sg as [a l]. cbn [sg_dma_address sg_dma_len] in *.
  pose proof (Z.mod_pos_bound a NVME_CTRL_PAGE_SIZE ltac:(done)) as Hm.
  assert (payload ≤ l ∨ (NVME_CTRL_PAGE_SIZE | l - first)) as Hdiv.
  { destruct Hc as [?|[Hd _]]; [by left|right]. replace (l - first) with ((a + l) - (a + first)) by lia.
    apply Z.divide_sub_r; [done|]. exists (a / NVME_CTRL_PAGE_SIZE + 1).
    rw /first. pose proof (Z.div_mod a NVME_CTRL_PAGE_SIZE ltac:(done)). lia. }
  assert (first ≤ l) as Hfl.
  { destruct Hdiv as [?|[q Hq]]; [lia|]. rw /first in Hq |- *. rw /NVME_CTRL_PAGE_SIZE in Hm Hq |- *.
    assert (0 ≤ q) by nia. lia. }
  split; [done|]. rw /sg_rest. cbn [sg_dma_address sg_dma_len]. fold first.
  destruct (Z.eqb_spec (l - first) 0) as [E|E]; simpl.
  - destruct Hc as [?|[_ Hc]]; [lia|]. destruct sgs as [|[a' l'] sgs]; [done|]. eexists _, _, _. split; [done|].
    assert (first = l) as -> by lia. split; [exact Hc|]. intros k Hk. by rw (proj2 (Z.ltb_ge k l)).
  - assert (u64 (a + first) = a + first) as -> by (rw /u64 Z.mod_small //; lia).
    eexists _, _, _. split; [done|]. split.
    + rw sg_ok_unfold. split_and!; [lia|lia|lia|]. destruct Hc as [?|[_ Hc]]; [left; lia|].
      destruct Hdiv as [?|Hdiv]; [left; lia|right]. split; [done|].
      replace (payload - first - (l - first)) with (payload - l) by lia. done.
    + intros k Hk. simpl. destruct (Z.ltb_spec k l), (Z.ltb_spec (k - first) (l - first)); try lia; [f_equal; lia|].
      f_equal. lia.
Qed.

(** Bytes on the page of the first pointer. *)
Lemma sg_byte_first sg sgs payload k :
  sgl_ok (sg :: sgs) payload → 0 ≤ k < payload →
  k < NVME_CTRL_PAGE_SIZE - sg_dma_address sg mod NVME_CTRL_PAGE_SIZE →
  sg_byte (sg :: sgs) k = Some (sg_dma_address sg + k).
Proof.
  intros Hok Hk Hf. cbn [sg_byte]. rw (proj2 (Z.ltb_lt _ _)) //.
  destruct (Z.lt_ge_cases (NVME_CTRL_PAGE_SIZE - sg_dma_address sg mod NVME_CTRL_PAGE_SIZE) payload) as [Hp|Hp].
  - destruct (sg_rest_ok sg sgs payload Hok Hp) as [? _]. lia.
  - destruct Hok as (Hl & _ & _ & [?|[[q Hq] _]]); [lia|].
    rw /NVME_CTRL_PAGE_SIZE in Hf Hq Hp |- *. Z.div_mod_to_equations. lia.
Qed.

(** When the entries a controller reads are those of the rest of the scatter
    list, it finds every byte. *)
Lemma prp_byte_found mem sg sgs prp2 payload a l sgs' k :
  let first := NVME_CTRL_PAGE_SIZE - sg_dma_address sg mod NVME_CTRL_PAGE_SIZE in
  sgl_ok (sg :: sgs) payload → sg_rest sg sgs = Some (a, l, sgs') → first < payload →
  prp_entries mem prp2 (payload - first) = Some (sg_entries sgs' a l (payload - first)) → 0 ≤ k < payload →
  ∃ b, sg_byte (sg :: sgs) k = Some b ∧ prp_byte mem (sg_dma_address sg, prp2) payload k = Some b.
Proof.
  intros first Hok Hr Hp He Hk. rw /prp_byte. cbn [fst snd]. fold first.
  destruct (Z.ltb_spec k first) as [Hf|Hf]; [eexists; split; [by eapply sg_byte_first|done]|].
  destruct (sg_rest_ok sg sgs payload Hok Hp) as (_ & a' & l' & sgs'' & Hr' & Hsg & Hb). rw Hr in Hr'. injection Hr' as <- <- <-.
  destruct (sg_entries_byte sgs' a l (payload - first) (k - first) Hsg ltac:(lia)) as (e & Hle & Heb).
  rw He. cbn [mbind option_bind]. rw Hle. cbn [mbind option_bind]. eexists. split; [|done]. rw Hb //.
Qed.

(** ** The whole routine *)

(** What a DMA pool promises: pages of its size, no two at the same address. *)
Record pool_ok (alloc : bool → nat → option prp_list) : Prop := {
  pool_size : ∀ small j p, alloc small j = Some p → length (pl_entries p) = pool_entries small;
  pool_distinct : ∀ small j j' p p', alloc small j = Some p → alloc small j' = Some p' →
    pl_ioaddr p = pl_ioaddr p' → j = j';
}.

Lemma from_pool_NoDup alloc small k ls : pool_ok alloc → from_pool alloc small k ls → NoDup (pl_ioaddr <$> ls).
Proof.
  intros [_ Hd] Hf. apply NoDup_alt. intros i j a Hi Hj.
  apply list_lookup_fmap_Some in Hi as (x & -> & Hx). apply list_lookup_fmap_Some in Hj as (y & E & Hy).
  destruct (Hf i x Hx) as (p & Hp & Ep). destruct (Hf j y Hy) as (p' & Hp' & Ep').
  pose proof (Hd small _ _ _ _ Hp Hp' ltac:(congruence)). lia.
Qed.

(** What [nvme_pci_setup_prps] must give for a request: pointers and list pages
    through which a controller finds every byte where the scatter list has it,
    and which [nvme_free_prps] gives back page by page; or no memory, with every
    page that was taken given back. *)
Definition prps_good (alloc : bool → nat → option prp_list) (sgl : list scatterlist) (payload : Z)
    (r : option (blk_status * nvme_iod * option (Z * Z) * list Z)) : Prop :=
  match r with
  | Some (BLK_STS_OK, iod, Some prps, []) =>
    (∀ k, 0 ≤ k < payload → ∃ b, sg_byte sgl k = Some b ∧ prp_byte (iod_list iod) prps payload k = Some b) ∧
    (0 < iod_npages iod → nvme_free_prps iod = Some (pl_ioaddr <$> iod_list iod)) ∧
    (iod_npages iod = 0 → pl_ioaddr <$> iod_list iod = [iod_first_dma iod]) ∧
    (iod_npages iod < 0 → iod_list iod = [])
  | Some (BLK_STS_RESOURCE, iod, None, freed) =>
    (∃ small j, alloc small j = None) ∧ iod_npages iod ≠ 0 ∧ freed = pl_ioaddr <$> iod_list iod
  | _ => False
  end.

Lemma prp_byte_single mem sg sgs payload k :
  sgl_ok (sg :: sgs) payload → payload ≤ NVME_CTRL_PAGE_SIZE - sg_dma_address sg mod NVME_CTRL_PAGE_SIZE →
  0 ≤ k < payload →
  ∃ b, sg_byte (sg :: sgs) k = Some b ∧ prp_byte mem (sg_dma_address sg, 0) payload k = Some b.
Proof.
  intros Hok Hp Hk. eexists. split; [eapply sg_byte_first; [done|done|lia]|].
  rw /prp_byte. cbn [fst snd]. rw (proj2 (Z.ltb_lt _ _)) //. lia.
Qed.

(** The part of the routine that uses list pages. *)
Lemma setup_lists_good alloc cap sg sgs payload a l sgs' :
  let first := NVME_CTRL_PAGE_SIZE - sg_dma_address sg mod NVME_CTRL_PAGE_SIZE in
  let len := payload - first in
  let nprps := DIV_ROUND_UP len NVME_CTRL_PAGE_SIZE in
  let small := nprps <=? 256 / 8 in
  pool_ok alloc → sgl_ok (sg :: sgs) payload → sg_rest sg sgs = Some (a, l, sgs') → NVME_CTRL_PAGE_SIZE < len →
  (0 < cap)%nat → nprps ≤ 512 + 511 * (Z.of_nat cap - 1) →
  prps_good alloc (sg :: sgs) payload
    match alloc small 0%nat with
    | None => Some (BLK_STS_RESOURCE, NvmeIod (-1) a [], None, [])
    | Some page =>
      if (cap <=? 0)%nat then None else
      '(st, ls) ← prp_loop alloc (Z.to_nat nprps) cap small 0 0 page sgs' a l len;
      let iod := NvmeIod (if small then Z.of_nat (length ls) - 1 else Z.of_nat (length ls)) (pl_ioaddr page) ls in
      match st with
      | BLK_STS_OK => Some (BLK_STS_OK, iod, Some (sg_dma_address sg, pl_ioaddr page), [])
      | BLK_STS_RESOURCE => freed ← nvme_free_prps iod; Some (BLK_STS_RESOURCE, iod, None, freed)
      | BLK_STS_IOERR => Some (BLK_STS_IOERR, iod, None, [])
      end
    end.
Proof.
  intros first len nprps small Hpool Hok Hr Hlen Hcap Hn.
  assert (0 < len) as Hpos by (rw /NVME_CTRL_PAGE_SIZE in Hlen; lia).
  destruct (alloc small 0%nat) as [page|] eqn:Ea; [|split; [by exists small, 0%nat|done]].
  rw (proj2 (Nat.leb_gt cap 0) Hcap). pose proof (round_up_pos len Hpos) as Hnp. fold nprps in Hnp.
  destruct (sg_rest_ok sg sgs payload Hok ltac:(fold first; lia)) as (_ & a' & l' & sgs'' & Hr' & Hsg & _).
  rw Hr in Hr'. injection Hr' as <- <- <-. fold first len in Hsg.
  destruct (prp_loop_spec alloc (pool_size _ Hpool) (Z.to_nat nprps) cap small 0 0 page sgs' a l len)
    as (st & ls & -> & Hfp & Hfree & H1 & Hst).
  { split; try done; [by rw Z2Nat.id; [|lia]|by eapply pool_size|by exists page|lia| |].
    - rw /small. intros E%Z.leb_le. change (256 / 8) with 32 in E. lia.
    - intros _. lia. }
  cbn [mbind option_bind]. set (iod := NvmeIod _ _ ls).
  assert (nvme_free_prps iod = Some (if small then [] else pl_ioaddr <$> ls) ∧
    (small = true → iod_npages iod = 0)) as [Hfr H0].
  { rw /nvme_free_prps /iod /=. destruct small; [rw H1 //|]. split; [|done]. rw Nat2Z.id firstn_all. by apply Hfree. }
  destruct st; [| |done].
  - split_and!.
    + intros k Hk. eapply prp_byte_found; [done|exact Hr|fold first; lia| |done].
      rw /prp_entries. fold first len. rw (proj2 (Z.leb_gt _ _) Hpos) (proj2 (Z.leb_gt _ _) Hlen).
      apply Hst; [by eapply from_pool_NoDup|done].
    + intros Hnp'. rw Hfr. destruct small; [rw H0 // in Hnp'|done].
    + rw /iod /=. destruct small; [|destruct ls; [by specialize (Hst [] (NoDup_nil_2) ltac:(done))|done]].
      intros _. specialize (H1 eq_refl). destruct ls as [|x [|]]; try done. simpl. f_equal.
      destruct (Hfp 0%nat x eq_refl) as (p & Hp & ->). simpl in Hp. congruence.
    + rw /iod /=. destruct small; [rw H1 //|lia].
  - rw Hfr. cbn [mbind option_bind]. destruct Hst as (Es & Hne & j & Hj). split; [by exists small, j|].
    rw Es. split; [|done]. rw /iod /= Es. destruct ls; [done|simpl; lia].
Qed.

(** A request whose scatter list meets at page boundaries, and whose list
    pages can be stored, either fails because the pool has no memory, with every
    list page it took given back, or gets pointers through which a controller
    finds each of its bytes at the address the scatter list has for it; and the
    walk that frees the list pages later gives back each of them. *)
Lemma setup_prps_good alloc cap sgl payload first_dma :
  pool_ok alloc → sgl_ok sgl payload → 0 < payload → (0 < cap)%nat →
  payload ≤ (512 + 511 * (Z.of_nat cap - 1)) * NVME_CTRL_PAGE_SIZE →
  prps_good alloc sgl payload (nvme_pci_setup_prps alloc cap sgl payload (NvmeIod (-1) first_dma [])).
Proof.
  intros Hpool Hok Hpay Hcap Hroom. destruct sgl as [|sg sgs]; [done|]. rw /nvme_pci_setup_prps land_page.
  set (first := NVME_CTRL_PAGE_SIZE - sg_dma_address sg mod NVME_CTRL_PAGE_SIZE).
  pose proof (Z.mod_pos_bound (sg_dma_address sg) NVME_CTRL_PAGE_SIZE ltac:(done)) as Hm.
  destruct (Z.leb_spec (payload - first) 0) as [H0|H0].
  { split; [intros k Hk; apply prp_byte_single; [done|fold first; lia|done]|done]. }
  destruct (sg_rest_ok sg sgs payload Hok ltac:(fold first; lia)) as (_ & a & l & sgs' & Hr & Hsg & _).
  pose proof Hr as Hr'. rw /sg_rest in Hr'. fold first in Hr'. rw Hr'. cbn [mbind option_bind].
  destruct (Z.leb_spec (payload - first) NVME_CTRL_PAGE_SIZE) as [H1|H1].
  - split; [|done]. intros k Hk. eapply prp_byte_found; [done|exact Hr|fold first; lia| |done].
    fold first in Hsg |- *. rw /prp_entries (proj2 (Z.leb_gt _ _) H0) (proj2 (Z.leb_le _ _) H1) sg_entries_last //.
  - apply setup_lists_good; try done. fold first.
    rw /DIV_ROUND_UP /first /NVME_CTRL_PAGE_SIZE in Hm Hroom H1 |- *. Z.div_mod_to_equations. lia.
Qed.

(** A scatter list of [payload] bytes has each of them. *)
Lemma sg_ok_byte sgs : ∀ a l len k, sg_ok sgs a l len → 0 ≤ k < len → is_Some (sg_byte (Sg a l :: sgs) k).
Proof. intros a l len k Hok Hk. destruct (sg_entries_byte sgs a l len k Hok Hk) as (e & _ & ->). done. Qed.
Lemma sgl_byte_total sgl payload k : sgl_ok sgl payload → 0 ≤ k < payload → is_Some (sg_byte sgl k).
Proof.
  destruct sgl as [|sg sgs]; [done|]. intros (Hl & _ & _ & Hc) Hk. cbn [sg_byte].
  destruct (Z.ltb_spec k (sg_dma_len sg)); [done|]. destruct Hc as [?|[_ Hc]]; [lia|].
  destruct sgs as [|[a l] sgs]; [done|]. apply (sg_ok_byte sgs a l (payload - sg_dma_len sg)); [done|lia].
Qed.
