(* ===== verification/KernelMap.v ===== *)
(** * Mapping the data of a request (pci.c)

    [nvme_map_data] and [nvme_unmap_data]: the four ways a command points to its
    data, and everything they acquire and release on the way.  What the block
    layer, the DMA API and the memory pools answer is part of the request. *)
From S2P Require Import Prelude UserQueue UserCmd KernelPrp.

(** ** Scatter-gather lists *)

Record nvme_sgl_desc := SglDesc { sge_addr : Z; sge_length : Z; sge_type : Z }.
Definition NVME_SGL_FMT_DATA_DESC : Z := 0.
Definition NVME_SGL_FMT_SEG_DESC : Z := 2.
Definition NVME_SGL_FMT_LAST_SEG_DESC : Z := 3.
Definition SGES_PER_PAGE : Z := PAGE_SIZE / 16.

(** A page of descriptors and its bus address. *)
Record sgl_page := SglPage { sp_addr : Z; sp_descs : list nvme_sgl_desc }.

Definition nvme_pci_sgl_set_data (sg : scatterlist) : nvme_sgl_desc :=
  SglDesc (sg_dma_address sg) (u32 (sg_dma_len sg)) (Z.shiftl NVME_SGL_FMT_DATA_DESC 4).
Definition nvme_pci_sgl_set_seg (dma_addr entries : Z) : nvme_sgl_desc :=
  if entries <? SGES_PER_PAGE then SglDesc dma_addr (u32 (entries * 16)) (Z.shiftl NVME_SGL_FMT_LAST_SEG_DESC 4)
  else SglDesc dma_addr PAGE_SIZE (Z.shiftl NVME_SGL_FMT_SEG_DESC 4).

Section setup.
Variable alloc : bool → nat → option prp_list.
Variable salloc : bool → nat → option sgl_page.

(** The loop, as for PRP lists: [entries] descriptors are left to write. *)
Definition sgl_body (next : nat → nat → sgl_page → list scatterlist → Z → option (blk_status * list sgl_page))
    (k i : nat) (cur : sgl_page) (sgs : list scatterlist) (entries : Z) : option (blk_status * list sgl_page) :=
  if (length (sp_descs cur) <=? i)%nat then None else
  match sgs with
  | [] => None
  | sg :: sgs =>
    let cur := SglPage (sp_addr cur) (<[i := nvme_pci_sgl_set_data sg]> (sp_descs cur)) in
    if 0 <? entries - 1 then next k (S i) cur sgs (entries - 1) else Some (BLK_STS_OK, [cur])
  end.
Fixpoint sgl_loop (fuel cap : nat) (small : bool) (k i : nat) (cur : sgl_page) (sgs : list scatterlist)
    (entries : Z) : option (blk_status * list sgl_page) :=
  match fuel with
  | O => None
  | S fuel =>
    if Z.of_nat i =? SGES_PER_PAGE then
      match salloc small (S k) with
      | None => Some (BLK_STS_RESOURCE, [cur])
      | Some page =>
        if (cap <=? S k)%nat then None else
        link ← sp_descs cur !! (i - 1)%nat;
        let old := SglPage (sp_addr cur) (<[(i - 1)%nat := nvme_pci_sgl_set_seg (sp_addr page) entries]> (sp_descs cur)) in
        '(st, ls) ← sgl_body (sgl_loop fuel cap small) (S k) 1
          (SglPage (sp_addr page) (<[0%nat := link]> (sp_descs page))) sgs entries;
        Some (st, old :: ls)
      end
    else sgl_body (sgl_loop fuel cap small) k i cur sgs entries
  end.

Fixpoint sgl_free_walk (dma_addr : Z) (ls : list sgl_page) : option (list Z) :=
  match ls with
  | [] => Some []
  | l :: ls =>
    next ← sp_descs l !! 255%nat;
    rest ← sgl_free_walk (sge_addr next) ls;
    Some (dma_addr :: rest)
  end.

(** The data pointer of a command; the second form also sets the flag
    [NVME_CMD_SGL_METABUF] of the command. *)
Inductive dptr := DptrPrp (prp1 prp2 : Z) | DptrSgl (sgl : nvme_sgl_desc).

(** The iod of a request after mapping. *)
Record iod_map := IodMap {
  im_npages : Z;
  im_first_dma : Z;
  im_dma_len : Z;
  im_nents : Z;
  im_p2p : bool;
  im_use_sgl : bool;
  im_prps : list prp_list;
  im_sgls : list sgl_page;
}.

Definition nvme_free_sgls (m : iod_map) : option (list Z) :=
  sgl_free_walk (im_first_dma m) (take (Z.to_nat (im_npages m)) (im_sgls m)).

(** The status, the number of pages, the first address, the pages and the
    descriptor, and the pages freed. *)
Definition nvme_pci_setup_sgls (cap : nat) (sgl : list scatterlist) (entries npages first_dma : Z) :
    option (blk_status * Z * Z * list sgl_page * option nvme_sgl_desc * list Z) :=
  if entries =? 1 then
    sg ← head sgl; Some (BLK_STS_OK, npages, first_dma, [], Some (nvme_pci_sgl_set_data sg), [])
  else
  let small := entries <=? 256 / 16 in
  match salloc small 0%nat with
  | None => Some (BLK_STS_RESOURCE, -1, first_dma, [], None, [])
  | Some page =>
    if (cap <=? 0)%nat then None else
    '(st, ls) ← sgl_loop (Z.to_nat entries) cap small 0 0 page sgl entries;
    let npages := if small then Z.of_nat (length ls) - 1 else Z.of_nat (length ls) in
    match st with
    | BLK_STS_RESOURCE =>
      freed ← sgl_free_walk (sp_addr page) (take (Z.to_nat npages) ls);
      Some (BLK_STS_RESOURCE, npages, sp_addr page, ls, None, freed)
    | _ => Some (st, npages, sp_addr page, ls, Some (nvme_pci_sgl_set_seg (sp_addr page) entries), [])
    end
  end.

(** ** Requests *)

(** What the layers below answer for one request.  [r_bv_dma] is the result of
    [dma_map_bvec], [None] for a mapping error; [r_mapped] the elements that
    [dma_map_sg_attrs] or [pci_p2pdma_map_sg_attrs] returns, none on failure. *)
Record request := Request {
  r_nseg : Z;
  r_payload : Z;
  r_bv_offset : Z;
  r_bv_len : Z;
  r_bv_p2p : bool;
  r_bv_dma : option Z;
  r_mempool : bool;
  r_nents : Z;
  r_p2p : bool;
  r_mapped : list scatterlist;
}.

Inductive dma_event :=
| EvMapPage (addr len : Z) | EvUnmapPage (addr len : Z)
| EvMapSg (p2p : bool) (nents : Z) | EvUnmapSg (p2p : bool) (nents : Z)
| EvIodAlloc | EvIodFree
| EvPoolAlloc (small : bool) (addr : Z) | EvPoolFree (small : bool) (addr : Z).

Variables (sgl_supported : bool) (sgl_threshold qid : Z).

Definition nvme_pci_use_sgls (rq : request) : bool :=
  let avg_seg_size := DIV_ROUND_UP (r_payload rq) (r_nseg rq) in
  sgl_supported && negb (qid =? 0) && negb ((sgl_threshold =? 0) || (avg_seg_size <? sgl_threshold)).

Definition mapping_result := (blk_status * iod_map * option dptr * list dma_event)%type.

(** [prp2] is what the field held before. *)
Definition nvme_setup_prp_simple (rq : request) (m : iod_map) (prp2 : Z) : mapping_result :=
  let offset := Z.land (r_bv_offset rq) (NVME_CTRL_PAGE_SIZE - 1) in
  let first_prp_len := NVME_CTRL_PAGE_SIZE - offset in
  match r_bv_dma rq with
  | None => (BLK_STS_RESOURCE, m, None, [])
  | Some dma =>
    (BLK_STS_OK, IodMap (im_npages m) dma (r_bv_len rq) (im_nents m) (im_p2p m) (im_use_sgl m) (im_prps m) (im_sgls m),
     Some (DptrPrp dma (if first_prp_len <? r_bv_len rq then u64 (dma + first_prp_len) else prp2)),
     [EvMapPage dma (r_bv_len rq)])
  end.

Definition nvme_setup_sgl_simple (rq : request) (m : iod_map) : mapping_result :=
  match r_bv_dma rq with
  | None => (BLK_STS_RESOURCE, m, None, [])
  | Some dma =>
    (BLK_STS_OK, IodMap (im_npages m) dma (r_bv_len rq) (im_nents m) (im_p2p m) (im_use_sgl m) (im_prps m) (im_sgls m),
     Some (DptrSgl (SglDesc dma (u32 (r_bv_len rq)) (Z.shiftl NVME_SGL_FMT_DATA_DESC 4))),
     [EvMapPage dma (r_bv_len rq)])
  end.

(** The two list forms, with the pages taken from and given back to the pools. *)
Definition map_with_sgls (cap : nat) (rq : request) (m : iod_map) : option mapping_result :=
  match nvme_pci_setup_sgls cap (r_mapped rq) (Z.of_nat (length (r_mapped rq))) (im_npages m) (im_first_dma m) with
  | None => None
  | Some (st, npages, first_dma, ls, d, freed) =>
    Some (st, IodMap npages first_dma 0 (r_nents rq) (r_p2p rq) true [] ls, DptrSgl <$> d,
          ((λ p, EvPoolAlloc (npages =? 0) (sp_addr p)) <$> ls) ++ (EvPoolFree false <$> freed))
  end.
Definition map_with_prps (cap : nat) (rq : request) (m : iod_map) : option mapping_result :=
  match nvme_pci_setup_prps alloc cap (r_mapped rq) (r_payload rq) (NvmeIod (im_npages m) (im_first_dma m) []) with
  | None => None
  | Some (st, iod, d, freed) =>
    Some (st, IodMap (iod_npages iod) (iod_first_dma iod) 0 (r_nents rq) (r_p2p rq) false (iod_list iod) [],
          (λ '(p1, p2), DptrPrp p1 p2) <$> d,
          ((λ p, EvPoolAlloc (iod_npages iod =? 0) (pl_ioaddr p)) <$> iod_list iod) ++ (EvPoolFree false <$> freed))
  end.

Definition map_sg (cap : nat) (rq : request) (m : iod_map) : option mapping_result :=
  if negb (r_mempool rq) then
    Some (BLK_STS_RESOURCE, m, None, [])
  else if r_nents rq =? 0 then
    Some (BLK_STS_RESOURCE, m, None, [EvIodAlloc; EvIodFree])
  else
  let nr_mapped := Z.of_nat (length (r_mapped rq)) in
  if nr_mapped =? 0 then Some (BLK_STS_RESOURCE, m, None, [EvIodAlloc; EvIodFree]) else
  r ← (if nvme_pci_use_sgls rq then map_with_sgls cap rq m else map_with_prps cap rq m);
  let '(st, m, d, evs) := r in
  let evs := EvIodAlloc :: EvMapSg (r_p2p rq) (r_nents rq) :: evs in
  match st with
  | BLK_STS_OK => Some (BLK_STS_OK, m, d, evs)
  | _ => Some (st, m, None, evs ++ [EvUnmapSg (r_p2p rq) (r_nents rq); EvIodFree])
  end.

(** [nvme_queue_rq] has set [npages] to -1 and [nents] to 0. *)
Definition nvme_map_data (rq : request) (first_dma prp2 : Z) : option mapping_result :=
  let m := IodMap (-1) first_dma 0 0 false false [] [] in
  if (r_nseg rq =? 1) && negb (r_bv_p2p rq) && (r_bv_offset rq + r_bv_len rq <=? NVME_CTRL_PAGE_SIZE * 2) then
    Some (nvme_setup_prp_simple rq m prp2)
  else if (r_nseg rq =? 1) && negb (r_bv_p2p rq) && negb (qid =? 0) && negb (sgl_threshold =? 0) && sgl_supported then
    Some (nvme_setup_sgl_simple rq m)
  else map_sg (iod_list_room (r_nseg rq)) rq m.

Definition nvme_unmap_data (m : iod_map) : option (list dma_event) :=
  if c_true (im_dma_len m) then Some [EvUnmapPage (im_first_dma m) (im_dma_len m)] else
  freed ← (if im_npages m =? 0 then Some [EvPoolFree true (im_first_dma m)]
           else if im_use_sgl m then fmap (EvPoolFree false) <$> nvme_free_sgls m
           else fmap (EvPoolFree false) <$>
             nvme_free_prps (NvmeIod (im_npages m) (im_first_dma m) (im_prps m)));
  Some (EvUnmapSg (im_p2p m) (im_nents m) :: freed ++ [EvIodFree]).
End setup.

(** ** What a controller reads *)

(** The descriptors behind the one in a command: itself, or those of the last
    segment it points to. *)
Definition sgl_descs (mem : list sgl_page) (d : nvme_sgl_desc) : option (list nvme_sgl_desc) :=
  if sge_type d =? Z.shiftl NVME_SGL_FMT_DATA_DESC 4 then Some [d] else
  if sge_type d =? Z.shiftl NVME_SGL_FMT_LAST_SEG_DESC 4 then
    '(_, p) ← list_find (λ p, sp_addr p = sge_addr d) mem;
    Some (take (Z.to_nat (sge_length d / 16)) (sp_descs p))
  else None.
Fixpoint desc_byte (ds : list nvme_sgl_desc) (k : Z) : option Z :=
  match ds with
  | [] => None
  | d :: ds => if k <? sge_length d then Some (sge_addr d + k) else desc_byte ds (k - sge_length d)
  end.

(** The bus address of byte [k] of the data of a command. *)
Definition dptr_byte (m : iod_map) (d : dptr) (payload k : Z) : option Z :=
  match d with
  | DptrPrp prp1 prp2 => prp_byte (im_prps m) (prp1, prp2) payload k
  | DptrSgl d => ds ← sgl_descs (im_sgls m) d; desc_byte ds k
  end.

Lemma desc_byte_data sgs k :
  Forall (λ sg, 0 < sg_dma_len sg < 2 ^ 32) sgs → desc_byte (nvme_pci_sgl_set_data <$> sgs) k = sg_byte sgs k.
Proof.
  intros Hl. revert k. induction Hl as [|sg sgs Hsg _ IH]; intros k; [done|]. cbn. rw u32_id; [|lia].
  by rw IH.
Qed.

(** ** Lists of descriptors that fit one page *)

Section loop.
Variable salloc : bool → nat → option sgl_page.

Lemma sgl_loop_page cap small k sgs : ∀ i cur,
  sgs ≠ [] → (i + length sgs ≤ length (sp_descs cur))%nat → Z.of_nat (i + length sgs) < SGES_PER_PAGE →
  sgl_loop salloc (length sgs) cap small k i cur sgs (Z.of_nat (length sgs)) =
  Some (BLK_STS_OK, [SglPage (sp_addr cur)
    (take i (sp_descs cur) ++ (nvme_pci_sgl_set_data <$> sgs) ++ drop (i + length sgs) (sp_descs cur))]).
Proof.
  induction sgs as [|sg sgs IH]; intros i cur Hne Hlen Hpg; [done|]. cbn [length] in Hlen, Hpg |- *.
  cbn [sgl_loop]. destruct (Z.eqb_spec (Z.of_nat i) SGES_PER_PAGE); [lia|].
  rw /sgl_body (proj2 (Nat.leb_gt _ i)); [|lia].
  set (d := nvme_pci_sgl_set_data sg). set (cur' := SglPage (sp_addr cur) (<[i := d]> (sp_descs cur))).
  assert (take (S i) (sp_descs cur') = take i (sp_descs cur) ++ [d]) as Ht by (apply take_S_insert; lia).
  assert (∀ n, (i < n)%nat → drop n (sp_descs cur') = drop n (sp_descs cur)) as Hd.
  { intros j Hj. simpl. by rw drop_insert_lt. }
  destruct sgs as [|sg' sgs].
  - cbn [length fmap list_fmap Z.of_nat Z.sub Z.ltb Z.compare Pos.of_succ_nat]. do 3 f_equal.
    rw -(Hd (i + 1)%nat); [|lia]. rw Nat.add_1_r app_assoc -Ht take_drop //.
  - rw (proj2 (Z.ltb_lt 0 _)); [|cbn [length]; lia].
    replace (Z.of_nat (S (length (sg' :: sgs))) - 1) with (Z.of_nat (length (sg' :: sgs))) by lia.
    rw IH; [|done|rw /= length_insert; cbn [length] in *; lia|cbn [length] in *; lia].
    rw Ht Hd; [|cbn [length]; lia]. do 4 f_equal. rw -app_assoc. cbn [length] in *. rw (Nat.add_succ_r i) //.
Qed.
End loop.

(** The pool's pages of descriptors. *)
Definition spool_ok (salloc : bool → nat → option sgl_page) : Prop :=
  ∀ small j p, salloc small j = Some p → length (sp_descs p) = if small then 16%nat else 256%nat.

Definition sgls_good (sgl : list scatterlist)
    (r : option (blk_status * Z * Z * list sgl_page * option nvme_sgl_desc * list Z)) : Prop :=
  match r with
  | Some (BLK_STS_OK, npages, first_dma, ls, Some d, []) =>
    sgl_descs ls d = Some (nvme_pci_sgl_set_data <$> sgl) ∧
    (0 < npages → sgl_free_walk first_dma (take (Z.to_nat npages) ls) = Some (sp_addr <$> ls)) ∧
    (npages = 0 → sp_addr <$> ls = [first_dma]) ∧ (npages < 0 → ls = [])
  | Some (BLK_STS_RESOURCE, npages, _, ls, None, freed) => npages ≠ 0 ∧ freed = sp_addr <$> ls
  | _ => False
  end.

Lemma setup_sgls_good salloc cap sgl first_dma :
  spool_ok salloc → sgl ≠ [] → Z.of_nat (length sgl) < SGES_PER_PAGE → (0 < cap)%nat →
  sgls_good sgl (nvme_pci_setup_sgls salloc cap sgl (Z.of_nat (length sgl)) (-1) first_dma).
Proof.
  intros Hsp Hne Hlen Hcap. rw /nvme_pci_setup_sgls. set (n := Z.of_nat (length sgl)) in *.
  destruct (Z.eqb_spec n 1) as [E|E].
  { destruct sgl as [|sg [|]]; [done| |cbn [length] in n; lia]. simpl. split; [done|]. split_and!; done || lia. }
  set (small := n <=? 256 / 16). destruct (salloc small 0%nat) as [page|] eqn:Ea; [|done].
  rw (proj2 (Nat.leb_gt cap 0) Hcap). pose proof (Hsp _ _ _ Ea) as Hpg.
  assert (length sgl ≤ length (sp_descs page))%nat as Hfit.
  { rw Hpg. destruct small eqn:Es; [apply Z.leb_le in Es; change (256 / 16) with 16 in Es; lia|].
    change SGES_PER_PAGE with 256 in Hlen. lia. }
  rw /n Nat2Z.id sgl_loop_page //. cbn [mbind option_bind]. set (page' := SglPage _ _).
  rw /nvme_pci_sgl_set_seg (proj2 (Z.ltb_lt _ _) Hlen). change SGES_PER_PAGE with 256 in Hlen.
  split; [|destruct small eqn:Es; simpl].
  - rw /sgl_descs /= decide_True //. cbn [mbind option_bind fmap option_fmap option_map snd].
    fold n. rw u32_id; [|lia]. rw Z_div_mult // /n Nat2Z.id. f_equal.
    rw /page' /= take_app_length' // length_fmap //.
  - split_and!; done || lia.
  - destruct (lookup_lt_is_Some_2 (sp_descs page') 255) as [x Hx].
    { rw /page' /= length_app length_fmap length_drop Hpg. lia. }
    simpl in Hx. rw Hx. split_and!; done || lia.
Qed.

(** ** Acquiring and releasing *)

Inductive resource := RPage (addr len : Z) | RSg (p2p : bool) (nents : Z) | RIod | RPool (small : bool) (addr : Z).
Definition acquired (e : dma_event) : option resource :=
  match e with
  | EvMapPage a l => Some (RPage a l)
  | EvMapSg p n => Some (RSg p n)
  | EvIodAlloc => Some RIod
  | EvPoolAlloc s a => Some (RPool s a)
  | _ => None
  end.
Definition released (e : dma_event) : option resource :=
  match e with
  | EvUnmapPage a l => Some (RPage a l)
  | EvUnmapSg p n => Some (RSg p n)
  | EvIodFree => Some RIod
  | EvPoolFree s a => Some (RPool s a)
  | _ => None
  end.
Definition balanced (es : list dma_event) : Prop := omap acquired es ≡ₚ omap released es.

Lemma balanced_nil : balanced [].
Proof. by rw /balanced. Qed.
Lemma balanced_iod : balanced [EvIodAlloc; EvIodFree].
Proof. by rw /balanced. Qed.

Lemma acquired_pool s (l : list Z) :
  omap acquired (EvPoolAlloc s <$> l) = RPool s <$> l ∧ omap released (EvPoolAlloc s <$> l) = [] ∧
  omap released (EvPoolFree s <$> l) = RPool s <$> l ∧ omap acquired (EvPoolFree s <$> l) = [].
Proof. induction l as [|a l (IH1 & IH2 & IH3 & IH4)]; [done|]. cbn. rw IH1 IH2 IH3 IH4. done. Qed.

(** A list form: taken, used and given back, in either order of events. *)
Lemma balanced_lists s p n addrs :
  balanced (EvIodAlloc :: EvMapSg p n :: (EvPoolAlloc s <$> addrs) ++
    EvUnmapSg p n :: (EvPoolFree s <$> addrs) ++ [EvIodFree]) ∧
  balanced (EvIodAlloc :: EvMapSg p n :: ((EvPoolAlloc s <$> addrs) ++ (EvPoolFree s <$> addrs)) ++
    [EvUnmapSg p n; EvIodFree]).
Proof.
  destruct (acquired_pool s addrs) as (E1 & E2 & E3 & E4). rw /balanced.
  split; cbn; rw ?omap_app; cbn; rw ?omap_app E1 E2 E3 E4 /= ?app_nil_r; etrans; try apply Permutation_swap.
  - apply Permutation_skip, Permutation_cons_append.
  - apply (Permutation_app_comm [RSg p n; RIod]).
Qed.
