(* ===== verification/IoQueues.v ===== *)
(** * Setting up the I/O queues (pci.c)

    [s_nvme_setup_io_queues] negotiates the number of queues with the controller,
    divides them between the kernel and user processes, and creates the kernel's:
    what is left, [online_queues .. ctrl_max_io_queues], is the pool of user queue
    ids.  The state is the part of [struct nvme_dev] the routine uses; answers of
    the controller, of the interrupt, memory and locking layers come from an
    environment and may differ from call to call. *)
From S2P Require Import Prelude.

(** The commands that create and delete queues, as they are sent. *)
Inductive queue_cmd := CmdCreateCq (qid : Z) | CmdCreateSq (qid : Z) | CmdDeleteSq (qid : Z) | CmdDeleteCq (qid : Z).

Record ioq := Ioq {
  i_nr_allocated_queues : Z;
  i_queues_len : Z;                (* entries of [dev->queues] *)
  i_use_user_allocated : bool;
  i_nr_user_allocated_cq : Z;
  i_nr_user_allocated_sq : Z;
  i_nr_user_use_cq : Z;
  i_nr_user_use_sq : Z;
  i_cap_kernel_ioq : Z;
  i_nr_write_queues : Z;
  i_nr_poll_queues : Z;
  i_ctrl_max_io_queues : Z;
  i_q_depth : Z;
  i_cmb_use_sqes : bool;
  i_cmb_size : Z;
  i_default : Z;                   (* [io_queues[HCTX_TYPE_*]] *)
  i_read : Z;
  i_poll : Z;
  i_num_vecs : Z;
  i_max_qid : Z;
  i_online_queues : Z;
  i_queue_count : Z;
  i_online_user_queues : Z;
  i_user_start_qid : Z;
  i_bar_mapped_size : Z;
  i_db_stride : Z;
  i_lock : bool;                   (* this thread holds [shutdown_lock] *)
  i_enabled : gset Z;              (* queues with NVMEQ_ENABLED *)
  i_polled : gset Z;               (* queues with NVMEQ_POLLED *)
  i_vector : gmap Z Z;             (* [cq_vector] *)
  i_log : list queue_cmd;
  i_tick : nat;
}.
#[export] Instance eta_ioq : Settable ioq := λ x,
  Ioq (i_nr_allocated_queues x) (i_queues_len x) (i_use_user_allocated x) (i_nr_user_allocated_cq x)
    (i_nr_user_allocated_sq x) (i_nr_user_use_cq x) (i_nr_user_use_sq x) (i_cap_kernel_ioq x)
    (i_nr_write_queues x) (i_nr_poll_queues x) (i_ctrl_max_io_queues x) (i_q_depth x) (i_cmb_use_sqes x)
    (i_cmb_size x) (i_default x) (i_read x) (i_poll x) (i_num_vecs x) (i_max_qid x) (i_online_queues x)
    (i_queue_count x) (i_online_user_queues x) (i_user_start_qid x) (i_bar_mapped_size x) (i_db_stride x)
    (i_lock x) (i_enabled x) (i_polled x) (i_vector x) (i_log x) (i_tick x).

(** What the layers below answer at each call. *)
Class ioq_env := IoqEnv {
  e_write_queues : Z;                       (* module parameters *)
  e_poll_queues : Z;
  e_single_vector : bool;                   (* NVME_QUIRK_SINGLE_VECTOR *)
  e_bar_len : Z;                            (* [pci_resource_len(pdev, 0)] *)
  e_set_features : nat → Z → Z * Z;         (* status and result *)
  e_trylock : nat → bool;
  e_connecting : nat → bool;                (* the state is NVME_CTRL_CONNECTING *)
  e_alloc_vectors : nat → Z → Z;
  e_request_irq : nat → Z;
  e_alloc_queue : nat → bool;
  e_submit : nat → queue_cmd → Z;
  e_ioremap : nat → bool;
  e_delete_request : nat → bool;            (* [snvme_alloc_request] succeeds *)
  e_delete_done : nat → bool;               (* the deletion completed in time *)
  e_find_map : nat → Z → bool → bool;       (* [map_find_by_pci_dev_and_idx] *)
}.
(** Documented: no more vectors than asked for; requesting an interrupt returns
    0 or an error; the result of a command is an unsigned word. *)
Class ioq_env_laws (E : ioq_env) := {
  law_vectors : ∀ t n, e_alloc_vectors t n ≤ n;
  law_irq : ∀ t, e_request_irq t ≤ 0;
  law_features : ∀ t q, 0 ≤ snd (e_set_features t q);
}.

Section model.
Context {E : ioq_env}.

Definition ask {A} (f : nat → A) : K ioq A := λ s, Some (f (i_tick s), s<{i_tick := S (i_tick s)}>).

(** [for (i = i; n times; i++) { ret = body(i); if (ret) break; }]. *)
Fixpoint for_break (n : nat) (i : Z) (body : Z → K ioq Z) : K ioq Z :=
  match n with
  | O => mret 0
  | S n => r ← body i; if c_true r then mret r else for_break n (i + 1) body
  end.

Definition submit (c : queue_cmd) : K ioq Z :=
  modify (λ s, s<{i_log := i_log s ++ [c] }>);; ask (λ t, e_submit t c).

(** ** One queue *)

Definition nvme_setup_io_queues_trylock : K ioq Z :=
  held ← gets i_lock;
  ok ← ask e_trylock;
  if held || negb ok then mret (- ENODEV) else
  conn ← ask e_connecting;
  if negb conn then mret (- ENODEV) else
  modify (λ s, s<{i_lock := true}>);; mret 0.

Definition unlock : K ioq unit := modify (λ s, s<{i_lock := false}>).

Definition nvme_alloc_queue (qid : Z) : K ioq Z :=
  count ← gets i_queue_count;
  if qid <? count then mret 0 else
  len ← gets i_queues_len;
  if len <=? qid then fault else
  ok ← ask e_alloc_queue;
  if negb ok then mret (- ENOMEM) else
  modify (λ s, s<{i_queue_count := i_queue_count s + 1}>);; mret 0.

Definition init_queue : K ioq unit := modify (λ s, s<{i_online_queues := i_online_queues s + 1}>).

Definition nvme_create_queue (polled : bool) (qid : Z) : K ioq Z :=
  vecs ← gets i_num_vecs;
  when polled (modify (λ s, s<{i_polled := {[qid]} ∪ i_polled s}>));;
  let vector := if polled then 0 else if vecs =? 1 then 0 else u16 qid in
  r ← submit (CmdCreateCq qid);
  if c_true r then mret r else
  r ← submit (CmdCreateSq qid);
  if r <? 0 then mret r else
  if c_true r then submit (CmdDeleteCq qid);; mret r else
  modify (λ s, s<{i_vector := <[qid := vector]> (i_vector s)}>);;
  r ← nvme_setup_io_queues_trylock;
  if c_true r then mret r else
  init_queue;;
  r ← (if polled then mret 0 else ask e_request_irq);
  if r <? 0 then
    modify (λ s, s<{i_online_queues := i_online_queues s - 1}>);;
    unlock;; submit (CmdDeleteSq qid);; submit (CmdDeleteCq qid);; mret r
  else
  modify (λ s, s<{i_enabled := {[qid]} ∪ i_enabled s}>);; unlock;; mret r.

Definition nvme_create_user_queue (uqid qid : Z) : K ioq Z :=
  cq ← ask (λ t, e_find_map t uqid true);
  if negb cq then mret (-1) else
  r ← submit (CmdCreateCq qid);
  if c_true r then mret r else
  sq ← ask (λ t, e_find_map t uqid false);
  if negb sq then submit (CmdDeleteCq qid);; mret (-1) else
  r ← submit (CmdCreateSq qid);
  if r <? 0 then mret r else
  if c_true r then submit (CmdDeleteCq qid);; mret r else
  r ← nvme_setup_io_queues_trylock;
  if c_true r then mret r else
  modify (λ s, s<{i_online_user_queues := i_online_user_queues s + 1}>);; unlock;; mret 0.

(** ** All queues *)

Definition nvme_create_io_queues : K ioq Z :=
  count ← gets i_queue_count;
  max_qid ← gets i_max_qid;
  ret ← for_break (Z.to_nat (max_qid + 1 - count)) count nvme_alloc_queue;
  count ← gets i_queue_count;
  let max := Z.min max_qid (count - 1) in
  d ← gets i_default; rd ← gets i_read; poll ← gets i_poll;
  let rw_queues := if negb (max =? 1) && c_true poll then d + rd else max in
  online ← gets i_online_queues;
  let n := Z.to_nat (max + 1 - online) in
  r ← for_break n online (λ i, nvme_create_queue (rw_queues <? i) i);
  let ret := if (n =? 0)%nat then ret else r in
  mret (if 0 <=? ret then 0 else ret).

Definition nvme_create_io_queues_mix : K ioq Z :=
  max_qid ← gets i_max_qid;
  use ← gets i_nr_user_use_cq;
  online ← gets i_online_queues;
  modify (λ s, s<{i_user_start_qid := online}>);;
  r ← for_break (Z.to_nat (max_qid + use + 1 - online)) online (λ i, nvme_create_user_queue (i - online) i);
  mret (if 0 <=? r then 0 else r).

Definition nvme_suspend_queue (qid : Z) : K ioq unit :=
  en ← gets i_enabled;
  when (bool_decide (qid ∈ en)) (modify (λ s,
    s<{i_enabled := i_enabled s ∖ {[qid]} }><{i_online_queues := i_online_queues s - 1}>
     <{i_polled := i_polled s ∖ {[qid]} }>)).

(** [for (i = dev->ctrl.queue_count - 1; i > 0; i--)]. *)
Definition nvme_suspend_io_queues : K ioq unit :=
  count ← gets i_queue_count;
  kfor nvme_suspend_queue (reverse (seqZ 1 (count - 1))).

(** [__nvme_disable_io_queues]: [nr_queues] are to be deleted, [sent] deletions are
    not yet completed. *)
Fixpoint disable_loop (fuel : nat) (del : Z → queue_cmd) (nr_queues sent : Z) : K ioq bool :=
  match fuel with
  | O => fault
  | S fuel =>
    ok ← (if 0 <? nr_queues then ask e_delete_request else mret false);
    if ok : bool then
      modify (λ s, s<{i_log := i_log s ++ [del nr_queues] }>);; disable_loop fuel del (nr_queues - 1) (sent + 1)
    else if sent =? 0 then mret true else
    in_time ← ask e_delete_done;
    if negb in_time then mret false else disable_loop fuel del nr_queues (sent - 1)
  end.
Definition nvme_disable_io_queues : K ioq unit :=
  online ← gets i_online_queues;
  let fuel := Z.to_nat (2 * online) in
  ok ← disable_loop fuel CmdDeleteSq (online - 1) 0;
  if ok : bool then disable_loop fuel CmdDeleteCq (online - 1) 0;; mret tt else mret tt.

(** ** Interrupts *)

Definition nvme_calc_irq_sets (nrirqs : Z) : K ioq unit :=
  w ← gets i_nr_write_queues;
  let '(nrirqs, nr_read_queues) :=
    if nrirqs =? 0 then (1, 0) else
    if (nrirqs =? 1) || (w =? 0) then (nrirqs, 0) else
    if nrirqs <=? w then (nrirqs, 1) else (nrirqs, nrirqs - w) in
  modify (λ s, s<{i_default := nrirqs - nr_read_queues}><{i_read := nr_read_queues}>).

(** The interrupt core calls [calc_sets] with the vectors beside the one of the
    admin queue ([pre_vectors]). *)
Definition nvme_setup_irqs (nr_io_queues : Z) : K ioq Z :=
  p ← gets i_nr_poll_queues;
  let poll_queues := Z.min p (nr_io_queues - 1) in
  modify (λ s, s<{i_poll := poll_queues}><{i_default := 1}><{i_read := 0}>);;
  let irq_queues := if e_single_vector then 1 else 1 + (nr_io_queues - poll_queues) in
  vecs ← ask (λ t, e_alloc_vectors t irq_queues);
  when (0 <? vecs) (nvme_calc_irq_sets (vecs - 1));;
  mret vecs.

(** ** The BAR *)

Definition NVME_REG_DBS_OFFSET : Z := 0x1000.
Definition db_bar_size (s : ioq) (nr_io_queues : Z) : Z :=
  NVME_REG_DBS_OFFSET + u32 ((nr_io_queues + 1) * 8 * i_db_stride s).

Definition nvme_remap_bar (size : Z) : K ioq Z :=
  mapped ← gets i_bar_mapped_size;
  if size <=? mapped then mret 0 else
  if e_bar_len <? size then mret (- ENOMEM) else
  ok ← ask e_ioremap;
  if negb ok then modify (λ s, s<{i_bar_mapped_size := 0}>);; mret (- ENOMEM) else
  modify (λ s, s<{i_bar_mapped_size := size}>);; mret 0.

(** The number of queues whose doorbells could be mapped, if any. *)
Fixpoint remap_loop (fuel : nat) (nr_io_queues : Z) : K ioq (option Z) :=
  match fuel with
  | O => fault
  | S fuel =>
    size ← gets (λ s, db_bar_size s nr_io_queues);
    r ← nvme_remap_bar size;
    if negb (c_true r) then mret (Some nr_io_queues) else
    if nr_io_queues - 1 =? 0 then mret None else remap_loop fuel (nr_io_queues - 1)
  end.

Definition nvme_cmb_qdepth (s : ioq) (nr_io_queues entry_size : Z) : Z :=
  let q_size_aligned := (i_q_depth s * entry_size + 4095) / 4096 * 4096 in
  if i_cmb_size s <? u32 (q_size_aligned * nr_io_queues) then
    let mem_per_q := i_cmb_size s / nr_io_queues / 4096 * 4096 in
    let q_depth := mem_per_q / entry_size in
    if q_depth <? 64 then - ENOMEM else q_depth
  else i_q_depth s.

(** ** Negotiation *)

(** The status and the count (core.c). *)
Definition snvme_set_queue_count (count : Z) : K ioq (Z * Z) :=
  let q_count := u32 (Z.lor (count - 1) (Z.shiftl (count - 1) 16)) in
  '(status, result) ← ask (λ t, e_set_features t q_count);
  if status <? 0 then mret (status, count) else
  if 0 <? status then mret (0, 0) else
  mret (0, Z.min count (Z.min (Z.land result 0xffff) (Z.shiftr result 16) + 1)).

(** How the legacy path divides what was granted. *)
Definition divide_grant (nr_io_queues expect_num : Z) : K ioq Z :=
  alloc ← gets i_nr_allocated_queues;
  ucq ← gets i_nr_user_allocated_cq;
  usq ← gets i_nr_user_allocated_sq;
  if nr_io_queues <? u32 (alloc - 1) then
    modify (λ s, s<{i_use_user_allocated := false}>);; mret nr_io_queues
  else if nr_io_queues <=? expect_num then
    if u32 (nr_io_queues - 1) <? ucq then modify (λ s, s<{i_use_user_allocated := false}>);; mret nr_io_queues else
    modify (λ s, s<{i_nr_allocated_queues := u32 (nr_io_queues - ucq)}><{i_nr_user_use_cq := ucq}>
                  <{i_nr_user_use_sq := usq}>);;
    mret (u32 (nr_io_queues - ucq - 1))
  else mret nr_io_queues.

(** One try up to the creation of the queues: an error, or the lock is given back
    and the vectors are shared out. *)
Definition try_irqs (nr_io_queues : Z) : K ioq (option Z) :=
  modify (λ s, s<{i_enabled := i_enabled s ∖ {[0]} }>);;
  vecs ← nvme_setup_irqs nr_io_queues;
  if vecs <=? 0 then unlock;; mret (Some (- EIO)) else
  modify (λ s, s<{i_num_vecs := vecs}><{i_max_qid := Z.max (vecs - 1) 1 + i_poll s}>);;
  r ← ask e_request_irq;
  if c_true r then unlock;; mret (Some r) else
  modify (λ s, s<{i_enabled := {[0]} ∪ i_enabled s}>);;
  unlock;; mret None.

Fixpoint retry_loop (fuel : nat) (nr_io_queues : Z) : K ioq Z :=
  match fuel with
  | O => fault
  | S fuel =>
    e ← try_irqs nr_io_queues;
    match e with Some r => mret r | None =>
    result ← nvme_create_io_queues;
    user ← gets i_use_user_allocated;
    result ← (if user : bool then nvme_create_io_queues_mix else mret result);
    online ← gets i_online_queues;
    max_qid ← gets i_max_qid;
    if c_true result || (online <? 2) then mret result else
    if online - 1 <? max_qid then
      nvme_disable_io_queues;;
      r ← nvme_setup_io_queues_trylock;
      if c_true r then mret r else
      nvme_suspend_io_queues;;
      retry_loop fuel (online - 1)
    else mret 0
    end
  end.

(** From the moment the kernel's number of queues is settled. *)
Definition setup_negotiated (fuel : nat) (nr_io_queues : Z) : K ioq Z :=
  r ← nvme_setup_io_queues_trylock;
  if c_true r then mret r else
  modify (λ s, s<{i_enabled := i_enabled s ∖ {[0]} }>);;
  cmb ← gets i_cmb_use_sqes;
  when cmb (modify (λ s,
    let d := nvme_cmb_qdepth s nr_io_queues 64 in
    if 0 <? d then s<{i_q_depth := d}> else s<{i_cmb_use_sqes := false}>));;
  nr ← remap_loop fuel nr_io_queues;
  match nr with
  | None => unlock;; mret (- ENOMEM)
  | Some nr_io_queues => retry_loop fuel nr_io_queues
  end.

Definition s_nvme_setup_io_queues (fuel : nat) : K ioq Z :=
  cap ← gets i_cap_kernel_ioq;
  when (negb (c_true cap)) (modify (λ s, s<{i_nr_write_queues := e_write_queues}><{i_nr_poll_queues := e_poll_queues}>));;
  alloc ← gets i_nr_allocated_queues;
  user ← gets i_use_user_allocated;
  ucq ← gets i_nr_user_allocated_cq;
  let expect_num := u32 (ucq + (alloc - 1)) in
  let nr_io_queues := if user : bool then expect_num else u32 (alloc - 1) in
  '(result, nr_io_queues) ← snvme_set_queue_count nr_io_queues;
  when (result =? 0) (modify (λ s, s<{i_ctrl_max_io_queues := nr_io_queues}>));;
  nr_io_queues ← (if user then divide_grant nr_io_queues expect_num else mret nr_io_queues);
  if result <? 0 then mret result else
  if nr_io_queues =? 0 then mret 0 else
  user ← gets i_use_user_allocated;
  let nr_io_queues := if c_true cap && negb user && (cap <? nr_io_queues) then cap else nr_io_queues in
  setup_negotiated fuel nr_io_queues.
End model.
