(* ===== verification/IoQueuesInv.v ===== *)
(** * Setting up the I/O queues: invariant and triples

    What each routine of IoQueues.v leaves alone ([still], [cfg], [base]), the
    invariant of the set-up ([ioq_inv]) and a weakest-precondition rule for every
    routine, up to the loop that retries with fewer queues. *)
From S2P Require Import Prelude.
From S2P Require Import IoQueues.

(** ** What the routines leave alone *)

(** The state without the lock, the log, the clock, the polled flags and the
    vectors. *)
Definition core (s : ioq) : ioq :=
  s<{i_lock := false}><{i_log := [] }><{i_tick := O}><{i_polled := ∅}><{i_vector := ∅}>.

Definition cmd_qid (c : queue_cmd) : Z :=
  match c with CmdCreateCq q | CmdCreateSq q | CmdDeleteSq q | CmdDeleteCq q => q end.

(** Commands for the queues 1 to [hi] were sent, and nothing else happened. *)
Record still (hi : Z) (s s' : ioq) : Prop := {
  still_core : core s' = core s;
  still_vector : i_vector s' = i_vector s;
  still_log : ∃ l, i_log s' = i_log s ++ l ∧ Forall (λ c, 1 ≤ cmd_qid c ≤ hi) l;
}.

Lemma still_refl hi s : still hi s s.
Proof. split; [done|done|]. exists []. by rw app_nil_r. Qed.
Lemma still_trans hi s1 s2 s3 : still hi s1 s2 → still hi s2 s3 → still hi s1 s3.
Proof.
  intros [H1 H2 (l & Hl & Fl)] [H3 H4 (l' & Hl' & Fl')]. split; [congruence|congruence|].
  exists (l ++ l'). split; [by rw Hl' Hl app_assoc|by apply Forall_app].
Qed.

Section proofs.
Context {E : ioq_env} {EL : ioq_env_laws E}.

Lemma wp_ioq_ask {A} (f : nat → A) (Q : A → ioq → Prop) hi s :
  (∀ t s', still hi s s' → i_lock s' = i_lock s → Q (f t) s') → wp (ask f) Q s.
Proof.
  intros H. apply (wp_of_run _ _ _ (f (i_tick s)) (s<{i_tick := S (i_tick s)}>)); [done|]. apply H; [|done].
  split; [done|done|]. exists []. simpl. by rw app_nil_r.
Qed.

Lemma wp_ioq_submit c Q hi s :
  1 ≤ cmd_qid c ≤ hi → (∀ r s', still hi s s' → i_lock s' = i_lock s → Q r s') → wp (submit c) Q s.
Proof.
  intros Hc H. rw /submit. wp_step. apply wp_modify. apply (wp_ioq_ask _ _ hi). intros t s' Hs' Hl. apply H; [|by rw Hl].
  eapply still_trans; [|exact Hs']. split; [done|done|]. exists [c]. split; [done|]. by constructor.
Qed.

Lemma wp_trylock Q hi s :
  (∀ s', still hi s s' → i_lock s' = i_lock s → Q (- ENODEV) s') →
  (∀ s', still hi s s' → i_lock s' = true → Q 0 s') →
  wp nvme_setup_io_queues_trylock Q s.
Proof.
  intros Hf Ht. rw /nvme_setup_io_queues_trylock. wp_step. apply wp_gets. wp_step. apply (wp_ioq_ask _ _ hi). intros t s1 H1 L1.
  destruct (i_lock s || negb (e_trylock t)); [by apply wp_ret, Hf|]. wp_step. apply (wp_ioq_ask _ _ hi). intros t2 s2 H2 L2.
  assert (still hi s s2) as H12 by (by eapply still_trans).
  destruct (e_connecting t2); simpl; [|apply wp_ret, Hf; [done|congruence]].
  wp_step. apply wp_modify, wp_ret, Ht; [|done]. eapply still_trans; [exact H12|]. split; [done|done|].
  exists []. simpl. by rw app_nil_r.
Qed.

Lemma wp_unlock Q hi s : (∀ s', still hi s s' → i_lock s' = false → Q tt s') → wp unlock Q s.
Proof. intros H. apply wp_modify, H; [|done]. split; [done|done|]. exists []. simpl. by rw app_nil_r. Qed.

(** A queue brought up. *)
Definition bring_up (qid : Z) (s : ioq) : ioq :=
  s<{i_online_queues := i_online_queues s + 1}><{i_enabled := {[qid]} ∪ i_enabled s}>.

(** What the creation of queue [qid] with vector [v] does. *)
Record created (hi qid v : Z) (s : ioq) (r : Z) (s' : ioq) : Prop := {
  cr_lock : i_lock s' = false;
  cr_log : ∃ l, i_log s' = i_log s ++ l ∧ Forall (λ c, 1 ≤ cmd_qid c ≤ hi) l;
  cr_vector : ∀ q, q ≠ qid → i_vector s' !! q = i_vector s !! q;
  cr_ok : r = 0 → core s' = core (bring_up qid s) ∧ i_vector s' !! qid = Some v;
  cr_fail : r ≠ 0 → core s' = core s;
}.

Lemma wp_mark_polled polled qid (Q : unit → ioq → Prop) hi s :
  (∀ s', still hi s s' → i_lock s' = i_lock s → Q tt s') →
  wp (when polled (modify (λ s, s<{i_polled := {[qid]} ∪ i_polled s}>))) Q s.
Proof.
  intros H. apply wp_when; intros _; [apply wp_modify|]; apply H; try done; [|apply still_refl].
  split; [done|done|]. exists []. simpl. by rw app_nil_r.
Qed.

Lemma c_true_ne r : c_true r = true → r ≠ 0.
Proof. rw /c_true. by destruct (Z.eqb_spec r 0). Qed.
Lemma c_true_eq r : c_true r = false → r = 0.
Proof. rw /c_true. by destruct (Z.eqb_spec r 0). Qed.

(** Fields are those of the core. *)
Lemma core_field {A} (f : ioq → A) s s' : (∀ s, f (core s) = f s) → core s' = core s → f s' = f s.
Proof. intros Hf Hc. by rw -(Hf s') Hc Hf. Qed.

(** The end of a creation, with the lock held. *)
Lemma wp_create_tail (polled : bool) qid hi s Q :
  1 ≤ qid ≤ hi →
  (∀ r s', r ≠ 0 → still hi s s' → i_lock s' = false → Q r s') →
  (∀ s', core s' = core (bring_up qid s) → i_vector s' = i_vector s → i_log s' = i_log s →
     i_lock s' = false → Q 0 s') →
  wp (init_queue;;
      r ← (if polled then mret 0 else ask e_request_irq);
      if r <? 0 then
        modify (λ s, s<{i_online_queues := i_online_queues s - 1}>);;
        unlock;; submit (CmdDeleteSq qid);; submit (CmdDeleteCq qid);; mret r
      else
      modify (λ s, s<{i_enabled := {[qid]} ∪ i_enabled s}>);; unlock;; mret r) Q s.
Proof.
  intros Hq Hf Hok. wp_step. apply wp_modify. set (s1 := s<{i_online_queues := i_online_queues s + 1}>).
  wp_step. apply (wp_mono _ (λ r s2, r ≤ 0 ∧ core s2 = core s1 ∧ i_vector s2 = i_vector s ∧ i_log s2 = i_log s)).
  { destruct polled; [by apply wp_ret|].
    apply (wp_of_run _ _ _ (e_request_irq (i_tick s1)) (s1<{i_tick := S (i_tick s1)}>)); [done|].
    split; [apply law_irq|done]. }
  intros r s2 (Hr & C2 & V2 & L2). pose proof (core_field i_online_queues _ _ ltac:(done) C2) as O2. simpl in O2.
  destruct (Z.ltb_spec r 0).
  - wp_step. apply wp_modify. set (s3 := s2<{i_online_queues := i_online_queues s2 - 1}>).
    assert (still hi s s3) as H3.
    { split; [|done|exists []; split; [by rw /= L2 app_nil_r|done]].
      transitivity ((core s2)<{i_online_queues := i_online_queues s2 - 1}>); [done|].
      rw C2 O2. simpl. by rw Z.add_simpl_r. }
    wp_step. apply (wp_unlock _ hi). intros s4 H4 L4.
    wp_step. apply (wp_ioq_submit _ _ hi); [done|]. intros r5 s5 H5 L5.
    wp_step. apply (wp_ioq_submit _ _ hi); [done|]. intros r6 s6 H6 L6.
    apply wp_ret, Hf; [lia|do 3 (eapply still_trans; [done|]); done|congruence].
  - assert (r = 0) as -> by lia. wp_step. apply wp_modify. wp_step. apply wp_modify, wp_ret, Hok; try done.
    transitivity ((core s2)<{i_enabled := {[qid]} ∪ i_enabled s2}>); [done|].
    pose proof (core_field i_enabled _ _ ltac:(done) C2) as N2. simpl in N2. by rw C2 N2.
Qed.

(** From before the vector is set ([s1]) to after ([s2]). *)
Lemma created_fail hi qid v s s1 s2 s' r :
  still hi s s1 → s2 = s1 ∨ s2 = s1<{i_vector := <[qid := v]> (i_vector s1)}> → still hi s2 s' →
  i_lock s' = false → r ≠ 0 → created hi qid v s r s'.
Proof.
  intros [C1 V1 (l1 & L1 & F1)] H2 [C2 V2 (l2 & L2 & F2)] Hl Hr.
  assert (core s2 = core s1 ∧ i_log s2 = i_log s1 ∧ ∀ q, q ≠ qid → i_vector s2 !! q = i_vector s1 !! q) as (C & L & V).
  { destruct H2 as [->| ->]; [done|]. split_and!; try done. intros q Hq. simpl. by rw lookup_insert_ne. }
  split; try done.
  - exists (l1 ++ l2). split; [by rw L2 L L1 app_assoc|by apply Forall_app].
  - intros q Hq. rw V2 V // V1 //.
  - intros _. congruence.
Qed.

Lemma wp_create_queue (polled : bool) qid hi s Q :
  i_lock s = false → 1 ≤ qid ≤ hi →
  (∀ r s', created hi qid (if polled then 0 else if i_num_vecs s =? 1 then 0 else u16 qid) s r s' → Q r s') →
  wp (nvme_create_queue polled qid) Q s.
Proof.
  intros Hl Hq HQ. rw /nvme_create_queue. wp_step. apply wp_gets.
  set (v := if polled then 0 else if i_num_vecs s =? 1 then 0 else u16 qid) in *.
  wp_step. apply (wp_mark_polled _ _ _ hi). intros s1 H1 L1.
  wp_step. apply (wp_ioq_submit _ _ hi); [done|]. intros r2 s2 H2 L2.
  assert (still hi s s2 ∧ i_lock s2 = false) as [H12 E2] by (split; [by eapply still_trans|congruence]).
  destruct (c_true r2) eqn:Er; [apply wp_ret, HQ; eapply (created_fail hi qid v s s2 s2); auto using still_refl, c_true_ne|].
  wp_step. apply (wp_ioq_submit _ _ hi); [done|]. intros r3 s3 H3 L3.
  assert (still hi s s3 ∧ i_lock s3 = false) as [H13 E3] by (split; [by eapply still_trans|congruence]).
  destruct (Z.ltb_spec r3 0); [apply wp_ret, HQ; eapply (created_fail hi qid v s s3 s3); auto using still_refl; lia|].
  destruct (c_true r3) eqn:Er3.
  { wp_step. apply (wp_ioq_submit _ _ hi); [done|]. intros r4 s4 H4 L4. apply wp_ret, HQ.
    eapply (created_fail hi qid v s s3 s3 s4); auto using c_true_ne. congruence. }
  wp_step. apply wp_modify. set (s4 := s3<{i_vector := <[qid := v]> (i_vector s3)}>).
  assert (i_lock s4 = false) as E4 by done. assert (s4 = s3 ∨ s4 = s3<{i_vector := <[qid := v]> (i_vector s3)}>) as Hs4 by auto.
  wp_step. apply (wp_trylock _ hi).
  { intros s5 H5 L5. apply wp_ret, HQ. eapply (created_fail hi qid v s s3 s4); auto; congruence. }
  intros s5 H5 L5. change (c_true 0) with false. cbn iota. apply (wp_create_tail _ _ hi); [done|..].
  { intros r s6 Hr H6 L6. apply HQ. eapply (created_fail hi qid v s s3 s4); auto. by eapply still_trans. }
  intros s6 C6 V6 L6 K6. destruct H13 as [C3 V3 (l3 & G3 & F3)], H5 as [C5 V5 (l5 & G5 & F5)]. apply HQ. split; try done.
  - exists (l3 ++ l5). split; [by rw L6 G5 /= G3 app_assoc|by apply Forall_app].
  - intros q Hne. rw V6 V5 /= lookup_insert_ne // V3 //.
  - intros _. split; [|by rw V6 V5 /= lookup_insert_eq].
    rw C6. transitivity (bring_up qid (core s5)); [done|]. rw C5. transitivity (bring_up qid (core s3)); [done|]. by rw C3.
Qed.

(** ** Invariant *)

(** The kernel's queues 1 .. [online_queues - 1] are enabled and have a vector
    there is; every command was for a queue the controller granted. *)
Record ioq_inv (hi : Z) (s : ioq) : Prop := {
  iv_online : 1 ≤ i_online_queues s ≤ i_queue_count s;
  iv_count : i_queue_count s ≤ i_queues_len s;
  iv_enabled : ∀ q, 0 < q → q ∈ i_enabled s ↔ q < i_online_queues s;
  iv_log : Forall (λ c, 1 ≤ cmd_qid c ≤ hi) (i_log s);
  iv_vector : ∀ q, 0 < q < i_online_queues s → ∃ v, i_vector s !! q = Some v ∧ 0 ≤ v < i_num_vecs s;
}.

(** The state without what creating queues changes. *)
Definition cfg (s : ioq) : ioq :=
  (core s)<{i_online_queues := 0}><{i_enabled := ∅}><{i_queue_count := 0}><{i_online_user_queues := 0}>
          <{i_user_start_qid := 0}>.

Lemma core_cfg s s' : core s' = core s → cfg s' = cfg s.
Proof. rw /cfg. by intros ->. Qed.

Lemma ioq_inv_still hi s s' : ioq_inv hi s → still hi s s' → ioq_inv hi s'.
Proof.
  intros [H1 H2 H3 H4 H5] [C V (l & L & F)].
  pose proof (core_field i_online_queues _ _ ltac:(done) C) as Eo. pose proof (core_field i_queue_count _ _ ltac:(done) C) as Ec.
  pose proof (core_field i_queues_len _ _ ltac:(done) C) as El. pose proof (core_field i_enabled _ _ ltac:(done) C) as Ee.
  pose proof (core_field i_num_vecs _ _ ltac:(done) C) as En.
  split; rw ?Eo ?Ec ?El ?Ee ?En ?V ?L //. by apply Forall_app.
Qed.

Lemma created_inv hi v s r s' :
  ioq_inv hi s → i_online_queues s < i_queue_count s → 0 ≤ v < i_num_vecs s →
  created hi (i_online_queues s) v s r s' →
  ioq_inv hi s' ∧ cfg s' = cfg s ∧ i_queue_count s' = i_queue_count s ∧
  i_online_queues s' = (if r =? 0 then i_online_queues s + 1 else i_online_queues s).
Proof.
  intros [H1 H2 H3 H4 H5] Hlt Hv [_ (l & L & F) V Hok Hf]. destruct (Z.eqb_spec r 0) as [Hr|Hr].
  - destruct (Hok Hr) as [C V']. pose proof (core_cfg _ _ C) as Hc.
    pose proof (core_field i_online_queues _ _ ltac:(done) C) as Eo. pose proof (core_field i_queue_count _ _ ltac:(done) C) as Ec.
    pose proof (core_field i_queues_len _ _ ltac:(done) C) as El. pose proof (core_field i_enabled _ _ ltac:(done) C) as Ee.
    pose proof (core_field i_num_vecs _ _ ltac:(done) C) as En. cbn in Eo, Ec, El, Ee, En.
    split; [|done]. split; rw ?Eo ?Ec ?El ?Ee ?En ?L //; try lia; [|by apply Forall_app|].
    + intros q Hq. rw elem_of_union elem_of_singleton H3 //. lia.
    + intros q Hq. destruct (decide (q = i_online_queues s)) as [->|Hne]; [by exists v|]. rw V //. apply H5. lia.
  - pose proof (Hf Hr) as C.
    pose proof (core_field i_online_queues _ _ ltac:(done) C) as Eo. pose proof (core_field i_queue_count _ _ ltac:(done) C) as Ec.
    pose proof (core_field i_queues_len _ _ ltac:(done) C) as El. pose proof (core_field i_enabled _ _ ltac:(done) C) as Ee.
    pose proof (core_field i_num_vecs _ _ ltac:(done) C) as En.
    split; [|by split; [apply core_cfg|]]. split; rw ?Eo ?Ec ?El ?Ee ?En ?L //; [by apply Forall_app|].
    intros q Hq. rw V; [by apply H5|lia].
Qed.

(** The queues up to [max]. *)
Lemma wp_create_loop hi rw_queues max n : ∀ s Q,
  ioq_inv hi s → i_lock s = false → Z.of_nat n = max + 1 - i_online_queues s → max ≤ hi →
  max < i_queue_count s → 1 ≤ i_num_vecs s →
  (∀ q, q ≤ max → q ≤ rw_queues → i_num_vecs s ≠ 1 → q < i_num_vecs s) →
  (∀ r s', ioq_inv hi s' → i_lock s' = false → cfg s' = cfg s → i_queue_count s' = i_queue_count s →
     i_online_queues s' ≤ max + 1 → (r = 0 → i_online_queues s' = max + 1) → Q r s') →
  wp (for_break n (i_online_queues s) (λ i, nvme_create_queue (rw_queues <? i) i)) Q s.
Proof.
  induction n as [|n IH]; intros s Q Hi Hl Hn Hm Hc Hv Hvec HQ; cbn [for_break].
  { apply wp_ret, HQ; try done; lia. }
  pose proof (iv_online _ _ Hi) as Ho. wp_step. apply (wp_create_queue _ _ hi); [done|lia|]. intros r s1 Hcr.
  set (v := if rw_queues <? i_online_queues s then 0 else if i_num_vecs s =? 1 then 0 else u16 (i_online_queues s)) in *.
  assert (0 ≤ v < i_num_vecs s) as Hvr.
  { rw /v. destruct (Z.ltb_spec rw_queues (i_online_queues s)); [lia|].
    destruct (Z.eqb_spec (i_num_vecs s) 1); [lia|]. pose proof (u16_range (i_online_queues s)).
    pose proof (Z.mod_le (i_online_queues s) (2 ^ 16) ltac:(lia) ltac:(lia)) as Hle. fold (u16 (i_online_queues s)) in Hle.
    pose proof (Hvec (i_online_queues s) ltac:(lia) ltac:(lia) ltac:(lia)). lia. }
  destruct (created_inv hi v s r s1 Hi ltac:(lia) Hvr Hcr) as (Hi1 & Hc1 & Hq1 & Ho1).
  pose proof (cr_lock _ _ _ _ _ _ Hcr) as Hl1. destruct (c_true r) eqn:Er.
  - apply wp_ret, HQ; try done; [|intros ->; done].
    apply c_true_ne in Er. rw (proj2 (Z.eqb_neq r 0) Er) in Ho1. lia.
  - apply c_true_eq in Er as ->. simpl in Ho1. rw -Ho1.
    assert (i_num_vecs s1 = i_num_vecs s) as Hnv by (by apply (f_equal i_num_vecs) in Hc1).
    apply IH; try done; rw ?Hnv ?Hq1 //; [lia|]. intros r s2 Hi2 Hl2 Hc2 Hq2 Ho2 Hr2. apply HQ; try done; congruence.
Qed.

(** Memory for the queues up to [max_qid]. *)
Lemma wp_alloc_loop hi max_qid n : ∀ s Q,
  ioq_inv hi s → Z.of_nat n = Z.max 0 (max_qid + 1 - i_queue_count s) → max_qid < i_queues_len s →
  (∀ r s', ioq_inv hi s' → i_lock s' = i_lock s → cfg s' = cfg s → i_online_queues s' = i_online_queues s →
     i_queue_count s ≤ i_queue_count s' ≤ Z.max (i_queue_count s) (max_qid + 1) → 0 ≤ - r → Q r s') →
  wp (for_break n (i_queue_count s) nvme_alloc_queue) Q s.
Proof.
  induction n as [|n IH]; intros s Q Hi Hn Hlen HQ; cbn [for_break].
  { apply wp_ret, HQ; try done; lia. }
  wp_step. rw /nvme_alloc_queue. wp_step. apply wp_gets. rw Z.ltb_irrefl. wp_step. apply wp_gets.
  rw (proj2 (Z.leb_gt _ _)); [|lia]. wp_step. apply (wp_ioq_ask _ _ hi). intros t s1 H1 L1.
  pose proof (ioq_inv_still _ _ _ Hi H1) as Hi1. destruct H1 as [C1 _ _].
  pose proof (core_field i_queue_count _ _ ltac:(done) C1) as Ec. pose proof (core_field i_queues_len _ _ ltac:(done) C1) as El.
  pose proof (core_field i_online_queues _ _ ltac:(done) C1) as Eo.
  destruct (e_alloc_queue t); cbn [negb].
  2:{ apply wp_ret. cbn. apply wp_ret, HQ; try done; [by apply core_cfg|lia]. }
  wp_step. apply wp_modify, wp_ret. cbn [c_true Z.eqb negb]. change (c_true 0) with false. cbn iota.
  set (s2 := s1<{i_queue_count := i_queue_count s1 + 1}>).
  assert (i_queue_count s + 1 = i_queue_count s2) as -> by (by rw /= Ec).
  apply IH.
  - destruct Hi1 as [A1 A2 A3 A4 A5]. split; try done; simpl; lia.
  - simpl. lia.
  - simpl. lia.
  - intros r s3 Hi3 Hl3 Hc3 Ho3 Hq3 Hr3. simpl in Ho3, Hq3, Hl3. apply HQ; try done; try congruence; try lia.
    rw Hc3 -(core_cfg _ _ C1). done.
Qed.

(** How the vectors are shared out. *)
Record irqs_ok (s : ioq) : Prop := {
  iq_vecs : 1 ≤ i_num_vecs s;
  iq_poll : 0 ≤ i_poll s;
  iq_sets : i_default s + i_read s = Z.max (i_num_vecs s - 1) 1;
  iq_max : i_max_qid s = Z.max (i_num_vecs s - 1) 1 + i_poll s;
}.

Lemma irqs_ok_cfg s s' : irqs_ok s → cfg s' = cfg s → irqs_ok s'.
Proof.
  intros [H1 H2 H3 H4] Hc. apply (f_equal (λ x, (i_num_vecs x, i_poll x, i_default x, i_read x, i_max_qid x))) in Hc.
  simpl in Hc. injection Hc as E1 E2 E3 E4 E5. by split; rw ?E1 ?E2 ?E3 ?E4 ?E5.
Qed.

Lemma wp_create_io_queues hi s Q :
  ioq_inv hi s → i_lock s = false → irqs_ok s → i_online_queues s ≤ i_max_qid s + 1 →
  i_max_qid s ≤ hi → i_max_qid s < i_queues_len s →
  (∀ r s', ioq_inv hi s' → i_lock s' = false → cfg s' = cfg s → i_online_queues s' ≤ i_max_qid s + 1 → Q r s') →
  wp nvme_create_io_queues Q s.
Proof.
  intros Hi Hl Hq Ho Hm Hlen HQ. rw /nvme_create_io_queues. wp_step. apply wp_gets. wp_step. apply wp_gets.
  wp_step. apply (wp_alloc_loop hi (i_max_qid s)); [done|lia|done|]. intros r1 s1 Hi1 Hl1 Hc1 Ho1 Hq1 Hr1.
  pose proof (irqs_ok_cfg _ _ Hq Hc1) as [V1 P1 S1 M1]. pose proof (iv_online _ _ Hi1) as Hon1.
  assert (i_max_qid s1 = i_max_qid s) as Em by (by apply (f_equal i_max_qid) in Hc1).
  do 5 (wp_step; apply wp_gets). wp_step.
  set (max := Z.min (i_max_qid s) (i_queue_count s1 - 1)).
  apply (wp_create_loop hi _ max); try done; try congruence; try lia.
  - intros q Hq' Hrw Hne. destruct (negb (max =? 1) && c_true (i_poll s1)) eqn:Eb; [lia|].
    apply andb_false_iff in Eb as [Eb|Eb]; [apply negb_false_iff, Z.eqb_eq in Eb; lia|].
    apply c_true_eq in Eb. lia.
  - intros r s2 Hi2 Hl2 Hc2 Hq2 Ho2 _. apply wp_ret, HQ; try done; [congruence|lia].
Qed.

Lemma wp_create_user_queue uqid qid hi s Q :
  ioq_inv hi s → i_lock s = false → 1 ≤ qid ≤ hi →
  (∀ r s', ioq_inv hi s' → i_lock s' = false → cfg s' = cfg s → i_online_queues s' = i_online_queues s → Q r s') →
  wp (nvme_create_user_queue uqid qid) Q s.
Proof.
  intros Hi Hl Hq HQ.
  assert (∀ r s', still hi s s' → i_lock s' = false → Q r s') as HS.
  { intros r s' Hs Hl'. apply HQ; [by eapply ioq_inv_still|done|by apply core_cfg, Hs|].
    by apply (core_field i_online_queues), Hs. }
  rw /nvme_create_user_queue. wp_step. apply (wp_ioq_ask _ _ hi). intros t1 s1 H1 L1.
  destruct (e_find_map t1 uqid true); cbn [negb]; [|apply wp_ret, HS; [done|congruence]].
  wp_step. apply (wp_ioq_submit _ _ hi); [done|]. intros r2 s2 H2 L2.
  assert (still hi s s2) as H12 by (by eapply still_trans).
  destruct (c_true r2); [apply wp_ret, HS; [done|congruence]|].
  wp_step. apply (wp_ioq_ask _ _ hi). intros t3 s3 H3 L3. assert (still hi s s3) as H13 by (by eapply still_trans).
  destruct (e_find_map t3 uqid false); cbn [negb].
  2:{ wp_step. apply (wp_ioq_submit _ _ hi); [done|]. intros r4 s4 H4 L4. apply wp_ret, HS; [by eapply still_trans|congruence]. }
  wp_step. apply (wp_ioq_submit _ _ hi); [done|]. intros r4 s4 H4 L4. assert (still hi s s4) as H14 by (by eapply still_trans).
  destruct (r4 <? 0); [apply wp_ret, HS; [done|congruence]|].
  destruct (c_true r4).
  { wp_step. apply (wp_ioq_submit _ _ hi); [done|]. intros r5 s5 H5 L5. apply wp_ret, HS; [by eapply still_trans|congruence]. }
  wp_step. apply (wp_trylock _ hi).
  { intros s5 H5 L5. apply wp_ret, HS; [by eapply still_trans|congruence]. }
  intros s5 H5 L5. assert (still hi s s5) as H15 by (by eapply still_trans). change (c_true 0) with false. cbn iota.
  wp_step. apply wp_modify. wp_step. apply wp_modify, wp_ret.
  destruct (ioq_inv_still _ _ _ Hi H15) as [A1 A2 A3 A4 A5]. apply HQ; [by split|done| |].
  - rw -(core_cfg _ _ (still_core _ _ _ H15)) //.
  - cbn. exact (core_field i_online_queues _ _ ltac:(done) (still_core _ _ _ H15)).
Qed.

Lemma wp_user_loop hi start n : ∀ i s Q,
  ioq_inv hi s → i_lock s = false → 1 ≤ i → i + Z.of_nat n ≤ hi + 1 →
  (∀ r s', ioq_inv hi s' → i_lock s' = false → cfg s' = cfg s → i_online_queues s' = i_online_queues s → Q r s') →
  wp (for_break n i (λ i, nvme_create_user_queue (i - start) i)) Q s.
Proof.
  induction n as [|n IH]; intros i s Q Hi Hl H1 Hn HQ; cbn [for_break]; [by apply wp_ret, HQ|].
  wp_step. apply (wp_create_user_queue _ _ hi); [done|done|lia|]. intros r s1 Hi1 Hl1 Hc1 Ho1.
  destruct (c_true r); [by apply wp_ret, HQ|]. apply IH; try done; try lia.
  intros r2 s2 Hi2 Hl2 Hc2 Ho2. apply HQ; try done; congruence.
Qed.

Lemma wp_create_mix hi s Q :
  ioq_inv hi s → i_lock s = false → i_max_qid s + i_nr_user_use_cq s ≤ hi → i_online_queues s ≤ hi + 1 →
  (∀ r s', ioq_inv hi s' → i_lock s' = false → cfg s' = cfg s → i_online_queues s' = i_online_queues s → Q r s') →
  wp nvme_create_io_queues_mix Q s.
Proof.
  intros Hi Hl Hm Ho HQ. rw /nvme_create_io_queues_mix. do 3 (wp_step; apply wp_gets). wp_step. apply wp_modify.
  wp_step. pose proof (iv_online _ _ Hi). apply (wp_user_loop hi); [by destruct Hi|done|lia|lia|].
  intros r s1 Hi1 Hl1 Hc1 Ho1. apply wp_ret, HQ; try done.
Qed.

(** ** Taking the queues down for another try *)

Lemma wp_suspend m : ∀ s Q,
  (∀ q, 0 < q → q ∈ i_enabled s ↔ q < i_online_queues s) → 1 ≤ i_online_queues s ≤ Z.of_nat m + 1 →
  (∀ s', (∀ q, 0 < q → q ∉ i_enabled s') → i_online_queues s' = 1 → i_lock s' = i_lock s →
     i_log s' = i_log s → i_queue_count s' = i_queue_count s → cfg s' = cfg s → Q tt s') →
  wp (kfor nvme_suspend_queue (reverse (seqZ 1 (Z.of_nat m)))) Q s.
Proof.
  induction m as [|m IH]; intros s Q He Ho HQ.
  { apply wp_ret, HQ; try done; [|lia]. intros q Hq. rw He //. lia. }
  rw seqZ_S reverse_app /=. wp_step. rw /nvme_suspend_queue. wp_step. apply wp_gets.
  pose proof (He (1 + Z.of_nat m) ltac:(lia)) as Hm. apply wp_when; intros Eb.
  - apply bool_decide_eq_true in Eb. rw Hm in Eb. apply wp_modify. apply IH; simpl.
    + intros q Hq. rw elem_of_difference elem_of_singleton He //. lia.
    + lia.
    + intros s' N O L G C F. apply HQ; try done.
  - apply bool_decide_eq_false in Eb. apply IH; [done| |done]. rw Hm in Eb. lia.
Qed.

Lemma wp_disable_loop hi del fuel : ∀ nr sent s Q,
  (∀ q, cmd_qid (del q) = q) → 0 ≤ nr ≤ hi → 0 ≤ sent → 2 * nr + sent < Z.of_nat fuel →
  (∀ b s', still hi s s' → i_lock s' = i_lock s → Q b s') →
  wp (disable_loop fuel del nr sent) Q s.
Proof.
  induction fuel as [|fuel IH]; intros nr sent s Q Hd Hnr Hs Hf HQ; [lia|]. cbn [disable_loop]. wp_step.
  apply (wp_mono _ (λ b s', still hi s s' ∧ i_lock s' = i_lock s ∧ (b = true → 0 < nr))).
  { destruct (Z.ltb_spec 0 nr); [apply (wp_ioq_ask _ _ hi); auto|]. apply wp_ret. split_and!; auto using still_refl. done. }
  intros b s1 (H1 & L1 & Hb). destruct b.
  - specialize (Hb eq_refl). wp_step. apply wp_modify. apply IH; [done|lia|lia|lia|]. intros b s2 H2 L2.
    apply HQ; [|by rw L2]. eapply still_trans; [exact H1|]. eapply still_trans; [|exact H2]. split; [done|done|].
    exists [del nr]. split; [done|]. constructor; [rw Hd; lia|done].
  - destruct (Z.eqb_spec sent 0); [apply wp_ret, HQ; done|]. wp_step. apply (wp_ioq_ask _ _ hi). intros t s2 H2 L2.
    assert (still hi s s2) as H12 by (by eapply still_trans).
    destruct (e_delete_done t); cbn [negb]; [|apply wp_ret, HQ; [done|congruence]].
    apply IH; [done|lia|lia|lia|]. intros b s3 H3 L3. apply HQ; [by eapply still_trans|congruence].
Qed.

Lemma wp_disable hi s Q :
  1 ≤ i_online_queues s ≤ hi + 1 → (∀ s', still hi s s' → i_lock s' = i_lock s → Q tt s') →
  wp nvme_disable_io_queues Q s.
Proof.
  intros Ho HQ. rw /nvme_disable_io_queues. wp_step. apply wp_gets. wp_step.
  apply (wp_disable_loop hi); [done|lia|lia|lia|]. intros b s1 H1 L1. destruct b; [|by apply wp_ret, HQ].
  wp_step. apply (wp_disable_loop hi); [done|lia|lia|lia|]. intros b s2 H2 L2.
  apply wp_ret, HQ; [by eapply still_trans|congruence].
Qed.

(** ** Sharing out the vectors *)

Definition irq_core (s : ioq) : ioq := s<{i_default := 0}><{i_read := 0}><{i_poll := 0}><{i_tick := O}>.

Lemma wp_setup_irqs nr s Q :
  1 ≤ nr → 0 ≤ i_nr_poll_queues s →
  (∀ v s', irq_core s' = irq_core s → i_poll s' = Z.min (i_nr_poll_queues s) (nr - 1) → v ≤ 1 + (nr - i_poll s') →
     (0 < v → i_default s' + i_read s' = Z.max (v - 1) 1) → Q v s') →
  wp (nvme_setup_irqs nr) Q s.
Proof.
  intros Hnr Hp HQ. rw /nvme_setup_irqs. wp_step. apply wp_gets. wp_step. apply wp_modify.
  set (p := Z.min (i_nr_poll_queues s) (nr - 1)). set (s1 := s<{i_poll := p}><{i_default := 1}><{i_read := 0}>).
  set (n := if e_single_vector then 1 else 1 + (nr - p)). assert (n ≤ 1 + (nr - p)) as Hn.
  { rw /n. destruct e_single_vector; lia. }
  wp_step. set (v := e_alloc_vectors (i_tick s1) n). pose proof (law_vectors (i_tick s1) n) as Hv. fold v in Hv.
  apply (wp_of_run _ _ _ v (s1<{i_tick := S (i_tick s1)}>)); [done|]. wp_step. apply wp_when; intros Ev.
  - apply Z.ltb_lt in Ev. rw /nvme_calc_irq_sets. wp_step. apply wp_gets.
    match goal with |- context [let '(_, _) := ?x in _] => destruct x as [a b] eqn:Ex end.
    assert (a = Z.max (v - 1) 1) as Ha.
    { destruct (Z.eqb_spec (v - 1) 0); [by injection Ex as <- _; lia|].
      assert (∀ c, (v - 1, c) = (a, b) → a = Z.max (v - 1) 1) as Hc by (intros c [= <- _]; lia).
      destruct (_ || _); [by eapply Hc|]. destruct (_ <=? _); by eapply Hc. }
    apply wp_modify, wp_ret, HQ; try done; simpl; lia.
  - apply Z.ltb_ge in Ev. apply wp_ret, HQ; try done; simpl; lia.
Qed.

(** The state without what a try changes. *)
Definition base (s : ioq) : ioq :=
  (cfg s)<{i_default := 0}><{i_read := 0}><{i_poll := 0}><{i_num_vecs := 0}><{i_max_qid := 0}>.

Lemma base_cfg s s' : cfg s' = cfg s → base s' = base s.
Proof. rw /base. by intros ->. Qed.
Lemma base_field {A} (f : ioq → A) s s' : (∀ s, f (base s) = f s) → base s' = base s → f s' = f s.
Proof. intros Hf Hc. by rw -(Hf s') Hc Hf. Qed.
Lemma cfg_field {A} (f : ioq → A) s s' : (∀ s, f (cfg s) = f s) → cfg s' = cfg s → f s' = f s.
Proof. intros Hf Hc. by rw -(Hf s') Hc Hf. Qed.

(** User queues the legacy path will create. *)
Definition user_share (s : ioq) : Z := if i_use_user_allocated s then i_nr_user_use_cq s else 0.

(** The invariant does not depend on the vectors while no queue is up. *)
Lemma ioq_inv_none hi s s' :
  ioq_inv hi s → i_online_queues s = 1 → i_online_queues s' = 1 → i_queue_count s' = i_queue_count s →
  i_queues_len s' = i_queues_len s → (∀ q, 0 < q → q ∈ i_enabled s' ↔ q ∈ i_enabled s) → i_log s' = i_log s →
  ioq_inv hi s'.
Proof.
  intros [H1 H2 H3 H4 H5] Ho Ho' Hc Hl He Hg. split; rw ?Ho' ?Hc ?Hl ?Hg //; [lia| |lia].
  intros q Hq. rw He // H3 // Ho //.
Qed.

Lemma wp_try_irqs hi nr s Q :
  ioq_inv hi s → i_online_queues s = 1 → 1 ≤ nr → 0 ≤ i_nr_poll_queues s →
  (∀ e s', ioq_inv hi s' → i_lock s' = false → base s' = base s → i_online_queues s' = 1 →
     match e with Some r => r ≠ 0 | None => irqs_ok s' ∧ i_max_qid s' ≤ nr end → Q e s') →
  wp (try_irqs nr) Q s.
Proof.
  intros Hi Ho Hnr Hp HQ. rw /try_irqs. wp_step. apply wp_modify. wp_step. apply wp_setup_irqs; [done|done|].
  intros v s1 C1 P1 V1 S1.
  assert (∀ s2, base s2 = base s1 → i_online_queues s2 = i_online_queues s1 → i_queue_count s2 = i_queue_count s1 →
    (∀ q, 0 < q → q ∈ i_enabled s2 ↔ q ∈ i_enabled s1) → i_log s2 = i_log s1 →
    ioq_inv hi s2 ∧ base s2 = base s ∧ i_online_queues s2 = 1) as Hnext.
  { intros s2 B2 O2 N2 E2 G2.
    pose proof (f_equal i_online_queues C1) as O1. pose proof (f_equal i_queue_count C1) as N1.
    pose proof (f_equal i_log C1) as G1. pose proof (f_equal i_enabled C1) as E1. simpl in O1, N1, G1, E1.
    assert (base s1 = base s) as B1 by exact (f_equal base C1).
    split; [|split; congruence]. eapply (ioq_inv_none hi s); try done; try congruence.
    - apply (base_field i_queues_len); [done|congruence].
    - intros q Hq. rw E2 // E1 elem_of_difference elem_of_singleton. split; [by intros [? _]|]. intros ?. split; [done|lia]. }
  destruct (Z.leb_spec v 0).
  { wp_step. apply wp_modify, wp_ret. destruct (Hnext (s1<{i_lock := false}>)) as (A1 & A2 & A3); try done. by apply HQ. }
  wp_step. apply wp_modify. wp_step.
  set (s2 := s1<{i_num_vecs := v}><{i_max_qid := Z.max (v - 1) 1 + i_poll s1}>).
  apply (wp_of_run _ _ _ (e_request_irq (i_tick s2)) (s2<{i_tick := S (i_tick s2)}>)); [done|].
  destruct (c_true (e_request_irq (i_tick s2))) eqn:Er.
  { wp_step. apply wp_modify, wp_ret.
    destruct (Hnext (s2<{i_tick := S (i_tick s2)}><{i_lock := false}>)) as (A1 & A2 & A3); try done.
    apply HQ; try done. by apply c_true_ne. }
  wp_step. apply wp_modify. wp_step. apply wp_modify, wp_ret.
  match goal with |- Q None ?x => destruct (Hnext x) as (A1 & A2 & A3); try done end.
  { intros q Hq. simpl. rw elem_of_union elem_of_singleton. split; [intros [?|?]; [lia|done]|by right]. }
  apply HQ; try done. simpl in P1. split; [split; simpl; [lia|lia|apply S1; lia|done]|simpl; lia].
Qed.

(** ** The loop of tries *)

Lemma wp_retry hi fuel : ∀ nr s Q,
  ioq_inv hi s → i_lock s = true → i_online_queues s = 1 → 1 ≤ nr < i_queues_len s →
  nr + user_share s ≤ hi → 0 ≤ user_share s → 0 ≤ i_nr_poll_queues s → nr < Z.of_nat fuel →
  (∀ r s', ioq_inv hi s' → i_lock s' = false → base s' = base s → i_online_queues s' ≤ nr + 1 →
     (r = 0 → i_online_queues s' = 1 ∨ i_online_queues s' = i_max_qid s' + 1) → Q r s') →
  wp (retry_loop fuel nr) Q s.
Proof.
  induction fuel as [|fuel IH]; intros nr s Q Hi Hl Ho Hnr Hhi Hus Hp Hf HQ; [lia|]. cbn [retry_loop]. wp_step.
  apply (wp_try_irqs hi); [done|done|lia|done|]. intros e s1 Hi1 Hl1 B1 Ho1 He.
  pose proof (base_field user_share _ _ ltac:(done) B1) as Eu. pose proof (base_field i_queues_len _ _ ltac:(done) B1) as El.
  destruct e as [r|]; [apply wp_ret, HQ; try done; lia|]. destruct He as [Hq1 Hm1].
  pose proof (iq_max _ Hq1) as Em. pose proof (iq_poll _ Hq1) as Ep. pose proof (iq_vecs _ Hq1) as Ev.
  wp_step. apply (wp_create_io_queues hi); [done|done|done|lia|lia|lia|]. intros r2 s2 Hi2 Hl2 C2 Ho2.
  pose proof (cfg_field i_max_qid _ _ ltac:(done) C2) as Em2. pose proof (cfg_field user_share _ _ ltac:(done) C2) as Eu2.
  wp_step. apply wp_gets. wp_step.
  apply (wp_mono _ (λ _ s3, ioq_inv hi s3 ∧ i_lock s3 = false ∧ cfg s3 = cfg s2 ∧ i_online_queues s3 = i_online_queues s2)).
  { destruct (i_use_user_allocated s2) eqn:Euu; [|by apply wp_ret].
    assert (user_share s2 = i_nr_user_use_cq s2) as Es2 by (by rw /user_share Euu).
    apply (wp_create_mix hi); [done|done|lia|lia|done]. }
  intros r3 s3 (Hi3 & Hl3 & C3 & Ho3).
  assert (base s3 = base s) as B3 by (rw (base_cfg _ _ C3) (base_cfg _ _ C2) //).
  pose proof (cfg_field i_max_qid _ _ ltac:(done) C3) as Em3. pose proof (iv_online _ _ Hi3) as Hon3.
  wp_step. apply wp_gets. wp_step. apply wp_gets.
  destruct (c_true r3 || (i_online_queues s3 <? 2)) eqn:Eb.
  { apply wp_ret, HQ; try done; [lia|]. intros ->. simpl in Eb. apply Z.ltb_lt in Eb. lia. }
  destruct (Z.ltb_spec (i_online_queues s3 - 1) (i_max_qid s3)) as [Hlt|Hge].
  2:{ apply wp_ret, HQ; try done; [lia|]. intros _. right. lia. }
  apply orb_false_iff in Eb as [_ Eb%Z.ltb_ge].
  wp_step. apply (wp_disable hi); [lia|]. intros s4 H4 L4. pose proof (ioq_inv_still _ _ _ Hi3 H4) as Hi4.
  wp_step. apply (wp_trylock _ hi).
  { intros s5 H5 L5. assert (still hi s3 s5) as H35 by (by eapply still_trans).
    pose proof (core_field i_online_queues _ _ ltac:(done) (still_core _ _ _ H35)) as O5.
    apply wp_ret, HQ; [by eapply ioq_inv_still|congruence| |lia|done].
    rw (base_cfg _ _ (core_cfg _ _ (still_core _ _ _ H35))) //. }
  intros s5 H5 L5. assert (still hi s3 s5) as H35 by (by eapply still_trans). change (c_true 0) with false. cbn iota.
  pose proof (ioq_inv_still _ _ _ Hi3 H35) as Hi5. pose proof (iv_online _ _ Hi5) as Hon5.
  pose proof (core_field i_online_queues _ _ ltac:(done) (still_core _ _ _ H35)) as O5.
  assert (base s5 = base s) as B5 by (rw (base_cfg _ _ (core_cfg _ _ (still_core _ _ _ H35))) //).
  wp_step. rw /nvme_suspend_io_queues. wp_step. apply wp_gets.
  replace (i_queue_count s5 - 1) with (Z.of_nat (Z.to_nat (i_queue_count s5 - 1))) by lia.
  apply wp_suspend; [by apply Hi5|lia|]. intros s6 N6 O6 L6 G6 K6 C6.
  assert (base s6 = base s) as B6 by (rw (base_cfg _ _ C6) //).
  pose proof (base_field i_queues_len _ _ ltac:(done) B6) as El6. pose proof (base_field i_nr_poll_queues _ _ ltac:(done) B6) as Ep6.
  pose proof (base_field user_share _ _ ltac:(done) B6) as Eu6.
  apply IH; try lia; try congruence.
  - destruct Hi5 as [A1 A2 A3 A4 A5]. split; rw ?O6 ?K6 ?G6 //; try lia.
    + rw (cfg_field i_queues_len _ _ ltac:(done) C6) //.
    + intros q Hq. pose proof (N6 q Hq). split; [done|lia].
  - intros r s7 Hi7 Hl7 B7 Ho7 Hr7. apply HQ; try done; [congruence|lia].
Qed.

(** Mapping the doorbells: those of as many queues as fit the BAR. *)
Lemma wp_remap fuel : ∀ nr s Q,
  1 ≤ nr → nr ≤ Z.of_nat fuel →
  (∀ o s', s' = s<{i_bar_mapped_size := i_bar_mapped_size s'}><{i_tick := i_tick s'}> →
     match o with Some n => 1 ≤ n ≤ nr ∧ db_bar_size s n ≤ i_bar_mapped_size s' | None => True end → Q o s') →
  wp (remap_loop fuel nr) Q s.
Proof.
  induction fuel as [|fuel IH]; intros nr s Q Hnr Hf HQ; [lia|]. cbn [remap_loop]. wp_step. apply wp_gets. wp_step.
  apply (wp_mono _ (λ r s1, s1 = s<{i_bar_mapped_size := i_bar_mapped_size s1}><{i_tick := i_tick s1}> ∧
    (r = 0 → db_bar_size s nr ≤ i_bar_mapped_size s1))).
  - rw /nvme_remap_bar. wp_step. apply wp_gets. destruct (Z.leb_spec (db_bar_size s nr) (i_bar_mapped_size s)).
    { apply wp_ret. split; [by destruct s|done]. }
    destruct (_ <? _); [apply wp_ret; split; [by destruct s|done]|]. wp_step.
    apply (wp_of_run _ _ _ (e_ioremap (i_tick s)) (s<{i_tick := S (i_tick s)}>)); [done|].
    destruct (e_ioremap _); cbn [negb]; wp_step; apply wp_modify, wp_ret; (split; [by destruct s|]); [by simpl|done].
  - intros r s1 [E1 Hr]. destruct (c_true r) eqn:Er; cbn [negb].
    + destruct (Z.eqb_spec (nr - 1) 0); [by apply wp_ret, HQ|]. apply IH; [lia|lia|]. intros o s2 E2 Ho.
      apply HQ; [rw E2 E1; by destruct s|]. destruct o as [n1|]; [|done]. destruct Ho as [Hn Hb]. split; [lia|].
      rw E1 in Hb. exact Hb.
    + apply wp_ret, HQ; [done|]. apply c_true_eq in Er. split; [lia|by apply Hr].
Qed.

(** ** The whole routine *)

(** The first byte after the two doorbells of queue [q]. *)
Definition doorbells_end (s : ioq) (q : Z) : Z := NVME_REG_DBS_OFFSET + (2 * q + 1) * 4 * i_db_stride s + 4.

(** What is left when the routine ends with the kernel's share bounded by [nr]. *)
Record settled (hi nr : Z) (s : ioq) (r : Z) (s' : ioq) : Prop := {
  st_inv : ioq_inv hi s';
  st_lock : i_lock s' = false;
  st_max : i_ctrl_max_io_queues s' = i_ctrl_max_io_queues s;
  st_online : i_online_queues s' ≤ nr + 1;
  st_all : r = 0 → i_online_queues s' = 1 ∨ i_online_queues s' = i_max_qid s' + 1;
  st_doorbells : ∀ q, 0 < q < i_online_queues s' → doorbells_end s' q ≤ i_bar_mapped_size s';
}.

Lemma doorbells_fit s nr q :
  0 < q ≤ nr → 1 ≤ i_db_stride s → (nr + 1) * 8 * i_db_stride s < 2 ^ 32 → doorbells_end s q ≤ db_bar_size s nr.
Proof. intros Hq Hs Hb. rw /doorbells_end /db_bar_size u32_id; nia. Qed.

Lemma wp_setup_negotiated hi fuel nr s Q :
  ioq_inv hi s → i_lock s = false → i_online_queues s = 1 → 1 ≤ nr < i_queues_len s →
  nr + user_share s ≤ hi → 0 ≤ user_share s → 0 ≤ i_nr_poll_queues s → nr < Z.of_nat fuel →
  1 ≤ i_db_stride s → i_queues_len s * 8 * i_db_stride s < 2 ^ 32 →
  (∀ r s', settled hi nr s r s' → Q r s') →
  wp (setup_negotiated fuel nr) Q s.
Proof.
  intros Hi Hl Ho Hnr Hhi Hus Hp Hf Hst Hbar HQ. rw /setup_negotiated. wp_step. apply (wp_trylock _ hi).
  { intros s1 H1 L1. pose proof (ioq_inv_still _ _ _ Hi H1) as Hi1.
    pose proof (core_field i_online_queues _ _ ltac:(done) (still_core _ _ _ H1)) as O1.
    apply wp_ret, HQ. split; [done|congruence| |lia|by left; lia|lia].
    exact (core_field i_ctrl_max_io_queues _ _ ltac:(done) (still_core _ _ _ H1)). }
  intros s1 H1 L1. change (c_true 0) with false. cbn iota. pose proof (ioq_inv_still _ _ _ Hi H1) as Hi1.
  pose proof (core_cfg _ _ (still_core _ _ _ H1)) as C1.
  pose proof (core_field i_online_queues _ _ ltac:(done) (still_core _ _ _ H1)) as O1. clear H1.
  wp_step. apply wp_modify. wp_step. apply wp_gets. wp_step.
  apply (wp_mono _ (λ _ s2, ioq_inv hi s2 ∧ i_lock s2 = true ∧ i_online_queues s2 = 1 ∧
    ∀ (A : Type) (f : ioq → A), (∀ s d c, f (cfg (s<{i_q_depth := d}><{i_cmb_use_sqes := c}>)) = f s) → f s2 = f s)).
  { assert (∀ s2 d c, s2 = s1<{i_enabled := i_enabled s1 ∖ {[0]} }><{i_q_depth := d}><{i_cmb_use_sqes := c}> →
      ioq_inv hi s2 ∧ i_lock s2 = true ∧ i_online_queues s2 = 1 ∧
      ∀ (A : Type) (f : ioq → A), (∀ s d c, f (cfg (s<{i_q_depth := d}><{i_cmb_use_sqes := c}>)) = f s) → f s2 = f s) as Hgo.
    { intros s2 d c ->. split_and!; [|done|simpl; lia|].
      - eapply (ioq_inv_none hi s1); try done; [lia|simpl; lia|]. intros q Hq. simpl.
        rw elem_of_difference elem_of_singleton. split; [by intros [? _]|]. intros ?. split; [done|lia].
      - intros A f Hff. etrans; [symmetry; apply (Hff _ d c)|]. etrans; [|apply (Hff s d c)]. apply (f_equal f).
        exact (f_equal (λ x : ioq, x<{i_q_depth := d}><{i_cmb_use_sqes := c}>) C1). }
    apply wp_when; intros _; [apply wp_modify|by apply (Hgo _ (i_q_depth s1) (i_cmb_use_sqes s1)); destruct s1].
    set (d := nvme_cmb_qdepth _ _ _). generalize d. intros d'.
    destruct (0 <? d'); [apply (Hgo _ d' (i_cmb_use_sqes s1))|apply (Hgo _ (i_q_depth s1) false)]; by destruct s1. }
  intros [] s2 (Hi2 & L2 & O2 & F2). pose proof (F2 _ i_queues_len ltac:(done)) as El2.
  pose proof (F2 _ user_share ltac:(done)) as Eu2. pose proof (F2 _ i_nr_poll_queues ltac:(done)) as Ep2.
  pose proof (F2 _ i_db_stride ltac:(done)) as Es2. pose proof (F2 _ i_ctrl_max_io_queues ltac:(done)) as Ex2.
  wp_step. apply wp_remap; [lia|lia|]. intros o s3 E3 Ho3.
  assert (ioq_inv hi s3 ∧ i_online_queues s3 = 1) as [Hi3 O3].
  { rw E3. split; [|done]. by eapply (ioq_inv_none hi s2). }
  destruct o as [n|].
  2:{ wp_step. apply wp_modify, wp_ret, HQ. split; try done; simpl; try lia.
      - by eapply (ioq_inv_none hi s3).
      - by rw E3. }
  destruct Ho3 as [Hn Hmap].
  assert (i_queues_len s3 = i_queues_len s2) as El3 by (by rw E3). assert (user_share s3 = user_share s2) as Eu3 by (by rw E3).
  assert (i_nr_poll_queues s3 = i_nr_poll_queues s2) as Ep3 by (by rw E3).
  assert (i_lock s3 = i_lock s2) as L3 by (by rw E3).
  assert (i_db_stride s3 = i_db_stride s2) as Es3 by (by rw E3).
  assert (i_ctrl_max_io_queues s3 = i_ctrl_max_io_queues s2) as Ex3 by (by rw E3).
  apply (wp_retry hi); try lia; try congruence. intros r s4 Hi4 L4 B4 O4 Hr4.
  pose proof (base_field i_ctrl_max_io_queues _ _ ltac:(done) B4) as Ex4.
  pose proof (base_field i_db_stride _ _ ltac:(done) B4) as Es4.
  pose proof (base_field i_bar_mapped_size _ _ ltac:(done) B4) as Eb4.
  apply HQ. split; [done|done|congruence|lia|done|]. intros q Hq.
  rw Eb4. etrans; [|exact Hmap]. rw /doorbells_end Es4 Es3. apply doorbells_fit; [lia|lia|]. nia.
Qed.
End proofs.
