(* ===== verification/Lifecycle.v ===== *)
(** * The life of the controller (core.c, pci.c)

    [snvme_change_ctrl_state] arbitrates between all that may reset, reconnect or
    remove the controller.  The reset itself runs as a work item in several parts
    ([nvme_reset_work]), and the threads that may interfere -- resets asked for
    through sysfs, ioctl or a timeout, the preparation of a bus reset or a
    suspension, a failed resumption, a firmware activation, the removal -- act
    between any two of them.
    Each action is a function, and a step is any action that is enabled. *)
From S2P Require Import Prelude.

Inductive nvme_ctrl_state :=
  | NVME_CTRL_NEW | NVME_CTRL_LIVE | NVME_CTRL_RESETTING | NVME_CTRL_CONNECTING
  | NVME_CTRL_DELETING | NVME_CTRL_DELETING_NOIO | NVME_CTRL_DEAD.
#[export] Instance nvme_ctrl_state_eq_dec : EqDecision nvme_ctrl_state.
Proof. solve_decision. Defined.

(** ** Changing the state *)

Record nvme_ctrl := NvmeCtrl {
  ct_state : nvme_ctrl_state;
  ct_opts : option Z;            (* [opts->fast_io_fail_tmo] *)
  ct_failfast_work : bool;       (* the delayed work is scheduled *)
  ct_failfast_expired : bool;    (* NVME_CTRL_FAILFAST_EXPIRED *)
  ct_kicks : nat;                (* calls of [nvme_kick_requeue_lists] *)
}.
#[export] Instance eta_nvme_ctrl : Settable nvme_ctrl := λ x,
  NvmeCtrl (ct_state x) (ct_opts x) (ct_failfast_work x) (ct_failfast_expired x) (ct_kicks x).

Definition nvme_kick_requeue_lists (c : nvme_ctrl) : nvme_ctrl := c<{ct_kicks := S (ct_kicks c)}>.

Definition nvme_failfast_work (c : nvme_ctrl) : nvme_ctrl :=
  if negb (bool_decide (ct_state c = NVME_CTRL_CONNECTING)) then c else
  nvme_kick_requeue_lists (c<{ct_failfast_expired := true}>).

Definition nvme_start_failfast_work (c : nvme_ctrl) : nvme_ctrl :=
  match ct_opts c with
  | None => c
  | Some tmo => if tmo =? -1 then c else c<{ct_failfast_work := true}>
  end.

Definition nvme_stop_failfast_work (c : nvme_ctrl) : nvme_ctrl :=
  match ct_opts c with
  | None => c
  | Some _ => c<{ct_failfast_work := false}><{ct_failfast_expired := false}>
  end.

(** The nested switch. *)
Definition change_allowed (new_state old_state : nvme_ctrl_state) : bool :=
  match new_state with
  | NVME_CTRL_LIVE =>
    match old_state with NVME_CTRL_NEW | NVME_CTRL_RESETTING | NVME_CTRL_CONNECTING => true | _ => false end
  | NVME_CTRL_RESETTING => match old_state with NVME_CTRL_NEW | NVME_CTRL_LIVE => true | _ => false end
  | NVME_CTRL_CONNECTING => match old_state with NVME_CTRL_NEW | NVME_CTRL_RESETTING => true | _ => false end
  | NVME_CTRL_DELETING =>
    match old_state with NVME_CTRL_LIVE | NVME_CTRL_RESETTING | NVME_CTRL_CONNECTING => true | _ => false end
  | NVME_CTRL_DELETING_NOIO => match old_state with NVME_CTRL_DELETING | NVME_CTRL_DEAD => true | _ => false end
  | NVME_CTRL_DEAD => match old_state with NVME_CTRL_DELETING => true | _ => false end
  | NVME_CTRL_NEW => false
  end.

Definition snvme_change_ctrl_state (c : nvme_ctrl) (new_state : nvme_ctrl_state) : bool * nvme_ctrl :=
  let old_state := ct_state c in
  if negb (change_allowed new_state old_state) then (false, c) else
  let c := c<{ct_state := new_state}> in
  (true,
   match new_state, old_state with
   | NVME_CTRL_LIVE, NVME_CTRL_CONNECTING => nvme_kick_requeue_lists (nvme_stop_failfast_work c)
   | NVME_CTRL_LIVE, _ => nvme_kick_requeue_lists c
   | NVME_CTRL_CONNECTING, NVME_CTRL_RESETTING => nvme_start_failfast_work c
   | _, _ => c
   end).

Definition nvme_state_terminal (c : nvme_ctrl) : bool :=
  match ct_state c with
  | NVME_CTRL_NEW | NVME_CTRL_LIVE | NVME_CTRL_RESETTING | NVME_CTRL_CONNECTING => false
  | NVME_CTRL_DELETING | NVME_CTRL_DELETING_NOIO | NVME_CTRL_DEAD => true
  end.

(** ** The threads *)

(** Where [nvme_reset_work] is: before its test of the state, between the test and
    the change to CONNECTING, between that and the change to LIVE, at [out:], and
    after its last change of the state. *)
Inductive phase := Started | Resetting | Connecting | Failing | Tail.
#[export] Instance phase_eq_dec : EqDecision phase.
Proof. solve_decision. Defined.

Record life := Life {
  lf_ctrl : nvme_ctrl;
  lf_granted : nat;      (* threads of [snvme_reset_ctrl] before [queue_work] *)
  lf_prepared : nat;     (* threads that [snvme_wait_reset] gave the RESETTING state *)
  lf_fw : nat;           (* firmware activations under way *)
  lf_pending : bool;     (* [reset_work] is queued *)
  lf_run : option phase; (* [reset_work] runs; the workqueue runs it once at a time *)
}.
#[export] Instance eta_life : Settable life := λ x,
  Life (lf_ctrl x) (lf_granted x) (lf_prepared x) (lf_fw x) (lf_pending x) (lf_run x).
Definition state_of (l : life) : nvme_ctrl_state := ct_state (lf_ctrl l).

(** A change of the state, and what the thread does on success and on failure. *)
Definition change (new : nvme_ctrl_state) (l : life) (yes no : life → option life) : option life :=
  let '(ok, c) := snvme_change_ctrl_state (lf_ctrl l) new in
  if ok : bool then yes (l<{lf_ctrl := c}>) else no l.

(** [queue_work(s_nvme_reset_wq, &ctrl->reset_work)]. *)
Definition queue_reset_work (l : life) : bool * life :=
  if lf_pending l then (false, l) else (true, l<{lf_pending := true}>).

(** Takes a unit of a counter. *)
Definition take (n : nat) (k : nat → option life) : option life := match n with O => None | S n => k n end.

(** [snvme_reset_ctrl], up to [queue_work] and from there. *)
Definition reset_ctrl_claim (l : life) : option life :=
  change NVME_CTRL_RESETTING l (λ l, Some (l<{lf_granted := S (lf_granted l)}>)) Some.
Definition reset_ctrl_queue (l : life) : option life :=
  take (lf_granted l) (λ n, Some ((queue_reset_work (l<{lf_granted := n}>)).2)).

(** [snvme_wait_reset] in [nvme_disable_prepare_reset]: waits for one or the other. *)
Definition snvme_wait_reset (l : life) : option life :=
  change NVME_CTRL_RESETTING l (λ l, Some (l<{lf_prepared := S (lf_prepared l)}>))
    (λ l, if nvme_state_terminal (lf_ctrl l) then Some l else None).

(** The result and the state afterwards. *)
Definition snvme_try_sched_reset (l : life) : Z * life :=
  if negb (bool_decide (state_of l = NVME_CTRL_RESETTING)) then (- EBUSY, l) else
  let '(ok, l) := queue_reset_work l in (if ok : bool then 0 else - EBUSY, l).

(** [nvme_reset_done], [nvme_simple_resume], and [nvme_resume] of a device that was
    shut down ([last_ps] is [U32_MAX]): the thread prepared. *)
Definition reset_done (l : life) : option life :=
  take (lf_prepared l) (λ n, Some ((snvme_try_sched_reset (l<{lf_prepared := n}>)).2)).
(** [nvme_resume] of a device that was put into a low power state and does not leave
    it: nobody prepared, the RESETTING state may be another thread's. *)
Definition resume_reset (l : life) : option life := Some ((snvme_try_sched_reset l).2).

(** The notice of a firmware activation, and [nvme_fw_act_work]. *)
Definition fw_act_starting (l : life) : option life :=
  change NVME_CTRL_RESETTING l (λ l, Some (l<{lf_fw := S (lf_fw l)}>)) Some.
Definition fw_act_done (l : life) : option life :=
  take (lf_fw l) (λ n, change NVME_CTRL_LIVE (l<{lf_fw := n}>) Some Some).
Definition fw_act_timeout (l : life) : option life :=
  take (lf_fw l) (λ n, Some ((snvme_try_sched_reset (l<{lf_fw := n}>)).2)).

(** The changes of [nvme_remove], [nvme_delete_ctrl], [nvme_timeout] and
    [snvme_remove_namespaces]. *)
Definition delete (new : nvme_ctrl_state) (l : life) : option life := change new l Some Some.

(** [nvme_reset_work]. *)
Definition work_start (l : life) : option life :=
  if lf_pending l then
    match lf_run l with None => Some (l<{lf_pending := false}><{lf_run := Some Started}>) | Some _ => None end
  else None.
Definition goto (p : phase) (l : life) : option life := Some (l<{lf_run := Some p}>).
Definition work_test (l : life) : option life :=
  if bool_decide (state_of l = NVME_CTRL_RESETTING) then goto Resetting l else goto Failing l.
Definition work_connecting (ok : bool) (l : life) : option life :=
  if ok then change NVME_CTRL_CONNECTING l (goto Connecting) (goto Failing) else goto Failing l.
Definition work_live (ok : bool) (l : life) : option life :=
  if ok then change NVME_CTRL_LIVE l (goto Tail) (goto Failing) else goto Failing l.
Definition nvme_remove_dead_ctrl (l : life) : option life := change NVME_CTRL_DELETING l (goto Tail) (goto Tail).

(** A part of the work; [ok] says whether the calls in between succeed. *)
Definition nvme_reset_work (ok : bool) (l : life) : option life :=
  match lf_run l with
  | None => None
  | Some Started => work_test l
  | Some Resetting => work_connecting ok l
  | Some Connecting => work_live ok l
  | Some Failing => nvme_remove_dead_ctrl l
  | Some Tail => Some (l<{lf_run := None}>)
  end.

Inductive action :=
  | AResetClaim | AResetQueue | AWaitReset | AResetDone | AFwStart | AFwDone | AFwTimeout
  | ADelete | ADead | ANoIo | AWorkStart | AWork (ok : bool) | AFailfast | AResumeReset.

Definition act (a : action) (l : life) : option life :=
  match a with
  | AResetClaim => reset_ctrl_claim l
  | AResetQueue => reset_ctrl_queue l
  | AWaitReset => snvme_wait_reset l
  | AResetDone => reset_done l
  | AFwStart => fw_act_starting l
  | AFwDone => fw_act_done l
  | AFwTimeout => fw_act_timeout l
  | ADelete => delete NVME_CTRL_DELETING l
  | ADead => delete NVME_CTRL_DEAD l
  | ANoIo => delete NVME_CTRL_DELETING_NOIO l
  | AWorkStart => work_start l
  | AWork ok => nvme_reset_work ok l
  | AFailfast => Some (l<{lf_ctrl := nvme_failfast_work (lf_ctrl l)}>)
  | AResumeReset => resume_reset l
  end.
(** A resumption does not fail in the middle of another thread's reset; what happens
    then is [resume_beside_reset] in FindingsRequest.v. *)
Definition undisturbed (a : action) (l : life) : Prop := a = AResumeReset → state_of l ≠ NVME_CTRL_RESETTING.
Definition lstep (l l' : life) : Prop := ∃ a, undisturbed a l ∧ act a l = Some l'.

(** [snvme_init_ctrl]. *)
Definition snvme_init_ctrl (opts : option Z) : life :=
  Life (NvmeCtrl NVME_CTRL_NEW opts false false 0) 0 0 0 false None.
Definition alive (opts : option Z) (l : life) : Prop := rtc lstep (snvme_init_ctrl opts) l.

(** ** One owner *)

Definition working (r : option phase) : nat :=
  match r with Some Started | Some Resetting | Some Connecting | Some Failing => 1 | _ => 0 end.
(** Those that may move the controller on from RESETTING or CONNECTING. *)
Definition owners (l : life) : nat :=
  (lf_granted l + lf_prepared l + lf_fw l + (if lf_pending l then 1 else 0) + working (lf_run l))%nat.

(** The states in which [reset_work] may be in each phase. *)
Definition phase_ok (r : option phase) (st : nvme_ctrl_state) : bool :=
  match r, st with
  | Some Started, NVME_CTRL_RESETTING | Some Resetting, NVME_CTRL_RESETTING
  | Some Connecting, NVME_CTRL_CONNECTING => true
  | Some Failing, (NVME_CTRL_RESETTING | NVME_CTRL_CONNECTING) => true
  | Some (Started | Resetting | Connecting | Failing), (NVME_CTRL_DELETING | NVME_CTRL_DELETING_NOIO | NVME_CTRL_DEAD) => true
  | (None | Some Tail), NVME_CTRL_CONNECTING => false
  | (None | Some Tail), _ => true
  | _, _ => false
  end.
Definition owners_ok (n : nat) (st : nvme_ctrl_state) : Prop :=
  match st with
  | NVME_CTRL_NEW | NVME_CTRL_LIVE => n = 0%nat
  | NVME_CTRL_RESETTING | NVME_CTRL_CONNECTING => n = 1%nat
  | _ => (n ≤ 1)%nat
  end.
Record life_ok (l : life) : Prop := {
  lo_owners : owners_ok (owners l) (state_of l);
  lo_phase : phase_ok (lf_run l) (state_of l) = true;
}.

(** The effect of a change on the state. *)
Lemma change_state c new :
  snvme_change_ctrl_state c new =
  (if change_allowed new (ct_state c) then (true, (snvme_change_ctrl_state c new).2) else (false, c)) ∧
  ct_state (snvme_change_ctrl_state c new).2 = (if change_allowed new (ct_state c) then new else ct_state c).
Proof.
  rw /snvme_change_ctrl_state /nvme_stop_failfast_work /nvme_start_failfast_work.
  destruct c as [st [o|] w e k]; destruct new, st; simpl; try done; by destruct (o =? -1).
Qed.

Lemma change_inv new l yes no l' :
  change new l yes no = Some l' →
  (change_allowed new (state_of l) = true ∧ ∃ c', ct_state c' = new ∧ yes (l<{lf_ctrl := c'}>) = Some l') ∨
  (change_allowed new (state_of l) = false ∧ no l = Some l').
Proof.
  rw /change (proj1 (change_state _ _)) /state_of. pose proof (proj2 (change_state (lf_ctrl l) new)) as Hs.
  destruct (change_allowed _ _); [left; eauto|by right].
Qed.

Lemma failfast_state c : ct_state (nvme_failfast_work c) = ct_state c.
Proof. rw /nvme_failfast_work. by destruct (negb _). Qed.

Lemma try_sched_spec l : let l' := (snvme_try_sched_reset l).2 in
  l' = (if bool_decide (state_of l = NVME_CTRL_RESETTING) then l<{lf_pending := true}> else l).
Proof.
  rw /snvme_try_sched_reset. destruct (bool_decide _); [|done]. simpl. rw /queue_reset_work.
  destruct (lf_pending l) eqn:Ep; [|done]. destruct l. simpl in *. by subst.
Qed.
Lemma queue_spec l : (queue_reset_work l).2 = l<{lf_pending := true}>.
Proof. rw /queue_reset_work. destruct (lf_pending l) eqn:Ep; [|done]. destruct l. simpl in *. by subst. Qed.

(** Case analysis of an action: the outcome of its change of the state, the units
    it takes, the phase of the work; then the claim is read off for each state. *)
Ltac by_change Ha :=
  apply change_inv in Ha as [(Hal & c' & Hs' & Ha)|[Hal Ha]]; rw /state_of /= in Hal.
Ltac by_state Ha c :=
  injection Ha as <-; split; rw /owners /state_of /=;
  destruct (ct_state c) eqn:?; simpl in *; try discriminate; simplify_eq/=;
  repeat match goal with H : ct_state ?x = _ |- context [ct_state ?x] => rw H /= end; try done; try lia.

Ltac by_run r := simpl in *; first [done | lia | destruct r as [[]|]; simpl in *; first [done | lia]].

Section step.
Context (c : nvme_ctrl) (g p f : nat) (pd : bool) (r : option phase) (l' : life).
Let l : life := Life c g p f pd r.
Hypothesis Ho : owners_ok (g + p + f + (if pd then 1 else 0) + working r)%nat (ct_state c).
Hypothesis Hp : phase_ok r (ct_state c) = true.

(** Someone is given the RESETTING state. *)
Lemma claim_ok : reset_ctrl_claim l = Some l' ∨ snvme_wait_reset l = Some l' ∨ fw_act_starting l = Some l' → life_ok l'.
Proof using Ho Hp.
  intros [Ha|[Ha|Ha]]; by_change Ha; simpl in Ha; try destruct (nvme_state_terminal c); try discriminate; by_state Ha c; by_run r.
Qed.
(** Someone passes it on to the work, or drops it. *)
Lemma pass_ok :
  reset_ctrl_queue l = Some l' ∨ reset_done l = Some l' ∨ fw_act_timeout l = Some l' ∨ fw_act_done l = Some l' → life_ok l'.
Proof using Ho Hp.
  intros [Ha|[Ha|[Ha|Ha]]]; rw /reset_ctrl_queue /reset_done /fw_act_timeout /fw_act_done /take /= in Ha.
  - destruct g; [done|]. rw queue_spec in Ha. by_state Ha c; destruct pd; by_run r.
  - destruct p; [done|]. rw try_sched_spec /state_of /= in Ha. case_bool_decide; by_state Ha c; destruct pd; by_run r.
  - destruct f; [done|]. rw try_sched_spec /state_of /= in Ha. case_bool_decide; by_state Ha c; destruct pd; by_run r.
  - destruct f; [done|]. by_change Ha; by_state Ha c; by_run r.
Qed.
Lemma delete_ok new : new ∈ [NVME_CTRL_DELETING; NVME_CTRL_DEAD; NVME_CTRL_DELETING_NOIO] → delete new l = Some l' → life_ok l'.
Proof using Ho Hp.
  intros Hin Ha. rw /delete in Ha. by_change Ha; [|by injection Ha as <-; split].
  assert (new = NVME_CTRL_DELETING ∨ new = NVME_CTRL_DEAD ∨ new = NVME_CTRL_DELETING_NOIO) as [->|[->| ->]] by set_solver;
    by_state Ha c; by_run r.
Qed.
Lemma work_start_ok : work_start l = Some l' → life_ok l'.
Proof using Ho Hp. intros Ha. rw /work_start /= in Ha. destruct pd, r; try done. by_state Ha c. Qed.
Lemma reset_work_ok ok : nvme_reset_work ok l = Some l' → life_ok l'.
Proof using Ho Hp.
  intros Ha. destruct r as [[]|]; cbn [nvme_reset_work work_connecting work_live lf_run l] in Ha; [| | | | |done].
  - rw /work_test /goto in Ha. case_bool_decide as Hb; rw /state_of /= in Hb; by_state Ha c.
  - destruct ok; [by_change Ha|]; by_state Ha c.
  - destruct ok; [by_change Ha|]; by_state Ha c.
  - by_change Ha; by_state Ha c.
  - by_state Ha c.
Qed.
End step.

Lemma life_ok_step a l l' : life_ok l → undisturbed a l → act a l = Some l' → life_ok l'.
Proof.
  intros Hl Hq Ha. pose proof Hl as [Ho Hp]. destruct l as [c g p f pd r]. rw /owners /state_of /= in Ho, Hp.
  destruct a as [| | | | | | | | | | |ok| |]; rw /act in Ha.
  1,3,5: eapply claim_ok; eauto.
  1-4: eapply pass_ok; eauto 6.
  1-3: eapply delete_ok; [..|exact Ha]; [done|done|set_solver].
  - by eapply work_start_ok.
  - by eapply reset_work_ok.
  - injection Ha as <-. split; rw /owners /state_of /= failfast_state //.
  - injection Ha as <-. rw try_sched_spec bool_decide_eq_false_2 //. by apply Hq.
Qed.

Lemma alive_ok opts l : alive opts l → life_ok l.
Proof.
  rw /alive. intros H. assert (life_ok (snvme_init_ctrl opts)) as H0 by done. revert H0.
  induction H as [|x y z (a & Hq & Ha) _ IH]; [done|]. intros Hx. by eapply IH, life_ok_step.
Qed.

(** ** No way back *)

Lemma change_terminal new c :
  nvme_state_terminal c = true → nvme_state_terminal (snvme_change_ctrl_state c new).2 = true.
Proof. rw /nvme_state_terminal (proj2 (change_state c new)). by destruct new, (ct_state c). Qed.

(** An action changes the state through [snvme_change_ctrl_state] only. *)
Lemma act_ctrl a l l' :
  act a l = Some l' →
  ct_state (lf_ctrl l') = ct_state (lf_ctrl l) ∨ ∃ new, ct_state (lf_ctrl l') = ct_state (snvme_change_ctrl_state (lf_ctrl l) new).2.
Proof.
  assert (∀ new l yes no, (∀ l x, yes l = Some x → lf_ctrl x = lf_ctrl l) → (∀ l x, no l = Some x → lf_ctrl x = lf_ctrl l) →
    change new l yes no = Some l' →
    ct_state (lf_ctrl l') = ct_state (lf_ctrl l) ∨ ∃ new, ct_state (lf_ctrl l') = ct_state (snvme_change_ctrl_state (lf_ctrl l) new).2) as Hc.
  { intros new l0 yes no Hy Hn [(Hal & c' & Hs & Ha)|[_ Ha]]%change_inv; [right; exists new|left; by rw (Hn _ _ Ha)].
    rw (proj2 (change_state _ _)) (Hy _ _ Ha) /= Hs. rw /state_of in Hal. by rw Hal. }
  assert (∀ l, lf_ctrl (snvme_try_sched_reset l).2 = lf_ctrl l) as Ht.
  { intros l0. rw try_sched_spec. by case_bool_decide. }
  destruct l as [c g p f pd r].
  destruct a as [| | | | | | | | | | |ok| |]; rw /act; intros Ha.
  1,3,5,8-10: by (eapply Hc; [..|exact Ha]; intros ? ? Hx; simpl in Hx; try case_match; simplify_eq/=).
  - rw /reset_ctrl_queue /take /= in Ha. destruct g; [done|]. rw queue_spec in Ha. injection Ha as <-. by left.
  - rw /reset_done /take /= in Ha. destruct p; [done|]. injection Ha as <-. left. by rw Ht.
  - rw /fw_act_done /take /= in Ha. destruct f; [done|]. apply (Hc NVME_CTRL_LIVE (Life c g p f pd r) Some Some) in Ha; try done; intros ? ? Hx; by simplify_eq/=.
  - rw /fw_act_timeout /take /= in Ha. destruct f; [done|]. injection Ha as <-. left. by rw Ht.
  - left. rw /work_start /= in Ha. destruct pd, r; try done. by injection Ha as <-.
  - destruct r as [[]|]; cbn [nvme_reset_work lf_run] in Ha; rw ?/work_test ?/work_connecting ?/work_live ?/nvme_remove_dead_ctrl /goto in Ha; [| | | | |done].
    + left. destruct (bool_decide _); by injection Ha as <-.
    + destruct ok; [|left; by injection Ha as <-]. eapply Hc; [..|exact Ha]; intros ? ? Hx; by simplify_eq/=.
    + destruct ok; [|left; by injection Ha as <-]. eapply Hc; [..|exact Ha]; intros ? ? Hx; by simplify_eq/=.
    + eapply Hc; [..|exact Ha]; intros ? ? Hx; by simplify_eq/=.
    + left. by injection Ha as <-.
  - injection Ha as <-. left. apply failfast_state.
  - injection Ha as <-. left. by rw Ht.
Qed.

Lemma terminal_steps l l' :
  rtc lstep l l' → nvme_state_terminal (lf_ctrl l) = true → nvme_state_terminal (lf_ctrl l') = true.
Proof.
  induction 1 as [|x y z (a & _ & Ha) _ IH]; [done|]. intros Hx. apply IH.
  destruct (act_ctrl a x y Ha) as [Es|[new Es]]; rw /nvme_state_terminal Es.
  - exact Hx.
  - exact (change_terminal new _ Hx).
Qed.

(** C40.  A reset has one owner, and a removal is final.  Under every interleaving
    of resets, bus resets, suspensions and resumptions, firmware activations, timeouts,
    removals and the parts of [nvme_reset_work] in which no device fails to leave its
    low power state while another thread has the controller in RESETTING
    ([undisturbed]; [nvme_resume] then queues a reset that is not its own): (1) at most
    one thread or work item may move the
    controller on from RESETTING or CONNECTING, exactly one does while it is in one
    of these states, and none while it is NEW or LIVE; (2) hence the [queue_work] of
    [snvme_reset_ctrl] finds the work not queued; (3) the work starts in RESETTING
    and is in CONNECTING until it moves the controller to LIVE, unless the
    controller is being removed; (4) once it is, no further action leads back. *)
Theorem reset_has_one_owner opts l :
  alive opts l →
  owners_ok (owners l) (state_of l) ∧
  (0 < lf_granted l → (queue_reset_work l).1 = true)%nat ∧
  (nvme_state_terminal (lf_ctrl l) = false →
     (lf_run l = Some Started ∨ lf_run l = Some Resetting → state_of l = NVME_CTRL_RESETTING) ∧
     (lf_run l = Some Connecting → state_of l = NVME_CTRL_CONNECTING)) ∧
  (∀ l', rtc lstep l l' → nvme_state_terminal (lf_ctrl l) = true → nvme_state_terminal (lf_ctrl l') = true).
Proof.
  intros [Ho Hp]%alive_ok. split_and!; [done|..|intros; by eapply terminal_steps].
  - intros Hg. rw /queue_reset_work. destruct (lf_pending l) eqn:Ep; [|done].
    rw /owners Ep in Ho. destruct (state_of l); simpl in Ho; lia.
  - rw /nvme_state_terminal. fold (state_of l). intros Ht.
    split; [intros [Er|Er]|intros Er]; rw Er in Hp; by destruct (state_of l).
Qed.

(** The first reset, in the middle of the work. *)
Definition connecting : life := Life (NvmeCtrl NVME_CTRL_CONNECTING None false false 0) 0 0 0 false (Some Connecting).
Lemma reset_has_one_owner_w : alive None connecting ∧ owners_ok (owners connecting) (state_of connecting).
Proof.
  assert (alive None connecting) as Ha.
  { rw /alive. eapply rtc_l; [exists AResetClaim; by split|]. eapply rtc_l; [exists AResetQueue; by split|].
    eapply rtc_l; [exists AWorkStart; by split|]. do 2 (eapply rtc_l; [exists (AWork true); by split|]). apply rtc_refl. }
  split; [exact Ha|]. exact (proj1 (reset_has_one_owner None connecting Ha)).
Defined.
