(* ===== verification/ParallelQueue.v ===== *)
(** * The submission queue that many threads share (nvm_parallel_queue.h)

    The threads of an accelerator submit to one queue without a common lock.  A
    thread draws a ticket, waits for its slot, copies its command, marks the slot
    and then waits until some thread, perhaps itself, has swept the mark: the one
    that holds [tail_lock] sweeps all marks that follow the tail, rings the doorbell
    once for all of them and moves the tail.  Threads that take completions move
    the head.  Every atomic access is a step of its own, and the steps of all
    threads and of the controller interleave in any way; they are taken to be
    sequentially consistent.  Arrays are functions from the index, which the code
    always masks with [qs_minus_1]. *)
From stdpp Require Import functions.
From S2P Require Import Prelude.

Definition LOCKED : Z := 1.
Definition UNLOCKED : Z := 0.
Definition get_id (x y : Z) : Z := u64 (Z.shiftr x y * 2).

(** Where a call of [sq_enqueue] is: before the access that is named. *)
Inductive pc :=
  | PWait | PWaitAcquire          (* [tickets[pos] != id] *)
  | PCopy0 | PCopy1               (* [queue_loc[i] = cmd_[i]] *)
  | PMark                         (* [tail_mark[pos] = LOCKED] *)
  | PTest                         (* [cont = tail_mark[pos] == LOCKED] *)
  | PLockLoad | PLockOr           (* [tail_lock] *)
  | PLoadTail                     (* [cur_tail = tail] *)
  | PRoom (cur_tail count : Z)    (* [move_tail]: the head *)
  | PTake (cur_tail count : Z)    (* [move_tail]: the mark *)
  | PMoved (cur_tail count : Z)   (* [move_tail]: [head_lock] *)
  | PDoorbell (cur_tail count : Z)
  | PStoreTail (cur_tail count : Z)
  | PUnlock
  | PFinish                       (* [tickets[pos] += 1] *)
  | PDone.
#[export] Instance pc_eq_dec : EqDecision pc.
Proof. solve_decision. Defined.

Section model.
(** Half a command, [copy_type]. *)
Context {C : Type}.
Implicit Types c : C * C.

Record call := Call { c_cmd : C * C; c_ticket : Z; c_pc : pc }.

Record pq := Pq {
  p_qs_log2 : Z;
  p_in_ticket : Z;
  p_tickets : Z → Z;
  p_tail_mark : Z → Z;
  p_tail_lock : Z;
  p_head_lock : Z;
  p_tail : Z;
  p_head : Z;
  p_ring : Z → C * C;
  p_db : Z;
  p_calls : list call;             (* all calls so far, in the order of their tickets *)
  p_advance : option (Z * Z * Z);  (* [move_head_cq]: [new_sq_head], [loc], [sq_move_count] *)
  p_fetched : list (C * C);        (* what the controller has read *)
  p_posted : list Z;               (* completions not yet taken: the commands read before *)
  p_announced : Z;                 (* the last tail announced, before it was masked *)
}.
#[export] Instance eta_pq : Settable pq := λ x,
  Pq (p_qs_log2 x) (p_in_ticket x) (p_tickets x) (p_tail_mark x) (p_tail_lock x) (p_head_lock x) (p_tail x)
    (p_head x) (p_ring x) (p_db x) (p_calls x) (p_advance x) (p_fetched x) (p_posted x) (p_announced x).

Definition qs (s : pq) : Z := 2 ^ p_qs_log2 s.
(** [x & qs_minus_1]. *)
Definition mask (s : pq) (x : Z) : Z := Z.land x (qs s - 1).

Definition set_pc (t : nat) (p : pc) (s : pq) : pq :=
  s<{p_calls := alter (λ x, Call (c_cmd x) (c_ticket x) p) t (p_calls s)}>.

(** The first access of [sq_enqueue]. *)
Definition sq_enqueue (cmd : C * C) (s : pq) : pq :=
  s<{p_in_ticket := u32 (p_in_ticket s + 1)}><{p_calls := p_calls s ++ [Call cmd (p_in_ticket s) PWait] }>.

(** [move_tail]: is there room for one more command behind [count] others?  And is
    its slot marked? *)
Definition move_tail_room (s : pq) (cur_tail count : Z) : bool :=
  negb (mask s (u32 (cur_tail + count + 1)) =? mask s (p_head s)).
Definition move_tail_take (s : pq) (cur_tail count : Z) : bool * pq :=
  let loc := mask s (u32 (cur_tail + count)) in
  (p_tail_mark s loc =? LOCKED, s<{p_tail_mark := <[loc := UNLOCKED]> (p_tail_mark s)}>).

(** The next access of call [t]; [None] when it would wait. *)
Definition call_step (t : nat) (s : pq) : option pq :=
  x ← p_calls s !! t;
  let ticket := c_ticket x in
  let pos := mask s ticket in
  let id := get_id ticket (p_qs_log2 s) in
  match c_pc x with
  | PWait => if p_tickets s pos =? id then Some (set_pc t PWaitAcquire s) else None
  | PWaitAcquire => if p_tickets s pos =? id then Some (set_pc t PCopy0 s) else None
  | PCopy0 => Some (set_pc t PCopy1 (s<{p_ring := <[pos := ((c_cmd x).1, (p_ring s pos).2)]> (p_ring s)}>))
  | PCopy1 => Some (set_pc t PMark (s<{p_ring := <[pos := ((p_ring s pos).1, (c_cmd x).2)]> (p_ring s)}>))
  | PMark => Some (set_pc t PTest (s<{p_tail_mark := <[pos := LOCKED]> (p_tail_mark s)}>))
  | PTest => Some (set_pc t (if p_tail_mark s pos =? LOCKED then PLockLoad else PFinish) s)
  | PLockLoad => Some (set_pc t (if p_tail_lock s =? LOCKED then PTest else PLockOr) s)
  | PLockOr => Some (set_pc t (if p_tail_lock s =? LOCKED then PTest else PLoadTail)
                       (s<{p_tail_lock := Z.lor (p_tail_lock s) LOCKED}>))
  | PLoadTail => Some (set_pc t (PRoom (p_tail s) 0) s)
  | PRoom cur_tail count =>
    Some (set_pc t (if move_tail_room s cur_tail count then PTake cur_tail count else PMoved cur_tail count) s)
  | PTake cur_tail count =>
    let '(pass, s) := move_tail_take s cur_tail count in
    Some (set_pc t (if pass : bool then PRoom cur_tail (u32 (count + 1)) else PMoved cur_tail count) s)
  | PMoved cur_tail count =>
    Some (set_pc t (if c_true count then PDoorbell cur_tail count else PUnlock)
            (s<{p_head_lock := u32 (p_head_lock s + 1)}>))
  | PDoorbell cur_tail count =>
    let new_tail := u32 (cur_tail + count) in
    Some (set_pc t (PStoreTail cur_tail count) (s<{p_db := mask s new_tail}><{p_announced := new_tail}>))
  | PStoreTail cur_tail count => Some (set_pc t PUnlock (s<{p_tail := u32 (cur_tail + count)}>))
  | PUnlock => Some (set_pc t PTest (s<{p_tail_lock := UNLOCKED}>))
  | PFinish => Some (set_pc t PDone (s<{p_tickets := <[pos := u32 (p_tickets s pos + 1)]> (p_tickets s)}>))
  | PDone => None
  end.

(** [move_head_cq] once [count] completions have been swept, under [cq->head_lock]:
    the last of them tells how far the controller has read. *)
Definition move_head_start (k : nat) (s : pq) : option pq :=
  match p_advance s with
  | Some _ => None
  | None =>
    last_ ← p_posted s !! k;
    let new_sq_head := u16 (last_ mod qs s) in
    let loc := mask s (p_head s) in
    let s := s<{p_posted := drop (S k) (p_posted s)}> in
    Some (if loc =? new_sq_head then s else s<{p_advance := Some (new_sq_head, loc, 0)}>)
  end.
Definition move_head_step (s : pq) : option pq :=
  match p_advance s with
  | None => None
  | Some (new_sq_head, loc, sq_move_count) =>
    Some (if loc =? new_sq_head then s<{p_head := u32 (p_head s + sq_move_count)}><{p_advance := None}>
          else s<{p_tickets := <[loc := u32 (p_tickets s loc + 1)]> (p_tickets s)}>
                <{p_advance := Some (new_sq_head, mask s (loc + 1), u32 (sq_move_count + 1))}>)
  end.

(** The controller reads the next command that was announced, and reports how many
    it has read. *)
Definition fetch (s : pq) : option pq :=
  let at_ := Z.of_nat (length (p_fetched s)) mod qs s in
  if at_ =? p_db s then None else Some (s<{p_fetched := p_fetched s ++ [p_ring s at_] }>).
Definition post (s : pq) : pq := s<{p_posted := p_posted s ++ [Z.of_nat (length (p_fetched s))] }>.

Inductive pstep : pq → pq → Prop :=
  | pstep_enqueue cmd s : pstep s (sq_enqueue cmd s)
  | pstep_call t s s' : call_step t s = Some s' → pstep s s'
  | pstep_start k s s' : move_head_start k s = Some s' → pstep s s'
  | pstep_move s s' : move_head_step s = Some s' → pstep s s'
  | pstep_fetch s s' : fetch s = Some s' → pstep s s'
  | pstep_post s : pstep s (post s).

(** A queue as it is created: counters and marks are zero. *)
Definition pq_init (log2 : Z) (ring : Z → C * C) : pq :=
  Pq log2 0 (λ _, 0) (λ _, 0) 0 0 0 0 ring 0 [] None [] [] 0.
End model.
Arguments call : clear implicits.
Arguments pq : clear implicits.
