(* ===== verification/ParallelInv.v ===== *)
(** * The shared submission queue: invariant

    The slots of the ring and their tickets ([slots_inv]), the sweep under
    [tail_lock] and the movement of the head ([queue_inv]); every step of
    ParallelQueue.v keeps them while no counter wraps around. *)
From stdpp Require Import functions.
From S2P Require Import Prelude.
From S2P Require Import ParallelQueue.

(** ** The slots *)

(** How far a call has come. *)
Definition rank (p : pc) : nat :=
  match p with
  | PWait | PWaitAcquire => 0 | PCopy0 => 1 | PCopy1 => 2 | PMark => 3 | PFinish => 5 | PDone => 6 | _ => 4
  end.

(** Tickets are counted from 0; ticket [t] uses slot [t mod n] in round [t / n].
    [rk] is the rank of each call, [hp] the first ticket the head has not passed,
    [S] the first that has not been swept and [rd] the round each slot is in. *)
Section slots.
Context {C : Type} (n : Z).
Hypothesis n_pos : 2 ≤ n.
Implicit Types (rk : Z → nat) (rd tk mk : Z → Z) (ring : Z → C * C) (cmd : Z → option (C * C)).

Record slots_inv rk hp S rd tk mk ring cmd : Prop := {
  sl_swept : ∀ t, 0 ≤ t < S → (4 ≤ rk t)%nat;
  sl_leaving : ∀ t, 0 ≤ t → (5 ≤ rk t)%nat → t < S;
  sl_rd : ∀ p, 0 ≤ p < n → 0 ≤ rd p;
  sl_past : ∀ t, 0 ≤ t → t / n < rd (t mod n) → rk t = 6%nat ∧ t < hp;
  sl_future : ∀ t, 0 ≤ t → rd (t mod n) < t / n → rk t = 0%nat ∧ hp ≤ t;
  sl_now : ∀ t, 0 ≤ t → t / n = rd (t mod n) →
    ¬ (rk t = 6%nat ∧ t < hp) ∧
    tk (t mod n) = 2 * (t / n) + (if (rk t =? 6)%nat then 1 else 0) + (if t <? hp then 1 else 0);
  sl_mark : ∀ t, 0 ≤ t → t / n = rd (t mod n) →
    mk (t mod n) = if (4 <=? rk t)%nat && (S <=? t) then LOCKED else UNLOCKED;
  sl_half : ∀ t, 0 ≤ t → t / n = rd (t mod n) → (2 ≤ rk t)%nat → fst <$> cmd t = Some (ring (t mod n)).1;
  sl_full : ∀ t, 0 ≤ t → t / n = rd (t mod n) → (3 ≤ rk t)%nat → cmd t = Some (ring (t mod n));
}.

(** Slots and rounds determine the ticket. *)
Lemma ticket_eq t t' : t / n = t' / n → t mod n = t' mod n → t = t'.
Proof using n_pos. intros Hd Hm. pose proof (Z.div_mod t n ltac:(lia)) as H1. pose proof (Z.div_mod t' n ltac:(lia)) as H2. congruence. Qed.
Lemma same_slot t t' : t mod n = t' mod n → t < t' → t + n ≤ t' ∧ t / n < t' / n ∧ t + n ≤ t' / n * n + t' mod n.
Proof using n_pos.
  intros Hm Hlt. pose proof (Z.div_mod t n ltac:(lia)) as Ht. pose proof (Z.div_mod t' n ltac:(lia)) as Ht'.
  assert (t / n < t' / n) by nia. nia.
Qed.
Lemma next_round t : (t + n) / n = t / n + 1 ∧ (t + n) mod n = t mod n.
Proof using n_pos. replace (t + n) with (t + 1 * n) by lia. rw Z_div_plus_full ?Z_mod_plus_full; lia. Qed.
Lemma slot_of_ticket t : 0 ≤ t mod n < n.
Proof using n_pos. apply Z.mod_pos_bound. lia. Qed.

Section lemmas.
Context rk hp S rd tk mk ring cmd (I : slots_inv rk hp S rd tk mk ring cmd).

(** A call that is under way, or whose ticket the head has not passed. *)
Lemma now_entered t : 0 ≤ t → (1 ≤ rk t ≤ 5)%nat → t / n = rd (t mod n).
Proof using I.
  intros H0 Hr. destruct (Z.lt_trichotomy (t / n) (rd (t mod n))) as [H|[H|H]]; [|done|].
  - apply (sl_past _ _ _ _ _ _ _ _ I) in H; [|done]. lia.
  - apply (sl_future _ _ _ _ _ _ _ _ I) in H; [|done]. lia.
Qed.
Lemma now_unpassed t : 0 ≤ t → (1 ≤ rk t)%nat → hp ≤ t → t / n = rd (t mod n).
Proof using I.
  intros H0 Hr Hp. destruct (Z.lt_trichotomy (t / n) (rd (t mod n))) as [H|[H|H]]; [|done|].
  - apply (sl_past _ _ _ _ _ _ _ _ I) in H; [|done]. lia.
  - apply (sl_future _ _ _ _ _ _ _ _ I) in H; [|done]. lia.
Qed.

Lemma slots_rk rk' : (∀ t, 0 ≤ t → rk' t = rk t) → slots_inv rk' hp S rd tk mk ring cmd.
Proof using I.
  intros H. destruct I. split; intros t; intros; rw ?H //; eauto; try lia.
  - apply sl_leaving0; [done|]. by rw -H.
  - apply sl_half0; [done|done|]. by rw -H.
  - apply sl_full0; [done|done|]. by rw -H.
Qed.
Lemma slots_cmd cmd' : (∀ t c, 0 ≤ t → cmd t = Some c → cmd' t = Some c) → slots_inv rk hp S rd tk mk ring cmd'.
Proof using I.
  intros H. destruct I. split; try done; intros t H0 Hc Hr.
  - pose proof (sl_half0 t H0 Hc Hr) as Hh. destruct (cmd t) as [c|] eqn:Ec; [|done]. by rw (H t c H0 Ec).
  - apply H; eauto.
Qed.

(** The wait is over: the slot is in the round of the ticket. *)
Lemma slots_enter t rk' :
  0 ≤ t → rk t = 0%nat → tk (t mod n) = 2 * (t / n) → rk' t = 1%nat → (∀ u, u ≠ t → rk' u = rk u) →
  slots_inv rk' hp S rd tk mk ring cmd.
Proof using I n_pos.
  intros H0 Hr Htk Hn Ho.
  assert (t / n = rd (t mod n)) as Hnow.
  { set (u := rd (t mod n) * n + t mod n). pose proof (slot_of_ticket t) as Hs.
    pose proof (sl_rd _ _ _ _ _ _ _ _ I _ Hs) as Hrd.
    assert (u / n = rd (t mod n) ∧ u mod n = t mod n) as [Hu1 Hu2].
    { rw /u. rw Z.add_comm Z_div_plus_full ?Z_mod_plus_full ?Zmod_mod; [|lia]. rw Zdiv_small //. }
    destruct (sl_now _ _ _ _ _ _ _ _ I u ltac:(nia) ltac:(congruence)) as [Hnot Hv]. rw Hu2 Htk Hu1 in Hv.
    destruct (Nat.eqb_spec (rk u) 6), (Z.ltb_spec u hp); [exfalso; auto|lia..]. }
  destruct I. split; try done; intros u; destruct (decide (u = t)) as [->|Hne]; rw ?Hn ?Ho //; intros; try lia; eauto.
  - by pose proof (sl_swept0 t ltac:(done)); lia.
  - destruct (sl_now0 t H0 Hnow) as [_ Hv]. split; [lia|]. rw Hv Hr //.
  - rw sl_mark0 // Hr //.
Qed.

(** The copy. *)
Lemma slots_copy0 t rk' c :
  0 ≤ t → rk t = 1%nat → cmd t = Some c → rk' t = 2%nat → (∀ u, u ≠ t → rk' u = rk u) →
  slots_inv rk' hp S rd tk mk (<[t mod n := (c.1, (ring (t mod n)).2)]> ring) cmd.
Proof using I n_pos.
  intros H0 Hr Hc Hn Ho. pose proof (now_entered t H0 ltac:(lia)) as Hnow.
  destruct I. split; try done; intros u; destruct (decide (u = t)) as [->|Hne]; rw ?Hn ?Ho //; intros; try lia; eauto.
  - by pose proof (sl_swept0 t ltac:(done)); lia.
  - destruct (sl_now0 t H0 Hnow) as [_ Hv]. split; [lia|]. rw Hv Hr //.
  - rw sl_mark0 // Hr //.
  - rw fn_lookup_insert Hc //.
  - rw fn_lookup_insert_ne; [eauto|]. intros Hm. apply Hne, ticket_eq; congruence.
  - rw fn_lookup_insert_ne; [eauto|]. intros Hm. apply Hne, ticket_eq; congruence.
Qed.
Lemma slots_copy1 t rk' c :
  0 ≤ t → rk t = 2%nat → cmd t = Some c → rk' t = 3%nat → (∀ u, u ≠ t → rk' u = rk u) →
  slots_inv rk' hp S rd tk mk (<[t mod n := ((ring (t mod n)).1, c.2)]> ring) cmd.
Proof using I n_pos.
  intros H0 Hr Hc Hn Ho. pose proof (now_entered t H0 ltac:(lia)) as Hnow.
  destruct I. pose proof (sl_half0 t H0 Hnow ltac:(lia)) as Hh. rw Hc in Hh. injection Hh as Hh.
  split; try done; intros u; destruct (decide (u = t)) as [->|Hne]; rw ?Hn ?Ho //; intros; try lia; eauto.
  - by pose proof (sl_swept0 t ltac:(done)); lia.
  - destruct (sl_now0 t H0 Hnow) as [_ Hv]. split; [lia|]. rw Hv Hr //.
  - rw sl_mark0 // Hr //.
  - rw fn_lookup_insert Hc /= Hh //.
  - rw fn_lookup_insert_ne; [eauto|]. intros Hm. apply Hne, ticket_eq; congruence.
  - rw fn_lookup_insert Hc -Hh. by destruct c.
  - rw fn_lookup_insert_ne; [eauto|]. intros Hm. apply Hne, ticket_eq; congruence.
Qed.

(** The mark is set, and swept. *)
Lemma slots_set_mark t rk' :
  0 ≤ t → rk t = 3%nat → rk' t = 4%nat → (∀ u, u ≠ t → rk' u = rk u) →
  slots_inv rk' hp S rd tk (<[t mod n := LOCKED]> mk) ring cmd.
Proof using I n_pos.
  intros H0 Hr Hn Ho. pose proof (now_entered t H0 ltac:(lia)) as Hnow.
  destruct I. assert (S ≤ t) as HS. { destruct (Z.le_gt_cases S t); [done|]. pose proof (sl_swept0 t ltac:(lia)). lia. }
  split; try done; intros u; destruct (decide (u = t)) as [->|Hne]; rw ?Hn ?Ho //; intros; try lia; eauto.
  - destruct (sl_now0 t H0 Hnow) as [_ Hv]. split; [lia|]. rw Hv Hr //.
  - rw fn_lookup_insert. rw (proj2 (Z.leb_le S t)) //.
  - rw fn_lookup_insert_ne; [eauto|]. intros Hm. apply Hne, ticket_eq; congruence.
  - apply sl_half0; [done|done|lia].
  - apply sl_full0; [done|done|lia].
Qed.
Lemma slots_sweep :
  0 ≤ S → hp ≤ S → mk (S mod n) = LOCKED →
  (4 ≤ rk S)%nat ∧ slots_inv rk hp (S + 1) rd tk (<[S mod n := UNLOCKED]> mk) ring cmd.
Proof using I n_pos.
  intros H0 Hhp Hmk. set (u := rd (S mod n) * n + S mod n). pose proof (slot_of_ticket S) as Hs.
  pose proof (sl_rd _ _ _ _ _ _ _ _ I _ Hs) as Hrd.
  assert (u / n = rd (S mod n) ∧ u mod n = S mod n) as [Hu1 Hu2].
  { rw /u. rw Z.add_comm Z_div_plus_full ?Z_mod_plus_full ?Zmod_mod; [|lia]. rw Zdiv_small //. }
  assert (0 ≤ u) as Hu0 by nia. clearbody u. destruct I.
  pose proof (sl_mark0 u Hu0 ltac:(congruence)) as Hm. rw Hu2 Hmk in Hm.
  destruct ((4 <=? rk u)%nat && (S <=? u)) eqn:Eb; [|done]. apply andb_true_iff in Eb as [Eb1%Nat.leb_le Eb2%Z.leb_le].
  assert (u = S) as ->.
  { destruct (decide (u = S)); [done|]. destruct (same_slot S u ltac:(congruence) ltac:(lia)) as (H1 & H2 & _).
    destruct (next_round (u - n)) as [N1 N2]. replace (u - n + n) with u in N1, N2 by lia.
    destruct (sl_past0 (u - n) ltac:(lia)) as [_ Hlt]; [|lia]. rw -N2 Hu2. lia. }
  split; [done|]. split; try done.
  - intros t Ht. destruct (decide (t = S)) as [->|]; [done|]. apply sl_swept0. lia.
  - intros t Ht Hr. specialize (sl_leaving0 t Ht Hr). lia.
  - intros t Ht Hnow. destruct (decide (t = S)) as [->|Hne].
    + rw fn_lookup_insert. rw (proj2 (Z.leb_gt (S + 1) S)) ?andb_false_r //. lia.
    + rw fn_lookup_insert_ne; [|intros Hm'; apply Hne, ticket_eq; congruence]. rw sl_mark0 //.
      assert ((S + 1 <=? t) = (S <=? t)) as -> by (destruct (Z.leb_spec S t), (Z.leb_spec (S + 1) t); lia). done.
Qed.
Lemma slots_sweep_none p :
  mk p ≠ LOCKED → 0 ≤ p < n → slots_inv rk hp S rd tk (<[p := UNLOCKED]> mk) ring cmd.
Proof using I n_pos.
  intros Hmk Hp. destruct I. split; try done. intros t Ht Hnow. destruct (decide (t mod n = p)) as [<-|Hne].
  - rw fn_lookup_insert. pose proof (sl_mark0 t Ht Hnow) as Hm. by destruct (_ && _).
  - rw fn_lookup_insert_ne // sl_mark0 //.
Qed.

(** A call sees that its mark is gone. *)
Lemma slots_leave t rk' :
  0 ≤ t → rk t = 4%nat → mk (t mod n) ≠ LOCKED → rk' t = 5%nat → (∀ u, u ≠ t → rk' u = rk u) →
  slots_inv rk' hp S rd tk mk ring cmd.
Proof using I n_pos.
  intros H0 Hr Hmk Hn Ho. pose proof (now_entered t H0 ltac:(lia)) as Hnow.
  destruct I. assert (t < S) as HS.
  { pose proof (sl_mark0 t H0 Hnow) as Hm. rw Hr /= in Hm. destruct (Z.leb_spec S t); [done|lia]. }
  split; try done; intros u; destruct (decide (u = t)) as [->|Hne]; rw ?Hn ?Ho //; intros; try lia; eauto.
  - destruct (sl_now0 t H0 Hnow) as [_ Hv]. split; [lia|]. rw Hv Hr //.
  - rw sl_mark0 // Hr //.
  - apply sl_half0; [done|done|lia].
  - apply sl_full0; [done|done|lia].
Qed.

(** The two events that end a round: the call has finished, the head has passed.
    The second of them opens the slot for the next round. *)
Definition closed rk hp t : Z := (if (rk t =? 6)%nat then 1 else 0) + (if t <? hp then 1 else 0).

Section tick.
Context (t : Z) rk' (hp' : Z).
Hypothesis Ht : 0 ≤ t < S.
Hypothesis Hnow : t / n = rd (t mod n).
Hypothesis Hr : (4 ≤ rk t ≤ rk' t)%nat.
Hypothesis Ho : ∀ u, u ≠ t → rk' u = rk u.
Hypothesis Hhp : ∀ u, 0 ≤ u → u ≠ t → u < hp' ↔ u < hp.

Lemma tick_rank u k : (k ≤ 4)%nat → (k ≤ rk' u)%nat → (k ≤ rk u)%nat.
Proof using I n_pos Ht Hnow Hr Ho Hhp. intros Hk Hru. destruct (decide (u = t)) as [->|Hne]; [lia|]. by rw -Ho. Qed.
Lemma tick_leaving u : 0 ≤ u → (5 ≤ rk' u)%nat → u < S.
Proof using I n_pos Ht Hnow Hr Ho Hhp.
  intros Hu Hru. destruct (decide (u = t)) as [->|Hne]; [lia|]. rw Ho // in Hru. by eapply sl_leaving.
Qed.
Lemma tick_swept u : 0 ≤ u < S → (4 ≤ rk' u)%nat.
Proof using I n_pos Ht Hnow Hr Ho Hhp. intros Hu. destruct (decide (u = t)) as [->|Hne]; [lia|]. rw Ho //. by eapply sl_swept. Qed.
Lemma tick_unmarked : mk (t mod n) = UNLOCKED.
Proof using I n_pos Ht Hnow Hr Ho Hhp.
  rw (sl_mark _ _ _ _ _ _ _ _ I) //; [|lia]. rw (proj2 (Z.leb_gt S t)) ?andb_false_r //. lia.
Qed.
Lemma tick_mark u : 0 ≤ u → u / n = rd (u mod n) →
  mk (u mod n) = if (4 <=? rk' u)%nat && (S <=? u) then LOCKED else UNLOCKED.
Proof using I n_pos Ht Hnow Hr Ho Hhp.
  intros Hu Hc. destruct (decide (u = t)) as [->|Hne]; [|rw Ho //; by eapply sl_mark].
  rw tick_unmarked (proj2 (Z.leb_gt S t)) ?andb_false_r //. lia.
Qed.
Lemma tick_past u : 0 ≤ u → u / n < rd (u mod n) → rk' u = 6%nat ∧ u < hp'.
Proof using I n_pos Ht Hnow Hr Ho Hhp.
  intros Hu Hc. destruct (sl_past _ _ _ _ _ _ _ _ I u Hu Hc) as [H6 H7].
  assert (u ≠ t) as Hne by (intros ->; lia). by rw Ho // Hhp.
Qed.
Lemma tick_future u : 0 ≤ u → rd (u mod n) < u / n → rk' u = 0%nat ∧ hp' ≤ u.
Proof using I n_pos Ht Hnow Hr Ho Hhp.
  intros Hu Hc. destruct (sl_future _ _ _ _ _ _ _ _ I u Hu Hc) as [H6 H7].
  assert (u ≠ t) as Hne by (intros ->; lia). rw Ho //. split; [done|].
  destruct (Z.le_gt_cases hp' u) as [|Hx]; [done|]. apply Hhp in Hx; [lia|done|done].
Qed.
(** The other slots. *)
Lemma tick_now u : 0 ≤ u → u ≠ t → u / n = rd (u mod n) → ¬ (rk' u = 6%nat ∧ u < hp') ∧
  tk (u mod n) = 2 * (u / n) + (if (rk' u =? 6)%nat then 1 else 0) + (if u <? hp' then 1 else 0).
Proof using I n_pos Ht Hnow Hr Ho Hhp.
  intros Hu Hne Hc. assert ((u <? hp') = (u <? hp)) as ->.
  { specialize (Hhp u Hu Hne). destruct (Z.ltb_spec u hp), (Z.ltb_spec u hp'); tauto || lia. }
  rw Ho // Hhp //. by eapply sl_now.
Qed.
Hint Resolve tick_leaving tick_swept tick_mark tick_past tick_future : core.

(** The first of the two events. *)
Lemma slots_open v :
  v = 2 * (t / n) + closed rk' hp' t → closed rk' hp' t ≠ 2 → slots_inv rk' hp' S rd (<[t mod n := v]> tk) mk ring cmd.
Proof using I n_pos Ht Hnow Hr Ho Hhp.
  intros -> H2. split; auto.
  - by eapply sl_rd.
  - intros u Hu Hc. destruct (decide (u = t)) as [->|Hne].
    + rw fn_lookup_insert. split; [|rw /closed; lia]. intros [H6 H7]. apply H2.
      rw /closed H6 /= (proj2 (Z.ltb_lt t hp')) //.
    + rw fn_lookup_insert_ne; [by apply tick_now|]. intros Hm. apply Hne, ticket_eq; congruence.
  - intros u Hu Hc Hru. eapply sl_half; try done. by apply tick_rank; [lia|].
  - intros u Hu Hc Hru. eapply sl_full; try done. by apply tick_rank; [lia|].
Qed.

(** The second. *)
Lemma slots_next v :
  v = 2 * (t / n) + 2 → rk' t = 6%nat → t < hp' →
  slots_inv rk' hp' S (<[t mod n := t / n + 1]> rd) (<[t mod n := v]> tk) mk ring cmd.
Proof using I n_pos Ht Hnow Hr Ho Hhp.
  intros -> H6 H7. assert (∀ u, 0 ≤ u → t mod n = u mod n → t / n < u / n → rk' u = 0%nat ∧ hp' ≤ u) as Hlater.
  { intros u Hu Hm Hc. apply tick_future; [done|]. rw -Hm. lia. }
  split; auto.
  - intros q Hq. destruct (decide (t mod n = q)) as [<-|Hne]; [rw fn_lookup_insert|rw fn_lookup_insert_ne //; by eapply sl_rd].
    pose proof (Z.div_pos t n ltac:(lia) ltac:(lia)). lia.
  - intros u Hu. destruct (decide (t mod n = u mod n)) as [Hm|Hne]; [rw -Hm fn_lookup_insert|rw fn_lookup_insert_ne //; auto].
    intros Hc. destruct (decide (u = t)) as [->|Hne]; [done|]. apply tick_past; [done|]. rw -Hm -Hnow.
    destruct (decide (u / n = t / n)) as [Hq|Hq]; [|lia]. by destruct Hne; apply ticket_eq.
  - intros u Hu. destruct (decide (t mod n = u mod n)) as [Hm|Hne]; [rw -Hm fn_lookup_insert|rw fn_lookup_insert_ne //; auto].
    intros Hc. apply Hlater; [done|done|lia].
  - intros u Hu. destruct (decide (t mod n = u mod n)) as [Hm|Hne].
    + rw -Hm !fn_lookup_insert. intros Hc. destruct (Hlater u Hu Hm) as [Hr0 Hp0]; [lia|].
      rw Hr0 /= (proj2 (Z.ltb_ge u hp')) //. lia.
    + rw !fn_lookup_insert_ne //. intros Hc. apply tick_now; [done|by intros ->|done].
  - intros u Hu. destruct (decide (t mod n = u mod n)) as [Hm|Hne]; [rw -Hm fn_lookup_insert|rw fn_lookup_insert_ne //; auto].
    intros Hc. destruct (Hlater u Hu Hm) as [Hr0 Hp0]; [lia|]. rw Hr0 tick_unmarked //.
  - intros u Hu. destruct (decide (t mod n = u mod n)) as [Hm|Hne]; [rw -Hm fn_lookup_insert|rw fn_lookup_insert_ne //].
    + intros Hc Hr2. destruct (Hlater u Hu Hm); lia.
    + intros Hc Hru. eapply sl_half; try done. by apply tick_rank; [lia|].
  - intros u Hu. destruct (decide (t mod n = u mod n)) as [Hm|Hne]; [rw -Hm fn_lookup_insert|rw fn_lookup_insert_ne //].
    + intros Hc Hr2. destruct (Hlater u Hu Hm); lia.
    + intros Hc Hru. eapply sl_full; try done. by apply tick_rank; [lia|].
Qed.

Lemma slots_tick : closed rk' hp' t = closed rk hp t + 1 →
  tk (t mod n) = 2 * (t / n) + closed rk hp t ∧
  ∃ rd', slots_inv rk' hp' S rd' (<[t mod n := tk (t mod n) + 1]> tk) mk ring cmd.
Proof using I n_pos Ht Hnow Hr Ho Hhp.
  intros Hcl. destruct (sl_now _ _ _ _ _ _ _ _ I t ltac:(lia) Hnow) as [_ Htk].
  assert (tk (t mod n) = 2 * (t / n) + closed rk hp t) as Htk' by (rw /closed; lia). split; [done|].
  destruct (decide (closed rk' hp' t = 2)) as [H2|H2]; [|exists rd; apply slots_open; lia].
  exists (<[t mod n := t / n + 1]> rd). apply slots_next; [lia|..];
    rw /closed in H2; destruct (Nat.eqb_spec (rk' t) 6), (Z.ltb_spec t hp'); lia.
Qed.
End tick.
End lemmas.
End slots.

(** ** The queue *)

(** Two per round are no more than one per ticket. *)
Lemma half_round t n : 2 ≤ n → 0 ≤ t → 2 * (t / n) ≤ t.
Proof. intros Hn Ht. pose proof (Z.div_mod t n ltac:(lia)). pose proof (Z.mod_pos_bound t n ltac:(lia)). nia. Qed.

Section queue.
Context {C : Type}.
Implicit Types s : pq C.

Definition rank_at s (t : Z) : nat :=
  if t <? 0 then 0%nat else default 0%nat (rank ∘ c_pc <$> p_calls s !! Z.to_nat t).
Definition cmd_at s (t : Z) : option (C * C) := c_cmd <$> p_calls s !! Z.to_nat t.
Definition issued s : Z := Z.of_nat (length (p_calls s)).
Definition fetched s : Z := Z.of_nat (length (p_fetched s)).
(** The tickets the head has passed, those of an update under way included. *)
Definition passed s : Z := p_head s + match p_advance s with Some (_, _, k) => k | None => 0 end.

(** Who holds [tail_lock]. *)
Definition critical (p : pc) : bool :=
  match p with
  | PLoadTail | PRoom _ _ | PTake _ _ | PMoved _ _ | PDoorbell _ _ | PStoreTail _ _ | PUnlock => true
  | _ => false
  end.
(** What the holder has done: [S] is the first mark it has not swept. *)
Definition holder_ok s (S : Z) (p : pc) : Prop :=
  match p with
  | PRoom cur k | PMoved cur k | PDoorbell cur k =>
      cur = p_tail s ∧ S = cur + k ∧ p_announced s = p_tail s ∧ 0 ≤ k
  | PTake cur k => cur = p_tail s ∧ S = cur + k ∧ p_announced s = p_tail s ∧ 0 ≤ k ∧ S + 1 ≤ p_head s + qs s - 1
  | PStoreTail cur k => cur = p_tail s ∧ S = cur + k ∧ p_announced s = S ∧ 0 ≤ k
  | _ => S = p_tail s ∧ p_announced s = p_tail s
  end.
Definition lock_ok s (S : Z) : Prop :=
  (p_tail_lock s = UNLOCKED ∧ S = p_tail s ∧ p_announced s = p_tail s ∧
     ∀ t x, p_calls s !! t = Some x → critical (c_pc x) = false) ∨
  (p_tail_lock s = LOCKED ∧ ∃ t x, p_calls s !! t = Some x ∧ critical (c_pc x) = true ∧ holder_ok s S (c_pc x) ∧
     ∀ u y, p_calls s !! u = Some y → critical (c_pc y) = true → u = t).

(** The completions not yet taken report no less than the head, and no more than
    was read. *)
Definition head_ok s : Prop :=
  (∀ i j x y, (i ≤ j)%nat → p_posted s !! i = Some x → p_posted s !! j = Some y → x ≤ y ≤ fetched s) ∧
  ∃ target, passed s ≤ target ≤ fetched s ∧ (∀ i x, p_posted s !! i = Some x → target ≤ x) ∧
    match p_advance s with
    | Some (new, loc, k) => new = target mod qs s ∧ loc = passed s mod qs s ∧ 0 ≤ k
    | None => True
    end.

Record queue_inv s (S : Z) (rd : Z → Z) : Prop := {
  qi_slots : slots_inv (qs s) (rank_at s) (passed s) S rd (p_tickets s) (p_tail_mark s) (p_ring s) (cmd_at s);
  qi_ticket : p_in_ticket s = issued s;
  qi_calls : ∀ t x, p_calls s !! t = Some x → c_ticket x = Z.of_nat t;
  qi_order : 0 ≤ p_head s ≤ passed s ∧ passed s ≤ fetched s ≤ p_announced s ∧ p_announced s ≤ S ≤ issued s;
  qi_room : S ≤ p_head s + qs s - 1;
  qi_db : p_db s = p_announced s mod qs s;
  qi_lock : lock_ok s S;
  qi_head : head_ok s;
  qi_fetched : p_fetched s = take (length (p_fetched s)) (c_cmd <$> p_calls s);
}.

(** The sizes for which nothing wraps around. *)
Definition fits s : Prop := 1 ≤ p_qs_log2 s ≤ 16 ∧ issued s + qs s ≤ 2 ^ 32.

Lemma fits_qs s : fits s → 2 ≤ qs s ≤ 65536 ∧ (qs s | 2 ^ 32).
Proof.
  intros [[H1 H2] _]. rw /qs. split.
  - split; [apply (Z.pow_le_mono_r 2 1); lia|apply (Z.pow_le_mono_r 2 _ 16); lia].
  - exists (2 ^ (32 - p_qs_log2 s)). rw -Z.pow_add_r; [f_equal|..]; lia.
Qed.
Lemma mask_mod s x : fits s → mask s x = x mod qs s.
Proof.
  intros [[H1 H2] _]. rw /mask /qs Z.sub_1_r -Z.ones_equiv Z.land_ones //. lia.
Qed.
Lemma mask_u32 s x : fits s → mask s (u32 x) = x mod qs s.
Proof. intros Hf. rw mask_mod //. destruct (fits_qs s Hf) as [_ Hk]. by apply Z.mod_mod_divide. Qed.
Lemma get_id_round s t : fits s → 0 ≤ t < issued s → get_id t (p_qs_log2 s) = 2 * (t / qs s).
Proof.
  intros Hf Ht. destruct (fits_qs s Hf) as [Hq _]. destruct Hf as [[H1 H2] Hb].
  rw /get_id Z.shiftr_div_pow2; [|lia]. fold (qs s). rw u64_id; [lia|].
  assert (0 ≤ t / qs s ≤ t); [|lia]. split; [apply Z.div_pos; lia|apply Z.div_le_upper_bound; nia].
Qed.

(** ** A step of a call *)

Lemma rank_set_pc s t p u x :
  p_calls s !! t = Some x →
  rank_at (set_pc t p s) u = if decide (u = Z.of_nat t) then rank p else rank_at s u.
Proof.
  intros Hx. rw /rank_at /set_pc /=. destruct (Z.ltb_spec u 0); case_decide as Ht; try done; [lia| |].
  - subst u. rw Nat2Z.id list_lookup_alter_eq Hx //.
  - rw list_lookup_alter_ne //. lia.
Qed.
Lemma cmd_set_pc s t p u : cmd_at (set_pc t p s) u = cmd_at s u.
Proof.
  rw /cmd_at /set_pc /=. destruct (decide (Z.to_nat u = t)) as [<-|]; [|rw list_lookup_alter_ne //].
  rw list_lookup_alter_eq. by destruct (p_calls s !! Z.to_nat u).
Qed.
Lemma calls_set_pc s t p u y :
  p_calls (set_pc t p s) !! u = Some y →
  ∃ z, p_calls s !! u = Some z ∧ c_ticket y = c_ticket z ∧ c_pc y = if decide (u = t) then p else c_pc z.
Proof.
  rw /set_pc /=. destruct (decide (u = t)) as [->|]; [rw list_lookup_alter_eq|rw list_lookup_alter_ne //; eauto].
  destruct (p_calls s !! t) as [z|]; [|done]. intros [= <-]. by exists z.
Qed.

(** The fields a call does not change. *)
Definition call_only s s0 : Prop :=
  p_qs_log2 s0 = p_qs_log2 s ∧ p_in_ticket s0 = p_in_ticket s ∧ p_head s0 = p_head s ∧ p_calls s0 = p_calls s ∧
  p_advance s0 = p_advance s ∧ p_fetched s0 = p_fetched s ∧ p_posted s0 = p_posted s.

Section call.
Context (s : pq C) (S : Z) (rd : Z → Z) (t : nat) (x : call C) (p : pc).
Hypothesis I : queue_inv s S rd.
Hypothesis Hx : p_calls s !! t = Some x.

Lemma call_frame s0 S' rd' :
  call_only s s0 →
  slots_inv (qs s) (rank_at (set_pc t p s)) (passed s) S' rd' (p_tickets s0) (p_tail_mark s0) (p_ring s0) (cmd_at s) →
  fetched s ≤ p_announced s0 → p_announced s0 ≤ S' ≤ issued s → S' ≤ p_head s + qs s - 1 →
  p_db s0 = p_announced s0 mod qs s → lock_ok (set_pc t p s0) S' →
  queue_inv (set_pc t p s0) S' rd'.
Proof using I Hx.
  intros (E1 & E2 & E3 & E4 & E5 & E6 & E7) Hs Ha HS Hr Hd Hl. destruct I as [J1 J2 J3 J4 J5 J6 J7 J8 J9].
  set (s' := set_pc t p s0) in *.
  assert (qs s' = qs s) as Hq by (rw /qs /s' /= E1 //). assert (fetched s' = fetched s) as Hfe by (rw /fetched /s' /= E6 //).
  assert (passed s' = passed s) as Hpa by (rw /passed /s' /= E3 E5 //).
  assert (issued s' = issued s) as Hiss by (rw /issued /s' /= length_alter E4 //).
  split; rw ?Hq ?Hpa ?Hfe ?Hiss //.
  - eapply slots_cmd; [|intros u c _ Hu; rw cmd_set_pc /cmd_at E4; exact Hu].
    eapply slots_rk; [exact Hs|]. intros u _. by rw /rank_at /s' /set_pc /= E4.
  - rw /= E2 //.
  - intros u y [z (Hz & Ht & _)]%calls_set_pc. rw Ht. apply J3. by rw -E4.
  - rw /= E3. lia.
  - rw /= E3. lia.
  - rw /head_ok Hfe Hpa Hq /s' /= E5 E7. exact J8.
  - rw /s' /= E4 E6 {1}J9. f_equal. apply list_eq. intros i. rw !list_lookup_fmap.
    destruct (decide (i = t)) as [->|]; [rw list_lookup_alter_eq Hx //|rw list_lookup_alter_ne //].
Qed.

(** The lock. *)
Lemma holder_of : critical (c_pc x) = true →
  p_tail_lock s = LOCKED ∧ holder_ok s S (c_pc x) ∧ ∀ u y, p_calls s !! u = Some y → critical (c_pc y) = true → u = t.
Proof using I Hx.
  intros Hcr. destruct (qi_lock _ _ _ I) as [(_ & _ & _ & Hn)|(Hl & t0 & x0 & Hx0 & Hc0 & Hh & Hu)].
  - rw (Hn t x Hx) in Hcr. done.
  - split; [done|]. assert (t = t0) as -> by eauto. simplify_eq. done.
Qed.
Lemma lock_quiet s0 :
  call_only s s0 → p_tail_lock s0 = p_tail_lock s → p_tail s0 = p_tail s → p_announced s0 = p_announced s →
  critical (c_pc x) = false → critical p = false → lock_ok (set_pc t p s0) S.
Proof using I Hx.
  intros (E1 & E2 & E3 & E4 & _) El Et Ea Hc1 Hc2. rw /lock_ok. simpl p_tail_lock. simpl p_tail. simpl p_announced. rw El Et Ea.
  destruct (qi_lock _ _ _ I) as [(Hl & HS & Ha & Hn)|(Hl & t0 & x0 & Hx0 & Hc0 & Hh & Hu)]; [left|right].
  - split_and!; try done. intros u y (z & Hz & _ & Hy)%calls_set_pc. rw Hy E4 in Hz |- *.
    case_decide; [done|eauto].
  - split; [done|]. assert (t0 ≠ t) as Hne by (intros ->; simplify_eq; congruence). exists t0, x0. split_and!.
    + rw /set_pc /= list_lookup_alter_ne // E4 //.
    + done.
    + rw /holder_ok /qs in Hh |- *. simpl. rw E1 E3 Et Ea. exact Hh.
    + intros u y (z & Hz & _ & Hy)%calls_set_pc Hcy. rw E4 in Hz. rw Hy in Hcy. case_decide; [congruence|eauto].
Qed.
Lemma lock_hold s0 S' :
  call_only s s0 → p_tail_lock s0 = p_tail_lock s → critical (c_pc x) = true → critical p = true →
  holder_ok s0 S' p → lock_ok (set_pc t p s0) S'.
Proof using I Hx.
  intros (E1 & E2 & E3 & E4 & _) El Hc1 Hc2 Hh. destruct (holder_of Hc1) as (Hl & _ & Hu). right. split; [by rw /= El|].
  exists t, (Call (c_cmd x) (c_ticket x) p). split_and!; try done.
  - rw /set_pc /= list_lookup_alter_eq E4 Hx //.
  - intros u y (z & Hz & _ & Hy)%calls_set_pc Hcy. rw E4 in Hz. rw Hy in Hcy. case_decide; [done|eauto].
Qed.

(** Facts about the call that steps. *)
Lemma call_facts :
  c_ticket x = Z.of_nat t ∧ 0 ≤ Z.of_nat t < issued s ∧ rank_at s (Z.of_nat t) = rank (c_pc x) ∧
  cmd_at s (Z.of_nat t) = Some (c_cmd x).
Proof using I Hx.
  split_and!; [by eapply qi_calls|lia| | |].
  - apply lookup_lt_Some in Hx. rw /issued. lia.
  - rw /rank_at (proj2 (Z.ltb_ge (Z.of_nat t) 0)); [|lia]. rw Nat2Z.id Hx //.
  - rw /cmd_at Nat2Z.id Hx //.
Qed.
Lemma rank_new : rank_at (set_pc t p s) (Z.of_nat t) = rank p ∧
  ∀ u, u ≠ Z.of_nat t → rank_at (set_pc t p s) u = rank_at s u.
Proof using Hx.
  split; [rw (rank_set_pc _ _ _ _ x) // decide_True //|]. intros u Hu. rw (rank_set_pc _ _ _ _ x) // decide_False //.
Qed.
Lemma rank_keep u : rank p = rank (c_pc x) → rank_at (set_pc t p s) u = rank_at s u.
Proof using I Hx.
  intros Hr. rw (rank_set_pc _ _ _ _ x) //. case_decide as Hu; [|done]. subst u. rw Hr.
  by destruct call_facts as (_ & _ & -> & _).
Qed.

(** A step that keeps the rank and, apart from [S], what the slots are about. *)
Lemma call_keep s0 S' :
  call_only s s0 → rank p = rank (c_pc x) → p_tickets s0 = p_tickets s → p_tail_mark s0 = p_tail_mark s →
  p_ring s0 = p_ring s → S' = S → fetched s ≤ p_announced s0 ≤ S → p_db s0 = p_announced s0 mod qs s →
  lock_ok (set_pc t p s0) S' → queue_inv (set_pc t p s0) S' rd.
Proof using I Hx.
  intros Ho Hr E1 E2 E3 -> Ha Hd Hl. destruct (qi_order _ _ _ I) as (O1 & O2 & O3).
  apply call_frame; [done| |lia|lia|exact (qi_room _ _ _ I)|done|done].
  rw E1 E2 E3. eapply slots_rk; [by eapply qi_slots|]. intros u _. by apply rank_keep.
Qed.
Lemma call_quiet :
  rank p = rank (c_pc x) → critical (c_pc x) = false → critical p = false → queue_inv (set_pc t p s) S rd.
Proof using I Hx.
  intros Hr H1 H2. destruct (qi_order _ _ _ I) as (O1 & O2 & O3). apply call_keep; try done; [lia|exact (qi_db _ _ _ I)|].
  by apply lock_quiet.
Qed.
Lemma call_hold s0 :
  call_only s s0 → p_tickets s0 = p_tickets s → p_tail_mark s0 = p_tail_mark s → p_ring s0 = p_ring s →
  p_tail_lock s0 = p_tail_lock s → critical (c_pc x) = true → critical p = true →
  fetched s ≤ p_announced s0 ≤ S → p_db s0 = p_announced s0 mod qs s → holder_ok s0 S p →
  queue_inv (set_pc t p s0) S rd.
Proof using I Hx.
  intros Ho E1 E2 E3 E4 H1 H2 Ha Hd Hh. apply call_keep; try done; [by destruct p, (c_pc x)|].
  by apply lock_hold.
Qed.
End call.

(** *** Before the sweep *)

Section before.
Context (s : pq C) (S : Z) (rd : Z → Z) (t : nat) (x : call C).
Hypothesis I : queue_inv s S rd.
Hypothesis Hx : p_calls s !! t = Some x.
Hypothesis Hf : fits s.

Lemma mask_ticket : mask s (c_ticket x) = Z.of_nat t mod qs s.
Proof using I Hx Hf. rw mask_mod //. by destruct (call_facts s S rd t x I Hx) as (-> & _). Qed.

(** The rank rises by one, outside the lock; the slots are as one of their lemmas says. *)
Lemma call_rise s0 p rd' :
  call_only s s0 → p_tail_lock s0 = p_tail_lock s → p_tail s0 = p_tail s → p_announced s0 = p_announced s →
  p_db s0 = p_db s → critical (c_pc x) = false → critical p = false →
  slots_inv (qs s) (rank_at (set_pc t p s)) (passed s) S rd' (p_tickets s0) (p_tail_mark s0) (p_ring s0) (cmd_at s) →
  queue_inv (set_pc t p s0) S rd'.
Proof using I Hx.
  intros Ho E1 E2 E3 E4 H1 H2 Hs. destruct (qi_order _ _ _ I) as (O1 & O2 & O3).
  eapply call_frame; try done; rw ?E3 ?E4; [lia|lia|exact (qi_room _ _ _ I)|exact (qi_db _ _ _ I)|].
  by eapply lock_quiet.
Qed.

Lemma before_inv s' :
  call_step t s = Some s' → (rank (c_pc x) < 4)%nat ∨ c_pc x = PTest ∨ c_pc x = PFinish → ∃ rd', queue_inv s' S rd'.
Proof using I Hx Hf.
  intros Hs Hr. destruct (fits_qs s Hf) as [Hn _]. destruct (call_facts s S rd t x I Hx) as (Et & Ht & Er & Ec).
  pose proof mask_ticket as Hm. pose proof (qi_slots _ _ _ I) as J. rw /call_step Hx /= Hm in Hs.
  rw Et (get_id_round s _ Hf Ht) in Hs. pose proof (rank_new s t x) as Hnew.
  destruct (c_pc x) eqn:Epc; simpl in Hr, Er; try lia; try (destruct Hr as [Hr|[Hr|Hr]]; try lia; done).
  - case_match; [|done]. injection Hs as <-. exists rd. eapply call_quiet; try done; by rw Epc.
  - destruct (Z.eqb_spec (p_tickets s (Z.of_nat t mod qs s)) (2 * (Z.of_nat t / qs s))); [|done]. injection Hs as <-.
    exists rd. destruct (Hnew PCopy0 Hx) as [N1 N2]. eapply call_rise; try done; [by rw Epc|]. eapply (slots_enter _) with (t := Z.of_nat t); try done; lia.
  - injection Hs as <-. exists rd. destruct (Hnew PCopy1 Hx) as [N1 N2]. eapply call_rise; try done; [by rw Epc|].
    eapply (slots_copy0 _) with (t := Z.of_nat t); try done; lia.
  - injection Hs as <-. exists rd. destruct (Hnew PMark Hx) as [N1 N2]. eapply call_rise; try done; [by rw Epc|].
    eapply (slots_copy1 _) with (t := Z.of_nat t); try done; lia.
  - injection Hs as <-. exists rd. destruct (Hnew PTest Hx) as [N1 N2]. eapply call_rise; try done; [by rw Epc|].
    eapply (slots_set_mark _) with (t := Z.of_nat t); try done; lia.
  - injection Hs as <-. exists rd. destruct (Z.eqb_spec (p_tail_mark s (Z.of_nat t mod qs s)) LOCKED).
    + eapply call_quiet; try done; by rw Epc.
    + destruct (Hnew PFinish Hx) as [N1 N2]. eapply call_rise; try done; [by rw Epc|]. eapply (slots_leave _) with (t := Z.of_nat t); try done; lia.
  - injection Hs as <-. destruct (Hnew PDone Hx) as [N1 N2]. simpl in N1.
    destruct (slots_tick (qs s) ltac:(lia) _ _ _ _ _ _ _ _ J (Z.of_nat t) (rank_at (set_pc t PDone s)) (passed s)) as [Htk [rd' Hs'] ].
    + split; [lia|]. eapply sl_leaving; [exact J|lia|lia].
    + eapply now_entered; [exact J|lia|lia].
    + lia.
    + done.
    + done.
    + rw /closed N1 Er /=. lia.
    + exists rd'. eapply call_rise; try done; [by rw Epc|]. simpl. rw u32_id; [exact Hs'|].
      rw Htk /closed Er /=. destruct Hf as [_ Hb]. pose proof (Z.div_pos (Z.of_nat t) (qs s) ltac:(lia) ltac:(lia)).
      pose proof (half_round (Z.of_nat t) (qs s) ltac:(lia) ltac:(lia)).
      destruct (_ <? _); lia.
Qed.
End before.

(** *** The sweep *)

Section sweep.
Context (s : pq C) (S : Z) (rd : Z → Z) (t : nat) (x : call C).
Hypothesis I : queue_inv s S rd.
Hypothesis Hx : p_calls s !! t = Some x.
Hypothesis Hf : fits s.

Lemma acquire_inv :
  c_pc x = PLockOr → p_tail_lock s ≠ LOCKED → queue_inv (set_pc t PLoadTail (s<{p_tail_lock := LOCKED}>)) S rd.
Proof using I Hx.
  intros Epc Hl. destruct (qi_order _ _ _ I) as (O1 & O2 & O3).
  destruct (qi_lock _ _ _ I) as [(_ & HS & Ha & Hn)|(Hl' & _)]; [|done].
  eapply call_keep; try done; [by rw Epc|simpl; lia|exact (qi_db _ _ _ I)|]. right. split; [done|].
  exists t, (Call (c_cmd x) (c_ticket x) PLoadTail). split_and!; try done.
  - rw /set_pc /= list_lookup_alter_eq Hx //.
  - intros u y (z & Hz & _ & Hy)%calls_set_pc Hcy. rw Hy in Hcy. case_decide; [done|]. by rw (Hn u z Hz) in Hcy.
Qed.
Lemma release_inv :
  c_pc x = PUnlock → queue_inv (set_pc t PTest (s<{p_tail_lock := UNLOCKED}>)) S rd.
Proof using I Hx.
  intros Epc. destruct (qi_order _ _ _ I) as (O1 & O2 & O3).
  destruct (holder_of s S rd t x I Hx) as (Hl & Hh & Hu); [by rw Epc|]. rw Epc /= in Hh.
  eapply call_keep; try done; [by rw Epc|simpl; lia|exact (qi_db _ _ _ I)|]. left. split_and!; try done; try apply Hh.
  intros u y (z & Hz & _ & Hy)%calls_set_pc. rw Hy. case_decide as Hd; [done|].
  destruct (critical (c_pc z)) eqn:Ez; [|done]. by destruct Hd; eauto.
Qed.

(** The next mark of the sweep. *)
Lemma take_inv cur k s' :
  c_pc x = PTake cur k → call_step t s = Some s' → ∃ S', queue_inv s' S' rd.
Proof using I Hx Hf.
  intros Epc Hs. destruct (fits_qs s Hf) as [Hn _]. destruct (qi_order _ _ _ I) as (O1 & O2 & O3). pose proof (qi_slots _ _ _ I) as J.
  destruct (holder_of s S rd t x I Hx) as (Hl & Hh & Hu); [by rw Epc|]. rw Epc in Hh. destruct Hh as (-> & HS & Ha & Hk & Hroom).
  rw /call_step Hx /= Epc /move_tail_take mask_u32 // -HS in Hs. injection Hs as <-.
  assert (∀ p u, critical p = true → rank_at (set_pc t p s) u = rank_at s u) as Hrk.
  { intros p u Hp. apply (rank_keep s S rd t x _ I Hx). rw Epc. by destruct p. }
  destruct (Z.eqb_spec (p_tail_mark s (S mod qs s)) LOCKED) as [Hm|Hm].
  - exists (S + 1). destruct (slots_sweep (qs s) ltac:(lia) _ _ _ _ _ _ _ _ J) as [HrS Hs']; [lia|lia|done|].
    assert (S < issued s) as Hlt.
    { rw /rank_at (proj2 (Z.ltb_ge S 0)) in HrS; [|lia]. destruct (p_calls s !! Z.to_nat S) as [y|] eqn:Ey; [|simpl in HrS; lia].
      apply lookup_lt_Some in Ey. rw /issued. lia. }
    assert (u32 (k + 1) = k + 1) as Ek by (apply u32_id; destruct Hf as [_ ?]; lia).
    eapply call_frame; try done; simpl; [|lia|lia|exact (qi_db _ _ _ I)|].
    + eapply slots_rk; [exact Hs'|]. intros u _. by apply Hrk.
    + eapply lock_hold; try done; [by rw Epc|]. simpl. rw Ek. split_and!; try done; lia.
  - exists S. eapply call_frame; try done; simpl; [|lia|lia|exact (qi_db _ _ _ I)|].
    + eapply slots_rk; [|intros u _; by apply Hrk]. apply slots_sweep_none; [lia|done|done|]. apply slot_of_ticket. lia.
    + eapply lock_hold; try done; by rw Epc.
Qed.

Lemma sweep_inv s' :
  call_step t s = Some s' → rank (c_pc x) = 4%nat → c_pc x ≠ PTest → ∃ S', queue_inv s' S' rd.
Proof using I Hx Hf.
  intros Hs Hr Hnt. destruct (fits_qs s Hf) as [Hn _]. destruct (qi_order _ _ _ I) as (O1 & O2 & O3).
  pose proof (qi_db _ _ _ I) as Hdb. pose proof (qi_room _ _ _ I) as Hroom. destruct Hf as [_ Hfit].
  pose proof (holder_of s S rd t x I Hx) as Hhold.
  destruct (c_pc x) as [| | | | | | | | |cur k|cur k|cur k|cur k|cur k| | |] eqn:Epc; try done; simpl in Hhold.
  - rw /call_step Hx /= Epc in Hs. injection Hs as <-. exists S. destruct (_ =? _); eapply call_quiet; try done; by rw Epc.
  - rw /call_step Hx /= Epc in Hs. injection Hs as <-. exists S. destruct (Z.eqb_spec (p_tail_lock s) LOCKED) as [Hl|Hl].
    + assert (s<{p_tail_lock := Z.lor (p_tail_lock s) LOCKED}> = s) as Hs by (destruct s; simpl in *; by subst).
      change (queue_inv (set_pc t PTest (s<{p_tail_lock := Z.lor (p_tail_lock s) LOCKED}>)) S rd). rw Hs.
      eapply call_quiet; try done; by rw Epc.
    + destruct (qi_lock _ _ _ I) as [(Hl0 & _)|(Hl0 & _)]; [|done]. rw Hl0. by apply acquire_inv.
  - destruct (Hhold eq_refl) as (Hl & [HS Ha] & _). rw /call_step Hx /= Epc in Hs. injection Hs as <-. exists S.
    eapply call_hold; try done; [by rw Epc|lia|simpl; lia].
  - destruct (Hhold eq_refl) as (Hl & (-> & HS & Ha & Hk) & _). rw /call_step Hx /= Epc /move_tail_room mask_u32 // mask_mod // -HS in Hs.
    injection Hs as <-. exists S. destruct (Z.eqb_spec ((S + 1) mod qs s) (p_head s mod qs s)) as [Hw|Hw]; cbn [negb];
      (eapply call_hold; try done; try (by rw Epc); try lia).
    simpl. split_and!; try done.
    destruct (decide (S + 1 = p_head s + qs s)) as [Hx1|]; [|lia]. destruct Hw. rw Hx1. apply next_round. lia.
  - by eapply take_inv.
  - destruct (Hhold eq_refl) as (Hl & (-> & HS & Ha & Hk) & _). rw /call_step Hx /= Epc in Hs. injection Hs as <-. exists S.
    destruct (c_true k) eqn:Ek; (eapply call_hold; try done; try (by rw Epc); simpl; try lia).
    apply negb_false_iff, Z.eqb_eq in Ek. lia.
  - destruct (Hhold eq_refl) as (Hl & (-> & HS & Ha & Hk) & _). rw /call_step Hx /= Epc mask_u32 // -HS in Hs.
    assert (u32 S = S) as ES by (apply u32_id; lia). rw ES in Hs. injection Hs as <-. exists S.
    eapply call_hold; try done; try (by rw Epc); simpl; lia.
  - destruct (Hhold eq_refl) as (Hl & (-> & HS & Ha & Hk) & _). rw /call_step Hx /= Epc -HS in Hs.
    assert (u32 S = S) as ES by (apply u32_id; lia). rw ES in Hs. injection Hs as <-. exists S.
    eapply call_hold; try done; try (by rw Epc); simpl; lia.
  - rw /call_step Hx /= Epc in Hs. injection Hs as <-. exists S. by apply release_inv.
Qed.
End sweep.

(** ** The other steps *)

Section others.
Context (s : pq C) (S : Z) (rd : Z → Z).
Hypothesis I : queue_inv s S rd.
Hypothesis Hf : fits s.

Lemma enqueue_inv cmd : issued s + 1 < 2 ^ 32 → queue_inv (sq_enqueue cmd s) S rd.
Proof using I.
  intros Hb. destruct I as [J1 J2 J3 J4 J5 J6 J7 J8 J9]. set (s' := sq_enqueue cmd s).
  assert (issued s' = issued s + 1) as Hi by (rw /issued /s' /= length_app /=; lia).
  assert (∀ t y, p_calls s' !! t = Some y → p_calls s !! t = Some y ∨ (t = length (p_calls s) ∧ y = Call cmd (p_in_ticket s) PWait)) as Hc.
  { intros t y. rw /s' /=. intros [?|[? Hy]]%lookup_app_Some; [by left|right]. apply list_lookup_singleton_Some in Hy as [? <-].
    split; [lia|done]. }
  split; rw ?Hi; try done; try lia.
  - eapply slots_cmd with (cmd := cmd_at s); [|intros t c _; rw {1}/cmd_at; intros (y & Hy & ->)%fmap_Some; rw /cmd_at /s' /= (lookup_app_l_Some _ _ _ _ Hy) //].
    eapply slots_rk; [exact J1|]. intros t Ht. rw /rank_at. destruct (Z.ltb_spec t 0); [done|].
    destruct (p_calls s !! Z.to_nat t) as [y|] eqn:Ey.
    + rw /s' /= (lookup_app_l_Some _ _ _ _ Ey) //.
    + destruct (p_calls s' !! Z.to_nat t) as [z|] eqn:Ez; [|done]. destruct (Hc _ _ Ez) as [Hz|[_ ->]]; [congruence|done].
  - rw /s' /= J2 u32_id //. rw /issued in Hb |- *. lia.
  - intros t y [Hy|[-> ->] ]%Hc; [by apply J3|done].
  - destruct J4 as (O1 & O2 & O3). split_and!; try apply O1; try apply O2; try apply O3; lia.
  - destruct J7 as [(L1 & L2 & L3 & L4)|(L1 & t & y & Hy & L2 & L3 & L4)]; [left|right].
    + split_and!; try done. intros u z [Hz|[_ ->] ]%Hc; [eauto|done].
    + split; [done|]. exists t, y. split_and!; try done; [by apply lookup_app_l_Some|].
      intros u z [Hz|[_ ->] ]%Hc; [eauto|done].
  - rw {1}J9 /s' /= fmap_app take_app_le //. rw J9 length_take length_fmap. lia.
Qed.

(** Only the movement of the head, the completions and what was read change. *)
Lemma lock_frame s' :
  p_qs_log2 s' = p_qs_log2 s → p_tail_lock s' = p_tail_lock s → p_tail s' = p_tail s → p_announced s' = p_announced s →
  p_calls s' = p_calls s → p_head s ≤ p_head s' → lock_ok s' S.
Proof using I.
  intros E1 E2 E3 E4 E5 Hh. rw /lock_ok E2 E3 E4 E5.
  destruct (qi_lock _ _ _ I) as [?|(L1 & t & y & Hy & L2 & L3 & L4)]; [by left|right]. split; [done|]. exists t, y.
  split_and!; try done. rw /holder_ok /qs E1 E3 E4 in L3 |- *. destruct (c_pc y); try done. lia.
Qed.

Lemma start_inv k s' : move_head_start k s = Some s' → queue_inv s' S rd.
Proof using I Hf.
  destruct (fits_qs s Hf) as [Hn _]. rw /move_head_start. destruct (p_advance s) eqn:Ea; [done|].
  destruct (p_posted s !! k) as [l|] eqn:El; [|done]. simpl. intros [= <-].
  destruct I as [J1 J2 J3 J4 J5 J6 J7 [J8 (target & Ht1 & Ht2 & _)] J9]. assert (passed s = p_head s) as Hp by (rw /passed Ea; lia).
  assert (u16 (l mod qs s) = l mod qs s) as Eu.
  { apply u16_id. pose proof (Z.mod_pos_bound l (qs s)). lia. }
  assert (target ≤ l ≤ fetched s) as Hl by (split; [eauto|]; eapply J8; eauto).
  assert (∀ (i : nat) y, drop (Datatypes.S k) (p_posted s) !! i = Some y → l ≤ y ∧ y ≤ fetched s) as Hdrop.
  { intros i y. rw lookup_drop. intros Hy. eapply (J8 k (Datatypes.S k + i)%nat); [lia|done|done]. }
  assert (∀ (i j : nat) x y, (i ≤ j)%nat → drop (Datatypes.S k) (p_posted s) !! i = Some x →
    drop (Datatypes.S k) (p_posted s) !! j = Some y → x ≤ y ≤ fetched s) as Hmono.
  { intros i j x y Hij. rw !lookup_drop. intros Hx Hy. eapply J8; [|exact Hx|exact Hy]. lia. }
  rw mask_mod // Eu. destruct (Z.eqb_spec (p_head s mod qs s) (l mod qs s)).
  - split; try done. split; [done|]. exists l. split; [change (passed s ≤ l ≤ fetched s); lia|].
    split; [intros i y Hy; by destruct (Hdrop i y Hy)|]. by rw /= Ea.
  - assert (∀ s1, s1 = s<{p_posted := drop (Datatypes.S k) (p_posted s)}><{p_advance := Some (l mod qs s, p_head s mod qs s, 0)}> →
      passed s1 = passed s) as Hpa by (intros s1 ->; rw Hp /passed /=; lia).
    split; try done; rw ?(Hpa _ eq_refl) //. split; [done|]. exists l. rw (Hpa _ eq_refl).
    split; [change (passed s ≤ l ≤ fetched s); lia|split; [intros i y Hy; by destruct (Hdrop i y Hy)|] ]. rw /= Hp. done.
Qed.

Lemma post_inv : queue_inv (post s) S rd.
Proof using I.
  destruct I as [J1 J2 J3 J4 J5 J6 J7 [J8 (target & Ht1 & Ht2 & Ht3)] J9]. split; try done. split.
  - intros i j x y Hij. rw /post /=. intros [Hx|[? Hx] ]%lookup_app_Some [Hy|[? Hy] ]%lookup_app_Some.
    + by eapply J8.
    + apply list_lookup_singleton_Some in Hy as [? <-]. pose proof (J8 i i x x ltac:(lia) Hx Hx). rw /fetched in H1 |- *. simpl. lia.
    + apply lookup_lt_Some in Hy. lia.
    + apply list_lookup_singleton_Some in Hx as [? <-]. apply list_lookup_singleton_Some in Hy as [? <-]. rw /fetched /=. lia.
  - exists target. split_and!; try done; try apply Ht1. intros i x. rw /post /=. intros [Hx|[? Hx] ]%lookup_app_Some; [eauto|].
    apply list_lookup_singleton_Some in Hx as [? <-]. apply Ht1.
Qed.

(** Positions less than a round apart. *)
Lemma same_mod a b : a ≤ b < a + qs s → a mod qs s = b mod qs s → a = b.
Proof using Hf.
  intros Hab Hm. destruct (fits_qs s Hf) as [Hn _]. destruct (decide (a = b)); [done|].
  destruct (same_slot (qs s) ltac:(lia) a b Hm ltac:(lia)). lia.
Qed.

Lemma move_inv s' : move_head_step s = Some s' → ∃ rd', queue_inv s' S rd'.
Proof using I Hf.
  destruct (fits_qs s Hf) as [Hn _]. rw /move_head_step. destruct (p_advance s) as [[[new loc] k]|] eqn:Ea; [|done].
  pose proof I as [J1 J2 J3 (O1 & O2 & O3) J5 J6 J7 [J8 (target & Ht1 & Ht2 & Ht3)] J9]. rw Ea in Ht3. destruct Ht3 as (-> & -> & Hk).
  assert (passed s = p_head s + k) as Hp by (rw /passed Ea //). destruct Hf as [_ Hfit].
  destruct (Z.eqb_spec (passed s mod qs s) (target mod qs s)) as [Hm|Hm]; intros [= <-].
  - exists rd. apply same_mod in Hm; [|lia]. rw u32_id; [|lia]. rw -Hp.
    assert (∀ s1, s1 = s<{p_head := passed s}><{p_advance := None}> → passed s1 = passed s) as Hpa.
    { intros s1 ->. rw {1}/passed /=. lia. }
    split; try done; rw ?(Hpa _ eq_refl) //.
    + split_and!; try apply O1; try apply O2; try apply O3; simpl; lia.
    + change (S ≤ passed s + qs s - 1). lia.
    + apply lock_frame; try done. simpl. lia.
    + split; [done|]. exists target. rw (Hpa _ eq_refl). done.
  - assert (passed s < target) as Hlt by (destruct (decide (passed s = target)) as [E0|]; [by rw E0 in Hm|lia]).
    assert (4 ≤ rank_at s (passed s))%nat as Hr by (eapply sl_swept; [exact J1|lia]).
    destruct (slots_tick (qs s) ltac:(lia) _ _ _ _ _ _ _ _ J1 (passed s) (rank_at s) (passed s + 1)) as [Htk [rd' Hs]].
    + lia.
    + eapply now_unpassed; [exact J1|lia|lia|lia].
    + lia.
    + done.
    + lia.
    + rw /closed Z.ltb_irrefl (proj2 (Z.ltb_lt (passed s) (passed s + 1))); lia.
    + exists rd'. assert (u32 (k + 1) = k + 1) as Ek by (apply u32_id; lia).
      assert (u32 (p_tickets s (passed s mod qs s) + 1) = p_tickets s (passed s mod qs s) + 1) as Et.
      { apply u32_id. rw Htk /closed Z.ltb_irrefl. pose proof (Z.div_pos (passed s) (qs s) ltac:(lia) ltac:(lia)).
        assert (2 * (passed s / qs s) ≤ passed s) by (apply half_round; lia). destruct (_ =? _)%nat; lia. }
      rw Et Ek mask_mod // Zplus_mod_idemp_l.
      match goal with |- queue_inv ?x _ _ => set (s1 := x) end.
      assert (passed s1 = passed s + 1) as Hpa by (rw {1}/passed /= Hp; lia).
      split; try done; rw ?Hpa //.
      * change (0 ≤ p_head s ≤ passed s + 1 ∧ passed s + 1 ≤ fetched s ≤ p_announced s ∧ p_announced s ≤ S ≤ issued s). lia.
      * split; [done|]. exists target. rw Hpa. split; [change (passed s + 1 ≤ target ≤ fetched s); lia|].
        split; [done|]. simpl. split_and!; try done. lia.
Qed.

Lemma fetch_inv s' : fetch s = Some s' → queue_inv s' S rd.
Proof using I Hf.
  destruct (fits_qs s Hf) as [Hn _]. rw /fetch. fold (fetched s).
  destruct (Z.eqb_spec (fetched s mod qs s) (p_db s)) as [|Hne]; [done|]. intros [= <-].
  destruct I as [J1 J2 J3 (O1 & O2 & O3) J5 J6 J7 [J8 (target & Ht1 & Ht2 & Ht3)] J9].
  assert (fetched s < p_announced s) as Hlt.
  { destruct (decide (fetched s = p_announced s)) as [E0|]; [|lia]. by rw J6 E0 in Hne. }
  assert (cmd_at s (fetched s) = Some (p_ring s (fetched s mod qs s))) as Hc.
  { assert (4 ≤ rank_at s (fetched s))%nat as Hr by (eapply sl_swept; [exact J1|lia]).
    eapply sl_full; [exact J1|lia|eapply now_unpassed; [exact J1|lia|lia|lia]|lia]. }
  assert (∀ s1, p_fetched s1 = p_fetched s ++ [p_ring s (fetched s mod qs s)] → fetched s1 = fetched s + 1) as Hfe.
  { intros s1 E1. rw /fetched E1 length_app /=. lia. }
  match goal with |- queue_inv ?x _ _ => set (s1 := x) end. specialize (Hfe s1 eq_refl).
  split; try done; rw ?Hfe //.
  - change (0 ≤ p_head s ≤ passed s ∧ passed s ≤ fetched s + 1 ≤ p_announced s ∧ p_announced s ≤ S ≤ issued s). lia.
  - split.
    + intros i j x y Hij Hx Hy. rw Hfe. pose proof (J8 i j x y Hij Hx Hy). lia.
    + exists target. rw Hfe. split; [change (passed s ≤ target ≤ fetched s + 1); lia|done].
  - rw /= length_app /= Nat.add_1_r. rw /cmd_at /fetched Nat2Z.id in Hc.
    rw (take_S_r _ _ (p_ring s (fetched s mod qs s))); [by rw -J9|]. rw list_lookup_fmap. exact Hc.
Qed.
End others.
End queue.
