(* ===== verification/ParallelCq.v ===== *)
(** * The completion queue that many threads share (nvm_parallel_queue.h)

    A thread that has submitted a command with id [cid] searches the completion
    queue for its entry ([cq_poll]), marks it and waits until some thread, perhaps
    itself, has swept the mark ([cq_dequeue]): the one that holds [head_lock] sweeps
    all marks that follow the head, moves the head of the submission queue to where
    the last of these entries says (ParallelQueue.v has the other side of it), rings
    the doorbell and moves the head.  Every atomic access is
    a step of its own, in any order and sequentially consistent; the controller
    posts in between.  Ids come from [get_cid], which may return any id that is not
    locked.  An entry with an error status makes [cq_poll] trap ([CTrap]). *)
From stdpp Require Import functions.
From S2P Require Import Prelude.
From S2P Require Import PhaseRing.
From S2P Require Import ParallelQueue.

(** Where a thread is: before the access that is named.  [pos] is the slot that
    [cq_poll] returned. *)
Inductive cpc :=
  | CPoll                               (* [cq_poll]: [head = cq->head] *)
  | CScan (head i : Z)                  (* the entry at [head + i] *)
  | CTail (pos : Z)                     (* [cq->tail += 1] *)
  | CPosWait (pos : Z) | CPosLock (pos : Z)
  | CMark (pos : Z)                     (* [head_mark[pos] = LOCKED] *)
  | CTest (pos : Z)                     (* [cont = head_mark[pos] == LOCKED] *)
  | CLock (pos : Z)                     (* [head_lock] *)
  | CLoadHead (pos : Z)                 (* [cur_head = head] *)
  | CSweep (pos cur_head count : Z)     (* [move_head_cq]: the next mark *)
  | CSqEntry (pos cur_head count : Z)   (* [move_head_cq]: the last entry, unless [count] is 0 *)
  | CSqLoad (pos cur_head count new_sq_head : Z)                     (* [cur_sq_head = sq->head] *)
  | CSqTicket (pos cur_head count new_sq_head loc sq_move_count : Z) (* [sq->tickets[loc] += 1] *)
  | CSqMove (pos cur_head count sq_move_count : Z)                   (* [sq->head += sq_move_count] *)
  | CDoorbell (pos cur_head count : Z)
  | CStoreHead (pos cur_head count : Z)
  | CUnlock (pos : Z)
  | CExit (pos : Z)                     (* the last loop *)
  | CPosUnlock (pos : Z)
  | CPut (pos : Z)                      (* [put_cid] *)
  | CDone (pos : Z)
  | CTrap.                              (* [assert(false)] of [cq_poll] *)

Record ccall := CCall { cc_cid : Z; cc_pc : cpc }.

(** The parts of an entry that are read: id, phase tag and status ([dword[3]]) and the
    head of the submission queue ([dword[2]]). *)
Record centry := Centry { ce_cid : Z; ce_phase : bool; ce_sq_head : Z; ce_status : Z }.

Record cq := Cq {
  k_qs_log2 : Z;
  k_head : Z;
  k_tail : Z;
  k_head_lock : Z;
  k_head_mark : Z → Z;
  k_pos_locks : Z → Z;
  k_db : Z;
  k_cid : Z → Z;               (* the locks of the ids *)
  k_ring : list centry;
  k_sq_qs_log2 : Z;            (* the submission queue *)
  k_sq_head : Z;
  k_sq_tickets : Z → Z;
  k_calls : list ccall;        (* all calls so far *)
  k_posted : list nat;         (* the calls whose commands completed, in the order of their entries *)
  k_entries : list centry;     (* these entries *)
  k_released : Z;              (* the last head announced, before it was masked *)
}.
#[export] Instance eta_cq : Settable cq := λ x,
  Cq (k_qs_log2 x) (k_head x) (k_tail x) (k_head_lock x) (k_head_mark x) (k_pos_locks x) (k_db x) (k_cid x)
    (k_ring x) (k_sq_qs_log2 x) (k_sq_head x) (k_sq_tickets x) (k_calls x) (k_posted x) (k_entries x) (k_released x).

Definition kqs (s : cq) : Z := 2 ^ k_qs_log2 s.
Definition kmask (s : cq) (x : Z) : Z := Z.land x (kqs s - 1).
Definition ksqs (s : cq) : Z := 2 ^ k_sq_qs_log2 s.
Definition ksmask (s : cq) (x : Z) : Z := Z.land x (ksqs s - 1).
Definition set_cpc (t : nat) (p : cpc) (s : cq) : cq :=
  s<{k_calls := alter (λ x, CCall (cc_cid x) p) t (k_calls s)}>.

(** ** Ids *)

(** One round of [get_cid] at the id [id] of the ticket: taken if it was free. *)
Definition get_cid (id : Z) (s : cq) : option cq :=
  if k_cid s id =? LOCKED then None
  else Some (s<{k_cid := <[id := Z.lor (k_cid s id) LOCKED]> (k_cid s)}><{k_calls := k_calls s ++ [CCall id CPoll] }>).
Definition put_cid (id : Z) (s : cq) : cq := s<{k_cid := <[id := UNLOCKED]> (k_cid s)}>.

(** ** Search *)

(** An entry as [cq_poll] reads it at [cur_head]. *)
Definition search_phase (s : cq) (cur_head : Z) : bool := negb (Z.odd (Z.shiftr cur_head (k_qs_log2 s))).
Definition cq_poll_entry (s : cq) (search_cid head i : Z) : option cpc :=
  let cur_head := u32 (head + i) in
  let loc := kmask s cur_head in
  cpl_entry ← k_ring s !! Z.to_nat loc;
  let phase := ce_phase cpl_entry in
  Some (if (ce_cid cpl_entry =? search_cid) && eqb phase (search_phase s cur_head)
        then (if c_true (ce_status cpl_entry) then CTrap else CTail loc)
        else if negb (eqb phase (search_phase s cur_head)) then CPoll
        else CScan head (i + 1)).

(** ** Removal *)

(** [move_head_cq]: the mark [count] entries behind the head. *)
Definition move_head_cq (s : cq) (cur_head count : Z) : bool * cq :=
  let loc := kmask s (u32 (cur_head + count)) in
  (k_head_mark s loc =? LOCKED, s<{k_head_mark := <[loc := UNLOCKED]> (k_head_mark s)}>).

(** [move_head_cq], once [count] marks were swept: where the loop over the tickets of
    the submission queue goes on from [loc]. *)
Definition sq_ticket_pc (pos cur_head count new_sq_head loc sq_move_count : Z) : cpc :=
  if loc =? new_sq_head then CSqMove pos cur_head count sq_move_count
  else CSqTicket pos cur_head count new_sq_head loc sq_move_count.

(** The next access of call [t]; [None] when it would wait, is done or has trapped. *)
Definition ccall_step (t : nat) (s : cq) : option cq :=
  x ← k_calls s !! t;
  match cc_pc x with
  | CPoll => Some (set_cpc t (CScan (k_head s) 0) s)
  | CScan head i =>
    if kqs s - 1 <=? i then Some (set_cpc t CPoll s) else
    p ← cq_poll_entry s (cc_cid x) head i; Some (set_cpc t p s)
  | CTail pos => Some (set_cpc t (CPosWait pos) (s<{k_tail := u32 (k_tail s + 1)}>))
  | CPosWait pos => if k_pos_locks s pos =? 0 then Some (set_cpc t (CPosLock pos) s) else None
  | CPosLock pos => if k_pos_locks s pos =? 0
      then Some (set_cpc t (CMark pos) (s<{k_pos_locks := <[pos := 1]> (k_pos_locks s)}>)) else None
  | CMark pos => Some (set_cpc t (CTest pos) (s<{k_head_mark := <[pos := LOCKED]> (k_head_mark s)}>))
  | CTest pos => Some (set_cpc t (if k_head_mark s pos =? LOCKED then CLock pos else CExit pos) s)
  | CLock pos => Some (set_cpc t (if k_head_lock s =? LOCKED then CTest pos else CLoadHead pos)
                         (s<{k_head_lock := Z.lor (k_head_lock s) LOCKED}>))
  | CLoadHead pos => Some (set_cpc t (CSweep pos (k_head s) 0) s)
  | CSweep pos cur_head count =>
    let '(pass, s) := move_head_cq s cur_head count in
    Some (set_cpc t (if pass : bool then CSweep pos cur_head (u32 (count + 1)) else CSqEntry pos cur_head count) s)
  | CSqEntry pos cur_head count =>
    if negb (c_true count) then Some (set_cpc t (CUnlock pos) s) else
    cpl_entry ← k_ring s !! Z.to_nat (kmask s (u32 (cur_head + (count - 1))));
    Some (set_cpc t (CSqLoad pos cur_head count (u16 (ce_sq_head cpl_entry))) s)
  | CSqLoad pos cur_head count new_sq_head =>
    let loc := ksmask s (k_sq_head s) in
    Some (set_cpc t (if negb (loc =? new_sq_head) then CSqTicket pos cur_head count new_sq_head loc 0
                     else CDoorbell pos cur_head count) s)
  | CSqTicket pos cur_head count new_sq_head loc sq_move_count =>
    Some (set_cpc t (sq_ticket_pc pos cur_head count new_sq_head (ksmask s (u32 (loc + 1))) (u32 (sq_move_count + 1)))
            (s<{k_sq_tickets := <[loc := u32 (k_sq_tickets s loc + 1)]> (k_sq_tickets s)}>))
  | CSqMove pos cur_head count sq_move_count =>
    Some (set_cpc t (CDoorbell pos cur_head count) (s<{k_sq_head := u32 (k_sq_head s + sq_move_count)}>))
  | CDoorbell pos cur_head count =>
    let new_head := u32 (cur_head + count) in
    Some (set_cpc t (CStoreHead pos cur_head count) (s<{k_db := kmask s new_head}><{k_released := new_head}>))
  | CStoreHead pos cur_head count => Some (set_cpc t (CUnlock pos) (s<{k_head := u32 (cur_head + count)}>))
  | CUnlock pos => Some (set_cpc t (CTest pos) (s<{k_head_lock := UNLOCKED}>))
  | CExit pos => if 0 <? k_head s then Some (set_cpc t (CPosUnlock pos) s) else None
  | CPosUnlock pos => Some (set_cpc t (CPut pos) (s<{k_pos_locks := <[pos := 0]> (k_pos_locks s)}>))
  | CPut pos => Some (set_cpc t (CDone pos) (put_cid (cc_cid x) s))
  | CDone _ | CTrap => None
  end.

(** ** The controller *)

(** It completes the command of call [t] with [status] when there is room for an
    entry, and reports that it has read the submission queue up to [sq_head]. *)
Definition cpost (t : nat) (sq_head status : Z) (s : cq) : option cq :=
  x ← k_calls s !! t;
  if bool_decide (t ∈ k_posted s) then None else
  let k := Z.of_nat (length (k_posted s)) in
  if (k + 1) mod kqs s =? k_db s then None else
  let e := Centry (cc_cid x) (phase_of (kqs s) k) sq_head status in
  Some (s<{k_ring := <[Z.to_nat (slot_of (kqs s) k) := e]> (k_ring s)}>
         <{k_posted := k_posted s ++ [t] }><{k_entries := k_entries s ++ [e] }>).

(** [allowed] restricts which ids may be taken when.  The head that is reported is a
    position of the submission queue. *)
Inductive cstep (allowed : cq → Z → Prop) : cq → cq → Prop :=
  | cstep_get id s s' : allowed s id → get_cid id s = Some s' → cstep allowed s s'
  | cstep_call t s s' : ccall_step t s = Some s' → cstep allowed s s'
  | cstep_post t sq_head status s s' :
    0 ≤ sq_head < ksqs s → cpost t sq_head status s = Some s' → cstep allowed s s'.

Definition cq_init (log2 sq_log2 : Z) : cq :=
  Cq log2 0 0 0 (λ _, 0) (λ _, 0) 0 (λ _, 0) (replicate (Z.to_nat (2 ^ log2)) (Centry 0 false 0 0))
    sq_log2 0 (λ _, 0) [] [] [] 0.
