(* ===== verification/ParallelCqInv.v ===== *)
(** * The shared completion queue: invariant

    What relates the entries the controller posted, the marks and the calls
    ([cq_inv]), and that every step of ParallelCq.v keeps it while no counter wraps
    around and no id is taken again while an entry of its last use is not yet behind
    the head. *)
From stdpp Require Import functions.
From S2P Require Import Prelude.
From S2P Require Import PhaseRing.
From S2P Require Import ParallelQueue.
From S2P Require Import ParallelCq.

(** How far a call has come: searching, found, marked, swept. *)
Definition crank (p : cpc) : nat :=
  match p with
  | CPoll | CScan _ _ | CTrap => 0
  | CTail _ | CPosWait _ | CPosLock _ | CMark _ => 1
  | CExit _ | CPosUnlock _ | CPut _ | CDone _ => 3
  | _ => 2
  end.
Definition cpos (p : cpc) : option Z :=
  match p with
  | CPoll | CScan _ _ | CTrap => None
  | CTail q | CPosWait q | CPosLock q | CMark q | CTest q | CLock q | CLoadHead q | CSweep q _ _ | CSqEntry q _ _
  | CSqLoad q _ _ _ | CSqTicket q _ _ _ _ _ | CSqMove q _ _ _ | CDoorbell q _ _ | CStoreHead q _ _ | CUnlock q | CExit q | CPosUnlock q | CPut q | CDone q => Some q
  end.
Definition active (p : cpc) : bool := match p with CDone _ => false | _ => true end.
Definition sweeping (p : cpc) : bool :=
  match p with
  | CLoadHead _ | CSweep _ _ _ | CSqEntry _ _ _ | CSqLoad _ _ _ _ | CSqTicket _ _ _ _ _ _ | CSqMove _ _ _ _
  | CDoorbell _ _ _ | CStoreHead _ _ _ | CUnlock _ => true
  | _ => false
  end.

Definition posted s : Z := Z.of_nat (length (k_posted s)).

(** Entry [p] is of call [t], which is [x]. *)
Definition entry_of (s : cq) (p : nat) (t : nat) (x : ccall) : Prop :=
  k_posted s !! p = Some t ∧ k_calls s !! t = Some x.

Definition sweeper_ok (s : cq) (S : Z) (p : cpc) : Prop :=
  match p with
  | CSweep _ cur k | CSqEntry _ cur k | CSqLoad _ cur k _ | CSqTicket _ cur k _ _ _ | CSqMove _ cur k _ | CDoorbell _ cur k =>
    cur = k_head s ∧ S = cur + k ∧ k_released s = k_head s ∧ 0 ≤ k
  | CStoreHead _ cur k => cur = k_head s ∧ S = cur + k ∧ k_released s = S ∧ 0 ≤ k
  | _ => S = k_head s ∧ k_released s = k_head s
  end.
Definition head_lock_ok (s : cq) (S : Z) : Prop :=
  (k_head_lock s = UNLOCKED ∧ S = k_head s ∧ k_released s = k_head s ∧
     ∀ t x, k_calls s !! t = Some x → sweeping (cc_pc x) = false) ∨
  (k_head_lock s = LOCKED ∧ ∃ t x, k_calls s !! t = Some x ∧ sweeping (cc_pc x) = true ∧ sweeper_ok s S (cc_pc x) ∧
     ∀ u y, k_calls s !! u = Some y → sweeping (cc_pc y) = true → u = t).

(** Entries of an earlier use of the id are behind the position [h]. *)
Definition old_behind (s : cq) (t : nat) (cid h : Z) : Prop :=
  ∀ p u y, entry_of s p u y → u ≠ t → cc_cid y = cid → Z.of_nat p < h.
Definition search_ok (s : cq) (t : nat) (x : ccall) : Prop :=
  match cc_pc x with
  | CPoll => old_behind s t (cc_cid x) (k_head s)
  | CScan h i => old_behind s t (cc_cid x) h ∧ 0 ≤ h ≤ k_head s ∧ 0 ≤ i
  | _ => True
  end.

(** A slot is marked when the entry in it was marked and not yet swept. *)
Definition marked (s : cq) (S q : Z) : Prop :=
  ∃ p t x, entry_of s p t x ∧ S ≤ Z.of_nat p ∧ Z.of_nat p mod kqs s = q ∧ (2 ≤ crank (cc_pc x))%nat.
Definition found (s : cq) (S : Z) (t : nat) (p : cpc) : Prop :=
  ∀ q, cpos p = Some q → ∃ i, k_posted s !! i = Some t ∧ q = Z.of_nat i mod kqs s ∧ (crank p = 3%nat → Z.of_nat i < S).
Definition cid_ok (s : cq) : Prop :=
  (∀ id, k_cid s id = LOCKED ∨ k_cid s id = UNLOCKED) ∧
  (∀ t x, k_calls s !! t = Some x → active (cc_pc x) = true → k_cid s (cc_cid x) = LOCKED) ∧
  ∀ t u x y, k_calls s !! t = Some x → k_calls s !! u = Some y → active (cc_pc x) = true → active (cc_pc y) = true →
    cc_cid x = cc_cid y → t = u.

Record cq_inv (s : cq) (S : Z) : Prop := {
  ci_order : 0 ≤ k_head s ≤ k_released s ∧ k_released s ≤ S ≤ posted s;
  ci_room : posted s ≤ k_released s + kqs s - 1;
  ci_db : k_db s = k_released s mod kqs s;
  ci_once : NoDup (k_posted s);
  ci_calls : ∀ p t, k_posted s !! p = Some t → is_Some (k_calls s !! t);
  ci_ring : ring_ok ce_phase (kqs s) (k_entries s) (k_ring s) ∧ length (k_entries s) = length (k_posted s) ∧
    ∀ p e t x, k_entries s !! p = Some e → entry_of s p t x → ce_cid e = cc_cid x;
  ci_swept : ∀ p t x, entry_of s p t x → Z.of_nat p < S → (2 ≤ crank (cc_pc x))%nat;
  ci_found : ∀ t x, k_calls s !! t = Some x → found s S t (cc_pc x);
  ci_mark : ∀ q, 0 ≤ q < kqs s → k_head_mark s q = LOCKED ↔ marked s S q;
  ci_lock : head_lock_ok s S;
  ci_cid : cid_ok s;
  ci_search : ∀ t x, k_calls s !! t = Some x → search_ok s t x;
}.

(** The sizes for which nothing wraps around. *)
Definition cfits s : Prop := 1 ≤ k_qs_log2 s ≤ 16 ∧ posted s + kqs s ≤ 2 ^ 32.

Lemma cfits_qs s : cfits s → 2 ≤ kqs s ≤ 65536 ∧ (kqs s | 2 ^ 32).
Proof.
  intros [[H1 H2] _]. rw /kqs. split.
  - split; [apply (Z.pow_le_mono_r 2 1); lia|apply (Z.pow_le_mono_r 2 _ 16); lia].
  - exists (2 ^ (32 - k_qs_log2 s)). rw -Z.pow_add_r; [f_equal|..]; lia.
Qed.
Lemma kmask_mod s x : cfits s → kmask s x = x mod kqs s.
Proof. intros [[H1 H2] _]. rw /kmask /kqs Z.sub_1_r -Z.ones_equiv Z.land_ones //. lia. Qed.
Lemma kmask_u32 s x : cfits s → kmask s (u32 x) = x mod kqs s.
Proof. intros Hf. rw kmask_mod //. destruct (cfits_qs s Hf) as [_ Hk]. by apply Z.mod_mod_divide. Qed.
Lemma search_phase_of s k : cfits s → search_phase s k = phase_of (kqs s) k.
Proof.
  intros [[H1 H2] _]. rw /search_phase /phase_of /kqs Z.shiftr_div_pow2; [|lia]. by rw Z.negb_odd.
Qed.

(** Positions of one slot. *)
Lemma slot_gap n a b : 0 < n → a mod n = b mod n → a < b → a + n ≤ b.
Proof.
  intros Hn Hm Hlt. pose proof (Z.div_mod a n ltac:(lia)) as Ha. pose proof (Z.div_mod b n ltac:(lia)) as Hb.
  assert (a / n < b / n) by nia. nia.
Qed.
Lemma phase_gap n a b : 0 < n → a mod n = b mod n → phase_of n a = phase_of n b → a < b → a + 2 * n ≤ b.
Proof.
  intros Hn Hm Hp Hlt. pose proof (Z.div_mod a n ltac:(lia)) as Ha. pose proof (Z.div_mod b n ltac:(lia)) as Hb.
  assert (a / n < b / n) by nia. destruct (decide (b / n = a / n + 1)) as [E1|]; [|nia].
  rw /phase_of E1 Z.add_1_r Z.even_succ -Z.negb_even in Hp. by destruct (Z.even (a / n)).
Qed.

(** ** A step of a call *)

Lemma calls_set_cpc s t p u y :
  k_calls (set_cpc t p s) !! u = Some y →
  ∃ z, k_calls s !! u = Some z ∧ cc_cid y = cc_cid z ∧ cc_pc y = if decide (u = t) then p else cc_pc z.
Proof.
  rw /set_cpc /=. destruct (decide (u = t)) as [->|]; [rw list_lookup_alter_eq|rw list_lookup_alter_ne //; eauto].
  destruct (k_calls s !! t) as [z|]; [|done]. intros [= <-]. by exists z.
Qed.
Lemma calls_to_cpc s t p u z :
  k_calls s !! u = Some z → ∃ y, k_calls (set_cpc t p s) !! u = Some y ∧ cc_cid y = cc_cid z ∧
    cc_pc y = if decide (u = t) then p else cc_pc z.
Proof.
  intros Hz. rw /set_cpc /=. case_decide as Hu; [subst u; rw list_lookup_alter_eq Hz|rw list_lookup_alter_ne //]; eauto.
Qed.

(** What a call does not change. *)
Definition ccall_only s s0 : Prop :=
  k_qs_log2 s0 = k_qs_log2 s ∧ k_calls s0 = k_calls s ∧ k_posted s0 = k_posted s ∧ k_ring s0 = k_ring s ∧
  k_entries s0 = k_entries s.

Section call.
Context (s : cq) (S : Z) (t : nat) (x : ccall) (p : cpc).
Hypothesis I : cq_inv s S.
Hypothesis Hx : k_calls s !! t = Some x.

Lemma frame s0 S' :
  ccall_only s s0 → (crank (cc_pc x) ≤ crank p)%nat → S ≤ S' ≤ posted s → k_head s ≤ k_head s0 →
  k_head s0 ≤ k_released s0 ≤ S' → posted s ≤ k_released s0 + kqs s - 1 → k_db s0 = k_released s0 mod kqs s →
  (∀ i u y, entry_of s i u y → S ≤ Z.of_nat i < S' → (2 ≤ crank (cc_pc y))%nat) →
  found s S' t p → (∀ q, 0 ≤ q < kqs s → k_head_mark s0 q = LOCKED ↔ marked (set_cpc t p s) S' q) →
  head_lock_ok (set_cpc t p s0) S' → cid_ok (set_cpc t p s0) →
  (∀ s', k_calls s' = k_calls (set_cpc t p s) → k_posted s' = k_posted s → k_head s' = k_head s0 →
     search_ok s' t (CCall (cc_cid x) p)) →
  cq_inv (set_cpc t p s0) S'.
Proof using I Hx.
  intros (E1 & E2 & E3 & E4 & E5) Hrk HS Hh Hr Hroom Hdb Hsw Hf Hm Hl Hc Hse. destruct I as [J1 J2 J3 J4 J5 J6 J7 J8 J9 J10 J11 J12].
  set (s' := set_cpc t p s0) in *.
  assert (kqs s' = kqs s) as Hq by (rw /kqs /s' /= E1 //). assert (k_posted s' = k_posted s) as Hp by (rw /s' /= E3 //).
  assert (k_calls s' = k_calls (set_cpc t p s)) as Hca by (rw /s' /set_cpc /= E2 //).
  assert (∀ i u y, entry_of s' i u y → ∃ z, entry_of s i u z ∧ cc_cid y = cc_cid z ∧
    cc_pc y = if decide (u = t) then p else cc_pc z) as Hen.
  { intros i u y [H1 H2]. rw Hp Hca in H1 H2 |- *. apply calls_set_cpc in H2 as (z & Hz & H3). exists z. by rw /entry_of. }
  split; rw /posted ?Hq ?Hp //.
  - simpl. rw -/(posted s). lia.
  - intros i u Hu. rw Hca. destruct (J5 i u Hu) as [z Hz]. destruct (calls_to_cpc s t p u z Hz) as (y & Hy & _). by exists y.
  - destruct J6 as (H1 & H2 & H3). rw /s' /= E4 E5. split_and!; [done|done|].
    intros i e u y He (z & Hz & Hcz & _)%Hen. rw Hcz. by eapply H3.
  - intros i u y (z & Hz & _ & Hy)%Hen Hi. rw Hy.
    assert (2 ≤ crank (cc_pc z))%nat as H2 by (destruct (Z.lt_ge_cases (Z.of_nat i) S); [by eapply J7|by eapply Hsw]).
    case_decide as Hd; [|done]. subst u. destruct Hz as [_ Hz]. simplify_eq. lia.
  - intros u y Hy. rw Hca in Hy. apply calls_set_cpc in Hy as (z & Hz & _ & ->). rw /found Hp Hq. case_decide as Hd; [by subst u|].
    intros q Hqz. destruct (J8 u z Hz q Hqz) as (i & Hi & Hqi & H3). exists i. split_and!; try done. intros H. specialize (H3 H). lia.
  - intros q Hqr. rw {1}/s' /= Hm // /marked Hq. by rw /entry_of Hp Hca.
  - intros u y Hy. pose proof Hy as Hy'. rw Hca in Hy. apply calls_set_cpc in Hy as (z & Hz & Hcz & Hpz).
    assert (y = CCall (cc_cid z) (cc_pc y)) as -> by (destruct y; simpl in *; by subst).
    simpl in Hpz. rw Hpz. case_decide as Hd; [subst u; simplify_eq; by apply Hse|].
    assert (∀ h, old_behind s u (cc_cid z) h → old_behind s' u (cc_cid z) h) as Hob.
    { intros h Hb i v w (w' & Hw & Hcw & _)%Hen Hne. rw Hcw. by eapply Hb. }
    pose proof (J12 u z Hz) as Hs. rw /search_ok in Hs |- *. simpl. destruct (cc_pc z); try done.
    + intros i v w Hw Hne Hcw. specialize (Hob _ Hs i v w Hw Hne Hcw). lia.
    + destruct Hs as (Hs1 & Hs2 & Hs3). split_and!; [by apply Hob|lia|lia|lia].
Qed.

Lemma mark_keep q : ((2 ≤ crank p)%nat ↔ (2 ≤ crank (cc_pc x))%nat) → marked (set_cpc t p s) S q ↔ marked s S q.
Proof using Hx.
  intros Hr. split; intros (i & u & y & [Hi Hy] & HS & Hq & Hk).
  - apply calls_set_cpc in Hy as (z & Hz & _ & Hp). exists i, u, z. split_and!; try done. rw Hp in Hk.
    case_decide; [|done]. simplify_eq. tauto.
  - destruct (calls_to_cpc s t p u y Hy) as (z & Hz & _ & Hp). exists i, u, z. split_and!; try done. rw Hp.
    case_decide; [|done]. simplify_eq. tauto.
Qed.
Lemma cid_keep s0 : k_calls s0 = k_calls s → k_cid s0 = k_cid s → active p = active (cc_pc x) → cid_ok (set_cpc t p s0).
Proof using I Hx.
  intros E1 E2 Ha. destruct (ci_cid _ _ I) as (H1 & H2 & H3).
  assert (∀ u y, k_calls (set_cpc t p s0) !! u = Some y → active (cc_pc y) = true →
    ∃ z, k_calls s !! u = Some z ∧ cc_cid y = cc_cid z ∧ active (cc_pc z) = true) as Hc.
  { intros u y (z & Hz & Hcz & Hp)%calls_set_cpc Hay. rw E1 in Hz. exists z. split_and!; try done. rw Hp in Hay.
    case_decide; [simplify_eq; congruence|done]. }
  split_and!; simpl; rw ?E2 //.
  - intros u y Hy (z & Hz & -> & Haz)%(Hc u y Hy). by eapply H2.
  - intros u v y w Hy Hw (z & Hz & -> & Haz)%(Hc u y Hy) (z' & Hz' & -> & Haz')%(Hc v w Hw). by eapply H3.
Qed.

(** *** The lock *)

Lemma sweeper_of : sweeping (cc_pc x) = true →
  k_head_lock s = LOCKED ∧ sweeper_ok s S (cc_pc x) ∧ ∀ u y, k_calls s !! u = Some y → sweeping (cc_pc y) = true → u = t.
Proof using I Hx.
  intros Hcr. destruct (ci_lock _ _ I) as [(_ & _ & _ & Hn)|(Hl & t0 & x0 & Hx0 & Hc0 & Hh & Hu)].
  - rw (Hn t x Hx) in Hcr. done.
  - split; [done|]. assert (t = t0) as -> by eauto. simplify_eq. done.
Qed.
Lemma sweep_quiet s0 :
  k_calls s0 = k_calls s → k_head_lock s0 = k_head_lock s → k_head s0 = k_head s → k_released s0 = k_released s →
  sweeping (cc_pc x) = false → sweeping p = false → head_lock_ok (set_cpc t p s0) S.
Proof using I Hx.
  intros E1 El Et Ea Hc1 Hc2. rw /head_lock_ok. simpl k_head_lock. simpl k_head. simpl k_released. rw El Et Ea.
  destruct (ci_lock _ _ I) as [(Hl & HS & Ha & Hn)|(Hl & t0 & x0 & Hx0 & Hc0 & Hh & Hu)]; [left|right].
  - split_and!; try done. intros u y (z & Hz & _ & Hy)%calls_set_cpc. rw Hy E1 in Hz |- *.
    case_decide; [done|eauto].
  - split; [done|]. assert (t0 ≠ t) as Hne by (intros ->; simplify_eq; congruence). exists t0, x0. split_and!.
    + rw /set_cpc /= list_lookup_alter_ne // E1 //.
    + done.
    + rw /sweeper_ok in Hh |- *. simpl. rw Et Ea. exact Hh.
    + intros u y (z & Hz & _ & Hy)%calls_set_cpc Hcy. rw E1 in Hz. rw Hy in Hcy. case_decide; [congruence|eauto].
Qed.
Lemma sweep_hold s0 S' :
  k_calls s0 = k_calls s → k_head_lock s0 = k_head_lock s → sweeping (cc_pc x) = true → sweeping p = true →
  sweeper_ok s0 S' p → head_lock_ok (set_cpc t p s0) S'.
Proof using I Hx.
  intros E1 El Hc1 Hc2 Hh. destruct (sweeper_of Hc1) as (Hl & _ & Hu). right. split; [by rw /= El|].
  exists t, (CCall (cc_cid x) p). split_and!; try done.
  - rw /set_cpc /= list_lookup_alter_eq E1 Hx //.
  - intros u y (z & Hz & _ & Hy)%calls_set_cpc Hcy. rw E1 in Hz. rw Hy in Hcy. case_decide; [done|eauto].
Qed.

(** *** A step that keeps the entry, its mark and the rank of the call *)

Lemma step_keep s0 :
  ccall_only s s0 → k_head_mark s0 = k_head_mark s → k_cid s0 = k_cid s → crank p = crank (cc_pc x) → crank p ≠ 0%nat →
  cpos p = cpos (cc_pc x) → active p = active (cc_pc x) → k_head s ≤ k_head s0 → k_head s0 ≤ k_released s0 ≤ S →
  k_released s ≤ k_released s0 → k_db s0 = k_released s0 mod kqs s → head_lock_ok (set_cpc t p s0) S →
  cq_inv (set_cpc t p s0) S.
Proof using I Hx.
  intros Ho Em Ec Hr H0 Hp Ha Hh HS Hre Hdb Hl. destruct (ci_order _ _ I) as (O1 & O2 & O3). pose proof (ci_room _ _ I) as Hroom.
  eapply frame; try done; try lia.
  - intros q Hq. rw Hp in Hq. destruct (ci_found _ _ I t x Hx q Hq) as (i & Hi & Hqi & H3). exists i. by rw Hr.
  - intros q Hq. rw Em mark_keep; [by apply (ci_mark _ _ I)|]. by rw Hr.
  - apply cid_keep; [|done|done]. by destruct Ho as (_ & ? & _).
  - intros s' _ _ _. rw /search_ok /=. by destruct p.
Qed.
Lemma step_quiet s0 :
  ccall_only s s0 → k_head_mark s0 = k_head_mark s → k_cid s0 = k_cid s → k_head_lock s0 = k_head_lock s →
  k_head s0 = k_head s → k_released s0 = k_released s → k_db s0 = k_db s →
  crank p = crank (cc_pc x) → crank p ≠ 0%nat → cpos p = cpos (cc_pc x) → active p = active (cc_pc x) →
  sweeping (cc_pc x) = false → sweeping p = false → cq_inv (set_cpc t p s0) S.
Proof using I Hx.
  intros Ho Em Ec El Eh Er Ed H1 H2 H3 H4 H5 H6. destruct (ci_order _ _ I) as (O1 & O2 & O3).
  apply step_keep; try done; rw ?Eh ?Er ?Ed; [lia|lia|lia|by apply (ci_db _ _ I)|].
  apply sweep_quiet; try done. by destruct Ho as (_ & ? & _).
Qed.
Lemma step_hold s0 :
  ccall_only s s0 → k_head_mark s0 = k_head_mark s → k_cid s0 = k_cid s → k_head_lock s0 = k_head_lock s →
  cpos p = cpos (cc_pc x) → sweeping (cc_pc x) = true → sweeping p = true →
  k_head s ≤ k_head s0 → k_head s0 ≤ k_released s0 ≤ S → k_released s ≤ k_released s0 →
  k_db s0 = k_released s0 mod kqs s → sweeper_ok s0 S p → cq_inv (set_cpc t p s0) S.
Proof using I Hx.
  intros Ho Em Ec El H1 H2 H3 Hh HS Hre Hdb Hsw. apply step_keep; try done; [by destruct p, (cc_pc x)|by destruct p|by destruct p, (cc_pc x)|].
  apply sweep_hold; try done. by destruct Ho as (_ & ? & _).
Qed.
End call.

(** ** The steps of a call *)

Section steps.
Context (s : cq) (S : Z) (t : nat) (x : ccall).
Hypothesis I : cq_inv s S.
Hypothesis Hx : k_calls s !! t = Some x.
Hypothesis Hf : cfits s.

(** A step of the search that does not find the entry. *)
Lemma search_inv p :
  crank (cc_pc x) = 0%nat → crank p = 0%nat →
  (∀ s', k_calls s' = k_calls (set_cpc t p s) → k_posted s' = k_posted s → k_head s' = k_head s →
     search_ok s' t (CCall (cc_cid x) p)) →
  cq_inv (set_cpc t p s) S.
Proof using I Hx.
  intros H1 H2 Hs. destruct (ci_order _ _ I) as (O1 & O2 & O3). pose proof (ci_room _ _ I) as Hroom.
  eapply frame; try done; try lia.
  - by apply (ci_db _ _ I).
  - intros q Hq. by destruct p.
  - intros q Hq. rw (mark_keep s S t x) //; [by apply (ci_mark _ _ I)|]. by rw H1 H2.
  - eapply sweep_quiet; try done; [by destruct (cc_pc x)|by destruct p].
  - eapply cid_keep; try done. by destruct p, (cc_pc x).
Qed.

Lemma old_behind_set p s' cid h :
  k_calls s' = k_calls (set_cpc t p s) → k_posted s' = k_posted s → old_behind s t cid h → old_behind s' t cid h.
Proof using Type.
  intros E1 E2 Ho i u y [Hi Hy] Hne Hc. rw E1 in Hy. apply calls_set_cpc in Hy as (z & Hz & Hcz & _). rw E2 in Hi.
  eapply Ho; [by split|done|congruence].
Qed.

(** The entry that the search finds is the caller's. *)
Lemma found_own h i e :
  cc_pc x = CScan h i → i < kqs s - 1 → k_ring s !! Z.to_nat ((h + i) mod kqs s) = Some e → ce_cid e = cc_cid x →
  ce_phase e = phase_of (kqs s) (h + i) → ∃ j, k_posted s !! j = Some t ∧ (h + i) mod kqs s = Z.of_nat j mod kqs s.
Proof using I Hx Hf.
  intros Epc Hi Hr Hcid Hph. destruct (cfits_qs s Hf) as [Hn _]. destruct (ci_order _ _ I) as (O1 & O2 & O3).
  pose proof (ci_search _ _ I t x Hx) as Hs. rw /search_ok Epc in Hs. destruct Hs as (Ho & Hh & Hi0).
  destruct (ci_ring _ _ I) as (Hring & Hlen & Hes). set (es := k_entries s) in *.
  destruct (ring_read ce_phase (kqs s) ltac:(lia) es (k_ring s) (h + i) e Hring) as (j & Hj & Hslot & Hjl); [|done|done|].
  { rw Hlen -/(posted s). lia. }
  assert (is_Some (k_posted s !! j)) as [u Hu] by (apply lookup_lt_is_Some; apply lookup_lt_Some in Hj; lia).
  destruct (ci_calls _ _ I j u Hu) as [y Hy]. pose proof (Hes j _ u y Hj (conj Hu Hy)) as Hcy. rw Hcid in Hcy.
  destruct (decide (u = t)) as [->|Hne]; [by exists j|]. exfalso. pose proof (Ho j u y (conj Hu Hy) Hne (eq_sym Hcy)) as Hlt.
  pose proof (ring_tag _ _ _ _ Hring j _ Hj) as Htag. simpl in Htag. rw Hlen -/(posted s) in Hjl.
  pose proof (phase_gap (kqs s) (Z.of_nat j) (h + i) ltac:(lia) Hslot ltac:(congruence) ltac:(lia)). lia.
Qed.

Lemma scan_inv s' : crank (cc_pc x) = 0%nat → ccall_step t s = Some s' → cq_inv s' S.
Proof using I Hx Hf.
  intros Hr Hs. destruct (cfits_qs s Hf) as [Hn _]. destruct (ci_order _ _ I) as (O1 & O2 & O3). pose proof (ci_room _ _ I) as Hroom.
  pose proof (ci_search _ _ I t x Hx) as Hse. destruct (cc_pc x) as [|h i| | | | | | | | | | | | | | | | | | | |] eqn:Epc; try done;
    rw /search_ok Epc in Hse; rw /ccall_step Hx /= Epc in Hs.
  - injection Hs as <-. apply search_inv; [by rw Epc|done|]. intros s' E1 E2 E3. split_and!; [by eapply old_behind_set|lia|simpl; lia|simpl; lia].
  - destruct Hse as (Ho & Hh & Hi0).
    assert (∀ s' p, k_calls s' = k_calls (set_cpc t p s) → k_posted s' = k_posted s → k_head s' = k_head s →
      search_ok s' t (CCall (cc_cid x) CPoll)) as Hpoll.
    { intros s0 p E1 E2 E3 j u y He Hne Hcy. rw E3. pose proof (old_behind_set _ _ _ _ E1 E2 Ho j u y He Hne Hcy). lia. }
    destruct (Z.leb_spec (kqs s - 1) i) as [Hge|Hlt].
    + injection Hs as <-. apply search_inv; [by rw Epc|done|]. intros s' E1 E2 E3. by eapply Hpoll.
    + destruct Hf as [Hlog Hfit]. rw /cq_poll_entry u32_id in Hs; [|lia]. rw kmask_mod // search_phase_of // in Hs.
      destruct (k_ring s !! _) as [e|] eqn:Er; [|done]. simpl in Hs. injection Hs as <-.
      destruct (Z.eqb_spec (ce_cid e) (cc_cid x)) as [Hc|Hc]; destruct (eqb (ce_phase e) _) eqn:Eph; simpl;
        [destruct (c_true (ce_status e)); [by apply search_inv; [rw Epc|..]|]|..];
        try (apply search_inv; [by rw Epc|done|]; intros s' E1 E2 E3; first [by eapply Hpoll|
             split_and!; [by eapply old_behind_set|lia|simpl; lia|simpl; lia] ]).
      apply eqb_prop in Eph. destruct (found_own h i e Epc Hlt Er Hc Eph) as (j & Hj & Hslot).
      eapply frame; try done; try lia.
      * rw Epc /=. lia.
      * by apply (ci_db _ _ I).
      * intros q [= <-]. exists j. done.
      * intros q Hq. rw (mark_keep s S t x) //; [by apply (ci_mark _ _ I)|]. rw Epc /=. lia.
      * eapply sweep_quiet; try done. by rw Epc.
      * eapply cid_keep; try done. by rw Epc.
  - done.
Qed.

Lemma own_entry q : cpos (cc_pc x) = Some q →
  ∃ i, k_posted s !! i = Some t ∧ q = Z.of_nat i mod kqs s ∧ (crank (cc_pc x) = 3%nat → Z.of_nat i < S) ∧
    (crank (cc_pc x) = 1%nat → S ≤ Z.of_nat i) ∧ ∀ j, k_posted s !! j = Some t → j = i.
Proof using I Hx.
  intros Hq. destruct (ci_found _ _ I t x Hx q Hq) as (i & Hi & Hqi & H3). exists i. split_and!; try done.
  - intros H1. destruct (Z.lt_ge_cases (Z.of_nat i) S) as [Hlt|]; [|done].
    pose proof (ci_swept _ _ I i t x (conj Hi Hx) Hlt). lia.
  - intros j Hj. eapply NoDup_lookup; [exact (ci_once _ _ I)|done|done].
Qed.

(** Marking. *)
Lemma mark_inv q :
  cc_pc x = CMark q → cq_inv (set_cpc t (CTest q) (s<{k_head_mark := <[q := LOCKED]> (k_head_mark s)}>)) S.
Proof using I Hx Hf.
  intros Epc. destruct (cfits_qs s Hf) as [Hn _]. destruct (ci_order _ _ I) as (O1 & O2 & O3). pose proof (ci_room _ _ I) as Hroom.
  destruct (own_entry q) as (i & Hi & -> & _ & HSi & Huniq); [by rw Epc|]. rw Epc in HSi. specialize (HSi eq_refl).
  eapply frame; try done; try (simpl; lia).
  - rw Epc /=. lia.
  - by apply (ci_db _ _ I).
  - intros q [= <-]. by exists i.
  - intros q Hq. simpl. destruct (decide (Z.of_nat i mod kqs s = q)) as [<-|Hne].
    + rw fn_lookup_insert. split; [intros _|done]. exists i, t, (CCall (cc_cid x) (CTest (Z.of_nat i mod kqs s))).
      split_and!; try done. split; [done|]. rw /set_cpc /= list_lookup_alter_eq Hx //.
    + rw fn_lookup_insert_ne // (ci_mark _ _ I) //. split; intros (j & u & y & [Hj Hy] & HSj & Hqj & Hk).
      * destruct (calls_to_cpc s t (CTest (Z.of_nat i mod kqs s)) u y Hy) as (z & Hz & _ & Hp). exists j, u, z.
        split_and!; try done. rw Hp. case_decide; simpl; lia.
      * apply calls_set_cpc in Hy as (z & Hz & _ & Hp). exists j, u, z. split_and!; try done. rw Hp in Hk.
        case_decide; [|done]. subst u. destruct Hne. by rw -(Huniq j Hj).
  - eapply sweep_quiet; try done. by rw Epc.
  - eapply cid_keep; try done. by rw Epc.
Qed.

(** A mark that is gone was swept. *)
Lemma test_inv q :
  cc_pc x = CTest q → k_head_mark s q ≠ LOCKED → cq_inv (set_cpc t (CExit q) s) S.
Proof using I Hx Hf.
  intros Epc Hm. destruct (cfits_qs s Hf) as [Hn _]. destruct (ci_order _ _ I) as (O1 & O2 & O3). pose proof (ci_room _ _ I) as Hroom.
  destruct (own_entry q) as (i & Hi & -> & _ & _ & Huniq); [by rw Epc|].
  assert (Z.of_nat i < S) as Hlt.
  { destruct (Z.lt_ge_cases (Z.of_nat i) S) as [|Hge]; [done|]. destruct Hm. apply (ci_mark _ _ I); [apply Z.mod_pos_bound; lia|].
    exists i, t, x. split_and!; try done. rw Epc /=. lia. }
  eapply frame; try done; try lia.
  - rw Epc /=. lia.
  - by apply (ci_db _ _ I).
  - intros q [= <-]. by exists i.
  - intros q Hq. rw (mark_keep s S t x) //; [by apply (ci_mark _ _ I)|]. rw Epc /=. lia.
  - eapply sweep_quiet; try done. by rw Epc.
  - eapply cid_keep; try done. by rw Epc.
Qed.

(** The lock. *)
Lemma cacquire_inv q :
  cc_pc x = CLock q → k_head_lock s ≠ LOCKED → cq_inv (set_cpc t (CLoadHead q) (s<{k_head_lock := LOCKED}>)) S.
Proof using I Hx.
  intros Epc Hl. destruct (ci_order _ _ I) as (O1 & O2 & O3).
  destruct (ci_lock _ _ I) as [(_ & HS & Ha & Hn)|(Hl' & _)]; [|done].
  eapply step_keep; try done; try (by rw Epc); try (simpl; lia); [exact (ci_db _ _ I)|]. right. split; [done|].
  exists t, (CCall (cc_cid x) (CLoadHead q)). split_and!; try done.
  - rw /set_cpc /= list_lookup_alter_eq Hx //.
  - intros u y (z & Hz & _ & Hy)%calls_set_cpc Hcy. rw Hy in Hcy. case_decide; [done|]. by rw (Hn u z Hz) in Hcy.
Qed.
Lemma crelease_inv q :
  cc_pc x = CUnlock q → cq_inv (set_cpc t (CTest q) (s<{k_head_lock := UNLOCKED}>)) S.
Proof using I Hx.
  intros Epc. destruct (ci_order _ _ I) as (O1 & O2 & O3).
  destruct (sweeper_of s S t x I Hx) as (Hl & Hh & Hu); [by rw Epc|]. rw Epc /= in Hh.
  eapply step_keep; try done; try (by rw Epc); try (simpl; lia); [exact (ci_db _ _ I)|]. left. split_and!; try done; try apply Hh.
  intros u y (z & Hz & _ & Hy)%calls_set_cpc. rw Hy. case_decide as Hd; [done|].
  destruct (sweeping (cc_pc z)) eqn:Ez; [|done]. by destruct Hd; eauto.
Qed.

(** The next mark of the sweep is that of the entry [S]. *)
Lemma marked_first : marked s S (S mod kqs s) → ∃ u y, entry_of s (Z.to_nat S) u y ∧ S < posted s ∧ (2 ≤ crank (cc_pc y))%nat.
Proof using I Hf.
  intros (i & u & y & Hy & HS & Hq & Hk). destruct (cfits_qs s Hf) as [Hn _]. destruct (ci_order _ _ I) as (O1 & O2 & O3).
  pose proof (ci_room _ _ I) as Hroom. assert (Z.of_nat i < posted s) as Hi by (destruct Hy as [Hy _]; apply lookup_lt_Some in Hy; rw /posted; lia).
  assert (Z.of_nat i = S) as HiS.
  { destruct (Z.lt_ge_cases S (Z.of_nat i)) as [Hlt|]; [|lia]. pose proof (slot_gap (kqs s) S (Z.of_nat i) ltac:(lia) (eq_sym Hq) Hlt). lia. }
  exists u, y. rw -HiS Nat2Z.id. split_and!; try done; lia.
Qed.
Lemma csweep_inv q cur k s' : cc_pc x = CSweep q cur k → ccall_step t s = Some s' → ∃ S', cq_inv s' S'.
Proof using I Hx Hf.
  intros Epc Hs. destruct (cfits_qs s Hf) as [Hn _]. destruct (ci_order _ _ I) as (O1 & O2 & O3). pose proof (ci_room _ _ I) as Hroom.
  destruct (sweeper_of s S t x I Hx) as (Hl & Hh & Hu); [by rw Epc|]. rw Epc in Hh. destruct Hh as (-> & HS & Ha & Hk).
  rw /ccall_step Hx /= Epc kmask_u32 // -HS in Hs. injection Hs as <-. pose proof (Z.mod_pos_bound S (kqs s) ltac:(lia)) as HSm.
  assert (∀ p q', sweeping p = true → marked (set_cpc t p s) S q' ↔ marked s S q') as Hmk.
  { intros p q' Hp. apply (mark_keep s S t x _ Hx). rw Epc. by destruct p. }
  destruct (own_entry q) as (i0 & Hi0 & Hqi0 & _ & _ & Huniq); [by rw Epc|].
  destruct (Z.eqb_spec (k_head_mark s (S mod kqs s)) LOCKED) as [Hm|Hm].
  - destruct (marked_first (proj1 (ci_mark _ _ I _ HSm) Hm)) as (u & y & Hy & HSp & Hky). exists (S + 1).
    assert (u32 (k + 1) = k + 1) as Ek by (apply u32_id; destruct Hf as [_ ?]; lia).
    eapply frame; try done; try (simpl; lia).
    + rw Epc /=. lia.
    + by apply (ci_db _ _ I).
    + intros i v w [Hi Hw] HiS. assert (i = Z.to_nat S) as -> by lia. destruct Hy as [Hy1 Hy2]. by simplify_eq.
    + intros q' [= <-]. by exists i0.
    + intros q' Hq'. simpl. split.
      * destruct (decide (S mod kqs s = q')) as [<-|Hne]; [rw fn_lookup_insert //|]. rw fn_lookup_insert_ne // (ci_mark _ _ I) //.
        rw -(Hmk (CSweep q (k_head s) (u32 (k + 1)))) //. intros (i & v & w & Hw & HiS & Hqi & Hr). exists i, v, w. split_and!; try done.
        destruct (decide (Z.of_nat i = S)) as [<-|]; [done|lia].
      * intros (i & v & w & Hw & HiS & Hqi & Hr). assert (S mod kqs s ≠ q') as Hne.
        { intros <-. pose proof (slot_gap (kqs s) S (Z.of_nat i) ltac:(lia) (eq_sym Hqi) ltac:(lia)).
          destruct Hw as [Hw _]. apply lookup_lt_Some in Hw. simpl in Hw. rw /posted in Hroom. lia. }
        rw fn_lookup_insert_ne // (ci_mark _ _ I) //. rw -(Hmk (CSweep q (k_head s) (u32 (k + 1)))) //. exists i, v, w.
        split_and!; try done. lia.
    + eapply sweep_hold; try done; [by rw Epc|]. simpl. rw Ek. split_and!; try done; lia.
    + eapply cid_keep; try done. by rw Epc.
  - exists S. eapply frame; try done; try (simpl; lia).
    + rw Epc /=. lia.
    + by apply (ci_db _ _ I).
    + intros q' [= <-]. by exists i0.
    + intros q' Hq'. simpl. rw (Hmk (CSqEntry q (k_head s) k)) // -(ci_mark _ _ I) //.
      destruct (decide (S mod kqs s = q')) as [<-|Hne]; [rw fn_lookup_insert //|rw fn_lookup_insert_ne //].
    + eapply sweep_hold; try done. by rw Epc.
    + eapply cid_keep; try done. by rw Epc.
Qed.

(** The id is given back. *)
Lemma put_inv q : cc_pc x = CPut q → cq_inv (set_cpc t (CDone q) (put_cid (cc_cid x) s)) S.
Proof using I Hx.
  intros Epc. destruct (ci_order _ _ I) as (O1 & O2 & O3). pose proof (ci_room _ _ I) as Hroom.
  destruct (own_entry q) as (i & Hi & Hq & H3 & _); [by rw Epc|]. rw Epc in H3. specialize (H3 eq_refl).
  eapply frame; try done; try (simpl; lia).
  - rw Epc /=. lia.
  - by apply (ci_db _ _ I).
  - intros q' [= <-]. by exists i.
  - intros q' Hq'. simpl. rw (mark_keep s S t x) //; [by apply (ci_mark _ _ I)|]. by rw Epc.
  - eapply sweep_quiet; try done. by rw Epc.
  - destruct (ci_cid _ _ I) as (C1 & C2 & C3). assert (active (cc_pc x) = true) as Hax by by rw Epc.
    assert (∀ u y, k_calls (set_cpc t (CDone q) (put_cid (cc_cid x) s)) !! u = Some y → active (cc_pc y) = true →
      ∃ z, k_calls s !! u = Some z ∧ cc_cid y = cc_cid z ∧ active (cc_pc z) = true ∧ u ≠ t) as Hc.
    { intros u y (z & Hz & Hcz & Hp)%calls_set_cpc Hay. exists z. rw Hp in Hay. by case_decide. }
    split_and!.
    + intros id. simpl. destruct (decide (cc_cid x = id)) as [<-|]; [rw fn_lookup_insert|rw fn_lookup_insert_ne //]; auto.
    + intros u y Hy (z & Hz & -> & Haz & Hne)%(Hc u y Hy). simpl. rw fn_lookup_insert_ne; [by eapply C2|].
      intros Hcid. by destruct Hne; eapply C3.
    + intros u v y w Hy Hw (z & Hz & -> & Haz & _)%(Hc u y Hy) (z' & Hz' & -> & Haz' & _)%(Hc v w Hw). by eapply C3.
Qed.

Lemma lock_inv q s' : cc_pc x = CLock q → ccall_step t s = Some s' → cq_inv s' S.
Proof using I Hx.
  intros Epc Hs. rw /ccall_step Hx /= Epc in Hs. injection Hs as <-. destruct (Z.eqb_spec (k_head_lock s) LOCKED) as [Hl|Hl].
  - eapply step_quiet; try done; try (by rw Epc). simpl. by rw Hl.
  - destruct (ci_lock _ _ I) as [(Hl0 & _)|(Hl0 & _)]; [|done]. rw Hl0. by apply cacquire_inv.
Qed.
Lemma doorbell_inv q cur k s' : cc_pc x = CDoorbell q cur k ∨ cc_pc x = CStoreHead q cur k → ccall_step t s = Some s' → cq_inv s' S.
Proof using I Hx Hf.
  intros Epc Hs. destruct (cfits_qs s Hf) as [Hn _]. destruct (ci_order _ _ I) as (O1 & O2 & O3). pose proof (ci_room _ _ I) as Hroom.
  pose proof (ci_db _ _ I) as Hdb. assert (u32 S = S) as ES by (destruct Hf as [_ ?]; apply u32_id; lia).
  pose proof (sweeper_of s S t x I Hx) as Hh. rw /ccall_step Hx /= in Hs.
  destruct Epc as [Epc|Epc]; rw Epc in Hs, Hh; destruct (Hh eq_refl) as (_ & (-> & HS & Hre & Hk) & _); rw ?kmask_u32 // -HS ?ES in Hs;
    injection Hs as <-; eapply step_hold; try done; try (by rw Epc); simpl; lia.
Qed.

Lemma after_inv s' : (crank (cc_pc x) = 2)%nat → ccall_step t s = Some s' → ∃ S', cq_inv s' S'.
Proof using I Hx Hf.
  intros Hr Hs. destruct (ci_order _ _ I) as (O1 & O2 & O3). pose proof (ci_db _ _ I) as Hdb.
  pose proof (sweeper_of s S t x I Hx) as Hh. pose proof Hs as Hs0. rw /ccall_step Hx /= in Hs.
  destruct (cc_pc x) as [| | | | | |q|q|q|q cur k|q cur k|q cur k nh|q cur k nh loc mv|q cur k mv|q cur k|q cur k|q| | | | |] eqn:Epc; try done; simpl in Hh.
  - exists S. injection Hs as <-. destruct (Z.eqb_spec (k_head_mark s q) LOCKED) as [Hm|Hm]; [|by apply test_inv].
    eapply step_quiet; try done; by rw Epc.
  - exists S. by eapply lock_inv.
  - exists S. injection Hs as <-. destruct (Hh eq_refl) as (Hl & [HS Ha] & _).
    eapply step_hold; try done; try (by rw Epc); simpl; lia.
  - by eapply csweep_inv.
  - exists S. destruct (Hh eq_refl) as (Hl & (-> & HS & Ha & Hk) & _).
    destruct (c_true k) eqn:Ek; simpl in Hs; [destruct (k_ring s !! _) as [e|]; [|done]; simpl in Hs|]; injection Hs as <-;
      (eapply step_hold; try done; try (by rw Epc); simpl; try lia).
    apply negb_false_iff, Z.eqb_eq in Ek. lia.
  - exists S. injection Hs as <-. destruct (Hh eq_refl) as (Hl & (-> & HS & Ha & Hk) & _).
    destruct (_ =? _); simpl; (eapply step_hold; try done; try (by rw Epc); simpl; try lia).
  - exists S. injection Hs as <-. destruct (Hh eq_refl) as (Hl & (-> & HS & Ha & Hk) & _). rw /sq_ticket_pc.
    destruct (_ =? _); (eapply step_hold; try done; try (by rw Epc); simpl; try lia).
  - exists S. injection Hs as <-. destruct (Hh eq_refl) as (Hl & (-> & HS & Ha & Hk) & _).
    eapply step_hold; try done; try (by rw Epc); simpl; lia.
  - exists S. eapply doorbell_inv; eauto.
  - exists S. eapply doorbell_inv; eauto.
  - exists S. injection Hs as <-. by apply crelease_inv.
Qed.

Lemma ccall_inv s' : ccall_step t s = Some s' → ∃ S', cq_inv s' S'.
Proof using I Hx Hf.
  intros Hs. destruct (crank (cc_pc x)) as [|[|[|r] ] ] eqn:Hr; [exists S; by eapply scan_inv| |by eapply after_inv|];
    exists S; rw /ccall_step Hx /= in Hs; destruct (cc_pc x) eqn:Epc; try done; simpl in Hs;
    repeat (case_match; try done); injection Hs as <-;
    first [by eapply mark_inv|by apply put_inv|eapply step_quiet; try done; by rw Epc].
Qed.
End steps.

(** ** The other steps *)

(** Ids that no entry at or after the head has. *)
Definition fresh s id : Prop := ∀ p u y, k_head s ≤ Z.of_nat p → entry_of s p u y → cc_cid y ≠ id.

Section others.
Context (s : cq) (S : Z).
Hypothesis I : cq_inv s S.

Lemma get_inv id s' : fresh s id → get_cid id s = Some s' → cq_inv s' S.
Proof using I.
  rw /get_cid. intros Hfr Hs. destruct (Z.eqb_spec (k_cid s id) LOCKED) as [|Hid]; [done|]. injection Hs as <-.
  destruct I as [J1 J2 J3 J4 J5 J6 J7 J8 J9 J10 (C1 & C2 & C3) J12].
  destruct (C1 id) as [|Eid]; [done|]. match goal with |- cq_inv ?x _ => set (s' := x) end.
  assert (k_calls s' = k_calls s ++ [CCall id CPoll]) as Ec by done.
  assert (∀ u y, k_calls s' !! u = Some y → k_calls s !! u = Some y ∨ (u = length (k_calls s) ∧ y = CCall id CPoll)) as Hca.
  { intros u y Hy. rw Ec in Hy. apply lookup_app_Some in Hy as [|[Hge Hy] ]; [by left|right].
    apply list_lookup_singleton_Some in Hy as [? <-]. split; [lia|done]. }
  assert (∀ i u y, entry_of s' i u y → entry_of s i u y) as Hen.
  { intros i u y [Hi Hy]. split; [done|]. destruct (J5 i u Hi) as [z Hz]. apply Hca in Hy as [|[-> _] ]; [done|].
    apply lookup_lt_Some in Hz. lia. }
  assert (∀ u z, k_calls s !! u = Some z → k_calls s' !! u = Some z) as Hto by (intros u z Hz; rw Ec; by apply lookup_app_l_Some).
  split; try done.
  - intros i u Hi. destruct (J5 i u Hi) as [z Hz]. exists z. by apply Hto.
  - destruct J6 as (H1 & H2 & H3). split_and!; [done|done|]. intros i e u y He Hy%Hen. by eapply H3.
  - intros i u y Hy%Hen. by eapply J7.
  - intros u y [Hy|[_ ->] ]%Hca; [by apply J8|]. intros q. done.
  - intros q Hq. rw {1}/s' /= J9 //. split; intros (i & u & y & Hy & H); exists i, u, y; [|by split; [apply Hen|] ].
    split; [|done]. destruct Hy as [H1 H2]. split; [done|by apply Hto].
  - destruct J10 as [(L1 & L2 & L3 & L4)|(L1 & u & y & Hy & L2 & L3 & L4)]; [left|right].
    + split_and!; try done. intros v w [Hw|[_ ->] ]%Hca; [by eapply L4|done].
    + split; [done|]. exists u, y. split_and!; try done; [by apply Hto|]. intros v w [Hw|[_ ->] ]%Hca Hsw; [by eapply L4|done].
  - split_and!.
    + intros j. simpl. destruct (decide (id = j)) as [<-|]; [rw fn_lookup_insert Eid; auto|rw fn_lookup_insert_ne //].
    + intros u y [Hy|[_ ->] ]%Hca Ha; simpl; [|rw fn_lookup_insert Eid //]. pose proof (C2 u y Hy Ha) as Hl.
      rw fn_lookup_insert_ne //. congruence.
    + intros u v y w [Hy|[-> ->] ]%Hca [Hw|[-> ->] ]%Hca Ha Hb Hcc; simpl in Hcc; [by eapply C3| | |done].
      * pose proof (C2 u y Hy Ha). congruence.
      * pose proof (C2 v w Hw Hb). congruence.
  - intros u y [Hy|[-> ->] ]%Hca.
    + pose proof (J12 u y Hy) as Hs. rw /search_ok in Hs |- *. destruct (cc_pc y); try done.
      * intros i v w Hw%Hen. by eapply Hs.
      * destruct Hs as (H1 & H2). split; [|done]. intros j v w Hw%Hen. by eapply H1.
    + intros i v w Hw%Hen Hne Hcw. simpl in *. destruct (Z.lt_ge_cases (Z.of_nat i) (k_head s)); [done|].
      exfalso. by eapply Hfr.
Qed.

Lemma room_mod : 2 ≤ kqs s → (posted s + 1) mod kqs s ≠ k_db s → posted s + 1 ≤ k_released s + kqs s - 1.
Proof using I.
  intros Hn. rw (ci_db _ _ I). destruct (Z.eq_dec (posted s + 1) (k_released s + kqs s)) as [->|Hne].
  - intros H. destruct H. by rw -{1}(Z.mul_1_l (kqs s)) Z_mod_plus_full.
  - intros _. pose proof (ci_room _ _ I). lia.
Qed.
Lemma cpost_inv t hd st s' : cfits s → cpost t hd st s = Some s' → cq_inv s' S.
Proof using I.
  intros Hf Hs. destruct (cfits_qs s Hf) as [Hn _]. rw /cpost in Hs. destruct (k_calls s !! t) as [x|] eqn:Hx; [|done]. simpl in Hs.
  case_bool_decide as Hin; [done|]. rw -/(posted s) in Hs. destruct (Z.eqb_spec ((posted s + 1) mod kqs s) (k_db s)) as [|Hroom]; [done|].
  injection Hs as <-. apply room_mod in Hroom; [|lia]. destruct I as [J1 J2 J3 J4 J5 J6 J7 J8 J9 J10 (C1 & C2 & C3) J12].
  match goal with |- cq_inv ?x _ => set (s' := x) end. assert (posted s' = posted s + 1) as Hp.
  { rw /posted /s' /= length_app /=. lia. }
  assert (crank (cc_pc x) = 0%nat) as Hr.
  { destruct (cpos (cc_pc x)) as [q|] eqn:Hq; [|by destruct (cc_pc x)]. destruct (J8 t x Hx q Hq) as (i & Hi & _).
    destruct Hin. by eapply list_elem_of_lookup_2. }
  assert (∀ i u, k_posted s' !! i = Some u → k_posted s !! i = Some u ∨ (i = length (k_posted s) ∧ u = t)) as Hpo.
  { intros i u Hi. apply lookup_app_Some in Hi as [|[Hge Hi] ]; [by left|right].
    apply list_lookup_singleton_Some in Hi as [? <-]. split; [lia|done]. }
  assert (∀ i u, k_posted s !! i = Some u → k_posted s' !! i = Some u) as Hto by (intros i u Hi; by apply lookup_app_l_Some).
  assert (∀ i u y, entry_of s' i u y → entry_of s i u y ∨ (i = length (k_posted s) ∧ u = t ∧ y = x)) as Hen.
  { intros i u y [Hi Hy]. apply Hpo in Hi as [Hi|[-> ->] ]; [by left|right]. simpl in Hy. by simplify_eq. }
  split; try done.
  - rw Hp. simpl. lia.
  - rw Hp. exact Hroom.
  - apply NoDup_app. split_and!; [done| |apply NoDup_singleton]. intros u Hu ->%list_elem_of_singleton. done.
  - intros i u [Hi|[-> ->] ]%Hpo; [by eapply J5|by exists x].
  - destruct J6 as (H1 & H2 & H3). split_and!.
    + simpl. rw {2}/posted -H2. apply (ring_ok_post ce_phase (kqs s) ltac:(lia) (k_entries s) (k_ring s)); [done|]. simpl. by rw /posted H2.
    + rw /= !length_app /=. lia.
    + intros i e u y He Hy. destruct (Hen i u y Hy) as [Hy'|(-> & -> & ->)].
      * eapply H3; [|exact Hy']. destruct Hy' as [Hi _]. apply lookup_lt_Some in Hi. by rw lookup_app_l in He; [|lia].
      * rw lookup_app_r in He; [|lia]. rw H2 Nat.sub_diag in He. by injection He as <-.
  - intros i u y [Hy|(-> & -> & ->)]%Hen Hi; [by eapply J7|]. rw /posted in J1. lia.
  - intros u y Hy q Hq. destruct (J8 u y Hy q Hq) as (i & Hi & H). exists i. split; [by apply Hto|done].
  - intros q Hq. rw {1}/s' /= J9 //. split; intros (i & u & y & Hy & H).
    + exists i, u, y. split; [|done]. destruct Hy as [H1 H2]. split; [by apply Hto|done].
    + destruct (Hen i u y Hy) as [Hy'|(-> & -> & ->)]; [by exists i, u, y|]. rw Hr in H. lia.
  - intros u y Hy. pose proof (J12 u y Hy) as Hs. rw /search_ok in Hs |- *.
    assert (∀ h, active (cc_pc y) = true → old_behind s u (cc_cid y) h → old_behind s' u (cc_cid y) h) as Hob.
    { intros h Ha Ho i v w [Hw|(-> & -> & ->)]%Hen Hne Hcw; [by eapply Ho|]. destruct Hne. eapply C3; try done. by destruct (cc_pc x). }
    destruct (cc_pc y); try done; [by apply Hob|]. destruct Hs as (H1 & H2). split; [by apply Hob|done].
Qed.
End others.

(** ** Every run *)

Lemma cq_init_inv log2 sq_log2 : 1 ≤ log2 ≤ 16 → cq_inv (cq_init log2 sq_log2) 0.
Proof.
  intros Hlog. assert (2 ≤ 2 ^ log2) as Hn by (apply (Z.pow_le_mono_r 2 1); lia).
  split; rw /posted /kqs /=; try done; try lia.
  - apply NoDup_nil_2.
  - split_and!; [|done|done]. apply ring_ok_blank; [rw length_replicate; lia|]. by apply Forall_replicate.
  - intros q Hq. split; [done|]. intros (p & t & x & [? _] & _). done.
  - left. done.
  - split_and!; [auto|done..].
Qed.

Lemma cstep_inv s s' S : cfits s → cq_inv s S → cstep fresh s s' → ∃ S', cq_inv s' S'.
Proof.
  intros Hf I Hs. destruct Hs as [id s s' Hfr Hs|t s s' Hs|t hd st s s' _ Hs].
  - exists S. by eapply get_inv.
  - pose proof Hs as Hs0. rw /ccall_step in Hs0. destruct (k_calls s !! t) as [x|] eqn:Hx; [|done]. by eapply ccall_inv.
  - exists S. by eapply cpost_inv.
Qed.

(** The entries posted and the size do not shrink. *)
Lemma cstep_mono allowed s s' : cstep allowed s s' → k_qs_log2 s' = k_qs_log2 s ∧ posted s ≤ posted s'.
Proof.
  intros Hs. destruct Hs as [id s s' _ Hs|t s s' Hs|t hd st s s' _ Hs].
  - rw /get_cid in Hs. case_match; simplify_eq. done.
  - rw /ccall_step in Hs. destruct (k_calls s !! t) as [x|]; [|done]. simpl in Hs.
    destruct (cc_pc x); rw /cq_poll_entry /put_cid in Hs; repeat (case_match; simplify_eq; try done); simplify_option_eq;
      repeat (case_match; simplify_eq; try done); split; done.
  - rw /cpost in Hs. destruct (k_calls s !! t) as [x|]; [|done]. simpl in Hs. repeat (case_match; simplify_eq; try done).
    rw /posted /= length_app. split; [done|lia].
Qed.

(** Every entry reports a position of the submission queue. *)
Definition heads_ok (s : cq) : Prop := Forall (λ e, 0 ≤ ce_sq_head e < ksqs s) (k_ring s).
Lemma cstep_heads allowed s s' :
  cstep allowed s s' → k_sq_qs_log2 s' = k_sq_qs_log2 s ∧ (heads_ok s → heads_ok s').
Proof.
  intros Hs. destruct Hs as [id s s' _ Hs|t s s' Hs|t hd st s s' Hhd Hs].
  - rw /get_cid in Hs. case_match; simplify_eq. done.
  - rw /ccall_step in Hs. destruct (k_calls s !! t) as [x|]; [|done]. simpl in Hs.
    destruct (cc_pc x); rw /cq_poll_entry /put_cid in Hs; repeat (case_match; simplify_eq; try done); simplify_option_eq;
      repeat (case_match; simplify_eq; try done); split; done.
  - rw /cpost in Hs. destruct (k_calls s !! t) as [x|]; [|done]. simpl in Hs. repeat (case_match; simplify_eq; try done).
    split; [done|]. intros Hh. by apply Forall_insert.
Qed.
Lemma cq_run_heads allowed log2 sq_log2 s :
  0 ≤ sq_log2 → rtc (cstep allowed) (cq_init log2 sq_log2) s → k_sq_qs_log2 s = sq_log2 ∧ heads_ok s.
Proof.
  intros Hlog. apply (rtc_ind_r (λ s, k_sq_qs_log2 s = sq_log2 ∧ heads_ok s)).
  - split; [done|]. apply Forall_replicate. rw /ksqs /=. lia.
  - intros y z _ Hyz [Hq IH]. destruct (cstep_heads _ _ _ Hyz) as [H1 H2]. split; [congruence|auto].
Qed.

Lemma cq_run_inv log2 sq_log2 s :
  1 ≤ log2 ≤ 16 → rtc (cstep fresh) (cq_init log2 sq_log2) s → posted s + kqs s ≤ 2 ^ 32 → ∃ S, cq_inv s S ∧ cfits s.
Proof.
  intros Hlog Hr Hb. apply rtc_ind_r with (P := λ s, k_qs_log2 s = log2 ∧ (cfits s → ∃ S, cq_inv s S)) in Hr as [Hq H].
  - assert (cfits s) as Hf by (split; [lia|done]). destruct (H Hf) as [S I]. by exists S.
  - split; [done|]. intros _. exists 0. by apply cq_init_inv.
  - intros y z _ Hyz [Hq IH]. destruct (cstep_mono _ _ _ Hyz) as [H1 H2]. split; [congruence|]. intros [Hf1 Hf2].
    assert (cfits y) as Hf by (split; [by rw -H1|rw /kqs -H1 -/(kqs z); lia]).
    destruct (IH Hf) as [S I]. by eapply cstep_inv.
Qed.
