(* ===== verification/ReqSetup.v ===== *)
(** * Commands for block requests (core.c, zns.c)

    [snvme_setup_cmd] translates a request of the block layer into a command, with a
    payload of ranges for a discard, and [snvme_cleanup_cmd] frees that payload.  A
    command is its sixteen 32-bit words; fields of the unions of [struct
    nvme_command] that share a word share it here.  What [kzalloc] returns is an
    argument; storing outside a payload and freeing what is not allocated is [None]. *)
From S2P Require Import Prelude PhaseRing KernelRing KernelCq.

(** ** Fields of a word *)

Definition put (lo len v w : Z) : Z := Z.lor (Z.ldiff w (Z.shiftl (Z.ones len) lo)) (Z.shiftl v lo).
Definition field (lo len w : Z) : Z := Z.land (Z.shiftr w lo) (Z.ones len).

Definition word (i : nat) (c : command) : Z := default 0 (c !! i).
Definition set_word (i : nat) (v : Z) (c : command) : command := <[i := v]> c.
Definition put_field (i : nat) (lo len v : Z) (c : command) : command := set_word i (put lo len v (word i c)) c.

Definition put_opcode (v : Z) : command → command := put_field 0 0 8 v.
Definition put_flags (v : Z) : command → command := put_field 0 8 8 v.
Definition put_command_id (v : Z) : command → command := put_field 0 16 16 v.
Definition put_nsid (v : Z) : command → command := set_word 1 (u32 v).
(** [rw.slba], [write_zeroes.slba] and [zms.slba]. *)
Definition put_slba (v : Z) (c : command) : command := set_word 11 (u32 (Z.shiftr v 32)) (set_word 10 (u32 v) c).
Definition put_length (v : Z) : command → command := put_field 12 0 16 v.
Definition put_control (v : Z) : command → command := put_field 12 16 16 v.
Definition put_dsmgmt (v : Z) : command → command := set_word 13 (u32 v).
Definition put_reftag (v : Z) : command → command := set_word 14 (u32 v).
Definition put_zsa (v : Z) : command → command := put_field 13 0 8 v.
Definition put_select_all (v : Z) : command → command := put_field 13 8 8 v.
Definition put_dsm (nr attributes : Z) (c : command) : command := set_word 11 attributes (set_word 10 nr c).

Definition cmd_opcode (c : command) : Z := field 0 8 (word 0 c).
Definition cmd_id (c : command) : Z := field 16 16 (word 0 c).
Definition cmd_nsid (c : command) : Z := word 1 c.
Definition cmd_slba (c : command) : Z := word 10 c + Z.shiftl (word 11 c) 32.
Definition cmd_length (c : command) : Z := field 0 16 (word 12 c).
Definition cmd_control (c : command) : Z := field 16 16 (word 12 c).

(** ** Requests *)

Inductive req_op :=
  | REQ_OP_DRV_IN | REQ_OP_DRV_OUT | REQ_OP_FLUSH | REQ_OP_READ | REQ_OP_WRITE | REQ_OP_DISCARD
  | REQ_OP_WRITE_ZEROES | REQ_OP_ZONE_RESET_ALL | REQ_OP_ZONE_RESET | REQ_OP_ZONE_OPEN | REQ_OP_ZONE_CLOSE
  | REQ_OP_ZONE_FINISH | REQ_OP_ZONE_APPEND | REQ_OP_OTHER.

(** The bits of [cmd_flags] that the driver reads. *)
Record req_flags := ReqFlags {
  f_fua : bool; f_failfast_dev : bool; f_failfast_transport : bool; f_failfast_driver : bool; f_rahead : bool; f_mpath : bool }.

(** [special_vec]: memory of [kzalloc] or the page of the controller. *)
Inductive payload := PMem (addr : Z) | PPage.

Record breq := Breq {
  q_op : req_op;
  q_flags : req_flags;
  q_dontprep : bool;             (* [RQF_DONTPREP] *)
  q_special : bool;              (* [RQF_SPECIAL_PAYLOAD] *)
  q_vec : payload;
  q_pos : Z;                     (* [blk_rq_pos] *)
  q_bytes : Z;                   (* [blk_rq_bytes] *)
  q_bios : list (Z * Z);         (* [bi_sector], [bi_size] *)
  q_segments : Z;                (* [blk_rq_nr_discard_segments] *)
  q_integrity : bool;            (* [blk_integrity_rq] *)
  q_write_hint : Z;
  q_ref_tag : Z;                 (* [t10_pi_ref_tag] *)
  q_cmd : command;
  q_nvme : nvme_request;
  q_retries : Z;
  q_nvme_flags : Z;
}.
#[export] Instance eta_breq : Settable breq := λ x,
  Breq (q_op x) (q_flags x) (q_dontprep x) (q_special x) (q_vec x) (q_pos x) (q_bytes x) (q_bios x) (q_segments x)
    (q_integrity x) (q_write_hint x) (q_ref_tag x) (q_cmd x) (q_nvme x) (q_retries x) (q_nvme_flags x).

(** The namespace, with what is read of its controller. *)
Record nvme_ns := NvmeNs {
  ns_id : Z; ns_lba_shift : Z; ns_ms : Z; ns_pi_type : Z;
  ns_nr_streams : Z; ns_deallocate_zeroes : bool; ns_zoned : bool (* [CONFIG_BLK_DEV_ZONED] *) }.

(** Payloads and statistics. *)
Record dsm_range := Range { r_cattr : Z; r_nlb : Z; r_slba : Z }.
Record payloads := Payloads {
  pl_live : gmap Z (list dsm_range);   (* memory of [kzalloc] *)
  pl_page : list dsm_range;            (* [ctrl->discard_page] *)
  pl_busy : bool;                      (* bit 0 of [ctrl->discard_page_busy] *)
  pl_hints : list Z;                   (* [q->write_hints] *)
}.
#[export] Instance eta_payloads : Settable payloads := λ x, Payloads (pl_live x) (pl_page x) (pl_busy x) (pl_hints x).

Inductive blk_sts :=
  | STS_OK | STS_NOTSUPP | STS_NOSPC | STS_TRANSPORT | STS_TARGET | STS_NEXUS | STS_MEDIUM | STS_PROTECTION
  | STS_RESOURCE | STS_IOERR | STS_ZONE_OPEN_RESOURCE | STS_ZONE_ACTIVE_RESOURCE.
#[export] Instance blk_sts_eq_dec : EqDecision blk_sts.
Proof. solve_decision. Defined.

(** ** Constants of <linux/nvme.h> *)

Definition nvme_cmd_flush : Z := 0x00.
Definition nvme_cmd_write : Z := 0x01.
Definition nvme_cmd_read : Z := 0x02.
Definition nvme_cmd_write_zeroes : Z := 0x08.
Definition nvme_cmd_dsm : Z := 0x09.
Definition nvme_cmd_zone_mgmt_send : Z := 0x79.
Definition nvme_cmd_zone_append : Z := 0x7d.
Definition NVME_RW_LR : Z := Z.shiftl 1 15.
Definition NVME_RW_FUA : Z := Z.shiftl 1 14.
Definition NVME_RW_PRINFO_PRACT : Z := Z.shiftl 1 13.
Definition NVME_RW_PRINFO_PRCHK_GUARD : Z := Z.shiftl 1 12.
Definition NVME_RW_PRINFO_PRCHK_REF : Z := Z.shiftl 1 10.
Definition NVME_RW_APPEND_PIREMAP : Z := Z.shiftl 1 9.
Definition NVME_RW_DTYPE_STREAMS : Z := Z.shiftl 1 4.
Definition NVME_RW_DSM_FREQ_PREFETCH : Z := 8.
Definition NVME_DSMGMT_AD : Z := Z.shiftl 1 2.
Definition NVME_DSM_MAX_RANGES : nat := 256.
Definition SECTOR_SHIFT : Z := 9.
Definition T10_PI_TUPLE : Z := 8.

(** ** Building commands *)

Definition nvme_sect_to_lba (ns : nvme_ns) (sector : Z) : Z := Z.shiftr sector (ns_lba_shift ns - SECTOR_SHIFT).
Definition nvme_lba_to_sect (ns : nvme_ns) (lba : Z) : Z := u64 (Z.shiftl lba (ns_lba_shift ns - SECTOR_SHIFT)).
Definition nvme_ns_has_pi (ns : nvme_ns) : bool := c_true (ns_pi_type ns) && (ns_ms ns =? T10_PI_TUPLE).

Definition nvme_clear_nvme_request (req : breq) : breq :=
  req<{q_nvme := (q_nvme req)<{rq_status := 0}>}><{q_retries := 0}><{q_nvme_flags := 0}><{q_dontprep := true}>.

(** Control and [dsmgmt] of a write with a stream, and the statistics. *)
Definition nvme_assign_write_stream (ns : nvme_ns) (req : breq) (control dsmgmt : Z) (h : payloads) : Z * Z * payloads :=
  let count streamid := if streamid <? Z.of_nat (length (pl_hints h))
    then h<{pl_hints := alter (λ n, u64 (n + Z.shiftr (q_bytes req) 9)) (Z.to_nat streamid) (pl_hints h)}> else h in
  if (q_write_hint req =? 0) || (q_write_hint req =? 1) then (control, dsmgmt, count 0) else
  let streamid := q_write_hint req - 1 in
  if ns_nr_streams ns <? streamid then (control, dsmgmt, h) else
  (Z.lor control NVME_RW_DTYPE_STREAMS, Z.lor dsmgmt (Z.shiftl streamid 16), count streamid).

Definition nvme_setup_flush (ns : nvme_ns) (c : command) : command := put_nsid (ns_id ns) (put_opcode nvme_cmd_flush c).

(** The protection bits of a namespace with metadata. *)
Definition rw_pi (ns : nvme_ns) (op control : Z) : Z * bool :=
  if ns_pi_type ns =? 3 then (Z.lor control NVME_RW_PRINFO_PRCHK_GUARD, false)
  else if (ns_pi_type ns =? 1) || (ns_pi_type ns =? 2) then
    let control := Z.lor control (Z.lor NVME_RW_PRINFO_PRCHK_GUARD NVME_RW_PRINFO_PRCHK_REF) in
    (if op =? nvme_cmd_zone_append then Z.lor control NVME_RW_APPEND_PIREMAP else control, true)
  else (control, false).

(** The stream of a write. *)
Definition rw_stream (ns : nvme_ns) (req : breq) (control dsmgmt : Z) (h : payloads) : Z * Z * payloads :=
  match q_op req with
  | REQ_OP_WRITE => if c_true (ns_nr_streams ns) then nvme_assign_write_stream ns req control dsmgmt h else (control, dsmgmt, h)
  | _ => (control, dsmgmt, h)
  end.

Definition nvme_setup_rw (ns : nvme_ns) (req : breq) (op : Z) (h : payloads) : blk_sts * command * payloads :=
  let fl := q_flags req in
  let control := if f_fua fl then NVME_RW_FUA else 0 in
  let control := if f_failfast_dev fl || f_rahead fl then Z.lor control NVME_RW_LR else control in
  let dsmgmt := if f_rahead fl then NVME_RW_DSM_FREQ_PREFETCH else 0 in
  let c := put_length (u16 (Z.shiftr (q_bytes req) (ns_lba_shift ns) - 1))
             (put_slba (nvme_sect_to_lba ns (q_pos req)) (put_nsid (ns_id ns) (put_opcode op (q_cmd req)))) in
  let '(control, dsmgmt, h) := rw_stream ns req control dsmgmt h in
  if c_true (ns_ms ns) then
    if negb (q_integrity req) && negb (nvme_ns_has_pi ns) then (STS_NOTSUPP, c, h) else
    let control := if negb (q_integrity req) then Z.lor control NVME_RW_PRINFO_PRACT else control in
    let '(control, ref) := rw_pi ns op control in
    let c := if ref : bool then put_reftag (q_ref_tag req) c else c in
    (STS_OK, put_dsmgmt dsmgmt (put_control (u16 control) c), h)
  else (STS_OK, put_dsmgmt dsmgmt (put_control (u16 control) c), h).

(** ** Discard *)

Definition kfree (p : payload) (h : payloads) : option payloads :=
  match p with
  | PPage => Some (h<{pl_busy := false}>)
  | PMem a => _ ← pl_live h !! a; Some (h<{pl_live := delete a (pl_live h)}>)
  end.

(** The loop over the bios: their number and the ranges stored. *)
Fixpoint discard_ranges (ns : nvme_ns) (segments n : Z) (bios : list (Z * Z)) (rs : list dsm_range) : option (Z * list dsm_range) :=
  match bios with
  | [] => Some (n, rs)
  | (bi_sector, bi_size) :: bios =>
    let slba := nvme_sect_to_lba ns bi_sector in
    let nlb := u32 (Z.shiftr bi_size (ns_lba_shift ns)) in
    rs ← (if n <? segments
          then _ ← rs !! Z.to_nat n; Some (<[Z.to_nat n := Range 0 nlb slba]> rs) else Some rs);
    discard_ranges ns segments (u16 (n + 1)) bios rs
  end.

(** Where the ranges go; [None] when [kzalloc] fails and the page is in use. *)
Definition discard_payload (new : option Z) (h : payloads) : option (payload * list dsm_range * payloads) :=
  match new with
  | Some a => Some (PMem a, replicate NVME_DSM_MAX_RANGES (Range 0 0 0), h)
  | None => if pl_busy h then None else Some (PPage, pl_page h, h<{pl_busy := true}>)
  end.
Definition store_payload (p : payload) (rs : list dsm_range) (h : payloads) : payloads :=
  match p with PMem a => h<{pl_live := <[a := rs]> (pl_live h)}> | PPage => h<{pl_page := rs}> end.

Definition nvme_setup_discard (ns : nvme_ns) (new : option Z) (req : breq) (h : payloads) : option (blk_sts * breq * payloads) :=
  let segments := u16 (q_segments req) in
  match discard_payload new h with
  | None => Some (STS_RESOURCE, req, h)
  | Some (p, rs, h) =>
    '(n, rs) ← discard_ranges ns segments 0 (q_bios req) rs;
    let h := store_payload p rs h in
    if negb (n =? segments) then h ← kfree p h; Some (STS_IOERR, req, h) else
    let c := put_dsm (u32 (segments - 1)) NVME_DSMGMT_AD (put_nsid (ns_id ns) (put_opcode nvme_cmd_dsm (q_cmd req))) in
    Some (STS_OK, req<{q_cmd := c}><{q_vec := p}><{q_special := true}>, h)
  end.

Definition nvme_setup_write_zeroes (ns : nvme_ns) (new : option Z) (req : breq) (h : payloads) : option (blk_sts * breq * payloads) :=
  if ns_deallocate_zeroes ns then nvme_setup_discard ns new req h else
  let c := put_length (u16 (Z.shiftr (q_bytes req) (ns_lba_shift ns) - 1))
             (put_slba (nvme_sect_to_lba ns (q_pos req)) (put_nsid (ns_id ns) (put_opcode nvme_cmd_write_zeroes (q_cmd req)))) in
  Some (STS_OK, req<{q_cmd := put_control (if nvme_ns_has_pi ns then NVME_RW_PRINFO_PRACT else 0) c}>, h).

Definition nvme_setup_zone_mgmt_send (ns : nvme_ns) (req : breq) (action : Z) : blk_sts * breq :=
  if negb (ns_zoned ns) then (STS_NOTSUPP, req) else
  let c := put_zsa action (put_slba (nvme_sect_to_lba ns (q_pos req)) (put_nsid (ns_id ns) (put_opcode nvme_cmd_zone_mgmt_send (q_cmd req)))) in
  (STS_OK, req<{q_cmd := match q_op req with REQ_OP_ZONE_RESET_ALL => put_select_all 1 c | _ => c end}>).

(** ** [snvme_setup_cmd] and [snvme_cleanup_cmd] *)

(** The switch; [None] in the result is its default.  The admin queue has no
    namespace. *)
Definition setup_op (ons : option nvme_ns) (new : option Z) (req : breq) (h : payloads) :
    option (option (blk_sts * breq * payloads)) :=
  let zone action := ns ← ons; let '(st, req) := nvme_setup_zone_mgmt_send ns req action in Some (Some (st, req, h)) in
  let rw op := ns ← ons; let '(st, c, h) := nvme_setup_rw ns req op h in Some (Some (st, req<{q_cmd := c}>, h)) in
  match q_op req with
  | REQ_OP_DRV_IN | REQ_OP_DRV_OUT => Some (Some (STS_OK, req, h))
  | REQ_OP_FLUSH => ns ← ons; Some (Some (STS_OK, req<{q_cmd := nvme_setup_flush ns (q_cmd req)}>, h))
  | REQ_OP_ZONE_RESET_ALL | REQ_OP_ZONE_RESET => zone 4
  | REQ_OP_ZONE_OPEN => zone 3
  | REQ_OP_ZONE_CLOSE => zone 1
  | REQ_OP_ZONE_FINISH => zone 2
  | REQ_OP_WRITE_ZEROES => ns ← ons; Some <$> nvme_setup_write_zeroes ns new req h
  | REQ_OP_DISCARD => ns ← ons; Some <$> nvme_setup_discard ns new req h
  | REQ_OP_READ => rw nvme_cmd_read
  | REQ_OP_WRITE => rw nvme_cmd_write
  | REQ_OP_ZONE_APPEND => rw nvme_cmd_zone_append
  | REQ_OP_OTHER => Some None
  end.

Definition snvme_setup_cmd (skip_cid_gen : bool) (ons : option nvme_ns) (new : option Z) (req : breq) (h : payloads) :
    option (blk_sts * breq * payloads) :=
  let req := if negb (q_dontprep req) then (nvme_clear_nvme_request req)<{q_cmd := replicate 16 0}> else req in
  r ← setup_op ons new req h;
  match r with
  | None => Some (STS_IOERR, req, h)
  | Some (ret, req, h) =>
    let '(cid, nv) := setup_cid skip_cid_gen (q_nvme req) in
    Some (ret, req<{q_nvme := nv}><{q_cmd := put_command_id cid (q_cmd req)}>, h)
  end.

Definition snvme_cleanup_cmd (req : breq) (h : payloads) : option payloads :=
  if q_special req then kfree (q_vec req) h else Some h.

(** ** Fields *)

Lemma testbit_small v len i : 0 ≤ v < 2 ^ len → 0 ≤ len ≤ i → Z.testbit v i = false.
Proof.
  intros Hv Hi. destruct (Z.eq_dec v 0) as [->|]; [apply Z.bits_0|]. apply Z.bits_above_log2; [lia|].
  apply Z.log2_lt_pow2; [lia|]. pose proof (Z.pow_le_mono_r 2 len i ltac:(lia) ltac:(lia)). lia.
Qed.
Lemma field_put lo len v w : 0 ≤ lo → 0 ≤ len → 0 ≤ v < 2 ^ len → field lo len (put lo len v w) = v.
Proof.
  intros Hlo Hlen Hv. apply Z.bits_inj'. intros i Hi. rw /field /put Z.land_spec Z.shiftr_spec // Z.lor_spec Z.ldiff_spec.
  rw !Z.shiftl_spec; [|lia..]. rw Z.add_simpl_r Z.testbit_ones_nonneg; [|lia..].
  destruct (Z.ltb_spec i len); [rw andb_true_r andb_false_r //|]. rw andb_false_r (testbit_small v len) //.
Qed.
Lemma field_put_other lo len lo' len' v w :
  0 ≤ lo → 0 ≤ len → 0 ≤ v < 2 ^ len → 0 ≤ lo' → 0 ≤ len' → lo' + len' ≤ lo ∨ lo + len ≤ lo' →
  field lo' len' (put lo len v w) = field lo' len' w.
Proof.
  intros Hlo Hlen Hv Hlo' Hlen' Hd. apply Z.bits_inj'. intros i Hi.
  rw /field /put !Z.land_spec !Z.shiftr_spec // Z.lor_spec Z.ldiff_spec. destruct (Z.ltb_spec i len') as [H|H].
  - rw !Z.shiftl_spec; [|lia..]. destruct Hd as [Hd|Hd].
    + rw !(Z.testbit_neg_r _ (i + lo' - lo)); [|lia..]. by rw orb_false_r andb_true_r.
    + rw (testbit_small v len) //; [|lia]. rw Z.testbit_ones_nonneg; [|lia..]. rw (proj2 (Z.ltb_ge _ _)); [|lia].
      by rw orb_false_r andb_true_r.
  - rw Z.testbit_ones_nonneg; [|lia..]. rw (proj2 (Z.ltb_ge _ _)); [|lia]. by rw !andb_false_r.
Qed.

Lemma word_set i v c : (i < length c)%nat → word i (set_word i v c) = v.
Proof. intros Hi. rw /word /set_word list_lookup_insert_eq //. Qed.
Lemma word_set_ne i j v c : i ≠ j → word i (set_word j v c) = word i c.
Proof. intros Hi. rw /word /set_word list_lookup_insert_ne //. Qed.
Lemma length_set_word i v c : length (set_word i v c) = length c.
Proof. apply length_insert. Qed.

(** The state of a word under a sequence of stores. *)
Ltac words :=
  rw /put_opcode /put_flags /put_command_id /put_nsid /put_slba /put_length /put_control /put_dsmgmt /put_reftag /put_zsa
    /put_select_all /put_dsm /put_field;
  repeat (first [rw word_set; [|rw ?length_set_word; lia] | rw word_set_ne; [|lia] ]).

(** What a controller reads of a command for blocks. *)
Definition addresses (c : command) (op nsid slba length : Z) : Prop :=
  cmd_opcode c = op ∧ cmd_nsid c = nsid ∧ cmd_slba c = slba ∧ cmd_length c = length.
Definition same_dptr (c c' : command) : Prop := ∀ i, (2 ≤ i ≤ 9)%nat → word i c' = word i c.

Lemma slba_words v : 0 ≤ v < 2 ^ 64 → u32 v + Z.shiftl (u32 (Z.shiftr v 32)) 32 = v.
Proof.
  intros Hv. rw /u32 Z.shiftl_mul_pow2 // Z.shiftr_div_pow2 //. pose proof (Z.div_mod v (2 ^ 32) ltac:(lia)).
  rw (Z.mod_small (v / 2 ^ 32)); [lia|]. split; [apply Z.div_pos; lia|apply Z.div_lt_upper_bound; lia].
Qed.

Lemma base_addresses op nsid slba len c :
  length c = 16%nat → 0 ≤ op < 2 ^ 8 → 0 ≤ nsid < 2 ^ 32 → 0 ≤ slba < 2 ^ 64 → 0 ≤ len < 2 ^ 16 →
  let c' := put_length len (put_slba slba (put_nsid nsid (put_opcode op c))) in
  addresses c' op nsid slba len ∧ same_dptr c c' ∧ length c' = 16%nat.
Proof.
  intros Hl Hop Hns Hs Hlen c'. rw /c' /addresses. split_and!.
  - rw /cmd_opcode. words. by apply field_put.
  - rw /cmd_nsid. words. by apply u32_id.
  - rw /cmd_slba. words. by apply slba_words.
  - rw /cmd_length. words. by apply field_put.
  - intros i Hi. by words.
  - rw /put_length /put_slba /put_nsid /put_opcode /put_field !length_set_word //.
Qed.

(** Stores of other fields. *)
Definition keeps (f : command → command) : Prop :=
  ∀ c op nsid slba len, length c = 16%nat → addresses c op nsid slba len →
    addresses (f c) op nsid slba len ∧ same_dptr c (f c) ∧ length (f c) = 16%nat.
Lemma keeps_compose f g : keeps f → keeps g → keeps (λ c, g (f c)).
Proof.
  intros Hf Hg c op nsid slba len Hl Ha. destruct (Hf c op nsid slba len Hl Ha) as (H1 & H2 & H3).
  destruct (Hg (f c) op nsid slba len H3 H1) as (H4 & H5 & H6). split_and!; try done. intros i Hi. rw H5 // H2 //.
Qed.
Lemma keeps_control v : keeps (put_control (u16 v)).
Proof.
  intros c op nsid slba len Hl (H1 & H2 & H3 & H4). pose proof (u16_range v). rw /addresses. split_and!.
  - rw /cmd_opcode. by words.
  - rw /cmd_nsid. by words.
  - rw /cmd_slba. by words.
  - rw /cmd_length. words. rw field_put_other //. lia.
  - intros i Hi. by words.
  - by rw /put_control /put_field length_set_word.
Qed.
Lemma keeps_high i v : (13 ≤ i)%nat → keeps (set_word i v).
Proof.
  intros Hi c op nsid slba len Hl (H1 & H2 & H3 & H4). rw /addresses. split_and!; [rw /cmd_opcode|rw /cmd_nsid|rw /cmd_slba|rw /cmd_length|intros j Hj|by rw length_set_word]; by words.
Qed.
Lemma keeps_id v : 0 ≤ v < 2 ^ 16 → keeps (put_command_id v).
Proof.
  intros Hv c op nsid slba len Hl (H1 & H2 & H3 & H4). rw /addresses. split_and!.
  - rw /cmd_opcode. words. rw field_put_other //. lia.
  - rw /cmd_nsid. by words.
  - rw /cmd_slba. by words.
  - rw /cmd_length. by words.
  - intros i Hi. by words.
  - by rw /put_command_id /put_field length_set_word.
Qed.

Lemma setup_rw_addresses ns req op h c h' :
  length (q_cmd req) = 16%nat → 0 ≤ op < 2 ^ 8 → 0 ≤ ns_id ns < 2 ^ 32 → 0 ≤ nvme_sect_to_lba ns (q_pos req) < 2 ^ 64 →
  nvme_setup_rw ns req op h = (STS_OK, c, h') →
  addresses c op (ns_id ns) (nvme_sect_to_lba ns (q_pos req)) (u16 (Z.shiftr (q_bytes req) (ns_lba_shift ns) - 1)) ∧
  same_dptr (q_cmd req) c ∧ length c = 16%nat.
Proof.
  intros Hl Hop Hns Hs E. rw /nvme_setup_rw in E.
  destruct (base_addresses op (ns_id ns) _ _ (q_cmd req) Hl Hop Hns Hs (u16_range (Z.shiftr (q_bytes req) (ns_lba_shift ns) - 1))) as (A1 & A2 & A3).
  set (base := put_length _ _) in *. destruct (rw_stream _ _ _ _ _) as [[control dsmgmt] h1].
  assert (∀ k b d, keeps (λ x, put_dsmgmt d (put_control (u16 k) (if b : bool then put_reftag (q_ref_tag req) x else x)))) as Hk.
  { intros k b d. apply (keeps_compose (λ x, put_control (u16 k) (if b then put_reftag (q_ref_tag req) x else x)) (put_dsmgmt d)); [|apply keeps_high; lia].
    apply (keeps_compose (λ x, if b then put_reftag (q_ref_tag req) x else x) (put_control (u16 k))); [|apply keeps_control].
    destruct b; [apply keeps_high; lia|]. by intros x. }
  assert (∀ k b d, let c := put_dsmgmt d (put_control (u16 k) (if b : bool then put_reftag (q_ref_tag req) base else base)) in
    addresses c op (ns_id ns) (nvme_sect_to_lba ns (q_pos req)) (u16 (Z.shiftr (q_bytes req) (ns_lba_shift ns) - 1)) ∧
    same_dptr (q_cmd req) c ∧ length c = 16%nat) as Hgoal.
  { intros k b d. destruct (Hk k b d base _ _ _ _ A3 A1) as (H1 & H2 & H3). split_and!; try apply H1; try done.
    intros i Hi. by rw H2 // A2. }
  destruct (c_true (ns_ms ns)).
  - destruct (negb (q_integrity req) && negb (nvme_ns_has_pi ns)); [done|].
    destruct (rw_pi ns op _) as [k b]. injection E as <- <-. apply (Hgoal k b).
  - injection E as <- <-. apply (Hgoal control false).
Qed.

(** ** Payloads *)

#[local] Opaque NVME_DSM_MAX_RANGES.

Definition range_of (ns : nvme_ns) (bio : Z * Z) : dsm_range :=
  Range 0 (u32 (Z.shiftr bio.2 (ns_lba_shift ns))) (nvme_sect_to_lba ns bio.1).
Definition payload_of (p : payload) (h : payloads) : option (list dsm_range) :=
  match p with PMem a => pl_live h !! a | PPage => Some (pl_page h) end.
Definition same_pool (h h' : payloads) : Prop := pl_live h' = pl_live h ∧ pl_busy h' = pl_busy h.
Definition new_fresh (new : option Z) (h : payloads) : Prop := ∀ a, new = Some a → pl_live h !! a = None.

Lemma discard_ranges_spec ns segments bios : ∀ n rs,
  0 ≤ n → n + Z.of_nat (length bios) ≤ segments < 2 ^ 16 → segments ≤ Z.of_nat (length rs) →
  ∃ rs', discard_ranges ns segments n bios rs = Some (n + Z.of_nat (length bios), rs') ∧ length rs' = length rs ∧
    take (Z.to_nat n) rs' = take (Z.to_nat n) rs ∧ take (length bios) (drop (Z.to_nat n) rs') = range_of ns <$> bios.
Proof.
  induction bios as [|[sec sz] bios IH]; intros n rs Hn Hs Hr; simpl.
  - exists rs. rw Z.add_0_r //.
  - simpl in Hs. rw (proj2 (Z.ltb_lt _ _)); [|lia].
    destruct (lookup_lt_is_Some_2 rs (Z.to_nat n) ltac:(lia)) as [r0 Hr0]. rw Hr0 /=.
    assert (u16 (n + 1) = n + 1) as -> by (apply Z.mod_small; lia).
    destruct (IH (n + 1) (<[Z.to_nat n := Range 0 (u32 (Z.shiftr sz (ns_lba_shift ns))) (nvme_sect_to_lba ns sec)]> rs))
      as (rs' & E & Hl & Ht & Hd); [lia|lia|rw length_insert; lia|].
    exists rs'. rw length_insert in Hl. assert (Z.to_nat (n + 1) = S (Z.to_nat n)) as Ek by lia. rw Ek in Ht, Hd.
    assert (rs' !! Z.to_nat n = Some (range_of ns (sec, sz))) as Hn'.
    { rw -(lookup_take_lt rs' (S (Z.to_nat n))); [|lia]. rw Ht lookup_take_lt; [|lia]. rw list_lookup_insert_eq //. lia. }
    split_and!; [rw E; f_equal; f_equal; lia|done| |].
    + transitivity (take (Z.to_nat n) (take (S (Z.to_nat n)) rs')); [rw take_take; f_equal; lia|].
      rw Ht take_take Nat.min_l; [|lia]. rw take_insert_ge //.
    + rw (drop_S _ _ _ Hn') /= Hd //.
Qed.

Lemma discard_exact ns new req h :
  new_fresh new h → length (pl_page h) = NVME_DSM_MAX_RANGES → 0 ≤ q_segments req < 2 ^ 16 →
  q_segments req ≤ Z.of_nat NVME_DSM_MAX_RANGES → Z.of_nat (length (q_bios req)) = q_segments req →
  match nvme_setup_discard ns new req h with
  | Some (STS_OK, req', h') =>
    q_special req' = true ∧ (∃ rs, payload_of (q_vec req') h' = Some rs ∧ take (length (q_bios req)) rs = range_of ns <$> q_bios req) ∧
    q_cmd req' = put_dsm (u32 (q_segments req - 1)) NVME_DSMGMT_AD (put_nsid (ns_id ns) (put_opcode nvme_cmd_dsm (q_cmd req))) ∧
    length (pl_page h') = NVME_DSM_MAX_RANGES
  | Some (st, req', h') => st = STS_RESOURCE ∧ new = None ∧ pl_busy h = true ∧ req' = req ∧ h' = h
  | None => False
  end.
Proof.
  intros Hnew Hpage Hseg Hmax Hbios. rw /nvme_setup_discard. assert (u16 (q_segments req) = q_segments req) as -> by by apply Z.mod_small.
  assert (∀ rs, length rs = NVME_DSM_MAX_RANGES → ∃ rs', discard_ranges ns (q_segments req) 0 (q_bios req) rs = Some (q_segments req, rs') ∧
    length rs' = NVME_DSM_MAX_RANGES ∧ take (length (q_bios req)) rs' = range_of ns <$> q_bios req) as Hgo.
  { intros rs Hrs. destruct (discard_ranges_spec ns (q_segments req) (q_bios req) 0 rs) as (rs' & E & Hl & _ & Hd); [lia|lia|lia|].
    exists rs'. rw E Hbios. by rw Hl Hrs. }
  destruct new as [a|]; simpl.
  - destruct (Hgo (replicate NVME_DSM_MAX_RANGES (Range 0 0 0))) as (rs' & -> & Hl & Hd); [by rw length_replicate|].
    cbn [mbind option_bind]. rw Z.eqb_refl. simpl. split_and!; try done. exists rs'. by rw lookup_insert_eq.
  - destruct (pl_busy h) eqn:Eb; [done|]. simpl. destruct (Hgo (pl_page h)) as (rs' & -> & Hl & Hd); [done|].
    cbn [mbind option_bind]. rw Z.eqb_refl. simpl. split_and!; try done. by exists rs'.
Qed.

(** Requests whose command needs a payload. *)
Definition wants_payload (ons : option nvme_ns) (req : breq) : bool :=
  match q_op req, ons with
  | REQ_OP_DISCARD, _ => true
  | REQ_OP_WRITE_ZEROES, Some ns => ns_deallocate_zeroes ns
  | _, _ => false
  end.

(** A failed set-up of a discard keeps nothing, and freeing the payload of a
    successful one gives everything back. *)
Lemma discard_pool ns new req h st req' h' :
  new_fresh new h → nvme_setup_discard ns new req h = Some (st, req', h') →
  if decide (st = STS_OK) then q_special req' = true ∧ ∃ h'', kfree (q_vec req') h' = Some h'' ∧ same_pool h h''
  else same_pool h h' ∧ req' = req.
Proof.
  intros Hnew E. rw /nvme_setup_discard in E. destruct (discard_payload new h) as [[[p rs] h1]|] eqn:Ep.
  2:{ injection E as <- <- <-. by case_decide. }
  destruct (discard_ranges _ _ _ _ _) as [[n rs']|]; [|done]. cbn [mbind option_bind] in E.
  assert (∃ h'', kfree p (store_payload p rs' h1) = Some h'' ∧ same_pool h h'') as (h'' & Hk & Hs).
  { destruct new as [a|]; simpl in Ep.
    - injection Ep as <- <- <-. simpl. rw lookup_insert_eq /=. eexists. split; [done|]. split; [|done]. simpl.
      rw delete_insert_eq delete_id //. by apply Hnew.
    - destruct (pl_busy h) eqn:Eb; [done|]. injection Ep as <- <- <-. eexists. split; [done|]. by split. }
  destruct (negb (n =? _)).
  - rw Hk /= in E. injection E as <- <- <-. by case_decide.
  - injection E as <- <- <-. case_decide; [|done]. simpl. eauto.
Qed.

(** What setting up a command leaves of the request. *)
Definition same_request (req req' : breq) : Prop :=
  q_op req' = q_op req ∧ q_flags req' = q_flags req ∧ q_dontprep req' = q_dontprep req ∧ q_retries req' = q_retries req ∧
  q_nvme_flags req' = q_nvme_flags req ∧ q_nvme req' = q_nvme req ∧ q_pos req' = q_pos req ∧ q_bytes req' = q_bytes req ∧
  q_integrity req' = q_integrity req.
(** What it leaves of the payloads: cleaning up gives back what it took. *)
Definition pool_after (ons : option nvme_ns) (req : breq) (h : payloads) (st : blk_sts) (req' : breq) (h' : payloads) : Prop :=
  if decide (st = STS_OK) then
    if wants_payload ons req then q_special req' = true ∧ ∃ h'', kfree (q_vec req') h' = Some h'' ∧ same_pool h h''
    else q_special req' = q_special req ∧ q_vec req' = q_vec req ∧ same_pool h h'
  else q_special req' = q_special req ∧ q_vec req' = q_vec req ∧ same_pool h h'.

Lemma rw_stream_pool ns req control dsmgmt h : same_pool h (rw_stream ns req control dsmgmt h).2.
Proof.
  rw /rw_stream /nvme_assign_write_stream. destruct (q_op req); try done. destruct (c_true _); [|done].
  destruct (_ || _); [by destruct (_ <? _)|]. destruct (_ <? _); [done|]. by destruct (_ <? _).
Qed.
Lemma setup_rw_pool ns req op h : same_pool h (nvme_setup_rw ns req op h).2.
Proof.
  rw /nvme_setup_rw. match goal with |- context [rw_stream ns req ?c ?d h] => pose proof (rw_stream_pool ns req c d h) as Hs end.
  destruct (rw_stream _ _ _ _ _) as [[k d] h1]. destruct (c_true _); [|done]. destruct (_ && _); [done|]. by destruct (rw_pi _ _ _).
Qed.
Lemma discard_request ns new req h st req' h' : nvme_setup_discard ns new req h = Some (st, req', h') → same_request req req'.
Proof.
  rw /nvme_setup_discard. destruct (discard_payload _ _) as [[[p rs] h1]|]; [|by intros [= <- <- <-] ].
  destruct (discard_ranges _ _ _ _ _) as [[n rs']|]; [|done]. cbn [mbind option_bind]. destruct (negb _); [|by intros [= <- <- <-] ].
  destruct (kfree _ _); [|done]. by intros [= <- <- <-].
Qed.
Lemma discard_after ns new req h st req' h' :
  new_fresh new h → wants_payload (Some ns) req = true → nvme_setup_discard ns new req h = Some (st, req', h') →
  same_request req req' ∧ pool_after (Some ns) req h st req' h'.
Proof.
  intros Hn Hw E. split; [by eapply discard_request|]. pose proof (discard_pool _ _ _ _ _ _ _ Hn E) as H.
  rw /pool_after Hw. case_decide; [done|]. by destruct H as [? ->].
Qed.

Lemma setup_op_after ons new req h st req' h' :
  new_fresh new h → setup_op ons new req h = Some (Some (st, req', h')) →
  same_request req req' ∧ pool_after ons req h st req' h'.
Proof.
  intros Hn E. rw /setup_op in E.
  assert (∀ action, (ns ← ons; let '(st, req) := nvme_setup_zone_mgmt_send ns req action in Some (Some (st, req, h))) =
    Some (Some (st, req', h')) → wants_payload ons req = false → same_request req req' ∧ pool_after ons req h st req' h') as Hz.
  { intros action Hz Hw. destruct ons as [ns|]; [|done]. simpl in Hz. rw /nvme_setup_zone_mgmt_send in Hz.
    rw /pool_after Hw. destruct (negb _); injection Hz as <- <- <-; split; try done; by case_decide. }
  assert (∀ op, (ns ← ons; let '(st, c, h) := nvme_setup_rw ns req op h in Some (Some (st, req<{q_cmd := c}>, h))) =
    Some (Some (st, req', h')) → wants_payload ons req = false → same_request req req' ∧ pool_after ons req h st req' h') as Hr.
  { intros op Hq Hw. destruct ons as [ns|]; [|done]. simpl in Hq. pose proof (setup_rw_pool ns req op h) as Hs.
    destruct (nvme_setup_rw ns req op h) as [[st1 c] h1]. injection Hq as <- <- <-. rw /pool_after Hw. split; [done|]. by case_decide. }
  rw /wants_payload in Hz Hr. destruct (q_op req) eqn:Eop; try done; try (by eapply Hz); try (by eapply Hr).
  - injection E as <- <- <-. rw /pool_after /wants_payload Eop. by case_decide.
  - injection E as <- <- <-. rw /pool_after /wants_payload Eop. by case_decide.
  - destruct ons as [ns|]; [|done]. injection E as <- <- <-. rw /pool_after /wants_payload Eop. by case_decide.
  - destruct ons as [ns|]; [|done]. cbn [mbind option_bind] in E. destruct (nvme_setup_discard _ _ _ _) as [[[st1 r1] h1]|] eqn:Ed; [|done].
    injection E as <- <- <-. apply (discard_after ns new); [done|by rw /wants_payload Eop|done].
  - destruct ons as [ns|]; [|done]. cbn [mbind option_bind] in E. destruct (nvme_setup_write_zeroes _ _ _ _) as [[[st1 r1] h1]|] eqn:Ed; [|done].
    injection E as <- <- <-. rw /nvme_setup_write_zeroes in Ed. destruct (ns_deallocate_zeroes ns) eqn:Ez.
    + apply (discard_after ns new); [done|by rw /wants_payload Eop|done].
    + injection Ed as <- <- <-. rw /pool_after /wants_payload Eop Ez. by case_decide.
Qed.

(** A request as the block layer dispatches it, perhaps again: a payload it may
    still be marked with is of its own kind. *)
Definition special_ok (ons : option nvme_ns) (req : breq) : Prop := q_special req = true → wants_payload ons req = true.

Lemma setup_cmd_after skip ons new req h st req' h' :
  new_fresh new h → special_ok ons req → snvme_setup_cmd skip ons new req h = Some (st, req', h') →
  (q_op req' = q_op req ∧ q_flags req' = q_flags req ∧ q_dontprep req' = true ∧ rq_tag (q_nvme req') = rq_tag (q_nvme req) ∧
   q_retries req' = (if q_dontprep req then q_retries req else 0) ∧ special_ok ons req') ∧
  if decide (st = STS_OK) then ∃ h'', snvme_cleanup_cmd req' h' = Some h'' ∧ same_pool h h'' else same_pool h h'.
Proof.
  intros Hn Hsp E. rw /snvme_setup_cmd in E.
  set (req0 := if negb (q_dontprep req) then _ else req) in E.
  assert (q_op req0 = q_op req ∧ q_flags req0 = q_flags req ∧ q_dontprep req0 = true ∧ rq_tag (q_nvme req0) = rq_tag (q_nvme req) ∧
    q_retries req0 = (if q_dontprep req then q_retries req else 0) ∧ q_special req0 = q_special req) as (E1 & E2 & E3 & E4 & E5 & E6).
  { rw /req0. by destruct (q_dontprep req) eqn:Ed. }
  assert (wants_payload ons req0 = wants_payload ons req) as Ew by (rw /wants_payload E1 //).
  destruct (setup_op ons new req0 h) as [[[[st1 req1] h1]|]|] eqn:Es; [|injection E as <- <- <-|done].
  2:{ split; [split_and!; try done; rw /special_ok Ew E6 //|]. by case_decide. }
  destruct (setup_op_after ons new req0 h st1 req1 h1 Hn Es) as [(F1 & F2 & F3 & F4 & F5 & F6 & F7) Hp]. cbn [mbind option_bind] in E.
  rw /setup_cid in E. set (nv := if negb skip then _ else _) in E. injection E as <- <- <-. simpl.
  assert (rq_tag nv = rq_tag (q_nvme req)) as Ent. { rw /nv F6 -E4. by destruct (negb skip). }
  assert (wants_payload ons req1 = wants_payload ons req) as Ew1 by (rw /wants_payload F1 E1 //).
  rw /pool_after Ew E6 in Hp. split.
  - split_and!; try done; try congruence. rw /special_ok /=. change (wants_payload ons _) with (wants_payload ons req1). rw Ew1.
    case_decide; [|destruct Hp as [-> _]; exact Hsp]. destruct (wants_payload ons req) eqn:Hw; [done|]. destruct Hp as [-> _]. rw -Hw. exact Hsp.
  - case_decide; [|apply Hp]. rw /snvme_cleanup_cmd /=. destruct (wants_payload ons req) eqn:Hw; [by destruct Hp as [-> ?]|].
    destruct Hp as (-> & _ & Hs). destruct (q_special req) eqn:Eq; [by rw (Hsp Eq) in Hw|]. by exists h1.
Qed.
