(* ===== verification/ReqLife.v ===== *)
(** * The life of a block request in the driver (core.c, pci.c)

    A request is dispatched ([nvme_queue_rq]: set up, mapped and submitted, or
    refused), completed by the controller ([nvme_pci_complete_rq]) and then ended,
    handed to another path or queued again.  The answers of the block layer, the DMA
    API and the allocators to one dispatch are the fields of [qenv]. *)
From S2P Require Import Prelude PhaseRing UserCmd KernelRing KernelCq KernelPrp KernelMap Lifecycle ReqSetup.

(** ** Status *)

Definition NVME_SC_HOST_PATH_ERROR : Z := 0x370.
Definition NVME_SC_CRD : Z := 0x1800.
Definition NVME_SC_DNR : Z := 0x4000.

Definition nvme_error_status (status : Z) : blk_sts :=
  let s := Z.land status 0x7ff in
  if s =? 0 then STS_OK
  else if s =? 0x81 then STS_NOSPC
  else if (s =? 0x80) || (s =? 0x21) || (s =? 0x82) then STS_TARGET
  else if (s =? 0x180) || (s =? 0x183) || (s =? 0x1) || (s =? 0x2) || (s =? 0xb) then STS_NOTSUPP
  else if (s =? 0x280) || (s =? 0x281) || (s =? 0x287) || (s =? 0x286) || (s =? 0x182) || (s =? 0x285) then STS_MEDIUM
  else if (s =? 0x282) || (s =? 0x283) || (s =? 0x284) || (s =? 0x181) then STS_PROTECTION
  else if s =? 0x83 then STS_NEXUS
  else if s =? NVME_SC_HOST_PATH_ERROR then STS_TRANSPORT
  else if s =? 0x1bd then STS_ZONE_ACTIVE_RESOURCE
  else if s =? 0x1be then STS_ZONE_OPEN_RESOURCE
  else STS_IOERR.

(** ** Completion *)

Inductive outcome := Ended (status : blk_sts) | Requeued (delay : Z) | FailedOver.
Definition final (o : outcome) : bool := match o with Requeued _ => false | _ => true end.

(** What completion reads of the controller and the queue. *)
Record cenv := CEnv {
  e_crdt : Z → Z;                 (* [ctrl->crdt] *)
  e_kas : Z;
  e_max_retries : Z;              (* [s_nvme_max_retries] *)
  e_queue_dying : bool;
}.

Definition blk_noretry_request (req : breq) : bool :=
  f_failfast_dev (q_flags req) || f_failfast_transport (q_flags req) || f_failfast_driver (q_flags req).
Definition nvme_is_path_error (status : Z) : bool := Z.land status 0x700 =? 0x300.

Inductive nvme_disposition := COMPLETE | RETRY | FAILOVER.
Definition nvme_decide_disposition (e : cenv) (req : breq) : nvme_disposition :=
  let status := rq_status (q_nvme req) in
  if status =? 0 then COMPLETE else
  if blk_noretry_request req || c_true (Z.land status NVME_SC_DNR) || (e_max_retries e <=? q_retries req) then COMPLETE else
  if f_mpath (q_flags req) then
    if nvme_is_path_error status || e_queue_dying e then FAILOVER else RETRY
  else if e_queue_dying e then COMPLETE else RETRY.

(** The delay and the request for the requeue list. *)
Definition nvme_retry_req (e : cenv) (req : breq) : Z * breq :=
  let crd := Z.shiftr (Z.land (rq_status (q_nvme req)) NVME_SC_CRD) 11 in
  (if c_true crd then u64 (e_crdt e (crd - 1) * 100) else 0, req<{q_retries := u8 (q_retries req + 1)}>).

(** An append reports where it wrote. *)
Definition nvme_end_req (ons : option nvme_ns) (req : breq) : option (blk_sts * breq) :=
  let status := nvme_error_status (rq_status (q_nvme req)) in
  match q_op req with
  | REQ_OP_ZONE_APPEND =>
    ns ← ons;
    Some (status, if ns_zoned ns then req<{q_pos := nvme_lba_to_sect ns (rq_result (q_nvme req))}> else req)
  | _ => Some (status, req)
  end.

(** The outcome, the request, the payloads and whether [comp_seen] was set. *)
Definition snvme_complete_rq (e : cenv) (ons : option nvme_ns) (req : breq) (h : payloads) :
    option (outcome * breq * payloads * bool) :=
  h ← snvme_cleanup_cmd req h;
  let seen := c_true (e_kas e) in
  match nvme_decide_disposition e req with
  | COMPLETE => '(status, req) ← nvme_end_req ons req; Some (Ended status, req, h, seen)
  | RETRY => let '(delay, req) := nvme_retry_req e req in Some (Requeued delay, req, h, seen)
  | FAILOVER => Some (FailedOver, req, h, seen)
  end.

Definition nvme_host_path_error (e : cenv) (ons : option nvme_ns) (req : breq) (h : payloads) :
    option (outcome * breq * payloads * bool) :=
  snvme_complete_rq e ons (req<{q_nvme := (q_nvme req)<{rq_status := NVME_SC_HOST_PATH_ERROR}>}>) h.

(** ** Dispatch *)

Record qenv := QEnv {
  e_complete : cenv;
  e_enabled : bool;               (* NVMEQ_ENABLED *)
  e_state : nvme_ctrl_state;
  e_failfast_expired : bool;
  e_fabrics : bool;               (* NVME_F_FABRICS *)
  e_user_admin : bool;            (* a command of a user on the admin queue *)
  e_connect : bool;               (* a fabrics connect command *)
  e_skip_cid_gen : bool;
  e_new : option Z;               (* [kzalloc] *)
  e_alloc : bool → nat → option prp_list;
  e_salloc : bool → nat → option sgl_page;
  e_sgl_supported : bool;
  e_sgl_threshold : Z;
  e_segments : KernelMap.request;
  e_meta : option Z;              (* [dma_map_bvec] of the metadata *)
  e_meta_len : Z;
}.

Definition __snvme_check_ready (e : qenv) (queue_live : bool) : bool :=
  if e_user_admin e then false else
  if e_fabrics e then
    match e_state e with
    | NVME_CTRL_CONNECTING => if e_connect e then true else queue_live
    | NVME_CTRL_DEAD => false
    | _ => queue_live
    end
  else queue_live.
Definition nvme_check_ready (e : qenv) (queue_live : bool) : bool :=
  match e_state e with
  | NVME_CTRL_LIVE => true
  | NVME_CTRL_DELETING => if e_fabrics e then true else __snvme_check_ready e queue_live
  | _ => __snvme_check_ready e queue_live
  end.

(** A request that cannot be sent now: later, or failed at once. *)
Definition busy_nonready (e : qenv) (req : breq) : bool :=
  match e_state e with
  | NVME_CTRL_DELETING_NOIO | NVME_CTRL_DEAD => false
  | _ => negb (e_failfast_expired e) && negb (blk_noretry_request req) && negb (f_mpath (q_flags req))
  end.

(** The driver's state: the request with its mapping, and what it shares. *)
Record dstate := DState {
  d_req : breq;
  d_aborted : bool;
  d_map : iod_map;
  d_meta_dma : Z;
  d_pl : payloads;
  d_queue : nvme_queue;
  d_events : list dma_event;
}.
#[export] Instance eta_dstate : Settable dstate := λ x,
  DState (d_req x) (d_aborted x) (d_map x) (d_meta_dma x) (d_pl x) (d_queue x) (d_events x).

(** [cmnd->dptr] and [cmnd->flags]. *)
Definition NVME_CMD_SGL_METABUF : Z := Z.shiftl 1 6.
Definition put_u64 (i : nat) (v : Z) (c : command) : command := set_word (S i) (u32 (Z.shiftr v 32)) (set_word i (u32 v) c).
Definition put_dptr (d : option dptr) (m : iod_map) (c : command) : command :=
  match d with
  | Some (DptrPrp prp1 prp2) => put_u64 8 prp2 (put_u64 6 prp1 c)
  | Some (DptrSgl sg) =>
    put_field 9 24 8 (sge_type sg) (set_word 8 (sge_length sg) (put_u64 6 (sge_addr sg) (put_flags NVME_CMD_SGL_METABUF c)))
  | None => if im_use_sgl m then put_flags NVME_CMD_SGL_METABUF c else c
  end.
Definition cmd_prp2 (c : command) : Z := word 8 c + Z.shiftl (word 9 c) 32.

Definition sts_of (st : blk_status) : blk_sts :=
  match st with BLK_STS_OK => STS_OK | BLK_STS_RESOURCE => STS_RESOURCE | BLK_STS_IOERR => STS_IOERR end.

(** [nvme_map_data], when there is something to map. *)
Definition queue_map_data (e : qenv) (qid : Z) (d : dstate) : option (blk_sts * dstate) :=
  if negb (c_true (r_nseg (e_segments e))) then Some (STS_OK, d) else
  let c := q_cmd (d_req d) in
  '(st, m, dp, evs) ← nvme_map_data (e_alloc e) (e_salloc e) (e_sgl_supported e) (e_sgl_threshold e) qid
                        (e_segments e) (im_first_dma (d_map d)) (cmd_prp2 c);
  Some (sts_of st, d<{d_map := m}><{d_req := (d_req d)<{q_cmd := put_dptr dp m c}>}><{d_events := d_events d ++ evs}>).
Definition unmap_data (d : dstate) : option dstate :=
  evs ← nvme_unmap_data (d_map d); Some (d<{d_events := d_events d ++ evs}>).

Definition nvme_map_metadata (e : qenv) (d : dstate) : blk_sts * dstate :=
  match e_meta e with
  | None => (STS_IOERR, d)
  | Some dma =>
    (STS_OK, d<{d_meta_dma := dma}><{d_req := (d_req d)<{q_cmd := put_u64 4 dma (q_cmd (d_req d))}>}>
              <{d_events := d_events d ++ [EvMapPage dma (e_meta_len e)] }>)
  end.

(** The labels at the end: what was mapped and set up is undone. *)
Definition out_free_cmd (d : dstate) : option dstate :=
  h ← snvme_cleanup_cmd (d_req d) (d_pl d); Some (d<{d_pl := h}>).

(** After [snvme_setup_cmd]. *)
Definition queue_mapped (e : qenv) (qid : Z) (last : bool) (d : dstate) : option (blk_sts * option (Z * Z) * dstate) :=
  '(ret, d) ← queue_map_data e qid d;
  if decide (ret ≠ STS_OK) then d ← out_free_cmd d; Some (ret, None, d) else
  let '(ret, d) := if q_integrity (d_req d) then nvme_map_metadata e d else (STS_OK, d) in
  if decide (ret ≠ STS_OK) then d ← unmap_data d; d ← out_free_cmd d; Some (ret, None, d) else
  let '(db, q) := nvme_submit_cmd (d_queue d) (q_cmd (d_req d)) last in
  Some (STS_OK, db, d<{d_queue := q}>).

(** The status, the outcome of a request that was completed at once, the doorbell
    and the state. *)
Definition nvme_queue_rq (e : qenv) (ons : option nvme_ns) (qid : Z) (last : bool) (d : dstate) :
    option (blk_sts * option outcome * option (Z * Z) * dstate) :=
  let m := d_map d in
  let d := d<{d_aborted := false}>
    <{d_map := IodMap (-1) (im_first_dma m) (im_dma_len m) 0 (im_p2p m) (im_use_sgl m) (im_prps m) (im_sgls m)}> in
  if negb (e_enabled e) then Some (STS_IOERR, None, None, d) else
  if negb (nvme_check_ready e true) then
    if busy_nonready e (d_req d) then Some (STS_RESOURCE, None, None, d) else
    '(o, req, h, _) ← nvme_host_path_error (e_complete e) ons (d_req d) (d_pl d);
    Some (STS_OK, Some o, None, d<{d_req := req}><{d_pl := h}>)
  else
  '(ret, req, h) ← snvme_setup_cmd (e_skip_cid_gen e) ons (e_new e) (d_req d) (d_pl d);
  let d := d<{d_req := req}><{d_pl := h}> in
  if decide (ret ≠ STS_OK) then Some (ret, None, None, d) else
  '(ret, db, d) ← queue_mapped e qid last d;
  Some (ret, None, db, d).

(** The controller's answer has been stored in the request ([nvme_try_complete_req]). *)
Definition nvme_pci_complete_rq (e : qenv) (ons : option nvme_ns) (d : dstate) : option (outcome * dstate) :=
  let d := if q_integrity (d_req d) then d<{d_events := d_events d ++ [EvUnmapPage (d_meta_dma d) (e_meta_len e)] }> else d in
  d ← (if c_true (r_nseg (e_segments e)) then unmap_data d else Some d);
  '(o, req, h, _) ← snvme_complete_rq (e_complete e) ons (d_req d) (d_pl d);
  Some (o, d<{d_req := req}><{d_pl := h}>).
