(* ===== verification/ReqTimeout.v ===== *)
(** * Timeouts and aborts (pci.c)

    [nvme_timeout] decides what to do about a request that took too long; it may send
    an abort command, of which the controller accepts a limited number at a time.
    Handlers of several requests run at once and [abort_endio] runs when an abort
    completes: each atomic access to [abort_limit] is a step of its own.  One handler
    runs per request, and the controller is identified again, which sets the limit,
    only when no handler runs and no abort is left. *)
From S2P Require Import Prelude Lifecycle.

Inductive blk_eh := BLK_EH_DONE | BLK_EH_RESET_TIMER.
Inductive timeout_call := CallDevDisable (shutdown : bool) | CallResetCtrl | CallPoll.

(** What the handler reads: CSTS, the state of the PCI channel, and whether the
    request turned out completed after polling. *)
Record tenv := TEnv { te_csts : Z; te_offline : bool; te_subsystem : bool; te_completed : bool }.

Definition NVME_CSTS_CFS : Z := 2.
Definition NVME_CSTS_NSSRO : Z := 16.

Definition nvme_should_reset (e : tenv) (st : nvme_ctrl_state) : bool :=
  let nssro := te_subsystem e && c_true (Z.land (te_csts e) NVME_CSTS_NSSRO) in
  match st with
  | NVME_CTRL_RESETTING | NVME_CTRL_CONNECTING => false
  | _ => if negb (c_true (Z.land (te_csts e) NVME_CSTS_CFS)) && negb nssro then false else true
  end.

(** The handler up to the abort: what it calls, the controller, and what it returns
    together with whether the request was marked as cancelled; [None] when it goes
    on to abort. *)
Definition timeout_decide (e : tenv) (c : nvme_ctrl) (qid : Z) (aborted : bool) :
    list timeout_call * nvme_ctrl * option (blk_eh * bool) :=
  if te_offline e then ([], c, Some (BLK_EH_RESET_TIMER, false)) else
  if nvme_should_reset e (ct_state c) then ([CallDevDisable false; CallResetCtrl], c, Some (BLK_EH_DONE, false)) else
  if te_completed e then ([CallPoll], c, Some (BLK_EH_DONE, false)) else
  match ct_state c with
  | NVME_CTRL_CONNECTING =>
    ([CallPoll; CallDevDisable true], (snvme_change_ctrl_state c NVME_CTRL_DELETING).2, Some (BLK_EH_DONE, true))
  | NVME_CTRL_DELETING => ([CallPoll; CallDevDisable true], c, Some (BLK_EH_DONE, true))
  | NVME_CTRL_RESETTING => ([CallPoll], c, Some (BLK_EH_RESET_TIMER, false))
  | _ =>
    if negb (c_true qid) || aborted then ([CallPoll; CallDevDisable false; CallResetCtrl], c, Some (BLK_EH_DONE, true))
    else ([CallPoll], c, None)
  end.

(** Where the handler of a request is. *)
Inductive tpc :=
  | TIdle
  | TDec        (* [atomic_dec_return] *)
  | TAlloc      (* [snvme_alloc_request] of the abort *)
  | TUndo.      (* [atomic_inc] before it gives up *)
Record treq := TReq { tr_qid : Z; tr_cid : Z; tr_aborted : bool; tr_pc : tpc; tr_sent : nat (* aborts since it was started *) }.

Record tstate := TState {
  t_ctrl : nvme_ctrl;
  t_acl : Z;                   (* [id->acl] *)
  t_limit : Z;                 (* [abort_limit] *)
  t_out : list (Z * Z);        (* aborts not completed: queue and id of the command *)
  t_reqs : list treq;
  t_calls : list timeout_call;
}.
#[export] Instance eta_tstate : Settable tstate := λ x,
  TState (t_ctrl x) (t_acl x) (t_limit x) (t_out x) (t_reqs x) (t_calls x).
Definition set_req (r : nat) (x : treq) (s : tstate) : tstate := s<{t_reqs := <[r := x]> (t_reqs s)}>.

Definition at_pc (r : nat) (p : tpc) (s : tstate) : option treq :=
  x ← t_reqs s !! r; if match tr_pc x, p with TIdle, TIdle | TDec, TDec | TAlloc, TAlloc | TUndo, TUndo => true | _, _ => false end
  then Some x else None.

Definition nvme_timeout (e : tenv) (r : nat) (s : tstate) : option tstate :=
  x ← at_pc r TIdle s;
  let '(calls, c, ret) := timeout_decide e (t_ctrl s) (tr_qid x) (tr_aborted x) in
  let s := s<{t_ctrl := c}><{t_calls := t_calls s ++ calls}> in
  Some (match ret with Some _ => s | None => set_req r (TReq (tr_qid x) (tr_cid x) (tr_aborted x) TDec (tr_sent x)) s end).
Definition timeout_dec (r : nat) (s : tstate) : option tstate :=
  x ← at_pc r TDec s;
  let limit := s32 (t_limit s - 1) in
  Some (set_req r (if limit <? 0 then TReq (tr_qid x) (tr_cid x) (tr_aborted x) TUndo (tr_sent x)
                   else TReq (tr_qid x) (tr_cid x) true TAlloc (tr_sent x)) (s<{t_limit := limit}>)).
Definition timeout_alloc (ok : bool) (r : nat) (s : tstate) : option tstate :=
  x ← at_pc r TAlloc s;
  Some (if ok then set_req r (TReq (tr_qid x) (tr_cid x) (tr_aborted x) TIdle (S (tr_sent x)))
                     (s<{t_out := t_out s ++ [(tr_qid x, tr_cid x)] }>)
        else set_req r (TReq (tr_qid x) (tr_cid x) (tr_aborted x) TUndo (tr_sent x)) s).
Definition timeout_undo (r : nat) (s : tstate) : option tstate :=
  x ← at_pc r TUndo s;
  Some (set_req r (TReq (tr_qid x) (tr_cid x) (tr_aborted x) TIdle (tr_sent x)) (s<{t_limit := s32 (t_limit s + 1)}>)).

Definition abort_endio (i : nat) (s : tstate) : option tstate :=
  _ ← t_out s !! i;
  Some (s<{t_limit := s32 (t_limit s + 1)}><{t_out := list_delete i (t_out s)}>).

(** [nvme_queue_rq] starts the request anew, with another command id. *)
Definition restart (r : nat) (cid : Z) (s : tstate) : option tstate :=
  x ← at_pc r TIdle s; Some (set_req r (TReq (tr_qid x) cid false TIdle 0) s).
(** A request of another queue. *)
Definition new_request (qid cid : Z) (s : tstate) : tstate := s<{t_reqs := t_reqs s ++ [TReq qid cid false TIdle 0] }>.
(** The identification of the controller. *)
Definition init_identify (acl : Z) (s : tstate) : tstate := s<{t_acl := acl}><{t_limit := acl + 1}>.
(** No handler runs and no abort is outstanding: a reset disables the controller and
    cancels what it had before the controller is identified again. *)
Definition disabled (s : tstate) : Prop := Forall (λ x, tr_pc x = TIdle) (t_reqs s) ∧ t_out s = [].
(** The controller changes state elsewhere (Lifecycle.v). *)
Definition other_state (c : nvme_ctrl) (s : tstate) : tstate := s<{t_ctrl := c}>.

Inductive tstep : tstate → tstate → Prop :=
  | tstep_timeout e r s s' : nvme_timeout e r s = Some s' → tstep s s'
  | tstep_dec r s s' : timeout_dec r s = Some s' → tstep s s'
  | tstep_alloc ok r s s' : timeout_alloc ok r s = Some s' → tstep s s'
  | tstep_undo r s s' : timeout_undo r s = Some s' → tstep s s'
  | tstep_endio i s s' : abort_endio i s = Some s' → tstep s s'
  | tstep_restart r cid s s' : restart r cid s = Some s' → tstep s s'
  | tstep_new qid cid s : tstep s (new_request qid cid s)
  | tstep_identify acl s : 0 ≤ acl < 256 → disabled s → tstep s (init_identify acl s)
  | tstep_state c s : tstep s (other_state c s).

Definition t_init (c : nvme_ctrl) (acl : Z) : tstate := TState c acl (acl + 1) [] [] [].

(** ** The budget *)

(** A handler that holds a part of the limit, and one that may still send. *)
Definition holds (x : treq) : bool := match tr_pc x with TAlloc | TUndo => true | _ => false end.
Definition may_send (x : treq) : bool := match tr_pc x with TAlloc => true | _ => false end.
Definition count (f : treq → bool) (l : list treq) : Z := Z.of_nat (length (filter (λ x, f x = true) l)).
Definition outstanding (s : tstate) : Z := Z.of_nat (length (t_out s)).

(** One abort per start, and none for the admin queue. *)
Definition treq_ok (x : treq) : Prop :=
  (tr_sent x ≤ 1)%nat ∧ (tr_sent x = 1%nat → tr_aborted x = true ∧ tr_pc x = TIdle) ∧
  (tr_pc x = TDec → tr_aborted x = false) ∧ (tr_pc x = TAlloc → tr_aborted x = true) ∧ (tr_pc x = TUndo → tr_sent x = 0%nat) ∧ (tr_pc x ≠ TIdle → tr_qid x ≠ 0).

Record budget_ok (s : tstate) : Prop := {
  bo_acl : 0 ≤ t_acl s < 256;
  bo_limit : t_limit s + outstanding s + count holds (t_reqs s) = t_acl s + 1;
  bo_send : outstanding s + count may_send (t_reqs s) ≤ t_acl s + 1;
  bo_reqs : Forall treq_ok (t_reqs s);
  bo_out : Forall (λ a, a.1 ≠ 0) (t_out s);
}.

Lemma count_app f l l' : count f (l ++ l') = count f l + count f l'.
Proof. rw /count filter_app length_app. lia. Qed.
Lemma count_one f x : count f [x] = if f x then 1 else 0.
Proof. rw /count filter_cons. by destruct (f x). Qed.
Lemma count_nonneg f l : 0 ≤ count f l.
Proof. rw /count. lia. Qed.
Lemma count_insert f l r x y : l !! r = Some x → count f (<[r := y]> l) = count f l - (if f x then 1 else 0) + (if f y then 1 else 0).
Proof.
  intros Hx. rw (insert_take_drop l r y); [|by eapply lookup_lt_Some].
  rw -{3}(take_drop_middle l r x Hx) !count_app. change (y :: ?a) with ([y] ++ a). change (x :: ?a) with ([x] ++ a).
  rw !count_app !count_one. lia.
Qed.
Lemma count_le f l : count f l ≤ Z.of_nat (length l).
Proof. rw /count. pose proof (length_filter (λ x, f x = true) l). lia. Qed.
Lemma count_mono f g l : (∀ x, f x = true → g x = true) → count f l ≤ count g l.
Proof.
  intros H. induction l as [|x l IH]; [done|]. change (x :: l) with ([x] ++ l). rw !count_app !count_one.
  destruct (f x) eqn:E; [rw (H x E); lia|]. destruct (g x); lia.
Qed.
Lemma s32_id z : - 2 ^ 31 ≤ z < 2 ^ 31 → s32 z = z.
Proof. intros Hz. rw /s32 Z.mod_small; lia. Qed.
Lemma at_pc_Some r p s x : at_pc r p s = Some x → t_reqs s !! r = Some x ∧ tr_pc x = p.
Proof. rw /at_pc. destruct (t_reqs s !! r) as [y|]; [|done]. simpl. destruct (tr_pc y) eqn:E, p; try done; intros [= <-]; by rw E. Qed.

(** A handler moves on: what it holds before and after must match the limit. *)
Lemma budget_move s r x y limit out :
  budget_ok s → t_reqs s !! r = Some x → treq_ok y →
  limit + Z.of_nat (length out) + (if holds y then 1 else 0) = t_limit s + outstanding s + (if holds x then 1 else 0) →
  Z.of_nat (length out) + (if may_send y then 1 else 0) ≤ outstanding s + (if may_send x then 1 else 0) ∨
  Z.of_nat (length out) + count may_send (t_reqs s) - (if may_send x then 1 else 0) + (if may_send y then 1 else 0) ≤ t_acl s + 1 →
  Forall (λ a, a.1 ≠ 0) out →
  budget_ok (set_req r y (s<{t_limit := limit}><{t_out := out}>)).
Proof.
  intros [B1 B2 B3 B4 B5] Hx Hy Hl Hs Ho. split; try done.
  - rw /outstanding /=. rw (count_insert holds (t_reqs s) r x y Hx). rw /outstanding in B2, Hl. lia.
  - rw /outstanding /=. rw (count_insert may_send (t_reqs s) r x y Hx). rw /outstanding in B3, Hs. lia.
  - simpl. by apply Forall_insert.
Qed.

Lemma decide_sends e c qid aborted : (timeout_decide e c qid aborted).2 = None → qid ≠ 0 ∧ aborted = false.
Proof.
  rw /timeout_decide. destruct (te_offline e); [done|]. destruct (nvme_should_reset _ _); [done|]. destruct (te_completed e); [done|].
  destruct (ct_state c); try done; (destruct (c_true qid) eqn:Eq, aborted; try done; intros _; split; [|done];
    apply negb_true_iff, Z.eqb_neq in Eq; done).
Qed.

Lemma not_sent x : treq_ok x → tr_pc x ≠ TIdle → tr_sent x = 0%nat.
Proof. intros (T1 & T2 & _) Hp. destruct (tr_sent x) as [|[|n] ] eqn:En; [done| |lia]. by destruct (T2 eq_refl). Qed.

Lemma budget_handler s s' r :
  Z.of_nat (length (t_reqs s)) < 2 ^ 30 → budget_ok s →
  (timeout_dec r s = Some s' ∨ (∃ ok, timeout_alloc ok r s = Some s') ∨ timeout_undo r s = Some s') → budget_ok s'.
Proof.
  intros Hn B Hs. pose proof B as [B1 B2 B3 B4 B5]. pose proof (count_le holds (t_reqs s)). pose proof (count_nonneg holds (t_reqs s)).
  pose proof (count_mono may_send holds (t_reqs s) ltac:(intros x; rw /may_send /holds; by destruct (tr_pc x))) as Hmh.
  assert (∀ x p, at_pc r p s = Some x → t_reqs s !! r = Some x ∧ tr_pc x = p ∧ holds x = (match p with TAlloc | TUndo => true | _ => false end) ∧
    may_send x = (match p with TAlloc => true | _ => false end) ∧ treq_ok x ∧ 0 ≤ outstanding s) as Hat.
  { intros x p Hx. apply at_pc_Some in Hx as [Hx Hp]. split_and!; [done|done|by rw /holds Hp|by rw /may_send Hp|by eapply Forall_lookup_1|rw /outstanding; lia]. }
  assert (0 ≤ outstanding s) as Ho by (rw /outstanding; lia). pose proof (count_nonneg may_send (t_reqs s)).
  rw /outstanding in B2 B3 Ho. destruct Hs as [Hs|[ [ok Hs]|Hs] ].
  - rw /timeout_dec in Hs. destruct (at_pc r TDec s) as [x|] eqn:Ex; [|done]. destruct (Hat _ _ Ex) as (Hx & Hp & Hhx & Hmx & (T1 & T2 & T3 & T4 & T5 & T6) & _).
    assert (tr_sent x = 0%nat) as E0 by (apply (not_sent x); [done|by rw Hp]). assert (tr_qid x ≠ 0) as Hq by (apply T6; by rw Hp).
    injection Hs as <-. rw s32_id; [|lia]. apply (budget_move s r x _ (t_limit s - 1) (t_out s)); [done|done| | | |done]; rw /outstanding.
    + destruct (Z.ltb_spec (t_limit s - 1) 0); split_and!; simpl; rw ?E0; try done; lia.
    + destruct (Z.ltb_spec (t_limit s - 1) 0); rw Hhx; cbn [holds tr_pc]; lia.
    + destruct (Z.ltb_spec (t_limit s - 1) 0); rw Hmx; cbn [may_send tr_pc]; lia.
  - rw /timeout_alloc in Hs. destruct (at_pc r TAlloc s) as [x|] eqn:Ex; [|done]. destruct (Hat _ _ Ex) as (Hx & Hp & Hhx & Hmx & (T1 & T2 & T3 & T4 & T5 & T6) & _).
    assert (tr_sent x = 0%nat) as E0 by (apply (not_sent x); [done|by rw Hp]). assert (tr_qid x ≠ 0) as Hq by (apply T6; by rw Hp).
    destruct ok; injection Hs as <-.
    + apply (budget_move s r x _ (t_limit s) (t_out s ++ _)); [done|done| | | |]; rw ?length_app /outstanding.
      * split_and!; simpl; rw ?E0; try done; try lia. intros _. split; [by apply T4|done].
      * rw Hhx; cbn [holds tr_pc length]; lia.
      * left. rw Hmx; cbn [may_send tr_pc length]; lia.
      * apply Forall_app. split; [done|]. by constructor.
    + apply (budget_move s r x _ (t_limit s) (t_out s)); [done|done| | | |done]; rw /outstanding.
      * split_and!; simpl; rw ?E0; try done; lia.
      * rw Hhx //.
      * rw Hmx; cbn [may_send tr_pc length]; lia.
  - rw /timeout_undo in Hs. destruct (at_pc r TUndo s) as [x|] eqn:Ex; [|done]. destruct (Hat _ _ Ex) as (Hx & Hp & Hhx & Hmx & (T1 & T2 & T3 & T4 & T5 & T6) & _).
    injection Hs as <-. rw s32_id; [|lia]. apply (budget_move s r x _ (t_limit s + 1) (t_out s)); [done|done| | | |done]; rw /outstanding.
    + split_and!; simpl; rw ?T5 //; lia.
    + rw Hhx; cbn [holds tr_pc length]; lia.
    + rw Hmx; cbn [may_send tr_pc length]; lia.
Qed.

Lemma budget_step s s' : Z.of_nat (length (t_reqs s)) < 2 ^ 30 → budget_ok s → tstep s s' → budget_ok s'.
Proof.
  intros Hn B Hs. pose proof B as [B1 B2 B3 B4 B5].
  destruct Hs as [e r s s' Hs|r s s' Hs|ok r s s' Hs|r s s' Hs|i s s' Hs|r cid s s' Hs|qid cid s|acl s Hacl Hs|c s]; [|by eapply budget_handler; eauto..| | | | |done].
  - rw /nvme_timeout in Hs. destruct (at_pc r TIdle s) as [x|] eqn:Ex; [|done]. apply at_pc_Some in Ex as [Hx Hp]. cbn [mbind option_bind] in Hs.
    pose proof (decide_sends e (t_ctrl s) (tr_qid x) (tr_aborted x)) as Hd. destruct (timeout_decide _ _ _ _) as [[calls c] ret].
    injection Hs as <-. destruct ret as [ret|]; [done|]. destruct (Hd eq_refl) as [Hq Ha].
    pose proof (Forall_lookup_1 _ _ _ _ B4 Hx) as (T1 & T2 & T3 & T4 & T5 & T6).
    set (s1 := s<{t_ctrl := c}><{t_calls := t_calls s ++ calls}>). assert (budget_ok s1) as B' by done.
    assert (tr_sent x = 0%nat) as E0. { destruct (tr_sent x) as [|[|n] ]; [done| |lia]. destruct (T2 eq_refl). congruence. }
    apply (budget_move s1 r x _ (t_limit s) (t_out s)); [done|done| | | |done]; rw /outstanding /holds /may_send ?Hp; cbn [tr_pc].
    + split_and!; simpl; rw ?E0; try done; lia.
    + simpl. lia.
    + left. simpl. lia.
  - rw /abort_endio in Hs. destruct (t_out s !! i) as [a|] eqn:Ei; [|done]. injection Hs as <-.
    pose proof (lookup_lt_Some _ _ _ Ei) as Hlt. assert (length (list_delete i (t_out s)) = length (t_out s) - 1)%nat as Hl by (apply length_delete; by eexists).
    pose proof (count_le holds (t_reqs s)). pose proof (count_nonneg holds (t_reqs s)). pose proof (count_nonneg may_send (t_reqs s)). rw /outstanding in B2 B3.
    rw s32_id; [|lia]. split; rw /outstanding; try done; cbn [t_limit t_out t_reqs t_acl].
    + change (t_limit s + 1 + Z.of_nat (length (list_delete i (t_out s))) + count holds (t_reqs s) = t_acl s + 1). lia.
    + change (Z.of_nat (length (list_delete i (t_out s))) + count may_send (t_reqs s) ≤ t_acl s + 1). lia.
    + by apply Forall_delete.
  - rw /restart in Hs. destruct (at_pc r TIdle s) as [x|] eqn:Ex; [|done]. apply at_pc_Some in Ex as [Hx Hp]. injection Hs as <-.
    apply (budget_move s r x _ (t_limit s) (t_out s)); [done|done| | | |done]; rw /outstanding /holds /may_send ?Hp; cbn [tr_pc]; [|lia|lia].
    split_and!; simpl; try done; lia.
  - split; try done; cbn [new_request].
    + change (t_limit s + outstanding s + count holds (t_reqs s ++ [TReq qid cid false TIdle 0]) = t_acl s + 1). rw count_app count_one /=. lia.
    + change (outstanding s + count may_send (t_reqs s ++ [TReq qid cid false TIdle 0]) ≤ t_acl s + 1). rw count_app count_one /=. lia.
    + apply Forall_app. split; [done|]. constructor; [|done]. split_and!; simpl; try done; lia.
  - destruct Hs as [Ef Eo]. assert (count holds (t_reqs s) = 0 ∧ count may_send (t_reqs s) = 0) as [E1 E2].
    { clear -Ef. induction Ef as [|x l Hx _ [I1 I2] ]; [done|].
      change (x :: l) with ([x] ++ l). by rw !count_app !count_one I1 I2 /holds /may_send Hx. }
    split; rw /outstanding /= ?Eo ?E1 ?E2 /=; try done; lia.
Qed.

Lemma tstep_reqs s s' : tstep s s' → (length (t_reqs s) ≤ length (t_reqs s'))%nat.
Proof.
  destruct 1 as [e r s s' Hs|r s s' Hs|ok r s s' Hs|r s s' Hs|i s s' Hs|r cid s s' Hs|qid cid s|acl s _ _|c s].
  - rw /nvme_timeout in Hs. destruct (at_pc _ _ _); [|done]. cbn [mbind option_bind] in Hs. destruct (timeout_decide _ _ _ _) as [[??] [?|] ];
      injection Hs as <-; [done|]. by rw /set_req /= length_insert.
  - rw /timeout_dec in Hs. destruct (at_pc _ _ _); [|done]. injection Hs as <-. by rw /set_req /= length_insert.
  - rw /timeout_alloc in Hs. destruct (at_pc _ _ _); [|done]. injection Hs as <-. destruct ok; by rw /set_req /= length_insert.
  - rw /timeout_undo in Hs. destruct (at_pc _ _ _); [|done]. injection Hs as <-. by rw /set_req /= length_insert.
  - rw /abort_endio in Hs. destruct (t_out s !! i); [|done]. by injection Hs as <-.
  - rw /restart in Hs. destruct (at_pc _ _ _); [|done]. injection Hs as <-. by rw /set_req /= length_insert.
  - rw /new_request /= length_app /=. lia.
  - done.
  - done.
Qed.
