(* ===== verification/HostMem.v ===== *)
(** * The host memory buffer (pci.c)

    A controller without memory of its own asks for some of the host's.  The driver
    allocates it in chunks, describes them in a table, and names the table to the
    controller with a Set Features command.  The state is the part of
    [struct nvme_dev] this uses, the DMA memory in use, and what the controller was
    told; operations run one at a time, as the callers' locks and the freezing of
    user processes order them. *)
From S2P Require Import Prelude KernelPrp.

Definition U32_MAX : Z := 2 ^ 32 - 1.
Definition SZ_1M : Z := 2 ^ 20.
Definition MAX_ORDER_NR_PAGES : Z := 1024.
Definition NVME_CTRL_PAGE_SHIFT : Z := 12.
Definition NVME_HOST_MEM_ENABLE : Z := 1.
Definition NVME_HOST_MEM_RETURN : Z := 2.
Definition nvme_admin_set_features : Z := 9.
Definition NVME_FEAT_HOST_MEM_BUF : Z := 13.
Definition DESC_BYTES : Z := 16.                (* sizeof(struct nvme_host_mem_buf_desc) *)

Record nvme_host_mem_buf_desc := HostMemBufDesc { hd_addr : Z; hd_size : Z }.
Record nvme_features := Features {
  nf_opcode : Z; nf_fid : Z; nf_dword11 : Z; nf_dword12 : Z; nf_dword13 : Z; nf_dword14 : Z; nf_dword15 : Z;
}.
(** What the controller asks for in its Identify data, in units of 4096 bytes. *)
Record hmb_wish := HmbWish { hmpre : Z; hmmin : Z; hmminds : Z; hmmaxd : Z }.
(** What the controller was told to use: table, entries, and pages in all. *)
Record hmb_use := HmbUse { hu_table : Z; hu_entries : Z; hu_pages : Z }.

Record hst := Hst {
  h_wish : hmb_wish;
  h_npss : Z;
  h_last_ps : Z;
  h_host_mem_size : Z;
  h_nr_host_mem_descs : Z;
  h_host_mem_descs_dma : Z;
  h_host_mem_descs : option (list nvme_host_mem_buf_desc);   (* the entries filled in *)
  h_host_mem_desc_bufs : option (list Z);
  h_hmb : bool;
  h_live : gmap Z Z;                  (* DMA memory allocated: address, length *)
  h_arrays : Z;                       (* arrays of [kcalloc] not freed *)
  h_misfreed : list (Z * Z * Z);      (* freed with a wrong length: address, length, length given *)
  h_using : option hmb_use;
  h_sent : list nvme_features;
  h_suspended : bool;
  h_removed : bool;
  h_tick : nat;
}.
#[export] Instance eta_hst : Settable hst := λ x,
  Hst (h_wish x) (h_npss x) (h_last_ps x) (h_host_mem_size x) (h_nr_host_mem_descs x) (h_host_mem_descs_dma x)
    (h_host_mem_descs x) (h_host_mem_desc_bufs x) (h_hmb x) (h_live x) (h_arrays x) (h_misfreed x) (h_using x)
    (h_sent x) (h_suspended x) (h_removed x) (h_tick x).

(** What the layers below answer at each call. *)
Class hmb_env := HmbEnv {
  e_max_host_mem_size_mb : Z;                    (* module parameter *)
  e_dma : nat → gmap Z Z → Z → option Z;         (* memory in use, length: an address *)
  e_kcalloc : nat → bool;
  e_features : nat → nvme_features → Z;          (* 0, a status of the controller or a negative error *)
  e_firmware : nat → bool;                       (* suspend with the controller shut down *)
  e_is_live : nat → bool;                        (* the state is NVME_CTRL_LIVE *)
  e_wait_reset : nat → bool;
  e_get_power_state : nat → Z * Z;
  e_set_power_state : nat → Z;
  e_try_sched_reset : nat → Z;
  e_bring_up : nat → bool;                       (* the steps of a reset before the buffer is set up *)
}.
(** Documented: memory handed out is not in use and has a 64-bit address; errors
    are negative; the module parameter is an unsigned integer. *)
Class hmb_env_laws (E : hmb_env) := {
  law_max : 0 ≤ e_max_host_mem_size_mb < 2 ^ 32;
  law_dma : ∀ t live n a, e_dma t live n = Some a → live !! a = None ∧ 0 ≤ a < 2 ^ 64;
}.
(** A controller that does not answer with an error status when the buffer is taken
    away; FindingsHostMem.v has what happens otherwise. *)
Definition yields (E : hmb_env) : Prop := ∀ t c, nf_dword11 c = 0 → e_features t c ≤ 0.

Section model.
Context {E : hmb_env}.

Definition ask {A} (f : nat → A) : K hst A := λ s, Some (f (h_tick s), s<{h_tick := S (h_tick s)}>).

(** ** Memory *)

Definition dma_alloc (n : Z) : K hst (option Z) := λ s,
  let s' := s<{h_tick := S (h_tick s)}> in
  match e_dma (h_tick s) (h_live s) n with
  | Some a => Some (Some a, s'<{h_live := <[a := n]> (h_live s)}>)
  | None => Some (None, s')
  end.

(** Freeing memory that is not in use is undefined; a length that is not the one it
    was allocated with is recorded. *)
Definition dma_free (n a : Z) : K hst unit :=
  live ← gets h_live;
  len ← from_option_k (live !! a);
  modify (λ s, s<{h_live := base.delete a live}>
                <{h_misfreed := if len =? n then h_misfreed s else h_misfreed s ++ [(a, len, n)] }>).

Definition kcalloc : K hst bool :=
  ok ← ask e_kcalloc;
  when ok (modify (λ s, s<{h_arrays := h_arrays s + 1}>));; mret ok.
Definition kfree {A} (p : option A) : K hst unit :=
  match p with Some _ => modify (λ s, s<{h_arrays := h_arrays s - 1}>) | None => mret tt end.

(** ** Telling the controller *)

(** A controller that accepts the command uses the buffer it names, or none. *)
Definition accept (c : nvme_features) (s : hst) : hst :=
  s<{h_using := if Z.testbit (nf_dword11 c) 0
                then Some (HmbUse (nf_dword14 c * 2 ^ 32 + nf_dword13 c) (nf_dword15 c) (nf_dword12 c)) else None}>.

Definition submit_features (c : nvme_features) : K hst Z :=
  modify (λ s, s<{h_sent := h_sent s ++ [c] }>);;
  r ← ask (λ t, e_features t c);
  when (r =? 0) (modify (accept c));; mret r.

Definition nvme_set_host_mem (bits : Z) : K hst Z :=
  size ← gets h_host_mem_size;
  let host_mem_size := u32 (Z.shiftr size NVME_CTRL_PAGE_SHIFT) in
  dma_addr ← gets h_host_mem_descs_dma;
  nr ← gets h_nr_host_mem_descs;
  ret ← submit_features (Features nvme_admin_set_features NVME_FEAT_HOST_MEM_BUF bits host_mem_size
                           (u32 dma_addr) (u32 (Z.shiftr dma_addr 32)) nr);
  (if c_true ret then mret tt else
   modify (λ s, s<{h_hmb := c_true (Z.land bits NVME_HOST_MEM_ENABLE)}>));;
  mret ret.

(** ** Allocating and freeing the buffer *)

Definition free_desc (i : nat) : K hst unit :=
  descs ← gets h_host_mem_descs;
  desc ← from_option_k (descs ≫= (.!! i));
  bufs ← gets h_host_mem_desc_bufs;
  buf ← from_option_k (bufs ≫= (.!! i));
  if negb (buf =? hd_addr desc) then fault else
  dma_free (u32 (hd_size desc) * NVME_CTRL_PAGE_SIZE) (hd_addr desc).

Definition nvme_free_host_mem : K hst unit :=
  nr ← gets h_nr_host_mem_descs;
  kfor free_desc (seq 0 (Z.to_nat nr));;
  bufs ← gets h_host_mem_desc_bufs;
  kfree bufs;;
  modify (λ s, s<{h_host_mem_desc_bufs := None}>);;
  descs ← gets h_host_mem_descs;
  dma ← gets h_host_mem_descs_dma;
  (match descs with Some _ => dma_free (nr * DESC_BYTES) dma | None => mret tt end);;
  modify (λ s, s<{h_host_mem_descs := None}><{h_nr_host_mem_descs := 0}>).

(** The loop of [__nvme_alloc_host_mem]; [n] is [max_entries - i]. *)
Fixpoint alloc_chunks (n : nat) (preferred chunk_size size : Z) (descs : list nvme_host_mem_buf_desc) (bufs : list Z) :
    K hst (Z * list nvme_host_mem_buf_desc * list Z) :=
  match n with
  | O => mret (size, descs, bufs)
  | S n =>
    if negb (size <? preferred) then mret (size, descs, bufs) else
    let len := u32 (Z.min chunk_size (u64 (preferred - size))) in
    dma_addr ← dma_alloc len;
    match dma_addr with
    | None => mret (size, descs, bufs)
    | Some a => alloc_chunks n preferred chunk_size (u64 (size + len))
                  (descs ++ [HostMemBufDesc a (u32 (len / NVME_CTRL_PAGE_SIZE))]) (bufs ++ [a])
    end
  end.

Definition free_chunk (d : nvme_host_mem_buf_desc) : K hst unit := dma_free (u32 (hd_size d) * NVME_CTRL_PAGE_SIZE) (hd_addr d).

Definition alloc_out : K hst Z := modify (λ s, s<{h_host_mem_descs := None}>);; mret (- ENOMEM).

Definition __nvme_alloc_host_mem (preferred chunk_size : Z) : K hst Z :=
  if chunk_size =? 0 then fault else
  let max_entries := u32 (u64 (preferred + chunk_size - 1) / chunk_size) in
  wish ← gets h_wish;
  let max_entries := if c_true (hmmaxd wish) && (hmmaxd wish <? max_entries) then hmmaxd wish else max_entries in
  descs_dma ← dma_alloc (max_entries * DESC_BYTES);
  match descs_dma with
  | None => alloc_out
  | Some descs_dma =>
    ok ← kcalloc;
    if negb ok then dma_free (max_entries * DESC_BYTES) descs_dma;; alloc_out else
    '(size, descs, bufs) ← alloc_chunks (Z.to_nat max_entries) preferred chunk_size 0 [] [];
    if size =? 0 then
      kfor free_chunk (rev descs);;
      kfree (Some bufs);;
      dma_free (max_entries * DESC_BYTES) descs_dma;;
      alloc_out
    else
    modify (λ s, s<{h_nr_host_mem_descs := Z.of_nat (length descs)}><{h_host_mem_size := size}>
                  <{h_host_mem_descs := Some descs}><{h_host_mem_descs_dma := descs_dma}>
                  <{h_host_mem_desc_bufs := Some bufs}>);;
    mret 0
  end.

(** The loop of [nvme_alloc_host_mem]. *)
Fixpoint shrink_loop (fuel : nat) (min preferred least chunk_size : Z) : K hst Z :=
  match fuel with
  | O => fault
  | S fuel =>
    if chunk_size <? least then mret (- ENOMEM) else
    r ← __nvme_alloc_host_mem preferred (u32 chunk_size);
    if c_true r then shrink_loop fuel min preferred least (chunk_size / 2) else
    size ← gets h_host_mem_size;
    if negb (c_true min) || (min <=? size) then mret 0 else
    nvme_free_host_mem;; shrink_loop fuel min preferred least (chunk_size / 2)
  end.

Definition nvme_alloc_host_mem (min preferred : Z) : K hst Z :=
  wish ← gets h_wish;
  let min_chunk := Z.min preferred (PAGE_SIZE * MAX_ORDER_NR_PAGES) in
  let least := Z.max (u32 (hmminds wish * 4096)) (PAGE_SIZE * 2) in
  shrink_loop (S (S (Z.to_nat (Z.log2 min_chunk)))) min preferred least min_chunk.

Definition nvme_setup_host_mem : K hst Z :=
  wish ← gets h_wish;
  let max := e_max_host_mem_size_mb * SZ_1M in
  let preferred := Z.min (hmpre wish * 4096) max in
  let min := hmmin wish * 4096 in
  if max <? min then nvme_free_host_mem;; mret 0 else
  descs ← gets h_host_mem_descs;
  size ← gets h_host_mem_size;
  enable_bits ← (match descs with
                 | Some _ => if min <=? size then mret (Z.lor NVME_HOST_MEM_ENABLE NVME_HOST_MEM_RETURN)
                             else nvme_free_host_mem;; mret NVME_HOST_MEM_ENABLE
                 | None => mret NVME_HOST_MEM_ENABLE
                 end);
  descs ← gets h_host_mem_descs;
  r ← (match descs with None => nvme_alloc_host_mem min preferred | Some _ => mret 0 end);
  if c_true r then mret 0 else
  ret ← nvme_set_host_mem enable_bits;
  when (c_true ret) nvme_free_host_mem;;
  mret ret.

(** ** The callers *)

(** The attribute [hmb]; [new] is what [strtobool] made of the text written. *)
Definition hmb_store (new : option bool) (count : Z) : K hst Z :=
  match new with
  | None => mret (- EINVAL)
  | Some new =>
    hmb ← gets h_hmb;
    if Bool.eqb new hmb then mret count else
    ret ← (if new then nvme_setup_host_mem
           else ret ← nvme_set_host_mem 0; when (negb (c_true ret)) nvme_free_host_mem;; mret ret);
    if ret <? 0 then mret ret else mret count
  end.

(** [nvme_dev_disable]: a controller that is disabled, or whose bus mastering is,
    uses no memory of the host. *)
Definition dev_disable : K hst unit := modify (λ s, s<{h_using := None}>).

Definition nvme_disable_prepare_reset : K hst Z :=
  ok ← ask e_wait_reset;
  if negb ok then mret (- EBUSY) else dev_disable;; mret 0.

(** The part of [nvme_reset_work] that concerns the buffer: the controller is
    disabled and brought up, [snvme_init_ctrl_finish] reads what it asks for. *)
Definition reset_host_mem (wish : hmb_wish) : K hst Z :=
  dev_disable;;
  up ← ask e_bring_up;
  if negb up then mret (- ENODEV) else
  modify (λ s, s<{h_wish := wish}>);;
  if negb (c_true (hmpre wish)) then mret 0 else
  result ← nvme_setup_host_mem;
  when (result <? 0) dev_disable;; mret result.

Definition suspend_power : K hst Z :=
  ret ← ask e_set_power_state;
  if ret <? 0 then mret ret else
  if c_true ret then
    ret ← nvme_disable_prepare_reset;
    modify (λ s, s<{h_npss := 0}>);; mret ret
  else mret 0.

Definition nvme_suspend : K hst Z :=
  modify (λ s, s<{h_last_ps := U32_MAX}>);;
  npss ← gets h_npss;
  fw ← ask e_firmware;
  if fw || negb (c_true npss) then nvme_disable_prepare_reset else
  live ← ask e_is_live;
  if negb live then mret (- EBUSY) else
  hmb ← gets h_hmb;
  ret ← (if hmb : bool then nvme_set_host_mem 0 else mret 0);
  if ret <? 0 then mret ret else
  '(ret, ps) ← ask e_get_power_state;
  if ret <? 0 then mret ret else
  modify (λ s, s<{h_last_ps := ps}>);; suspend_power.

Definition nvme_resume : K hst Z :=
  last_ps ← gets h_last_ps;
  ret ← (if last_ps =? U32_MAX then mret 1 else ask e_set_power_state);
  if c_true ret then ask e_try_sched_reset else
  wish ← gets h_wish;
  ret ← (if c_true (hmpre wish) then nvme_setup_host_mem else mret 0);
  if c_true ret then ask e_try_sched_reset else mret 0.

Definition remove_host_mem : K hst unit := dev_disable;; nvme_free_host_mem.

(** ** Sequences of operations *)

Inductive hop :=
  | OpReset (wish : hmb_wish)
  | OpStore (new : option bool) (count : Z)
  | OpDisable                              (* bus resets, shutdown, hibernation *)
  | OpSuspend
  | OpResume
  | OpRemove.

(** A suspended device is resumed before anything else, a removed one is gone. *)
Definition allowed (o : hop) (s : hst) : bool :=
  negb (h_removed s) && match o with OpResume => h_suspended s | _ => negb (h_suspended s) end.

Definition run_op (o : hop) : K hst Z :=
  match o with
  | OpReset wish => reset_host_mem wish
  | OpStore new count => hmb_store new count
  | OpDisable => nvme_disable_prepare_reset
  | OpSuspend => r ← nvme_suspend; when (r =? 0) (modify (λ s, s<{h_suspended := true}>));; mret r
  | OpResume => modify (λ s, s<{h_suspended := false}>);; nvme_resume
  | OpRemove => modify (λ s, s<{h_removed := true}>);; remove_host_mem;; mret 0
  end.

(** The state after a sequence of operations, if each is allowed when its turn comes. *)
Fixpoint run_ops (os : list hop) (s : hst) : option hst :=
  match os with
  | [] => Some s
  | o :: os => if allowed o s then '(_, s') ← run_op o s; run_ops os s' else None
  end.

(** A device as [nvme_probe] allocates it. *)
Definition h_probe (npss : Z) : hst :=
  Hst (HmbWish 0 0 0 0) npss 0 0 0 0 None None false ∅ 0 [] None [] false false 0.

Definition wish_ok (w : hmb_wish) : Prop :=
  0 ≤ hmpre w < 2 ^ 32 ∧ 0 ≤ hmmin w < 2 ^ 32 ∧ 0 ≤ hmminds w < 2 ^ 32 ∧ 0 ≤ hmmaxd w < 2 ^ 16.
Definition op_ok (o : hop) : Prop := match o with OpReset w => wish_ok w | _ => True end.

Inductive hreach : hst → Prop :=
  | hreach_probe npss : hreach (h_probe npss)
  | hreach_op s o r s' : hreach s → op_ok o → allowed o s = true → run_op o s = Some (r, s') → hreach s'.
End model.
