(* ===== verification/HostMemInv.v ===== *)
(** * The host memory buffer: invariants

    Either there is no buffer and no memory in use, or the memory in use is exactly
    the table and the chunks it describes.  Every operation of [HostMem] keeps this
    and never frees memory the controller was told to use. *)
From S2P Require Import Prelude KernelPrp HostMem.

(** A chunk is its address and its length in bytes. *)
Definition desc_of (c : Z * Z) : nvme_host_mem_buf_desc := HostMemBufDesc c.1 (c.2 / NVME_CTRL_PAGE_SIZE).
Definition total (cs : list (Z * Z)) : Z := foldr (λ c n, c.2 + n) 0 cs.
Definition chunk_ok (c : Z * Z) : Prop := 0 < c.2 ≤ 2 ^ 22.
Definition whole_pages (c : Z * Z) : Prop := (NVME_CTRL_PAGE_SIZE | c.2).

(** What the buffer's own routines leave alone. *)
Definition rest (s : hst) :=
  (h_wish s, h_npss s, h_last_ps s, h_hmb s, h_using s, h_suspended s, h_removed s).

Definition no_buffer (s : hst) : Prop :=
  h_host_mem_descs s = None ∧ h_host_mem_desc_bufs s = None ∧ h_nr_host_mem_descs s = 0 ∧
  h_live s = ∅ ∧ h_arrays s = 0.

(** [holds s dma te cs]: the memory in use is a table of [te] bytes and the chunks. *)
Definition holds (s : hst) (dma te : Z) (cs : list (Z * Z)) : Prop :=
  h_live s = list_to_map ((dma, te) :: cs) ∧ NoDup (dma :: cs.*1) ∧ Forall chunk_ok cs.

Record buffer {E : hmb_env} (s : hst) (te : Z) (cs : list (Z * Z)) : Prop := Buffer {
  b_descs : h_host_mem_descs s = Some (desc_of <$> cs);
  b_bufs : h_host_mem_desc_bufs s = Some cs.*1;
  b_nr : h_nr_host_mem_descs s = Z.of_nat (length cs);
  b_arrays : h_arrays s = 1;
  b_holds : holds s (h_host_mem_descs_dma s) te cs;
  b_some : cs ≠ [];
  b_size : h_host_mem_size s = total cs;
  b_max : h_host_mem_size s ≤ e_max_host_mem_size_mb * SZ_1M ∧ h_host_mem_size s < 2 ^ 44;
  b_dma : 0 ≤ h_host_mem_descs_dma s < 2 ^ 64;
}.

Definition memory_ok {E : hmb_env} (s : hst) : Prop := no_buffer s ∨ ∃ te cs, buffer s te cs.

(** The controller uses the buffer there is, all of it. *)
Definition using_ok {E : hmb_env} (s : hst) : Prop :=
  match h_using s with
  | None => True
  | Some u => h_suspended s = false ∧ h_hmb s = true ∧ hmmin (h_wish s) * 4096 ≤ h_host_mem_size s ∧
    u = HmbUse (h_host_mem_descs_dma s) (h_nr_host_mem_descs s) (h_host_mem_size s / NVME_CTRL_PAGE_SIZE) ∧
    ∃ te cs, buffer s te cs
  end.

Definition hmb_inv {E : hmb_env} (s : hst) : Prop := wish_ok (h_wish s) ∧ memory_ok s ∧ (yields E → using_ok s).

(** ** Lengths *)

Lemma total_app cs1 cs2 : total (cs1 ++ cs2) = total cs1 + total cs2.
Proof. rw /total. induction cs1 as [|c cs1 IH]; cbn [foldr app]; [done|]. rw IH. lia. Qed.

Lemma total_nonneg cs : Forall chunk_ok cs → Z.of_nat (length cs) ≤ total cs.
Proof. induction 1 as [|c cs [? ?] _ IH]; cbn [total foldr length]; [done|]. rw /total in IH. lia. Qed.

Lemma total_whole cs : Forall whole_pages cs → (NVME_CTRL_PAGE_SIZE | total cs).
Proof. induction 1 as [|c cs Hc _ IH]; cbn [total foldr]; [apply Z.divide_0_r|by apply Z.divide_add_r]. Qed.

(** The pages of the chunks are at most the pages of the whole. *)
Lemma total_pages cs : foldr (λ d n, hd_size d + n) 0 (desc_of <$> cs) ≤ total cs / NVME_CTRL_PAGE_SIZE.
Proof.
  rw /total /NVME_CTRL_PAGE_SIZE. induction cs as [|c cs IH]; cbn [fmap list_fmap foldr]; [done|].
  cbn [desc_of hd_size]. rw /NVME_CTRL_PAGE_SIZE. Z.div_mod_to_equations. lia.
Qed.

Lemma desc_size c : chunk_ok c → u32 (hd_size (desc_of c)) = c.2 / NVME_CTRL_PAGE_SIZE.
Proof. intros [? ?]. rw /u32 /desc_of /NVME_CTRL_PAGE_SIZE /=. rw Z.mod_small; [done|]. Z.div_mod_to_equations. lia. Qed.

(** ** The memory in use *)

Lemma live_head cs (dma te : Z) : NoDup (dma :: cs.*1) →
  base.delete dma (list_to_map ((dma, te) :: cs) : gmap Z Z) = list_to_map cs.
Proof. intros [Hn _]%NoDup_cons. cbn. apply delete_insert_id. by apply not_elem_of_list_to_map_1. Qed.

Lemma live_second cs (dma te a n : Z) : NoDup (dma :: a :: cs.*1) →
  base.delete a (list_to_map ((dma, te) :: (a, n) :: cs) : gmap Z Z) = list_to_map ((dma, te) :: cs).
Proof.
  intros [Hd [Ha _]%NoDup_cons]%NoDup_cons. cbn. rw delete_insert_ne; [|set_solver].
  f_equal. apply delete_insert_id. by apply not_elem_of_list_to_map_1.
Qed.

Lemma live_snoc cs (dma te a n : Z) : (list_to_map ((dma, te) :: cs) : gmap Z Z) !! a = None → NoDup (dma :: cs.*1) →
  NoDup (dma :: (cs ++ [(a, n)]).*1) ∧
  <[a := n]> (list_to_map ((dma, te) :: cs) : gmap Z Z) = list_to_map ((dma, te) :: cs ++ [(a, n)]).
Proof.
  intros Ha Hnd. assert (a ∉ ((dma, te) :: cs).*1) as Hn by by apply not_elem_of_list_to_map_2 in Ha.
  assert (NoDup (((dma, te) :: cs) ++ [(a, n)]).*1) as Hnd'.
  { rw fmap_app. apply NoDup_app. split_and!; [done| |apply NoDup_singleton].
    intros x Hx ->%list_elem_of_singleton. done. }
  split; [done|]. change ((dma, te) :: cs ++ [(a, n)]) with (((dma, te) :: cs) ++ [(a, n)]).
  rw (list_to_map_proper (((dma, te) :: cs) ++ [(a, n)]) ((a, n) :: ((dma, te) :: cs))); [done|done|].
  by rw -Permutation_cons_append.
Qed.

Section specs.
Context {E : hmb_env} {L : hmb_env_laws E}.

(** ** The layers below *)

Lemma wp_ask_hmb {A} (f : nat → A) Q s : Q (f (h_tick s)) (s<{h_tick := S (h_tick s)}>) → wp (ask f) Q s.
Proof. intros HQ. by apply (wp_of_run _ _ _ (f (h_tick s)) (s<{h_tick := S (h_tick s)}>)). Qed.

Lemma wp_dma_alloc n Q s :
  Q None (s<{h_tick := S (h_tick s)}>) →
  (∀ a, h_live s !! a = None → 0 ≤ a < 2 ^ 64 →
    Q (Some a) (s<{h_tick := S (h_tick s)}><{h_live := <[a := n]> (h_live s)}>)) →
  wp (dma_alloc n) Q s.
Proof.
  intros HN HS. destruct (e_dma (h_tick s) (h_live s) n) as [a|] eqn:Ha.
  - destruct (law_dma _ _ _ _ Ha) as [Hl Hr].
    apply (wp_of_run _ _ _ (Some a) (s<{h_tick := S (h_tick s)}><{h_live := <[a := n]> (h_live s)}>)); [|auto].
    by rw /dma_alloc Ha.
  - apply (wp_of_run _ _ _ None (s<{h_tick := S (h_tick s)}>)); [|done]. by rw /dma_alloc Ha.
Qed.

Lemma wp_dma_free n a len Q s : h_live s !! a = Some len →
  Q tt (s<{h_live := base.delete a (h_live s)}>
         <{h_misfreed := if len =? n then h_misfreed s else h_misfreed s ++ [(a, len, n)] }>) →
  wp (dma_free n a) Q s.
Proof. intros Ha HQ. rw /dma_free. wp_steps. eapply wp_from_option; [exact Ha|]. by wp_steps. Qed.

Lemma wp_kcalloc Q s :
  Q false (s<{h_tick := S (h_tick s)}>) →
  Q true (s<{h_tick := S (h_tick s)}><{h_arrays := h_arrays s + 1}>) →
  wp kcalloc Q s.
Proof. intros HF HT. rw /kcalloc. wp_step. apply wp_ask_hmb. by destruct (e_kcalloc _); wp_steps. Qed.

(** ** Freeing *)

Lemma free_descs_spec dma te cs1 cs2 Q s :
  h_host_mem_descs s = Some (desc_of <$> cs1 ++ cs2) → h_host_mem_desc_bufs s = Some (cs1 ++ cs2).*1 →
  holds s dma te cs2 →
  (∀ m, (Forall whole_pages cs2 → m = h_misfreed s) → Q tt (s<{h_live := {[dma := te]} }><{h_misfreed := m}>)) →
  wp (kfor free_desc (seq (length cs1) (length cs2))) Q s.
Proof.
  revert cs1 s. induction cs2 as [|[a n] cs2 IH]; intros cs1 s Hd Hb (Hl & Hnd & Hok) HQ; cbn [length seq kfor].
  - apply wp_ret. specialize (HQ (h_misfreed s)). destruct s. cbn in *. rw Hl. by apply HQ.
  - apply wp_bind. rw /free_desc. wp_step. wp_step.
    assert ((cs1 ++ (a, n) :: cs2) !! length cs1 = Some (a, n)) as Hi by by apply list_lookup_middle.
    eapply wp_bind, wp_from_option; [rw Hd /=; by rw list_lookup_fmap Hi|]. wp_step. wp_step.
    eapply wp_bind, wp_from_option; [rw Hb /=; by rw list_lookup_fmap Hi|]. cbn [fmap option_fmap option_map fst].
    rw /desc_of /= Z.eqb_refl /=.
    apply (wp_dma_free _ _ n).
    { rw Hl. cbn. rw lookup_insert_ne; [by rw lookup_insert_eq|]. apply NoDup_cons in Hnd. set_solver. }
    replace (S (length cs1)) with (length (cs1 ++ [(a, n)])) by (rw length_app /=; lia).
    apply IH; [by rw -app_assoc..| |].
    + rw /holds /= Hl. rw live_second; [|done]. split_and!; [done| |by inv Hok].
      apply NoDup_cons in Hnd as [Hd' [_ Hn]%NoDup_cons]. apply NoDup_cons. set_solver.
    + intros m Hm. cbn in *. apply HQ. intros [Hw Hws]%Forall_cons. rw Hm; [|done].
      apply Forall_cons in Hok as [Hc _]. pose proof (desc_size _ Hc) as Hz. rw /desc_of /= in Hz. rw Hz.
      destruct Hw as [k Hk]. cbn in Hk. rw Hk Z.div_mul; [|done]. by rw Z.eqb_refl.
Qed.

Lemma free_host_mem_spec s : memory_ok s →
  wp nvme_free_host_mem (λ _ s', no_buffer s' ∧ rest s' = rest s) s.
Proof.
  intros [(Hd & Hb & Hn & Hl & Ha)|(te & cs & [Hd Hb Hn Ha Hh Hs _ _ _])]; rw /nvme_free_host_mem.
  - wp_step. wp_step. rw Hn /=. wp_step. wp_step. wp_step. wp_step. rw Hb /kfree /=. do 7 wp_step. cbn. rw Hd /=. do 3 wp_step. done.
  - wp_step. wp_step. rw Hn Nat2Z.id. wp_step.
    apply (free_descs_spec (h_host_mem_descs_dma s) te [] cs); [done..|]. intros m _.
    wp_step. wp_step. cbn. rw Hb /kfree /=. do 7 wp_step. cbn. rw Hd /=. do 2 wp_step.
    apply (wp_dma_free _ _ te); [cbn; by rw lookup_insert_eq|]. wp_steps. cbn.
    split; [|done]. rw /no_buffer /= Ha. split_and!; [done..| |done]. by rw delete_singleton_eq.
Qed.

(** Chunks of whole pages are freed with their own lengths, and the table with the
    length of the entries in use. *)
Lemma free_host_mem_exact s te cs : buffer s te cs → Forall whole_pages cs →
  let n := h_nr_host_mem_descs s * DESC_BYTES in
  wp nvme_free_host_mem (λ _ s', h_live s' = ∅ ∧
    h_misfreed s' = h_misfreed s ++ (if te =? n then [] else [(h_host_mem_descs_dma s, te, n)])) s.
Proof.
  intros [Hd Hb Hn Ha Hh Hs _ _ _] Hw n. subst n. rw /nvme_free_host_mem.
  wp_step. wp_step. rw Hn Nat2Z.id. wp_step.
  apply (free_descs_spec (h_host_mem_descs_dma s) te [] cs); [done..|]. intros m ->; [|done].
  wp_step. wp_step. cbn. rw Hb /kfree /=. do 7 wp_step. cbn. rw Hd /=. do 2 wp_step.
  apply (wp_dma_free _ _ te); [cbn; by rw lookup_insert_eq|]. wp_steps. cbn.
  rw delete_singleton_eq. split; [done|]. destruct (te =? _); [by rw app_nil_r|done].
Qed.

(** ** Allocating *)

Lemma alloc_chunks_spec n preferred chunk dma te cs Q s :
  0 < chunk ≤ 2 ^ 22 → preferred < 2 ^ 44 → total cs ≤ preferred → holds s dma te cs →
  (∀ cs' l t, let s' := s<{h_live := l}><{h_tick := t}> in
    holds s' dma te cs' → total cs' ≤ preferred → (length cs' ≤ length cs + n)%nat →
    ((NVME_CTRL_PAGE_SIZE | chunk) → (NVME_CTRL_PAGE_SIZE | preferred) →
     Forall whole_pages cs → Forall whole_pages cs') →
    Q (total cs', desc_of <$> cs', cs'.*1) s') →
  wp (alloc_chunks n preferred chunk (total cs) (desc_of <$> cs) cs.*1) Q s.
Proof.
  intros Hc Hp. revert cs s. induction n as [|n IH]; intros cs s Ht Hh HQ; cbn [alloc_chunks].
  { apply wp_ret. specialize (HQ cs (h_live s) (h_tick s)). destruct s. apply HQ; [done..|lia|done]. }
  wp_step; [apply wp_ret; specialize (HQ cs (h_live s) (h_tick s)); destruct s; apply HQ; [done..|lia|done]|].
  apply negb_false_iff, Z.ltb_lt in E0. destruct Hh as (Hl & Hnd & Hok).
  pose proof (total_nonneg _ Hok) as H0.
  rw /u64 /u32. rw (Z.mod_small (preferred - total cs)); [|lia]. rw (Z.mod_small (Z.min _ _)); [|lia].
  set (len := Z.min chunk (preferred - total cs)). wp_step. apply wp_dma_alloc.
  { apply wp_ret. specialize (HQ cs (h_live s) (S (h_tick s))). destruct s. apply HQ; [done..|lia|done]. }
  intros a Ha Hr. rw Hl in Ha |- *. destruct (live_snoc _ _ _ _ len Ha Hnd) as [Hnd' ->].
  assert (total (cs ++ [(a, len)]) = total cs + len) as Ht' by (rw total_app /=; cbn; lia).
  rw -Ht' (Z.mod_small (total _)); [|lia]. rw (Z.mod_small (len / _)); [|rw /NVME_CTRL_PAGE_SIZE; Z.div_mod_to_equations; lia].
  change ([HostMemBufDesc a (len / NVME_CTRL_PAGE_SIZE)]) with (desc_of <$> [(a, len)]).
  change ([a]) with ([(a, len)].*1). rw -!fmap_app. apply IH; [lia| |].
  - split_and!; [done..|]. apply Forall_app. split; [done|]. apply Forall_singleton. rw /chunk_ok /=. lia.
  - intros cs' l t s' Hh' Hle Hlen Hw. apply HQ; [done..| |].
    { rw length_app /= in Hlen. lia. }
    intros Hd Hd' Hcs. apply Hw; [done..|]. apply Forall_app. split; [done|]. apply Forall_singleton.
    rw /whole_pages /= /len. pose proof (total_whole _ Hcs) as Hwt.
    destruct (Z.min_spec chunk (preferred - total cs)) as [[_ ->]|[_ ->]]; [done|by apply Z.divide_sub_r].
Qed.

(** What one attempt leaves: nothing, or a buffer within the limits. *)
Definition attempt (preferred chunk : Z) (s : hst) (r : Z) (s' : hst) : Prop :=
  rest s' = rest s ∧
  (r ≠ 0 ∧ no_buffer s' ∨
   r = 0 ∧ ∃ te cs, buffer s' te cs ∧ h_host_mem_size s' ≤ preferred ∧
     Z.of_nat (length cs) * DESC_BYTES ≤ te ∧
     (hmmaxd (h_wish s) ≠ 0 → Z.of_nat (length cs) ≤ hmmaxd (h_wish s)) ∧
     ((NVME_CTRL_PAGE_SIZE | chunk) → (NVME_CTRL_PAGE_SIZE | preferred) → Forall whole_pages cs)).

Lemma alloc_out_spec preferred chunk s0 s :
  rest s = rest s0 → h_host_mem_desc_bufs s = None → h_nr_host_mem_descs s = 0 → h_live s = ∅ → h_arrays s = 0 →
  wp alloc_out (attempt preferred chunk s0) s.
Proof. intros. rw /alloc_out. wp_steps. split; [done|]. by left. Qed.

Lemma attempt_spec preferred chunk s :
  0 < chunk ≤ 2 ^ 22 → preferred < 2 ^ 44 → 0 ≤ preferred ≤ e_max_host_mem_size_mb * SZ_1M →
  wish_ok (h_wish s) → no_buffer s →
  wp (__nvme_alloc_host_mem preferred chunk) (attempt preferred chunk s) s.
Proof.
  intros Hc Hp Hm Hw (Hd & Hb & Hn & Hl & Ha). rw /__nvme_alloc_host_mem.
  rw (_ : (chunk =? 0) = false); [|lia]. wp_step. wp_step. set (tmp := u32 _).
  set (me := if c_true _ && _ then _ else tmp).
  assert (0 ≤ me ∧ (hmmaxd (h_wish s) ≠ 0 → me ≤ hmmaxd (h_wish s))) as [Hme Hmd].
  { subst me. destruct Hw as (_ & _ & _ & ?). assert (0 ≤ tmp) by (apply Z.mod_pos_bound; done). rw /c_true.
    destruct (hmmaxd (h_wish s) =? 0) eqn:?; destruct (hmmaxd (h_wish s) <? tmp) eqn:?; cbn; lia. }
  wp_step. apply wp_dma_alloc; [by apply alloc_out_spec|].
  intros dma _ Hr. rw Hl. wp_step. apply wp_kcalloc; cbn [negb].
  { wp_step. apply (wp_dma_free _ _ (me * DESC_BYTES)); [cbn; by rw lookup_insert_eq|].
    apply alloc_out_spec; [done..| |done]. cbn. by rw delete_insert_id. }
  wp_step.
  apply (alloc_chunks_spec _ _ _ dma (me * DESC_BYTES) []); [done|done|apply Hm| |].
  { split_and!; [done|apply NoDup_singleton|done]. }
  intros cs l t s' Hh Hle Hlen Hwp. pose proof Hh as (Hlive & Hnd & Hok). pose proof (total_nonneg _ Hok) as H0.
  cbn [length Nat.add] in Hlen. wp_step.
  - destruct cs; [|cbn [length] in H0; lia]. cbn [fmap list_fmap rev kfor]. wp_step. wp_step.
    rw /kfree. do 3 wp_step. apply (wp_dma_free _ _ (me * DESC_BYTES)); [rw Hlive; cbn; by rw lookup_insert_eq|].
    apply alloc_out_spec; [done..| |].
    + cbn in Hlive |- *. rw Hlive. by rw delete_insert_id.
    + cbn. lia.
  - wp_steps. split; [done|]. right. split; [done|]. exists (me * DESC_BYTES), cs. split_and!.
    + split; cbn; [done|done| |lia|done| |done|lia|done].
      * by rw length_fmap.
      * by intros ->.
    + done.
    + rw /DESC_BYTES. lia.
    + lia.
    + intros. by apply Hwp.
Qed.
(** What the attempts with smaller and smaller chunks leave. *)
Definition outcome (min preferred : Z) (pow : Prop) (s : hst) (r : Z) (s' : hst) : Prop :=
  rest s' = rest s ∧
  (r ≠ 0 ∧ no_buffer s' ∨
   r = 0 ∧ ∃ te cs, buffer s' te cs ∧ min ≤ h_host_mem_size s' ≤ preferred ∧
     Z.of_nat (length cs) * DESC_BYTES ≤ te ∧
     (hmmaxd (h_wish s) ≠ 0 → Z.of_nat (length cs) ≤ hmmaxd (h_wish s)) ∧
     (pow → (NVME_CTRL_PAGE_SIZE | preferred) → Forall whole_pages cs)).

Definition power_of_two (n : Z) : Prop := ∃ k, 0 ≤ k ∧ n = 2 ^ k.

Lemma power_half n : 1 < n → power_of_two n → power_of_two (n / 2).
Proof.
  intros Hn (k & Hk & ->). exists (k - 1). assert (0 < k) as H0 by (apply (Z.pow_lt_mono_r_iff 2); lia).
  split; [lia|]. rw (_ : 2 ^ k = 2 ^ (k - 1) * 2); [by rw Z.div_mul|].
  rw Z.mul_comm -Z.pow_succ_r; [f_equal|]; lia.
Qed.

Lemma power_pages n : 4096 ≤ n → power_of_two n → (NVME_CTRL_PAGE_SIZE | n).
Proof.
  intros Hn (k & Hk & ->). assert (12 ≤ k) as H12 by (apply (Z.pow_le_mono_r_iff 2); lia).
  exists (2 ^ (k - 12)). rw /NVME_CTRL_PAGE_SIZE -(Z.pow_add_r 2 (k - 12) 12); [f_equal|..]; lia.
Qed.

Lemma rest_wish s s' : rest s' = rest s → h_wish s' = h_wish s.
Proof. by intros [=]. Qed.

Lemma shrink_loop_spec fuel min preferred least chunk s :
  0 ≤ chunk < 2 ^ Z.of_nat fuel → chunk ≤ 2 ^ 22 → PAGE_SIZE * 2 ≤ least → preferred < 2 ^ 44 → 0 ≤ min →
  0 ≤ preferred ≤ e_max_host_mem_size_mb * SZ_1M → wish_ok (h_wish s) → no_buffer s →
  wp (shrink_loop (S fuel) min preferred least chunk) (outcome min preferred (power_of_two chunk) s) s.
Proof.
  intros Hf Hc Hl Hp Hmin Hm. rw /PAGE_SIZE in Hl. revert chunk s Hf Hc.
  induction fuel as [|fuel IH]; intros chunk s Hf Hc Hw Hn.
  { cbn [shrink_loop]. rw (_ : (chunk <? least) = true); [apply wp_ret; split; [done|by left]|lia]. }
  cbn [shrink_loop]. destruct (chunk <? least) eqn:Hlt; [apply wp_ret; split; [done|by left]|].
  apply Z.ltb_ge in Hlt. rw (_ : u32 chunk = chunk); [|rw /u32 Z.mod_small; lia]. apply wp_bind.
  assert (0 ≤ chunk / 2 < 2 ^ Z.of_nat fuel ∧ chunk / 2 ≤ 2 ^ 22) as [Hf' Hc'].
  { rw Nat2Z.inj_succ Z.pow_succ_r in Hf; [|lia]. Z.div_mod_to_equations. lia. }
  assert (∀ s', rest s' = rest s → no_buffer s' →
    wp (shrink_loop (S fuel) min preferred least (chunk / 2)) (outcome min preferred (power_of_two chunk) s) s') as Hnext.
  { intros s' Hr Hn'. pose proof (rest_wish _ _ Hr) as Hw'. eapply wp_mono; [apply IH; [done|done|by rw Hw'|done]|].
    intros r s'' [Hr' Ho]. split; [by rw Hr'|]. destruct Ho as [?|(? & te & cs & ? & ? & ? & Hmd & Hpow)]; [by left|right].
    split; [done|]. exists te, cs. rw Hw' in Hmd. do 4 (split; [done|]). intros Hpw. apply Hpow, power_half; [lia|done]. }
  eapply wp_mono; [apply attempt_spec; [lia|done..]|]. intros r s' [Hr [[Hr0 Hn']|(-> & te & cs & Hb & Hs & Ht & Hmd & Hwp)]].
  { rw /c_true. apply Z.eqb_neq in Hr0. rw Hr0. by apply Hnext. }
  change (c_true 0) with false. cbv iota. wp_step. wp_step. wp_step.
  - apply wp_ret. split; [done|]. right. split; [done|]. exists te, cs. 
    assert (0 ≤ h_host_mem_size s') as Hs0.
    { rw (b_size _ _ _ Hb). destruct (b_holds _ _ _ Hb) as (_ & _ & Hok). pose proof (total_nonneg _ Hok). lia. }
    rw /c_true in E0. split; [done|]. split; [lia|]. do 2 (split; [done|]). intros Hpw Hd. apply Hwp; [apply power_pages; [lia|done]|done].
  - wp_step. eapply wp_mono; [apply free_host_mem_spec; right; eauto|].
    intros [] s'' [Hn' Hr']. apply Hnext; [by rw Hr'|done].
Qed.

Lemma alloc_host_mem_spec min preferred s :
  preferred < 2 ^ 44 → 0 ≤ min → 0 ≤ preferred ≤ e_max_host_mem_size_mb * SZ_1M → wish_ok (h_wish s) → no_buffer s →
  wp (nvme_alloc_host_mem min preferred)
    (outcome min preferred (PAGE_SIZE * MAX_ORDER_NR_PAGES ≤ preferred) s) s.
Proof.
  intros Hp Hmin Hm Hw Hn. rw /nvme_alloc_host_mem. wp_step. wp_step.
  eapply wp_mono; [apply shrink_loop_spec|]; [|rw /PAGE_SIZE /MAX_ORDER_NR_PAGES; lia|lia|done..|].
  - split; [rw /PAGE_SIZE /MAX_ORDER_NR_PAGES; lia|]. set (c := Z.min _ _).
    assert (0 ≤ c) by (rw /c /PAGE_SIZE /MAX_ORDER_NR_PAGES; lia).
    rw Nat2Z.inj_succ Z2Nat.id; [|apply Z.log2_nonneg].
    destruct (decide (c = 0)) as [->|]; [done|]. apply Z.log2_spec. lia.
  - intros r s' [Hr Ho]. split; [done|]. destruct Ho as [?|(? & te & cs & ? & ? & ? & ? & Hpow)]; [by left|right].
    split; [done|]. exists te, cs. do 4 (split; [done|]). intros Hge. apply Hpow.
    rw Z.min_r; [|done]. by exists 22.
Qed.
(** ** Telling the controller *)

Lemma split_dwords a : 0 ≤ a < 2 ^ 64 → u32 (Z.shiftr a 32) * 2 ^ 32 + u32 a = a.
Proof.
  intros Ha. rw Z.shiftr_div_pow2; [|done]. rw /u32 (Z.mod_small (a / 2 ^ 32)); [Z.div_mod_to_equations; lia|].
  Z.div_mod_to_equations. lia.
Qed.

Lemma size_dword n : 0 ≤ n < 2 ^ 44 → u32 (Z.shiftr n NVME_CTRL_PAGE_SHIFT) = n / NVME_CTRL_PAGE_SIZE.
Proof.
  intros Hn. rw Z.shiftr_div_pow2; [|done]. rw /u32 Z.mod_small; [done|]. rw /NVME_CTRL_PAGE_SHIFT.
  Z.div_mod_to_equations. lia.
Qed.

Definition use_of (s : hst) : hmb_use :=
  HmbUse (h_host_mem_descs_dma s) (h_nr_host_mem_descs s) (h_host_mem_size s / NVME_CTRL_PAGE_SIZE).

Lemma set_host_mem_spec bits Q s :
  (Z.testbit bits 0 = true → 0 ≤ h_host_mem_size s < 2 ^ 44 ∧ 0 ≤ h_host_mem_descs_dma s < 2 ^ 64) →
  (∀ r l t, r ≠ 0 → (yields E → bits = 0 → r < 0) → Q r (s<{h_sent := l}><{h_tick := t}>)) →
  (∀ l t, Q 0 (s<{h_sent := l}><{h_tick := t}>
                <{h_using := if Z.testbit bits 0 then Some (use_of s) else None}>
                <{h_hmb := c_true (Z.land bits NVME_HOST_MEM_ENABLE)}>)) →
  wp (nvme_set_host_mem bits) Q s.
Proof.
  intros Hb HF HS. rw /nvme_set_host_mem /submit_features. do 10 wp_step. apply wp_ask_hmb. set (c := Features _ _ _ _ _ _ _).
  assert (∀ x, accept c x = x<{h_using := if Z.testbit bits 0 then Some (use_of s) else None}>) as Hacc.
  { intros x. rw /accept /use_of. cbn -[Z.testbit Z.pow]. destruct (Z.testbit bits 0); [|done].
    destruct (Hb eq_refl) as [? ?]. by rw size_dword; [rw split_dwords|]. }
  set (r := e_features _ _). destruct (decide (r = 0)) as [Hr|Hr].
  - rw Hr. cbn. do 3 wp_step. change (c_true 0) with false. cbv iota. do 3 wp_step.
    rw Hacc. exact (HS (h_sent s ++ [c]) (S (h_tick s))).
  - rw (_ : (r =? 0) = false); [|lia]. cbn [when]. do 3 wp_step. rw (_ : c_true r = true); [|rw /c_true; lia]. do 3 wp_step.
    apply HF; [done|]. intros Hy ->. pose proof (Hy (h_tick s) c eq_refl) as Hl. cbn in r. lia.
Qed.

(** ** Setting the buffer up *)

Definition mem (s : hst) :=
  (h_host_mem_size s, h_nr_host_mem_descs s, h_host_mem_descs_dma s, h_host_mem_descs s, h_host_mem_desc_bufs s,
   h_live s, h_arrays s).

Lemma buffer_mem s s' te cs : mem s' = mem s → buffer s te cs → buffer s' te cs.
Proof.
  intros [= Hs Hn Hd Hds Hb Hl Ha] [?????????].
  split; rw /holds ?Hs ?Hn ?Hd ?Hds ?Hb ?Hl ?Ha; done.
Qed.
Lemma memory_mem s s' : mem s' = mem s → memory_ok s → memory_ok s'.
Proof.
  intros Hm [Hn|(te & cs & Hb)]; [left|right; exists te, cs; by eapply buffer_mem].
  rw /no_buffer in Hn |- *. by injection Hm as _ -> _ -> -> -> ->.
Qed.

(** Without a controller that uses it, the buffer may come and go. *)
Lemma unused_inv s : wish_ok (h_wish s) → memory_ok s → (yields E → h_using s = None) → hmb_inv s.
Proof. intros Hw Hm Hu. split_and!; [done..|]. intros Hy. by rw /using_ok Hu. Qed.

Definition setup_pre (s : hst) : Prop :=
  wish_ok (h_wish s) ∧ memory_ok s ∧ (yields E → h_using s = None) ∧ h_suspended s = false.
Definition setup_post (s s' : hst) : Prop :=
  hmb_inv s' ∧ h_suspended s' = false ∧ h_removed s' = h_removed s ∧ h_wish s' = h_wish s.
Lemma setup_unused s s' : setup_pre s → rest s' = rest s → memory_ok s' → setup_post s s'.
Proof.
  intros (Hw & _ & Hu & Hs) [= Hw' _ _ _ Hu' Hs' Hr'] Hm. split_and!; [|congruence..].
  apply unused_inv; [congruence|done|]. intros Hy. rw Hu'. by apply Hu.
Qed.

Lemma setup_enable bits te cs s0 s : setup_pre s0 → rest s = rest s0 → buffer s te cs →
  hmmin (h_wish s0) * 4096 ≤ h_host_mem_size s → Z.testbit bits 0 = true →
  wp (ret ← nvme_set_host_mem bits; when (c_true ret) nvme_free_host_mem;; mret ret) (λ _, setup_post s0) s.
Proof.
  intros Hpre Hr Hb Hmin Hbit. pose proof Hb as [_ _ _ _ (_ & _ & Hok) _ Hsz [_ Hmx] Hdma].
  pose proof (total_nonneg _ Hok) as H0. wp_step. apply set_host_mem_spec; [intros _; split; [lia|done]|..].
  - intros r l t Hr0 _. rw /c_true. apply Z.eqb_neq in Hr0. rw Hr0 /=. wp_step.
    eapply wp_mono; [apply free_host_mem_spec; right; exists te, cs; by apply (buffer_mem s)|].
    intros [] s' [Hn Hr']. apply wp_ret. apply setup_unused; [done| |by left].
    rw Hr'. injection Hr as ???????. rw /rest /=. congruence.
  - intros l t. rw Hbit. do 2 wp_step; [done|]. wp_step. destruct Hpre as (Hw & _ & Hu & Hs).
    injection Hr as Hwi ? ? ? ? Hsu Hre. split_and!; [|by rw /= Hsu|done|done].
    split_and!; [by rw /= Hwi|right; exists te, cs; by apply (buffer_mem s)|].
    intros _. rw /using_ok /=. split_and!; [by rw Hsu| |by rw Hwi|done|exists te, cs; by apply (buffer_mem s)].
    rw /c_true. apply negb_true_iff, Z.eqb_neq. intros Hl. apply (f_equal (λ z, Z.testbit z 0)) in Hl.
    by rw Z.land_spec Hbit in Hl.
Qed.

Lemma setup_host_mem_spec s : setup_pre s → wp nvme_setup_host_mem (λ _, setup_post s) s.
Proof.
  intros Hpre. pose proof Hpre as (Hw & Hm & Hu & Hs). rw /nvme_setup_host_mem. wp_step. wp_step.
  set (preferred := Z.min _ _). set (max := e_max_host_mem_size_mb * SZ_1M).
  pose proof law_max as Hmax. rw /wish_ok in Hw.
  assert (preferred < 2 ^ 44 ∧ 0 ≤ preferred ≤ max) as [Hp Hpm] by (rw /preferred /max /SZ_1M; lia).
  destruct (max <? _) eqn:Hlt.
  { wp_step. eapply wp_mono; [by apply free_host_mem_spec|]. intros [] s' [Hn Hr]. apply wp_ret.
    apply setup_unused; [done..|by left]. }
  do 4 wp_step.
  assert (∀ s', rest s' = rest s → no_buffer s' → wp
    (descs ← gets h_host_mem_descs;
     r ← (match descs with None => nvme_alloc_host_mem (hmmin (h_wish s) * 4096) preferred | Some _ => mret 0 end);
     if c_true r then mret 0 else
     ret ← nvme_set_host_mem NVME_HOST_MEM_ENABLE; when (c_true ret) nvme_free_host_mem;; mret ret)
    (λ _, setup_post s) s') as Halloc.
  { intros s' Hr Hn. do 2 wp_step. rw (proj1 Hn). wp_step. pose proof (rest_wish _ _ Hr) as Hwi.
    eapply wp_mono; [apply alloc_host_mem_spec; [done|lia|done|by rw Hwi|done]|].
    intros r s'' [Hr' [[Hr0 Hn']|(-> & te & cs & Hb & Hmin & _)]].
    - rw (_ : c_true r = true); [|rw /c_true; lia]. apply wp_ret. apply setup_unused; [done|by rw Hr'|by left].
    - apply (setup_enable _ te cs); [done|by rw Hr'|done|lia|done]. }
  destruct Hm as [Hn|(te & cs & Hb)].
  - rw (proj1 Hn). do 2 wp_step. by apply Halloc.
  - pose proof (b_descs _ _ _ Hb) as Hd. rw Hd. wp_step. destruct (_ <=? _) eqn:Hle.
    + do 3 wp_step. rw Hd. do 2 wp_step. change (c_true 0) with false. cbv iota.
      apply (setup_enable _ te cs); [done..|lia|done].
    + wp_step. eapply wp_mono; [apply free_host_mem_spec; right; eauto|]. intros [] s' [Hn Hr].
      wp_step. by apply Halloc.
Qed.
(** ** The operations *)

Definition view (s : hst) := (mem s, h_wish s, h_hmb s, h_using s, h_suspended s).
Lemma inv_view s s' : view s' = view s → hmb_inv s → hmb_inv s'.
Proof.
  intros [= H1 H2 H3 H4 H5 H6 H7 Hw Hh Hu Hs] (Hwi & Hmem & Huse).
  assert (mem s' = mem s) as Hmm by (rw /mem; congruence).
  split_and!; [congruence|by eapply memory_mem|]. intros Hy. specialize (Huse Hy). rw /using_ok Hu in Huse |- *. destruct (h_using s); [|done].
  destruct Huse as (? & ? & ? & -> & te & cs & Hb). split_and!; [congruence..|]. exists te, cs. by eapply buffer_mem.
Qed.
Lemma inv_unused s s' : mem s' = mem s → h_wish s' = h_wish s → (yields E → h_using s' = None) → hmb_inv s → hmb_inv s'.
Proof. intros Hm Hw Hu (Hwi & Hmem & _). apply unused_inv; [congruence|by eapply memory_mem|done]. Qed.
Lemma inv_hmb s : hmb_inv s → h_hmb s = false → yields E → h_using s = None.
Proof. intros (_ & _ & Hu) Hh Hy. specialize (Hu Hy). rw /using_ok in Hu. destruct (h_using s); [|done]. destruct Hu as (? & ? & ?). congruence. Qed.
Lemma inv_suspended s : hmb_inv s → h_suspended s = true → yields E → h_using s = None.
Proof. intros (_ & _ & Hu) Hh Hy. specialize (Hu Hy). rw /using_ok in Hu. destruct (h_using s); [|done]. destruct Hu as (? & ?). congruence. Qed.

(** An operation that keeps the invariant and leaves the controller without the
    buffer when it returns 0, if it gives the buffer up. *)
Definition gives_up (r : Z) (s : hst) : Prop := hmb_inv s ∧ (r = 0 → yields E → h_using s = None).

Lemma disable_spec s : hmb_inv s → wp nvme_disable_prepare_reset gives_up s.
Proof.
  intros Hi. rw /nvme_disable_prepare_reset. wp_step. apply wp_ask_hmb. destruct (e_wait_reset _); cbn [negb].
  - rw /dev_disable. wp_steps. split; [|done]. by apply (inv_unused s).
  - wp_step. split; [by apply (inv_view s)|]. done.
Qed.

Lemma suspend_power_spec s : hmb_inv s → (yields E → h_using s = None) → wp suspend_power gives_up s.
Proof.
  intros Hi Hu. rw /suspend_power. wp_step. apply wp_ask_hmb. set (ret := e_set_power_state _).
  assert (hmb_inv (s<{h_tick := S (h_tick s)}>)) as Hi' by by apply (inv_view s).
  wp_step; [by apply wp_ret|]. wp_step; [|by apply wp_ret].
  wp_step. eapply wp_mono; [by apply disable_spec|]. intros r s' [Hi'' Hu'']. wp_steps.
  split; [by apply (inv_view s')|done].
Qed.

Lemma suspend_spec s : hmb_inv s → wp nvme_suspend gives_up s.
Proof.
  intros Hi. rw /nvme_suspend. do 5 wp_step. apply wp_ask_hmb. cbn.
  set (s1 := Hst _ _ _ _ _ _ _ _ _ _ _ _ _ _ _ _ _). assert (hmb_inv s1) as Hi1 by by apply (inv_view s).
  wp_step; [by apply disable_spec|]. wp_step. apply wp_ask_hmb.
  assert (hmb_inv (s1<{h_tick := S (h_tick s1)}>)) as Hi2 by by apply (inv_view s1).
  wp_step; [by apply wp_ret|]. wp_step. wp_step.
  assert (∀ s', hmb_inv s' → (yields E → h_using s' = None) → wp
    ('(ret, ps) ← ask e_get_power_state;
     if ret <? 0 then mret ret else modify (λ s, s<{h_last_ps := ps}>);; suspend_power) gives_up s') as Hnext.
  { intros s' Hi' Hu'. wp_step. apply wp_ask_hmb. destruct (e_get_power_state _) as [ret ps].
    wp_step; [apply wp_ret; split; [by apply (inv_view s')|done]|]. do 2 wp_step.
    apply suspend_power_spec; [by apply (inv_view s')|done]. }
  wp_step. destruct (h_hmb _) eqn:Hh.
  - apply set_host_mem_spec; [done|..].
    + intros r l t Hr0 Hr. destruct (Z.ltb_spec r 0) as [Hneg|Hpos].
      { apply wp_ret. split; [by apply (inv_view s1)|lia]. }
      apply Hnext; [by apply (inv_view s1)|]. intros Hy. specialize (Hr Hy eq_refl). lia.
    + intros l t. cbn [Z.ltb Z.compare]. apply Hnext; [by apply (inv_unused s1)|done].
  - apply wp_ret. cbn [Z.ltb Z.compare]. apply Hnext; [done|]. by apply inv_hmb.
Qed.

Lemma resume_spec s : setup_pre s → wp nvme_resume (λ _, hmb_inv) s.
Proof.
  intros Hp. pose proof Hp as (Hw & Hm & Hu & Hs). rw /nvme_resume. do 3 wp_step.
  assert (∀ s', setup_pre s' → wp
    (wish ← gets h_wish;
     ret ← (if c_true (hmpre wish) then nvme_setup_host_mem else mret 0);
     if c_true ret then ask e_try_sched_reset else mret 0) (λ _, hmb_inv) s') as Hnext.
  { intros s' Hp'. pose proof Hp' as (Hw' & Hm' & Hu' & _). do 3 wp_step. wp_step.
    - eapply wp_mono; [by apply setup_host_mem_spec|]. intros r s'' [Hi _]. wp_step; [|by apply wp_ret].
      apply wp_ask_hmb. by apply (inv_view s'').
    - do 2 wp_step; [done|]. apply wp_ret. by apply unused_inv. }
  wp_step; [apply wp_ret|apply wp_ask_hmb].
  - change (c_true 1) with true. cbv iota. apply wp_ask_hmb. apply unused_inv; [done|by apply (memory_mem s)|done].
  - wp_step; [apply wp_ask_hmb; apply unused_inv; [done|by apply (memory_mem s)|done]|].
    apply Hnext. split_and!; [done|by apply (memory_mem s)|done..].
Qed.
Lemma store_spec new count s : hmb_inv s → h_suspended s = false → wp (hmb_store new count) (λ _, hmb_inv) s.
Proof.
  intros Hi Hs. pose proof Hi as (Hw & Hm & _). rw /hmb_store. destruct new as [new|]; [|by apply wp_ret].
  do 2 wp_step. destruct (Bool.eqb new _) eqn:Hn; [by apply wp_ret|]. wp_step. destruct new.
  - destruct (h_hmb s) eqn:Hh; [done|]. eapply wp_mono.
    { apply setup_host_mem_spec. split_and!; [done..| |done]. by apply inv_hmb. }
    intros r s' [Hi' _]. by wp_step; apply wp_ret.
  - wp_step. apply set_host_mem_spec; [done|..].
    + intros r l t Hr0 _. rw /c_true. apply Z.eqb_neq in Hr0. rw Hr0 /=. wp_steps; by apply (inv_view s).
    + intros l t. cbn. wp_step. eapply wp_mono; [apply free_host_mem_spec; by apply (memory_mem s)|].
      intros [] s' [Hn' Hr']. wp_steps; [done|]. injection Hr' as ???????.
      apply unused_inv; [congruence|by left|done].
Qed.

Lemma reset_spec w s : hmb_inv s → wish_ok w → h_suspended s = false → wp (reset_host_mem w) (λ _, hmb_inv) s.
Proof.
  intros Hi Hw Hs. pose proof Hi as (_ & Hm & _). rw /reset_host_mem /dev_disable. do 3 wp_step. apply wp_ask_hmb.
  wp_step; [apply wp_ret; by apply (inv_unused s)|]. do 2 wp_step. wp_step.
  { apply wp_ret. apply unused_inv; [done|by apply (memory_mem s)|done]. }
  wp_step. eapply wp_mono.
  { apply setup_host_mem_spec. split_and!; [done|by apply (memory_mem s)|done..]. }
  intros r s' [Hi' _]. wp_steps; [by apply (inv_unused s')|done].
Qed.

Lemma remove_spec s : hmb_inv s → wp remove_host_mem (λ _ s', no_buffer s' ∧ hmb_inv s' ∧ h_using s' = None) s.
Proof.
  intros (Hw & Hm & _). rw /remove_host_mem /dev_disable. do 2 wp_step.
  eapply wp_mono; [apply free_host_mem_spec; by apply (memory_mem s)|]. intros [] s' [Hn [= Hw' ??? Hu ? ?]].
  split; [done|]. split; [|done]. apply unused_inv; [by rw Hw'|by left|done].
Qed.

Lemma run_op_spec o s : hmb_inv s → op_ok o → allowed o s = true →
  wp (run_op o) (λ _ s', hmb_inv s' ∧ (o = OpRemove → no_buffer s' ∧ h_using s' = None)) s.
Proof.
  intros Hi Ho [_ Ha]%andb_true_iff. destruct o; cbn [run_op]; try apply negb_true_iff in Ha.
  - eapply wp_mono; [by apply reset_spec|done].
  - eapply wp_mono; [by apply store_spec|done].
  - eapply wp_mono; [by apply disable_spec|]. by intros r s' [? _].
  - wp_step. eapply wp_mono; [by apply suspend_spec|]. intros r s' [Hi' Hu]. wp_steps; [|done].
    split; [|done]. apply (inv_unused s'); [done..| |done]. apply Hu. lia.
  - do 2 wp_step. eapply wp_mono; [apply resume_spec|done]. pose proof Hi as (Hw & Hm & _).
    split_and!; [done|by apply (memory_mem s)|exact (inv_suspended s Hi Ha)|done].
  - do 3 wp_step. eapply wp_mono; [apply remove_spec; by apply (inv_view s)|].
    intros [] s' (Hn & Hi' & Hu). by wp_steps.
Qed.

Lemma probe_inv npss : hmb_inv (h_probe npss).
Proof. split_and!; [done|by left|done]. Qed.

Lemma reach_inv s : hreach s → hmb_inv s.
Proof.
  induction 1 as [npss|s o r s' _ IH Ho Ha Hr]; [apply probe_inv|].
  by destruct (run_wp _ _ _ _ _ Hr (run_op_spec o s IH Ho Ha)).
Qed.
End specs.

Lemma run_reach {E : hmb_env} os s s' : hreach s → Forall op_ok os → run_ops os s = Some s' → hreach s'.
Proof.
  revert s. induction os as [|o os IH]; intros s Hs Ho Hr; [by injection Hr as <-|].
  apply Forall_cons in Ho as [Ho Hos]. cbn [run_ops] in Hr. destruct (allowed o s) eqn:Ha; [|done].
  destruct (run_op o s) as [[r s1]|] eqn:H1; [|done]. by apply (IH s1); [apply (hreach_op s o r)|..].
Qed.
