(* ===== verification/DevLife.v ===== *)
(** * The life of a device (pci.c, core.c)

    [nvme_probe] allocates what a device needs, [nvme_reset_work] brings its
    controller up, as often as needed, [nvme_remove] takes it down, and the last
    reference frees it.  The state says which resources are held: taking one that is
    held, giving one back that is not, reading a register that is not mapped or
    using an object that is not there is a fault. *)
From S2P Require Import Prelude.

(** [ctrl.admin_q]: NULL, an error pointer, a queue, a queue that is cleaned up. *)
Inductive admin_queue := AqNull | AqErr | AqLive | AqDying.
Inductive phase := PNone | PLive | PDown | PRemoved | PGone.

Record dl := Dl {
  v_dev : bool;                (* [struct nvme_dev] *)
  v_queues : bool;             (* [dev->queues] *)
  v_devref : bool;             (* the reference on the PCI device *)
  v_drvdata : bool;
  v_regions : bool;
  v_bar : bool;                (* [dev->bar] is mapped *)
  v_bar_mapped_size : Z;
  v_page_pool : bool;
  v_small_pool : bool;
  v_mempool : bool;
  v_discard : bool;            (* [ctrl.discard_page] *)
  v_instance : bool;           (* [ctrl.instance] *)
  v_cdev : bool;
  v_pci_enabled : bool;
  v_vectors : bool;
  v_cc : bool;                 (* NVME_CC_ENABLE in [ctrl.ctrl_config] *)
  v_queue_count : Z;           (* queues that have rings *)
  v_online : Z;
  v_irqs : gset Z;             (* queues with an interrupt handler *)
  v_admin_tags : bool;
  v_admin_q : admin_queue;
  v_admin_refs : Z;
  v_tagset : bool;
  v_opal : bool;
  v_dbs : bool;                (* shadow doorbells *)
  v_eis : bool;
  v_host_mem : bool;
  v_attrs : bool;
  v_refs : Z;                  (* references on the controller *)
  v_probing : bool;            (* [nvme_async_probe] has still to run *)
  v_dying : bool;              (* [remove_work] is queued *)
  v_opens : Z;                 (* files open on the controller *)
  v_phase : phase;
  v_tick : nat;
}.
#[export] Instance eta_dl : Settable dl := λ x,
  Dl (v_dev x) (v_queues x) (v_devref x) (v_drvdata x) (v_regions x) (v_bar x) (v_bar_mapped_size x) (v_page_pool x)
    (v_small_pool x) (v_mempool x) (v_discard x) (v_instance x) (v_cdev x) (v_pci_enabled x) (v_vectors x) (v_cc x)
    (v_queue_count x) (v_online x) (v_irqs x) (v_admin_tags x) (v_admin_q x) (v_admin_refs x) (v_tagset x) (v_opal x)
    (v_dbs x) (v_eis x) (v_host_mem x) (v_attrs x) (v_refs x) (v_probing x) (v_dying x) (v_opens x) (v_phase x) (v_tick x).

(** What [s_nvme_setup_io_queues] (IoQueues.v) leaves: its result, the queues
    online and with rings, whether the admin queue has its handler, and whether the
    BAR is mapped. *)
Record io_up := IoUp { io_ret : Z; io_online : Z; io_count : Z; io_admin : bool; io_bar : bool }.

(** What the layers below answer at each call. *)
Class dl_env := DlEnv {
  f_ok : nat → bool;             (* an allocation or another step that may fail *)
  f_registered : nat → bool;     (* [ctrl_find_by_pci_dev] *)
  f_ioremap : nat → bool;
  f_init_queue : nat → bool;     (* [blk_mq_init_queue] *)
  f_dbbuf : nat → Z → bool;      (* the controller takes the shadow doorbells; queues online *)
  f_dead : nat → bool;           (* the controller does not answer *)
  f_yes : nat → bool;            (* a condition that does not concern resources *)
  f_host_mem : nat → Z * bool;   (* [nvme_setup_host_mem]: result, and a buffer is held *)
  f_io : nat → dl → io_up;
  f_queues_len : Z;              (* [nr_allocated_queues] *)
  f_bar_len : Z;
  f_db_stride : Z;
}.
(** The contract of IoQueues.v, and what is not documented but has to be assumed,
    because the code does not survive it (FindingsDevLife.v): a mapping of the BAR that
    is replaced can be mapped again ([law_ioremap], and [io_bar] of [law_io]), a queue
    of the block layer can be made once its tags are there ([law_init_queue]), and the
    shadow doorbells are taken when all queues are online ([law_dbbuf]). *)
Class dl_env_laws (E : dl_env) := {
  law_len : 1 ≤ f_queues_len;
  law_io : ∀ t s, 1 ≤ v_queue_count s ≤ f_queues_len →
    1 ≤ io_online (f_io t s) ≤ io_count (f_io t s) ∧ io_count (f_io t s) ≤ f_queues_len ∧ io_bar (f_io t s) = true;
  law_ioremap : ∀ t, f_ioremap t = true;
  law_init_queue : ∀ t, f_init_queue t = true;
  law_dbbuf : ∀ t n, f_queues_len ≤ n → f_dbbuf t n = true;
}.

Section model.
Context {E : dl_env}.

Definition ask {A} (f : nat → A) : K dl A := λ s, Some (f (v_tick s), s<{v_tick := S (v_tick s)}>).

Definition acquire (p : dl → bool) `{!Setter p} : K dl unit := λ s, if p s then None else Some (tt, s<{p := true}>).
Definition release (p : dl → bool) `{!Setter p} : K dl unit := λ s, if p s then Some (tt, s<{p := false}>) else None.
(** Resources that are given back only when they are held. *)
Definition discard (p : dl → bool) `{!Setter p} : K dl unit := modify (λ s, s<{p := false}>).
Definition needs (p : dl → bool) : K dl unit := λ s, if p s then Some (tt, s) else None.

(** Any use of the error pointer faults. *)
Definition use_admin_q : K dl unit := λ s, match v_admin_q s with AqErr => None | _ => Some (tt, s) end.

(** ** Registers and queues *)

Definition nvme_remap_bar (size : Z) : K dl Z :=
  mapped ← gets v_bar_mapped_size;
  if size <=? mapped then mret 0 else
  if f_bar_len <? size then mret (- ENOMEM) else
  bar ← gets v_bar;
  when bar (release v_bar);;
  ok ← ask f_ioremap;
  if negb ok then modify (λ s, s<{v_bar_mapped_size := 0}>);; mret (- ENOMEM) else
  acquire v_bar;; modify (λ s, s<{v_bar_mapped_size := size}>);; mret 0.

Definition nvme_dev_map : K dl Z :=
  ok ← ask f_ok;
  if negb ok then mret (- ENODEV) else
  acquire v_regions;;
  r ← nvme_remap_bar (0x1000 + 4096 * 3);
  if c_true r then release v_regions;; mret (- ENODEV) else mret 0.

Definition nvme_dev_unmap : K dl unit :=
  bar ← gets v_bar;
  when bar (release v_bar);; release v_regions.

Definition nvme_setup_prp_pools : K dl Z :=
  ok ← ask f_ok;
  if negb ok then mret (- ENOMEM) else
  acquire v_page_pool;;
  ok ← ask f_ok;
  if negb ok then release v_page_pool;; mret (- ENOMEM) else
  acquire v_small_pool;; mret 0.

Definition nvme_release_prp_pools : K dl unit := release v_page_pool;; release v_small_pool.

(** ** The controller object (core.c) *)

Definition snvme_init_ctrl : K dl Z :=
  ok ← ask f_ok;
  if negb ok then mret (- ENOMEM) else
  acquire v_discard;;
  ok ← ask f_ok;
  if negb ok then release v_discard;; mret (- ENOMEM) else
  acquire v_instance;;
  modify (λ s, s<{v_refs := 1}>);;
  ok ← ask f_ok;
  if negb ok then release v_instance;; release v_discard;; mret (- ENOMEM) else
  modify (λ s, s<{v_refs := v_refs s + 1}>);;
  ok ← ask f_ok;
  if negb ok then modify (λ s, s<{v_refs := v_refs s - 1}>);; release v_instance;; release v_discard;; mret (- ENOMEM) else
  acquire v_cdev;; mret 0.

(** ** Freeing *)

Definition nvme_dbbuf_dma_free : K dl unit := discard v_dbs;; discard v_eis.

Definition nvme_dbbuf_dma_alloc : K dl Z :=
  dbs ← gets v_dbs;
  if dbs : bool then mret 0 else
  ok ← ask f_ok;
  if negb ok then mret (- ENOMEM) else
  acquire v_dbs;;
  ok ← ask f_ok;
  if negb ok then release v_dbs;; mret (- ENOMEM) else
  acquire v_eis;; mret 0.

(** [nvme_dbbuf_free(&dev->queues[i])]. *)
Definition nvme_dbbuf_free (i : Z) : K dl unit := if f_queues_len <=? i then fault else mret tt.

Definition nvme_dbbuf_set : K dl unit :=
  dbs ← gets v_dbs;
  if negb dbs then mret tt else
  online ← gets v_online;
  ok ← ask (λ t, f_dbbuf t online);
  if ok : bool then mret tt else
  nvme_dbbuf_dma_free;; kfor nvme_dbbuf_free (seqZ 1 online).

Definition nvme_free_tagset : K dl unit := discard v_tagset.

Definition blk_put_queue : K dl unit :=
  use_admin_q;;
  modify (λ s, s<{v_admin_refs := v_admin_refs s - 1}>);;
  n ← gets v_admin_refs;
  if n <? 0 then fault else mret tt.

Definition nvme_pci_free_ctrl : K dl unit :=
  nvme_dbbuf_dma_free;;
  nvme_free_tagset;;
  q ← gets v_admin_q;
  (match q with AqNull => mret tt | _ => blk_put_queue;; modify (λ s, s<{v_admin_q := AqNull}>) end);;
  discard v_opal;;
  release v_mempool;;
  release v_devref;;
  release v_queues;;
  release v_dev.

(** The instance number goes back here or with the subsystem that took it over. *)
Definition nvme_free_ctrl : K dl unit :=
  release v_instance;; release v_discard;; nvme_pci_free_ctrl;; modify (λ s, s<{v_phase := PGone}>).

Definition nvme_get_ctrl : K dl unit := needs v_dev;; modify (λ s, s<{v_refs := v_refs s + 1}>).
Definition nvme_put_ctrl : K dl unit :=
  needs v_dev;;
  modify (λ s, s<{v_refs := v_refs s - 1}>);;
  n ← gets v_refs;
  if n <? 0 then fault else if n =? 0 then nvme_free_ctrl else mret tt.

Definition snvme_uninit_ctrl : K dl unit := release v_cdev;; nvme_put_ctrl.

(** [nvme_free_queues(dev, lowest)]: the rings of a queue that may still interrupt
    are not to be freed. *)
Definition nvme_free_queues (lowest : Z) : K dl unit :=
  count ← gets v_queue_count;
  kfor (λ i, irqs ← gets v_irqs;
             if bool_decide (i ∈ irqs) then fault else modify (λ s, s<{v_queue_count := v_queue_count s - 1}>))
    (reverse (seqZ lowest (count - lowest))).

Definition nvme_dev_remove_admin : K dl unit :=
  use_admin_q;;
  q ← gets v_admin_q;
  match q with
  | AqLive => modify (λ s, s<{v_admin_q := AqDying}><{v_admin_refs := v_admin_refs s - 1}>);; release v_admin_tags
  | _ => mret tt
  end.

(** ** Probing *)

Definition kzalloc_dev : K dl unit :=
  acquire v_dev;; modify (λ s, s<{v_bar_mapped_size := 0}><{v_queue_count := 0}><{v_online := 0}><{v_cc := false}>).
Definition probe_free : K dl unit := discard v_queues;; release v_dev.
Definition probe_put_pci : K dl unit := release v_devref;; discard v_drvdata;; probe_free.
Definition probe_unmap : K dl unit := nvme_dev_unmap;; probe_put_pci.
Definition probe_release_pools : K dl unit := nvme_release_prp_pools;; probe_unmap.
Definition probe_release_mempool : K dl unit := release v_mempool;; probe_release_pools.

(** The bus clears the driver's data when a probe fails. *)
Definition nvme_probe : K dl Z :=
  known ← ask f_registered;
  if negb known then mret (- ENODEV) else
  ok ← ask f_ok;
  if negb ok then mret (- ENOMEM) else
  kzalloc_dev;;
  ok ← ask f_ok;
  if negb ok then probe_free;; mret (- ENOMEM) else
  acquire v_queues;; acquire v_devref;; acquire v_drvdata;;
  result ← nvme_dev_map;
  if c_true result then probe_put_pci;; mret result else
  result ← nvme_setup_prp_pools;
  if c_true result then probe_unmap;; mret result else
  ok ← ask f_ok;
  if negb ok then probe_release_pools;; mret (- ENOMEM) else
  acquire v_mempool;;
  result ← snvme_init_ctrl;
  if c_true result then probe_release_mempool;; mret result else
  modify (λ s, s<{v_probing := true}><{v_phase := PLive}>);; mret 0.

(** ** Bringing the controller up *)

Definition nvme_pci_enable : K dl Z :=
  ok ← ask f_ok;
  if negb ok then mret (- ENOMEM) else
  acquire v_pci_enabled;;
  ok ← ask f_ok;                               (* the DMA mask *)
  if negb ok then release v_pci_enabled;; mret (- ENOMEM) else
  needs v_bar;;
  dead ← ask f_dead;
  if dead : bool then release v_pci_enabled;; mret (- ENODEV) else
  ok ← ask f_ok;
  if negb ok then mret (- ENOSPC) else
  acquire v_vectors;; mret 0.

Definition nvme_alloc_queue (qid : Z) : K dl Z :=
  count ← gets v_queue_count;
  if qid <? count then mret 0 else
  ok ← ask f_ok;
  if negb ok then mret (- ENOMEM) else
  modify (λ s, s<{v_queue_count := v_queue_count s + 1}>);; mret 0.

Definition snvme_disable_ctrl : K dl Z :=
  needs v_bar;; modify (λ s, s<{v_cc := false}>);;
  ok ← ask f_ok;
  mret (if ok : bool then 0 else - ENODEV).
Definition snvme_enable_ctrl : K dl Z :=
  needs v_bar;;
  ok ← ask f_ok;                               (* the page size *)
  if negb ok then mret (- ENODEV) else
  modify (λ s, s<{v_cc := true}>);;
  ok ← ask f_ok;
  mret (if ok : bool then 0 else - ENODEV).

Definition nvme_pci_configure_admin_queue : K dl Z :=
  result ← nvme_remap_bar (0x1000 + 8 * f_db_stride);
  if result <? 0 then mret result else
  needs v_bar;;
  result ← snvme_disable_ctrl;
  if result <? 0 then mret result else
  result ← nvme_alloc_queue 0;
  if c_true result then mret result else
  result ← snvme_enable_ctrl;
  if c_true result then mret result else
  modify (λ s, s<{v_online := v_online s + 1}>);;
  ok ← ask f_ok;                               (* the interrupt *)
  if negb ok then modify (λ s, s<{v_online := v_online s - 1}>);; mret (- EBUSY) else
  modify (λ s, s<{v_irqs := {[0]} ∪ v_irqs s}>);; mret 0.

Definition nvme_alloc_admin_tags : K dl Z :=
  q ← gets v_admin_q;
  match q with
  | AqNull =>
    ok ← ask f_ok;
    if negb ok then mret (- ENOMEM) else
    acquire v_admin_tags;;
    ok ← ask f_init_queue;
    if negb ok then
      modify (λ s, s<{v_admin_q := AqErr}>);; release v_admin_tags;; mret (- ENOMEM)
    else
    modify (λ s, s<{v_admin_q := AqLive}><{v_admin_refs := 1}>);;
    ok ← ask f_ok;
    if negb ok then nvme_dev_remove_admin;; modify (λ s, s<{v_admin_q := AqNull}>);; mret (- ENODEV) else
    modify (λ s, s<{v_admin_refs := v_admin_refs s + 1}>);; mret 0
  | _ => use_admin_q;; mret 0
  end.

(** ** Taking it down *)

Definition nvme_suspend_queue (qid : Z) : K dl unit :=
  irqs ← gets v_irqs;
  when (bool_decide (qid ∈ irqs)) (
    when (qid =? 0) use_admin_q;;
    modify (λ s, s<{v_online := v_online s - 1}><{v_irqs := v_irqs s ∖ {[qid]} }>)).

Definition nvme_suspend_io_queues : K dl unit :=
  count ← gets v_queue_count;
  kfor nvme_suspend_queue (reverse (seqZ 1 (count - 1))).

(** Vectors whose handlers are still registered are not to be freed. *)
Definition nvme_pci_disable : K dl unit :=
  irqs ← gets v_irqs;
  if negb (bool_decide (irqs = ∅)) then fault else
  discard v_vectors;; discard v_pci_enabled.

Definition nvme_dev_disable (shutdown : bool) : K dl unit :=
  enabled ← gets v_pci_enabled;
  dead ← (if enabled : bool then needs v_bar;; ask f_dead else mret true);
  count ← gets v_queue_count;
  when (negb dead && (0 <? count)) (
    needs v_bar;;
    when (negb shutdown) (modify (λ s, s<{v_cc := false}>)));;
  nvme_suspend_io_queues;;
  nvme_suspend_queue 0;;
  nvme_pci_disable;;
  when shutdown use_admin_q.

(** [snvme_kill_queues] looks at the admin queue; the reference is for [remove_work]. *)
Definition nvme_remove_dead_ctrl : K dl unit :=
  nvme_get_ctrl;;
  nvme_dev_disable false;;
  use_admin_q;;
  dying ← gets v_dying;
  if dying : bool then nvme_put_ctrl else modify (λ s, s<{v_dying := true}>).

(** ** The reset work *)

Definition reset_opal : K dl unit :=
  supported ← ask f_yes;
  if supported : bool then
    opal ← gets v_opal;
    if opal : bool then mret tt else
    ok ← ask f_ok; when ok (acquire v_opal)
  else discard v_opal.

Definition reset_host_mem : K dl Z :=
  wanted ← ask f_yes;
  if negb wanted then mret 0 else
  '(result, held) ← ask f_host_mem;
  modify (λ s, s<{v_host_mem := held}>);; mret result.

(** The handlers are those of the admin queue, if it has one, and of the queues online. *)
Definition s_nvme_setup_io_queues : K dl Z := λ s,
  let up := f_io (v_tick s) s in
  Some (io_ret up, s<{v_tick := S (v_tick s)}><{v_online := io_online up}><{v_queue_count := io_count up}>
    <{v_irqs := (if io_admin up then {[0]} else ∅) ∪ list_to_set (seqZ 1 (io_online up - 1))}><{v_bar := io_bar up}>).

Definition nvme_dev_add : K dl unit :=
  tagset ← gets v_tagset;
  if negb tagset then
    ok ← ask f_ok;
    if negb ok then mret tt else acquire v_tagset;; nvme_dbbuf_set
  else
    online ← gets v_online;
    nvme_free_queues online;; nvme_dbbuf_set.

Definition reset_queues : K dl Z :=
  result ← s_nvme_setup_io_queues;
  if c_true result then mret result else
  online ← gets v_online;
  (if online <? 2 then use_admin_q;; nvme_free_tagset else nvme_dev_add);;
  live ← ask f_yes;                            (* the state becomes LIVE *)
  if negb live then mret (- ENODEV) else
  attrs ← gets v_attrs;
  ok ← ask f_ok;
  when (negb attrs && ok) (acquire v_attrs);;
  mret 0.

Definition reset_connect : K dl Z :=
  connecting ← ask f_yes;                      (* the state becomes CONNECTING *)
  if negb connecting then mret (- EBUSY) else
  ok ← ask f_ok;                               (* [snvme_init_ctrl_finish] *)
  if negb ok then mret (- EIO) else
  reset_opal;;
  dbbuf ← ask f_yes;
  (if dbbuf : bool then nvme_dbbuf_dma_alloc;; mret tt else mret tt);;
  result ← reset_host_mem;
  if result <? 0 then mret result else reset_queues.

Definition reset_body : K dl Z :=
  resetting ← ask f_yes;
  if negb resetting then mret (- ENODEV) else
  cc ← gets v_cc;
  when cc (nvme_dev_disable false);;
  result ← nvme_pci_enable;
  if c_true result then mret result else
  result ← nvme_pci_configure_admin_queue;
  if c_true result then mret result else
  result ← nvme_alloc_admin_tags;
  if c_true result then mret result else reset_connect.

Definition nvme_reset_work : K dl Z :=
  needs v_dev;;
  result ← reset_body;
  if c_true result then nvme_remove_dead_ctrl;; modify (λ s, s<{v_phase := PDown}>);; mret result else mret 0.

(** ** Removal *)

Definition nvme_remove : K dl unit :=
  needs v_dev;;
  modify (λ s, s<{v_drvdata := false}>);;
  present ← ask f_yes;
  when (negb present) (nvme_dev_disable true);;
  nvme_dev_disable true;;
  discard v_attrs;;
  discard v_host_mem;;
  nvme_dev_remove_admin;;
  nvme_free_queues 0;;
  nvme_release_prp_pools;;
  nvme_dev_unmap;;
  modify (λ s, s<{v_phase := PRemoved}>);;
  snvme_uninit_ctrl.

Definition nvme_remove_dead_ctrl_work : K dl unit :=
  needs v_dev;;
  modify (λ s, s<{v_dying := false}>);;
  bound ← gets v_drvdata;
  when bound nvme_remove;;
  nvme_put_ctrl.

Definition nvme_async_probe : K dl unit := modify (λ s, s<{v_probing := false}>);; nvme_put_ctrl.

(** ** Sequences of events *)

Inductive dop := DProbe | DAsync | DReset | DDisable (shutdown : bool) | DOpen | DClose | DRemove | DDead.

Definition phase_is (p q : phase) : bool :=
  match p, q with
  | PNone, PNone | PLive, PLive | PDown, PDown | PRemoved, PRemoved | PGone, PGone => true
  | _, _ => false
  end.

(** The first reset ends before the asynchronous part of the probe; files are opened
    while the node is there. *)
Definition may (o : dop) (s : dl) : bool :=
  match o with
  | DProbe => phase_is (v_phase s) PNone
  | DAsync => v_probing s
  | DReset | DDisable _ => phase_is (v_phase s) PLive
  | DOpen => v_cdev s
  | DClose => 0 <? v_opens s
  | DRemove => v_drvdata s
  | DDead => v_dying s
  end.

Definition run_dop (o : dop) : K dl Z :=
  match o with
  | DProbe => nvme_probe
  | DAsync => nvme_async_probe;; mret 0
  | DReset => nvme_reset_work
  | DDisable shutdown => nvme_dev_disable shutdown;; mret 0
  | DOpen => nvme_get_ctrl;; modify (λ s, s<{v_opens := v_opens s + 1}>);; mret 0
  | DClose => modify (λ s, s<{v_opens := v_opens s - 1}>);; nvme_put_ctrl;; mret 0
  | DRemove => nvme_remove;; mret 0
  | DDead => nvme_remove_dead_ctrl_work;; mret 0
  end.

Definition d_start : dl :=
  Dl false false false false false false 0 false false false false false false false false false 0 0 ∅ false AqNull 0
    false false false false false false 0 false false 0 PNone 0.

Fixpoint run_dops (os : list dop) (s : dl) : option dl :=
  match os with
  | [] => Some s
  | o :: os => if may o s then '(_, s') ← run_dop o s; run_dops os s' else None
  end.
Inductive dreach : dl → Prop :=
  | dreach_start : dreach d_start
  | dreach_step s o r s' : dreach s → may o s = true → run_dop o s = Some (r, s') → dreach s'.
End model.
