(* ===== verification/DevLifeInv.v ===== *)
(** * The life of a device: invariants *)
From S2P Require Import Prelude DevLife.

(** What a reset does not touch. *)
Definition frame (s : dl) :=
  (v_dev s, v_queues s, v_devref s, v_drvdata s, v_regions s, v_page_pool s, v_small_pool s, v_mempool s, v_discard s,
   v_instance s, v_cdev s, v_refs s, v_probing s, v_dying s, v_opens s, v_phase s).

Definition admin_ok (s : dl) : Prop :=
  (v_admin_q s = AqNull ∧ v_admin_tags s = false ∧ v_admin_refs s = 0) ∨
  (v_admin_q s = AqLive ∧ v_admin_tags s = true ∧ v_admin_refs s = 2).

(** What holds at every point of a reset. *)
Record dyn {E : dl_env} (s : dl) : Prop := Dyn {
  dy_bar : v_bar s = true;
  dy_admin : admin_ok s;
  dy_eis : v_eis s = v_dbs s;
  dy_count : 0 ≤ v_queue_count s ≤ f_queues_len;
  dy_irqs : ∀ q, q ∈ v_irqs s → q = 0 ∨ 0 < q < v_queue_count s;
}.
Definition shape (s : dl) :=
  (v_bar s, v_admin_q s, v_admin_tags s, v_admin_refs s, v_eis s, v_dbs s, v_queue_count s, v_irqs s).
Definition down (s : dl) : Prop := v_pci_enabled s = false ∧ v_vectors s = false ∧ v_irqs s = ∅.

Definition keeps {E : dl_env} (s s' : dl) : Prop := frame s' = frame s ∧ dyn s'.
(** The same for the steps that leave the controller as it is. *)
Definition keeps_up {E : dl_env} (s s' : dl) : Prop :=
  keeps s s' ∧ v_cc s' = v_cc s ∧ v_queue_count s' = v_queue_count s.

Section rules.
Context {E : dl_env} {L : dl_env_laws E}.

Lemma wp_ask_dl {A} (f : nat → A) Q s : Q (f (v_tick s)) (s<{v_tick := S (v_tick s)}>) → wp (ask f) Q s.
Proof. intros HQ. by apply (wp_of_run _ _ _ (f (v_tick s)) (s<{v_tick := S (v_tick s)}>)). Qed.
Lemma wp_acquire p `{!Setter p} Q s : p s = false → Q tt (s<{p := true}>) → wp (acquire p) Q s.
Proof. intros Hp HQ. apply (wp_of_run _ _ _ tt (s<{p := true}>)); [|done]. by rw /acquire Hp. Qed.
Lemma wp_release_res p `{!Setter p} Q s : p s = true → Q tt (s<{p := false}>) → wp (release p) Q s.
Proof. intros Hp HQ. apply (wp_of_run _ _ _ tt (s<{p := false}>)); [|done]. by rw /release Hp. Qed.
Lemma wp_needs p Q s : p s = true → Q tt s → wp (needs p) Q s.
Proof. intros Hp HQ. apply (wp_of_run _ _ _ tt s); [|done]. by rw /needs Hp. Qed.
Lemma wp_use_admin Q s : v_admin_q s ≠ AqErr → Q tt s → wp use_admin_q Q s.
Proof. intros Hp HQ. apply (wp_of_run _ _ _ tt s); [|done]. rw /use_admin_q. by destruct (v_admin_q s). Qed.

Lemma keeps_refl s : dyn s → keeps s s.
Proof. done. Qed.
Lemma keeps_trans s1 s2 s3 : keeps s1 s2 → keeps s2 s3 → keeps s1 s3.
Proof. intros [F1 _] [F2 D2]. split; [congruence|done]. Qed.
Lemma keeps_up_trans s1 s2 s3 : keeps_up s1 s2 → keeps_up s2 s3 → keeps_up s1 s3.
Proof. intros (K1 & ? & ?) (K2 & ? & ?). split; [by eapply keeps_trans|split; congruence]. Qed.
Lemma dyn_admin s : dyn s → v_admin_q s ≠ AqErr.
Proof. intros [_ [[-> _]|[-> _]] _ _ _]; done. Qed.
End rules.

(** The state in the form [Dl ..] again. *)
Ltac dl_norm :=
  cbn [upd v_dev v_queues v_devref v_drvdata v_regions v_bar v_bar_mapped_size v_page_pool v_small_pool v_mempool v_discard v_instance
    v_cdev v_pci_enabled v_vectors v_cc v_queue_count v_online v_irqs v_admin_tags v_admin_q
    v_admin_refs v_tagset v_opal v_dbs v_eis v_host_mem v_attrs v_refs v_probing v_dying v_opens v_phase v_tick] in *.

(** A test of a result that is known. *)
Ltac dl_const :=
  match goal with
  | |- wp (if ?c then _ else _) _ _ =>
    let b := eval vm_compute in c in
    lazymatch b with
    | true => change c with true; cbv iota
    | false => change c with false; cbv iota
    end
  end.

(** One step; conditions on resources are settled by computation or an assumption. *)
Ltac dl_step :=
  cbv beta;
  lazymatch goal with
  | |- wp (if _ then _ else _) _ _ => first [dl_const|wp_step]
  | |- wp (ask _) _ _ => apply wp_ask_dl; cbv beta
  | |- wp (acquire _) _ _ => apply wp_acquire; [first [done|assumption]|]
  | |- wp (release _) _ _ => apply wp_release_res; [first [done|assumption]|]
  | |- wp (discard _) _ _ => apply wp_modify
  | |- wp use_admin_q _ _ => apply wp_use_admin; [first [done|assumption]|]
  | |- wp (needs _) _ _ => apply wp_needs; [first [done|assumption]|]
  | _ => wp_step
  end; dl_norm.
Ltac dl_steps := repeat dl_step.

Section specs.
Context {E : dl_env} {L : dl_env_laws E}.

(** ** Taking the controller down *)

Lemma suspend_queue_spec q Q s : (q = 0 → v_admin_q s ≠ AqErr) →
  (∀ o, Q tt (s<{v_online := o}><{v_irqs := v_irqs s ∖ {[q]} }>)) → wp (nvme_suspend_queue q) Q s.
Proof.
  intros Ha HQ. rw /nvme_suspend_queue. destruct s. dl_norm. dl_step. dl_step. dl_step.
  - dl_step. dl_step; [apply wp_use_admin; [apply Ha; lia|]|]; dl_step; apply HQ.
  - specialize (HQ v_online). rw (_ : v_irqs ∖ {[q]} = v_irqs) in HQ; [done|].
    apply bool_decide_eq_false in H. set_solver.
Qed.

Lemma suspend_loop_spec qs Q s : (∀ q, q ∈ qs → q ≠ 0) →
  (∀ o, Q tt (s<{v_online := o}><{v_irqs := v_irqs s ∖ list_to_set qs}>)) → wp (kfor nvme_suspend_queue qs) Q s.
Proof.
  revert s. induction qs as [|q qs IH]; intros s Hq HQ; cbn [kfor].
  - apply wp_ret. specialize (HQ (v_online s)). cbn [list_to_set] in HQ. rw difference_empty_L in HQ. by destruct s.
  - apply wp_bind. apply suspend_queue_spec; [intros ->; by destruct (Hq 0); [set_solver|]|]. intros o. apply IH; [set_solver|].
    intros o'. specialize (HQ o'). destruct s. dl_norm.
    rw (_ : v_irqs ∖ {[q]} ∖ list_to_set qs = v_irqs ∖ list_to_set (q :: qs)); [done|]. set_solver.
Qed.

Lemma dev_disable_spec shutdown Q s : dyn s →
  (∀ o c t, Q tt (s<{v_cc := c}><{v_online := o}><{v_irqs := ∅}><{v_vectors := false}><{v_pci_enabled := false}><{v_tick := t}>)) →
  wp (nvme_dev_disable shutdown) Q s.
Proof.
  intros [Hb Ha He Hc Hi] HQ.
  assert (v_admin_q s ≠ AqErr) as Haq by (destruct Ha as [[-> _]|[-> _]]; done). clear Ha He Hc.
  assert (∀ c t, wp (nvme_suspend_io_queues;; nvme_suspend_queue 0;; nvme_pci_disable;; when shutdown use_admin_q) Q
    (s<{v_cc := c}><{v_tick := t}>)) as Hrest.
  { intros c t. rw /nvme_suspend_io_queues. destruct s. dl_norm. do 3 dl_step. apply suspend_loop_spec.
    { intros q. rw elem_of_reverse elem_of_seqZ. lia. }
    intros o. dl_step. apply suspend_queue_spec; [done|]. intros o'. rw /nvme_pci_disable. dl_norm. do 3 dl_step.
    rw (_ : v_irqs ∖ list_to_set (reverse (seqZ 1 (v_queue_count - 1))) ∖ {[0]} = ∅).
    { rw bool_decide_true; [|done]. cbn [negb]. do 3 dl_step. apply wp_when; [|intros _; apply HQ].
      intros _. apply wp_use_admin; [done|]. apply HQ. }
    apply set_eq. intros q. rw !elem_of_difference elem_of_singleton elem_of_list_to_set elem_of_reverse elem_of_seqZ.
    split; [|set_solver]. intros [[Hq Hn] Hq0]. destruct (Hi q Hq); lia. }
  rw /nvme_dev_disable. clear HQ. destruct s. dl_norm. do 3 dl_step. destruct v_pci_enabled.
  - dl_step. dl_step. dl_step. do 3 dl_step. apply wp_when; intros _.
    + dl_step. dl_step. apply wp_when; intros _; [dl_step|]; apply Hrest.
    + apply (Hrest v_cc).
  - do 4 dl_step. apply wp_when; [done|]. intros _. apply (Hrest v_cc v_tick).
Qed.
(** ** Bringing it up *)

Lemma keeps_view s s' : frame s' = frame s → shape s' = shape s → dyn s → keeps s s'.
Proof.
  intros Hf [= Hb Hq Ht Hr He Hd Hc Hi] [????]. split; [done|].
  split; rw /admin_ok ?Hb ?Hq ?Ht ?Hr ?He ?Hd ?Hc ?Hi; done.
Qed.

Lemma remap_bar_spec size Q s : v_bar s = true →
  (∀ r m t, Q r (s<{v_bar_mapped_size := m}><{v_tick := t}>)) → wp (nvme_remap_bar size) Q s.
Proof.
  intros Hb HQ. rw /nvme_remap_bar. destruct s. dl_norm. subst. do 2 dl_step. dl_step.
  { dl_step. exact (HQ 0 v_bar_mapped_size v_tick). }
  dl_step. { dl_step. exact (HQ (- ENOMEM) v_bar_mapped_size v_tick). }
  do 2 dl_step. cbn [when]. do 4 dl_step. rw law_ioremap. cbn [negb]. dl_step. dl_step. do 3 dl_step. apply HQ.
Qed.

Lemma pci_enable_spec s : dyn s → down s → wp nvme_pci_enable (λ _, keeps_up s) s.
Proof.
  intros Hd (He & Hv & Hi). pose proof (dy_bar _ Hd) as Hb. rw /nvme_pci_enable. destruct s. dl_norm. subst.
  dl_steps; (split; [by apply keeps_view|done]).
Qed.

Lemma disable_ctrl_spec Q s : v_bar s = true →
  (∀ r t, Q r (s<{v_cc := false}><{v_tick := t}>)) → wp snvme_disable_ctrl Q s.
Proof. intros Hb HQ. rw /snvme_disable_ctrl. destruct s. dl_norm. dl_steps. apply HQ. Qed.

Lemma enable_ctrl_spec Q s : v_bar s = true →
  (∀ r c t, (r = 0 → c = true) → Q r (s<{v_cc := c}><{v_tick := t}>)) → wp snvme_enable_ctrl Q s.
Proof.
  intros Hb HQ. rw /snvme_enable_ctrl. destruct s. dl_norm. dl_steps; [|by apply HQ]. by apply (HQ (- ENODEV) v_cc).
Qed.

Lemma alloc_queue_spec Q s : 0 ≤ v_queue_count s ≤ f_queues_len →
  (∀ r n t, v_queue_count s ≤ n ≤ f_queues_len → (r = 0 → 1 ≤ n) → Q r (s<{v_queue_count := n}><{v_tick := t}>)) →
  wp (nvme_alloc_queue 0) Q s.
Proof.
  intros Hc HQ. pose proof law_len as Hl. rw /nvme_alloc_queue. destruct s. dl_norm. dl_steps.
  - apply (HQ 0 v_queue_count v_tick); lia.
  - apply (HQ (- ENOMEM) v_queue_count); [lia|done].
  - apply HQ; lia.
Qed.

Lemma c_true_false r : c_true r = false → r = 0.
Proof. rw /c_true negb_false_iff. lia. Qed.

Lemma configure_spec s : dyn s →
  wp nvme_pci_configure_admin_queue (λ r s', keeps s s' ∧ (r = 0 → v_cc s' = true ∧ 1 ≤ v_queue_count s')) s.
Proof.
  intros Hd. pose proof Hd as [Hb Ha He Hc Hi]. rw /nvme_pci_configure_admin_queue. dl_step.
  apply remap_bar_spec; [done|]. intros r m t.
  assert (∀ n c o irqs t', v_queue_count s ≤ n ≤ f_queues_len → (irqs = v_irqs s ∨ irqs = {[0]} ∪ v_irqs s) →
    keeps s (s<{v_bar_mapped_size := m}><{v_cc := c}><{v_queue_count := n}><{v_online := o}><{v_irqs := irqs}><{v_tick := t'}>)) as Hk.
  { intros n c o irqs t' Hn Hirqs. destruct s. dl_norm. split; [done|]. split; dl_norm; [done..|lia|]. intros q Hq.
    assert (q = 0 ∨ q ∈ v_irqs) as [?|Hq'%Hi]; [set_solver|lia..]. }
  assert (v_queue_count s ≤ v_queue_count s ≤ f_queues_len) as Hcc by lia. clear Hd Ha He Hi. destruct s. dl_norm. subst.
  dl_step; [dl_step; split; [by apply (Hk v_queue_count v_cc v_online v_irqs t Hcc); left|lia]|].
  dl_step. dl_step. dl_step. apply disable_ctrl_spec; [done|]. intros r1 t1. dl_norm.
  dl_step; [dl_step; split; [by apply (Hk v_queue_count false v_online v_irqs t1 Hcc); left|lia]|].
  dl_step. apply alloc_queue_spec; [done|]. intros r2 n t2 Hn Hr2. dl_norm.
  dl_step; [dl_step; split; [by apply (Hk n false v_online v_irqs t2 Hn); left|by intros ->]|].
  apply c_true_false in E2 as ->. specialize (Hr2 eq_refl).
  dl_step. apply enable_ctrl_spec; [done|]. intros r3 c t3 Hr3. dl_norm.
  dl_step; [dl_step; split; [by apply (Hk n c v_online v_irqs t3 Hn); left|by intros ->]|].
  apply c_true_false in E2 as ->. specialize (Hr3 eq_refl) as ->. do 4 dl_step. dl_step.
  - do 3 dl_step. split; [|done]. apply (Hk n true _ v_irqs _ Hn). by left.
  - do 3 dl_step. split; [|done]. apply (Hk n true _ _ _ Hn). by right.
Qed.

Lemma admin_tags_spec s : dyn s → wp nvme_alloc_admin_tags (λ _, keeps_up s) s.
Proof.
  intros Hd. pose proof Hd as [Hb Ha He Hc Hi]. rw /nvme_alloc_admin_tags. destruct s. rw /admin_ok in Ha. dl_norm.
  do 2 dl_step. destruct Ha as [(-> & -> & ->)|(-> & -> & ->)].
  - do 2 dl_step. dl_step; [dl_step; split; [by apply keeps_view|done]|]. do 4 dl_step.
    rw law_init_queue. cbn [negb]. do 4 dl_step. dl_step.
    + rw /nvme_dev_remove_admin. dl_step. dl_step. apply wp_use_admin; [done|]. dl_norm. do 2 dl_step.
      do 5 dl_step. dl_step. split; [|done]. split; [done|]. split; dl_norm; [done| |done..]. by left.
    + do 3 dl_step. split; [|done]. split; [done|]. split; dl_norm; [done| |done..]. by right.
  - dl_step. apply wp_use_admin; [done|]. dl_step. split; [by apply keeps_view|done].
Qed.
(** ** The reset work *)

Lemma keeps_up_view s s' : frame s' = frame s → shape s' = shape s → v_cc s' = v_cc s → dyn s → keeps_up s s'.
Proof. intros Hf Hs Hc Hd. split; [by apply keeps_view|]. injection Hs as ????????. done. Qed.

Lemma opal_spec s : dyn s → wp reset_opal (λ _, keeps_up s) s.
Proof.
  intros Hd. rw /reset_opal. destruct s. dl_norm. dl_steps; [by apply keeps_up_view..|].
  by apply keeps_up_view.
Qed.

Lemma dbbuf_alloc_spec s : dyn s → wp nvme_dbbuf_dma_alloc (λ _, keeps_up s) s.
Proof.
  intros Hd. pose proof Hd as [Hb Ha He Hc Hi]. rw /nvme_dbbuf_dma_alloc. destruct s. dl_norm. subst. do 2 dl_step.
  destruct v_dbs; [by dl_step; apply keeps_up_view|]. dl_steps; [by apply keeps_up_view..|].
  by split; [|done]; split; [done|]; split.
Qed.

Lemma host_mem_spec s : dyn s → wp reset_host_mem (λ _, keeps_up s) s.
Proof.
  intros Hd. rw /reset_host_mem. destruct s. dl_norm. do 2 dl_step. dl_step; [by dl_step; apply keeps_up_view|].
  do 2 dl_step. destruct (f_host_mem _). dl_steps. by apply keeps_up_view.
Qed.

(** After the I/O queues are set up the handlers belong to queues that are online. *)
Definition queues_up (s : dl) : Prop :=
  1 ≤ v_online s ≤ v_queue_count s ∧ ∀ q, q ∈ v_irqs s → 0 ≤ q < v_online s.

Lemma setup_io_spec s : dyn s → 1 ≤ v_queue_count s →
  wp s_nvme_setup_io_queues (λ _ s', keeps s s' ∧ v_cc s' = v_cc s ∧ queues_up s') s.
Proof.
  intros [Hb Ha He Hc Hi] Hc1. set (up := f_io (v_tick s) s).
  destruct (law_io (v_tick s) s) as (Ho & Hn & Hbar); [lia|].
  eapply wp_of_run; [rw /s_nvme_setup_io_queues; reflexivity|]. fold up in Ho, Hn, Hbar |- *. clearbody up.
  assert (∀ q, q ∈ (if io_admin up then {[0]} else ∅ : gset Z) ∪ list_to_set (seqZ 1 (io_online up - 1)) → 0 ≤ q < io_online up) as Hq.
  { intros q. rw elem_of_union elem_of_list_to_set elem_of_seqZ. destruct (io_admin up); set_solver by lia. }
  destruct s. rw /queues_up. dl_norm. split_and!; [|done|lia|lia|done].
  split; [done|]. split; dl_norm; [done..|lia|]. intros q Hq'%Hq. lia.
Qed.

Lemma dbbuf_set_spec s : dyn s → 1 ≤ v_online s → wp nvme_dbbuf_set (λ _ s', keeps s s' ∧ v_cc s' = v_cc s) s.
Proof.
  intros Hd Ho. pose proof Hd as [Hb Ha He Hc Hi]. rw /nvme_dbbuf_set /nvme_dbbuf_dma_free. destruct s. dl_norm. subst.
  do 2 dl_step. destruct v_dbs; cbn [negb]; [|dl_step; split; [by apply keeps_view|done]].
  do 4 dl_step. destruct (f_dbbuf _ v_online) eqn:Hf; [dl_step; split; [by apply keeps_view|done]|].
  do 4 dl_step. assert (v_online < f_queues_len) as Hlt.
  { destruct (decide (f_queues_len ≤ v_online)) as [Hle|]; [|lia]. by rw law_dbbuf in Hf. }
  apply (wp_kfor _ _ (λ qs s', (∀ q, q ∈ qs → q < f_queues_len) ∧
    s' = Dl v_dev v_queues v_devref v_drvdata v_regions true v_bar_mapped_size v_page_pool v_small_pool v_mempool v_discard
      v_instance v_cdev v_pci_enabled v_vectors v_cc v_queue_count v_online v_irqs v_admin_tags v_admin_q v_admin_refs
      v_tagset v_opal false false v_host_mem v_attrs v_refs v_probing v_dying v_opens v_phase (S v_tick))).
  - split; [|done]. intros q. rw elem_of_seqZ. lia.
  - intros q qs s [Hq ->]. rw /nvme_dbbuf_free. rw (_ : (f_queues_len <=? q) = false).
    { dl_step. split; [|done]. set_solver. }
    specialize (Hq q ltac:(set_solver)). lia.
  - intros s [_ ->]. split; [|done]. split; [done|]. by split.
Qed.

(** The rings above [lowest] are freed when no handler is left there. *)
Lemma free_queues_spec lowest Q s : 0 ≤ lowest ≤ v_queue_count s → (∀ q, q ∈ v_irqs s → q < lowest) →
  Q tt (s<{v_queue_count := lowest}>) → wp (nvme_free_queues lowest) Q s.
Proof.
  intros Hl Hi HQ. rw /nvme_free_queues. destruct s. dl_norm. do 2 dl_step.
  remember (Z.to_nat (v_queue_count - lowest)) as n eqn:Hn. revert v_queue_count Hl Hn HQ.
  induction n as [|n IH]; intros count Hl Hn HQ.
  - replace count with lowest in * by lia. rw Z.sub_diag. cbn. by apply wp_ret.
  - replace (count - lowest) with (Z.of_nat (S n)) by lia. rw seqZ_S reverse_app. cbn [reverse rev_append app kfor].
    do 3 dl_step. rw bool_decide_false; [|intros Hq%Hi; lia]. dl_step.
    replace (Z.of_nat n) with (count - 1 - lowest) by lia. apply IH; [lia..|done].
Qed.
Lemma dev_add_spec s : dyn s → queues_up s → wp nvme_dev_add (λ _ s', keeps s s' ∧ v_cc s' = v_cc s) s.
Proof.
  intros Hd [Ho Hq]. rw /nvme_dev_add. destruct s. dl_norm. do 2 dl_step. destruct v_tagset; cbn [negb].
  - do 3 dl_step. apply free_queues_spec; dl_norm; [lia|intros q Hq'%Hq; lia|].
    eapply wp_mono; [apply dbbuf_set_spec; dl_norm; [|lia]|].
    + destruct Hd as [Hb Ha He Hc Hi]. split; dl_norm; [done..|lia|]. intros q Hq'%Hq. lia.
    + intros [] s' [[Hf Hd'] Hcc]. by split; [split|].
  - do 2 dl_step. dl_step; [dl_step; split; [by apply keeps_view|done]|]. do 2 dl_step.
    eapply wp_mono; [apply dbbuf_set_spec; dl_norm; [|lia]|].
    + destruct Hd as [Hb Ha He Hc Hi]. by split.
    + intros [] s' [[Hf Hd'] Hcc]. by split; [split|].
Qed.

(** A stage of the reset that began with an enabled controller and [s0]'s frame. *)
Definition stage (s0 : dl) (s : dl) : Prop := keeps s0 s ∧ v_cc s = true.

Lemma reset_queues_spec s : dyn s → 1 ≤ v_queue_count s → v_cc s = true → wp reset_queues (λ _, stage s) s.
Proof.
  intros Hd Hc Hcc. rw /reset_queues. dl_step. eapply wp_mono; [by apply setup_io_spec|].
  intros r s1 ([F1 D1] & C1 & Hq). dl_step; [dl_step; split; [done|congruence]|]. do 2 dl_step. dl_step.
  assert (∀ s2, keeps s1 s2 ∧ v_cc s2 = v_cc s1 → wp
    (live ← ask f_yes;
     if negb live then mret (- ENODEV) else
     attrs ← gets v_attrs; ok ← ask f_ok; when (negb attrs && ok) (acquire v_attrs);; mret 0) (λ _, stage s) s2) as Hend.
  { intros s2 [[F2 D2] C2]. assert (v_cc s2 = true) as Ct by congruence. assert (frame s2 = frame s) as F3 by congruence.
    clear - F3 D2 Ct. destruct s2. dl_norm. do 2 dl_step. 
    assert (∀ a t, stage s (Dl v_dev v_queues v_devref v_drvdata v_regions v_bar v_bar_mapped_size v_page_pool v_small_pool
      v_mempool v_discard v_instance v_cdev v_pci_enabled v_vectors true v_queue_count v_online v_irqs v_admin_tags v_admin_q
      v_admin_refs v_tagset v_opal v_dbs v_eis v_host_mem a v_refs v_probing v_dying v_opens v_phase t)) as Hst.
    { intros a t. split; [|done]. split; [by rw -F3|]. eapply proj2. eapply keeps_view; [| |exact D2]; reflexivity. }
    subst. dl_step; [dl_step; apply Hst|]. do 4 dl_step. destruct v_attrs, (f_ok _); cbn [negb andb when]; dl_steps; apply Hst. }
  dl_step.
  - dl_step. apply wp_use_admin; [by apply dyn_admin|]. rw /nvme_free_tagset. dl_step. apply Hend.
    split; [by apply keeps_view|done].
  - eapply wp_mono; [by apply dev_add_spec|]. intros [] s2 H2. by apply Hend.
Qed.

Lemma reset_connect_spec s : dyn s → 1 ≤ v_queue_count s → v_cc s = true → wp reset_connect (λ _, stage s) s.
Proof.
  intros Hd Hc Hcc. assert (∀ s1, keeps_up s s1 → stage s s1) as Hst.
  { intros s1 (K1 & C1 & _). split; [done|congruence]. }
  assert (∀ t, keeps_up s (s<{v_tick := t}>)) as Htick by (intros t; by apply keeps_up_view).
  rw /reset_connect. dl_step. apply wp_ask_dl. dl_step; [apply wp_ret, Hst, Htick|]. dl_step. apply wp_ask_dl.
  dl_step; [apply wp_ret, Hst, (Htick (S (S (v_tick s))))|].
  lazymatch goal with |- wp _ _ ?x => set (s1 := x) end.
  assert (keeps_up s s1) as K1 by exact (Htick (S (S (v_tick s)))). clearbody s1.
  apply wp_bind. eapply wp_mono; [apply opal_spec, K1|]. intros [] s2 K2.
  pose proof (keeps_up_trans _ _ _ K1 K2) as K2'. apply wp_bind, wp_ask_dl. apply wp_bind.
  assert (keeps_up s (s2<{v_tick := S (v_tick s2)}>)) as K3.
  { apply (keeps_up_trans _ _ _ K2'). apply keeps_up_view; [done..|apply K2']. }
  lazymatch goal with |- wp _ _ ?x => set (s3 := x) in * end. clearbody s3.
  assert (∀ s4, keeps_up s s4 → wp (result ← reset_host_mem; if result <? 0 then mret result else reset_queues) (λ _, stage s) s4) as Hend.
  { intros s4 K4. apply wp_bind. eapply wp_mono; [apply host_mem_spec, K4|]. intros r s5 K5.
    pose proof (keeps_up_trans _ _ _ K4 K5) as K5'. destruct (r <? 0); [by apply wp_ret, Hst|].
    destruct K5' as ([F5 D5] & C5 & N5).
    eapply wp_mono; [apply reset_queues_spec; [done|lia|congruence]|]. intros ? s6 [[F6 D6] C6].
    split; [split; [congruence|done]|done]. }
  destruct (f_yes (v_tick s2)).
  - apply wp_bind. eapply wp_mono; [apply dbbuf_alloc_spec, K3|]. intros ? s4 K4. apply wp_ret. apply Hend.
    by apply (keeps_up_trans _ _ _ K3).
  - by apply wp_ret, Hend.
Qed.

Lemma reset_body_spec s : dyn s → (v_cc s = false → down s) →
  wp reset_body (λ r s', keeps s s' ∧ (r = 0 → v_cc s' = true)) s.
Proof.
  intros Hd Hcc. rw /reset_body. dl_step. apply wp_ask_dl.
  set (s1 := s<{v_tick := _}>). assert (keeps s s1) as K1 by by apply keeps_view.
  assert (v_cc s1 = v_cc s ∧ (down s1 ↔ down s)) as [C1 N1] by done. clearbody s1.
  destruct (f_yes _); cbn [negb]; [|by apply wp_ret].
  do 3 dl_step.
  assert (∀ s2, keeps s s2 → down s2 → wp
    (result ← nvme_pci_enable; if c_true result then mret result else
     result ← nvme_pci_configure_admin_queue; if c_true result then mret result else
     result ← nvme_alloc_admin_tags; if c_true result then mret result else reset_connect)
    (λ r s', keeps s s' ∧ (r = 0 → v_cc s' = true)) s2) as Hup.
  { intros s2 K2 N2. apply wp_bind. eapply wp_mono; [apply pci_enable_spec; [apply K2|done]|]. intros r3 s3 (K3 & _).
    pose proof (keeps_trans _ _ _ K2 K3) as K3'. destruct (c_true r3) eqn:R3; [apply wp_ret; split; [done|by intros ->]|].
    apply wp_bind. eapply wp_mono; [apply configure_spec, K3'|]. intros r4 s4 [K4 C4].
    pose proof (keeps_trans _ _ _ K3' K4) as K4'. destruct (c_true r4) eqn:R4; [apply wp_ret; split; [done|by intros ->]|].
    destruct (C4 (c_true_false _ R4)) as [C4' N4].
    apply wp_bind. eapply wp_mono; [apply admin_tags_spec, K4'|]. intros r5 s5 (K5 & C5 & N5).
    pose proof (keeps_trans _ _ _ K4' K5) as K5'. destruct (c_true r5) eqn:R5; [apply wp_ret; split; [done|by intros ->]|].
    eapply wp_mono; [apply reset_connect_spec; [apply K5'|lia|congruence]|]. intros r6 s6 [K6 C6].
    split; [by eapply keeps_trans|done]. }
  apply wp_when; intros Hc.
  - apply dev_disable_spec; [apply K1|]. intros o c t. apply Hup; [|done].
    apply (keeps_trans _ _ _ K1). clear - K1. destruct K1 as [_ [Hb Ha He Hn Hi]]. destruct s1. dl_norm.
    split; [done|]. by split.
  - apply Hup; [done|]. apply N1, Hcc. congruence.
Qed.
(** ** References *)

Definition pending (s : dl) : Z := c_bool (v_probing s) + c_bool (v_dying s) + v_opens s.

Definition owed (s : dl) := (v_probing s, v_dying s, v_opens s).

(** Everything [nvme_probe] acquired. *)
Definition bound (s : dl) : Prop :=
  (v_dev s, v_queues s, v_devref s, v_drvdata s, v_regions s, v_page_pool s, v_small_pool s, v_mempool s, v_discard s,
   v_instance s, v_cdev s) = (true, true, true, true, true, true, true, true, true, true, true).

(** What is left after [nvme_remove], and nothing at all. *)
Record removed (s : dl) : Prop := Removed {
  rm_held : (v_dev s, v_queues s, v_devref s, v_mempool s, v_discard s, v_instance s) = (true, true, true, true, true, true);
  rm_free : (v_drvdata s, v_regions s, v_bar s, v_page_pool s, v_small_pool s, v_cdev s, v_pci_enabled s, v_vectors s,
    v_admin_tags s, v_host_mem s, v_attrs s) = (false, false, false, false, false, false, false, false, false, false, false);
  rm_irqs : v_irqs s = ∅;
  rm_count : v_queue_count s = 0;
  rm_admin : v_admin_q s = AqNull ∧ v_admin_refs s = 0 ∨ v_admin_q s = AqDying ∧ v_admin_refs s = 1;
}.
Definition nothing (s : dl) : Prop :=
  (v_dev s, v_queues s, v_devref s, v_drvdata s, v_regions s, v_bar s, v_page_pool s, v_small_pool s, v_mempool s,
   v_discard s, v_instance s, v_cdev s) =
  (false, false, false, false, false, false, false, false, false, false, false, false) ∧
  (v_pci_enabled s, v_vectors s, v_admin_tags s, v_tagset s, v_opal s, v_dbs s, v_eis s, v_host_mem s, v_attrs s) =
  (false, false, false, false, false, false, false, false, false) ∧
  v_queue_count s = 0 ∧ v_irqs s = ∅ ∧ v_admin_q s = AqNull ∧ v_admin_refs s = 0.

Lemma put_spec Q s : v_dev s = true → 2 ≤ v_refs s → Q tt (s<{v_refs := v_refs s - 1}>) → wp nvme_put_ctrl Q s.
Proof.
  intros Hd Hr HQ. rw /nvme_put_ctrl. destruct s. dl_norm. subst. do 6 dl_step.
  rw (_ : (v_refs - 1 <? 0) = false); [|lia]. rw (_ : (v_refs - 1 =? 0) = false); [|lia]. by dl_step.
Qed.

Lemma put_last_spec s : removed s → v_refs s = 1 →
  wp nvme_put_ctrl (λ _ s', nothing s' ∧ v_phase s' = PGone ∧ owed s' = owed s) s.
Proof.
  intros [Hh Hf Hi Hc Ha] Hr. rw /nvme_put_ctrl /nvme_free_ctrl /nvme_pci_free_ctrl /nvme_dbbuf_dma_free /nvme_free_tagset /blk_put_queue.
  destruct s. dl_norm. injection Hh as ??????. injection Hf as ???????????. subst.
  do 6 dl_step. change (1 - 1 <? 0) with false. change (1 - 1 =? 0) with true. cbv iota. destruct Ha as [[-> ->]|[-> ->]].
  - dl_steps. done.
  - dl_steps; done.
Qed.

Lemma get_spec Q s : v_dev s = true → Q tt (s<{v_refs := v_refs s + 1}>) → wp nvme_get_ctrl Q s.
Proof. intros Hd HQ. rw /nvme_get_ctrl. destruct s. dl_norm. subst. by dl_steps. Qed.

(** ** Probing *)

Definition probed (s : dl) : Prop :=
  bound s ∧ dyn s ∧ down s ∧ v_refs s = 2 ∧ v_probing s = true ∧ v_dying s = false ∧ v_opens s = 0 ∧ v_phase s = PLive.

Definition unprobed (s : dl) : Prop := nothing s ∧ v_phase s = PNone ∧ v_probing s = false ∧ v_dying s = false ∧ v_opens s = 0.

Lemma probe_spec s : unprobed s → wp nvme_probe (λ r s', r = 0 ∧ probed s' ∨ r ≠ 0 ∧ unprobed s') s.
Proof.
  intros ((Hh & Hh2 & Hc & Hi & Hq & Hr) & Hp & Hpr & Hdy & Ho). pose proof law_len as Hl.
  rw /nvme_probe /kzalloc_dev /probe_release_mempool /probe_release_pools /probe_unmap /probe_put_pci /probe_free
    /nvme_dev_map /nvme_remap_bar /nvme_dev_unmap /nvme_setup_prp_pools /nvme_release_prp_pools /snvme_init_ctrl.
  destruct s. dl_norm. injection Hh as ????????????. injection Hh2 as ?????????. subst.
  dl_steps; try (by right). left. split; [done|]. split_and!; try done.
  split; dl_norm; [done|by left|done|lia|set_solver].
Qed.

(** ** Removal *)

(** After a reference out of [n] was put on a device that is removed. *)
Definition put_done (s : dl) (n : Z) (s' : dl) : Prop :=
  owed s' = owed s ∧
  (n = 1 ∧ nothing s' ∧ v_phase s' = PGone ∨ 2 ≤ n ∧ removed s' ∧ v_phase s' = PRemoved ∧ v_refs s' = n - 1).

Lemma put_removed_spec s : removed s → v_phase s = PRemoved → 1 ≤ v_refs s → wp nvme_put_ctrl (λ _, put_done s (v_refs s)) s.
Proof.
  intros Hr Hp Hn. destruct (decide (v_refs s = 1)) as [H1|].
  - eapply wp_mono; [by apply put_last_spec|]. intros [] s' (? & ? & ?). split; [done|]. by left.
  - pose proof (rm_held _ Hr) as Hh. apply put_spec; [by injection Hh|lia|]. split; [done|]. right. split; [lia|].
    split; [|done]. destruct Hr. destruct s. by split.
Qed.

Lemma remove_tail_spec s : dyn s → 1 ≤ v_refs s → v_drvdata s = false →
  (v_dev s, v_queues s, v_devref s, v_regions s, v_page_pool s, v_small_pool s, v_mempool s, v_discard s, v_instance s,
   v_cdev s) = (true, true, true, true, true, true, true, true, true, true) →
  wp (nvme_dev_disable true;; discard v_attrs;; discard v_host_mem;; nvme_dev_remove_admin;; nvme_free_queues 0;;
      nvme_release_prp_pools;; nvme_dev_unmap;; modify (λ s, s<{v_phase := PRemoved}>);; snvme_uninit_ctrl)
    (λ _, put_done s (v_refs s)) s.
Proof.
  intros Hd Hn Hdr Hh. pose proof Hd as [Hb Ha He Hc Hi]. apply wp_bind, dev_disable_spec; [done|]. intros o c t. clear Hd Hi.
  rw /nvme_dev_remove_admin /nvme_release_prp_pools /nvme_dev_unmap /snvme_uninit_ctrl. rw /admin_ok in Ha.
  destruct s. dl_norm. injection Hh as ??????????. subst. destruct Ha as [(-> & -> & ->)|(-> & -> & ->)].
  - dl_steps. apply free_queues_spec; dl_norm; [lia|set_solver|]. dl_steps; [|done].
    eapply wp_mono; [apply put_removed_spec; [|done|done]|done]. split; dl_norm; try done. by left.
  - dl_steps. apply free_queues_spec; dl_norm; [lia|set_solver|]. dl_steps; [|done].
    eapply wp_mono; [apply put_removed_spec; [|done|done]|done]. split; dl_norm; try done. by right.
Qed.

Lemma remove_spec_dl s : bound s → dyn s → 1 ≤ v_refs s → wp nvme_remove (λ _, put_done s (v_refs s)) s.
Proof.
  intros Hbd Hd Hn. rw /nvme_remove. rw /bound in Hbd. destruct s. dl_norm. injection Hbd as ???????????. subst.
  do 7 dl_step. destruct (f_yes _); cbn [negb when].
  - dl_step. eapply wp_mono; [apply remove_tail_spec; [|done..]|done]. by destruct Hd; split.
  - apply dev_disable_spec; [by destruct Hd; split|]. intros o c t. dl_norm.
    eapply wp_mono; [apply remove_tail_spec; [|done..]|done]. by destruct Hd; split; dl_norm.
Qed.

(** ** All events *)

Definition dinv (s : dl) : Prop :=
  0 ≤ v_opens s ∧
  match v_phase s with
  | PNone => unprobed s
  | PLive => bound s ∧ dyn s ∧ (v_cc s = false → down s) ∧ v_dying s = false ∧ v_refs s = 1 + pending s
  | PDown => bound s ∧ dyn s ∧ v_refs s = 1 + pending s
  | PRemoved => removed s ∧ v_refs s = pending s ∧ 1 ≤ v_refs s
  | PGone => nothing s ∧ pending s = 0
  end.

Lemma c_bool_nonneg b : 0 ≤ c_bool b ≤ 1.
Proof. by destruct b. Qed.

(** A reference of a removed or bound device is put; [s] no longer counts it. *)
Lemma put_ctrl_inv s : 0 ≤ v_opens s →
  match v_phase s with
  | PLive => bound s ∧ dyn s ∧ (v_cc s = false → down s) ∧ v_dying s = false ∧ v_refs s = 2 + pending s
  | PDown => bound s ∧ dyn s ∧ v_refs s = 2 + pending s
  | PRemoved => removed s ∧ v_refs s = 1 + pending s
  | _ => False
  end → wp nvme_put_ctrl (λ _, dinv) s.
Proof.
  intros Ho Hs. assert (0 ≤ pending s) as Hp.
  { rw /pending. pose proof (c_bool_nonneg (v_probing s)). pose proof (c_bool_nonneg (v_dying s)). lia. }
  destruct (v_phase s) eqn:Hph; [done|..|done].
  - destruct Hs as (Hb & Hd & Hcc & Hdy & Hr). pose proof Hb as [= Hdev _ _ _ _ _ _ _ _ _ _]. apply put_spec; [done|lia|].
    split; [done|]. destruct s. rw /bound /down /pending in Hb, Hcc, Hr, Hp |- *. dl_norm. subst.
    split; [done|]. split; [by destruct Hd; split|]. split_and!; [done..|lia].
  - destruct Hs as (Hb & Hd & Hr). pose proof Hb as [= Hdev _ _ _ _ _ _ _ _ _ _]. apply put_spec; [done|lia|].
    split; [done|]. destruct s. rw /bound /pending in Hb, Hr, Hp |- *. dl_norm. subst.
    split; [done|]. split; [by destruct Hd; split|lia].
  - destruct Hs as (Hrm & Hr). eapply wp_mono; [apply put_removed_spec; [done..|lia]|].
    intros [] s' [[= Hpr Hdy Hop] Hput]. rw /dinv /pending Hpr Hdy Hop. rw /pending in Hr, Hp.
    destruct Hput as [(Hn & Hno & ->)|(Hn & Hrm' & -> & Hr')]; (split; [lia|]); split_and!; try done; lia.
Qed.

Lemma remove_dead_spec s : bound s → dyn s → v_dying s = false →
  wp nvme_remove_dead_ctrl (λ _ s', bound s' ∧ dyn s' ∧ v_refs s' = v_refs s + 1 ∧ owed s' = (v_probing s, true, v_opens s)) s.
Proof.
  intros Hb Hd Hdy. rw /nvme_remove_dead_ctrl. rw /bound in Hb |- *. dl_step.
  apply get_spec; [by injection Hb|]. dl_step. apply dev_disable_spec; [by destruct Hd; destruct s; split|].
  intros o c t. pose proof (dyn_admin _ Hd) as Ha. destruct Hd as [H1 H2 H3 H4 H5]. destruct s. dl_norm. subst. dl_steps.
  split_and!; [done| |done..]. split; dl_norm; [done..|set_solver].
Qed.

Lemma reset_work_inv s : v_phase s = PLive → dinv s → wp nvme_reset_work (λ _, dinv) s.
Proof.
  intros Hph [Ho Hi]. rw Hph in Hi. destruct Hi as (Hb & Hd & Hcc & Hdy & Hr). rw /nvme_reset_work.
  pose proof Hb as [= Hdev _ _ _ _ _ _ _ _ _ _]. dl_step. dl_step. dl_step.
  eapply wp_mono; [by apply reset_body_spec|]. intros r s1 [[F1 D1] C1].
  assert (bound s1 ∧ v_phase s1 = PLive ∧ v_dying s1 = false ∧ v_refs s1 = 1 + pending s1 ∧ 0 ≤ v_opens s1) as (B1 & P1 & Y1 & R1 & O1).
  { rw /bound /pending in Hb, Hr |- *. injection F1 as ????????????????. split_and!; congruence. }
  destruct (c_true r) eqn:Hr0.
  - dl_step. eapply wp_mono; [by apply remove_dead_spec|]. intros [] s2 (B2 & D2 & R2 & [= Op Od Oo]).
    dl_step. dl_step. dl_step. destruct s2. rw /dinv /bound /pending in B2, R1, R2, O1, Op, Od, Oo |- *. dl_norm. subst.
    split; [lia|]. split; [done|]. split; [by destruct D2; split|]. rw R1 Y1. cbn [c_bool]. lia.
  - dl_step. split; [done|]. rw P1. split_and!; [done..| |done|done]. intros Hf. rw (C1 (c_true_false _ Hr0)) in Hf. done.
Qed.

Lemma remove_event_inv s : 0 ≤ v_opens s → bound s → dyn s → v_refs s = 1 + pending s → wp nvme_remove (λ _, dinv) s.
Proof.
  intros Ho Hb Hd Hr. assert (0 ≤ pending s) as Hp.
  { rw /pending. pose proof (c_bool_nonneg (v_probing s)). pose proof (c_bool_nonneg (v_dying s)). lia. }
  eapply wp_mono; [apply remove_spec_dl; [done..|lia]|]. intros [] s' [[= Op Od Oo] Hput]. rw /dinv /pending Op Od Oo.
  rw /pending in Hr, Hp. destruct Hput as [(Hn & Hno & ->)|(Hn & Hrm' & -> & Hr')]; (split; [lia|]); split_and!; try done; lia.
Qed.

Lemma dead_work_inv s : v_dying s = true → dinv s → wp nvme_remove_dead_ctrl_work (λ _, dinv) s.
Proof.
  intros Hdy [Ho Hi]. rw /nvme_remove_dead_ctrl_work. destruct (v_phase s) eqn:Hph.
  - destruct Hi as (_ & _ & _ & ? & _). congruence.
  - destruct Hi as (_ & _ & _ & ? & _). congruence.
  - destruct Hi as (Hb & Hd & Hr). rw /bound /pending in Hb, Hr. destruct s. dl_norm. injection Hb as ???????????. revert Hr. subst. intros Hr.
    do 6 dl_step. cbn [when]. pose proof (c_bool_nonneg v_probing) as Hpr. cbn [c_bool] in Hr. dl_step.
    eapply wp_mono; [apply remove_spec_dl; [done|by destruct Hd; split|dl_norm; lia]|].
    intros [] s' [[= Op Od Oo] Hput]. dl_norm. apply put_ctrl_inv; [lia|].
    destruct Hput as [(Hn & _)|(Hn & Hrm' & -> & Hr')]; [lia|]. split; [done|]. rw /pending Op Od Oo. cbn [c_bool]. lia.
  - destruct Hi as (Hrm & Hr & Hr1). pose proof (rm_held _ Hrm) as [= Hdev _ _ _ _ _]. pose proof (rm_free _ Hrm) as [= Hdr _ _ _ _ _ _ _ _ _ _].
    destruct s. rw /pending in Hr. dl_norm. revert Hr. subst. intros Hr. do 7 dl_step. cbn [when]. dl_step. apply put_ctrl_inv; [done|]. dl_norm.
    split; [by destruct Hrm; split|]. rw /pending. dl_norm. cbn [c_bool] in *. lia.
  - destruct Hi as (_ & Hp). rw /pending Hdy in Hp. pose proof (c_bool_nonneg (v_probing s)). cbn [c_bool] in Hp. lia.
Qed.

Lemma async_inv s : v_probing s = true → dinv s → wp nvme_async_probe (λ _, dinv) s.
Proof.
  intros Hpr [Ho Hi]. rw /nvme_async_probe. dl_step. dl_step. apply put_ctrl_inv; [by destruct s|].
  destruct s. rw /pending /bound /down /unprobed in Hi |- *. dl_norm. subst. cbn [c_bool] in *. destruct v_phase.
  - by destruct Hi as (_ & _ & ? & _).
  - destruct Hi as (? & Hd & ? & ? & ?). split_and!; [done|by destruct Hd; split|done|done|lia].
  - destruct Hi as (? & Hd & ?). split_and!; [done|by destruct Hd; split|lia].
  - destruct Hi as (Hrm & ? & ?). split; [by destruct Hrm; split|lia].
  - destruct Hi as (_ & ?). pose proof (c_bool_nonneg v_dying). lia.
Qed.

Lemma disable_inv shutdown s : v_phase s = PLive → dinv s → wp (nvme_dev_disable shutdown) (λ _, dinv) s.
Proof.
  intros Hph [Ho Hi]. rw Hph in Hi. destruct Hi as (Hb & Hd & Hcc & Hdy & Hr). apply dev_disable_spec; [done|].
  intros o c t. destruct Hd. rw /dinv /bound /pending in Hb, Hr |- *. destruct s. dl_norm. subst.
  split; [done|]. split_and!; [done| |done..]. split; dl_norm; [done..|set_solver].
Qed.

Lemma open_inv s : v_cdev s = true → dinv s →
  wp (nvme_get_ctrl;; modify (λ s, s<{v_opens := v_opens s + 1}>)) (λ _, dinv) s.
Proof.
  intros Hcd [Ho Hi]. destruct s. rw /dinv /bound /pending in Hi |- *. dl_norm. destruct v_phase.
  - by destruct Hi as ((Hh & _) & _); injection Hh; intros; subst.
  - destruct Hi as (Hb & Hd & Hcc & Hdy & Hr). pose proof Hb as [= -> _ _ _ _ _ _ _ _ _ _].
    dl_step. apply get_spec; [done|]. dl_step. split; [lia|]. split_and!; [done|by destruct Hd; split|done|done|lia].
  - destruct Hi as (Hb & Hd & Hr). pose proof Hb as [= -> _ _ _ _ _ _ _ _ _ _].
    dl_step. apply get_spec; [done|]. dl_step. split; [lia|]. split_and!; [done|by destruct Hd; split|lia].
  - destruct Hi as ([_ Hf _ _ _] & _). injection Hf. intros. subst. done.
  - destruct Hi as ((Hh & _) & _). injection Hh. intros. subst. done.
Qed.

Lemma close_inv s : 0 < v_opens s → dinv s →
  wp (modify (λ s, s<{v_opens := v_opens s - 1}>);; nvme_put_ctrl) (λ _, dinv) s.
Proof.
  intros Hop [Ho Hi]. dl_step. dl_step. apply put_ctrl_inv; [destruct s; dl_norm; lia|].
  destruct s. rw /pending /bound /down /unprobed in Hi |- *. dl_norm. destruct v_phase.
  - destruct Hi as (_ & _ & _ & _ & ?). lia.
  - destruct Hi as (? & Hd & ? & ? & ?). split_and!; [done|by destruct Hd; split|done|done|lia].
  - destruct Hi as (? & Hd & ?). split_and!; [done|by destruct Hd; split|lia].
  - destruct Hi as (Hrm & ? & ?). split; [by destruct Hrm; split|lia].
  - destruct Hi as (_ & ?). pose proof (c_bool_nonneg v_dying). pose proof (c_bool_nonneg v_probing). lia.
Qed.

Lemma bound_inv s : v_drvdata s = true → dinv s → bound s ∧ dyn s ∧ v_refs s = 1 + pending s.
Proof.
  intros Hdr [_ Hi]. destruct (v_phase s).
  - destruct Hi as ((Hh & _) & _). injection Hh. intros. congruence.
  - by destruct Hi as (? & ? & _ & _ & ?).
  - done.
  - destruct Hi as ([_ Hf _ _ _] & _). injection Hf. intros. congruence.
  - destruct Hi as ((Hh & _) & _). injection Hh. intros. congruence.
Qed.

Lemma run_dop_inv o s : dinv s → may o s = true →
  wp (run_dop o) (λ r s', dinv s' ∧ (o = DProbe → r ≠ 0 → nothing s')) s.
Proof.
  intros Hinv Hmay.
  assert (∀ m : K dl unit, o ≠ DProbe → wp m (λ _, dinv) s →
    wp (m;; mret 0) (λ r s', dinv s' ∧ (o = DProbe → r ≠ 0 → nothing s')) s) as Hret.
  { intros m Ho Hm. apply wp_bind. eapply wp_mono; [exact Hm|]. intros [] s' ?. by apply wp_ret. }
  destruct o; cbn [run_dop may] in *.
  - pose proof Hinv as [_ Hi]. destruct (v_phase s); try done. eapply wp_mono; [by apply probe_spec|].
    intros r s' [[-> (Hb & Hd & Hdn & Hr & Hpr & Hdy & Hop & Hph')]|[Hr (Hn & Hph' & Hpr & Hdy & Hop)]].
    + split; [|done]. split; [lia|]. rw Hph'. split_and!; [done..|]. by rw Hr /pending Hpr Hdy Hop.
    + split; [|done]. split; [lia|]. by rw Hph'.
  - by apply Hret, async_inv.
  - destruct (v_phase s) eqn:Hph; try done. eapply wp_mono; [by apply reset_work_inv|]. by intros.
  - destruct (v_phase s) eqn:Hph; try done. by apply Hret, disable_inv.
  - apply wp_assoc. eapply wp_mono; [by apply open_inv|]. intros [] s' ?. by apply wp_ret.
  - apply wp_assoc. eapply wp_mono; [apply close_inv; [lia|done]|]. intros [] s' ?. by apply wp_ret.
  - destruct (bound_inv s Hmay Hinv) as (? & ? & ?). apply Hret; [done|]. by apply remove_event_inv; [apply Hinv|..].
  - by apply Hret, dead_work_inv.
Qed.

Lemma dreach_inv s : dreach s → dinv s.
Proof.
  induction 1 as [|s o r s' _ IH Ha Hr]; [done|]. by destruct (run_wp _ _ _ _ _ Hr (run_dop_inv o s IH Ha)).
Qed.
End specs.

Lemma run_dreach {E : dl_env} os s s' : dreach s → run_dops os s = Some s' → dreach s'.
Proof.
  revert s. induction os as [|o os IH]; intros s Hs Hr; [by injection Hr as <-|]. cbn [run_dops] in Hr.
  destruct (may o s) eqn:Ha; [|done]. destruct (run_dop o s) as [[r s1]|] eqn:H1; [|done].
  by apply (IH s1); [apply (dreach_step s o r)|].
Qed.
