(* ===== verification/NsIdent.v ===== *)
(** * What identifies a namespace (core.c)

    The identifiers of a namespace come in two ways: as a list of descriptors,
    parsed from a page the controller fills, and as fields of the namespace's
    Identify data.  A read beyond the page is undefined ([None]). *)
From S2P Require Import Prelude.

Definition NVME_IDENTIFY_DATA_SIZE : Z := 4096.
Definition NVME_NIDT_EUI64 : Z := 1.
Definition NVME_NIDT_NGUID : Z := 2.
Definition NVME_NIDT_UUID : Z := 3.
Definition NVME_NIDT_CSI : Z := 4.
Definition NVME_NIDT_EUI64_LEN : Z := 8.
Definition NVME_NIDT_NGUID_LEN : Z := 16.
Definition NVME_NIDT_UUID_LEN : Z := 16.
Definition NVME_NIDT_CSI_LEN : Z := 1.
Definition NVME_CSI_NVM : Z := 0.
Definition NVME_CSI_ZNS : Z := 2.
Definition NVME_SC_INVALID_NS : Z := 0xb.
Definition NVME_SC_DNR : Z := 0x4000.
Definition NVME_QUIRK_IDENTIFY_CNS : Z := 2.                (* 1 << 1 *)
Definition NVME_QUIRK_NO_NS_DESC_LIST : Z := 2 ^ 15.
Definition DESC_HEAD : Z := 4.                              (* sizeof(struct nvme_ns_id_desc) *)
Definition NVME_VS (major minor tertiary : Z) : Z :=
  Z.lor (Z.lor (Z.shiftl major 16) (Z.shiftl minor 8)) tertiary.

Record nvme_ns_ids := NsIds { ni_eui64 : list Z; ni_nguid : list Z; ni_uuid : list Z; ni_csi : Z }.
#[export] Instance eta_ns_ids : Settable nvme_ns_ids := λ x, NsIds (ni_eui64 x) (ni_nguid x) (ni_uuid x) (ni_csi x).
#[export] Instance nvme_ns_ids_eq_dec : EqDecision nvme_ns_ids.
Proof. solve_decision. Defined.
(** [struct nvme_ns_ids ids = {}]. *)
Definition no_ids : nvme_ns_ids := NsIds (replicate 8 0) (replicate 16 0) (replicate 16 0) 0.

Record nvme_lbaf := Lbaf { lf_ms : Z; lf_ds : Z }.
Record nvme_id_ns := IdNs {
  id_nsze : Z; id_ncap : Z; id_nsfeat : Z; id_flbas : Z; id_dps : Z; id_nmic : Z; id_nawupf : Z; id_nabo : Z;
  id_noiob : Z; id_npwg : Z; id_nows : Z; id_nsattr : Z; id_nguid : list Z; id_eui64 : list Z; id_lbaf : list nvme_lbaf;
}.

(** [memchr_inv(p, 0, n)] finds nothing. *)
Definition all_zero (l : list Z) : bool := forallb (Z.eqb 0) l.

Definition nvme_ns_ids_valid (ids : nvme_ns_ids) : bool :=
  negb (all_zero (ni_uuid ids)) || negb (all_zero (ni_nguid ids)) || negb (all_zero (ni_eui64 ids)).

Definition nvme_ns_ids_equal (a b : nvme_ns_ids) : bool :=
  bool_decide (ni_uuid a = ni_uuid b) && bool_decide (ni_nguid a = ni_nguid b) &&
  bool_decide (ni_eui64 a = ni_eui64 b) && (ni_csi a =? ni_csi b).

Lemma nvme_ns_ids_equal_spec a b : nvme_ns_ids_equal a b = true ↔ a = b.
Proof.
  rw /nvme_ns_ids_equal !andb_true_iff !bool_decide_eq_true Z.eqb_eq.
  destruct a, b; simpl. naive_solver.
Qed.

Definition nvme_ctrl_limited_cns (vs quirks : Z) : bool :=
  if c_true (Z.land quirks NVME_QUIRK_IDENTIFY_CNS) then vs <? NVME_VS 1 2 0 else vs <? NVME_VS 1 1 0.

(** ** The descriptor list *)

Definition byte_at (data : list Z) (i : Z) : option Z := if i <? 0 then None else data !! Z.to_nat i.
(** [memcpy(dst, data + off, n)]. *)
Definition bytes_at (data : list Z) (off n : Z) : option (list Z) :=
  if (0 <=? off) && (off + n <=? Z.of_nat (length data)) then Some (take (Z.to_nat n) (drop (Z.to_nat off) data)) else None.

(** The length returned, the identifiers, and [*csi_seen]. *)
Definition nvme_process_ns_desc (data : list Z) (pos : Z) (ids : nvme_ns_ids) (csi_seen : bool) :
    option (Z * nvme_ns_ids * bool) :=
  nidt ← byte_at data pos;
  nidl ← byte_at data (pos + 1);
  let body := pos + DESC_HEAD in
  if nidt =? NVME_NIDT_EUI64 then
    if negb (nidl =? NVME_NIDT_EUI64_LEN) then Some (-1, ids, csi_seen) else
    v ← bytes_at data body NVME_NIDT_EUI64_LEN; Some (NVME_NIDT_EUI64_LEN, ids<{ni_eui64 := v}>, csi_seen)
  else if nidt =? NVME_NIDT_NGUID then
    if negb (nidl =? NVME_NIDT_NGUID_LEN) then Some (-1, ids, csi_seen) else
    v ← bytes_at data body NVME_NIDT_NGUID_LEN; Some (NVME_NIDT_NGUID_LEN, ids<{ni_nguid := v}>, csi_seen)
  else if nidt =? NVME_NIDT_UUID then
    if negb (nidl =? NVME_NIDT_UUID_LEN) then Some (-1, ids, csi_seen) else
    v ← bytes_at data body NVME_NIDT_UUID_LEN; Some (NVME_NIDT_UUID_LEN, ids<{ni_uuid := v}>, csi_seen)
  else if nidt =? NVME_NIDT_CSI then
    if negb (nidl =? NVME_NIDT_CSI_LEN) then Some (-1, ids, csi_seen) else
    v ← byte_at data body; Some (NVME_NIDT_CSI_LEN, ids<{ni_csi := v}>, true)
  else Some (nidl, ids, csi_seen).

(** The loop of [nvme_identify_ns_descs].  A pass moves on by five bytes or more,
    so [DESC_FUEL] of them reach the end of the page. *)
Fixpoint ns_descs_loop (fuel : nat) (data : list Z) (pos : Z) (ids : nvme_ns_ids) (csi_seen : bool) :
    option (nvme_ns_ids * bool) :=
  match fuel with
  | O => None
  | S fuel =>
    if pos <? NVME_IDENTIFY_DATA_SIZE then
      nidl ← byte_at data (pos + 1);
      if nidl =? 0 then Some (ids, csi_seen) else
      '(len, ids, csi_seen) ← nvme_process_ns_desc data pos ids csi_seen;
      if len <? 0 then Some (ids, csi_seen) else
      ns_descs_loop fuel data (pos + (len + DESC_HEAD)) ids csi_seen
    else Some (ids, csi_seen)
  end.
Definition DESC_FUEL : nat := 821.

(** [multi_css] is [nvme_multi_css(ctrl)], [alloc] whether the page can be
    allocated, [answer] the status of the Identify command and the page it fills.  The result
    has the status and the identifiers found, also after an error. *)
Definition nvme_identify_ns_descs (vs quirks : Z) (multi_css alloc : bool) (answer : Z * list Z) (ids : nvme_ns_ids) :
    option (Z * nvme_ns_ids) :=
  if (vs <? NVME_VS 1 3 0) && negb multi_css then Some (0, ids) else
  if c_true (Z.land quirks NVME_QUIRK_NO_NS_DESC_LIST) then Some (0, ids) else
  if negb alloc then Some (- ENOMEM, ids) else
  let '(status, data) := answer in
  if c_true status then Some (status, ids) else
  '(ids, csi_seen) ← ns_descs_loop DESC_FUEL data 0 ids false;
  Some (if multi_css && negb csi_seen then - EINVAL else status, ids).

(** ** The Identify data *)

(** The error and the identifiers; with error 0 the data of [answer] is [*id]. *)
Definition nvme_identify_ns (vs : Z) (alloc : bool) (answer : Z * nvme_id_ns) (ids : nvme_ns_ids) :
    Z * nvme_ns_ids :=
  if negb alloc then (- ENOMEM, ids) else
  let '(error, id) := answer in
  if c_true error then (error, ids) else
  if id_ncap id =? 0 then (Z.lor NVME_SC_INVALID_NS NVME_SC_DNR, ids) else
  let ids := if (NVME_VS 1 1 0 <=? vs) && all_zero (ni_eui64 ids) then ids<{ni_eui64 := id_eui64 id}> else ids in
  let ids := if (NVME_VS 1 2 0 <=? vs) && all_zero (ni_nguid ids) then ids<{ni_nguid := id_nguid id}> else ids in
  (0, ids).

(** ** What a well-formed list says *)

Inductive ns_desc :=
  | DEui64 (v : list Z)
  | DNguid (v : list Z)
  | DUuid (v : list Z)
  | DCsi (v : Z)
  | DOther (nidt : Z) (v : list Z).

Definition desc_ok (d : ns_desc) : Prop :=
  match d with
  | DEui64 v => length v = 8%nat
  | DNguid v | DUuid v => length v = 16%nat
  | DCsi _ => True
  | DOther t v => (t <= 0 ∨ 5 <= t) ∧ (1 ≤ length v ≤ 255)%nat
  end.

Definition desc_type (d : ns_desc) : Z :=
  match d with
  | DEui64 _ => NVME_NIDT_EUI64 | DNguid _ => NVME_NIDT_NGUID | DUuid _ => NVME_NIDT_UUID | DCsi _ => NVME_NIDT_CSI
  | DOther t _ => t
  end.
Definition desc_body (d : ns_desc) : list Z :=
  match d with DEui64 v | DNguid v | DUuid v | DOther _ v => v | DCsi c => [c] end.
Definition encode_desc (d : ns_desc) : list Z :=
  desc_type d :: Z.of_nat (length (desc_body d)) :: 0 :: 0 :: desc_body d.
Definition encode_descs (ds : list ns_desc) : list Z := concat (map encode_desc ds).

Definition apply_desc (st : nvme_ns_ids * bool) (d : ns_desc) : nvme_ns_ids * bool :=
  let '(ids, seen) := st in
  match d with
  | DEui64 v => (ids<{ni_eui64 := v}>, seen)
  | DNguid v => (ids<{ni_nguid := v}>, seen)
  | DUuid v => (ids<{ni_uuid := v}>, seen)
  | DCsi c => (ids<{ni_csi := c}>, true)
  | DOther _ _ => (ids, seen)
  end.

Lemma byte_at_app (l : list Z) r i :
  0 ≤ i → byte_at (l ++ r) (Z.of_nat (length l) + i) = byte_at r i.
Proof.
  intros Hi. rw /byte_at. destruct (Z.ltb_spec (Z.of_nat (length l) + i) 0); [lia|].
  destruct (Z.ltb_spec i 0); [lia|]. rw lookup_app_r; [|lia]. f_equal. lia.
Qed.
Lemma bytes_at_app (l : list Z) v r :
  bytes_at (l ++ v ++ r) (Z.of_nat (length l)) (Z.of_nat (length v)) = Some v.
Proof.
  rw /bytes_at !length_app. destruct (Z.leb_spec 0 (Z.of_nat (length l))); [|lia].
  destruct (Z.leb_spec (Z.of_nat (length l) + Z.of_nat (length v)) (Z.of_nat (length l + (length v + length r)))); [|lia].
  simpl. by rw !Nat2Z.id drop_app_length take_app_length.
Qed.

(** One descriptor, wherever it stands. *)
Lemma process_desc (l r : list Z) d ids seen :
  desc_ok d →
  nvme_process_ns_desc (l ++ encode_desc d ++ r) (Z.of_nat (length l)) ids seen =
  let '(ids', seen') := apply_desc (ids, seen) d in Some (Z.of_nat (length (desc_body d)), ids', seen').
Proof.
  intros Hd. rw /nvme_process_ns_desc.
  assert (byte_at (l ++ encode_desc d ++ r) (Z.of_nat (length l)) = Some (desc_type d)) as ->.
  { rw -(Z.add_0_r (Z.of_nat (length l))) byte_at_app //. }
  assert (byte_at (l ++ encode_desc d ++ r) (Z.of_nat (length l) + 1) = Some (Z.of_nat (length (desc_body d)))) as ->.
  { rw byte_at_app //. }
  assert (∀ v n, desc_body d = v → n = Z.of_nat (length v) →
    bytes_at (l ++ encode_desc d ++ r) (Z.of_nat (length l) + DESC_HEAD) n = Some v) as Hb.
  { intros v n Hv ->. rw /encode_desc Hv.
    pose proof (bytes_at_app (l ++ [desc_type d; Z.of_nat (length v); 0; 0]) v r) as H.
    rw length_app Nat2Z.inj_add -!app_assoc in H. exact H. }
  rw /mbind /option_bind. cbv zeta.
  destruct d as [v|v|v|c|t v]; simpl in Hd.
  - cbn [desc_type desc_body apply_desc]. rw Hd (Hb v NVME_NIDT_EUI64_LEN) //. by rw Hd.
  - cbn [desc_type desc_body apply_desc]. rw Hd (Hb v NVME_NIDT_NGUID_LEN) //. by rw Hd.
  - cbn [desc_type desc_body apply_desc]. rw Hd (Hb v NVME_NIDT_UUID_LEN) //. by rw Hd.
  - cbn -[byte_at]. by rw /DESC_HEAD byte_at_app.
  - destruct Hd as [Ht Hv]. cbn [desc_type desc_body apply_desc].
    repeat (case: Z.eqb_spec; [rw /NVME_NIDT_EUI64 /NVME_NIDT_NGUID /NVME_NIDT_UUID /NVME_NIDT_CSI; lia|intros _]). done.
Qed.

Lemma desc_body_len d : desc_ok d → (1 ≤ length (desc_body d))%nat.
Proof. destruct d; simpl; lia. Qed.
Lemma length_encode_desc d : length (encode_desc d) = (4 + length (desc_body d))%nat.
Proof. done. Qed.

(** The loop over a list of descriptors that ends in front of [rest]. *)
Lemma ns_descs_loop_app ds : ∀ fuel pre rest ids seen,
  Forall desc_ok ds → Z.of_nat (length (pre ++ encode_descs ds)) ≤ NVME_IDENTIFY_DATA_SIZE →
  ns_descs_loop (length ds + fuel) (pre ++ encode_descs ds ++ rest) (Z.of_nat (length pre)) ids seen =
  let '(ids', seen') := fold_left apply_desc ds (ids, seen) in
  ns_descs_loop fuel (pre ++ encode_descs ds ++ rest) (Z.of_nat (length (pre ++ encode_descs ds))) ids' seen'.
Proof.
  induction ds as [|d ds IH]; intros fuel pre rest ids seen Hok Hlen.
  { by rw /= app_nil_r. }
  apply Forall_cons in Hok as [Hd Hds]. pose proof (desc_body_len d Hd) as Hb.
  change (encode_descs (d :: ds)) with (encode_desc d ++ encode_descs ds) in Hlen |- *.
  specialize (IH fuel (pre ++ encode_desc d) rest (apply_desc (ids, seen) d).1 (apply_desc (ids, seen) d).2 Hds).
  rw -!app_assoc in IH. specialize (IH Hlen).
  rw !length_app in Hlen. rw length_encode_desc in Hlen.
  cbn [length Nat.add ns_descs_loop fold_left].
  destruct (Z.ltb_spec (Z.of_nat (length pre)) NVME_IDENTIFY_DATA_SIZE); [|lia].
  rw -!app_assoc byte_at_app //.
  change (byte_at (encode_desc d ++ encode_descs ds ++ rest) 1) with (Some (Z.of_nat (length (desc_body d)))).
  rw /mbind /option_bind. destruct (Z.eqb_spec (Z.of_nat (length (desc_body d))) 0); [lia|].
  rw process_desc //. destruct (apply_desc (ids, seen) d) as [ids' seen'] eqn:E.
  destruct (Z.ltb_spec (Z.of_nat (length (desc_body d))) 0); [lia|].
  cbn [fst snd] in IH. rw -IH. f_equal. rw length_app length_encode_desc /DESC_HEAD. lia.
Qed.

(** A page with a list of descriptors, padded with zeros.  One byte of padding is
    one too few: the length of the descriptor there would be read behind the page. *)
Definition page_ok (data : list Z) : Prop :=
  ∃ ds k, Forall desc_ok ds ∧ (data = encode_descs ds ++ replicate k 0) ∧ k ≠ 1%nat ∧ length data = 4096%nat.

Lemma descs_number ds : Forall desc_ok ds → (5 * length ds ≤ length (encode_descs ds))%nat.
Proof.
  induction 1 as [|d ds Hd _ IH]; [done|]. change (encode_descs (d :: ds)) with (encode_desc d ++ encode_descs ds).
  rw length_app length_encode_desc /=. pose proof (desc_body_len d Hd). lia.
Qed.

(** The whole page is read, descriptor by descriptor. *)
Lemma ns_descs_parsed ds k ids seen :
  Forall desc_ok ds → length (encode_descs ds ++ replicate k 0) = 4096%nat →
  ns_descs_loop DESC_FUEL (encode_descs ds ++ replicate k 0) 0 ids seen =
  if decide (k = 1%nat) then None else Some (fold_left apply_desc ds (ids, seen)).
Proof.
  intros Hds Hlen. pose proof (descs_number ds Hds) as Hn. rw length_app length_replicate in Hlen.
  assert (DESC_FUEL = length ds + S (DESC_FUEL - length ds - 1))%nat as ->. { rw /DESC_FUEL. lia. }
  pose proof (ns_descs_loop_app ds (S (DESC_FUEL - length ds - 1)) [] (replicate k 0) ids seen Hds) as Hl.
  rw app_nil_l in Hl. rw Hl; [|rw /NVME_IDENTIFY_DATA_SIZE; lia].
  destruct (fold_left apply_desc ds (ids, seen)) as [ids' seen']. rw app_nil_l. cbn [ns_descs_loop].
  destruct (Z.ltb_spec (Z.of_nat (length (encode_descs ds))) NVME_IDENTIFY_DATA_SIZE) as [Hlt|Hge];
    rw /NVME_IDENTIFY_DATA_SIZE in Hlt || rw /NVME_IDENTIFY_DATA_SIZE in Hge; [|by rw decide_False; [|lia]].
  rw byte_at_app //. destruct k as [|[|k]]; [lia|done|]. done.
Qed.
Lemma page_parsed data ids seen : page_ok data → is_Some (ns_descs_loop DESC_FUEL data 0 ids seen).
Proof. intros (ds & k & Hds & -> & Hk & Hl). rw ns_descs_parsed // decide_False //. Qed.
