(* ===== verification/NsDisk.v ===== *)
(** * The block device of a namespace (core.c, zns.c)

    From the Identify data of a namespace the driver works out the block sizes, the
    capacity and the limits of its block device.  The record holds the fields of
    [struct nvme_ns] involved and the values last handed to the block layer; a shift
    by a negative count or by the width of its operand is undefined ([None]). *)
From S2P Require Import Prelude NsIdent.

Definition SECTOR_SHIFT : Z := 9.
Definition PAGE_SHIFT : Z := 12.
Definition USHRT_MAX : Z := 65535.
Definition UINT_MAX : Z := 2 ^ 32 - 1.
Definition NVME_CTRL_PAGE_SIZE : Z := 4096.
Definition T10_PI_TUPLE : Z := 8.                          (* sizeof(struct t10_pi_tuple) *)
Definition NVME_NS_FLBAS_LBA_MASK : Z := 0xf.
Definition NVME_NS_FLBAS_META_EXT : Z := 0x10.
Definition NVME_NS_DPS_PI_MASK : Z := 7.
Definition NVME_NS_FEAT_ATOMICS : Z := 2.
Definition NVME_NS_FEAT_IO_OPT : Z := 16.
Definition NVME_NS_ATTR_RO : Z := 1.
Definition NVME_CTRL_VWC_PRESENT : Z := 1.
Definition NVME_NS_EXT_LBAS : Z := 1.
Definition NVME_NS_METADATA_SUPPORTED : Z := 2.
Definition NVME_F_FABRICS : Z := 1.
Definition NVME_F_METADATA_SUPPORTED : Z := 2.
Definition NVME_QUIRK_STRIPE_SIZE : Z := 1.
Definition NVME_QUIRK_DEALLOCATE_ZEROES : Z := 4.
Definition EPROTONOSUPPORT : Z := 93.

(** What of [struct nvme_ctrl] is used, [ci_max_zone_append] apart. *)
Record ctrl_info := CtrlInfo {
  ci_vs : Z; ci_quirks : Z; ci_flags : Z; ci_max_hw_sectors : Z; ci_max_segments : Z; ci_vwc : Z; ci_awupf : Z;
  ci_nr_streams : Z; ci_max_discard_sectors : Z; ci_max_discard_segments : Z; ci_max_integrity_segments : Z;
}.

Inductive pi_profile := PiType1 | PiType3 | PiNone.
Record integrity := Integrity { in_profile : pi_profile; in_tag_size : Z; in_tuple_size : Z; in_segments : Z }.

Record ns_disk := NsDisk {
  d_lba_shift : Z; d_ms : Z; d_sgs : Z; d_sws : Z; d_pi_type : Z; d_zsze : Z; d_features : Z;
  d_force_ro : bool;                  (* NVME_NS_FORCE_RO *)
  d_ready : bool;                     (* NVME_NS_READY *)
  d_capacity : Z;
  d_logical : Z; d_physical : Z; d_io_min : Z; d_io_opt : Z;
  d_max_hw_sectors : Z; d_max_segments : Z; d_virt_boundary : Z; d_dma_alignment : Z; d_write_cache : bool;
  d_chunk_sectors : Z;
  d_integrity : option integrity;
  d_discard : bool; d_discard_granularity : Z; d_max_discard_sectors : Z; d_max_discard_segments : Z;
  d_max_write_zeroes : Z;
  d_ro : bool;
  d_zoned : bool; d_max_open : Z; d_max_active : Z; d_max_append : Z;
  d_up : bool;                        (* GENHD_FL_UP *)
  d_hidden : bool;                    (* GENHD_FL_HIDDEN *)
}.
#[export] Instance eta_ns_disk : Settable ns_disk := λ x,
  NsDisk (d_lba_shift x) (d_ms x) (d_sgs x) (d_sws x) (d_pi_type x) (d_zsze x) (d_features x) (d_force_ro x) (d_ready x)
    (d_capacity x) (d_logical x) (d_physical x) (d_io_min x) (d_io_opt x) (d_max_hw_sectors x) (d_max_segments x)
    (d_virt_boundary x) (d_dma_alignment x) (d_write_cache x) (d_chunk_sectors x) (d_integrity x) (d_discard x)
    (d_discard_granularity x) (d_max_discard_sectors x) (d_max_discard_segments x) (d_max_write_zeroes x) (d_ro x)
    (d_zoned x) (d_max_open x) (d_max_active x) (d_max_append x) (d_up x) (d_hidden x).

(** A disk as [blk_mq_alloc_disk] hands it out. *)
Definition new_disk : ns_disk :=
  NsDisk 0 0 0 0 0 0 0 false false 0 0 0 0 0 0 0 0 0 false 0 None false 0 0 0 0 false false 0 0 0 false false.

(** What is answered during one call: the stream parameters, whether Zone Append
    is in the effects log, the allocations and Identify commands of zns.c, and
    [blk_revalidate_disk_zones]. *)
Record info_answers := InfoAnswers {
  a_streams : Z * (Z * Z);            (* status; sws, sgs *)
  a_append_supported : bool;
  a_append_alloc : bool; a_append : Z * Z;                  (* status; zasl *)
  a_zone_alloc : bool; a_zone : Z * (Z * Z * Z * Z);        (* status; zoc, lbafe[lbaf].zsze, mor, mar *)
  a_revalidate : Z;
}.

(** Shifts to the left of an unsigned 64-bit integer and of an int. *)
Definition shl64 (v n : Z) : option Z := if (0 <=? n) && (n <? 64) then Some (u64 (Z.shiftl v n)) else None.
Definition shl32 (v n : Z) : option Z := if (0 <=? n) && (n <? 31) then Some (Z.shiftl v n) else None.
Definition is_power_of_2 (n : Z) : bool := negb (n =? 0) && (Z.land n (n - 1) =? 0).
Definition min_not_zero (a b : Z) : Z := if a =? 0 then b else if b =? 0 then a else Z.min a b.

Definition nvme_lba_to_sect (d : ns_disk) (lba : Z) : option Z := shl64 lba (d_lba_shift d - SECTOR_SHIFT).
Definition nvme_ns_has_pi (d : ns_disk) : bool := c_true (d_pi_type d) && (d_ms d =? T10_PI_TUPLE).
Definition nvme_first_scan (d : ns_disk) : bool := negb (d_up d).

Section model.
Context (ctrl : ctrl_info) (zoned_kernel integrity_kernel : bool) (a : info_answers).

(** ** Limits of the queue *)

Definition nvme_set_queue_limits (d : ns_disk) : ns_disk :=
  let vwc := c_true (Z.land (ci_vwc ctrl) NVME_CTRL_VWC_PRESENT) in
  let d :=
    if c_true (ci_max_hw_sectors ctrl) then
      let max_segments := u32 (ci_max_hw_sectors ctrl / Z.shiftr NVME_CTRL_PAGE_SIZE 9 + 1) in
      let max_segments := min_not_zero max_segments (ci_max_segments ctrl) in
      d<{d_max_hw_sectors := ci_max_hw_sectors ctrl}><{d_max_segments := Z.min max_segments USHRT_MAX}>
    else d in
  d<{d_virt_boundary := NVME_CTRL_PAGE_SIZE - 1}><{d_dma_alignment := 7}><{d_write_cache := vwc}>.

Definition lbaf_of (id : nvme_id_ns) : option nvme_lbaf :=
  id_lbaf id !! Z.to_nat (Z.land (id_flbas id) NVME_NS_FLBAS_LBA_MASK).

Definition nvme_configure_metadata (id : nvme_id_ns) (d : ns_disk) : option (Z * ns_disk) :=
  lbaf ← lbaf_of id;
  let d := d<{d_ms := lf_ms lbaf}> in
  let d := d<{d_pi_type := if d_ms d =? T10_PI_TUPLE then Z.land (id_dps id) NVME_NS_DPS_PI_MASK else 0}> in
  let d := d<{d_features := Z.ldiff (d_features d) (Z.lor NVME_NS_METADATA_SUPPORTED NVME_NS_EXT_LBAS)}> in
  if (d_ms d =? 0) || negb (c_true (Z.land (ci_flags ctrl) NVME_F_METADATA_SUPPORTED)) then Some (0, d) else
  let ext := c_true (Z.land (id_flbas id) NVME_NS_FLBAS_META_EXT) in
  if c_true (Z.land (ci_flags ctrl) NVME_F_FABRICS) then
    if negb ext then Some (- EINVAL, d) else
    Some (0, if c_true (ci_max_integrity_segments ctrl)
             then d<{d_features := Z.lor (d_features d) (Z.lor NVME_NS_METADATA_SUPPORTED NVME_NS_EXT_LBAS)}> else d)
  else
    Some (0, d<{d_features := Z.lor (d_features d) (if ext then NVME_NS_EXT_LBAS else NVME_NS_METADATA_SUPPORTED)}>).

Definition nvme_set_chunk_sectors (id : nvme_id_ns) (d : ns_disk) : option ns_disk :=
  iob ← (if c_true (Z.land (ci_quirks ctrl) NVME_QUIRK_STRIPE_SIZE) && is_power_of_2 (ci_max_hw_sectors ctrl)
         then Some (ci_max_hw_sectors ctrl) else u32 <$> nvme_lba_to_sect d (id_noiob id));
  if iob =? 0 then Some d else
  if negb (is_power_of_2 iob) then Some d else
  if d_zoned d then Some d else Some d<{d_chunk_sectors := iob}>.

(** ** Block sizes and capacity *)

(** The physical block size and the optimal I/O size the streams ask for. *)
Definition nvme_setup_streams_ns (d : ns_disk) (phys_bs io_opt : Z) : option (ns_disk * Z * Z) :=
  if ci_nr_streams ctrl =? 0 then Some (d, phys_bs, io_opt) else
  let '(ret, (sws, sgs)) := a_streams a in
  if c_true ret then Some (d, phys_bs, io_opt) else
  let d := d<{d_sws := sws}><{d_sgs := sgs}> in
  if c_true sws then
    one ← shl32 1 (d_lba_shift d);
    let phys_bs := u32 (sws * one) in
    Some (d, phys_bs, if c_true sgs then u32 (phys_bs * sgs) else io_opt)
  else Some (d, phys_bs, io_opt).

Definition nvme_init_integrity (ms pi_type max_segments : Z) : integrity :=
  if pi_type =? 3 then Integrity PiType3 6 ms max_segments else
  if (pi_type =? 1) || (pi_type =? 2) then Integrity PiType1 2 ms max_segments else
  Integrity PiNone 0 ms max_segments.

Definition nvme_config_discard (d : ns_disk) : ns_disk :=
  if ci_max_discard_sectors ctrl =? 0 then d<{d_discard := false}> else
  let size := d_logical d in
  let size := if c_true (ci_nr_streams ctrl) && c_true (d_sws d) && c_true (d_sgs d)
              then u32 (size * u32 (d_sws d * d_sgs d)) else size in
  let d' := d<{d_discard_granularity := size}><{d_discard := true}> in
  if d_discard d then d' else
  let d' := d'<{d_max_discard_sectors := ci_max_discard_sectors ctrl}>
              <{d_max_discard_segments := ci_max_discard_segments ctrl}> in
  if c_true (Z.land (ci_quirks ctrl) NVME_QUIRK_DEALLOCATE_ZEROES) then d'<{d_max_write_zeroes := UINT_MAX}> else d'.

(** The unit the controller writes atomically. *)
Definition atomic_size (id : nvme_id_ns) (bs : Z) : Z :=
  if id_nabo id =? 0 then
    if c_true (Z.land (id_nsfeat id) NVME_NS_FEAT_ATOMICS) && c_true (id_nawupf id)
    then u32 ((1 + id_nawupf id) * bs) else u32 ((1 + ci_awupf ctrl) * bs)
  else bs.

Definition nvme_update_disk_info (id : nvme_id_ns) (d : ns_disk) : option ns_disk :=
  capacity ← nvme_lba_to_sect d (id_nsze id);
  one ← shl32 1 (d_lba_shift d);
  let '(capacity, bs) := if PAGE_SHIFT <? d_lba_shift d then (0, Z.shiftl 1 9) else (capacity, u16 one) in
  let d := d<{d_integrity := None}> in
  '(d, phys_bs, io_opt) ← nvme_setup_streams_ns d bs 0;
  let atomic_bs := atomic_size id bs in
  let '(phys_bs, io_opt) :=
    if c_true (Z.land (id_nsfeat id) NVME_NS_FEAT_IO_OPT)
    then (u32 (bs * (1 + id_npwg id)), u32 (bs * (1 + id_nows id))) else (phys_bs, io_opt) in
  let d := d<{d_logical := bs}><{d_physical := Z.min phys_bs atomic_bs}><{d_io_min := phys_bs}><{d_io_opt := io_opt}> in
  let '(d, capacity) :=
    if c_true (d_ms d) then
      if integrity_kernel && c_true (Z.land (d_features d) NVME_NS_METADATA_SUPPORTED)
      then (d<{d_integrity := Some (nvme_init_integrity (d_ms d) (d_pi_type d) (ci_max_integrity_segments ctrl))}>, capacity)
      else (d, if nvme_ns_has_pi d then capacity else 0)
    else (d, capacity) in
  let d := d<{d_capacity := capacity}> in
  let d := nvme_config_discard d in
  let d := d<{d_max_write_zeroes := 0}> in
  Some d<{d_ro := c_true (Z.land (id_nsattr id) NVME_NS_ATTR_RO) || d_force_ro d}>.

(** ** Zones (zns.c) *)

(** The status and the limit. *)
Definition nvme_set_max_append (max_append : Z) : option (Z * Z) :=
  if negb (a_append_alloc a) then Some (- ENOMEM, max_append) else
  let '(status, zasl) := a_append a in
  if c_true status then Some (status, max_append) else
  if c_true zasl then (λ m, (0, m)) <$> shl32 1 (zasl + 3) else Some (0, ci_max_hw_sectors ctrl).

(** [max_append] is [ctrl->max_zone_append]. *)
Definition nvme_update_zone_info (max_append : Z) (d : ns_disk) : option (Z * ns_disk * Z) :=
  if negb zoned_kernel then Some (- EPROTONOSUPPORT, d, max_append) else
  let d := d<{d_force_ro := negb (a_append_supported a)}> in
  '(status, max_append) ← (if c_true max_append then Some (0, max_append) else nvme_set_max_append max_append);
  if c_true status then Some (status, d, max_append) else
  if negb (a_zone_alloc a) then Some (- ENOMEM, d, max_append) else
  let '(status, (zoc, zsze, mor, mar)) := a_zone a in
  if c_true status then Some (status, d, max_append) else
  if c_true zoc then Some (- ENODEV, d, max_append) else
  zsze ← nvme_lba_to_sect d zsze;
  let d := d<{d_zsze := zsze}> in
  if negb (is_power_of_2 zsze) then Some (- ENODEV, d, max_append) else
  Some (0, d<{d_zoned := true}><{d_max_open := u32 (mor + 1)}><{d_max_active := u32 (mar + 1)}>, max_append).

Definition nvme_revalidate_zones (max_append : Z) (d : ns_disk) : Z * ns_disk :=
  if a_revalidate a =? 0 then (0, d<{d_max_append := max_append}>) else (a_revalidate a, d).

(** ** All of it *)

(** The error path: a feature that is not supported hides the block device. *)
Definition hide_unsupported (ret : Z) (d : ns_disk) : Z * ns_disk :=
  if ret =? - ENODEV then (0, d<{d_hidden := true}>) else (ret, d).

(** [csi] is [ns->head->ids.csi].  Without multipath. *)
Definition nvme_update_ns_info (csi max_append : Z) (id : nvme_id_ns) (d : ns_disk) : option (Z * ns_disk * Z) :=
  lbaf ← lbaf_of id;
  let d := nvme_set_queue_limits d<{d_lba_shift := lf_ds lbaf}> in
  '(ret, d) ← nvme_configure_metadata id d;
  if c_true ret then Some (hide_unsupported ret d, max_append) else
  d ← nvme_set_chunk_sectors id d;
  d ← nvme_update_disk_info id d;
  '(ret, d, max_append) ← (if csi =? NVME_CSI_ZNS then nvme_update_zone_info max_append d else Some (0, d, max_append));
  if c_true ret then Some (hide_unsupported ret d, max_append) else
  let d := d<{d_ready := true}> in
  if d_zoned d then
    let '(ret, d) := nvme_revalidate_zones max_append d in
    if c_true ret && negb (nvme_first_scan d) then Some (hide_unsupported ret d, max_append) else Some (0, d, max_append)
  else Some (0, d, max_append).
End model.

(** ** The calculation is defined *)

(** The format in use has blocks of 512 bytes or more that fit an int. *)
Definition id_ok (id : nvme_id_ns) : Prop := ∃ f, lbaf_of id = Some f ∧ 9 ≤ lf_ds f ≤ 30.
(** The limit for appends fits an int; [blk_revalidate_disk_zones] returns an errno. *)
Definition answers_ok (a : info_answers) : Prop := 0 ≤ (a_append a).2 ≤ 27 ∧ a_revalidate a ≤ 0.

Lemma shl64_some v n : 0 ≤ n < 64 → shl64 v n = Some (u64 (Z.shiftl v n)).
Proof. intros ?. rw /shl64. destruct (Z.leb_spec 0 n), (Z.ltb_spec n 64); simpl; auto; lia. Qed.
Lemma shl32_some v n : 0 ≤ n < 31 → shl32 v n = Some (Z.shiftl v n).
Proof. intros ?. rw /shl32. destruct (Z.leb_spec 0 n), (Z.ltb_spec n 31); simpl; auto; lia. Qed.
Lemma lba_to_sect_some d lba : 9 ≤ d_lba_shift d ≤ 30 → nvme_lba_to_sect d lba = Some (u64 (Z.shiftl lba (d_lba_shift d - 9))).
Proof. intros ?. rw /nvme_lba_to_sect /SECTOR_SHIFT shl64_some //. lia. Qed.

Section total.
Context (ctrl : ctrl_info) (zk ik : bool) (a : info_answers).

Lemma limits_shift d : d_lba_shift (nvme_set_queue_limits ctrl d) = d_lba_shift d.
Proof. rw /nvme_set_queue_limits. by destruct (c_true (ci_max_hw_sectors ctrl)). Qed.

Lemma metadata_total id d : id_ok id → ∃ ret d', nvme_configure_metadata ctrl id d = Some (ret, d') ∧ d_lba_shift d' = d_lba_shift d.
Proof.
  intros (f & Hf & _). rw /nvme_configure_metadata Hf /=.
  repeat match goal with |- context [if ?b then _ else _] => destruct b end; by eexists _, _.
Qed.

Lemma chunk_total id d : 9 ≤ d_lba_shift d ≤ 30 → ∃ d', nvme_set_chunk_sectors ctrl id d = Some d' ∧ d_lba_shift d' = d_lba_shift d.
Proof.
  intros Hd. rw /nvme_set_chunk_sectors lba_to_sect_some // /mbind /option_bind /=.
  destruct (_ && _); cbn [fmap option_fmap option_map];
    repeat match goal with |- context [if ?b then _ else _] => destruct b end; eexists; split; reflexivity.
Qed.

Lemma streams_total d b o : 9 ≤ d_lba_shift d ≤ 30 →
  ∃ d' b' o', nvme_setup_streams_ns ctrl a d b o = Some (d', b', o') ∧ d_lba_shift d' = d_lba_shift d.
Proof.
  intros Hd. rw /nvme_setup_streams_ns. destruct (_ =? 0); [by eexists _, _, _|]. destruct (a_streams a) as [ret [sws sgs]].
  destruct (c_true ret); [by eexists _, _, _|]. destruct (c_true sws); [|by eexists _, _, _].
  rw shl32_some; [|simpl; lia]. by eexists _, _, _.
Qed.

Lemma discard_shift d : d_lba_shift (nvme_config_discard ctrl d) = d_lba_shift d.
Proof. rw /nvme_config_discard. repeat case_match; done. Qed.

Lemma disk_info_total id d : 9 ≤ d_lba_shift d ≤ 30 →
  ∃ d', nvme_update_disk_info ctrl ik a id d = Some d' ∧ d_lba_shift d' = d_lba_shift d.
Proof.
  intros Hd. rw /nvme_update_disk_info lba_to_sect_some // shl32_some; [|lia]. cbn [mbind option_bind].
  destruct (if PAGE_SHIFT <? _ then _ else _) as [cap bs].
  destruct (streams_total (d<{d_integrity := None}>) bs 0) as (d1 & b1 & o1 & -> & Hs); [done|]. simpl.
  destruct (if c_true _ then (u32 _, _) else _) as [ph io]. destruct (if c_true _ then _ else _) as [d2 cap'] eqn:E.
  eexists. split; [done|]. simpl. rw discard_shift /=.
  assert (d_lba_shift d2 = d_lba_shift d1) as ->; [|done].
  simpl in E. destruct (c_true (d_ms d1)); [destruct (ik && _)|]; by simplify_eq/=.
Qed.

Lemma zone_info_total m d : answers_ok a → 9 ≤ d_lba_shift d ≤ 30 →
  ∃ ret d' m', nvme_update_zone_info ctrl zk a m d = Some (ret, d', m') ∧ d_lba_shift d' = d_lba_shift d.
Proof.
  intros [Ha _] Hd. rw /nvme_update_zone_info. destruct (negb zk); [by eexists _, _, _|].
  assert (∃ st m', (if c_true m then Some (0, m) else nvme_set_max_append ctrl a m) = Some (st, m')) as (st & m' & ->).
  { destruct (c_true m); [by eexists _, _|]. rw /nvme_set_max_append. destruct (negb _); [by eexists _, _|].
    destruct (a_append a) as [st zasl]. simpl in Ha. destruct (c_true st); [by eexists _, _|].
    destruct (c_true zasl); [|by eexists _, _]. rw shl32_some; [|lia]. by eexists _, _. }
  simpl. destruct (c_true st); [by eexists _, _, _|]. destruct (negb _); [by eexists _, _, _|].
  destruct (a_zone a) as [st' [[[zoc zsze] mor] mar]]. destruct (c_true st'); [by eexists _, _, _|].
  destruct (c_true zoc); [by eexists _, _, _|]. rw lba_to_sect_some //=. destruct (negb _); by eexists _, _, _.
Qed.

Lemma update_ns_info_total csi m id d : id_ok id → answers_ok a →
  is_Some (nvme_update_ns_info ctrl zk ik a csi m id d).
Proof.
  intros (f & Hf & Hds) Ha. rw /nvme_update_ns_info Hf. cbn [mbind option_bind].
  destruct (metadata_total id (nvme_set_queue_limits ctrl d<{d_lba_shift := lf_ds f}>)) as (ret & d1 & -> & H1); [by exists f|].
  rw limits_shift /= in H1. cbn [mbind option_bind]. destruct (c_true ret); [by eexists|].
  destruct (chunk_total id d1) as (d2 & -> & H2); [lia|]. cbn [mbind option_bind].
  destruct (disk_info_total id d2) as (d3 & -> & H3); [lia|]. cbn [mbind option_bind].
  assert (∃ ret d' m', (if csi =? NVME_CSI_ZNS then nvme_update_zone_info ctrl zk a m d3 else Some (0, d3, m)) = Some (ret, d', m'))
    as (r4 & d4 & m4 & ->).
  { destruct (csi =? _); [|by eexists _, _, _]. destruct (zone_info_total m d3) as (r4 & d4 & m4 & -> & _); [done|lia|by eexists _, _, _]. }
  cbn [mbind option_bind]. destruct (c_true r4); [by eexists|]. destruct (d_zoned _); [|by eexists].
  destruct (nvme_revalidate_zones _ _ _) as [r5 d5]. destruct (c_true r5 && _); by eexists.
Qed.

(** Over PCI, without zones, nothing is refused. *)
Lemma metadata_pci id d ret d' :
  Z.land (ci_flags ctrl) NVME_F_FABRICS = 0 → nvme_configure_metadata ctrl id d = Some (ret, d') →
  ret = 0 ∧ d_zoned d' = d_zoned d.
Proof.
  intros Hf. rw /nvme_configure_metadata Hf. destruct (lbaf_of id) as [f|]; [|done]. cbn [mbind option_bind].
  destruct (_ || _); [by intros [= <- <-]|]. change (c_true 0) with false. by intros [= <- <-].
Qed.
Lemma limits_zoned d : d_zoned (nvme_set_queue_limits ctrl d) = d_zoned d.
Proof. rw /nvme_set_queue_limits. by destruct (c_true (ci_max_hw_sectors ctrl)). Qed.
Lemma chunk_zoned id d d' : nvme_set_chunk_sectors ctrl id d = Some d' → d_zoned d' = d_zoned d.
Proof.
  rw /nvme_set_chunk_sectors. destruct (if _ && _ then _ else _) as [iob|]; [|done]. cbn [mbind option_bind].
  destruct (iob =? 0); [by intros [= <-]|]. destruct (negb _); [by intros [= <-]|]. destruct (d_zoned d) eqn:Hz; by intros [= <-].
Qed.
Lemma streams_zoned d b o d' b' o' : nvme_setup_streams_ns ctrl a d b o = Some (d', b', o') → d_zoned d' = d_zoned d.
Proof.
  rw /nvme_setup_streams_ns. destruct (_ =? 0); [by intros [= <- <- <-]|]. destruct (a_streams a) as [ret [sws sgs]].
  destruct (c_true ret); [by intros [= <- <- <-]|]. destruct (c_true sws); [|by intros [= <- <- <-]].
  destruct (shl32 _ _); [|done]. by intros [= <- <- <-].
Qed.
Lemma disk_info_zoned id d d' : nvme_update_disk_info ctrl ik a id d = Some d' → d_zoned d' = d_zoned d.
Proof.
  rw /nvme_update_disk_info. destruct (nvme_lba_to_sect _ _) as [cap|]; [|done]. destruct (shl32 _ _) as [one|]; [|done].
  cbn [mbind option_bind]. destruct (if PAGE_SHIFT <? _ then _ else _) as [cap' bs].
  destruct (nvme_setup_streams_ns _ _ _ _ _) as [[[d1 b1] o1]|] eqn:Es; [|done]. cbn [mbind option_bind].
  apply streams_zoned in Es. destruct (if c_true _ then (u32 _, _) else _) as [ph io].
  destruct (if c_true _ then _ else _) as [d2 cap2] eqn:E2. intros [= <-]. simpl.
  assert (∀ d, d_zoned (nvme_config_discard ctrl d) = d_zoned d) as ->.
  { intros d3. rw /nvme_config_discard. repeat case_match; done. }
  assert (d_zoned d2 = d_zoned d1) as H2 by (destruct (c_true _); [destruct (ik && _)|]; by simplify_eq/=).
  simpl. by rw H2 Es.
Qed.

Lemma update_pci csi m id d ret d' m' :
  Z.land (ci_flags ctrl) NVME_F_FABRICS = 0 → csi ≠ NVME_CSI_ZNS → answers_ok a →
  nvme_update_ns_info ctrl zk ik a csi m id d = Some (ret, d', m') → ret ≤ 0 ∧ (d_zoned d = false → ret = 0).
Proof.
  intros Hf Hcsi [_ Hr]. rw /nvme_update_ns_info. destruct (lbaf_of id) as [f|]; [|done]. cbn [mbind option_bind].
  destruct (nvme_configure_metadata _ _ _) as [[r1 d1]|] eqn:E1; [|done]. cbn [mbind option_bind].
  apply metadata_pci in E1 as [-> Hz1]; [|done]. rw limits_zoned /= in Hz1. change (c_true 0) with false. cbv iota.
  destruct (nvme_set_chunk_sectors _ _ _) as [d2|] eqn:E2; [|done]. apply chunk_zoned in E2. cbn [mbind option_bind].
  destruct (nvme_update_disk_info _ _ _ _ _) as [d3|] eqn:E3; [|done]. apply disk_info_zoned in E3. cbn [mbind option_bind].
  destruct (Z.eqb_spec csi NVME_CSI_ZNS); [done|]. cbn [mbind option_bind]. change (c_true 0) with false. cbv iota.
  cbn [upd d_zoned]. rw E3 E2 Hz1. destruct (d_zoned d); [|intros [= <- <- <-]; split; [lia|done]].
  rw /nvme_revalidate_zones. destruct (Z.eqb_spec (a_revalidate a) 0) as [He|Hne].
  { intros [= <- <- <-]. split; [lia|done]. }
  destruct (_ && _); [|intros [= <- <- <-]; split; [lia|done]]. rw /hide_unsupported.
  destruct (_ =? _); intros [= <- <- <-]; (split; [lia|done]).
Qed.
End total.

(** ** The geometry of the disk *)

(** A record in the form [NsDisk ..] again. *)
Ltac disk_norm :=
  cbn [mbind option_bind upd d_lba_shift d_ms d_sgs d_sws d_pi_type d_zsze d_features d_force_ro d_ready d_capacity d_logical
    d_physical d_io_min d_io_opt d_max_hw_sectors d_max_segments d_virt_boundary d_dma_alignment d_write_cache d_chunk_sectors
    d_integrity d_discard d_discard_granularity d_max_discard_sectors d_max_discard_segments d_max_write_zeroes d_ro d_zoned
    d_max_open d_max_active d_max_append d_up d_hidden] in *.

Lemma flag_bit1 z : c_true (Z.land z 2) = Z.testbit z 1.
Proof.
  rw /c_true. destruct (Z.testbit z 1) eqn:Hb.
  - destruct (Z.eqb_spec (Z.land z 2) 0) as [H0|]; [|done]. apply (f_equal (λ x, Z.testbit x 1)) in H0.
    by rw Z.land_spec Hb in H0.
  - assert (Z.land z 2 = 0) as ->; [|done]. apply Z.bits_inj'. intros n Hn. rw Z.land_spec Z.bits_0.
    change 2 with (2 ^ 1). rw Z.pow2_bits_eqb; [|lia]. destruct (Z.eqb_spec 1 n) as [<-|]; [by rw Hb|by rw andb_false_r].
Qed.

Section geometry.
Context (ctrl : ctrl_info) (zk ik : bool) (a : info_answers).
Context (Hpci : Z.land (ci_flags ctrl) NVME_F_FABRICS = 0).

(** Whether the blocks of the format can be read and written through the block layer. *)
Definition usable (id : nvme_id_ns) (f : nvme_lbaf) : bool :=
  (lf_ms f =? 0) ||
  ik && c_true (Z.land (ci_flags ctrl) NVME_F_METADATA_SUPPORTED) && negb (c_true (Z.land (id_flbas id) NVME_NS_FLBAS_META_EXT)) ||
  (lf_ms f =? T10_PI_TUPLE) && c_true (Z.land (id_dps id) NVME_NS_DPS_PI_MASK).

Lemma metadata_fields id d f r d1 :
  lbaf_of id = Some f → nvme_configure_metadata ctrl id d = Some (r, d1) →
  d_ms d1 = lf_ms f ∧ d_pi_type d1 = (if lf_ms f =? T10_PI_TUPLE then Z.land (id_dps id) NVME_NS_DPS_PI_MASK else 0) ∧
  c_true (Z.land (d_features d1) NVME_NS_METADATA_SUPPORTED) =
    negb (lf_ms f =? 0) && c_true (Z.land (ci_flags ctrl) NVME_F_METADATA_SUPPORTED) &&
    negb (c_true (Z.land (id_flbas id) NVME_NS_FLBAS_META_EXT)).
Proof.
  intros Hf. destruct d. rw /nvme_configure_metadata Hf Hpci. change (c_true 0) with false. disk_norm.
  rw /NVME_NS_METADATA_SUPPORTED !flag_bit1.
  assert (∀ x, Z.testbit (Z.ldiff x (Z.lor 2 NVME_NS_EXT_LBAS)) 1 = false) as Hl.
  { intros x. rw Z.ldiff_spec. change (Z.testbit (Z.lor 2 NVME_NS_EXT_LBAS) 1) with true. by rw andb_false_r. }
  destruct (lf_ms f =? 0) eqn:E0; cbn [orb negb andb].
  { intros [= _ <-]. disk_norm. by rw Hl. }
  destruct (Z.testbit (ci_flags ctrl) 1) eqn:Em; cbn [negb andb].
  2: { intros [= _ <-]. disk_norm. by rw Hl. }
  cbv iota. destruct (c_true (Z.land (id_flbas id) NVME_NS_FLBAS_META_EXT)); intros [= _ <-];
    disk_norm; rw Z.lor_spec Hl //.
Qed.

(** The sizes a stream asks for fit 32 bits. *)
Definition streams_ok (ds : Z) : Prop := 0 ≤ (a_streams a).2.1 ∧ (a_streams a).2.1 * 2 ^ ds < 2 ^ 32.

Lemma streams_fields d b o d' b' o' :
  9 ≤ d_lba_shift d ≤ 30 → streams_ok (d_lba_shift d) → nvme_setup_streams_ns ctrl a d b o = Some (d', b', o') →
  d_ms d' = d_ms d ∧ d_features d' = d_features d ∧ d_pi_type d' = d_pi_type d ∧
  (b' = b ∨ ∃ k, 1 ≤ k ∧ b' = k * 2 ^ d_lba_shift d).
Proof.
  intros Hd [Hs0 Hs1]. rw /nvme_setup_streams_ns. destruct (_ =? 0); [intros [= <- <- <-]; auto|].
  destruct (a_streams a) as [ret [sws sgs]]. simpl in Hs0, Hs1. destruct (c_true ret); [intros [= <- <- <-]; auto|].
  rw {1}/c_true. destruct (Z.eqb_spec sws 0) as [->|Hne]; cbn [negb]; cbv iota; [intros [= <- <- <-]; auto|].
  rw shl32_some; [|simpl; lia]. cbn [mbind option_bind]. rw Z.shiftl_1_l. intros [= <- <- _]. simpl.
  repeat (split; [done|]). right. exists sws. split; [lia|]. rw u32_id //. split; [|done]. apply Z.mul_nonneg_nonneg; [lia|]. apply Z.pow_nonneg. lia.
Qed.

Lemma discard_fields d : d_logical (nvme_config_discard ctrl d) = d_logical d ∧ d_physical (nvme_config_discard ctrl d) = d_physical d ∧
  d_io_min (nvme_config_discard ctrl d) = d_io_min d ∧ d_capacity (nvme_config_discard ctrl d) = d_capacity d.
Proof. rw /nvme_config_discard. repeat match goal with |- context [if ?b then _ else _] => destruct b end; done. Qed.

(** Multiples of [b] that are not 0. *)
Definition blocks (b x : Z) : Prop := ∃ k, 1 ≤ k ∧ x = k * b.
Lemma blocks_min b x y : blocks b x → blocks b y → blocks b (Z.min x y).
Proof. intros Hx Hy. destruct (Z.min_spec x y) as [[_ ->]|[_ ->]]; done. Qed.
Lemma blocks_u32 b k : 1 ≤ b ≤ 2 ^ 12 → 0 ≤ k < 2 ^ 16 → blocks b (u32 ((1 + k) * b)).
Proof. intros Hb Hk. exists (1 + k). split; [lia|]. rw u32_id //. nia. Qed.
Lemma blocks_atomic id ds : 9 ≤ ds ≤ 12 → 0 ≤ id_nawupf id < 2 ^ 16 → 0 ≤ ci_awupf ctrl < 2 ^ 16 → blocks (2 ^ ds) (atomic_size ctrl id (2 ^ ds)).
Proof.
  intros Hds Hn Ha. assert (1 ≤ 2 ^ ds ≤ 2 ^ 12) as Hb.
  { split; [by apply (Z.pow_le_mono_r 2 0); lia|]. apply Z.pow_le_mono_r; lia. }
  rw /atomic_size. destruct (_ =? 0); [|exists 1; lia]. destruct (_ && _); by apply blocks_u32.
Qed.

Lemma disk_info_geometry id d d' ds :
  d_lba_shift d = ds → 9 ≤ ds ≤ 30 → streams_ok ds → 0 ≤ id_nsze id → id_nsze id * 2 ^ (ds - 9) < 2 ^ 64 →
  0 ≤ id_nawupf id < 2 ^ 16 → 0 ≤ id_npwg id < 2 ^ 16 → 0 ≤ ci_awupf ctrl < 2 ^ 16 →
  nvme_update_disk_info ctrl ik a id d = Some d' →
  if 12 <? ds then d_capacity d' = 0 ∧ d_logical d' = 512 else
  d_logical d' = 2 ^ ds ∧ blocks (2 ^ ds) (d_physical d') ∧ d_physical d' ≤ atomic_size ctrl id (2 ^ ds) ∧ blocks (2 ^ ds) (d_io_min d') ∧
  d_capacity d' = (if (d_ms d =? 0) || ik && c_true (Z.land (d_features d) NVME_NS_METADATA_SUPPORTED) || nvme_ns_has_pi d
                   then id_nsze id * 2 ^ (ds - 9) else 0).
Proof.
  intros Hshift Hds Hst Hz0 Hz1 Hn Hw Ha. rw /nvme_update_disk_info lba_to_sect_some ?Hshift // shl32_some; [|lia].
  cbn [mbind option_bind]. rw (Z.shiftl_1_l ds) (Z.shiftl_mul_pow2 (id_nsze id)); [|lia]. rw u64_id; [|split; [apply Z.mul_nonneg_nonneg; [done|]; apply Z.pow_nonneg; lia|done]].
  rw /PAGE_SHIFT. destruct (Z.ltb_spec 12 ds) as [Hgt|Hle].
  - destruct (nvme_setup_streams_ns ctrl a _ _ _) as [[[d1 b1] o1]|]; [|done]. destruct d1. disk_norm.
    destruct (if c_true _ then (u32 _, _) else _) as [ph io]. disk_norm. destruct (c_true d_ms0); [destruct (ik && _)|];
      disk_norm; rw /nvme_ns_has_pi; intros [= <-]; disk_norm; match goal with |- context [nvme_config_discard ctrl ?x] =>
        destruct (discard_fields x) as (-> & _ & _ & ->) end; disk_norm; (split; [by try case_match|done]).
  - assert (1 ≤ 2 ^ ds ≤ 2 ^ 12) as Hb.
    { split; [by apply (Z.pow_le_mono_r 2 0); lia|]. apply Z.pow_le_mono_r; lia. }
    rw (u16_id (2 ^ ds)); [|lia].
    destruct (nvme_setup_streams_ns ctrl a _ _ _) as [[[d1 b1] o1]|] eqn:Es; [|done].
    apply streams_fields in Es as (Hms & Hft & Hpi & Hb1); [|by rw /= Hshift|by rw /= Hshift]. simpl in Hms, Hft, Hpi, Hb1. rw Hshift in Hb1.
    assert (blocks (2 ^ ds) b1) as Hbl. { destruct Hb1 as [->|?]; [exists 1; lia|done]. }
    pose proof (blocks_atomic id ds ltac:(lia) Hn Ha) as Hat. rw /nvme_ns_has_pi -Hms -Hft -Hpi. clear Hms Hft Hpi. destruct d1. disk_norm.
    assert (∃ ph io, (if c_true (Z.land (id_nsfeat id) NVME_NS_FEAT_IO_OPT)
      then (u32 (2 ^ ds * (1 + id_npwg id)), u32 (2 ^ ds * (1 + id_nows id))) else (b1, o1)) = (ph, io) ∧ blocks (2 ^ ds) ph) as (ph & io & -> & Hph).
    { destruct (c_true _); eexists _, _; (split; [done|]); [|done]. rw Z.mul_comm. by apply blocks_u32. }
    disk_norm. set (cap := id_nsze id * 2 ^ (ds - 9)). rw {1}/c_true.
    assert (∀ x c, d_logical x = 2 ^ ds → d_physical x = Z.min ph (atomic_size ctrl id (2 ^ ds)) → d_io_min x = ph → d_capacity x = c →
      d_logical (nvme_config_discard ctrl x) = 2 ^ ds ∧ blocks (2 ^ ds) (d_physical (nvme_config_discard ctrl x)) ∧
      d_physical (nvme_config_discard ctrl x) ≤ atomic_size ctrl id (2 ^ ds) ∧ blocks (2 ^ ds) (d_io_min (nvme_config_discard ctrl x)) ∧
      d_capacity (nvme_config_discard ctrl x) = c) as Hfin.
    { intros x c Hl Hp Hi Hc. destruct (discard_fields x) as (-> & -> & -> & ->). rw Hl Hp Hi Hc. split; [done|].
      split; [by apply blocks_min|]. split; [lia|done]. }
    destruct (d_ms0 =? 0); cbn [negb orb]; cbv iota; [intros [= <-]; disk_norm; by apply Hfin|].
    destruct (ik && _); cbn [orb]; intros [= <-]; disk_norm; [by apply Hfin|]. apply Hfin; try done.
Qed.

Lemma chunk_fields id d d' : nvme_set_chunk_sectors ctrl id d = Some d' →
  d_ms d' = d_ms d ∧ d_features d' = d_features d ∧ d_pi_type d' = d_pi_type d.
Proof.
  rw /nvme_set_chunk_sectors. destruct (if _ && _ then _ else _) as [iob|]; [|done]. cbn [mbind option_bind].
  destruct (iob =? 0); [by intros [= <-]|]. destruct (negb _); [by intros [= <-]|]. destruct (d_zoned d); by intros [= <-].
Qed.

(** What the block layer is told of sizes. *)
Definition sizes (d : ns_disk) := (d_lba_shift d, d_logical d, d_physical d, d_io_min d, d_capacity d).

Lemma zone_sizes m d r d' m' : nvme_update_zone_info ctrl zk a m d = Some (r, d', m') → sizes d' = sizes d.
Proof.
  rw /nvme_update_zone_info. destruct (negb zk); [by intros [= _ <- _]|].
  destruct (if c_true m then _ else _) as [[st m1]|]; [|done]. cbn [mbind option_bind]. destruct (c_true st); [by intros [= _ <- _]|].
  destruct (negb _); [by intros [= _ <- _]|]. destruct (a_zone a) as [st' [[[zoc zsze] mor] mar]].
  destruct (c_true st'); [by intros [= _ <- _]|]. destruct (c_true zoc); [by intros [= _ <- _]|].
  destruct (nvme_lba_to_sect _ _) as [z|]; [|done]. cbn [mbind option_bind]. destruct (negb _); by intros [= _ <- _].
Qed.

Lemma tail_sizes csi m d r d' m' :
  ('(ret, d, max_append) ← (if csi =? NVME_CSI_ZNS then nvme_update_zone_info ctrl zk a m d else Some (0, d, m));
   if c_true ret then Some (hide_unsupported ret d, max_append) else
   let d := d<{d_ready := true}> in
   if d_zoned d then
     let '(ret, d) := nvme_revalidate_zones a max_append d in
     if c_true ret && negb (nvme_first_scan d) then Some (hide_unsupported ret d, max_append) else Some (0, d, max_append)
   else Some (0, d, max_append)) = Some (r, d', m') → sizes d' = sizes d.
Proof.
  assert (∀ r d r1 d1, hide_unsupported r d = (r1, d1) → sizes d1 = sizes d) as Hh.
  { intros r0 d0 r1 d1. rw /hide_unsupported. destruct (_ =? _); by intros [= _ <-]. }
  destruct (if csi =? NVME_CSI_ZNS then _ else _) as [[[r1 d1] m1]|] eqn:E1; [|done]. cbn [mbind option_bind].
  assert (sizes d1 = sizes d) as <-. { destruct (csi =? _); [by eapply zone_sizes|by injection E1 as _ <- _]. }
  destruct (c_true r1); [intros [= H _]; by eapply Hh|]. cbv zeta. destruct (d_zoned _); [|by intros [= _ <- _]].
  rw /nvme_revalidate_zones. destruct (a_revalidate a =? 0); cbv iota beta.
  - change (c_true 0) with false. cbn [andb]. by intros [= _ <- _].
  - destruct (_ && _); [intros [= H _]; apply Hh in H; by rw H|by intros [= _ <- _]].
Qed.

Lemma usable_flags id f d1 :
  d_ms d1 = lf_ms f → d_pi_type d1 = (if lf_ms f =? T10_PI_TUPLE then Z.land (id_dps id) NVME_NS_DPS_PI_MASK else 0) →
  c_true (Z.land (d_features d1) NVME_NS_METADATA_SUPPORTED) =
    negb (lf_ms f =? 0) && c_true (Z.land (ci_flags ctrl) NVME_F_METADATA_SUPPORTED) &&
    negb (c_true (Z.land (id_flbas id) NVME_NS_FLBAS_META_EXT)) →
  (d_ms d1 =? 0) || ik && c_true (Z.land (d_features d1) NVME_NS_METADATA_SUPPORTED) || nvme_ns_has_pi d1 = usable id f.
Proof.
  rw /nvme_ns_has_pi /usable. intros -> -> ->. destruct (lf_ms f =? 0); [done|]. cbn [negb andb orb]. rw andb_assoc. f_equal.
  destruct (lf_ms f =? T10_PI_TUPLE); [by rw andb_true_r|by rw andb_false_r].
Qed.
End geometry.
