(* ===== verification/Namespace.v ===== *)
(** * Namespaces (core.c)

    A controller keeps its namespaces in a list ordered by number; a namespace
    belongs to a head of the subsystem, which it may share with the other
    controllers.  Scanning asks a controller which namespaces it has, validates those
    that are known, adds the new ones and removes the others.  Objects live in a
    store until their last reference is put: using one that is not there is a fault.
    The operations of one subsystem run one after the other, multipath is not
    configured. *)
From S2P Require Import Prelude Lifecycle ReqSetup ReqLife NsIdent NsDisk.

Definition EOPNOTSUPP : Z := 95.
Definition ENXIO : Z := 6.
Definition U32_MAX : Z := 2 ^ 32 - 1.
Definition NVME_NS_NMIC_SHARED : Z := 1.

Record nvme_ns_head := NsHead {
  hd_ns_id : Z;
  hd_ids : nvme_ns_ids;
  hd_instance : Z;
  hd_shared : bool;
  hd_ref : Z;
  hd_list : list positive;            (* [head->list], by way of [ns->siblings] *)
}.
#[export] Instance eta_ns_head : Settable nvme_ns_head := λ x,
  NsHead (hd_ns_id x) (hd_ids x) (hd_instance x) (hd_shared x) (hd_ref x) (hd_list x).

Record nvme_ns := Ns {
  ns_head : positive;
  ns_ctrl : positive;
  ns_kref : Z;
  ns_removing : bool;                 (* NVME_NS_REMOVING *)
  ns_dead : bool;                     (* NVME_NS_DEAD *)
  ns_cdev : bool;                     (* the character device exists *)
  ns_gendisk : ns_disk;
}.
#[export] Instance eta_ns : Settable nvme_ns := λ x,
  Ns (ns_head x) (ns_ctrl x) (ns_kref x) (ns_removing x) (ns_dead x) (ns_cdev x) (ns_gendisk x).

Record nctrl := NCtrl {
  c_ctl : nvme_ctrl;                  (* the state machine of Lifecycle.v *)
  c_tagset : bool;
  c_multi_css : bool;
  c_info : ctrl_info;
  c_max_zone_append : Z;
  c_cels : gset Z;                    (* the effects logs read *)
  c_ns_changed : bool;                (* NVME_AER_NOTICE_NS_CHANGED *)
  c_refs : Z;
  c_namespaces : list positive;
}.
#[export] Instance eta_nctrl : Settable nctrl := λ x,
  NCtrl (c_ctl x) (c_tagset x) (c_multi_css x) (c_info x) (c_max_zone_append x) (c_cels x) (c_ns_changed x) (c_refs x)
    (c_namespaces x).

Record nst := Nst {
  n_ns : gmap positive nvme_ns;
  n_heads : gmap positive nvme_ns_head;
  n_nsheads : list positive;          (* [subsys->nsheads] *)
  n_ida : gset Z;                     (* [subsys->ns_ida] *)
  n_subsys_refs : Z;
  n_ctrls : gmap positive nctrl;
  n_rm : list positive;               (* the list head on the stack of a removal *)
  n_opens : list positive;            (* files open on a namespace *)
  n_next : positive;
  n_tick : nat;
}.
#[export] Instance eta_nst : Settable nst := λ x,
  Nst (n_ns x) (n_heads x) (n_nsheads x) (n_ida x) (n_subsys_refs x) (n_ctrls x) (n_rm x) (n_opens x) (n_next x) (n_tick x).

(** What the controllers and the layers below answer at each call; a pair is the
    status of a command and the data it returns. *)
Class ns_env := NsEnv {
  e_alloc : nat → bool;
  e_list : nat → positive → Z → Z * list Z;             (* Identify, active namespaces after the given one *)
  e_descs : nat → positive → Z → Z * list Z;
  e_identify : nat → positive → Z → Z * nvme_id_ns;
  e_identify_ctrl : nat → positive → Z * Z;             (* nn *)
  e_info : nat → positive → Z → info_answers;
  e_log : nat → positive → Z → Z;                       (* Get Log Page, effects of a command set *)
  e_ida : nat → gset Z → Z;
  e_srcu : nat → Z;                                     (* [init_srcu_struct] *)
  e_errno : blk_sts → Z;                                (* [blk_status_to_errno] *)
  e_cdev : nat → bool;                                  (* [nvme_add_ns_cdev] succeeds *)
  e_module : nat → bool;                                (* [try_module_get] *)
  e_zoned : bool;                                       (* CONFIG_BLK_DEV_ZONED *)
  e_integrity : bool;                                   (* CONFIG_BLK_DEV_INTEGRITY *)
}.

Section model.
Context {E : ns_env}.

Definition ask {A} (f : nat → A) : K nst A := λ s, Some (f (n_tick s), s<{n_tick := S (n_tick s)}>).

(** ** Objects *)

Definition ns_at (p : positive) : K nst nvme_ns := m ← gets n_ns; from_option_k (m !! p).
Definition head_at (h : positive) : K nst nvme_ns_head := m ← gets n_heads; from_option_k (m !! h).
Definition ctrl_at (c : positive) : K nst nctrl := m ← gets n_ctrls; from_option_k (m !! c).
Definition set_ns (p : positive) (N : nvme_ns) : K nst unit := modify (λ s, s<{n_ns := <[p := N]> (n_ns s)}>).
Definition set_head (h : positive) (H : nvme_ns_head) : K nst unit :=
  modify (λ s, s<{n_heads := <[h := H]> (n_heads s)}>).
Definition set_ctrl (c : positive) (C : nctrl) : K nst unit := modify (λ s, s<{n_ctrls := <[c := C]> (n_ctrls s)}>).
Definition fresh_ptr : K nst positive := λ s, Some (n_next s, s<{n_next := Pos.succ (n_next s)}>).

Definition nvme_get_ctrl (c : positive) : K nst unit := C ← ctrl_at c; set_ctrl c C<{c_refs := c_refs C + 1}>.
Definition nvme_put_ctrl (c : positive) : K nst unit := C ← ctrl_at c; set_ctrl c C<{c_refs := c_refs C - 1}>.

Definition nvme_free_ns_head (h : positive) : K nst unit :=
  H ← head_at h;
  modify (λ s, s<{n_ida := n_ida s ∖ {[hd_instance H]}}><{n_subsys_refs := n_subsys_refs s - 1}>
                <{n_heads := base.delete h (n_heads s)}>).
Definition nvme_tryget_ns_head (h : positive) : K nst bool :=
  H ← head_at h;
  if hd_ref H =? 0 then mret false else set_head h H<{hd_ref := hd_ref H + 1}>;; mret true.
Definition nvme_put_ns_head (h : positive) : K nst unit :=
  H ← head_at h;
  set_head h H<{hd_ref := hd_ref H - 1}>;;
  if hd_ref H - 1 =? 0 then nvme_free_ns_head h else mret tt.

Definition nvme_free_ns (p : positive) : K nst unit :=
  N ← ns_at p;
  nvme_put_ns_head (ns_head N);;
  nvme_put_ctrl (ns_ctrl N);;
  modify (λ s, s<{n_ns := base.delete p (n_ns s)}>).
Definition nvme_get_ns (p : positive) : K nst bool :=
  N ← ns_at p;
  if ns_kref N =? 0 then mret false else set_ns p N<{ns_kref := ns_kref N + 1}>;; mret true.
Definition snvme_put_ns (p : positive) : K nst unit :=
  N ← ns_at p;
  set_ns p N<{ns_kref := ns_kref N - 1}>;;
  if ns_kref N - 1 =? 0 then nvme_free_ns p else mret tt.

(** [ns->head->ns_id]. *)
Definition nsid_at (p : positive) : K nst Z := N ← ns_at p; H ← head_at (ns_head N); mret (hd_ns_id H).

(** ** Opening a namespace *)

Definition nvme_ns_open (p : positive) : K nst Z :=
  ok ← nvme_get_ns p;
  if negb ok then mret (- ENXIO) else
  ok ← ask e_module;
  if negb ok then snvme_put_ns p;; mret (- ENXIO) else
  modify (λ s, s<{n_opens := p :: n_opens s}>);; mret 0.
Definition nvme_ns_release (p : positive) : K nst unit :=
  opens ← gets n_opens;
  i ← from_option_k (fst <$> list_find (p =.) opens);
  modify (λ s, s<{n_opens := base.delete i opens}>);;
  snvme_put_ns p.

(** ** Heads *)

Fixpoint find_ns_head (nsid : Z) (l : list positive) : K nst (option positive) :=
  match l with
  | [] => mret None
  | h :: l =>
    H ← head_at h;
    if negb (hd_ns_id H =? nsid) then find_ns_head nsid l else
    if bool_decide (hd_list H = []) then find_ns_head nsid l else
    ok ← nvme_tryget_ns_head h;
    if ok : bool then mret (Some h) else find_ns_head nsid l
  end.
Definition nvme_find_ns_head (nsid : Z) : K nst (option positive) := l ← gets n_nsheads; find_ns_head nsid l.

Fixpoint check_ids (ids : nvme_ns_ids) (l : list positive) : K nst Z :=
  match l with
  | [] => mret 0
  | h :: l =>
    H ← head_at h;
    if nvme_ns_ids_valid ids && nvme_ns_ids_equal ids (hd_ids H) then mret (- EINVAL) else check_ids ids l
  end.
Definition __nvme_check_ids (ids : nvme_ns_ids) : K nst Z := l ← gets n_nsheads; check_ids ids l.

Definition nvme_get_effects_log (c : positive) (csi : Z) : K nst Z :=
  C ← ctrl_at c;
  if decide (csi ∈ c_cels C) then mret 0 else
  ok ← ask e_alloc;
  if negb ok then mret (- ENOMEM) else
  ret ← ask (λ t, e_log t c csi);
  if c_true ret then mret ret else
  set_ctrl c C<{c_cels := c_cels C ∪ {[csi]}}>;; mret 0.

(** [ERR_PTR(ret)] of the error path is an error pointer only when the errno is
    not 0; using it as a head when it is 0 is a fault. *)
Definition err_ptr {A} (ret : Z) : K nst (Z + A) :=
  let ret := if 0 <? ret then e_errno (nvme_error_status ret) else ret in
  if ret =? 0 then fault else mret (inl ret).

Definition nvme_alloc_ns_head (c : positive) (nsid : Z) (ids : nvme_ns_ids) : K nst (Z + positive) :=
  ok ← ask e_alloc;
  if negb ok then err_ptr (- ENOMEM) else
  used ← gets n_ida;
  instance ← ask (λ t, e_ida t used);
  if instance <? 0 then err_ptr instance else
  modify (λ s, s<{n_ida := n_ida s ∪ {[instance]}}>);;
  let out_ida_remove ret :=
    modify (λ s, s<{n_ida := n_ida s ∖ {[instance]}}>);; err_ptr ret in
  ret ← ask e_srcu;
  if c_true ret then out_ida_remove ret else
  ret ← __nvme_check_ids ids;
  if c_true ret then out_ida_remove ret else
  ret ← (if c_true (ni_csi ids) then nvme_get_effects_log c (ni_csi ids) else mret 0);
  if c_true ret then out_ida_remove ret else
  h ← fresh_ptr;
  set_head h (NsHead nsid ids instance false 1 []);;
  modify (λ s, s<{n_nsheads := n_nsheads s ++ [h] }><{n_subsys_refs := n_subsys_refs s + 1}>);;
  mret (inr h).

(** The namespace enters the store with [ns->head] set. *)
Definition nvme_init_ns_head (p : positive) (N : positive → nvme_ns) (c : positive) (nsid : Z) (ids : nvme_ns_ids)
    (is_shared : bool) : K nst Z :=
  let link h := H ← head_at h; set_head h H<{hd_list := hd_list H ++ [p] }>;; set_ns p (N h);; mret 0 in
  let out_put_ns_head h := nvme_put_ns_head h;; mret (- EINVAL) in
  head ← nvme_find_ns_head nsid;
  match head with
  | None =>
    r ← nvme_alloc_ns_head c nsid ids;
    match r with
    | inl ret => mret ret
    | inr h => H ← head_at h; set_head h H<{hd_shared := is_shared}>;; link h
    end
  | Some h =>
    H ← head_at h;
    if negb is_shared || negb (hd_shared H) then out_put_ns_head h else
    if negb (nvme_ns_ids_equal (hd_ids H) ids) then out_put_ns_head h else
    link h
  end.

(** [list_del_rcu(&ns->siblings)], and the head when it was the last. *)
Definition unlink_sibling (p h : positive) : K nst unit :=
  H ← head_at h;
  set_head h H<{hd_list := unlink p (hd_list H)}>;;
  when (bool_decide (unlink p (hd_list H) = [])) (modify (λ s, s<{n_nsheads := unlink h (n_nsheads s)}>)).

(** ** The list of a controller *)

Fixpoint find_get_ns (nsid : Z) (l : list positive) : K nst (option positive) :=
  match l with
  | [] => mret None
  | p :: l =>
    id ← nsid_at p;
    if id =? nsid then
      ok ← nvme_get_ns p;
      if negb ok then find_get_ns nsid l else mret (Some p)
    else if nsid <? id then mret None else find_get_ns nsid l
  end.
Definition snvme_find_get_ns (c : positive) (nsid : Z) : K nst (option positive) :=
  C ← ctrl_at c; find_get_ns nsid (c_namespaces C).

(** The list is walked from its end, here [rl] is the list reversed. *)
Fixpoint add_reverse (p : positive) (nsid : Z) (rl : list positive) : K nst (list positive) :=
  match rl with
  | [] => mret [p]
  | tmp :: rl =>
    id ← nsid_at tmp;
    if id <? nsid then mret (p :: tmp :: rl) else rl' ← add_reverse p nsid rl; mret (tmp :: rl')
  end.
Definition nvme_ns_add_to_ctrl_list (p : positive) : K nst unit :=
  N ← ns_at p;
  nsid ← nsid_at p;
  C ← ctrl_at (ns_ctrl N);
  rl ← add_reverse p nsid (reverse (c_namespaces C));
  set_ctrl (ns_ctrl N) C<{c_namespaces := reverse rl}>.

(** [list_del_init(&ns->list)], from the list the namespace is on. *)
Definition list_del_ns (p c : positive) : K nst unit :=
  C ← ctrl_at c;
  set_ctrl c C<{c_namespaces := unlink p (c_namespaces C)}>;;
  modify (λ s, s<{n_rm := unlink p (n_rm s)}>).

(** ** Adding, removing and validating *)

(** [nvme_update_ns_info(ns, id)]. *)
Definition update_ns_info (p : positive) (id : nvme_id_ns) : K nst Z :=
  N ← ns_at p;
  H ← head_at (ns_head N);
  C ← ctrl_at (ns_ctrl N);
  a ← ask (λ t, e_info t (ns_ctrl N) (hd_ns_id H));
  r ← from_option_k (nvme_update_ns_info (c_info C) e_zoned e_integrity a (ni_csi (hd_ids H)) (c_max_zone_append C) id
                       (ns_gendisk N));
  let '(ret, d, max_append) := r in
  set_ns p N<{ns_gendisk := d}>;; set_ctrl (ns_ctrl N) C<{c_max_zone_append := max_append}>;; mret ret.

Definition identify_ns (c : positive) (nsid : Z) (ids : nvme_ns_ids) : K nst (Z * nvme_ns_ids * nvme_id_ns) :=
  C ← ctrl_at c;
  alloc ← ask e_alloc;
  answer ← ask (λ t, e_identify t c nsid);
  mret (nvme_identify_ns (ci_vs (c_info C)) alloc answer ids, answer.2).

(** [device_add_disk] of the 5.10 branch, whose result is not looked at, and the
    character device. *)
Definition add_disk (p : positive) : K nst unit :=
  N ← ns_at p;
  set_ns p N<{ns_gendisk := (ns_gendisk N)<{d_up := true}>}>;;
  ok ← ask e_cdev;
  N ← ns_at p;
  set_ns p N<{ns_cdev := ok}>.

Definition nvme_alloc_ns (c : positive) (nsid : Z) (ids : nvme_ns_ids) : K nst unit :=
  r ← identify_ns c nsid ids;
  let '(error, ids, id) := r in
  if c_true error then mret tt else
  ok ← ask e_alloc;
  if negb ok then mret tt else
  ok ← ask e_alloc;
  if negb ok then mret tt else
  p ← fresh_ptr;
  ret ← nvme_init_ns_head p (λ h, Ns h c 1 false false false new_disk) c nsid ids
          (c_true (Z.land (id_nmic id) NVME_NS_NMIC_SHARED));
  if c_true ret then mret tt else
  ret ← update_ns_info p id;
  if c_true ret then
    N ← ns_at p;
    unlink_sibling p (ns_head N);;
    nvme_put_ns_head (ns_head N);;
    modify (λ s, s<{n_ns := base.delete p (n_ns s)}>)
  else
  nvme_ns_add_to_ctrl_list p;;
  nvme_get_ctrl c;;
  add_disk p.

(** Deleting a character device that is not there is a fault. *)
Definition nvme_cdev_del (p : positive) : K nst unit :=
  N ← ns_at p;
  if ns_cdev N then set_ns p N<{ns_cdev := false}> else fault.

Definition nvme_ns_remove (p : positive) : K nst unit :=
  N ← ns_at p;
  if ns_removing N then mret tt else
  set_ns p N<{ns_removing := true}><{ns_gendisk := (ns_gendisk N)<{d_ready := false}><{d_capacity := 0}>}>;;
  unlink_sibling p (ns_head N);;
  nvme_cdev_del p;;
  N ← ns_at p;
  set_ns p N<{ns_gendisk := (ns_gendisk N)<{d_up := false}>}>;;
  list_del_ns p (ns_ctrl N);;
  snvme_put_ns p.

Definition nvme_ns_remove_by_nsid (c : positive) (nsid : Z) : K nst unit :=
  ns ← snvme_find_get_ns c nsid;
  match ns with Some p => nvme_ns_remove p;; snvme_put_ns p | None => mret tt end.

Definition nvme_validate_ns (p : positive) (ids : nvme_ns_ids) : K nst unit :=
  let out ret := if (0 <? ret) && c_true (Z.land ret NVME_SC_DNR) then nvme_ns_remove p else mret tt in
  N ← ns_at p;
  if ns_dead N then out (Z.lor NVME_SC_INVALID_NS NVME_SC_DNR) else
  H ← head_at (ns_head N);
  r ← identify_ns (ns_ctrl N) (hd_ns_id H) ids;
  let '(ret, ids, id) := r in
  if c_true ret then out ret else
  if negb (nvme_ns_ids_equal (hd_ids H) ids) then out (Z.lor NVME_SC_INVALID_NS NVME_SC_DNR) else
  ret ← update_ns_info p id;
  out ret.

Definition identify_ns_descs (c : positive) (nsid : Z) : K nst (Z * nvme_ns_ids) :=
  C ← ctrl_at c;
  alloc ← ask e_alloc;
  answer ← ask (λ t, e_descs t c nsid);
  from_option_k (nvme_identify_ns_descs (ci_vs (c_info C)) (ci_quirks (c_info C)) (c_multi_css C) alloc answer no_ids).

Definition nvme_validate_or_alloc_ns (c : positive) (nsid : Z) : K nst unit :=
  r ← identify_ns_descs c nsid;
  let '(status, ids) := r in
  if c_true status then mret tt else
  ns ← snvme_find_get_ns c nsid;
  match ns with
  | Some p => nvme_validate_ns p ids;; snvme_put_ns p
  | None =>
    C ← ctrl_at c;
    if ni_csi ids =? NVME_CSI_NVM then nvme_alloc_ns c nsid ids else
    if ni_csi ids =? NVME_CSI_ZNS then
      if negb e_zoned then mret tt else
      if negb (c_multi_css C) then mret tt else nvme_alloc_ns c nsid ids
    else mret tt
  end.

(** ** Scanning *)

(** Those to remove: numbers above [nsid], and dead ones. *)
Fixpoint pick_invalid (nsid : Z) (l : list positive) : K nst (list positive) :=
  match l with
  | [] => mret []
  | p :: l =>
    N ← ns_at p;
    id ← nsid_at p;
    rm ← pick_invalid nsid l;
    mret (if (nsid <? id) || ns_dead N then p :: rm else rm)
  end.

(** [rm_list] must be empty when the function returns: it is on its stack. *)
Definition remove_all : K nst unit :=
  rm ← gets n_rm;
  kfor nvme_ns_remove rm;;
  left ← gets n_rm;
  if bool_decide (left = []) then mret tt else fault.

Definition nvme_remove_invalid_namespaces (c : positive) (nsid : Z) : K nst unit :=
  C ← ctrl_at c;
  rm ← pick_invalid nsid (c_namespaces C);
  set_ctrl c C<{c_namespaces := filter (.∉ rm) (c_namespaces C)}>;;
  modify (λ s, s<{n_rm := rm}>);;
  remove_all.

(** [while (++prev < nsid) nvme_ns_remove_by_nsid(ctrl, prev)], and the new [prev]. *)
Definition remove_between (c : positive) (prev nsid : Z) : K nst Z :=
  let prev := u32 (prev + 1) in
  if prev <? nsid then kfor (nvme_ns_remove_by_nsid c) (seqZ prev (nsid - prev));; mret nsid else mret prev.

(** One page of the list: whether its end was reached, and [prev]. *)
Fixpoint scan_page (c : positive) (ns_list : list Z) (prev : Z) : K nst (bool * Z) :=
  match ns_list with
  | [] => mret (false, prev)
  | nsid :: ns_list =>
    if nsid =? 0 then mret (true, prev) else
    nvme_validate_or_alloc_ns c nsid;;
    prev ← remove_between c prev nsid;
    scan_page c ns_list prev
  end.

(** [None] after [fuel] pages without an end. *)
Fixpoint scan_pages (fuel : nat) (c : positive) (prev : Z) : K nst (option Z) :=
  match fuel with
  | O => mret None
  | S fuel =>
    answer ← ask (λ t, e_list t c prev);
    let '(ret, ns_list) := answer in
    if c_true ret then mret (Some ret) else
    r ← scan_page c ns_list prev;
    let '(last, prev) := r in
    if last : bool then nvme_remove_invalid_namespaces c prev;; mret (Some ret) else scan_pages fuel c prev
  end.

Definition nvme_scan_ns_list (fuel : nat) (c : positive) : K nst (option Z) :=
  C ← ctrl_at c;
  if nvme_ctrl_limited_cns (ci_vs (c_info C)) (ci_quirks (c_info C)) then mret (Some (- EOPNOTSUPP)) else
  ok ← ask e_alloc;
  if negb ok then mret (Some (- ENOMEM)) else
  scan_pages fuel c 0.

(** [false] when the loop does not end: [i <= nn] always holds for an unsigned [i]
    when [nn] is the largest number. *)
Definition nvme_scan_ns_sequential (c : positive) : K nst bool :=
  ok ← ask e_alloc;
  if negb ok then mret true else
  answer ← ask (λ t, e_identify_ctrl t c);
  let '(error, nn) := answer in
  if c_true error then mret true else
  kfor (nvme_validate_or_alloc_ns c) (seqZ 1 nn);;
  if nn =? U32_MAX then mret false else
  nvme_remove_invalid_namespaces c nn;; mret true.

(** The log of changed namespaces is read to clear the event, its contents are not
    used. *)
Definition nvme_clear_changed_ns_log (c : positive) : K nst unit :=
  ok ← ask e_alloc;
  if negb ok then mret tt else
  _ ← ask (λ t, e_log t c NVME_CSI_NVM); mret tt.

(** The result is [false] when the scan has not ended within [fuel] pages. *)
Definition nvme_scan_work (fuel : nat) (c : positive) : K nst bool :=
  C ← ctrl_at c;
  if negb (bool_decide (ct_state (c_ctl C) = NVME_CTRL_LIVE)) || negb (c_tagset C) then mret true else
  when (c_ns_changed C) (set_ctrl c C<{c_ns_changed := false}>;; nvme_clear_changed_ns_log c);;
  r ← nvme_scan_ns_list fuel c;
  match r with
  | None => mret false
  | Some ret => if c_true ret then nvme_scan_ns_sequential c else mret true
  end.

(** ** The end of a controller *)

Definition nvme_set_queue_dying (p : positive) : K nst unit :=
  N ← ns_at p;
  if ns_dead N then mret tt else
  set_ns p N<{ns_dead := true}><{ns_gendisk := (ns_gendisk N)<{d_capacity := 0}>}>.
Definition snvme_kill_queues (c : positive) : K nst unit :=
  C ← ctrl_at c; kfor nvme_set_queue_dying (c_namespaces C).

Definition snvme_remove_namespaces (c : positive) : K nst unit :=
  C ← ctrl_at c;
  when (bool_decide (ct_state (c_ctl C) = NVME_CTRL_DEAD)) (snvme_kill_queues c);;
  C ← ctrl_at c;
  set_ctrl c C<{c_ctl := (snvme_change_ctrl_state (c_ctl C) NVME_CTRL_DELETING_NOIO).2}>;;
  C ← ctrl_at c;
  modify (λ s, s<{n_rm := c_namespaces C}>);;
  set_ctrl c C<{c_namespaces := [] }>;;
  remove_all.
End model.
