(* ===== verification/NsInv.v ===== *)
(** * The invariant of the namespaces

    What holds of the store of Namespace.v between operations, and that giving and
    taking references, freeing, unlinking and adding keep it. *)
From Stdlib Require Import Sorted.
From S2P Require Import Prelude Lifecycle ReqSetup ReqLife NsIdent NsDisk Namespace.

(** ** Counting *)

Definition cnt {A} (P : A → bool) (m : gmap positive A) : Z := Z.of_nat (size (filter (λ kv, P kv.2 = true) m)).
Definition lcount (p : positive) (l : list positive) : Z := Z.of_nat (length (filter (p =.) l)).

Section counting.
Context {A : Type} (P : A → bool).
Implicit Types m : gmap positive A.

Lemma cnt_nonneg m : 0 ≤ cnt P m.
Proof. rw /cnt. lia. Qed.
Lemma cnt_fresh m k x : m !! k = None → cnt P (<[k := x]> m) = cnt P m + c_bool (P x).
Proof.
  intros Hk. rw /cnt. destruct (P x) eqn:E.
  - rw map_filter_insert_True // map_size_insert_None; [|apply map_lookup_filter_None; auto]. simpl. lia.
  - rw map_filter_insert_False; [|by rw /= E]. rw delete_id //. simpl. lia.
Qed.
Lemma cnt_delete m k x : m !! k = Some x → cnt P (base.delete k m) = cnt P m - c_bool (P x).
Proof.
  intros Hk. rw -{2}(insert_delete_id m k x Hk) cnt_fresh ?lookup_delete_eq //. lia.
Qed.
Lemma cnt_update m k x y : m !! k = Some x → cnt P (<[k := y]> m) = cnt P m - c_bool (P x) + c_bool (P y).
Proof.
  intros Hk. rw -insert_delete_eq cnt_fresh ?lookup_delete_eq // (cnt_delete m k x Hk) //.
Qed.
Lemma cnt_pos m k x : m !! k = Some x → P x = true → 1 ≤ cnt P m.
Proof. intros Hk Hx. pose proof (cnt_nonneg (base.delete k m)) as H. rw (cnt_delete m k x Hk) Hx /= in H. lia. Qed.
End counting.

Lemma lcount_cons p q l : lcount p (q :: l) = c_bool (bool_decide (p = q)) + lcount p l.
Proof. rw /lcount filter_cons. case_decide; case_bool_decide; simpl; try done; lia. Qed.
Lemma lcount_nonneg p l : 0 ≤ lcount p l.
Proof. rw /lcount. lia. Qed.
Lemma lcount_pos p l : p ∈ l ↔ 1 ≤ lcount p l.
Proof.
  induction l as [|q l IH].
  - rw /lcount /=. split; [by intros ?%elem_of_nil|lia].
  - rw lcount_cons elem_of_cons IH. pose proof (lcount_nonneg p l). case_bool_decide; simpl; naive_solver lia.
Qed.
Lemma lcount_app p l l' : lcount p (l ++ l') = lcount p l + lcount p l'.
Proof. rw /lcount filter_app length_app. lia. Qed.
Lemma lcount_delete p q i l : l !! i = Some q → lcount p (base.delete i l) = lcount p l - c_bool (bool_decide (p = q)).
Proof.
  intros Hi. pose proof (delete_Permutation l i q Hi) as HP.
  assert (lcount p l = lcount p (q :: base.delete i l)) as ->.
  { rw /lcount. f_equal. by apply Permutation_length, filter_Permutation. }
  rw lcount_cons. lia.
Qed.

(** ** What is listed *)

(** Number, identifiers, and whether it is dead. *)
Definition entry (m : gmap positive nvme_ns) (hs : gmap positive nvme_ns_head) (p : positive) :
    Z * (nvme_ns_ids * bool) :=
  match m !! p with
  | Some N => match hs !! ns_head N with Some H => (hd_ns_id H, (hd_ids H, ns_dead N)) | None => (0, (no_ids, false)) end
  | None => (0, (no_ids, false))
  end.
Definition entry_of (s : nst) (p : positive) : Z * (nvme_ns_ids * bool) := entry (n_ns s) (n_heads s) p.
Definition nsid_of (s : nst) (p : positive) : Z := (entry_of s p).1.
Definition listed (s : nst) (c : positive) : list positive := default [] (c_namespaces <$> n_ctrls s !! c).
Definition view (s : nst) (c : positive) : list (Z * (nvme_ns_ids * bool)) := entry_of s <$> listed s c.

(** ** The invariant *)

(** [held] are the references operations hold at the moment. *)
Record ns_inv (held : list positive) (s : nst) : Prop := NsInvI {
  i_ctrl : ∀ p N, n_ns s !! p = Some N → ∃ C, n_ctrls s !! ns_ctrl N = Some C ∧
    (ns_removing N = false ↔ p ∈ c_namespaces C ∨ p ∈ n_rm s);
  i_listed : ∀ c C p, n_ctrls s !! c = Some C → p ∈ c_namespaces C → ∃ N, n_ns s !! p = Some N ∧ ns_ctrl N = c;
  i_rm : ∀ p, p ∈ n_rm s → is_Some (n_ns s !! p);
  i_sorted : ∀ c C, n_ctrls s !! c = Some C → StronglySorted Z.lt (nsid_of s <$> c_namespaces C);
  i_head : ∀ p N, n_ns s !! p = Some N → ∃ H, n_heads s !! ns_head N = Some H ∧ (p ∈ hd_list H ↔ ns_removing N = false);
  i_sibling : ∀ h H p, n_heads s !! h = Some H → p ∈ hd_list H → ∃ N, n_ns s !! p = Some N ∧ ns_head N = h;
  i_nsheads : ∀ h, h ∈ n_nsheads s ↔ ∃ H, n_heads s !! h = Some H ∧ hd_list H ≠ [];
  i_nodup : NoDup (n_nsheads s);
  i_href : ∀ h H, n_heads s !! h = Some H → hd_ref H = cnt (λ N, Pos.eqb (ns_head N) h) (n_ns s) ∧ 1 ≤ hd_ref H;
  i_kref : ∀ p N, n_ns s !! p = Some N →
    ns_kref N = c_bool (negb (ns_removing N)) + lcount p (held ++ n_opens s) ∧ 1 ≤ ns_kref N;
  i_refs : ∀ p, p ∈ held ++ n_opens s → is_Some (n_ns s !! p);
  i_crefs : ∀ c C, n_ctrls s !! c = Some C → c_refs C = 1 + cnt (λ N, Pos.eqb (ns_ctrl N) c) (n_ns s);
  i_srefs : n_subsys_refs s = 1 + Z.of_nat (size (n_heads s));
  i_ida : ∀ i, i ∈ n_ida s ↔ ∃ h H, n_heads s !! h = Some H ∧ hd_instance H = i;
  i_inst : ∀ h h' H H', n_heads s !! h = Some H → n_heads s !! h' = Some H' → hd_instance H = hd_instance H' → h = h';
  i_cdev : ∀ p N, n_ns s !! p = Some N → ns_cdev N = negb (ns_removing N);
  i_next : ∀ p, is_Some (n_ns s !! p) ∨ is_Some (n_heads s !! p) → (p < n_next s)%positive;
}.

Lemma entry_eq m m' hs hs' p N N' H H' :
  m !! p = Some N → m' !! p = Some N' → hs !! ns_head N = Some H → hs' !! ns_head N' = Some H' →
  hd_ns_id H = hd_ns_id H' → hd_ids H = hd_ids H' → ns_dead N = ns_dead N' → entry m hs p = entry m' hs' p.
Proof. rw /entry. by intros -> -> -> -> -> -> ->. Qed.

(** ** Changes that keep it *)

Section keep.
Context (held : list positive) (s : nst) (Inv : ns_inv held s).

Lemma nsid_update s' p N N' :
  n_ns s !! p = Some N → ns_head N' = ns_head N → n_ns s' = <[p := N']> (n_ns s) → n_heads s' = n_heads s →
  ∀ q, nsid_of s' q = nsid_of s q.
Proof.
  intros Hp Hh Hm Hhs q. rw /nsid_of /entry_of /entry Hm Hhs. destruct (decide (q = p)) as [->|Hq].
  - rw lookup_insert_eq Hp Hh. by destruct (n_heads s !! ns_head N).
  - by rw lookup_insert_ne.
Qed.

(** A namespace keeps its place; references are counted. *)
Lemma inv_set_ns held' s' p N N' :
  n_ns s !! p = Some N → ns_head N' = ns_head N → ns_ctrl N' = ns_ctrl N → ns_removing N' = ns_removing N →
  ns_cdev N' = ns_cdev N → 1 ≤ ns_kref N' →
  (∀ q, lcount q (held' ++ n_opens s') =
        lcount q (held ++ n_opens s) + (if decide (q = p) then ns_kref N' - ns_kref N else 0)) →
  n_ns s' = <[p := N']> (n_ns s) → n_heads s' = n_heads s → n_nsheads s' = n_nsheads s → n_ida s' = n_ida s →
  n_subsys_refs s' = n_subsys_refs s → n_ctrls s' = n_ctrls s → n_rm s' = n_rm s → n_next s' = n_next s →
  ns_inv held' s'.
Proof.
  intros Hp Eh Ec Er Ed Hk Hcnt Em Eh' En Ei Es Ect Erm Enx. destruct Inv as [I1 I2 I3 I4 I5 I6 I7 I8 I9 I10 I11 I12 I13 I14 I15 I16 I17].
  pose proof (nsid_update s' p N N' Hp Eh Em Eh') as Hid.
  assert (∀ q, is_Some (n_ns s' !! q) ↔ is_Some (n_ns s !! q)) as Hsome.
  { intros q. rw Em. destruct (decide (q = p)) as [->|Hq]; [rw lookup_insert_eq Hp; split; eauto|by rw lookup_insert_ne]. }
  assert (∀ f, (f N' = f N) → cnt f (n_ns s') = cnt f (n_ns s)) as Hc.
  { intros f Hf. rw Em (cnt_update f _ p N N' Hp) Hf. lia. }
  assert (∀ q M', n_ns s' !! q = Some M' → ∃ M, n_ns s !! q = Some M ∧ ns_head M' = ns_head M ∧ ns_ctrl M' = ns_ctrl M ∧
    ns_removing M' = ns_removing M ∧ ns_cdev M' = ns_cdev M ∧
    (ns_kref M' = ns_kref M + if decide (q = p) then ns_kref N' - ns_kref N else 0) ∧ (1 ≤ ns_kref M → 1 ≤ ns_kref M')) as Hns.
  { intros q M'. rw Em. destruct (decide (q = p)) as [->|Hq].
    - rw lookup_insert_eq. intros [= <-]. exists N. repeat split; auto; lia.
    - rw lookup_insert_ne //. intros HM. exists M'. repeat split; auto; lia. }
  split; rw ?Eh' ?En ?Ei ?Es ?Ect ?Erm ?Enx; auto.
  - intros q M' HM. destruct (Hns q M' HM) as (M & HM0 & _ & -> & -> & _). eauto.
  - intros c C q HC Hq. destruct (I2 c C q HC Hq) as (M & HM & <-). destruct (Hsome q) as [_ Hs].
    destruct Hs as [M' HM']; [eauto|]. exists M'. split; [done|]. destruct (Hns q M' HM') as (M1 & HM1 & _ & -> & _). naive_solver.
  - intros q Hq. by apply Hsome, I3.
  - intros c C HC. rw (list_fmap_ext _ (nsid_of s)); [by eapply I4|]. intros ???. apply Hid.
  - intros q M' HM. destruct (Hns q M' HM) as (M & HM0 & -> & _ & -> & _). eauto.
  - intros h H q HH Hq. destruct (I6 h H q HH Hq) as (M & HM & <-). destruct (Hsome q) as [_ Hs].
    destruct Hs as [M' HM']; [eauto|]. exists M'. split; [done|]. destruct (Hns q M' HM') as (M1 & HM1 & -> & _). naive_solver.
  - intros h H HH. rw Hc; [eauto|by rw Eh].
  - intros q M' HM. destruct (Hns q M' HM) as (M & HM0 & _ & _ & -> & _ & -> & Hpos). destruct (I10 q M HM0) as [Hk0 Hk1].
    specialize (Hpos Hk1). rw Hcnt. split; [lia|done].
  - intros q Hq. apply Hsome. destruct (decide (q = p)) as [->|Hne]; [eauto|].
    apply I11. apply lcount_pos. apply lcount_pos in Hq. rw Hcnt decide_False // in Hq. lia.
  - intros c C HC. rw Hc; [eauto|by rw Ec].
  - intros q M' HM. destruct (Hns q M' HM) as (M & HM0 & _ & _ & -> & -> & _). eauto.
  - intros q Hq. apply I17. destruct Hq as [Hq|Hq]; [left; by apply Hsome|by right].
Qed.

(** A controller keeps its list and its count. *)
Lemma inv_set_ctrl s' c C C' :
  n_ctrls s !! c = Some C → c_namespaces C' = c_namespaces C → c_refs C' = c_refs C →
  n_ctrls s' = <[c := C']> (n_ctrls s) →
  n_ns s' = n_ns s → n_heads s' = n_heads s → n_nsheads s' = n_nsheads s → n_ida s' = n_ida s →
  n_subsys_refs s' = n_subsys_refs s → n_rm s' = n_rm s → n_opens s' = n_opens s → n_next s' = n_next s →
  ns_inv held s'.
Proof.
  intros Hc El Er Ect Em Eh En Ei Es Erm Eo Enx. destruct Inv as [I1 I2 I3 I4 I5 I6 I7 I8 I9 I10 I11 I12 I13 I14 I15 I16 I17].
  assert (∀ d D', n_ctrls s' !! d = Some D' → ∃ D, n_ctrls s !! d = Some D ∧ c_namespaces D' = c_namespaces D ∧ c_refs D' = c_refs D) as Hct.
  { intros d D'. rw Ect. destruct (decide (d = c)) as [->|].
    - rw lookup_insert_eq. intros [= <-]. exists C. auto.
    - rw lookup_insert_ne //. intros HD. exists D'. auto. }
  assert (∀ p, nsid_of s' p = nsid_of s p) as Hid by (intros p; by rw /nsid_of /entry_of Em Eh).
  split; rw ?Em ?Eh ?En ?Ei ?Es ?Erm ?Eo ?Enx; auto.
  - intros p N HN. destruct (I1 p N HN) as (D & HD & Hiff). rw Ect. destruct (decide (ns_ctrl N = c)) as [Heq|Hne].
    + rw Heq lookup_insert_eq. exists C'. split; [done|]. rw El. rw Heq Hc in HD. by simplify_eq.
    + rw lookup_insert_ne //. eauto.
  - intros d D' p HD Hp. destruct (Hct d D' HD) as (D & HD0 & Hl & _). rw Hl in Hp. eauto.
  - intros d D' HD. destruct (Hct d D' HD) as (D & HD0 & -> & _). rw (list_fmap_ext _ (nsid_of s)); [by eapply I4|]. intros ???. apply Hid.
  - intros d D' HD. destruct (Hct d D' HD) as (D & HD0 & _ & ->). eauto.
Qed.

(** Only the clock moves. *)
Lemma inv_tick t : ns_inv held (s<{n_tick := t}>).
Proof. by destruct Inv; split. Qed.
End keep.

Lemma cnt_one {A} (P : A → bool) (m : gmap positive A) p q x y :
  cnt P m = 1 → m !! p = Some x → P x = true → m !! q = Some y → P y = true → q = p.
Proof.
  intros H1 Hp Hx Hq Hy. destruct (decide (q = p)) as [|Hne]; [done|exfalso].
  pose proof (cnt_delete P m p x Hp) as Hd. rw Hx H1 /= in Hd.
  pose proof (cnt_pos P (base.delete p m) q y) as Hpos. rw lookup_delete_ne // in Hpos. specialize (Hpos Hq Hy). lia.
Qed.

(** What a namespace and its head look like after a head has been updated. *)
Lemma entry_heads m hs hs' p :
  (∀ N, m !! p = Some N → ∃ H H', hs !! ns_head N = Some H ∧ hs' !! ns_head N = Some H' ∧
    hd_ns_id H' = hd_ns_id H ∧ hd_ids H' = hd_ids H) →
  entry m hs' p = entry m hs p.
Proof.
  intros Hall. rw /entry. destruct (m !! p) as [N|] eqn:HN; [|done].
  destruct (Hall N eq_refl) as (H & H' & -> & -> & -> & ->). done.
Qed.

(** ** Freeing the last reference *)

Section free.
Context (held : list positive) (s s' : nst) (p : positive) (N : nvme_ns) (H : nvme_ns_head) (C : nctrl).
Context (Inv : ns_inv (p :: held) s) (HN : n_ns s !! p = Some N) (Hk : ns_kref N = 1).
Context (HH : n_heads s !! ns_head N = Some H) (HC : n_ctrls s !! ns_ctrl N = Some C).
Context (Em : n_ns s' = base.delete p (n_ns s)).
Context (Eh : if decide (hd_ref H = 1)
              then n_heads s' = base.delete (ns_head N) (n_heads s) ∧ n_ida s' = n_ida s ∖ {[hd_instance H]} ∧
                   n_subsys_refs s' = n_subsys_refs s - 1
              else n_heads s' = <[ns_head N := H<{hd_ref := hd_ref H - 1}>]> (n_heads s) ∧ n_ida s' = n_ida s ∧
                   n_subsys_refs s' = n_subsys_refs s).
Context (Ect : n_ctrls s' = <[ns_ctrl N := C<{c_refs := c_refs C - 1}>]> (n_ctrls s)).
Context (En : n_nsheads s' = n_nsheads s) (Erm : n_rm s' = n_rm s) (Eo : n_opens s' = n_opens s)
        (Enx : n_next s' = n_next s).

Lemma free_facts : ns_removing N = true ∧ lcount p (held ++ n_opens s) = 0.
Proof.
  destruct (i_kref _ _ Inv p N HN) as [Hr _]. rw Hk /= lcount_cons bool_decide_true //= in Hr.
  pose proof (lcount_nonneg p (held ++ n_opens s)). destruct (ns_removing N); simpl in Hr; [split; [done|lia]|lia].
Qed.

(** Another namespace has its head still, with one reference less at most. *)
Lemma free_head q M : q ≠ p → n_ns s !! q = Some M → ∃ G, n_heads s !! ns_head M = Some G ∧
  n_heads s' !! ns_head M = Some (if decide (ns_head M = ns_head N) then G<{hd_ref := hd_ref G - 1}> else G).
Proof.
  intros Hq HM. destruct (i_head _ _ Inv q M HM) as (G & HG & _). exists G. split; [done|].
  destruct (i_href _ _ Inv _ H HH) as [Hr _].
  destruct (decide (hd_ref H = 1)) as [H1|H1]; destruct Eh as (-> & _ & _).
  - rw lookup_delete_ne; [|intros He]. { rw decide_False //. intros He. rw Hr in H1.
      apply Hq. eapply (cnt_one _ _ p q N M H1 HN); [by apply Pos.eqb_refl|done|by apply Pos.eqb_eq]. }
    rw Hr in H1. apply Hq. eapply (cnt_one _ _ p q N M H1 HN); [by apply Pos.eqb_refl|done|by apply Pos.eqb_eq].
  - case_decide as He; [rw He lookup_insert_eq; by rw He HH in HG; simplify_eq|by rw lookup_insert_ne].
Qed.

Lemma free_entry q : q ≠ p → is_Some (n_ns s !! q) → entry_of s' q = entry_of s q.
Proof.
  intros Hq [M HM]. destruct (free_head q M Hq HM) as (G & HG & HG').
  rw /entry_of Em. eapply entry_eq; [by rw lookup_delete_ne|done|exact HG'|done|..]; by case_decide.
Qed.

Lemma free_heads_inv h G' : n_heads s' !! h = Some G' → ∃ G, n_heads s !! h = Some G ∧
  hd_list G' = hd_list G ∧ hd_instance G' = hd_instance G ∧
  hd_ref G' = hd_ref G - c_bool (bool_decide (h = ns_head N)) ∧ (h = ns_head N → hd_ref H ≠ 1).
Proof.
  destruct (decide (hd_ref H = 1)) as [H1|H1]; destruct Eh as (-> & _ & _).
  - intros [Hne HG]%lookup_delete_Some. exists G'. rw bool_decide_false //=. repeat split; auto; try lia; congruence.
  - destruct (decide (h = ns_head N)) as [->|Hne].
    + rw lookup_insert_eq. intros [= <-]. exists H. rw bool_decide_true //=.
    + rw lookup_insert_ne //. intros HG. exists G'. rw bool_decide_false //=. repeat split; auto; try lia; congruence.
Qed.

Lemma free_other q M : n_ns s' !! q = Some M → q ≠ p ∧ n_ns s !! q = Some M.
Proof. rw Em. intros [? ?]%lookup_delete_Some. auto. Qed.

Lemma free_ctrls c D' : n_ctrls s' !! c = Some D' → ∃ D, n_ctrls s !! c = Some D ∧ c_namespaces D' = c_namespaces D ∧
  c_refs D' = c_refs D - c_bool (Pos.eqb (ns_ctrl N) c).
Proof.
  rw Ect. destruct (decide (c = ns_ctrl N)) as [->|Hne].
  - rw lookup_insert_eq. intros [= <-]. exists C. rw Pos.eqb_refl. auto.
  - rw lookup_insert_ne //. intros HD. exists D'. rw (proj2 (Pos.eqb_neq _ _)); [|done]. repeat split; auto. simpl. lia.
Qed.

Lemma inv_free : ns_inv held s'.
Proof.
  destruct free_facts as [Hrem H0]. pose proof free_other as Hoth. pose proof free_ctrls as Hct.
  pose proof Inv as [I1 I2 I3 I4 I5 I6 I7 I8 I9 I10 I11 I12 I13 I14 I15 I16 I17].
  assert (∀ q, is_Some (n_ns s !! q) → q ≠ p → is_Some (n_ns s' !! q)) as Hsome.
  { intros q Hq Hne. by rw Em lookup_delete_ne. }
  assert (∀ c D, n_ctrls s !! c = Some D → p ∉ c_namespaces D) as Hnl.
  { intros c D HD Hin. destruct (I2 c D p HD Hin) as (M & HM & <-). assert (M = N) as -> by congruence.
    destruct (I1 p N HN) as (D' & HD' & [_ Hiff]). assert (D' = D) as -> by congruence. rw Hiff in Hrem; [done|by left]. }
  assert (p ∉ n_rm s) as Hnr.
  { intros Hin. destruct (I1 p N HN) as (D' & HD' & [_ Hiff]). rw Hiff in Hrem; [done|by right]. }
  assert (∀ h G, n_heads s !! h = Some G → p ∉ hd_list G) as Hns.
  { intros h G HG Hin. destruct (I6 h G p HG Hin) as (M & HM & <-). assert (M = N) as -> by congruence.
    destruct (I5 p N HN) as (G' & HG' & Hiff). assert (G' = G) as -> by congruence. apply Hiff in Hin. congruence. }
  split; rw ?En ?Erm ?Eo ?Enx.
  - intros q M [Hne HM]%Hoth. destruct (I1 q M HM) as (D & HD & Hiff).
    rw Ect. destruct (decide (ns_ctrl M = ns_ctrl N)) as [He|].
    + rw He lookup_insert_eq. eexists. split; [done|]. rw He HC in HD. by simplify_eq.
    + rw lookup_insert_ne //. eauto.
  - intros c D' q (D & HD & Hl & _)%Hct Hq. rw Hl in Hq. destruct (I2 c D q HD Hq) as (M & HM & Hc). exists M. split; [|done].
    rw Em lookup_delete_ne //. intros ->. by eapply Hnl.
  - intros q Hq. apply Hsome; [by apply I3|]. by intros ->.
  - intros c D' (D & HD & -> & _)%Hct. rw (list_fmap_ext _ (nsid_of s)); [by eapply I4|].
    intros i q Hq%list_elem_of_lookup_2. rw /nsid_of free_entry //; [intros ->; by eapply Hnl|].
    destruct (I2 c D q HD Hq) as (M & -> & _). eauto.
  - intros q M [Hne HM]%Hoth. destruct (free_head q M Hne HM) as (G & HG & ->). destruct (I5 q M HM) as (G' & HG' & Hiff). assert (G' = G) as -> by congruence.
    eexists. split; [done|]. destruct (decide (ns_head M = ns_head N)); exact Hiff.
  - intros h G' q (G & HG & Hl & _)%free_heads_inv Hq. rw Hl in Hq. destruct (I6 h G q HG Hq) as (M & HM & Hh). exists M.
    split; [|done]. rw Em lookup_delete_ne //. intros ->. by eapply Hns.
  - intros h. rw I7. split.
    + intros (G & HG & Hl). destruct (hd_list G) as [|q l] eqn:El; [done|].
      destruct (I6 h G q HG) as (M & HM & <-); [rw El; apply elem_of_cons; by left|].
      destruct (free_head q M) as (G1 & HG1 & HG'); [intros ->; eapply (Hns _ G HG); rw El; apply elem_of_cons; by left|done|].
      assert (G1 = G) as -> by congruence. eexists. split; [exact HG'|].
      destruct (decide (ns_head M = ns_head N)); simpl; congruence.
    + intros (G' & (G & HG & Hl & _)%free_heads_inv & Hne). exists G. split; congruence.
  - done.
  - intros h G' HG'. pose proof HG' as (G & HG & _ & _ & -> & Hn1)%free_heads_inv. destruct (I9 h G HG) as [Hr Hpos].
    rw Em (cnt_delete _ _ p N HN) Hr. case_bool_decide as Hh; simpl.
    + subst h. rw Pos.eqb_refl /=. specialize (Hn1 eq_refl). simplify_eq. lia.
    + rw (proj2 (Pos.eqb_neq _ _)) /=; [lia|congruence].
  - intros q M [Hne HM]%Hoth. destruct (I10 q M HM) as [-> Hpos]. rw /= lcount_cons bool_decide_false //= in Hpos |- *.
  - intros q Hq. destruct (decide (q = p)) as [->|Hne]; [apply lcount_pos in Hq; lia|]. apply Hsome; [|done].
    apply I11. apply elem_of_cons. by right.
  - intros c D' (D & HD & _ & ->)%Hct. rw (I12 c D HD) Em (cnt_delete _ _ p N HN). lia.
  - destruct (decide (hd_ref H = 1)) as [H1|H1]; destruct Eh as (-> & _ & ->); rw I13.
    + rw map_size_delete HH. pose proof (map_size_ne_0_lookup_2 (n_heads s) (ns_head N)) as Hz.
      specialize (Hz (ltac:(rw HH; eauto))). lia.
    + rw map_size_insert_Some //.
  - intros i. destruct (decide (hd_ref H = 1)) as [H1|H1]; destruct Eh as (-> & -> & _).
    + rw elem_of_difference elem_of_singleton I14. split.
      * intros [(h & G & HG & <-) Hne]. exists h, G. split; [|done]. rw lookup_delete_ne //. intros <-. by simplify_eq.
      * intros (h & G & [Hne HG]%lookup_delete_Some & <-). split; [by eauto|]. intros He. apply Hne. by eapply I15.
    + rw I14. split.
      * intros (h & G & HG & <-). destruct (decide (h = ns_head N)) as [->|Hne].
        { exists (ns_head N), (H<{hd_ref := hd_ref H - 1}>). rw lookup_insert_eq. split; [done|].
          assert (G = H) as -> by congruence. done. }
        { exists h, G. by rw lookup_insert_ne. }
      * intros (h & G & HG & <-). destruct (decide (h = ns_head N)) as [->|Hne].
        { rw lookup_insert_eq in HG. simplify_eq. eauto. }
        { rw lookup_insert_ne // in HG. eauto. }
  - intros h h' G G' (G1 & HG1 & _ & -> & _)%free_heads_inv (G2 & HG2 & _ & -> & _)%free_heads_inv. eauto.
  - intros q M [Hne HM]%Hoth. eauto.
  - intros q [[M [_ HM]%Hoth]|[G (G1 & HG1 & _)%free_heads_inv]]; apply I17; eauto.
Qed.
End free.

Lemma sorted_filter {A} (f : A → Z) (P : A → Prop) `{∀ x, Decision (P x)} (l : list A) :
  StronglySorted Z.lt (f <$> l) → StronglySorted Z.lt (f <$> filter P l).
Proof.
  induction l as [|x l IH]; intros Hs; [done|]. rw fmap_cons in Hs.
  apply StronglySorted_inv in Hs as [Hs Hx]. rw filter_cons. case_decide; [|by auto]. rw fmap_cons. constructor; [by auto|].
  rw Forall_fmap. rw Forall_fmap in Hx.
  apply list.Forall_forall. intros y [_ Hy]%list_elem_of_filter. rw list.Forall_forall in Hx. by apply Hx.
Qed.

(** ** Taking a namespace off its lists *)

Section mark.
Context (held : list positive) (s s' : nst) (p : positive) (N N' : nvme_ns) (H : nvme_ns_head) (C : nctrl).
Context (Inv : ns_inv held s) (HN : n_ns s !! p = Some N) (Hrem : ns_removing N = false).
Context (HH : n_heads s !! ns_head N = Some H) (HC : n_ctrls s !! ns_ctrl N = Some C).
Context (Nh : ns_head N' = ns_head N) (Nc : ns_ctrl N' = ns_ctrl N) (Nk : ns_kref N' = ns_kref N)
        (Nr : ns_removing N' = true) (Nd : ns_cdev N' = false).
Context (Em : n_ns s' = <[p := N']> (n_ns s)).
Context (Eh : n_heads s' = <[ns_head N := H<{hd_list := unlink p (hd_list H)}>]> (n_heads s)).
Context (En : n_nsheads s' = if bool_decide (unlink p (hd_list H) = []) then unlink (ns_head N) (n_nsheads s) else n_nsheads s).
Context (Ect : n_ctrls s' = <[ns_ctrl N := C<{c_namespaces := unlink p (c_namespaces C)}>]> (n_ctrls s)).
Context (Erm : n_rm s' = unlink p (n_rm s)) (Eo : n_opens s' = n_opens s) (Enx : n_next s' = n_next s)
        (Ei : n_ida s' = n_ida s) (Es : n_subsys_refs s' = n_subsys_refs s).

Lemma mark_ns q M' : n_ns s' !! q = Some M' → q = p ∧ M' = N' ∨ q ≠ p ∧ n_ns s !! q = Some M'.
Proof.
  rw Em. destruct (decide (q = p)) as [->|Hne]; [rw lookup_insert_eq; intros [= <-]; by left|].
  rw lookup_insert_ne //. by right.
Qed.
Lemma mark_some q : is_Some (n_ns s' !! q) ↔ is_Some (n_ns s !! q).
Proof.
  rw Em. destruct (decide (q = p)) as [->|Hne]; [rw lookup_insert_eq HN; split; eauto|by rw lookup_insert_ne].
Qed.
Lemma mark_head h G : n_heads s !! h = Some G →
  n_heads s' !! h = Some (if decide (h = ns_head N) then G<{hd_list := unlink p (hd_list G)}> else G).
Proof.
  intros HG. rw Eh. case_decide as He; [subst h; rw lookup_insert_eq; by simplify_eq|by rw lookup_insert_ne].
Qed.
Lemma mark_head_inv h G' : n_heads s' !! h = Some G' → ∃ G, n_heads s !! h = Some G ∧
  G' = (if decide (h = ns_head N) then G<{hd_list := unlink p (hd_list G)}> else G).
Proof.
  rw Eh. destruct (decide (h = ns_head N)) as [->|Hne].
  - rw lookup_insert_eq. intros [= <-]. eauto.
  - rw lookup_insert_ne //. eauto.
Qed.
Lemma mark_ctrl c D : n_ctrls s !! c = Some D →
  n_ctrls s' !! c = Some (if decide (c = ns_ctrl N) then D<{c_namespaces := unlink p (c_namespaces D)}> else D).
Proof.
  intros HD. rw Ect. case_decide as He; [subst c; rw lookup_insert_eq; by simplify_eq|by rw lookup_insert_ne].
Qed.
Lemma mark_ctrl_inv c D' : n_ctrls s' !! c = Some D' → ∃ D, n_ctrls s !! c = Some D ∧
  D' = (if decide (c = ns_ctrl N) then D<{c_namespaces := unlink p (c_namespaces D)}> else D).
Proof.
  rw Ect. destruct (decide (c = ns_ctrl N)) as [->|Hne].
  - rw lookup_insert_eq. intros [= <-]. eauto.
  - rw lookup_insert_ne //. eauto.
Qed.

Lemma mark_entry q : q ≠ p → entry_of s' q = entry_of s q.
Proof.
  intros Hne. rw /entry_of /entry Em lookup_insert_ne //. destruct (n_ns s !! q) as [M|] eqn:HM; [|done].
  destruct (i_head _ _ Inv q M HM) as (G & HG & _). rw HG (mark_head _ G HG). by case_decide.
Qed.

(** A head or a controller lists [p] only if it is its own. *)
Lemma mark_list h G q : n_heads s !! h = Some G → (q ∈ hd_list (if decide (h = ns_head N) then G<{hd_list := unlink p (hd_list G)}> else G)
  ↔ q ∈ hd_list G ∧ q ≠ p).
Proof.
  intros HG. case_decide as He; simpl; [apply elem_of_unlink|]. split; [|by intros []]. intros Hq. split; [done|]. intros ->.
  destruct (i_sibling _ _ Inv h G p HG Hq) as (M & HM & <-). congruence.
Qed.
Lemma mark_names c D q : n_ctrls s !! c = Some D → (q ∈ c_namespaces (if decide (c = ns_ctrl N) then D<{c_namespaces := unlink p (c_namespaces D)}> else D)
  ↔ q ∈ c_namespaces D ∧ q ≠ p).
Proof.
  intros HD. case_decide as He; simpl; [apply elem_of_unlink|]. split; [|by intros []]. intros Hq. split; [done|]. intros ->.
  destruct (i_listed _ _ Inv c D p HD Hq) as (M & HM & <-). congruence.
Qed.

Lemma mark_nsheads h : h ∈ n_nsheads s' ↔ ∃ G', n_heads s' !! h = Some G' ∧ hd_list G' ≠ [].
Proof.
  rw En. split.
  - intros Hh. assert (h ∈ n_nsheads s ∧ (h = ns_head N → unlink p (hd_list H) ≠ [])) as [Hin Hne].
    { case_bool_decide as He; [apply elem_of_unlink in Hh; naive_solver|naive_solver]. }
    apply (i_nsheads _ _ Inv) in Hin as (G & HG & Hl). eexists. split; [by apply mark_head|].
    case_decide as Hd; [|done]. simpl. subst h. assert (G = H) as -> by congruence. auto.
  - intros (G' & (G & HG & ->)%mark_head_inv & Hl).
    assert (hd_list G ≠ []) as Hl0. { case_decide; [|done]. simpl in Hl. by destruct (hd_list G). }
    assert (h ∈ n_nsheads s) as Hin by (apply (i_nsheads _ _ Inv); eauto).
    case_bool_decide as He; [|done]. apply elem_of_unlink. split; [done|]. intros ->.
    rw decide_True // in Hl. assert (G = H) as -> by congruence. done.
Qed.

Lemma inv_mark : ns_inv (p :: held) s'.
Proof.
  pose proof Inv as [I1 I2 I3 I4 I5 I6 I7 I8 I9 I10 I11 I12 I13 I14 I15 I16 I17].
  assert (∀ f : nvme_ns → bool, f N' = f N → cnt f (n_ns s') = cnt f (n_ns s)) as Hc.
  { intros f Hf. rw Em (cnt_update f _ p N N' HN) Hf. lia. }
  split; rw ?Ei ?Es ?Eo ?Enx.
  - intros q M' [[-> ->]|[Hne HM]]%mark_ns.
    + rw Nc. eexists. split; [by apply mark_ctrl|]. rw (mark_names _ C) // Erm elem_of_unlink Nr. naive_solver.
    + destruct (I1 q M' HM) as (D & HD & Hiff). eexists. split; [by apply mark_ctrl|].
      rw (mark_names _ D) // Erm elem_of_unlink Hiff. naive_solver.
  - intros c D' q (D & HD & ->)%mark_ctrl_inv [Hq Hne]%(mark_names c D q HD). destruct (I2 c D q HD Hq) as (M & HM & Hc').
    exists M. split; [|done]. by rw Em lookup_insert_ne.
  - intros q. rw Erm elem_of_unlink. intros [Hq _]. by apply mark_some, I3.
  - intros c D' (D & HD & ->)%mark_ctrl_inv. pose proof (I4 c D HD) as Hs.
    assert (StronglySorted Z.lt (nsid_of s <$> c_namespaces (if decide (c = ns_ctrl N) then D<{c_namespaces := unlink p (c_namespaces D)}> else D))) as Hs'.
    { case_decide; [|done]. by apply (sorted_filter (nsid_of s)). }
    rw (list_fmap_ext _ (nsid_of s)) //. intros i q Hq%list_elem_of_lookup_2%mark_names; [|done]. rw /nsid_of mark_entry //. naive_solver.
  - intros q M' [[-> ->]|[Hne HM]]%mark_ns.
    + rw Nh. eexists. split; [by apply mark_head|]. rw mark_list // Nr. naive_solver.
    + destruct (I5 q M' HM) as (G & HG & Hiff). eexists. split; [by apply mark_head|]. rw mark_list // Hiff. naive_solver.
  - intros h G' q (G & HG & ->)%mark_head_inv [Hq Hne]%(mark_list h G q HG). destruct (I6 h G q HG Hq) as (M & HM & Hh).
    exists M. split; [|done]. by rw Em lookup_insert_ne.
  - apply mark_nsheads.
  - rw En. case_bool_decide; [by apply NoDup_unlink|done].
  - intros h G' (G & HG & ->)%mark_head_inv. destruct (I9 h G HG) as [Hr Hpos]. rw Hc; [|by rw Nh]. by case_decide.
  - intros q M' [[-> ->]|[Hne HM]]%mark_ns.
    + destruct (I10 p N HN) as [Hk Hpos]. rw Nk Nr /= lcount_cons bool_decide_true //. rw Hrem /= in Hk. simpl. lia.
    + destruct (I10 q M' HM) as [Hk Hpos]. rw /= lcount_cons bool_decide_false //.
  - intros q [->|Hq]%elem_of_cons; apply mark_some; eauto.
  - intros c D' (D & HD & ->)%mark_ctrl_inv. rw Hc; [|by rw Nc]. rw -(I12 c D HD). by case_decide.
  - by rw Eh map_size_insert_Some.
  - intros i. rw I14. split.
    + intros (h & G & HG & <-). eexists _, _. split; [by apply mark_head|]. by case_decide.
    + intros (h & G' & (G & HG & ->)%mark_head_inv & <-). exists h, G. split; [done|]. by case_decide.
  - intros h h' G G' (G1 & HG1 & ->)%mark_head_inv (G2 & HG2 & ->)%mark_head_inv Hi. eapply I15; [done..|].
    by repeat case_decide.
  - intros q M' [[-> ->]|[Hne HM]]%mark_ns; [by rw Nr|]. eauto.
  - intros q [Hq|[G (G1 & HG1 & _)%mark_head_inv]]; apply I17; [left; by apply mark_some|eauto].
Qed.
End mark.

Lemma sorted_insert (f : positive → Z) p l1 l2 :
  StronglySorted Z.lt (f <$> l1 ++ l2) → (∀ q, q ∈ l1 → f q < f p) → (∀ q, q ∈ l2 → f p < f q) →
  StronglySorted Z.lt (f <$> l1 ++ p :: l2).
Proof.
  intros Hs H1 H2. induction l1 as [|x l IH].
  - rw app_nil_l fmap_cons. constructor; [done|]. rw Forall_fmap. by apply list.Forall_forall.
  - rw -app_comm_cons fmap_cons in Hs. apply StronglySorted_inv in Hs as [Hs Hx]. rw -app_comm_cons fmap_cons. constructor.
    + apply IH; [done|]. intros q Hq. apply H1, elem_of_cons. by right.
    + rw fmap_app Forall_app in Hx. rw fmap_app Forall_app /= Forall_cons. destruct Hx. split; [done|]. split; [|done].
      apply H1, elem_of_cons. by left.
Qed.

(** ** Adding a namespace *)

Section add.
Context (held : list positive) (s s' : nst) (p h c : positive) (N : nvme_ns) (H' : nvme_ns_head) (C C' : nctrl)
        (l1 l2 : list positive).
Context (Inv : ns_inv held s) (Hfresh : n_ns s !! p = None).
Context (Nh : ns_head N = h) (Nc : ns_ctrl N = c) (Nk : ns_kref N = 1) (Nr : ns_removing N = false) (Nd : ns_cdev N = true).
Context (HC : n_ctrls s !! c = Some C) (Hl : c_namespaces C = l1 ++ l2).
Context (Hl1 : ∀ q, q ∈ l1 → nsid_of s q < hd_ns_id H') (Hl2 : ∀ q, q ∈ l2 → hd_ns_id H' < nsid_of s q).
Context (Em : n_ns s' = <[p := N]> (n_ns s)) (Eh : n_heads s' = <[h := H']> (n_heads s)).
Context (Eold : match n_heads s !! h with
  | Some G => (hd_list H' = hd_list G ++ [p]) ∧ hd_list G ≠ [] ∧ hd_ref H' = hd_ref G + 1 ∧ hd_instance H' = hd_instance G ∧
      hd_ns_id H' = hd_ns_id G ∧ hd_ids H' = hd_ids G ∧ n_nsheads s' = n_nsheads s ∧ n_ida s' = n_ida s ∧
      n_subsys_refs s' = n_subsys_refs s
  | None => (hd_list H' = [p]) ∧ hd_ref H' = 1 ∧ (hd_instance H' ∉ n_ida s) ∧ (n_nsheads s' = n_nsheads s ++ [h]) ∧
      n_ida s' = n_ida s ∪ {[hd_instance H']} ∧ n_subsys_refs s' = n_subsys_refs s + 1
  end).
Context (Ect : n_ctrls s' = <[c := C']> (n_ctrls s)) (Cl : c_namespaces C' = l1 ++ p :: l2) (Cr : c_refs C' = c_refs C + 1).
Context (Erm : n_rm s' = n_rm s) (Eo : n_opens s' = n_opens s)
        (Enx : ∀ q, (q < n_next s)%positive ∨ q = p ∨ q = h → (q < n_next s')%positive).

Lemma add_cases :
  (∃ G, n_heads s !! h = Some G ∧ (hd_list H' = hd_list G ++ [p]) ∧ hd_list G ≠ [] ∧ hd_ref H' = hd_ref G + 1 ∧
    hd_instance H' = hd_instance G ∧ n_nsheads s' = n_nsheads s ∧ n_ida s' = n_ida s ∧ n_subsys_refs s' = n_subsys_refs s) ∨
  (n_heads s !! h = None ∧ (hd_list H' = [p]) ∧ hd_ref H' = 1 ∧ (hd_instance H' ∉ n_ida s) ∧ (n_nsheads s' = n_nsheads s ++ [h]) ∧
    (n_ida s' = n_ida s ∪ {[hd_instance H']}) ∧ n_subsys_refs s' = n_subsys_refs s + 1).
Proof. pose proof Eold as Ho. destruct (n_heads s !! h) as [G|]; [left; exists G; naive_solver|by right]. Qed.

Lemma add_ns q M : n_ns s' !! q = Some M → q = p ∧ M = N ∨ q ≠ p ∧ n_ns s !! q = Some M.
Proof.
  rw Em. destruct (decide (q = p)) as [->|Hne]; [rw lookup_insert_eq; intros [= <-]; by left|].
  rw lookup_insert_ne //. by right.
Qed.
Lemma add_keep q M : n_ns s !! q = Some M → q ≠ p ∧ n_ns s' !! q = Some M.
Proof. intros HM. assert (q ≠ p) as Hne by congruence. by rw Em lookup_insert_ne. Qed.
Lemma add_head q G : n_heads s !! q = Some G → ∃ G', n_heads s' !! q = Some G' ∧
  hd_ns_id G' = hd_ns_id G ∧ hd_ids G' = hd_ids G ∧ hd_instance G' = hd_instance G ∧
  hd_list G' = hd_list G ++ (if decide (q = h) then [p] else []).
Proof.
  intros HG. rw Eh. case_decide as He.
  - subst q. rw lookup_insert_eq. pose proof Eold as Ho. rw HG in Ho. exists H'. naive_solver.
  - rw lookup_insert_ne // app_nil_r. eauto 10.
Qed.
Lemma add_head_inv q G' : n_heads s' !! q = Some G' →
  (q = h ∧ G' = H') ∨ (q ≠ h ∧ n_heads s !! q = Some G').
Proof.
  rw Eh. destruct (decide (q = h)) as [->|Hne]; [rw lookup_insert_eq; intros [= <-]; by left|].
  rw lookup_insert_ne //. by right.
Qed.
Lemma add_entry q : q ≠ p → entry_of s' q = entry_of s q.
Proof.
  intros Hne. rw /entry_of /entry Em lookup_insert_ne //. destruct (n_ns s !! q) as [M|] eqn:HM; [|done].
  destruct (i_head _ _ Inv q M HM) as (G & HG & _). destruct (add_head _ G HG) as (G' & -> & -> & -> & _). by rw HG.
Qed.
Lemma add_entry_new : entry_of s' p = (hd_ns_id H', (hd_ids H', ns_dead N)).
Proof. by rw /entry_of /entry Em Eh lookup_insert_eq Nh lookup_insert_eq. Qed.
Lemma add_unlisted d D : n_ctrls s !! d = Some D → p ∉ c_namespaces D.
Proof. intros HD Hin. destruct (i_listed _ _ Inv d D p HD Hin) as (M & HM & _). congruence. Qed.
Lemma add_unlinked q G : n_heads s !! q = Some G → p ∉ hd_list G.
Proof. intros HG Hin. destruct (i_sibling _ _ Inv q G p HG Hin) as (M & HM & _). congruence. Qed.
Lemma add_noref : lcount p (held ++ n_opens s) = 0.
Proof.
  pose proof (lcount_nonneg p (held ++ n_opens s)). destruct (decide (1 ≤ lcount p (held ++ n_opens s))) as [Hp|]; [|lia].
  apply lcount_pos, (i_refs _ _ Inv) in Hp as [M HM]. congruence.
Qed.
Lemma add_ctrl_inv d D' : n_ctrls s' !! d = Some D' → (d = c ∧ D' = C') ∨ (d ≠ c ∧ n_ctrls s !! d = Some D').
Proof.
  rw Ect. destruct (decide (d = c)) as [->|Hne]; [rw lookup_insert_eq; intros [= <-]; by left|].
  rw lookup_insert_ne //. by right.
Qed.

Lemma add_sorted : StronglySorted Z.lt (nsid_of s' <$> c_namespaces C').
Proof.
  pose proof (i_sorted _ _ Inv c C HC) as Hs. rw Hl in Hs. pose proof (add_unlisted c C HC) as Hp. rw Hl in Hp.
  assert (∀ q, q ∈ l1 ++ l2 → nsid_of s' q = nsid_of s q) as Hq.
  { intros q Hq. rw /nsid_of add_entry //. intros ->. done. }
  rw Cl. apply sorted_insert.
  - rw (list_fmap_ext _ (nsid_of s)) //. intros i q Hi%list_elem_of_lookup_2. by apply Hq.
  - intros q Hin. rw Hq; [|apply elem_of_app; by left]. rw /(nsid_of s') add_entry_new. by apply Hl1.
  - intros q Hin. rw (Hq q); [|apply elem_of_app; by right]. rw /(nsid_of s') add_entry_new. by apply Hl2.
Qed.

Lemma add_nsheads q : q ∈ n_nsheads s' ↔ ∃ G, n_heads s' !! q = Some G ∧ hd_list G ≠ [].
Proof.
  pose proof (i_nsheads _ _ Inv) as I7.
  destruct add_cases as [(G0 & Hh & Hl' & Hl0 & _ & _ & -> & _)|(Hh & Hl' & _ & _ & -> & _)].
  - rw I7. split.
    + intros (G & HG & Hne). destruct (add_head q G HG) as (G' & HG' & _ & _ & _ & Hlst). exists G'. split; [done|].
      rw Hlst. by destruct (hd_list G).
    + intros (G' & [[-> ->]|[Hne HG]]%add_head_inv & Hl3); eauto.
  - rw elem_of_app list_elem_of_singleton I7. split.
    + intros [(G & HG & Hne)| ->]; [|exists H'; rw Eh lookup_insert_eq Hl'; done].
      destruct (add_head q G HG) as (G' & HG' & _ & _ & _ & Hlst). exists G'. split; [done|]. rw Hlst. by destruct (hd_list G).
    + intros (G' & [[-> ->]|[Hne HG]]%add_head_inv & Hl3); [by right|left; eauto].
Qed.

Lemma add_href q G : n_heads s' !! q = Some G →
  hd_ref G = cnt (λ M, Pos.eqb (ns_head M) q) (n_ns s') ∧ 1 ≤ hd_ref G.
Proof.
  intros HG. rw Em (cnt_fresh _ _ p N Hfresh) Nh. apply add_head_inv in HG as [[-> ->]|[Hne HG]].
  - rw Pos.eqb_refl /=. destruct add_cases as [(G0 & Hh & _ & _ & -> & _)|(Hh & _ & -> & _)].
    + destruct (i_href _ _ Inv h G0 Hh). lia.
    + assert (cnt (λ M, Pos.eqb (ns_head M) h) (n_ns s) = 0) as ->; [|done].
      rw /cnt. apply (f_equal Z.of_nat (y := 0%nat)). apply map_size_empty_iff, map_empty.
      intros q. apply map_lookup_filter_None. right. intros M HM Heq%Pos.eqb_eq.
      destruct (i_head _ _ Inv q M HM) as (G & HG & _). simpl in Heq. congruence.
  - rw (proj2 (Pos.eqb_neq _ _)) //=. destruct (i_href _ _ Inv q G HG). lia.
Qed.

Lemma inv_add : ns_inv held s'.
Proof.
  pose proof Inv as [I1 I2 I3 I4 I5 I6 I7 I8 I9 I10 I11 I12 I13 I14 I15 I16 I17].
  split; rw ?Erm ?Eo.
  - intros q M [[-> ->]|[Hne HM]]%add_ns.
    + rw Nc Ect lookup_insert_eq. exists C'. split; [done|]. rw Cl Nr elem_of_app elem_of_cons. naive_solver.
    + destruct (I1 q M HM) as (D & HD & Hiff). destruct (decide (ns_ctrl M = c)) as [He|Hd].
      * rw He Ect lookup_insert_eq. exists C'. split; [done|]. rw Hiff Cl. rw He HC in HD. injection HD as <-.
        rw Hl !elem_of_app elem_of_cons. naive_solver.
      * rw Ect lookup_insert_ne //. eauto.
  - intros d D' q [[-> ->]|[Hne HD]]%add_ctrl_inv.
    + rw Cl. intros Hq. destruct (decide (q = p)) as [->|Hqp]; [exists N; by rw Em lookup_insert_eq|].
      destruct (I2 c C q HC) as (M & HM & Hc'); [rw Hl elem_of_app; rw elem_of_app elem_of_cons in Hq; naive_solver|].
      exists M. by rw Em lookup_insert_ne.
    + intros Hq. destruct (I2 d D' q HD Hq) as (M & HM & Hc'). exists M. split; [by eapply add_keep|done].
  - intros q [M HM]%I3. exists M. by eapply add_keep.
  - intros d D' [[-> ->]|[Hne HD]]%add_ctrl_inv; [apply add_sorted|].
    rw (list_fmap_ext _ (nsid_of s)); [by eapply I4|]. intros i q Hq%list_elem_of_lookup_2. rw /nsid_of add_entry //.
    intros ->. by eapply add_unlisted.
  - intros q M [[-> ->]|[Hne HM]]%add_ns.
    + rw Nh Eh lookup_insert_eq Nr. exists H'. split; [done|]. split; [done|intros _].
      destruct add_cases as [(G0 & _ & -> & _)|(_ & -> & _)]; rw ?elem_of_app list_elem_of_singleton; auto.
    + destruct (I5 q M HM) as (G & HG & Hiff). destruct (add_head _ G HG) as (G' & -> & _ & _ & _ & Hlst).
      exists G'. split; [done|]. rw Hlst elem_of_app Hiff. case_decide; rw ?list_elem_of_singleton ?elem_of_nil; naive_solver.
  - intros q G r [[-> ->]|[Hne HG]]%add_head_inv Hr.
    + destruct (decide (r = p)) as [->|Hrp]; [exists N; by rw Em lookup_insert_eq|].
      destruct add_cases as [(G0 & Hh & Hlst & _)|(_ & Hlst & _)]; rw Hlst ?elem_of_app list_elem_of_singleton in Hr; [|done].
      destruct Hr as [Hr|]; [|done]. destruct (I6 h G0 r Hh Hr) as (M & HM & Hh'). exists M. split; [by eapply add_keep|done].
    + destruct (I6 q G r HG Hr) as (M & HM & Hh'). exists M. split; [by eapply add_keep|done].
  - apply add_nsheads.
  - destruct add_cases as [(G0 & _ & _ & _ & _ & _ & -> & _)|(Hh & _ & _ & _ & -> & _)]; [done|]. apply NoDup_app. split; [done|]. split; [|apply NoDup_singleton].
    intros q Hq ->%list_elem_of_singleton. apply I7 in Hq as (G & HG & _). congruence.
  - apply add_href.
  - intros q M [[-> ->]|[Hne HM]]%add_ns; [rw Nk Nr add_noref; done|]. by apply I10.
  - intros q [M HM]%I11. exists M. by eapply add_keep.
  - intros d D'. rw Em (cnt_fresh _ _ p N Hfresh) Nc. intros [[-> ->]|[Hne HD]]%add_ctrl_inv.
    + rw Cr (I12 c C HC) Pos.eqb_refl. simpl. lia.
    + rw (I12 d D' HD) (proj2 (Pos.eqb_neq _ _)) //=. lia.
  - rw Eh. destruct add_cases as [(G0 & Hh & _ & _ & _ & _ & _ & _ & ->)|(Hh & _ & _ & _ & _ & _ & ->)].
    + by rw map_size_insert_Some.
    + rw map_size_insert_None //. lia.
  - intros i. destruct add_cases as [(G0 & Hh & _ & _ & _ & Hi & _ & -> & _)|(Hh & _ & _ & _ & _ & -> & _)].
    + rw I14. split.
      * intros (q & G & HG & <-). destruct (add_head q G HG) as (G' & HG' & _ & _ & Hi' & _). eauto.
      * intros (q & G & [[-> ->]|[Hne HG]]%add_head_inv & <-); [rw Hi; eauto|eauto].
    + rw elem_of_union elem_of_singleton I14. split.
      * intros [(q & G & HG & <-)| ->]; [|exists h, H'; by rw Eh lookup_insert_eq].
        destruct (add_head q G HG) as (G' & HG' & _ & _ & Hi' & _). eauto.
      * intros (q & G & [[-> ->]|[Hne HG]]%add_head_inv & <-); [by right|left; eauto].
  - assert (∀ q G, n_heads s !! q = Some G → q ≠ h → hd_instance G ≠ hd_instance H') as Hinst.
    { intros q G HG Hne Heq. destruct add_cases as [(G0 & Hh & _ & _ & _ & Hi & _)|(Hh & _ & _ & Hi & _)].
      - apply Hne. eapply I15; [done..|congruence].
      - apply Hi. rw -Heq I14. eauto. }
    intros q r G G' [[-> ->]|[Hne HG]]%add_head_inv [[-> ->]|[Hne' HG']]%add_head_inv; [done| | |eauto];
      intros Heq; exfalso; eapply Hinst; eauto.
  - intros q M [[-> ->]|[Hne HM]]%add_ns; [by rw Nr|]. eauto.
  - intros q [[M HM]|[G HG]]; apply Enx.
    + apply add_ns in HM as [[-> ->]|[Hne HM]]; [auto|left; apply I17; eauto].
    + apply add_head_inv in HG as [[-> ->]|[Hne HG]]; [auto|left; apply I17; eauto].
Qed.
End add.

(** Nothing changes but the controllers' attributes, and pointers used up. *)
Lemma inv_next held s s' :
  ns_inv held s → (n_next s ≤ n_next s')%positive →
  n_ns s' = n_ns s → n_heads s' = n_heads s → n_nsheads s' = n_nsheads s → n_ida s' = n_ida s →
  n_subsys_refs s' = n_subsys_refs s → n_ctrls s' = n_ctrls s → n_rm s' = n_rm s → n_opens s' = n_opens s →
  ns_inv held s'.
Proof.
  intros [I1 I2 I3 I4 I5 I6 I7 I8 I9 I10 I11 I12 I13 I14 I15 I16 I17] Hn Em Eh En Ei Es Ect Erm Eo.
  assert (∀ p, nsid_of s' p = nsid_of s p) as Hid by (intros p; by rw /nsid_of /entry_of Em Eh).
  split; rw ?Em ?Eh ?En ?Ei ?Es ?Ect ?Erm ?Eo; auto.
  - intros c C HC. rw (list_fmap_ext _ (nsid_of s)); [by eapply I4|]. intros ???. apply Hid.
  - intros p Hp. apply I17 in Hp. lia.
Qed.
