(* ===== verification/NsOps.v ===== *)
(** * The operations on namespaces keep the invariant

    For each operation of Namespace.v: it does not fault, the invariant holds
    afterwards, and what it changed of the lists and of the namespaces on them. *)
From Stdlib Require Import Sorted.
From S2P Require Import Prelude Lifecycle ReqSetup ReqLife NsIdent NsDisk Namespace NsInv.

(** What is documented of the layers below and of conforming controllers: a number
    allocated is not in use; errnos are negative; a failing command has a status
    code; the format in use has a block size; descriptors fit the page.
    Not documented, and assumed because the code does not survive the contrary
    (FindingsNamespace.v): [law_cdev], the character device of a head can be added
    ([nvme_cdev_del] deletes it all the same); [law_identify], the block size of the
    format in use is 512 bytes to 1 GiB; [law_info], the append limit fits an int;
    [law_descs], a page of descriptors is well formed. *)
Class ns_env_laws (E : ns_env) := {
  law_ida : ∀ t used, 0 ≤ e_ida t used → e_ida t used ∉ used;
  law_errno : ∀ st, st ≠ STS_OK → e_errno st < 0;
  law_srcu : ∀ t, e_srcu t ≤ 0;
  law_log : ∀ t c csi, 0 < e_log t c csi → Z.land (e_log t c csi) 0x7ff ≠ 0;
  law_cdev : ∀ t, e_cdev t = true;
  law_identify : ∀ t c n, (e_identify t c n).1 = 0 → id_ncap (e_identify t c n).2 ≠ 0 → id_ok (e_identify t c n).2;
  law_info : ∀ t c n, answers_ok (e_info t c n);
  law_descs : ∀ t c n, (e_descs t c n).1 = 0 → page_ok (e_descs t c n).2;
}.

(** ** What stays *)

Definition static (C : nctrl) : nvme_ctrl_state * bool * bool * ctrl_info :=
  (ct_state (c_ctl C), c_tagset C, c_multi_css C, c_info C).
Definition frame (s s' : nst) : Prop :=
  (∀ c, static <$> n_ctrls s' !! c = static <$> n_ctrls s !! c) ∧ n_opens s' = n_opens s.

(** The namespaces there are look as before. *)
Definition entries_kept (s s' : nst) : Prop :=
  ∀ q, is_Some (n_ns s' !! q) → is_Some (n_ns s !! q) ∧ entry_of s' q = entry_of s q.
Definition keeps (s s' : nst) : Prop :=
  frame s s' ∧ (∀ c, listed s' c = listed s c) ∧ n_rm s' = n_rm s ∧ entries_kept s s'.
(** The same, but for [p], which is taken off its list. *)
Definition drops (p : positive) (s s' : nst) : Prop :=
  frame s s' ∧ (∀ c, listed s' c = unlink p (listed s c)) ∧ n_rm s' = unlink p (n_rm s) ∧ entries_kept s s'.

#[export] Instance frame_preorder : PreOrder frame.
Proof.
  split; [done|]. intros s1 s2 s3 [H1 H2] [H3 H4]. split; [|congruence]. intros c. by rw H3.
Qed.
#[export] Instance keeps_preorder : PreOrder keeps.
Proof.
  split; [split; [done|]; split; [done|]; split; [done|]; by intros q|].
  intros s1 s2 s3 (F1 & L1 & R1 & E1) (F2 & L2 & R2 & E2). split; [by etrans|].
  split; [intros c; by rw L2|]. split; [congruence|]. intros q Hq. destruct (E2 q Hq) as [Hq2 ->]. by apply E1.
Qed.
Lemma keeps_drops p s1 s2 s3 : keeps s1 s2 → drops p s2 s3 → drops p s1 s3.
Proof.
  intros (F1 & L1 & R1 & E1) (F2 & L2 & R2 & E2). split; [by etrans|]. split; [intros c; by rw L2 L1|].
  split; [congruence|]. intros q Hq. destruct (E2 q Hq) as [Hq2 ->]. by apply E1.
Qed.
Lemma drops_keeps p s1 s2 s3 : drops p s1 s2 → keeps s2 s3 → drops p s1 s3.
Proof.
  intros (F1 & L1 & R1 & E1) (F2 & L2 & R2 & E2). split; [by etrans|]. split; [intros c; by rw L2 L1|].
  split; [congruence|]. intros q Hq. destruct (E2 q Hq) as [Hq2 ->]. by apply E1.
Qed.

Lemma listed_some s c C : n_ctrls s !! c = Some C → listed s c = c_namespaces C.
Proof. rw /listed. by intros ->. Qed.
Lemma listed_alive held s c p : ns_inv held s → p ∈ listed s c →
  ∃ C N, n_ctrls s !! c = Some C ∧ n_ns s !! p = Some N ∧ ns_ctrl N = c ∧ ns_removing N = false.
Proof.
  intros I Hp. rw /listed in Hp. destruct (n_ctrls s !! c) as [C|] eqn:HC; [|by apply elem_of_nil in Hp].
  simpl in Hp. destruct (i_listed _ _ I c C p HC Hp) as (N & HN & <-). exists C, N. repeat split; auto.
  destruct (i_ctrl _ _ I p N HN) as (C' & HC' & Hiff). apply Hiff. left. by simplify_eq.
Qed.

Lemma static_insert s c C C' d : n_ctrls s !! c = Some C → static C' = static C →
  static <$> <[c := C']> (n_ctrls s) !! d = static <$> n_ctrls s !! d.
Proof.
  intros HC Hs. destruct (decide (d = c)) as [->|Hne]; [by rw lookup_insert_eq HC /= Hs|by rw lookup_insert_ne].
Qed.
Lemma ns_listed_insert s s' c C C' d : n_ctrls s !! c = Some C → n_ctrls s' = <[c := C']> (n_ctrls s) →
  listed s' d = if decide (d = c) then c_namespaces C' else listed s d.
Proof. intros HC Hs. rw /listed Hs. case_decide as Hd; [subst d; by rw lookup_insert_eq|by rw lookup_insert_ne]. Qed.

(** The state in the form [Nst ..] again. *)
Ltac ns_norm :=
  cbn [upd n_ns n_heads n_nsheads n_ida n_subsys_refs n_ctrls n_rm n_opens n_next n_tick
       ns_head ns_ctrl ns_kref ns_removing ns_dead ns_cdev ns_gendisk
       hd_ns_id hd_ids hd_instance hd_shared hd_ref hd_list
       c_ctl c_tagset c_multi_css c_info c_max_zone_append c_cels c_ns_changed c_refs c_namespaces] in *.

Section ops.
Context {E : ns_env}.

Lemma wp_ask_ns {A} (f : nat → A) Q s : Q (f (n_tick s)) (s<{n_tick := S (n_tick s)}>) → wp (ask f) Q s.
Proof. by apply wp_of_run. Qed.
Lemma wp_at {A B} (f : nst → gmap positive A) p (k : A → K nst B) a Q s :
  f s !! p = Some a → wp (k a) Q s → wp (m ← gets f; x ← from_option_k (m !! p); k x) Q s.
Proof. intros Hp Hk. apply wp_bind, wp_gets, wp_bind. eapply wp_from_option; done. Qed.
Lemma wp_ns_at p N Q s : n_ns s !! p = Some N → Q N s → wp (ns_at p) Q s.
Proof. intros Hp HQ. rw /ns_at. apply wp_bind, wp_gets. by eapply wp_from_option. Qed.
Lemma wp_head_at h H Q s : n_heads s !! h = Some H → Q H s → wp (head_at h) Q s.
Proof. intros Hp HQ. rw /head_at. apply wp_bind, wp_gets. by eapply wp_from_option. Qed.
Lemma wp_ctrl_at c C Q s : n_ctrls s !! c = Some C → Q C s → wp (ctrl_at c) Q s.
Proof. intros Hp HQ. rw /ctrl_at. apply wp_bind, wp_gets. by eapply wp_from_option. Qed.

Lemma keeps_tick s t : keeps s (s<{n_tick := t}>).
Proof. split; [done|]. split; [done|]. split; [done|]. by intros q. Qed.
Lemma wp_asked {A B} (f : nat → A) (k : A → K nst B) Q held s :
  ns_inv held s → (∀ t s', ns_inv held s' → keeps s s' → n_ns s' = n_ns s → n_heads s' = n_heads s → n_ctrls s' = n_ctrls s →
    n_ida s' = n_ida s → n_nsheads s' = n_nsheads s → n_subsys_refs s' = n_subsys_refs s → n_next s' = n_next s → wp (k (f t)) Q s') → wp (x ← ask f; k x) Q s.
Proof.
  intros I Hk. apply wp_bind, wp_ask_ns. apply Hk; [by apply inv_tick|apply keeps_tick|done..].
Qed.

(** ** References *)

Lemma keeps_set_ns s s' p N N' :
  n_ns s !! p = Some N → n_ns s' = <[p := N']> (n_ns s) → ns_head N' = ns_head N → ns_dead N' = ns_dead N →
  n_heads s' = n_heads s → n_ctrls s' = n_ctrls s → n_rm s' = n_rm s → n_opens s' = n_opens s → keeps s s'.
Proof.
  intros Hp Em Hh Hd Eh Ec Er Eo. split; [split; [intros c; by rw Ec|done]|]. split; [intros c; by rw /listed Ec|].
  split; [done|]. intros q. rw Em. destruct (decide (q = p)) as [->|Hne].
  - intros _. rw Hp. split; [eauto|]. by rw /entry_of /entry Em Eh lookup_insert_eq Hp Hh Hd.
  - rw lookup_insert_ne //. intros Hq. split; [done|]. by rw /entry_of /entry Em Eh lookup_insert_ne.
Qed.

Lemma wp_get_ns held s p N :
  ns_inv held s → n_ns s !! p = Some N →
  wp (nvme_get_ns p) (λ ok s', ok = true ∧ ns_inv (p :: held) s' ∧ keeps s s' ∧ n_nsheads s' = n_nsheads s ∧
    n_heads s' = n_heads s) s.
Proof.
  intros I HN. destruct (i_kref _ _ I p N HN) as [_ Hpos]. rw /nvme_get_ns. apply wp_bind, (wp_ns_at p N); [done|].
  destruct (Z.eqb_spec (ns_kref N) 0); [lia|]. apply wp_bind, wp_modify, wp_ret.
  split; [done|]. split; [|split; [by eapply keeps_set_ns|done]].
  eapply (inv_set_ns held s I _ _ p N (N<{ns_kref := ns_kref N + 1}>)); try done; simpl; [lia|].
  intros q. rw lcount_cons. destruct (decide (q = p)); [rw bool_decide_true //|rw bool_decide_false //]; simpl; lia.
Qed.

(** Freeing. *)
Lemma keeps_free held s s' p N H C :
  ns_inv (p :: held) s → n_ns s !! p = Some N → n_heads s !! ns_head N = Some H →
  n_ctrls s !! ns_ctrl N = Some C → n_ns s' = base.delete p (n_ns s) →
  (if decide (hd_ref H = 1)
   then n_heads s' = base.delete (ns_head N) (n_heads s) ∧ n_ida s' = n_ida s ∖ {[hd_instance H]} ∧
        n_subsys_refs s' = n_subsys_refs s - 1
   else n_heads s' = <[ns_head N := H<{hd_ref := hd_ref H - 1}>]> (n_heads s) ∧ n_ida s' = n_ida s ∧
        n_subsys_refs s' = n_subsys_refs s) →
  n_ctrls s' = <[ns_ctrl N := C<{c_refs := c_refs C - 1}>]> (n_ctrls s) →
  n_rm s' = n_rm s → n_opens s' = n_opens s → keeps s s'.
Proof.
  intros I HN HH HC Em Eh Ec Er Eo. split; [split; [intros d; rw Ec; by eapply static_insert|done]|].
  split; [intros d; rw (ns_listed_insert s s' _ C _ d HC Ec); destruct (decide (d = ns_ctrl N)) as [->|]; [by rw (listed_some _ _ C)|done]|].
  split; [done|]. intros q Hq. assert (q ≠ p) as Hqp.
  { intros ->. rw Em lookup_delete_eq in Hq. by destruct Hq. }
  rw Em lookup_delete_ne // in Hq. split; [done|]. by eapply (free_entry held s s' p N H I HN HH).
Qed.

Lemma wp_put_ns held s p :
  ns_inv (p :: held) s → wp (snvme_put_ns p) (λ _ s', ns_inv held s' ∧ keeps s s') s.
Proof.
  intros I. destruct (i_refs _ _ I p) as [N HN]; [apply elem_of_cons; by left|].
  destruct (i_kref _ _ I p N HN) as [Hk Hpos]. destruct (i_head _ _ I p N HN) as (H & HH & _).
  destruct (i_ctrl _ _ I p N HN) as (C & HC & _). destruct (i_href _ _ I _ H HH) as [_ Hr].
  rw /snvme_put_ns. apply wp_bind, (wp_ns_at p N); [done|]. apply wp_bind, wp_modify.
  destruct (Z.eqb_spec (ns_kref N - 1) 0) as [H0|H0].
  - assert (ns_kref N = 1) as Hk1 by lia. destruct s as [m hs hl ida sr ct rm op nx t]. ns_norm.
    rw /nvme_free_ns. apply wp_bind. eapply wp_ns_at; [apply lookup_insert_eq|].
    apply wp_bind. rw /nvme_put_ns_head. apply wp_bind, (wp_head_at _ H); [exact HH|]. apply wp_bind, wp_modify. ns_norm.
    apply (wp_mono _ (λ _ s1, ∃ hs' ida' sr', s1 = Nst (<[p := N<{ns_kref := 0}>]> m) hs' hl ida' sr' ct rm op nx t ∧
      (if decide (hd_ref H = 1)
       then hs' = base.delete (ns_head N) hs ∧ ida' = ida ∖ {[hd_instance H]} ∧ sr' = sr - 1
       else hs' = <[ns_head N := H<{hd_ref := hd_ref H - 1}>]> hs ∧ ida' = ida ∧ sr' = sr))).
    { rw Hk1. destruct (Z.eqb_spec (hd_ref H - 1) 0) as [Hr0|Hr0].
      - rw /nvme_free_ns_head. apply wp_bind. eapply wp_head_at; [apply lookup_insert_eq|]. apply wp_modify. ns_norm.
        eexists _, _, _. split; [done|]. rw decide_True; [|lia]. by rw delete_insert_eq.
      - apply wp_ret. eexists _, _, _. split; [done|]. rw decide_False; [|lia]. done. }
    intros _ ? (hs' & ida' & sr' & -> & Hcase). apply wp_bind. rw /nvme_put_ctrl.
    apply wp_bind, (wp_ctrl_at _ C); [exact HC|]. apply wp_modify, wp_modify. ns_norm. rw delete_insert_eq.
    split; [by eapply inv_free|by eapply keeps_free].
  - apply wp_ret. split; [|by eapply keeps_set_ns].
    eapply (inv_set_ns _ s I _ _ p N (N<{ns_kref := ns_kref N - 1}>)); try done; simpl; [lia|].
    intros q. rw /= lcount_cons. destruct (decide (q = p)); [rw bool_decide_true //|rw bool_decide_false //]; simpl; lia.
Qed.

(** ** Looking up *)

Lemma wp_nsid_at held s p N (Q : Z → nst → Prop) :
  ns_inv held s → n_ns s !! p = Some N → Q (nsid_of s p) s → wp (nsid_at p) Q s.
Proof.
  intros I HN HQ. destruct (i_head _ _ I p N HN) as (H & HH & _). rw /nsid_at.
  apply wp_bind, (wp_ns_at p N); [done|]. apply wp_bind, (wp_head_at _ H); [done|]. apply wp_ret.
  by rw /nsid_of /entry_of /entry HN HH in HQ.
Qed.

Lemma wp_find_list held s nsid l :
  ns_inv held s → (∀ q, q ∈ l → is_Some (n_ns s !! q)) → StronglySorted Z.lt (nsid_of s <$> l) →
  wp (find_get_ns nsid l) (λ o s', match o with
    | Some p => ns_inv (p :: held) s' ∧ keeps s s' ∧ p ∈ l ∧ nsid_of s p = nsid
    | None => s' = s ∧ ∀ q, q ∈ l → nsid_of s q ≠ nsid end) s.
Proof.
  intros I. induction l as [|p l IH]; intros Hal Hs; simpl; [apply wp_ret; split; [done|by intros q ?%elem_of_nil]|].
  destruct (Hal p) as [N HN]; [apply elem_of_cons; by left|]. apply wp_bind. eapply wp_nsid_at; [done..|].
  rw fmap_cons in Hs. apply StronglySorted_inv in Hs as [Hs Hx]. rw Forall_fmap list.Forall_forall in Hx.
  destruct (Z.eqb_spec (nsid_of s p) nsid) as [He|He].
  - apply wp_bind. eapply wp_mono; [by eapply wp_get_ns|]. intros ok s' (-> & I' & K & _). apply wp_ret.
    split; [done|]. split; [done|]. split; [apply elem_of_cons; by left|done].
  - destruct (Z.ltb_spec nsid (nsid_of s p)) as [Hlt|Hge].
    + apply wp_ret. split; [done|]. intros q [->|Hq]%elem_of_cons; [done|]. specialize (Hx q Hq). simpl in Hx. lia.
    + eapply wp_mono; [apply IH; [|done]|].
      { intros q Hq. apply Hal, elem_of_cons. by right. }
      intros [q|] s'; [|intros [-> Hno]; split; [done|]; intros q [->|Hq]%elem_of_cons; auto].
      intros (I' & K & Hq & Hid). rw elem_of_cons. auto.
Qed.

Lemma wp_find_get held s c C nsid :
  ns_inv held s → n_ctrls s !! c = Some C →
  wp (snvme_find_get_ns c nsid) (λ o s', match o with
    | Some p => ns_inv (p :: held) s' ∧ keeps s s' ∧ p ∈ listed s c ∧ nsid_of s p = nsid
    | None => s' = s ∧ ∀ q, q ∈ listed s c → nsid_of s q ≠ nsid end) s.
Proof.
  intros I HC. rw /snvme_find_get_ns (listed_some _ _ C) //. apply wp_bind, (wp_ctrl_at _ C); [done|].
  apply wp_find_list; [done| |by eapply i_sorted].
  intros q Hq. destruct (i_listed _ _ I c C q HC Hq) as (N & -> & _). eauto.
Qed.

(** ** Removing *)

Lemma wp_unlink_sibling s p h H (Q : unit → nst → Prop) :
  n_heads s !! h = Some H →
  (∀ hs hl, hs = <[h := H<{hd_list := unlink p (hd_list H)}>]> (n_heads s) →
     hl = (if bool_decide (unlink p (hd_list H) = []) then unlink h (n_nsheads s) else n_nsheads s) →
     Q tt (s<{n_heads := hs}><{n_nsheads := hl}>)) →
  wp (unlink_sibling p h) Q s.
Proof.
  intros HH HQ. destruct s as [m hs hl ida sr ct rm op nx t]. ns_norm. rw /unlink_sibling.
  apply wp_bind, (wp_head_at _ H); [done|]. apply wp_bind, wp_modify. ns_norm.
  specialize (HQ _ _ eq_refl eq_refl). case_bool_decide; [|apply wp_ret; exact HQ]. apply wp_modify. exact HQ.
Qed.

Lemma wp_ns_remove held s p N :
  ns_inv held s → n_ns s !! p = Some N → ns_removing N = false →
  wp (nvme_ns_remove p) (λ _ s', ns_inv held s' ∧ drops p s s') s.
Proof.
  intros I HN Hrem. destruct (i_head _ _ I p N HN) as (H & HH & _). destruct (i_ctrl _ _ I p N HN) as (C & HC & _).
  pose proof (i_cdev _ _ I p N HN) as Hcd. rw Hrem /= in Hcd.
  rw /nvme_ns_remove. apply wp_bind, (wp_ns_at p N); [done|]. rw Hrem. apply wp_bind, wp_modify.
  apply wp_bind. eapply wp_unlink_sibling; [exact HH|]. intros hs' hl' Ehs Ehl.
  destruct s as [m hs hl ida sr ct rm op nx t]. ns_norm.
  rw /nvme_cdev_del. apply wp_bind, wp_bind. eapply wp_ns_at; [apply lookup_insert_eq|]. ns_norm. rw Hcd.
  apply wp_modify. ns_norm. apply wp_bind. eapply wp_ns_at; [apply lookup_insert_eq|]. ns_norm. apply wp_bind, wp_modify. ns_norm.
  rw /list_del_ns. apply wp_bind, wp_bind, (wp_ctrl_at _ C); [exact HC|]. apply wp_bind, wp_modify. ns_norm. apply wp_modify. ns_norm.
  rw !insert_insert_eq. match goal with |- wp _ _ ?s1 => set (s' := s1) end.
  assert (∃ N', n_ns s' = <[p := N']> m ∧ ns_head N' = ns_head N ∧ ns_ctrl N' = ns_ctrl N ∧ ns_kref N' = ns_kref N ∧
    ns_removing N' = true ∧ ns_cdev N' = false ∧ ns_dead N' = ns_dead N) as (N' & Em & Nh & Nc & Nk & Nr & Nd & Ndd).
  { eexists. split; [reflexivity|]. repeat split. }
  assert (ns_inv (p :: held) s') as I' by (by eapply (inv_mark held _ s' p N N' H C I HN Hrem HH HC)).
  eapply wp_mono; [by apply wp_put_ns|]. intros _ s'' (I'' & K). split; [done|]. eapply drops_keeps; [|exact K].
  split; [split; [intros d; rw /s' /=; by eapply (static_insert (Nst m hs hl ida sr ct rm op nx t))|done]|]. split.
  { intros d. rw (ns_listed_insert (Nst m hs hl ida sr ct rm op nx t) s' _ C _ d HC eq_refl). case_decide as Hd; [subst d; by rw (listed_some _ _ C)|].
    rw unlink_not_elem //. intros Hin. destruct (listed_alive _ _ _ _ I Hin) as (D & M & _ & HM & <- & _). ns_norm. by simplify_eq. }
  split; [done|]. intros q Hq. apply (mark_some (Nst m hs hl ida sr ct rm op nx t) s' p N N' HN Em) in Hq. split; [done|].
  destruct (decide (q = p)) as [->|Hne]; [|by eapply (mark_entry held (Nst m hs hl ida sr ct rm op nx t) s' p N N' H I)].
  eapply entry_eq; [by rw Em lookup_insert_eq|exact HN|rw Nh /s' /= Ehs; apply lookup_insert_eq|exact HH|done..].
Qed.
End ops.
