(* ===== verification/NsAlloc.v ===== *)
(** * Adding a namespace

    [nvme_alloc_ns] either adds a namespace to the list of its controller, or leaves
    everything as it was: each of its error paths gives back what was taken. *)
From Stdlib Require Import Sorted.
From stdpp Require Import sorting.
From S2P Require Import Prelude Lifecycle ReqSetup ReqLife NsIdent NsDisk Namespace NsInv NsOps.

(** Attributes of a controller changed, pointers were used up. *)
Record attr (c : positive) (s s' : nst) : Prop := {
  at_ctrl : ∃ C C', n_ctrls s !! c = Some C ∧ n_ctrls s' = <[c := C']> (n_ctrls s) ∧ c_namespaces C' = c_namespaces C ∧
    c_refs C' = c_refs C ∧ static C' = static C;
  at_next : (n_next s ≤ n_next s')%positive;
  at_ns : n_ns s' = n_ns s;
  at_heads : n_heads s' = n_heads s;
  at_nsheads : n_nsheads s' = n_nsheads s;
  at_ida : n_ida s' = n_ida s;
  at_srefs : n_subsys_refs s' = n_subsys_refs s;
  at_rm : n_rm s' = n_rm s;
  at_opens : n_opens s' = n_opens s;
}.

Lemma attr_inv c held s s' : attr c s s' → ns_inv held s → ns_inv held s'.
Proof.
  intros [(C & C' & HC & Ec & Hl & Hr & _) Hn Em Eh En Ei Es Er Eo] I.
  pose (s1 := s<{n_ctrls := <[c := C']> (n_ctrls s)}>).
  assert (ns_inv held s1) as I1 by (by eapply (inv_set_ctrl held s I s1 c C C')).
  by eapply (inv_next held s1 s' I1).
Qed.
Lemma attr_keeps c s s' : attr c s s' → keeps s s'.
Proof.
  intros [(C & C' & HC & Ec & Hl & Hr & Hs) Hn Em Eh En Ei Es Er Eo]. split.
  { split; [|done]. intros d. rw Ec. by eapply static_insert. }
  split; [intros d; rw (ns_listed_insert s s' c C C' d HC Ec); case_decide as Hd; [subst d; by rw (listed_some _ _ C) // Hl|done]|].
  split; [done|]. intros q. rw Em. intros Hq. split; [done|]. by rw /entry_of Em Eh.
Qed.
Lemma attr_self c C s s' :
  n_ctrls s !! c = Some C → n_ctrls s' = n_ctrls s → (n_next s ≤ n_next s')%positive → n_ns s' = n_ns s →
  n_heads s' = n_heads s → n_nsheads s' = n_nsheads s → n_ida s' = n_ida s → n_subsys_refs s' = n_subsys_refs s →
  n_rm s' = n_rm s → n_opens s' = n_opens s → attr c s s'.
Proof. intros HC Ec ????????. split; auto. exists C, C. rw Ec insert_id //. Qed.

(** The namespace [p] is on the list of its head and not yet on the list of its
    controller; [s] is the state without it. *)
Record pend (c : positive) (s s' : nst) (p h : positive) (nsid : Z) (ids : nvme_ns_ids) (d : ns_disk) : Prop := {
  pd_ns : n_ns s' = <[p := Ns h c 1 false false false d]> (n_ns s);
  pd_head :
    (∃ G, n_heads s !! h = Some G ∧ hd_ns_id G = nsid ∧ hd_ids G = ids ∧ hd_list G ≠ [] ∧
      n_heads s' = <[h := G<{hd_ref := hd_ref G + 1}><{hd_list := hd_list G ++ [p] }>]> (n_heads s) ∧
      n_nsheads s' = n_nsheads s ∧ n_ida s' = n_ida s ∧ n_subsys_refs s' = n_subsys_refs s) ∨
    (∃ inst sh, n_heads s !! h = None ∧ (inst ∉ n_ida s) ∧
      n_heads s' = <[h := NsHead nsid ids inst sh 1 [p] ]> (n_heads s) ∧
      (n_nsheads s' = n_nsheads s ++ [h]) ∧ (n_ida s' = n_ida s ∪ {[inst]}) ∧ n_subsys_refs s' = n_subsys_refs s + 1);
  pd_ctrl : ∃ C C', n_ctrls s !! c = Some C ∧ n_ctrls s' = <[c := C']> (n_ctrls s) ∧ c_namespaces C' = c_namespaces C ∧
    c_refs C' = c_refs C ∧ static C' = static C;
  pd_next : (n_next s ≤ n_next s')%positive ∧ (p < n_next s')%positive ∧ (h < n_next s')%positive;
  pd_rm : n_rm s' = n_rm s;
  pd_opens : n_opens s' = n_opens s;
}.

Section alloc.
Context {E : ns_env} {L : ns_env_laws E}.

(** Nothing below fails while a namespace is identified and added. *)
Record calm (c : positive) (nsid : Z) (id : nvme_id_ns) : Prop := {
  calm_alloc : ∀ t, e_alloc t = true;
  calm_srcu : ∀ t, e_srcu t = 0;
  calm_ida : ∀ t used, 0 ≤ e_ida t used;
  calm_identify : ∀ t, e_identify t c nsid = (0, id);
  calm_ncap : id_ncap id ≠ 0;
}.

(** A head of the subsystem stands in the way. *)
Definition clash (s : nst) (nsid : Z) (ids : nvme_ns_ids) : Prop :=
  ∃ h H, h ∈ n_nsheads s ∧ n_heads s !! h = Some H ∧ (hd_ns_id H = nsid ∨ nvme_ns_ids_valid ids = true ∧ hd_ids H = ids).

Lemma heads_alive held s h : ns_inv held s → h ∈ n_nsheads s →
  ∃ H, n_heads s !! h = Some H ∧ hd_list H ≠ [] ∧ 1 ≤ hd_ref H.
Proof.
  intros I Hh. apply (i_nsheads _ _ I) in Hh as (H & HH & Hl). exists H. split; [done|]. split; [done|].
  by apply (i_href _ _ I h H HH).
Qed.

Lemma wp_check_ids s ids l :
  (∀ h, h ∈ l → is_Some (n_heads s !! h)) →
  wp (check_ids ids l) (λ r s', s' = s ∧ (r = 0 ∨ r = - EINVAL ∧
    ∃ h H, h ∈ l ∧ n_heads s !! h = Some H ∧ nvme_ns_ids_valid ids = true ∧ hd_ids H = ids)) s.
Proof.
  induction l as [|h l IH]; intros Hal; simpl; [apply wp_ret; auto|].
  destruct (Hal h) as [H HH]; [apply elem_of_cons; by left|]. apply wp_bind, (wp_head_at _ H); [done|].
  destruct (_ && _) eqn:Eq.
  - apply wp_ret. split; [done|]. right. split; [done|]. apply andb_true_iff in Eq as [Hv He%nvme_ns_ids_equal_spec].
    exists h, H. rw elem_of_cons. auto.
  - eapply wp_mono; [apply IH; intros q Hq; apply Hal, elem_of_cons; by right|].
    intros r s' [-> [->|(-> & q & H' & Hq & ?)]]; [auto|]. split; [done|]. right. split; [done|].
    exists q, H'. rw elem_of_cons. auto.
Qed.

Lemma wp_find_head s nsid l :
  (∀ h, h ∈ l → ∃ H, n_heads s !! h = Some H ∧ hd_list H ≠ [] ∧ 1 ≤ hd_ref H) →
  wp (find_ns_head nsid l) (λ o s', match o with
    | None => s' = s
    | Some h => ∃ G, h ∈ l ∧ n_heads s !! h = Some G ∧ hd_ns_id G = nsid ∧ hd_list G ≠ [] ∧
        s' = s<{n_heads := <[h := G<{hd_ref := hd_ref G + 1}>]> (n_heads s)}> end) s.
Proof.
  induction l as [|h l IH]; intros Hal; simpl; [by apply wp_ret|].
  destruct (Hal h) as (H & HH & Hl & Hr); [apply elem_of_cons; by left|]. apply wp_bind, (wp_head_at _ H); [done|].
  assert (∀ q, q ∈ l → ∃ G, n_heads s !! q = Some G ∧ hd_list G ≠ [] ∧ 1 ≤ hd_ref G) as Hal'.
  { intros q Hq. apply Hal, elem_of_cons. by right. }
  destruct (Z.eqb_spec (hd_ns_id H) nsid) as [He|He]; simpl.
  - rw bool_decide_false //. apply wp_bind. rw /nvme_tryget_ns_head. apply wp_bind, (wp_head_at _ H); [done|].
    destruct (Z.eqb_spec (hd_ref H) 0); [lia|]. apply wp_bind, wp_modify, wp_ret, wp_ret. exists H. rw elem_of_cons. auto.
  - eapply wp_mono; [by apply IH|]. intros [q|] s'; [|done]. intros (G & Hq & ?). exists G. rw elem_of_cons. auto.
Qed.

Lemma error_status_ok r : Z.land r 0x7ff ≠ 0 → nvme_error_status r ≠ STS_OK.
Proof.
  intros Hr. rw /nvme_error_status. destruct (Z.eqb_spec (Z.land r 0x7ff) 0); [done|].
  repeat match goal with |- context [if ?b then _ else _] => destruct b end; done.
Qed.
Lemma wp_err_ptr {A} ret (Q : Z + A → nst → Prop) s :
  ret ≠ 0 → (0 < ret → Z.land ret 0x7ff ≠ 0) → (∀ e, e ≠ 0 → Q (inl e) s) → wp (err_ptr ret) Q s.
Proof.
  intros H0 Hp HQ. rw /err_ptr. destruct (Z.ltb_spec 0 ret) as [Hlt|Hge].
  - pose proof (law_errno _ (error_status_ok ret (Hp Hlt))) as Hneg.
    destruct (Z.eqb_spec (e_errno (nvme_error_status ret)) 0); [lia|]. apply wp_ret, HQ. lia.
  - destruct (Z.eqb_spec ret 0); [done|]. by apply wp_ret, HQ.
Qed.

(** A new head, or none. *)
Lemma wp_alloc_head held s c C nsid ids :
  ns_inv held s → n_ctrls s !! c = Some C →
  wp (nvme_alloc_ns_head c nsid ids) (λ r s', match r with
    | inl e => e ≠ 0 ∧ attr c s s' ∧ (∀ id, calm c nsid id → ni_csi ids = 0 → clash s nsid ids)
    | inr h => h = n_next s ∧ ∃ inst s1, (inst ∉ n_ida s) ∧ attr c s s1 ∧ n_next s1 = Pos.succ h ∧
        s' = s1<{n_heads := <[h := NsHead nsid ids inst false 1 []]> (n_heads s)}><{n_nsheads := n_nsheads s ++ [h] }>
                <{n_ida := n_ida s ∪ {[inst]}}><{n_subsys_refs := n_subsys_refs s + 1}>
    end) s.
Proof.
  intros I HC. pose proof (λ h Hh, heads_alive held s h I Hh) as Hal. destruct s as [m hs hl ida sr ct rm op nx t]. ns_norm.
  rw /nvme_alloc_ns_head. apply wp_bind, wp_ask_ns. ns_norm. destruct (e_alloc t) eqn:Ea; simpl negb; cbv iota.
  2: { apply wp_err_ptr; [done|done|]. intros e He. split; [done|]. split; [by eapply attr_self|].
       intros id Hc. by rw (calm_alloc _ _ _ Hc) in Ea. }
  apply wp_bind, wp_gets. ns_norm. apply wp_bind, wp_ask_ns. ns_norm. set (inst := e_ida (S t) ida).
  destruct (Z.ltb_spec inst 0) as [Hi|Hi].
  { apply wp_err_ptr; [lia|lia|]. intros e He. split; [done|]. split; [by eapply attr_self|].
    intros id Hc. pose proof (calm_ida _ _ _ Hc (S t) ida). lia. }
  pose proof (law_ida (S t) ida Hi) as Hni. apply wp_bind, wp_modify. ns_norm.
  assert ((ida ∪ {[inst]}) ∖ {[inst]} = ida) as Eida by (apply leibniz_equiv; set_solver).
  apply wp_bind, wp_ask_ns. ns_norm. pose proof (law_srcu (S (S t))) as Hsr. destruct (c_true (e_srcu (S (S t)))) eqn:Es.
  { apply wp_bind, wp_modify. ns_norm. rw Eida. rw /c_true in Es.
    apply wp_err_ptr; [by destruct (Z.eqb_spec (e_srcu (S (S t))) 0)|lia|]. intros e He. split; [done|]. split; [by eapply attr_self|].
    intros id Hc. by rw (calm_srcu _ _ _ Hc) in Es. }
  apply wp_bind. rw /__nvme_check_ids. apply wp_bind, wp_gets. ns_norm. eapply wp_mono; [apply wp_check_ids|].
  { intros h Hh. ns_norm. destruct (Hal h Hh) as (H & -> & _). eauto. }
  intros r s' [-> Hr]. ns_norm. destruct Hr as [->|(-> & h & H & Hh & HH & Hv & Hid)].
  2: { change (c_true (- EINVAL)) with true. cbv iota. apply wp_bind, wp_modify. ns_norm. rw Eida. apply wp_err_ptr; [done|done|]. intros e He.
       split; [done|]. split; [by eapply attr_self|]. intros _ _ _. exists h, H. auto. }
  change (c_true 0) with false. cbv iota.
  apply (wp_bind). apply (wp_mono _ (λ ret s1, ∃ C' t', s1 = Nst m hs hl (ida ∪ {[inst]}) sr (<[c := C']> ct) rm op nx t' ∧
    c_namespaces C' = c_namespaces C ∧ c_refs C' = c_refs C ∧ static C' = static C ∧
    (ret = 0 ∨ ret ≠ 0 ∧ (0 < ret → Z.land ret 0x7ff ≠ 0) ∧ c_true (ni_csi ids) = true))).
  { destruct (c_true (ni_csi ids)) eqn:Ec; [|apply wp_ret; exists C; rw insert_id //; eauto 10].
    rw /nvme_get_effects_log. apply wp_bind, (wp_ctrl_at _ C); [done|].
    case_decide; [apply wp_ret; exists C; rw insert_id //; eauto 10|].
    apply wp_bind, wp_ask_ns. ns_norm. destruct (e_alloc (S (S (S t)))); simpl negb; cbv iota.
    2: { apply wp_ret. exists C. rw insert_id //. eexists. repeat split. right. repeat split; done. }
    apply wp_bind, wp_ask_ns. ns_norm. pose proof (law_log (S (S (S (S t)))) c (ni_csi ids)) as Hlog.
    rw {1}/c_true. destruct (Z.eqb_spec (e_log (S (S (S (S t)))) c (ni_csi ids)) 0) as [He|He]; simpl negb; cbv iota.
    - apply wp_bind, wp_modify, wp_ret. ns_norm. eexists _, _. split; [done|]. repeat split. by left.
    - apply wp_ret. exists C. rw insert_id //. eexists. repeat split. right. auto. }
  intros ret s1 (C' & t' & -> & Hl & Hrf & Hst & Hret).
  assert (∀ nx' t', (nx ≤ nx')%positive → attr c (Nst m hs hl ida sr ct rm op nx t) (Nst m hs hl ida sr (<[c := C']> ct) rm op nx' t')) as Hattr.
  { intros nx' t2 Hnx. split; try done. exists C, C'. auto. }
  destruct Hret as [->|(H0 & Hp & Hcsi)].
  - change (c_true 0) with false. cbv iota. apply wp_bind, (wp_of_run _ _ _ nx (Nst m hs hl (ida ∪ {[inst]}) sr (<[c := C']> ct) rm op (Pos.succ nx) t')); [done|].
    apply wp_bind, wp_modify. ns_norm. apply wp_bind, wp_modify. ns_norm. apply wp_ret. split; [done|].
    exists inst, (Nst m hs hl ida sr (<[c := C']> ct) rm op (Pos.succ nx) t'). split; [done|]. split; [apply Hattr; lia|done].
  - assert (c_true ret = true) as ->. { rw /c_true. by destruct (Z.eqb_spec ret 0). }
    apply wp_bind, wp_modify. ns_norm. rw Eida. apply wp_err_ptr; [done|done|]. intros e He. split; [done|].
    split; [by apply Hattr|]. intros id _ Hz. by rw Hz in Hcsi.
Qed.

Lemma no_object held s p : ns_inv held s → (n_next s ≤ p)%positive → n_ns s !! p = None ∧ n_heads s !! p = None.
Proof.
  intros I Hp. split; [destruct (n_ns s !! p) eqn:Ep|destruct (n_heads s !! p) eqn:Ep]; try done; exfalso.
  - assert (p < n_next s)%positive by (eapply i_next; [done|left; eauto]). lia.
  - assert (p < n_next s)%positive by (eapply i_next; [done|right; eauto]). lia.
Qed.

(** The reference on a head that was found and is not used. *)
Lemma wp_put_found s h G (Q : unit → nst → Prop) :
  n_heads s !! h = Some G → 1 ≤ hd_ref G → Q tt s →
  wp (nvme_put_ns_head h) Q (s<{n_heads := <[h := G<{hd_ref := hd_ref G + 1}>]> (n_heads s)}>).
Proof.
  intros HG Hr HQ. destruct s as [m hs hl ida sr ct rm op nx t]. ns_norm. rw /nvme_put_ns_head.
  apply wp_bind. eapply wp_head_at; [apply lookup_insert_eq|]. apply wp_bind, wp_modify. ns_norm.
  destruct (Z.eqb_spec (hd_ref G + 1 - 1) 0); [lia|]. apply wp_ret. rw insert_insert_eq Z.add_simpl_r insert_id //.
  by destruct G.
Qed.

Lemma wp_init_ns_head held s p c C nsid ids shared :
  ns_inv held s → n_ctrls s !! c = Some C → n_ns s !! p = None → (p < n_next s)%positive →
  wp (nvme_init_ns_head p (λ h, Ns h c 1 false false false new_disk) c nsid ids shared) (λ ret s',
    ret ≠ 0 ∧ attr c s s' ∧ (∀ id, calm c nsid id → ni_csi ids = 0 → clash s nsid ids) ∨
    ret = 0 ∧ ∃ h, pend c s s' p h nsid ids new_disk) s.
Proof.
  intros I HC Hp Hpn. rw /nvme_init_ns_head. apply wp_bind. rw /nvme_find_ns_head. apply wp_bind, wp_gets.
  eapply wp_mono; [apply wp_find_head; intros h Hh; by eapply heads_alive|].
  intros [h|] s1.
  - intros (G & Hh & HG & Hid & Hl & ->). destruct (i_href _ _ I h G HG) as [_ Hr].
    apply wp_bind. eapply wp_head_at; [apply lookup_insert_eq|]. cbv beta zeta.
    assert (attr c s s) as Hself by (by eapply attr_self).
    assert (clash s nsid ids) as Hcl by (exists h, G; auto).
    destruct (_ || _).
    { apply wp_bind, wp_put_found; [done..|]. apply wp_ret. left. auto. }
    destruct (nvme_ns_ids_equal _ _) eqn:He; simpl negb; cbv iota.
    2: { apply wp_bind, wp_put_found; [done..|]. apply wp_ret. left. auto. }
    apply nvme_ns_ids_equal_spec in He. simpl in He. destruct s as [m hs hl ida sr ct rm op nx t]. ns_norm.
    apply wp_bind. eapply wp_head_at; [apply lookup_insert_eq|]. apply wp_bind, wp_modify. ns_norm.
    apply wp_bind, wp_modify. ns_norm. apply wp_ret. right. split; [done|]. exists h. split; ns_norm; try done.
    + left. exists G. rw insert_insert_eq. auto 10.
    + exists C, C. rw insert_id //.
    + split; [lia|]. split; [lia|]. eapply (i_next _ _ I). right. eauto.
  - intros ->. apply wp_bind. eapply wp_mono; [by eapply wp_alloc_head|]. intros [e|h] s'.
    + intros (He & Ha & Hc). apply wp_ret. left. auto.
    + intros (-> & inst & s1 & Hi & Ha & Hn & ->). destruct Ha as [Hct Hn1 Em Eh En Ei Es Er Eo].
      destruct (no_object held s (n_next s) I) as [_ Hfree]; [lia|].
      destruct s1 as [m hs hl ida sr ct rm op nx t]. ns_norm. subst.
      apply wp_bind. eapply wp_head_at; [apply lookup_insert_eq|]. apply wp_bind, wp_modify. ns_norm.
      apply wp_bind. eapply wp_head_at; [apply lookup_insert_eq|]. apply wp_bind, wp_modify. ns_norm.
      apply wp_bind, wp_modify. ns_norm. apply wp_ret. right. split; [done|]. exists (n_next s). split; ns_norm; try done.
      * right. exists inst, shared. rw !insert_insert_eq. auto 10.
      * lia.
Qed.

Lemma wp_update_info s p N H C id (Q : Z → nst → Prop) :
  n_ns s !! p = Some N → n_heads s !! ns_head N = Some H → n_ctrls s !! ns_ctrl N = Some C → id_ok id →
  (∀ t t' r d ma, nvme_update_ns_info (c_info C) e_zoned e_integrity (e_info t (ns_ctrl N) (hd_ns_id H)) (ni_csi (hd_ids H))
     (c_max_zone_append C) id (ns_gendisk N) = Some (r, d, ma) →
     Q r (s<{n_tick := t'}><{n_ns := <[p := N<{ns_gendisk := d}>]> (n_ns s)}>
           <{n_ctrls := <[ns_ctrl N := C<{c_max_zone_append := ma}>]> (n_ctrls s)}>)) →
  wp (update_ns_info p id) Q s.
Proof.
  intros HN HH HC Hid HQ. rw /update_ns_info. apply wp_bind, (wp_ns_at p N); [done|]. apply wp_bind, (wp_head_at _ H); [done|].
  apply wp_bind, (wp_ctrl_at _ C); [done|]. apply wp_bind, wp_ask_ns.
  destruct (update_ns_info_total (c_info C) e_zoned e_integrity (e_info (n_tick s) (ns_ctrl N) (hd_ns_id H)) (ni_csi (hd_ids H))
    (c_max_zone_append C) id (ns_gendisk N) Hid (law_info _ _ _)) as [[[r d] ma] Hr].
  apply wp_bind. eapply wp_from_option; [exact Hr|]. cbv iota beta zeta.
  apply wp_bind, wp_modify, wp_bind, wp_modify, wp_ret. by apply (HQ _ (S (n_tick s)) _ _ _ Hr).
Qed.

(** Filling in the disk of a namespace that is being added. *)
Lemma pend_update c s s' p h nsid ids d id held (Q : Z → nst → Prop) :
  ns_inv held s → pend c s s' p h nsid ids d → id_ok id →
  (∀ C t r d' ma ma' s'', n_ctrls s !! c = Some C →
     nvme_update_ns_info (c_info C) e_zoned e_integrity (e_info t c nsid) (ni_csi ids) ma id d = Some (r, d', ma') →
     pend c s s'' p h nsid ids d' → Q r s'') →
  wp (update_ns_info p id) Q s'.
Proof.
  intros I [Em Hh (C & C' & HC & Ec & Hl & Hr & Hst) Hn Er Eo] Hid HQ.
  assert (∃ H, n_heads s' !! h = Some H ∧ hd_ns_id H = nsid ∧ hd_ids H = ids) as (H & HH & Hnsid & Hids).
  { destruct Hh as [(G & HG & Hg1 & Hg2 & _ & -> & _)|(inst & sh & _ & _ & -> & _)]; rw lookup_insert_eq; eexists; split; done. }
  eapply (wp_update_info s' p (Ns h c 1 false false false d) H C'); [by rw Em lookup_insert_eq|done|by rw Ec lookup_insert_eq|done|].
  intros t t' r d' ma Hu. simpl in Hu. rw Hnsid Hids in Hu. assert (c_info C' = c_info C) as Hci by (by injection Hst). rw Hci in Hu.
  apply (HQ C t r d' (c_max_zone_append C') ma _ HC Hu). destruct s' as [m hs hl ida sr ct rm op nx tk]. ns_norm. subst m ct.
  split; ns_norm; try done; [by rw insert_insert_eq|]. exists C. eexists. rw insert_insert_eq. split; [done|]. split; [done|]. done.
Qed.

(** The error path: everything is given back. *)
Lemma pend_undo c s s' p h nsid ids d held :
  ns_inv held s → pend c s s' p h nsid ids d → n_ns s !! p = None →
  wp (N ← ns_at p; unlink_sibling p (ns_head N);; nvme_put_ns_head (ns_head N);; modify (λ s, s<{n_ns := base.delete p (n_ns s)}>))
     (λ _ s'', attr c s s'') s'.
Proof.
  intros I [Em Hh Hct Hn Er Eo] Hp. apply wp_bind. eapply wp_ns_at; [rw Em; apply lookup_insert_eq|].
  destruct s' as [m hs hl ida sr ct rm op nx tk]. ns_norm. subst m.
  destruct Hh as [(G & HG & _ & _ & Hl & -> & -> & -> & ->)|(inst & sh & Hh & Hi & -> & -> & -> & ->)].
  - destruct (i_href _ _ I h G HG) as [_ Hr]. assert (p ∉ hd_list G) as Hnl.
    { intros Hin. destruct (i_sibling _ _ I h G p HG Hin) as (M & HM & _). congruence. }
    apply wp_bind. eapply wp_unlink_sibling; [apply lookup_insert_eq|]. ns_norm. intros hs' hl'. rw unlink_snoc_fresh // bool_decide_false //.
    intros -> ->. rw insert_insert_eq. rw /nvme_put_ns_head. apply wp_bind, wp_bind. eapply wp_head_at; [apply lookup_insert_eq|].
    apply wp_bind, wp_modify. ns_norm. destruct (Z.eqb_spec (hd_ref G + 1 - 1) 0); [lia|]. apply wp_ret, wp_modify. ns_norm.
    rw delete_insert_id // insert_insert_eq Z.add_simpl_r insert_id; [|by destruct G]. split; ns_norm; try done. by destruct Hn.
  - assert (h ∉ n_nsheads s) as Hnh.
    { intros Hin. apply (i_nsheads _ _ I) in Hin as (G & HG & _). congruence. }
    apply wp_bind. eapply wp_unlink_sibling; [apply lookup_insert_eq|]. ns_norm. intros hs' hl'.
    rw unlink_cons_eq; [|apply not_elem_of_nil]. rw bool_decide_true //. intros -> ->. rw unlink_snoc_fresh // insert_insert_eq.
    rw /nvme_put_ns_head. apply wp_bind, wp_bind. eapply wp_head_at; [apply lookup_insert_eq|].
    apply wp_bind, wp_modify. ns_norm. change (1 - 1 =? 0) with true. cbv iota. rw /nvme_free_ns_head.
    apply wp_bind. eapply wp_head_at; [apply lookup_insert_eq|]. apply wp_modify. ns_norm. apply wp_modify. ns_norm.
    rw insert_insert_eq !delete_insert_id //.
    split; ns_norm; try done; [by destruct Hn|apply leibniz_equiv; set_solver|lia].
Qed.
(** ** Into the list of the controller *)

Lemma wp_add_reverse s p nsid rl :
  (∀ q, q ∈ rl → ∃ N H, n_ns s !! q = Some N ∧ n_heads s !! ns_head N = Some H) →
  wp (add_reverse p nsid rl) (λ rl' s', s' = s ∧ ∃ r1 r2, rl = r1 ++ r2 ∧ rl' = r1 ++ p :: r2 ∧
    (∀ q, q ∈ r1 → nsid ≤ nsid_of s q) ∧ match r2 with [] => True | q :: _ => nsid_of s q < nsid end) s.
Proof.
  induction rl as [|q rl IH]; intros Hal; simpl.
  { apply wp_ret. split; [done|]. exists [], []. split; [done|]. split; [done|]. split; [by intros q ?%elem_of_nil|done]. }
  destruct (Hal q) as (N & H & HN & HH); [apply elem_of_cons; by left|].
  apply wp_bind. rw /nsid_at. apply wp_bind, (wp_ns_at q N); [done|]. apply wp_bind, (wp_head_at _ H); [done|]. apply wp_ret.
  assert (nsid_of s q = hd_ns_id H) as Hid by (by rw /nsid_of /entry_of /entry HN HH).
  destruct (Z.ltb_spec (hd_ns_id H) nsid) as [Hlt|Hge].
  - apply wp_ret. split; [done|]. exists [], (q :: rl). split; [done|]. split; [done|]. split; [by intros ? ?%elem_of_nil|lia].
  - apply wp_bind. eapply wp_mono; [apply IH; intros r Hr; apply Hal, elem_of_cons; by right|].
    intros rl' s' (-> & r1 & r2 & -> & -> & H1 & H2). apply wp_ret. split; [done|]. exists (q :: r1), r2.
    split; [done|]. split; [done|]. split; [|done]. intros r [->|Hr]%elem_of_cons; [lia|auto].
Qed.

(** The place that is found keeps the list sorted. *)
Lemma place_sorted (f : positive → Z) l r1 r2 nsid :
  reverse l = r1 ++ r2 → StronglySorted Z.lt (f <$> l) → (∀ q, q ∈ l → f q ≠ nsid) →
  (∀ q, q ∈ r1 → nsid ≤ f q) → match r2 with [] => True | q :: _ => f q < nsid end →
  l = reverse r2 ++ reverse r1 ∧ (∀ q, q ∈ reverse r2 → f q < nsid) ∧ (∀ q, q ∈ reverse r1 → nsid < f q).
Proof.
  intros Hr Hs Hne H1 H2. assert (l = reverse r2 ++ reverse r1) as Hl.
  { rw -reverse_app -Hr reverse_involutive //. }
  split; [done|]. split.
  - destruct r2 as [|q r2]; [by intros ? ?%elem_of_nil|]. intros x Hx. rw Hl reverse_cons -app_assoc fmap_app in Hs.
    rw reverse_cons elem_of_app list_elem_of_singleton in Hx. destruct Hx as [Hx| ->]; [|done].
    assert (f x < f q); [|lia]. eapply (StronglySorted_app_1_elem_of Z.lt); [exact Hs| |].
    + by apply list_elem_of_fmap_2.
    + apply list_elem_of_fmap_2. apply elem_of_app. left. by apply list_elem_of_singleton.
  - intros x Hx. assert (f x ≠ nsid) by (apply Hne; rw Hl elem_of_app; by right). rw elem_of_reverse in Hx. apply H1 in Hx. lia.
Qed.

(** [p] was added to the list of [c]. *)
Definition added (p c : positive) (e : Z * (nvme_ns_ids * bool)) (s s' : nst) : Prop :=
  frame s s' ∧ (∃ l1 l2, listed s c = l1 ++ l2 ∧ listed s' c = l1 ++ p :: l2) ∧ (∀ d, d ≠ c → listed s' d = listed s d) ∧
  n_rm s' = n_rm s ∧ entry_of s' p = e ∧ n_ns s !! p = None ∧
  ∀ q, q ≠ p → is_Some (n_ns s' !! q) → is_Some (n_ns s !! q) ∧ entry_of s' q = entry_of s q.

Lemma pend_add c s s' p h nsid ids d held :
  ns_inv held s → pend c s s' p h nsid ids d → n_ns s !! p = None → (∀ q, q ∈ listed s c → nsid_of s q ≠ nsid) →
  wp (nvme_ns_add_to_ctrl_list p;; nvme_get_ctrl c;; add_disk p)
     (λ _ s'', ns_inv held s'' ∧ added p c (nsid, (ids, false)) s s'') s'.
Proof.
  intros I P Hp Hno. pose proof P as [Em Hh (C & C' & HC & Ec & Hl & Hr & Hst) (Hn1 & Hn2 & Hn3) Er Eo].
  assert (∃ H', n_heads s' = <[h := H']> (n_heads s) ∧ hd_ns_id H' = nsid ∧ hd_ids H' = ids) as (H' & Eh & Hnsid & Hids).
  { destruct Hh as [(G & HG & Hg1 & Hg2 & _ & -> & _)|(inst & sh & _ & _ & -> & _)]; eexists; split; done. }
  assert (n_ns s' !! p = Some (Ns h c 1 false false false d)) as HN by (by rw Em lookup_insert_eq).
  assert (n_heads s' !! h = Some H') as HH by (by rw Eh lookup_insert_eq).
  assert (∀ q, q ∈ c_namespaces C → q ≠ p ∧ ∃ N H, n_ns s' !! q = Some N ∧ n_heads s' !! ns_head N = Some H ∧ nsid_of s' q = nsid_of s q) as Hq.
  { intros q Hq. destruct (i_listed _ _ I c C q HC Hq) as (N & HN' & _). destruct (i_head _ _ I q N HN') as (G & HG & _).
    assert (q ≠ p) as Hne by congruence. split; [done|].
    assert (∃ G', n_heads s' !! ns_head N = Some G' ∧ hd_ns_id G' = hd_ns_id G) as (G' & HG' & Hgid).
    { rw Eh. destruct (decide (ns_head N = h)) as [He|He]; [|rw lookup_insert_ne //; eauto]. rw He lookup_insert_eq.
      exists H'. split; [done|]. rw He in HG. destruct Hh as [(G0 & HG0 & Hg1 & _)|(? & ? & Hno' & _)]; congruence. }
    exists N, G'. rw Em lookup_insert_ne //. split; [done|]. split; [done|].
    by rw /nsid_of /entry_of /entry Em lookup_insert_ne // HN' HG' HG /= Hgid. }
  rw /nvme_ns_add_to_ctrl_list. apply wp_bind, wp_bind, (wp_ns_at p _ _ _ HN).
  apply wp_bind. rw /nsid_at. apply wp_bind, (wp_ns_at p _ _ _ HN). apply wp_bind, (wp_head_at _ _ _ _ HH), wp_ret.
  apply wp_bind, (wp_ctrl_at c C'); [by rw Ec lookup_insert_eq|]. rw Hl Hnsid.
  apply wp_bind. eapply wp_mono; [apply wp_add_reverse|].
  { intros q Hin. rw elem_of_reverse in Hin. destruct (Hq q Hin) as (_ & N & H & ? & ? & _). eauto. }
  intros rl s1 (-> & r1 & r2 & Hrev & -> & H1 & H2).
  assert (∀ q, q ∈ r1 ++ r2 → nsid_of s' q = nsid_of s q) as Hid.
  { intros q Hin. rw -Hrev elem_of_reverse in Hin. by destruct (Hq q Hin) as (_ & N & H & _ & _ & ?). }
  destruct (place_sorted (nsid_of s) (c_namespaces C) r1 r2 nsid Hrev) as (Hsplit & Hl1 & Hl2).
  { by eapply i_sorted. } { intros q Hin. apply Hno. by rw (listed_some _ _ C). }
  { intros q Hin. rw -Hid; [by apply H1|apply elem_of_app; by left]. }
  { destruct r2 as [|q r2]; [done|]. rw -Hid //. apply elem_of_app. right. apply elem_of_cons. by left. }
  apply wp_modify. rw reverse_app reverse_cons -app_assoc /=.
  destruct s' as [m hs hl ida sr ct rm op nx tk]. ns_norm. subst m ct hs.
  rw /nvme_get_ctrl. apply wp_bind, wp_bind. eapply wp_ctrl_at; [apply lookup_insert_eq|]. apply wp_modify. ns_norm.
  rw /add_disk. apply wp_bind. eapply wp_ns_at; [apply lookup_insert_eq|]. apply wp_bind, wp_modify. ns_norm.
  apply wp_bind, wp_ask_ns. ns_norm. rw law_cdev. apply wp_bind. eapply wp_ns_at; [apply lookup_insert_eq|]. apply wp_modify. ns_norm.
  rw !insert_insert_eq. match goal with |- ns_inv _ ?st ∧ _ => set (s2 := st) end.
  assert (∃ N2 C2, n_ns s2 = <[p := N2]> (n_ns s) ∧ ns_head N2 = h ∧ ns_ctrl N2 = c ∧ ns_kref N2 = 1 ∧ ns_removing N2 = false ∧
    ns_cdev N2 = true ∧ ns_dead N2 = false ∧ n_ctrls s2 = <[c := C2]> (n_ctrls s) ∧
    c_namespaces C2 = reverse r2 ++ p :: reverse r1 ∧ c_refs C2 = c_refs C + 1 ∧ static C2 = static C)
    as (N2 & C2 & Em2 & Nh & Nc & Nk & Nr & Nd & Ndd & Ec2 & Cl & Cr & Cs).
  { eexists _, _. split; [reflexivity|]. repeat (split; [reflexivity|]). split; [|done]. simpl. lia. }
  assert (Eold : match n_heads s !! h with
    | Some G => (hd_list H' = hd_list G ++ [p]) ∧ hd_list G ≠ [] ∧ hd_ref H' = hd_ref G + 1 ∧ hd_instance H' = hd_instance G ∧
        hd_ns_id H' = hd_ns_id G ∧ hd_ids H' = hd_ids G ∧ n_nsheads s2 = n_nsheads s ∧ n_ida s2 = n_ida s ∧
        n_subsys_refs s2 = n_subsys_refs s
    | None => (hd_list H' = [p]) ∧ hd_ref H' = 1 ∧ (hd_instance H' ∉ n_ida s) ∧ (n_nsheads s2 = n_nsheads s ++ [h]) ∧
        n_ida s2 = n_ida s ∪ {[hd_instance H']} ∧ n_subsys_refs s2 = n_subsys_refs s + 1
    end).
  { clear -Hh. destruct Hh as [(G & -> & Hg1 & Hg2 & Hl & Eh & -> & -> & ->)|(inst & sh & -> & Hi & Eh & -> & -> & ->)].
    - assert (H' = G<{hd_ref := hd_ref G + 1}><{hd_list := hd_list G ++ [p] }>) as ->; [|done].
      apply (f_equal (lookup h)) in Eh. rw !lookup_insert_eq in Eh. by injection Eh.
    - assert (H' = NsHead nsid ids inst sh 1 [p]) as ->; [|done].
      apply (f_equal (lookup h)) in Eh. rw !lookup_insert_eq in Eh. by injection Eh. }
  assert (∀ q, (q < n_next s)%positive ∨ q = p ∨ q = h → (q < n_next s2)%positive) as Hnx.
  { ns_norm. intros q [?|[->| ->]]; simpl; lia. }
  assert (ns_inv held s2) as I2.
  { eapply (inv_add held s s2 p h c N2 H' C C2 (reverse r2) (reverse r1)); try done.
    - intros q Hin. rw Hnsid. by apply Hl1.
    - intros q Hin. rw Hnsid. by apply Hl2. }
  split; [done|]. split; [split; [intros e; rw Ec2; by eapply static_insert|done]|].
  split; [exists (reverse r2), (reverse r1); rw (listed_some _ _ C) //; split; [done|]; rw -Cl; apply listed_some; by rw Ec2 lookup_insert_eq|].
  split; [intros e He; by rw (ns_listed_insert s s2 c C C2 e HC Ec2) decide_False|].
  split; [done|]. split; [by rw (add_entry_new s s2 p h N2 H' Nh Em2 eq_refl) Hnsid Hids Ndd|]. split; [done|].
  intros q Hne Hq'. split; [by rw Em2 lookup_insert_ne // in Hq'|]. by eapply (add_entry held s s2 p h c N2 H' C C2).
Qed.
(** ** All of [nvme_alloc_ns] *)

Lemma identify_ok vs alloc answer ids :
  (nvme_identify_ns vs alloc answer ids).1 = 0 → alloc = true ∧ answer.1 = 0 ∧ id_ncap answer.2 ≠ 0.
Proof.
  rw /nvme_identify_ns. destruct alloc; [|done]. destruct answer as [st id]. simpl. rw /c_true.
  destruct (Z.eqb_spec st 0) as [->|]; simpl; [|done]. by destruct (Z.eqb_spec (id_ncap id) 0).
Qed.
Lemma identify_csi vs alloc answer ids : ni_csi (nvme_identify_ns vs alloc answer ids).2 = ni_csi ids.
Proof.
  rw /nvme_identify_ns. destruct alloc; [|done]. destruct answer as [st id]. simpl. destruct (c_true st); [done|].
  destruct (_ =? 0); [done|]. simpl.
  repeat match goal with |- context [if ?b then _ else _] => destruct b end; done.
Qed.

Lemma wp_identify_ns s c C nsid ids (Q : Z * nvme_ns_ids * nvme_id_ns → nst → Prop) :
  n_ctrls s !! c = Some C →
  (∀ t1 t2 t3, Q (nvme_identify_ns (ci_vs (c_info C)) (e_alloc t1) (e_identify t2 c nsid) ids, (e_identify t2 c nsid).2)
     (s<{n_tick := t3}>)) →
  wp (identify_ns c nsid ids) Q s.
Proof.
  intros HC HQ. rw /identify_ns. apply wp_bind, (wp_ctrl_at _ C); [done|].
  apply wp_bind, wp_ask_ns, wp_bind, wp_ask_ns, wp_ret. apply (HQ _ _ (S (S (n_tick s)))).
Qed.

Lemma attr_clash c s s' nsid ids : attr c s s' → clash s' nsid ids → clash s nsid ids.
Proof. rw /clash. intros A. by rw (at_nsheads _ _ _ A) (at_heads _ _ _ A). Qed.

Lemma attr_trans c s1 s2 s3 : attr c s1 s2 → attr c s2 s3 → attr c s1 s3.
Proof.
  intros [(C1 & C2 & HC1 & E1 & Hl1 & Hr1 & Hs1) A2 A3 A4 A5 A6 A7 A8 A9] [(D1 & D2 & HD1 & F1 & Gl1 & Gr1 & Gs1) B2 B3 B4 B5 B6 B7 B8 B9].
  rw E1 lookup_insert_eq in HD1. injection HD1 as <-. split; try (by etrans).
  exists C1, D2. split; [done|]. rw F1 E1 insert_insert_eq. split; [done|]. repeat split; congruence.
Qed.

Lemma added_attr c p e s1 s2 s3 : attr c s1 s2 → added p c e s2 s3 → added p c e s1 s3.
Proof.
  intros A (F & (l1 & l2 & L1 & L2) & O & R & En & Hp & Hq). destruct (attr_keeps _ _ _ A) as (KF & KL & KR & KE).
  split; [by etrans|]. split; [exists l1, l2; by rw -KL|]. split; [intros d Hd; rw O //|]. split; [congruence|]. split; [done|].
  split; [by rw -(at_ns _ _ _ A)|]. intros q Hne H3. destruct (Hq q Hne H3) as [H2 ->]. destruct (KE q H2). auto.
Qed.

Lemma wp_alloc_ns held s c C nsid ids0 :
  ns_inv held s → n_ctrls s !! c = Some C → (∀ q, q ∈ listed s c → nsid_of s q ≠ nsid) →
  wp (nvme_alloc_ns c nsid ids0) (λ _ s', ns_inv held s' ∧
    (keeps s s' ∧ (∀ id ids, calm c nsid id → nvme_identify_ns (ci_vs (c_info C)) true (0, id) ids0 = (0, ids) → ni_csi ids0 = 0 →
       Z.land (ci_flags (c_info C)) NVME_F_FABRICS = 0 → clash s nsid ids) ∨
     ∃ p ids, added p c (nsid, (ids, false)) s s' ∧
       ∀ id, calm c nsid id → ids = (nvme_identify_ns (ci_vs (c_info C)) true (0, id) ids0).2)) s.
Proof.
  intros I HC Hno. assert (∀ s', attr c s s' → ns_inv held s' ∧ keeps s s') as Hback.
  { intros s' A. split; [by eapply attr_inv|by eapply attr_keeps]. }
  rw /nvme_alloc_ns. apply wp_bind. eapply wp_identify_ns; [done|]. intros t1 t2 t3.
  destruct (nvme_identify_ns _ _ _ _) as [error ids] eqn:Eid.
  pose proof (identify_ok (ci_vs (c_info C)) (e_alloc t1) (e_identify t2 c nsid) ids0) as Hok. rw Eid /= in Hok.
  pose proof (identify_csi (ci_vs (c_info C)) (e_alloc t1) (e_identify t2 c nsid) ids0) as Hcsi. rw Eid /= in Hcsi.
  assert (∀ id, calm c nsid id → nvme_identify_ns (ci_vs (c_info C)) true (0, id) ids0 = (error, ids)) as Hcalm.
  { intros id Hc. by rw (calm_alloc _ _ _ Hc) (calm_identify _ _ _ Hc) in Eid. }
  destruct s as [m hs hl ida sr ct rm op nx t]. ns_norm. set (s := Nst m hs hl ida sr ct rm op nx t) in *.
  assert (∀ nx' t', (nx ≤ nx')%positive → attr c s (Nst m hs hl ida sr ct rm op nx' t')) as Hself.
  { intros nx' t' Hn. by eapply attr_self. }
  destruct (c_true error) eqn:Eer.
  { apply wp_ret. destruct (Hback _ (Hself nx t3 (Pos.le_refl _))) as [I' K]. split; [done|]. left. split; [done|].
    intros id ids' Hc Hi. rw Hcalm // in Hi. by injection Hi as -> _. }
  assert (error = 0) as ->. { rw /c_true in Eer. by destruct (Z.eqb_spec error 0). }
  destruct (Hok eq_refl) as (_ & Hst & Hcap). pose proof (law_identify t2 c nsid Hst Hcap) as Hidok.
  apply wp_bind, wp_ask_ns. ns_norm. destruct (e_alloc t3) eqn:Ea; simpl negb; cbv iota.
  2: { apply wp_ret. destruct (Hback _ (Hself nx (S t3) (Pos.le_refl _))) as [I' K]. split; [done|]. left. split; [done|].
       intros id ids' Hc. by rw (calm_alloc _ _ _ Hc) in Ea. }
  apply wp_bind, wp_ask_ns. ns_norm. destruct (e_alloc (S t3)) eqn:Ea2; simpl negb; cbv iota.
  2: { apply wp_ret. destruct (Hback _ (Hself nx (S (S t3)) (Pos.le_refl _))) as [I' K]. split; [done|]. left. split; [done|].
       intros id ids' Hc. by rw (calm_alloc _ _ _ Hc) in Ea2. }
  apply wp_bind, (wp_of_run _ _ _ nx (Nst m hs hl ida sr ct rm op (Pos.succ nx) (S (S t3)))); [done|].
  set (s1 := Nst m hs hl ida sr ct rm op (Pos.succ nx) (S (S t3))).
  assert (attr c s s1) as A1 by (apply Hself; lia). destruct (Hback s1 A1) as [I1 K1].
  destruct (no_object held s nx I) as [Hfree _]; [simpl; lia|].
  apply wp_bind. eapply wp_mono; [apply (wp_init_ns_head held s1 nx c C); [done..|simpl; lia]|].
  intros ret s2 [(Hret & A2 & Hcl)|(-> & h & P)].
  { assert (c_true ret = true) as ->. { rw /c_true. by destruct (Z.eqb_spec ret 0). }
    apply wp_ret. pose proof (attr_trans _ _ _ _ A1 A2) as A. destruct (Hback _ A) as [I' K]. split; [done|]. left. split; [done|].
    intros id ids' Hc Hi Hz _. rw Hcalm // in Hi. injection Hi as <-. apply (attr_clash _ _ _ _ _ A1). eapply Hcl; [done|congruence]. }
  change (c_true 0) with false. cbv iota. apply wp_bind. eapply pend_update; [exact I1|exact P|done|].
  intros C0 t4 ret d' ma ma' s3 HC0 Hu P3. assert (C0 = C) as -> by (simpl in HC0; congruence).
  destruct (c_true ret) eqn:Er.
  - eapply wp_mono; [apply (pend_undo c s1 s3 nx h nsid ids d' held I1 P3 Hfree)|]. intros [] s4 A4. pose proof (attr_trans _ _ _ _ A1 A4) as A.
    destruct (Hback _ A) as [I' K]. split; [done|]. left. split; [done|]. intros id ids' Hc Hi Hz Hf.
    apply update_pci in Hu as [_ Hu]; [|done|rw Hcsi Hz; done|apply law_info]. by rw Hu in Er.
  - eapply wp_mono; [eapply pend_add; [exact I1|exact P3|done|]|].
    { intros q Hq. by apply (Hno q). }
    intros _ s4 [I4 A4]. split; [done|]. right. exists nx, ids. split; [by eapply added_attr|]. intros id Hc. by rw Hcalm.
Qed.
End alloc.
