(* ===== verification/NsScan.v ===== *)
(** * Scanning

    Validating, removing and scanning keep the invariant whatever the controllers
    answer; and what a scan of a controller that answers steadily leaves behind. *)
From Stdlib Require Import Sorted.
From S2P Require Import Prelude Lifecycle ReqSetup ReqLife NsIdent NsDisk Namespace NsInv NsOps NsAlloc.

(** ** What the operations do to the lists *)

Lemma elem_of_view s c e : e ∈ view s c ↔ ∃ q, q ∈ listed s c ∧ e = entry_of s q.
Proof. rw /view list_elem_of_fmap. naive_solver. Qed.

Lemma keeps_ns_view held s s' c : ns_inv held s' → keeps s s' → view s' c = view s c.
Proof.
  intros I' (_ & Hl & _ & He). rw /view Hl. apply list_fmap_ext. intros i q Hq%list_elem_of_lookup_2.
  apply He. rw -Hl in Hq. destruct (listed_alive _ _ _ _ I' Hq) as (C & N & _ & -> & _). eauto.
Qed.

Lemma view_sorted held s c : ns_inv held s → StronglySorted Z.lt ((view s c).*1).
Proof.
  intros I. rw /view -list_fmap_compose. rw /listed. destruct (n_ctrls s !! c) as [C|] eqn:HC; [|constructor].
  by apply (i_sorted _ _ I c C HC).
Qed.
Lemma sorted_distinct (f : positive → Z) l p q : StronglySorted Z.lt (f <$> l) → p ∈ l → q ∈ l → f p = f q → p = q.
Proof.
  induction l as [|x l IH]; intros Hs Hp Hq Heq; [by apply elem_of_nil in Hp|]. rw fmap_cons in Hs.
  apply StronglySorted_inv in Hs as [Hs Hx]. rw Forall_fmap list.Forall_forall in Hx.
  apply elem_of_cons in Hp as [->|Hp], Hq as [->|Hq]; [done| | |by apply IH].
  - specialize (Hx q Hq). simpl in Hx. lia.
  - specialize (Hx p Hp). simpl in Hx. lia.
Qed.
Lemma sorted_nodup (f : positive → Z) l : StronglySorted Z.lt (f <$> l) → NoDup l.
Proof.
  induction l as [|x l IH]; intros Hs; [constructor|]. rw fmap_cons in Hs. apply StronglySorted_inv in Hs as [Hs Hx].
  rw Forall_fmap list.Forall_forall in Hx. constructor; [|by apply IH]. intros Hin. specialize (Hx x Hin). simpl in Hx. lia.
Qed.
Lemma listed_distinct held s c p q : ns_inv held s → p ∈ listed s c → q ∈ listed s c → nsid_of s p = nsid_of s q → p = q.
Proof.
  intros I Hp. destruct (listed_alive _ _ _ _ I Hp) as (C & N & HC & _). rw (listed_some _ _ C) // in Hp |- *.
  intros Hq. apply (sorted_distinct _ (c_namespaces C)); [by eapply i_sorted|done..].
Qed.

Lemma drops_view held held' s s' p c d e :
  ns_inv held s → ns_inv held' s' → drops p s s' → p ∈ listed s c →
  e ∈ view s' d ↔ e ∈ view s d ∧ (d = c → e.1 ≠ nsid_of s p).
Proof.
  intros I I' (_ & Hl & _ & He) Hp. rw !elem_of_view.
  assert (∀ q, q ∈ listed s' d → entry_of s' q = entry_of s q) as Hq.
  { intros q Hq. apply He. destruct (listed_alive _ _ _ _ I' Hq) as (C & N & _ & -> & _). eauto. }
  split.
  - intros (q & Hin & ->). rw (Hq q Hin). rw Hl elem_of_unlink in Hin. destruct Hin as [Hin Hne]. split; [eauto|].
    intros ->. intros Heq. apply Hne. exact (listed_distinct held s c q p I Hin Hp Heq).
  - intros [(q & Hin & ->) Hne]. exists q. assert (q ∈ listed s' d) as Hin'; [|split; [done|by rw Hq]].
    rw Hl elem_of_unlink. split; [done|]. intros ->. destruct (listed_alive _ _ _ _ I Hin) as (C & N & _ & HN & Hc & _).
    destruct (listed_alive _ _ _ _ I Hp) as (C' & N' & _ & HN' & Hc' & _). apply Hne; [congruence|done].
Qed.

Lemma added_view held held' s s' p c e0 d e :
  ns_inv held s → ns_inv held' s' → added p c e0 s s' → e ∈ view s' d ↔ e ∈ view s d ∨ d = c ∧ e = e0.
Proof.
  intros I I' (_ & (l1 & l2 & L1 & L2) & Ho & _ & Hp & Hfresh & Hq). rw !elem_of_view.
  assert (∀ q, q ∈ listed s d → q ≠ p) as Hne.
  { intros q Hin ->. destruct (listed_alive _ _ _ _ I Hin) as (C & N & _ & HN & _). congruence. }
  assert (∀ q, q ∈ listed s' d ↔ q ∈ listed s d ∨ d = c ∧ q = p) as Hin.
  { intros q. destruct (decide (d = c)) as [->|Hd]; [|rw Ho //; naive_solver].
    rw L2 L1 !elem_of_app elem_of_cons. naive_solver. }
  assert (∀ q, q ∈ listed s d → entry_of s' q = entry_of s q) as He.
  { intros q Hq'. apply Hq; [by apply Hne|]. destruct (listed_alive held' s' d q I') as (C & N & _ & -> & _); [apply Hin; auto|eauto]. }
  split.
  - intros (q & [Hq'|[-> ->]]%Hin & ->); [left; exists q; auto|by right].
  - intros [(q & Hq' & ->)|[-> ->]]; [exists q|exists p]; rw Hin; [rw He; auto|rw Hp; auto].
Qed.

(** Only the number [n] of controller [c] may be listed otherwise. *)
Definition only (c : positive) (n : Z) (s s' : nst) : Prop :=
  frame s s' ∧ n_rm s' = n_rm s ∧ ∀ d e, d ≠ c ∨ e.1 ≠ n → (e ∈ view s' d ↔ e ∈ view s d).

Lemma only_keeps held c n s s' : ns_inv held s' → keeps s s' → only c n s s'.
Proof.
  intros I K. pose proof K as (F & _ & R & _). split; [done|]. split; [done|]. intros d e _. by rw (keeps_ns_view held s s' d).
Qed.
Lemma only_drops held held' c p s s' :
  ns_inv held s → ns_inv held' s' → drops p s s' → p ∈ listed s c → p ∉ n_rm s → only c (nsid_of s p) s s'.
Proof.
  intros I I' K Hp Hr. pose proof K as (F & _ & R & _). split; [done|]. split; [by rw R unlink_not_elem|].
  intros d e Hde. rw (drops_view held held' s s' p c d e) //. naive_solver.
Qed.
Lemma only_added held held' c p n v s s' : ns_inv held s → ns_inv held' s' → added p c (n, v) s s' → only c n s s'.
Proof.
  intros I I' K. pose proof K as (F & _ & _ & R & _). split; [done|]. split; [done|].
  intros d e Hde. rw (added_view held held' s s' p c (n, v) d e) //. split; [|by left]. intros [?|[-> ->]]; [done|]. naive_solver.
Qed.
Lemma only_trans c n s1 s2 s3 : only c n s1 s2 → only c n s2 s3 → only c n s1 s3.
Proof.
  intros (F1 & R1 & V1) (F2 & R2 & V2). split; [by etrans|]. split; [congruence|]. intros d e H. by rw V2 // V1.
Qed.

Section ops.
Context {E : ns_env} {L : ns_env_laws E}.

(** ** Removing by number *)

Lemma found_alive held s s' c p : ns_inv held s' → keeps s s' → p ∈ listed s c →
  p ∈ listed s' c ∧ nsid_of s' p = nsid_of s p ∧ ∃ C N, n_ctrls s' !! c = Some C ∧ n_ns s' !! p = Some N ∧ ns_ctrl N = c ∧ ns_removing N = false.
Proof.
  intros I' (_ & Hl & _ & He) Hp. rw -Hl in Hp. split; [done|].
  destruct (listed_alive _ _ _ _ I' Hp) as (C & N & HC & HN & Hc & Hr). split; [|by exists C, N].
  rw /nsid_of. destruct (He p) as [_ ->]; [rw HN; eauto|done].
Qed.

Lemma wp_remove_by_nsid held s c C n :
  ns_inv held s → n_rm s = [] → n_ctrls s !! c = Some C →
  wp (nvme_ns_remove_by_nsid c n) (λ _ s', ns_inv held s' ∧ only c n s s' ∧ ∀ e, e ∈ view s' c → e.1 ≠ n) s.
Proof.
  intros I Hrm HC. rw /nvme_ns_remove_by_nsid. apply wp_bind. eapply wp_mono; [by eapply wp_find_get|].
  intros [p|] s1.
  - intros (I1 & K1 & Hp & Hid). destruct (found_alive _ _ _ c p I1 K1 Hp) as (Hp1 & Hid1 & _ & N & _ & HN & _ & Hr).
    apply wp_bind. eapply wp_mono; [by eapply wp_ns_remove|]. intros _ s2 [I2 D2].
    eapply wp_mono; [by apply wp_put_ns|]. intros _ s3 [I3 K3]. split; [done|].
    assert (n_rm s1 = []) as Hrm1 by (destruct K1 as (_ & _ & -> & _); done). split.
    + apply (only_trans _ _ _ s1); [by apply (only_keeps (p :: held))|].
      apply (only_trans _ _ _ s2); [|by apply (only_keeps held)]. rw -Hid -Hid1.
      eapply only_drops; [exact I1|exact I2|done..|]. rw Hrm1. apply not_elem_of_nil.
    + intros e He. rw (keeps_ns_view held s2 s3) // in He. rw (drops_view (p :: held) (p :: held) s1 s2 p c) // in He.
      rw -Hid -Hid1. by apply He.
  - intros [-> Hno]. apply wp_ret. split; [done|]. split; [apply (only_keeps held); [done|reflexivity]|].
    intros e (q & Hq & ->)%elem_of_view. by apply Hno.
Qed.

(** ** Validating *)

Lemma wp_update_keep held s p N H C id (Q : Z → nst → Prop) :
  ns_inv held s → n_ns s !! p = Some N → n_heads s !! ns_head N = Some H → n_ctrls s !! ns_ctrl N = Some C → id_ok id →
  (∀ t r d ma s', ns_inv held s' → keeps s s' →
     nvme_update_ns_info (c_info C) e_zoned e_integrity (e_info t (ns_ctrl N) (hd_ns_id H)) (ni_csi (hd_ids H))
     (c_max_zone_append C) id (ns_gendisk N) = Some (r, d, ma) → Q r s') →
  wp (update_ns_info p id) Q s.
Proof.
  intros I HN HH HC Hid HQ. eapply wp_update_info; [done..|]. intros t t' r d ma Hu.
  destruct s as [m hs hl ida sr ct rm op nx tk]. ns_norm.
  set (s1 := Nst (<[p := N<{ns_gendisk := d}>]> m) hs hl ida sr ct rm op nx tk).
  assert (ns_inv held s1) as I1.
  { destruct (i_kref _ _ I p N HN) as [_ Hk].
    eapply (inv_set_ns held _ I held s1 p N (N<{ns_gendisk := d}>)); try done. intros q. simpl. case_decide; lia. }
  set (s2 := Nst _ _ _ _ _ _ _ _ _ _).
  assert (attr (ns_ctrl N) s1 s2) as A.
  { split; try done. exists C. eexists. split; [done|]. split; [reflexivity|]. done. }
  apply (HQ t r d ma); [by eapply attr_inv| |done]. etrans; [|by eapply attr_keeps]. by eapply keeps_set_ns.
Qed.

(** What a controller that answers steadily says of the namespace [n]. *)
Definition steady (c : positive) (info : ctrl_info) (mcss : bool) (n : Z) (ids : nvme_ns_ids) : Prop :=
  ∃ id ids0, calm c n id ∧
    (∀ t, nvme_identify_ns_descs (ci_vs info) (ci_quirks info) mcss true (e_descs t c n) no_ids = Some (0, ids0)) ∧
    nvme_identify_ns (ci_vs info) true (0, id) ids0 = (0, ids) ∧ ni_csi ids0 = NVME_CSI_NVM ∧
    Z.land (ci_flags info) NVME_F_FABRICS = 0.

(** A namespace that is validated stays or goes. *)
Lemma wp_validate_ns held s p c C ids0 :
  ns_inv held s → n_ctrls s !! c = Some C → p ∈ listed s c →
  wp (nvme_validate_ns p ids0) (λ _ s', ns_inv held s' ∧
    (keeps s s' ∧ (∀ id ids, calm c (nsid_of s p) id → nvme_identify_ns (ci_vs (c_info C)) true (0, id) ids0 = (0, ids) →
       ni_csi ids0 = NVME_CSI_NVM → Z.land (ci_flags (c_info C)) NVME_F_FABRICS = 0 → (entry_of s p).2 = (ids, false)) ∨
     drops p s s' ∧ (∀ id ids, calm c (nsid_of s p) id → nvme_identify_ns (ci_vs (c_info C)) true (0, id) ids0 = (0, ids) →
       ni_csi ids0 = NVME_CSI_NVM → Z.land (ci_flags (c_info C)) NVME_F_FABRICS = 0 → (entry_of s p).2 ≠ (ids, false)))) s.
Proof.
  intros I HC Hp. destruct (listed_alive _ _ _ _ I Hp) as (C' & N & HC' & HN & Hc & Hr). assert (C' = C) as -> by congruence.
  destruct (i_head _ _ I p N HN) as (H & HH & _).
  assert (entry_of s p = (hd_ns_id H, (hd_ids H, ns_dead N))) as He by (by rw /entry_of /entry HN HH).
  rw /nsid_of He. cbn [fst snd].
  set (Q := λ (_ : unit) s', ns_inv held s' ∧ _).
  assert (∀ s1, ns_inv held s1 → keeps s s1 → (∀ id ids, calm c (hd_ns_id H) id → nvme_identify_ns (ci_vs (c_info C)) true (0, id) ids0 = (0, ids) →
       ni_csi ids0 = NVME_CSI_NVM → Z.land (ci_flags (c_info C)) NVME_F_FABRICS = 0 → (hd_ids H, ns_dead N) = (ids, false)) → Q tt s1) as Qkeep.
  { intros s1 I1 K1 Hs. split; [done|]. by left. }
  assert (∀ s1, ns_inv held s1 → keeps s s1 → (∀ id ids, calm c (hd_ns_id H) id → nvme_identify_ns (ci_vs (c_info C)) true (0, id) ids0 = (0, ids) →
       ni_csi ids0 = NVME_CSI_NVM → Z.land (ci_flags (c_info C)) NVME_F_FABRICS = 0 → (hd_ids H, ns_dead N) ≠ (ids, false)) →
     wp (nvme_ns_remove p) Q s1) as Qdrop.
  { intros s1 I1 K1 Hs. destruct (found_alive _ _ _ c p I1 K1 Hp) as (_ & _ & _ & N1 & _ & HN1 & _ & Hr1).
    eapply wp_mono; [by eapply wp_ns_remove|]. intros [] s2 [I2 D2]. split; [done|]. right. split; [by eapply keeps_drops|done]. }
  rw /nvme_validate_ns. apply wp_bind, (wp_ns_at p N); [done|]. destruct (ns_dead N) eqn:Hd.
  { apply Qdrop; [done|reflexivity|]. intros id ids _ _ _ _ [=]. }
  apply wp_bind, (wp_head_at _ H); [done|]. rw Hc. apply wp_bind. eapply wp_identify_ns; [exact HC|]. intros t1 t2 t3.
  set (s1 := s<{n_tick := t3}>). assert (ns_inv held s1) as I1 by (by apply inv_tick). assert (keeps s s1) as K1 by apply keeps_tick.
  destruct (nvme_identify_ns _ _ _ _) as [ret ids] eqn:Eid.
  pose proof (identify_ok (ci_vs (c_info C)) (e_alloc t1) (e_identify t2 c (hd_ns_id H)) ids0) as Hok. rw Eid /= in Hok.
  pose proof (identify_csi (ci_vs (c_info C)) (e_alloc t1) (e_identify t2 c (hd_ns_id H)) ids0) as Hcsi. rw Eid /= in Hcsi.
  assert (∀ id, calm c (hd_ns_id H) id → nvme_identify_ns (ci_vs (c_info C)) true (0, id) ids0 = (ret, ids)) as Hcalm.
  { intros id Hc'. by rw (calm_alloc _ _ _ Hc') (calm_identify _ _ _ Hc') in Eid. }
  destruct (c_true ret) eqn:Er.
  { assert (∀ id ids', calm c (hd_ns_id H) id → nvme_identify_ns (ci_vs (c_info C)) true (0, id) ids0 = (0, ids') → False) as Hno.
    { intros id ids' Hc' Hi. rw Hcalm // in Hi. by injection Hi as -> _. }
    destruct (_ && _); [apply Qdrop; [done..|]|apply wp_ret, Qkeep; [done..|]]; intros id ids' Hc' Hi; by destruct (Hno id ids' Hc' Hi). }
  assert (ret = 0) as ->. { rw /c_true in Er. by destruct (Z.eqb_spec ret 0). }
  destruct (nvme_ns_ids_equal _ _) eqn:Eq; simpl negb; cbv iota.
  2: { change ((0 <? Z.lor NVME_SC_INVALID_NS NVME_SC_DNR) && c_true (Z.land (Z.lor NVME_SC_INVALID_NS NVME_SC_DNR) NVME_SC_DNR)) with true.
       cbv iota. apply Qdrop; [done..|]. intros id ids' Hc' Hi _ _ [= Heq]. rw Hcalm // in Hi. injection Hi as ->.
       by rw Heq (proj2 (nvme_ns_ids_equal_spec ids' ids')) in Eq. }
  apply nvme_ns_ids_equal_spec in Eq. destruct (Hok eq_refl) as (_ & Hst & Hcap).
  apply wp_bind. eapply (wp_update_keep held s1 p N H C); [done|done|done|by rw Hc|by apply law_identify|].
  intros t4 r d ma s2 I2 K2 Hu. assert (keeps s s2) as K by (by etrans). destruct (_ && _) eqn:Eout.
  - apply Qdrop; [done..|]. intros id ids' Hc' Hi Hz Hf. exfalso.
    apply update_pci in Hu as [Hu _]; [|done|rw Eq Hcsi Hz; done|apply law_info].
    apply andb_true_iff in Eout as [Hlt%Z.ltb_lt _]. lia.
  - apply wp_ret, Qkeep; [done..|]. intros id ids' Hc' Hi _ _. rw Hcalm // in Hi. injection Hi as <-. by rw Eq.
Qed.

Lemma wp_identify_descs s c C n (Q : Z * nvme_ns_ids → nst → Prop) :
  n_ctrls s !! c = Some C →
  (∀ t1 t2 t3 r, nvme_identify_ns_descs (ci_vs (c_info C)) (ci_quirks (c_info C)) (c_multi_css C) (e_alloc t1) (e_descs t2 c n) no_ids =
     Some r → Q r (s<{n_tick := t3}>)) →
  wp (identify_ns_descs c n) Q s.
Proof.
  intros HC HQ. rw /identify_ns_descs. apply wp_bind, (wp_ctrl_at _ C); [done|]. apply wp_bind, wp_ask_ns, wp_bind, wp_ask_ns.
  assert (∀ t1 t2, is_Some (nvme_identify_ns_descs (ci_vs (c_info C)) (ci_quirks (c_info C)) (c_multi_css C) (e_alloc t1) (e_descs t2 c n) no_ids)) as Hs.
  { intros t1 t2. rw /nvme_identify_ns_descs. destruct (_ && _); [by eexists|]. destruct (c_true _); [by eexists|].
    destruct (negb _); [by eexists|]. pose proof (law_descs t2 c n) as Hpage. destruct (e_descs t2 c n) as [st data]. simpl in Hpage.
    rw /c_true. destruct (Z.eqb_spec st 0) as [->|]; simpl negb; cbv iota; [|by eexists].
    destruct (page_parsed data no_ids false (Hpage eq_refl)) as [[ids seen] ->]. by eexists. }
  destruct (Hs (n_tick s) (S (n_tick s))) as [r Hr]. eapply wp_from_option; [exact Hr|]. exact (HQ _ _ (S (S (n_tick s))) _ Hr).
Qed.

(** One number of the list: after it only that number may be listed otherwise; when
    the controller answers steadily nothing wrong is listed under the number, and
    what belongs there is, unless a head was in the way. *)
Lemma wp_validate_or_alloc held s c C n :
  ns_inv held s → n_rm s = [] → n_ctrls s !! c = Some C →
  wp (nvme_validate_or_alloc_ns c n) (λ _ s', ns_inv held s' ∧ only c n s s' ∧
    ∀ ids, steady c (c_info C) (c_multi_css C) n ids →
      (∀ e, e ∈ view s' c → e.1 = n → e = (n, (ids, false))) ∧
      ((∀ e, e ∈ view s c → e.1 = n → e = (n, (ids, false))) → (clash s n ids → (n, (ids, false)) ∈ view s c) →
       (n, (ids, false)) ∈ view s' c)) s.
Proof.
  intros I Hrm HC. rw /nvme_validate_or_alloc_ns. apply wp_bind. eapply wp_identify_descs; [done|].
  intros t1 t2 t3 [status ids0] Hd. set (s1 := s<{n_tick := t3}>).
  assert (ns_inv held s1) as I1 by (by apply inv_tick). assert (keeps s s1) as K1 by apply keeps_tick.
  assert (∀ ids, steady c (c_info C) (c_multi_css C) n ids → status = 0 ∧ ∃ id, calm c n id ∧
    nvme_identify_ns (ci_vs (c_info C)) true (0, id) ids0 = (0, ids) ∧ ni_csi ids0 = NVME_CSI_NVM ∧
    Z.land (ci_flags (c_info C)) NVME_F_FABRICS = 0) as Hsteady.
  { intros ids (id & ids1 & Hc & Hds & Hi & Hcsi & Hf). rw (calm_alloc _ _ _ Hc) Hds in Hd. injection Hd as <- <-.
    split; [done|]. exists id. auto. }
  destruct (c_true status) eqn:Est.
  { apply wp_ret. split; [done|]. split; [by apply (only_keeps held)|]. intros ids [-> _]%Hsteady. done. }
  apply wp_bind. eapply wp_mono; [by apply (wp_find_get held s1 c C)|]. intros [p|] s2.
  - intros (I2 & K2 & Hp & Hid). assert (keeps s s2) as K by (by etrans).
    destruct (found_alive _ _ _ c p I2 K Hp) as (Hp2 & Hid2 & C2 & _ & HC2 & _).
    assert (c_info C2 = c_info C) as Hinfo.
    { destruct K as ((Hst & _) & _). specialize (Hst c). rw HC HC2 in Hst. by injection Hst. }
    assert (n_rm s2 = []) as Hrm2 by (destruct K as (_ & _ & -> & _); done).
    assert (nsid_of s2 p = n) as Hid'. { rw Hid2. exact Hid. }
    assert ((entry_of s2 p) ∈ view s c) as Hin.
    { rw -(keeps_ns_view (p :: held) s s2 c) // elem_of_view. eauto. }
    apply wp_bind. eapply wp_mono; [by apply (wp_validate_ns (p :: held) s2 p c C2)|].
    intros _ s3 (I3 & Hcase). eapply wp_mono; [by apply wp_put_ns|]. intros _ s4 (I4 & K4). split; [done|].
    rw Hid' Hinfo in Hcase. destruct Hcase as [[K3 Hs3]|[D3 Hs3]].
    + assert (keeps s s4) as K' by (etrans; [exact K|by etrans]). split; [by apply (only_keeps held)|].
      intros ids (_ & id & Hc & Hi & Hcsi & Hf)%Hsteady. pose proof (Hs3 id ids Hc Hi Hcsi Hf) as Hent.
      rw (keeps_ns_view held s s4 c) //. assert (entry_of s2 p = (n, (ids, false))) as Hep.
      { rw -Hent -Hid' /nsid_of. by destruct (entry_of s2 p). }
      split; [|by rw -Hep]. intros e He Hn. rw -Hep. rw -(keeps_ns_view (p :: held) s s2 c) // in He.
      apply elem_of_view in He as (q & Hq & ->). f_equal. eapply (listed_distinct _ s2 c); [exact I2|done|done|]. by rw Hid'.
    + assert (only c n s s4) as Ho.
      { apply (only_trans _ _ _ s2); [by apply (only_keeps (p :: held))|]. apply (only_trans _ _ _ s3); [|by apply (only_keeps held)].
        rw -Hid'. eapply only_drops; [exact I2|exact I3|done..|]. rw Hrm2. apply not_elem_of_nil. }
      assert (∀ e, e ∈ view s4 c → e.1 ≠ n) as Hgone.
      { intros e. rw (keeps_ns_view held s3 s4 c) // (drops_view (p :: held) (p :: held) s2 s3 p c) // -Hid'. naive_solver. }
      split; [done|]. intros ids (_ & id & Hc & Hi & Hcsi & Hf)%Hsteady. split; [intros e He Hn; by destruct (Hgone e He)|].
      intros Hall _. exfalso. apply (Hs3 id ids Hc Hi Hcsi Hf). specialize (Hall _ Hin Hid'). by rw Hall.
  - intros [-> Hno]. apply wp_bind, (wp_ctrl_at _ C); [done|]. set (Q := λ (_ : unit) s', ns_inv held s' ∧ _).
    assert (∀ e, e ∈ view s1 c → e.1 ≠ n) as Hnov. { intros e (q & Hq & ->)%elem_of_view. by apply Hno. }
    assert (∀ e, e ∈ view s c → e.1 ≠ n) as Hnov0. { intros e He. apply Hnov. by rw (keeps_ns_view held s s1 c). }
    assert ((∀ ids, steady c (c_info C) (c_multi_css C) n ids → False) → Q tt s1) as Qnone.
    { intros Hns. split; [done|]. split; [by apply (only_keeps held)|]. intros ids Hst. by destruct (Hns ids Hst). }
    assert (wp (nvme_alloc_ns c n ids0) Q s1) as Qalloc.
    { eapply wp_mono; [by apply (wp_alloc_ns held s1 c C)|]. intros [] s2 (I2 & Hcase). split; [done|].
      destruct Hcase as [[K2 Hcl]|(p & ids' & A & Hids)].
      - assert (keeps s s2) as K by (by etrans). split; [by apply (only_keeps held)|].
        intros ids (_ & id & Hc & Hi & Hcsi & Hf)%Hsteady. rw (keeps_ns_view held s s2 c) //. split.
        + intros e He Hn. by destruct (Hnov0 e He).
        + intros _ Hpres. apply Hpres. exact (Hcl id ids Hc Hi Hcsi Hf).
      - split; [apply (only_trans _ _ _ s1); [by apply (only_keeps held)|by eapply (only_added held held)]|].
        intros ids (_ & id & Hc & Hi & Hcsi & Hf)%Hsteady. pose proof (Hids id Hc) as ->. rw Hi in A |- *. cbn [snd] in *.
        split; [|intros _ _; rw (added_view held held s1 s2 p c _ c) //; by right].
        intros e. rw (added_view held held s1 s2 p c _ c) //. intros [He|[_ ->]] Hn; [by destruct (Hnov e He)|done]. }
    destruct (Z.eqb_spec (ni_csi ids0) NVME_CSI_NVM) as [Hcsi|Hcsi]; [done|].
    assert (∀ ids, steady c (c_info C) (c_multi_css C) n ids → False) as Hns by (intros ids (_ & id & _ & _ & ? & _)%Hsteady; done).
    destruct (_ =? _); [|by apply wp_ret, Qnone]. destruct (negb _); [by apply wp_ret, Qnone|].
    destruct (negb _); [by apply wp_ret, Qnone|done].
Qed.

(** ** Removing many *)

(** Namespaces moved to the list of a removal. *)
Lemma inv_move held s s' c C C' rm :
  ns_inv held s → n_rm s = [] → n_ctrls s !! c = Some C → n_ctrls s' = <[c := C']> (n_ctrls s) →
  c_refs C' = c_refs C → n_rm s' = rm → (∀ p, p ∈ c_namespaces C ↔ p ∈ c_namespaces C' ∨ p ∈ rm) →
  StronglySorted Z.lt (nsid_of s <$> c_namespaces C') →
  n_ns s' = n_ns s → n_heads s' = n_heads s → n_nsheads s' = n_nsheads s → n_ida s' = n_ida s →
  n_subsys_refs s' = n_subsys_refs s → n_opens s' = n_opens s → n_next s' = n_next s → ns_inv held s'.
Proof.
  intros I Hrm0 HC Ect Hr Hrm Hsplit Hsort Em Eh En Ei Es Eo Enx.
  assert (∀ p, nsid_of s' p = nsid_of s p) as Hid by (intros p; by rw /nsid_of /entry_of Em Eh).
  assert (∀ d D', n_ctrls s' !! d = Some D' → d = c ∧ D' = C' ∨ d ≠ c ∧ n_ctrls s !! d = Some D') as Hct.
  { intros d D'. rw Ect. destruct (decide (d = c)) as [->|Hne]; [rw lookup_insert_eq; intros [= <-]; by left|].
    rw lookup_insert_ne //. by right. }
  destruct I as [I1 I2 I3 I4 I5 I6 I7 I8 I9 I10 I11 I12 I13 I14 I15 I16 I17].
  split; rw ?Em ?Eh ?En ?Ei ?Es ?Eo ?Enx; auto.
  - intros p N HN. destruct (I1 p N HN) as (D & HD & Hiff). rw Ect Hrm. destruct (decide (ns_ctrl N = c)) as [He|He].
    + rw He lookup_insert_eq. exists C'. split; [done|]. rw Hiff. rw He HC in HD. injection HD as <-.
      rw Hsplit Hrm0. split; [intros [?|?%elem_of_nil]; done|by left].
    + rw lookup_insert_ne //. exists D. split; [done|]. rw Hiff Hrm0. split; [intros [?|?%elem_of_nil]; auto; done|].
      intros [?|Hin]; [auto|]. exfalso. apply He. destruct (I2 c C p HC) as (N' & HN' & Hc); [apply Hsplit; auto|congruence].
  - intros d D' p [[-> ->]|[Hne HD]]%Hct Hp; [|eauto]. apply (I2 c C p HC). apply Hsplit. auto.
  - intros p. rw Hrm. intros Hp. destruct (I2 c C p HC) as (N & HN & _); [apply Hsplit; auto|eauto].
  - intros d D' [[-> ->]|[Hne HD]]%Hct; rw (list_fmap_ext _ (nsid_of s)) //; eauto.
  - intros d D' [[-> ->]|[Hne HD]]%Hct; [rw Hr|]; eauto.
Qed.

Lemma wp_remove_all held s :
  ns_inv held s → NoDup (n_rm s) → (∀ c p, p ∈ n_rm s → p ∉ listed s c) →
  wp remove_all (λ _ s', ns_inv held s' ∧ n_rm s' = [] ∧ frame s s' ∧ (∀ c, listed s' c = listed s c) ∧ entries_kept s s') s.
Proof.
  intros I Hnd Hun. rw /remove_all. apply wp_bind, wp_gets, wp_bind.
  apply (wp_kfor _ _ (λ ys s', NoDup ys ∧ ns_inv held s' ∧ n_rm s' = ys ∧ frame s s' ∧ (∀ c, listed s' c = listed s c) ∧
    entries_kept s s' ∧ ∀ c p, p ∈ ys → p ∉ listed s c)).
  - split; [done|]. split; [done|]. split; [done|]. split; [reflexivity|]. split; [done|]. split; [by intros q|done].
  - intros p ys s1 (Hnd1 & I1 & Hrm & F1 & L1 & K1 & Hun1). apply NoDup_cons in Hnd1 as [Hp Hnd1].
    destruct (i_rm _ _ I1 p) as [N HN]; [rw Hrm; apply elem_of_cons; by left|].
    destruct (i_ctrl _ _ I1 p N HN) as (C & HC & Hiff).
    assert (ns_removing N = false) as Hr by (apply Hiff; right; rw Hrm; apply elem_of_cons; by left).
    eapply wp_mono; [by eapply wp_ns_remove|]. intros _ s2 (I2 & F2 & L2 & R2 & K2).
    split; [done|]. split; [done|]. split; [rw R2 Hrm; by apply unlink_cons_eq|]. split; [by etrans|]. split.
    { intros c. rw L2 L1 unlink_not_elem //. apply Hun1, elem_of_cons. by left. }
    split; [intros q Hq; destruct (K2 q Hq) as [Hq1 ->]; by apply K1|]. intros c q Hq. apply Hun1, elem_of_cons. by right.
  - intros s1 (_ & I1 & Hrm & F1 & L1 & K1 & _). apply wp_bind, wp_gets. rw Hrm bool_decide_true //.
Qed.

Definition bad (n : Z) (s : nst) (p : positive) : bool := (n <? (entry_of s p).1) || (entry_of s p).2.2.

Lemma wp_pick_invalid held s n l (Q : list positive → nst → Prop) :
  ns_inv held s → (∀ p, p ∈ l → is_Some (n_ns s !! p)) → Q (filter (λ p, bad n s p = true) l) s →
  wp (pick_invalid n l) Q s.
Proof.
  intros I. revert Q. induction l as [|p l IH]; intros Q Hal HQ; [by apply wp_ret|].
  destruct (Hal p) as [N HN]; [apply elem_of_cons; by left|]. simpl. apply wp_bind, (wp_ns_at p N); [done|].
  apply wp_bind. eapply wp_nsid_at; [done..|]. apply wp_bind, IH; [intros q Hq; apply Hal, elem_of_cons; by right|].
  apply wp_ret. destruct (i_head _ _ I p N HN) as (H & HH & _).
  assert ((n <? nsid_of s p) || ns_dead N = bad n s p) as -> by (by rw /bad /nsid_of /entry_of /entry HN HH).
  rw filter_cons in HQ. case_decide as Hb; destruct (bad n s p); done.
Qed.

Lemma wp_remove_invalid held s c C n :
  ns_inv held s → n_rm s = [] → n_ctrls s !! c = Some C →
  wp (nvme_remove_invalid_namespaces c n) (λ _ s', ns_inv held s' ∧ n_rm s' = [] ∧ frame s s' ∧
    ∀ d e, e ∈ view s' d ↔ e ∈ view s d ∧ (d = c → e.1 ≤ n ∧ e.2.2 = false)) s.
Proof.
  intros I Hrm HC. rw /nvme_remove_invalid_namespaces. apply wp_bind, (wp_ctrl_at _ C); [done|].
  assert (∀ p, p ∈ c_namespaces C → is_Some (n_ns s !! p)) as Hal.
  { intros p Hp. destruct (i_listed _ _ I c C p HC Hp) as (N & -> & _). eauto. }
  apply wp_bind, (wp_pick_invalid held); [done..|]. set (rm := filter _ _).
  apply wp_bind, wp_modify, wp_bind, wp_modify. set (s1 := upd _ _ _).
  pose (C' := C<{c_namespaces := filter (.∉ rm) (c_namespaces C)}>).
  assert (n_ctrls s1 = <[c := C']> (n_ctrls s)) as Ec1 by done.
  assert (ns_inv held s1) as I1.
  { eapply (inv_move held s s1 c C C' rm); try done.
    - intros p. rw /C' /= list_elem_of_filter /rm list_elem_of_filter. destruct (decide (bad n s p = true)); naive_solver.
    - rw /C' /=. apply sorted_filter. by eapply i_sorted. }
  assert (∀ d, listed s1 d = if decide (d = c) then filter (.∉ rm) (c_namespaces C) else listed s d) as Hl1.
  { intros d. by rw (ns_listed_insert s s1 c C C' d HC Ec1). }
  assert (NoDup (c_namespaces C)) as Hnd by exact (sorted_nodup _ _ (i_sorted _ _ I c C HC)).
  eapply wp_mono; [apply (wp_remove_all held s1 I1)|].
  - by apply NoDup_filter.
  - intros d p Hp. rw Hl1. case_decide as Hd; [rw list_elem_of_filter; naive_solver|]. intros Hin.
    destruct (listed_alive _ _ _ _ I Hin) as (D & N & _ & HN & Hd' & _). apply Hd.
    assert (p ∈ c_namespaces C) as Hpc by (by apply list_elem_of_filter in Hp as [_ ?]).
    destruct (i_listed _ _ I c C p HC Hpc) as (N' & HN' & Hc'). congruence.
  - intros _ s2 (I2 & Hrm2 & F2 & L2 & K2). split; [done|]. split; [done|]. split.
    { etrans; [|exact F2]. split; [|done]. intros d. rw Ec1. by eapply static_insert. }
    assert (∀ d q, q ∈ listed s2 d → entry_of s2 q = entry_of s q) as He.
    { intros d q Hq. destruct (listed_alive _ _ _ _ I2 Hq) as (D & N & _ & HN & _). destruct (K2 q) as [_ ->]; [rw HN; eauto|]. done. }
    intros d e. rw !elem_of_view. split.
    + intros (q & Hq & ->). rw (He d q Hq). rw L2 Hl1 in Hq. case_decide as Hd.
      * subst d. rw list_elem_of_filter /rm list_elem_of_filter in Hq. destruct Hq as [Hb Hq]. split; [exists q; by rw (listed_some _ _ C)|].
        intros _. assert (bad n s q = false) as Hbad by (destruct (bad n s q); [by destruct Hb|done]).
        rw /bad in Hbad. apply orb_false_iff in Hbad as [Hge%Z.ltb_ge Hdead]. auto.
      * split; [eauto|done].
    + intros [(q & Hq & ->) Hok]. assert (q ∈ listed s2 d) as Hq2; [|exists q; split; [done|by rw (He d q Hq2)]].
      rw L2 Hl1. case_decide as Hd; [|done]. subst d. rw (listed_some _ _ C) // in Hq. rw list_elem_of_filter /rm list_elem_of_filter.
      split; [|done]. intros [Hb _]. destruct (Hok eq_refl) as [Hle Hdead]. rw /bad Hdead orb_false_r in Hb. apply Z.ltb_lt in Hb. lia.
Qed.

(** ** The scan, whatever is answered *)

(** Between operations of a scan. *)
Definition safe (held : list positive) (s s' : nst) : Prop := ns_inv held s' ∧ n_rm s' = [] ∧ frame s s'.

Lemma safe_refl held s : ns_inv held s → n_rm s = [] → safe held s s.
Proof. intros I R. split; [done|]. split; [done|reflexivity]. Qed.
Lemma safe_trans held s1 s2 s3 : safe held s1 s2 → safe held s2 s3 → safe held s1 s3.
Proof. intros (_ & _ & F1) (I2 & R2 & F2). split; [done|]. split; [done|by etrans]. Qed.
Lemma safe_only held c n s s' : n_rm s = [] → ns_inv held s' → only c n s s' → safe held s s'.
Proof. intros R I (F & R' & _). split; [done|]. split; [congruence|done]. Qed.
Lemma frame_ctrl s s' c C : frame s s' → n_ctrls s !! c = Some C → ∃ C', n_ctrls s' !! c = Some C' ∧ static C' = static C.
Proof.
  intros [F _] HC. specialize (F c). rw HC in F. destruct (n_ctrls s' !! c) as [C'|]; [|done]. exists C'. split; [done|].
  change (Some (static C') = Some (static C)) in F. by apply (inj Some) in F.
Qed.
Lemma safe_tick held s t : ns_inv held s → n_rm s = [] → safe held s (s<{n_tick := t}>).
Proof. intros I R. split; [by apply inv_tick|]. split; [done|]. by destruct (keeps_tick s t). Qed.

Lemma wp_remove_between held s c C prev n :
  ns_inv held s → n_rm s = [] → n_ctrls s !! c = Some C →
  wp (remove_between c prev n) (λ prev' s', safe held s s' ∧
    prev' = (if u32 (prev + 1) <? n then n else u32 (prev + 1)) ∧
    ∀ d e, e ∈ view s' d ↔ e ∈ view s d ∧ (d = c → ¬ (u32 (prev + 1) ≤ e.1 < n))) s.
Proof.
  intros I Hrm HC. rw /remove_between. set (lo := u32 (prev + 1)).
  destruct (Z.ltb_spec lo n) as [Hlt|Hge].
  2: { apply wp_ret. split; [by apply safe_refl|]. split; [done|]. intros d e. split; [|by intros []]. intros He. split; [done|]. lia. }
  apply wp_bind. apply (wp_kfor _ _ (λ ys s', ∃ k, ys = seqZ k (n - k) ∧ lo ≤ k ≤ n ∧ safe held s s' ∧
    ∀ d e, e ∈ view s' d ↔ e ∈ view s d ∧ (d = c → ¬ (lo ≤ e.1 < k)))).
  - exists lo. split; [done|]. split; [lia|]. split; [by apply safe_refl|]. intros d e. split; [|by intros []].
    intros He. split; [done|]. lia.
  - intros x ys s1 (k & Hys & Hk & S1 & V1). destruct (decide (k = n)) as [->|Hne].
    { by rw Z.sub_diag in Hys. }
    rw seqZ_cons in Hys; [|lia]. injection Hys as -> ->. pose proof S1 as (I1 & R1 & F1).
    destruct (frame_ctrl _ _ _ _ F1 HC) as (C1 & HC1 & _).
    eapply wp_mono; [by eapply wp_remove_by_nsid|]. intros _ s2 (I2 & O2 & N2). exists (k + 1).
    split; [f_equal; lia|]. split; [lia|]. split; [by eapply safe_trans; [|eapply safe_only]|].
    intros d e. destruct O2 as (_ & _ & V2). destruct (decide (d = c ∧ e.1 = k)) as [[-> He]|Hno].
    + split; [intros Hin; by destruct (N2 e Hin)|]. intros [_ Hx]. specialize (Hx eq_refl). lia.
    + rw V2 ?V1; [|destruct (decide (d = c)); naive_solver]. split; intros [Hin Hx]; (split; [done|]); intros ->; specialize (Hx eq_refl); [|lia].
      assert (e.1 ≠ k) by naive_solver. lia.
  - intros s1 (k & Hys & Hk & S1 & V1). assert (k = n) as ->.
    { destruct (decide (k = n)); [done|]. rw seqZ_cons in Hys; [done|lia]. }
    apply wp_ret. auto.
Qed.

Lemma wp_scan_page held c l : ∀ s C prev, ns_inv held s → n_rm s = [] → n_ctrls s !! c = Some C →
  wp (scan_page c l prev) (λ _ s', safe held s s') s.
Proof.
  induction l as [|n l IH]; intros s C prev I Hrm HC; simpl; [by apply wp_ret, safe_refl|].
  destruct (n =? 0); [by apply wp_ret, safe_refl|].
  apply wp_bind. eapply wp_mono; [by eapply wp_validate_or_alloc|]. intros _ s1 (I1 & O1 & _).
  pose proof (safe_only _ _ _ _ _ Hrm I1 O1) as S1. pose proof S1 as (_ & R1 & F1). destruct (frame_ctrl _ _ _ _ F1 HC) as (C1 & HC1 & _).
  apply wp_bind. eapply wp_mono; [by eapply wp_remove_between|]. intros prev' s2 (S2 & _). pose proof S2 as (I2 & R2 & F2).
  destruct (frame_ctrl _ _ _ _ F2 HC1) as (C2 & HC2 & _). eapply wp_mono; [by eapply IH|].
  intros ? s3 S3. eapply safe_trans; [exact S1|]. by eapply safe_trans.
Qed.

Lemma wp_scan_pages held c fuel : ∀ s C prev, ns_inv held s → n_rm s = [] → n_ctrls s !! c = Some C →
  wp (scan_pages fuel c prev) (λ _ s', safe held s s') s.
Proof.
  induction fuel as [|fuel IH]; intros s C prev I Hrm HC; simpl; [by apply wp_ret, safe_refl|].
  apply wp_bind, wp_ask_ns. destruct (e_list _ _ _) as [ret l]. pose proof (safe_tick held s (S (n_tick s)) I Hrm) as S1.
  destruct (c_true ret); [by apply wp_ret|]. pose proof S1 as (I1 & R1 & F1).
  apply wp_bind. eapply wp_mono; [by eapply wp_scan_page|]. intros [last prev'] s2 S2. pose proof (safe_trans _ _ _ _ S1 S2) as S12.
  pose proof S12 as (I2 & R2 & F2). destruct (frame_ctrl _ _ _ _ F2 HC) as (C2 & HC2 & _). destruct last.
  - apply wp_bind. eapply wp_mono; [by eapply wp_remove_invalid|]. intros _ s3 (I3 & R3 & F3 & _). apply wp_ret.
    eapply safe_trans; [exact S12|]. by split.
  - eapply wp_mono; [by eapply IH|]. intros ? s3 S3. by eapply safe_trans.
Qed.

Lemma wp_scan_sequential held s c C : ns_inv held s → n_rm s = [] → n_ctrls s !! c = Some C →
  wp (nvme_scan_ns_sequential c) (λ _ s', safe held s s') s.
Proof.
  intros I Hrm HC. rw /nvme_scan_ns_sequential. apply wp_bind, wp_ask_ns. destruct (negb _); [by apply wp_ret, safe_tick|].
  apply wp_bind, wp_ask_ns. destruct (e_identify_ctrl _ _) as [error nn].
  assert (safe held s (s<{n_tick := S (n_tick s)}><{n_tick := S (n_tick (s<{n_tick := S (n_tick s)}>))}>)) as S1.
  { eapply safe_trans; [by apply safe_tick|]. apply safe_tick; [by apply inv_tick|done]. }
  destruct (c_true error); [by apply wp_ret|]. apply wp_bind.
  apply (wp_kfor _ _ (λ _ s', safe held s s')); [done| |].
  - intros n ys s1 S2. pose proof S2 as (I2 & R2 & F2). destruct (frame_ctrl _ _ _ _ F2 HC) as (C2 & HC2 & _).
    eapply wp_mono; [by eapply wp_validate_or_alloc|]. intros _ s3 (I3 & O3 & _). eapply safe_trans; [exact S2|]. by eapply safe_only.
  - intros s1 S2. pose proof S2 as (I2 & R2 & F2). destruct (frame_ctrl _ _ _ _ F2 HC) as (C2 & HC2 & _).
    destruct (nn =? _); [by apply wp_ret|]. apply wp_bind. eapply wp_mono; [by eapply wp_remove_invalid|].
    intros _ s3 (I3 & R3 & F3 & _). apply wp_ret. eapply safe_trans; [exact S2|]. by split.
Qed.

Lemma wp_set_attr held s c C C' : ns_inv held s → n_rm s = [] → n_ctrls s !! c = Some C → c_namespaces C' = c_namespaces C →
  c_refs C' = c_refs C → static C' = static C →
  wp (set_ctrl c C') (λ _ s', safe held s s' ∧ attr c s s') s.
Proof.
  intros I Hrm HC Hl Hr Hst. apply wp_modify. set (s' := upd _ _ _).
  assert (attr c s s') as A. { split; try done. exists C, C'. auto 10. }
  split; [|done]. split; [by eapply attr_inv|]. split; [done|]. by destruct (attr_keeps _ _ _ A).
Qed.

Lemma wp_scan_work held s c C fuel : ns_inv held s → n_rm s = [] → n_ctrls s !! c = Some C →
  wp (nvme_scan_work fuel c) (λ _ s', safe held s s') s.
Proof.
  intros I Hrm HC. rw /nvme_scan_work. apply wp_bind, (wp_ctrl_at _ C); [done|]. destruct (_ || _); [by apply wp_ret, safe_refl|].
  apply wp_bind, (wp_mono _ (λ _ s', safe held s s')).
  { apply wp_when; intros _; [|by apply safe_refl]. apply wp_bind. eapply wp_mono; [by eapply (wp_set_attr held s c C)|].
    intros _ s1 ((I1 & R1 & F1) & _). rw /nvme_clear_changed_ns_log. apply wp_bind, wp_ask_ns.
    destruct (negb _); [apply wp_ret|apply wp_bind, wp_ask_ns, wp_ret]; (eapply safe_trans; [by split|]).
    - by apply safe_tick.
    - eapply safe_trans; [by apply safe_tick|]. apply safe_tick; [by apply inv_tick|done]. }
  intros _ s1 S1. pose proof S1 as (I1 & R1 & F1). destruct (frame_ctrl _ _ _ _ F1 HC) as (C1 & HC1 & _).
  apply wp_bind, (wp_mono _ (λ _ s', safe held s s')).
  { rw /nvme_scan_ns_list. apply wp_bind, (wp_ctrl_at _ C1); [done|]. destruct (nvme_ctrl_limited_cns _ _); [by apply wp_ret|].
    apply wp_bind, wp_ask_ns. pose proof (safe_tick held s1 (S (n_tick s1)) I1 R1) as S2. pose proof (safe_trans _ _ _ _ S1 S2) as S12.
    destruct (negb _); [by apply wp_ret|]. pose proof S2 as (I2 & R2 & F2).
    eapply wp_mono; [by eapply wp_scan_pages|]. intros ? s3 S3. by eapply safe_trans. }
  intros [ret|] s2 S2; [|by apply wp_ret]. destruct (c_true ret); [|by apply wp_ret]. pose proof S2 as (I2 & R2 & F2).
  destruct (frame_ctrl _ _ _ _ F2 HC) as (C2 & HC2 & _). eapply wp_mono; [by eapply wp_scan_sequential|].
  intros ? s3 S3. by eapply safe_trans.
Qed.

(** ** The end of a controller *)

Lemma wp_kill_queues held s c C :
  ns_inv held s → n_ctrls s !! c = Some C →
  wp (snvme_kill_queues c) (λ _ s', ns_inv held s' ∧ frame s s' ∧ n_rm s' = n_rm s ∧ n_ctrls s' = n_ctrls s) s.
Proof.
  intros I HC. rw /snvme_kill_queues. apply wp_bind, (wp_ctrl_at _ C); [done|].
  apply (wp_kfor _ _ (λ ys s', (∀ p, p ∈ ys → is_Some (n_ns s' !! p)) ∧ ns_inv held s' ∧ frame s s' ∧ n_rm s' = n_rm s ∧ n_ctrls s' = n_ctrls s)).
  - split; [|done]. intros p Hp. destruct (i_listed _ _ I c C p HC Hp) as (N & -> & _). eauto.
  - intros p ys s1 (Hal & I1 & F1 & R1 & E1). destruct (Hal p) as [N HN]; [apply elem_of_cons; by left|].
    assert (∀ q, q ∈ ys → is_Some (n_ns s1 !! q)) as Hal' by (intros q Hq; apply Hal, elem_of_cons; by right).
    rw /nvme_set_queue_dying. apply wp_bind, (wp_ns_at p N); [done|]. destruct (ns_dead N); [by apply wp_ret|].
    apply wp_modify. set (s2 := upd _ _ _). destruct (i_kref _ _ I1 p N HN) as [_ Hk].
    pose (N' := N<{ns_dead := true}><{ns_gendisk := (ns_gendisk N)<{d_capacity := 0}>}>).
    assert (n_ns s2 = <[p := N']> (n_ns s1)) as Em by done.
    split; [|split; [|done]].
    + intros q Hq. rw Em. destruct (decide (q = p)) as [->|Hne]; [rw lookup_insert_eq; eauto|rw lookup_insert_ne //; auto].
    + eapply (inv_set_ns held s1 I1 held s2 p N N'); try done. intros q. rw /N' /=. case_decide; lia.
  - intros s1 (_ & ?). done.
Qed.

(** Afterwards the controller has no namespaces; those of the others are not touched. *)
Lemma wp_remove_namespaces held s c C :
  ns_inv held s → n_rm s = [] → n_ctrls s !! c = Some C →
  wp (snvme_remove_namespaces c) (λ _ s', ns_inv held s' ∧ n_rm s' = [] ∧ n_opens s' = n_opens s ∧ listed s' c = [] ∧
    ∀ d, d ≠ c → listed s' d = listed s d) s.
Proof.
  intros I Hrm HC. rw /snvme_remove_namespaces. apply wp_bind, (wp_ctrl_at _ C); [done|].
  apply wp_bind, (wp_mono _ (λ _ s', ns_inv held s' ∧ n_opens s' = n_opens s ∧ n_rm s' = [] ∧ n_ctrls s' = n_ctrls s)).
  { apply wp_when; intros _; [|done]. eapply wp_mono; [by eapply wp_kill_queues|]. intros _ s1 (I1 & [_ O1] & R1 & E1). rw R1 Hrm. auto. }
  intros _ s1 (I1 & O1 & R1 & E1). apply wp_bind, (wp_ctrl_at _ C); [by rw E1|]. apply wp_bind, wp_modify.
  set (C1 := C<{c_ctl := _}>). set (s2 := upd _ _ _). assert (n_ctrls s1 !! c = Some C) as HC1 by (by rw E1).
  assert (ns_inv held s2) as I2 by (by eapply (inv_set_ctrl held s1 I1 s2 c C C1)).
  apply wp_bind, (wp_ctrl_at _ C1); [apply lookup_insert_eq|]. apply wp_bind, wp_modify, wp_bind, wp_modify.
  set (s3 := upd _ _ _). pose (C3 := C1<{c_namespaces := [] }>).
  assert (n_ctrls s3 = <[c := C3]> (n_ctrls s2)) as E3 by done.
  assert (n_ctrls s2 !! c = Some C1) as HC2 by apply lookup_insert_eq.
  assert (ns_inv held s3) as I3.
  { eapply (inv_move held s2 s3 c C1 C3 (c_namespaces C1)); try done; [|constructor].
    intros p. rw /C3 /= elem_of_nil. naive_solver. }
  assert (∀ d, listed s3 d = if decide (d = c) then [] else listed s d) as Hl3.
  { intros d. rw (ns_listed_insert s2 s3 c C1 C3 d HC2 E3). case_decide; [done|].
    rw (ns_listed_insert s1 s2 c C C1 d HC1 eq_refl) decide_False //. by rw /listed E1. }
  eapply wp_mono; [apply (wp_remove_all held s3 I3)|].
  - change (NoDup (c_namespaces C)). exact (sorted_nodup _ _ (i_sorted _ _ I c C HC)).
  - intros d p Hp. change (p ∈ c_namespaces C) in Hp. rw Hl3. case_decide as Hd; [apply not_elem_of_nil|]. intros Hin.
    destruct (listed_alive _ _ _ _ I Hin) as (D & N & _ & HN & Hd' & _). apply Hd.
    destruct (i_listed _ _ I c C p HC Hp) as (N' & HN' & Hc'). congruence.
  - intros _ s4 (I4 & R4 & [_ O4] & L4 & _). split; [done|]. split; [done|]. split; [by rw O4 -O1|].
    split; [by rw L4 Hl3 decide_True|]. intros d Hd. by rw L4 Hl3 decide_False.
Qed.

(** ** Opening and closing *)

Lemma wp_ns_open s p N :
  ns_inv [] s → n_ns s !! p = Some N →
  wp (nvme_ns_open p) (λ r s', ns_inv [] s' ∧ n_rm s' = n_rm s ∧ n_opens s' = if r =? 0 then p :: n_opens s else n_opens s) s.
Proof.
  intros I HN. rw /nvme_ns_open. apply wp_bind. eapply wp_mono; [by eapply wp_get_ns|].
  intros ok s1 (-> & I1 & (F1 & L1 & R1 & K1) & _). cbn [negb]. cbv iota. apply wp_bind, wp_ask_ns.
  destruct (negb _).
  - apply wp_bind. eapply wp_mono; [apply wp_put_ns, inv_tick, I1|]. intros _ s2 (I2 & (F2 & _ & R2 & _)). apply wp_ret.
    split; [done|]. split; [rw R2; exact R1|]. destruct F1 as [_ O1], F2 as [_ O2]. rw O2. exact O1.
  - apply wp_bind, wp_modify, wp_ret. destruct F1 as [_ O1].
    set (s2 := upd _ _ _). assert (n_opens s2 = p :: n_opens s1) as Eo by done. split; [|split; [exact R1|by rw Eo O1]].
    destruct I1 as [I1 I2 I3 I4 I5 I6 I7 I8 I9 I10 I11 I12 I13 I14 I15 I16 I17]. by split.
Qed.

Lemma wp_ns_release s p :
  ns_inv [] s → p ∈ n_opens s →
  wp (nvme_ns_release p) (λ _ s', ns_inv [] s' ∧ n_rm s' = n_rm s ∧ ∃ i, n_opens s !! i = Some p ∧ n_opens s' = base.delete i (n_opens s)) s.
Proof.
  intros I Hp. rw /nvme_ns_release. apply wp_bind, wp_gets.
  destruct (list_find_elem_of (p =.) (n_opens s) p Hp eq_refl) as [[i q] Hf]. pose proof Hf as Hf'.
  apply list_find_Some in Hf' as (Hi & <- & _). apply wp_bind, (wp_from_option _ i); [by rw Hf|]. apply wp_bind, wp_modify.
  set (s1 := upd _ _ _). assert (n_opens s1 = base.delete i (n_opens s)) as Eo by done.
  assert (ns_inv [p] s1) as I1.
  { assert (∀ q, lcount q ([p] ++ n_opens s1) = lcount q ([] ++ n_opens s)) as Hc.
    { intros q. rw Eo /= lcount_cons (lcount_delete q p) //. lia. }
    destruct I as [I1 I2 I3 I4 I5 I6 I7 I8 I9 I10 I11 I12 I13 I14 I15 I16 I17]. split; try done.
    - intros q N HN. rw Hc. by apply I10.
    - intros q Hq. apply I11, lcount_pos. rw -Hc. by apply lcount_pos. }
  eapply wp_mono; [by apply wp_put_ns|]. intros _ s2 (I2 & ([_ O2] & _ & R2 & _)). split; [done|]. split; [by rw R2|].
  exists i. split; [done|]. by rw O2 Eo.
Qed.
End ops.
