(* ===== verification/NsSteady.v ===== *)
(** * A scan of a controller that answers steadily

    The controller reports its active namespaces in ascending order, in pages of
    1024, and describes each of them the same way every time.  After one scan every
    namespace listed is an active one with its identifiers; after another one all
    active namespaces are listed. *)
From Stdlib Require Import Sorted.
From S2P Require Import Prelude Lifecycle ReqSetup ReqLife NsIdent NsDisk Namespace NsInv NsOps NsAlloc NsScan.

Definition NR_ENTRIES : nat := 1024.                   (* NVME_IDENTIFY_DATA_SIZE / sizeof(__le32) *)
Definition above (prev : Z) (active : list Z) : list Z := filter (λ n, prev < n) active.
(** The page that answers an Identify command for the namespaces after [prev]. *)
Definition active_page (prev : Z) (active : list Z) : list Z :=
  firstn NR_ENTRIES (above prev active ++ replicate NR_ENTRIES 0).

(** [active] are the numbers of the namespaces, [D] their identifiers. *)
Record conforming {E : ns_env} (c : positive) (info : ctrl_info) (mcss : bool) (active : list Z) (D : Z → nvme_ns_ids) : Prop := {
  cf_sorted : StronglySorted Z.lt active;
  cf_range : ∀ n, n ∈ active → 1 ≤ n < 2 ^ 32 - 1;
  cf_list : ∀ t prev, e_list t c prev = (0, active_page prev active);
  cf_steady : ∀ n, n ∈ active → steady c info mcss n (D n);
  cf_distinct : ∀ n m, n ∈ active → m ∈ active → D n = D m → n = m;
  cf_alloc : ∀ t, e_alloc t = true;
  cf_cns : nvme_ctrl_limited_cns (ci_vs info) (ci_quirks info) = false;
}.

Lemma above_all prev l : (∀ n, n ∈ l → prev < n) → above prev l = l.
Proof.
  rw /above. induction l as [|x l IH]; intros H; [done|]. rw filter_cons decide_True; [|apply H, elem_of_cons; by left].
  f_equal. apply IH. intros n Hn. apply H, elem_of_cons. by right.
Qed.

Lemma above_next prev active n r : StronglySorted Z.lt active → above prev active = n :: r →
  above n active = r ∧ prev < n ∧ n ∈ active ∧ ∀ m, m ∈ active → prev < m → n ≤ m.
Proof.
  rw /above. intros Hs. induction Hs as [|x l Hs IH Hx]; [done|]. rw list.Forall_forall in Hx. rw !filter_cons. case_decide as Hp.
  - intros [= -> <-]. rw decide_False; [|lia]. split; [|split; [done|split; [apply elem_of_cons; by left|]]].
    + transitivity l; [exact (above_all n l Hx)|]. symmetry. apply (above_all prev). intros y Hy. specialize (Hx y Hy). lia.
    + intros m [->|Hm]%elem_of_cons _; [lia|]. specialize (Hx m Hm). lia.
  - intros Heq. destruct (IH Heq) as (H1 & H2 & H3 & H4). specialize (Hx n H3). rw decide_False; [|lia]. split; [done|]. split; [done|].
    split; [apply elem_of_cons; by right|]. intros m [->|Hm]%elem_of_cons Hlt; [lia|auto].
Qed.

(** ** One scan *)

Section scan.
Context {E : ns_env} {L : ns_env_laws E}.
Context (c : positive) (info : ctrl_info) (mcss : bool) (active : list Z) (D : Z → nvme_ns_ids).
Context (Conf : conforming c info mcss active D).
Context (held : list positive).

(** The entry that belongs to an active namespace. *)
Definition ent (n : Z) : Z * (nvme_ns_ids * bool) := (n, (D n, false)).
Definition right (e : Z * (nvme_ns_ids * bool)) : Prop := e.1 ∈ active ∧ e = ent e.1.
(** Up to [lo] what is listed is right; all that is listed is right, and up to [lo]
    nothing is missing. *)
Definition right_to (lo : Z) (s : nst) : Prop := ∀ e, e ∈ view s c → e.1 ≤ lo → right e.
Definition full_to (lo : Z) (s : nst) : Prop :=
  (∀ e, e ∈ view s c → right e) ∧ ∀ n, n ∈ active → n ≤ lo → ent n ∈ view s c.
(** [c] is the only controller of the subsystem. *)
Definition single (s : nst) : Prop := ∀ d, is_Some (n_ctrls s !! d) → d = c.
Definition known (s : nst) : Prop := ∃ C, n_ctrls s !! c = Some C ∧ c_info C = info ∧ c_multi_css C = mcss.

Lemma single_frame s s' : frame s s' → single s → single s'.
Proof.
  intros [F _] Hs d [C' HC']. apply Hs. specialize (F d). rw HC' in F. destruct (n_ctrls s !! d); [eauto|done].
Qed.
Lemma known_frame s s' : frame s s' → known s → known s'.
Proof.
  intros F (C & HC & Hi & Hm). destruct (frame_ctrl _ _ _ _ F HC) as (C' & HC' & Hst). exists C'. rw /static in Hst.
  injection Hst as _ _ -> ->. auto.
Qed.

(** With one controller a head in the way belongs to a namespace that is listed. *)
Lemma clash_present s n :
  ns_inv held s → n_rm s = [] → single s → (∀ e, e ∈ view s c → right e) → n ∈ active →
  clash s n (D n) → ent n ∈ view s c.
Proof.
  intros I Hrm Hs Hr Hn (h & H & Hh & HH & Hcase). apply (i_nsheads _ _ I) in Hh as (H' & HH' & Hl). assert (H' = H) as -> by congruence.
  destruct (hd_list H) as [|q l] eqn:El; [done|].
  destruct (i_sibling _ _ I h H q HH) as (N & HN & Hhead); [rw El; apply elem_of_cons; by left|].
  destruct (i_head _ _ I q N HN) as (H1 & HH1 & Hiff1). assert (H1 = H) as -> by congruence.
  assert (ns_removing N = false) as Hrem by (apply Hiff1; rw El; apply elem_of_cons; by left).
  destruct (i_ctrl _ _ I q N HN) as (C & HC & Hiff). destruct (proj1 Hiff Hrem) as [Hq|Hq]; [|rw Hrm in Hq; by apply elem_of_nil in Hq].
  assert (ns_ctrl N = c) as Hc by (apply Hs; eauto).
  assert (entry_of s q ∈ view s c) as Hin. { apply elem_of_view. exists q. split; [|done]. rw -Hc (listed_some _ _ C) //. }
  assert (entry_of s q = (hd_ns_id H, (hd_ids H, ns_dead N))) as He by (by rw /entry_of /entry HN HH1).
  destruct (Hr _ Hin) as [Hact Heq]. rw He /= in Hact Heq.
  assert (hd_ns_id H = n) as Hid; [|by rw -Hid -Heq -He].
  destruct Hcase as [|[_ Hids]]; [done|]. apply (cf_distinct _ _ _ _ _ Conf); [done..|]. injection Heq as H1 _. congruence.
Qed.

(** One number: [prev] moves on to it. *)
Lemma wp_scan_number s prev n r :
  ns_inv held s → n_rm s = [] → known s → above prev active = n :: r → 0 ≤ prev →
  wp (nvme_validate_or_alloc_ns c n;; remove_between c prev n) (λ prev' s', prev' = n ∧ safe held s s' ∧
    (right_to prev s → right_to n s') ∧ (single s → full_to prev s → full_to n s')) s.
Proof.
  intros I Hrm (C & HC & Hi & Hm) Hab Hprev. destruct (above_next _ _ _ _ (cf_sorted _ _ _ _ _ Conf) Hab) as (_ & Hlt & Hn & Hleast).
  pose proof (cf_range _ _ _ _ _ Conf n Hn) as Hrange. pose proof (cf_steady _ _ _ _ _ Conf n Hn) as Hst. rw -Hi -Hm in Hst.
  apply wp_bind. eapply wp_mono; [by eapply wp_validate_or_alloc|]. intros _ s1 (I1 & O1 & Hs1). destruct (Hs1 _ Hst) as [Hright Hpres].
  pose proof (safe_only _ _ _ _ _ Hrm I1 O1) as S1. pose proof S1 as (_ & R1 & F1). destruct (frame_ctrl _ _ _ _ F1 HC) as (C1 & HC1 & _).
  destruct O1 as (_ & _ & V1).
  eapply wp_mono; [by eapply wp_remove_between|]. intros prev' s2 (S2 & Hprev' & V2).
  rw (u32_id (prev + 1)) in Hprev' V2; [|lia]. split; [rw Hprev'; destruct (Z.ltb_spec (prev + 1) n); lia|].
  split; [by eapply safe_trans|]. split.
  - intros Hr e He Hle. apply V2 in He as [He Hno]. specialize (Hno eq_refl). destruct (decide (e.1 = n)) as [Heq|Hne].
    + rw (Hright e He Heq). split; [done|done].
    + apply Hr; [|lia]. apply V1; [by right|done].
  - intros Hsin [Hall Hfull]. split.
    + intros e He. apply V2 in He as [He _]. destruct (decide (e.1 = n)) as [Heq|Hne]; [rw (Hright e He Heq); split; done|].
      apply Hall. apply V1; [by right|done].
    + intros m Hm' Hle. apply V2. split; [|simpl; intros _; destruct (decide (prev < m)); [specialize (Hleast m Hm' l); lia|lia]].
      destruct (decide (m = n)) as [->|Hne].
      * apply Hpres; [|intros Hcl; by apply clash_present].
        intros e He Heq. destruct (Hall e He) as [_ Her]. by rw Her Heq.
      * apply V1; [right; done|]. apply Hfull; [done|]. destruct (decide (prev < m)); [specialize (Hleast m Hm' l); lia|lia].
Qed.

Definition done_page (rest : list Z) : bool := match rest with [] => false | _ => true end.

Lemma wp_scan_numbers l : ∀ s prev l' rest,
  ns_inv held s → n_rm s = [] → known s → above prev active = l ++ l' → 0 ≤ prev < 2 ^ 32 - 1 → (rest = [] ∨ ∃ r, rest = 0 :: r) →
  wp (scan_page c (l ++ rest) prev) (λ res s', ∃ prev', res = (done_page rest, prev') ∧ safe held s s' ∧ above prev' active = l' ∧
    0 ≤ prev' < 2 ^ 32 - 1 ∧ (right_to prev s → right_to prev' s') ∧ (single s → full_to prev s → full_to prev' s')) s.
Proof.
  induction l as [|n l IH]; intros s prev l' rest I Hrm Hk Hab Hprev Hrest.
  { rw app_nil_l in Hab |- *. destruct Hrest as [->|[r ->]]; simpl; apply wp_ret; exists prev; (split; [done|]);
      (split; [by apply safe_refl|]); auto. }
  destruct (above_next _ _ _ _ (cf_sorted _ _ _ _ _ Conf) Hab) as (Hab' & Hlt & Hn & _).
  pose proof (cf_range _ _ _ _ _ Conf n Hn) as Hrange. simpl. destruct (Z.eqb_spec n 0); [lia|].
  pose proof (wp_scan_number s prev n (l ++ l') I Hrm Hk Hab (proj1 Hprev)) as Hone. apply wp_bind_inv in Hone.
  apply wp_bind. eapply wp_mono; [exact Hone|]. intros [] s1 Hw. apply wp_bind. eapply wp_mono; [exact Hw|].
  intros prev' s2 (-> & S2 & P1 & P2). pose proof S2 as (I2 & R2 & F2).
  eapply wp_mono; [apply (IH s2 n l' rest I2 R2 (known_frame _ _ F2 Hk) Hab'); [lia|done]|].
  intros res s3 (p3 & -> & S3 & Hab3 & Hp3 & Q1 & Q2). exists p3. split; [done|]. split; [by eapply safe_trans|].
  split; [done|]. split; [done|]. split; [auto|]. intros Hs Hf. apply Q2; [by eapply single_frame|auto].
Qed.

(** The pages, until one ends the list. *)
Lemma wp_scan_steady fuel : ∀ s prev,
  ns_inv held s → n_rm s = [] → known s → 0 ≤ prev < 2 ^ 32 - 1 → (length (above prev active) < NR_ENTRIES * fuel)%nat →
  wp (scan_pages fuel c prev) (λ res s', res = Some 0 ∧ safe held s s' ∧
    (right_to prev s → ∀ e, e ∈ view s' c → right e) ∧
    (single s → full_to prev s → ∀ e, e ∈ view s' c ↔ right e)) s.
Proof.
  induction fuel as [|fuel IH]; intros s prev I Hrm Hk Hprev Hlen; [lia|]. cbn [scan_pages].
  apply wp_bind, wp_ask_ns. rw (cf_list _ _ _ _ _ Conf). cbv iota beta. change (c_true 0) with false. cbv iota.
  set (s0 := s<{n_tick := S (n_tick s)}>). pose proof (safe_tick held s (S (n_tick s)) I Hrm) as S0. fold s0 in S0.
  pose proof S0 as (I0 & R0 & F0). assert (known s0) as Hk0 by done. set (F := above prev active) in *.
  assert (∃ l l' rest, F = l ++ l' ∧ active_page prev active = l ++ rest ∧ (rest = [] ∧ l' = skipn NR_ENTRIES F ∧ (NR_ENTRIES ≤ length F)%nat ∨
    l' = [] ∧ ∃ r, rest = 0 :: r)) as (l & l' & rest & HF & Hpage & Hrest).
  { rw /active_page -/F. destruct (decide (NR_ENTRIES ≤ length F)%nat) as [Hge|Hlt].
    - exists (firstn NR_ENTRIES F), (skipn NR_ENTRIES F), []. split; [by rw firstn_skipn|]. split; [|by left].
      rw app_nil_r firstn_app. replace (NR_ENTRIES - length F)%nat with 0%nat by lia. by rw /= app_nil_r.
    - exists F, [], (replicate (NR_ENTRIES - length F) 0). split; [by rw app_nil_r|]. split.
      + rw firstn_app firstn_all2; [|lia]. f_equal. change (@firstn) with (@list.take). rw take_replicate. f_equal. lia.
      + right. split; [done|]. destruct (NR_ENTRIES - length F)%nat eqn:Ek; [lia|]. by eexists. }
  rw Hpage. apply wp_bind. eapply wp_mono; [apply (wp_scan_numbers l s0 prev l' rest I0 R0 Hk0 HF Hprev)|].
  { destruct Hrest as [(-> & _)|(_ & r & ->)]; [by left|right; by eexists]. }
  intros res s1 (p1 & -> & S1 & Hab & Hp1 & P1 & P2). pose proof (safe_trans _ _ _ _ S0 S1) as S01. pose proof S1 as (I1 & R1 & F1).
  destruct Hrest as [(-> & -> & Hge)|(-> & r & ->)]; cbn [done_page]; cbv iota.
  - eapply wp_mono; [apply (IH s1 p1 I1 R1 (known_frame _ _ F1 Hk0) Hp1)|].
    { rw Hab. change (@skipn) with (@list.drop). rw length_drop. lia. }
    intros res s2 (-> & S2 & Q1 & Q2). split; [done|]. split; [by eapply safe_trans|]. split; [auto|].
    intros Hs Hf. apply Q2; [by eapply single_frame|auto].
  - destruct (known_frame _ _ F1 Hk0) as (C1 & HC1 & _). apply wp_bind. eapply wp_mono; [by eapply wp_remove_invalid|].
    intros _ s2 (I2 & R2 & F2 & V2). apply wp_ret. split; [done|]. split; [eapply safe_trans; [exact S01|by split]|].
    assert (∀ n, n ∈ active → n ≤ p1) as Hlast.
    { intros n Hn. destruct (decide (p1 < n)) as [Hlt|]; [|lia]. exfalso. apply (not_elem_of_nil n). rw -Hab. by apply list_elem_of_filter. }
    split.
    + intros Hr e He. apply V2 in He as [He Hok]. apply (P1 Hr e He). by apply Hok.
    + intros Hs Hf e. destruct (P2 Hs Hf) as [Hall Hfull]. rw V2. split; [intros [He _]; by apply Hall|].
      intros [Hact ->]. split; [by apply Hfull, Hlast|]. intros _. split; [by apply Hlast|done].
Qed.

(** All of the scan. *)
Lemma wp_scan_work_steady fuel s C :
  ns_inv held s → n_rm s = [] → n_ctrls s !! c = Some C → c_info C = info → c_multi_css C = mcss →
  ct_state (c_ctl C) = NVME_CTRL_LIVE → c_tagset C = true → (length active < NR_ENTRIES * fuel)%nat →
  wp (nvme_scan_work fuel c) (λ res s', res = true ∧ safe held s s' ∧
    (right_to 0 s → ∀ e, e ∈ view s' c → right e) ∧
    (single s → full_to 0 s → ∀ e, e ∈ view s' c ↔ right e)) s.
Proof.
  intros I Hrm HC Hi Hm Hlive Htag Hlen. assert (known s) as Hk by (exists C; auto).
  rw /nvme_scan_work. apply wp_bind, (wp_ctrl_at _ C); [done|]. rw Hlive Htag bool_decide_true //. cbn [negb orb]. cbv iota.
  apply wp_bind, (wp_mono _ (λ _ s', safe held s s' ∧ view s' c = view s c)).
  { apply wp_when; intros _; [|split; [by apply safe_refl|done]]. apply wp_bind. eapply wp_mono; [by eapply (wp_set_attr held s c C)|].
    intros _ s1 (S1 & A1). pose proof S1 as (I1 & R1 & F1). rw /nvme_clear_changed_ns_log. apply wp_bind, wp_ask_ns.
    rw (cf_alloc _ _ _ _ _ Conf). cbn [negb]. cbv iota. apply wp_bind, wp_ask_ns, wp_ret. split.
    - eapply safe_trans; [exact S1|]. eapply safe_trans; [by apply safe_tick|]. apply safe_tick; [by apply inv_tick|done].
    - transitivity (view s1 c); [done|]. eapply keeps_ns_view; [exact I1|by eapply attr_keeps]. }
  intros _ s1 [S1 V1]. pose proof S1 as (I1 & R1 & F1). destruct (frame_ctrl _ _ _ _ F1 HC) as (C1 & HC1 & Hst).
  assert (c_info C1 = info) as Hi1. { rw -Hi. rw /static in Hst. by injection Hst. }
  apply wp_bind. rw /nvme_scan_ns_list. apply wp_bind, (wp_ctrl_at _ C1); [done|]. rw Hi1 (cf_cns _ _ _ _ _ Conf).
  apply wp_bind, wp_ask_ns. rw (cf_alloc _ _ _ _ _ Conf). cbn [negb]. cbv iota.
  set (s2 := s1<{n_tick := S (n_tick s1)}>). pose proof (safe_tick held s1 (S (n_tick s1)) I1 R1) as S2. fold s2 in S2.
  pose proof S2 as (I2 & R2 & F2). pose proof (safe_trans _ _ _ _ S1 S2) as S12. pose proof S12 as (_ & _ & F12).
  assert (view s2 c = view s c) as V2 by (transitivity (view s1 c); [done|exact V1]).
  eapply wp_mono; [apply (wp_scan_steady fuel s2 0 I2 R2 (known_frame _ _ F12 Hk)); [lia|]|].
  { eapply Nat.le_lt_trans; [|exact Hlen]. rw /above. apply length_filter. }
  intros res s3 (-> & S3 & Q1 & Q2). change (c_true 0) with false. cbv iota. apply wp_ret. split; [done|]. split; [by eapply safe_trans|]. split.
  - intros Hr. apply Q1. intros e. rw V2. apply Hr.
  - intros Hs Hf. apply Q2; [by eapply single_frame|]. rw /full_to V2. exact Hf.
Qed.
End scan.
