(* ===== verification/GpuTopo.v ===== *)
(** * The topology table (nvfs-pci.c, nvfs-pci.h)

    A table of the GPUs and NVMe devices of the machine with the PCI bridges above
    them, and for every pair a rank made of their distance in the PCI tree and the
    bandwidth of the peer's link.  Devices are found again by a hash of their address;
    the hash function, the PCI tree and the NUMA nodes belong to the kernel. *)
From S2P Require Import Prelude.

Definition T_UINT_MAX : Z := 2 ^ 32 - 1.
Definition MAX_GPU_DEVS : Z := 64.
Definition MAX_PEER_DEVS : Z := 64.
Definition MAX_PCI_DEPTH : nat := 16.
Definition PROC_LIMIT_PCI_DISTANCE_COMMONRP : Z := 32.
Definition BASE_PCI_DISTANCE_CROSSRP : Z := 127.            (* S8_MAX *)
Definition PCI_NULL_DEV_NORP : Z := T_UINT_MAX - 1.
Definition LOCAL_DISTANCE : Z := 10.
Definition REMOTE_DISTANCE : Z := 20.
Definition PCI_VENDOR_ID_NVIDIA : Z := 0x10de.
Definition PCI_CLASS_DISPLAY_VGA : Z := 0x300.
Definition PCI_CLASS_DISPLAY_3D : Z := 0x302.
Definition PCI_CLASS_NETWORK_ETHERNET : Z := 0x200.
Definition PCI_CLASS_NETWORK_INFINIBAND : Z := 0x207.
Definition PCI_CLASS_STORAGE_EXPRESS : Z := 0x10802.
Definition PCI_CLASS_BRIDGE_PCI : Z := 0x604.
Definition NVFS_PDEVINFO_ACS_CHECK_BIT : Z := 16.
Definition NVFS_PDEVINFO_NVME_CHECK_BIT : Z := 17.
Definition NVFS_PDEVINFO_NET_CHECK_BIT : Z := 18.
Definition NVFS_PDEVINFO_LNKSPEED_BIT : Z := 24.
Definition NVFS_PDEVINFO_LNKWIDTH_BIT : Z := 28.
(** [~(0xFFFF0000ULL)]. *)
Definition NVFS_PDEVINFO_INFO_MASK : Z := 2 ^ 64 - 1 - 0xFFFF0000.
Definition PCI_SPEED_UNKNOWN : Z := 0xff.
Definition MAX_PCIE_BW_INDEX : Z := 160.                    (* PCIE_LNK_X32 * 5 *)

(** Of 16 entries 15 are written out, the last is 0. *)
Definition nvfs_pcie_link_speed_table : list Z :=
  [PCI_SPEED_UNKNOWN; 0x14; 0x15; 0x16; 0x17] ++ replicate 10 PCI_SPEED_UNKNOWN ++ [0].
Definition nvfs_pcie_link_width_table : list Z := [0; 1; 2; 4; 8; 12; 16; 32] ++ replicate 8 0xff.

Record pci_dev := PciDev {
  pd_bus : option (Z * Z);            (* the domain and the number of [pdev->bus] *)
  pd_root : bool;                     (* [pci_is_root_bus(pdev->bus)] *)
  pd_devfn : Z;
  pd_class : Z;
  pd_vendor : Z;
  pd_lnksta : option Z;               (* PCI_EXP_LNKSTA, when it can be read *)
  pd_acs : option (Z * Z);            (* PCI_ACS_CAP and PCI_ACS_CTRL of the ACS capability *)
}.

Record nvfs_rank_data := RankData { rd_rank : Z; rd_cross : Z; rd_pci_dist : Z; rd_bw_index : Z; rd_count : Z }.
#[export] Instance eta_rank_data : Settable nvfs_rank_data := λ x,
  RankData (rd_rank x) (rd_cross x) (rd_pci_dist x) (rd_bw_index x) (rd_count x).

Record topo := Topo {
  gpu_bdf_map : list (list Z);
  peer_bdf_map : list (list Z);
  gpu_info_table : list Z;
  peer_info_table : list Z;
  gpu_rank_matrix : list (list nvfs_rank_data);
  t_refs : Z;                         (* references to PCI devices held *)
}.
#[export] Instance eta_topo : Settable topo := λ x,
  Topo (gpu_bdf_map x) (peer_bdf_map x) (gpu_info_table x) (peer_info_table x) (gpu_rank_matrix x) (t_refs x).

Class pci_env := PciEnv {
  pci_devices : list pci_dev;                               (* in the order of [pci_get_class] *)
  pci_upstream_bridge : pci_dev → option pci_dev;
  pci_get_domain_bus_and_slot : Z → Z → Z → option pci_dev;
  pcibus_to_node : pci_dev → Z;
  node_distance : Z → Z → Z;
  jhash_2words : Z → Z → Z → Z;
}.

(** ** Packed device addresses *)

Definition PCI_DEVID (bus devfn : Z) : Z := Z.lor (Z.shiftl (u16 bus) 8) devfn.
Definition nvfs_pdevinfo (pdev : pci_dev) : Z :=
  match pd_bus pdev with
  | Some (domain, number) => Z.lor (u64 (Z.shiftl (u32 domain) 32)) (PCI_DEVID number (pd_devfn pdev))
  | None => PCI_DEVID 0 (pd_devfn pdev)
  end.
Definition nvfs_pdevinfo_set_acs (info : Z) : Z := Z.lor info (Z.shiftl 1 NVFS_PDEVINFO_ACS_CHECK_BIT).
Definition nvfs_pdevinfo_get_acs (info : Z) : bool := c_true (Z.land info (Z.shiftl 1 NVFS_PDEVINFO_ACS_CHECK_BIT)).
Definition PCI_DEV_GPU (class vendor : Z) : bool :=
  (vendor =? PCI_VENDOR_ID_NVIDIA) && ((class =? PCI_CLASS_DISPLAY_VGA) || (class =? PCI_CLASS_DISPLAY_3D)).
Definition PCI_DEV_IB (class : Z) : bool := (class =? PCI_CLASS_NETWORK_ETHERNET) || (class =? PCI_CLASS_NETWORK_INFINIBAND).
Definition PCI_DEV_NVME (class : Z) : bool := class =? PCI_CLASS_STORAGE_EXPRESS.
Definition nvfs_pdevinfo_set_class (info dev_class : Z) : Z :=
  if PCI_DEV_IB (Z.shiftr dev_class 8) then Z.lor info (Z.shiftl 1 NVFS_PDEVINFO_NET_CHECK_BIT) else
  if PCI_DEV_NVME dev_class then Z.lor info (Z.shiftl 1 NVFS_PDEVINFO_NVME_CHECK_BIT) else info.
Definition nvfs_pdevinfo_get_class_name (info : Z) : string :=
  if c_true (Z.land info (Z.shiftl 1 NVFS_PDEVINFO_NVME_CHECK_BIT)) then "nvme" else "x".

(** The index of the value in the table goes to the bits from [bit - 1] on. *)
Definition set_index (table : list Z) (bit info v : Z) : Z :=
  match list_find (v =.) table with
  | Some (i, _) => Z.lor info (u64 (Z.shiftl (Z.of_nat i) (bit - 1)))
  | None => info
  end.
Definition nvfs_pdevinfo_set_link_speed (info speed : Z) : Z :=
  set_index nvfs_pcie_link_speed_table NVFS_PDEVINFO_LNKSPEED_BIT info speed.
Definition nvfs_pdevinfo_set_link_width (info width : Z) : Z :=
  set_index nvfs_pcie_link_width_table NVFS_PDEVINFO_LNKWIDTH_BIT info width.
Definition nvfs_pdevinfo_get_link_speed (info : Z) : Z :=
  Z.land (Z.shiftr (u32 info) (NVFS_PDEVINFO_LNKSPEED_BIT - 1)) 0xf.
Definition nvfs_pdevinfo_get_link_width (info : Z) : option Z :=
  nvfs_pcie_link_width_table !! Z.to_nat (Z.land (Z.shiftr (u32 info) (NVFS_PDEVINFO_LNKWIDTH_BIT - 1)) 0xf).

Section model.
Context {E : pci_env}.

Definition nvfs_get_pdev_from_pdevinfo (info : Z) : option pci_dev :=
  let info := Z.land info NVFS_PDEVINFO_INFO_MASK in
  pci_get_domain_bus_and_slot (s32 (Z.shiftr info 32)) (Z.shiftr (u32 info) 8) (u8 info).
Definition nvfs_get_numa_node_from_pdevinfo (info : Z) : Z :=
  match nvfs_get_pdev_from_pdevinfo info with Some pdev => pcibus_to_node pdev | None => - 1 end.

(** ** The index tables *)

Definition hashfn (value : Z) : Z := jhash_2words (u32 value) (u32 (Z.shiftr value 32)) 0.

(** [n] slots from [idx] on, the first whose entry satisfies [found]. *)
Fixpoint probe (found : Z → bool) (n : nat) (table : list Z) (max idx : Z) : option Z :=
  match n with
  | O => Some T_UINT_MAX
  | S n =>
    v ← table !! Z.to_nat idx;
    if found v then Some idx else probe found n table max ((idx + 1) mod max)
  end.
Definition _create_index_entry (info : Z) (table : list Z) (max : Z) : option Z :=
  probe (λ v, v =? 0) (Z.to_nat max) table max (hashfn info mod max).
Definition _lookup_index_entry (info : Z) (table : list Z) (max : Z) : option Z :=
  probe (λ v, Z.land v NVFS_PDEVINFO_INFO_MASK =? info) (Z.to_nat max) table max (hashfn info mod max).

Definition nvfs_create_gpu_hash_entry (info : Z) (t : topo) : option Z :=
  if info =? 0 then Some T_UINT_MAX else _create_index_entry info (gpu_info_table t) MAX_GPU_DEVS.
Definition nvfs_create_peer_hash_entry (info : Z) (t : topo) : option Z :=
  if info =? 0 then Some T_UINT_MAX else _create_index_entry info (peer_info_table t) MAX_PEER_DEVS.
Definition nvfs_get_gpu_hash_index (info : Z) (t : topo) : option Z := _lookup_index_entry info (gpu_info_table t) MAX_GPU_DEVS.
Definition nvfs_get_peer_hash_index (info : Z) (t : topo) : option Z :=
  _lookup_index_entry info (peer_info_table t) MAX_PEER_DEVS.
Definition nvfs_lookup_gpu_hash_index_entry (index : Z) (t : topo) : option Z :=
  if index <? MAX_GPU_DEVS then gpu_info_table t !! Z.to_nat index else Some 0.
Definition nvfs_lookup_peer_hash_index_entry (index : Z) (t : topo) : option Z :=
  if index <? MAX_PEER_DEVS then peer_info_table t !! Z.to_nat index else Some 0.

(** ** Scanning *)

Definition nvfs_pcie_acs_enabled (pdev : pci_dev) : bool :=
  match pd_acs pdev with Some (cap, ctrl) => c_true cap && c_true (Z.land ctrl 0x7f) | None => false end.
(** The bridges after a device, in the order of [pci_get_class]. *)
Fixpoint nvfs_get_next_acs_device (bridges : list pci_dev) : option pci_dev :=
  match bridges with
  | [] => None
  | b :: bridges => if nvfs_pcie_acs_enabled b then Some b else nvfs_get_next_acs_device bridges
  end.

(** The bandwidth, [*speed] and [*width]; the latter are not used when it is 0. *)
Definition nvfs_pcie_bw_available (pdev : pci_dev) : Z * Z * Z :=
  match pd_lnksta pdev with
  | None => (0, 0, 0)
  | Some lnksta =>
    let width := Z.shiftr (Z.land lnksta 0x3f0) 4 in
    let idx := Z.land lnksta 0xf in
    match nvfs_pcie_link_speed_table !! Z.to_nat idx with
    | Some speed => (width * idx, speed, width)
    | None => (0, 0, 0)
    end
  end.
(** The address of a device with the attributes of its link. *)
Definition leaf_info (pdev : pci_dev) : Z :=
  let '(bw, speed, width) := nvfs_pcie_bw_available pdev in
  let info := nvfs_pdevinfo pdev in
  if c_true bw then nvfs_pdevinfo_set_link_speed (nvfs_pdevinfo_set_link_width info width) speed else info.
Definition bridge_info (b : pci_dev) : Z :=
  if nvfs_pcie_acs_enabled b then nvfs_pdevinfo_set_acs (nvfs_pdevinfo b) else nvfs_pdevinfo b.

(** The do-while loop over the bridges, [n] is [MAX_PCI_DEPTH - depth]. *)
Fixpoint path_loop (n depth : nat) (row : list Z) (ppdev : pci_dev) : list Z :=
  match n with
  | O => row
  | S n =>
    match pci_upstream_bridge ppdev with
    | None => row
    | Some b =>
      let row := <[depth := bridge_info b]> row in
      if pd_bus b is Some _ then path_loop n (S depth) row b else row
    end
  end.
Definition device_path (pdev : pci_dev) (row : list Z) : list Z :=
  if pd_root pdev then <[0%nat := PCI_NULL_DEV_NORP]> row else path_loop MAX_PCI_DEPTH 0 row pdev.

Inductive bdf_map := GpuMap | PeerMap.
Definition get_row (w : bdf_map) (idx : Z) : K topo (list Z) :=
  m ← gets (match w with GpuMap => gpu_bdf_map | PeerMap => peer_bdf_map end); from_option_k (m !! Z.to_nat idx).
Definition set_row (w : bdf_map) (idx : Z) (row : list Z) : K topo unit :=
  modify (λ t, match w with
               | GpuMap => t<{gpu_bdf_map := <[Z.to_nat idx := row]> (gpu_bdf_map t)}>
               | PeerMap => t<{peer_bdf_map := <[Z.to_nat idx := row]> (peer_bdf_map t)}>
               end).

(** The slot a device gets: none when it is not of interest. *)
Definition claim_slot (class : Z) (pdev : pci_dev) : K topo (option Z) :=
  let info := leaf_info pdev in
  if PCI_DEV_GPU (Z.shiftr class 8) (pd_vendor pdev) then
    t ← get; idx ← from_option_k (nvfs_create_gpu_hash_entry info t);
    when (negb (idx =? T_UINT_MAX)) (modify (λ t, t<{gpu_info_table := <[Z.to_nat idx := info]> (gpu_info_table t)}>));;
    mret (Some idx)
  else if PCI_DEV_IB (Z.shiftr class 8) || PCI_DEV_NVME class then
    t ← get; idx ← from_option_k (nvfs_create_peer_hash_entry info t);
    when (negb (idx =? T_UINT_MAX))
      (modify (λ t, t<{peer_info_table := <[Z.to_nat idx := nvfs_pdevinfo_set_class info class]> (peer_info_table t)}>));;
    mret (Some idx)
  else mret None.

Definition hold (n : Z) : K topo unit := modify (λ t, t<{t_refs := t_refs t + n}>).

(** [ds] is what [pci_get_class] still returns, [from] whether its argument is a
    device: it takes a reference to the one and drops that to the other. *)
Fixpoint find_device_paths (w : bdf_map) (max_devices class : Z) (from : bool) (ds : list pci_dev) (count : Z) : K topo unit :=
  hold (- c_bool from);;
  match ds with
  | [] => mret tt
  | pdev :: ds =>
    hold 1;;
    if negb (bool_decide (is_Some (pd_bus pdev))) then find_device_paths w max_devices class true ds count else
    if negb (pd_class pdev =? class) then mret tt else
    slot ← claim_slot class pdev;
    match slot with
    | None => find_device_paths w max_devices class true ds count
    | Some idx =>
      if idx =? T_UINT_MAX then hold (- 1) else
      row ← get_row w idx;
      set_row w idx (device_path pdev row);;
      if max_devices <=? count + 1 then hold (- 1) else find_device_paths w max_devices class true ds (count + 1)
    end
  end.
Definition __nvfs_find_all_device_paths (w : bdf_map) (max_devices class : Z) : K topo unit :=
  find_device_paths w max_devices class false (filter (λ d, pd_class d = class) pci_devices) 0.

(** ** Distances *)

Definition __nvfs_gpu2peer_numa_distance (t : topo) (gpu_index peer_index : Z) : option Z :=
  g ← gpu_info_table t !! Z.to_nat gpu_index;
  p ← peer_info_table t !! Z.to_nat peer_index;
  let na := nvfs_get_numa_node_from_pdevinfo g in
  let nb := nvfs_get_numa_node_from_pdevinfo p in
  Some (if (na <? 0) && (nb <? 0) then LOCAL_DISTANCE else if (na <? 0) || (nb <? 0) then REMOTE_DISTANCE else node_distance na nb).
Definition nvfs_gpu2peer_islocal (t : topo) (gpu_index peer_index : Z) : option bool :=
  d ← __nvfs_gpu2peer_numa_distance t gpu_index peer_index; Some (d =? LOCAL_DISTANCE).

(** From the end of the row down to its last bridge: its index and value, -1 and 0
    when there is none. *)
Fixpoint highest_bridge (n : nat) (row : list Z) : option (Z * Z) :=
  match n with
  | O => Some (- 1, 0)
  | S i => v ← row !! i; if v =? 0 then highest_bridge i row else Some (Z.of_nat i, v)
  end.
(** [j], [pdepth] and [common]. *)
Fixpoint scan_peer (n j : nat) (row : list Z) (info : Z) : option (nat * Z * bool) :=
  match n with
  | O => Some (j, 0, false)
  | S n =>
    v ← row !! j;
    if v =? 0 then Some (j, Z.of_nat j, false) else
    if info =? v then Some (j, Z.of_nat j + 1, true) else scan_peer n (S j) row info
  end.
(** Down both paths while the bridges are the same; [ni] and [nj] are [i + 1] and
    [j + 1].  [lowest_common] and [pci_dist]. *)
Fixpoint descend (ni nj : nat) (grow prow : list Z) (gdepth pdepth lowest_common pci_dist : Z) : option (Z * Z) :=
  match ni, nj with
  | S i, S j =>
    g ← grow !! i; p ← prow !! j;
    if g =? p then
      descend i j grow prow (gdepth - 1) (pdepth - 1) (Z.of_nat i) (u32 (gdepth - 1 + (pdepth - 1) + 1))
    else Some (lowest_common, pci_dist)
  | _, _ => Some (lowest_common, pci_dist)
  end.

Definition __nvfs_get_gpu2peer_distance (t : topo) (gpu_index peer_index : Z) : option Z :=
  if (MAX_GPU_DEVS <=? gpu_index) || (MAX_PEER_DEVS <=? peer_index) then Some T_UINT_MAX else
  grow ← gpu_bdf_map t !! Z.to_nat gpu_index;
  prow ← peer_bdf_map t !! Z.to_nat peer_index;
  g0 ← grow !! 0%nat;
  if g0 =? 0 then Some T_UINT_MAX else
  p0 ← prow !! 0%nat;
  if p0 =? 0 then Some T_UINT_MAX else
  '(i, gdepth, info) ← (if g0 =? PCI_NULL_DEV_NORP then Some (0, 0, PCI_NULL_DEV_NORP)
                        else '(i, v) ← highest_bridge MAX_PCI_DEPTH grow; Some (i, i + 1, v));
  if info =? 0 then Some T_UINT_MAX else
  '(j, pdepth, common) ← (if p0 =? PCI_NULL_DEV_NORP then Some (0%nat, 0, false) else scan_peer MAX_PCI_DEPTH 0 prow info);
  if negb common then
    local ← nvfs_gpu2peer_islocal t gpu_index peer_index;
    Some ((if local : bool then BASE_PCI_DISTANCE_CROSSRP else 2 * BASE_PCI_DISTANCE_CROSSRP) + gdepth + pdepth + 1)
  else
    '(lowest_common, pci_dist) ← descend (Z.to_nat (i + 1)) (S j) grow prow gdepth pdepth (- 1) T_UINT_MAX;
    if 0 <? lowest_common then
      v ← grow !! Z.to_nat lowest_common;
      Some (if nvfs_pdevinfo_get_acs v then u32 (pci_dist + (i - lowest_common)) else pci_dist)
    else Some pci_dist.

(** One element of the matrix. *)
Definition rank_entry (t : topo) (i j : Z) : option nvfs_rank_data :=
  peerinfo ← nvfs_lookup_peer_hash_index_entry j t;
  pci_dist ← __nvfs_get_gpu2peer_distance t i j;
  width ← nvfs_pdevinfo_get_link_width peerinfo;
  let bw := Z.min (u32 (width * nvfs_pdevinfo_get_link_speed peerinfo)) MAX_PCIE_BW_INDEX in
  Some (RankData (Z.lor (MAX_PCIE_BW_INDEX - bw) (u32 (Z.shiftl pci_dist 16)))
          (c_bool (BASE_PCI_DISTANCE_CROSSRP <=? pci_dist)) (u16 pci_dist) bw 0).
Definition nvfs_get_pci_gpu2peer_distance : K topo unit :=
  t ← get;
  m ← from_option_k (mapM (λ i, mapM (λ j, rank_entry t i j) (seqZ 0 MAX_PEER_DEVS)) (seqZ 0 MAX_GPU_DEVS));
  modify (λ t, t<{gpu_rank_matrix := m}>).

Definition zero_row : list Z := replicate MAX_PCI_DEPTH 0.
Definition nvfs_fill_gpu2peer_distance_table_once : K topo unit :=
  modify (λ t, t<{gpu_bdf_map := replicate 64 zero_row}><{peer_bdf_map := replicate 64 zero_row}>
                <{gpu_info_table := replicate 64 0}><{peer_info_table := replicate 64 0}>);;
  __nvfs_find_all_device_paths GpuMap MAX_GPU_DEVS (Z.shiftl PCI_CLASS_DISPLAY_3D 8);;
  __nvfs_find_all_device_paths GpuMap MAX_GPU_DEVS (Z.shiftl PCI_CLASS_DISPLAY_VGA 8);;
  __nvfs_find_all_device_paths PeerMap MAX_PEER_DEVS PCI_CLASS_STORAGE_EXPRESS;;
  nvfs_get_pci_gpu2peer_distance.

(** ** Use of the table *)

Definition rank_at (t : topo) (i j : Z) : option nvfs_rank_data :=
  row ← gpu_rank_matrix t !! Z.to_nat i; row !! Z.to_nat j.
Definition nvfs_get_gpu2peer_distance (t : topo) (pdev : pci_dev) (gpu_index : Z) : option Z :=
  if negb (bool_decide (is_Some (pd_bus pdev))) then Some T_UINT_MAX else
  if MAX_GPU_DEVS <=? gpu_index then Some T_UINT_MAX else
  peer_index ← nvfs_get_peer_hash_index (nvfs_pdevinfo pdev) t;
  if MAX_PEER_DEVS <=? peer_index then Some T_UINT_MAX else
  r ← rank_at t gpu_index peer_index; Some (rd_rank r).

Definition nvfs_update_peer_usage (gpu_index peer_info : Z) : K topo unit :=
  t ← get;
  peer_index ← from_option_k (nvfs_get_peer_hash_index peer_info t);
  if (MAX_GPU_DEVS <=? gpu_index) || (MAX_PEER_DEVS <=? peer_index) then mret tt else
  row ← from_option_k (gpu_rank_matrix t !! Z.to_nat gpu_index);
  r ← from_option_k (row !! Z.to_nat peer_index);
  modify (λ t, t<{gpu_rank_matrix :=
    <[Z.to_nat gpu_index := <[Z.to_nat peer_index := r<{rd_count := u64 (rd_count r + 1)}>]> row]> (gpu_rank_matrix t)}>).

(** [for (i...) if (sel) count += .count]. *)
Definition sum_counts (sel : nvfs_rank_data → bool) (row : list nvfs_rank_data) : Z :=
  fold_left (λ c r, if sel r then u64 (c + rd_count r) else c) row 0.
Definition nvfs_aggregate_peer_usage_by_distance (t : topo) (gpu_index pci_dist : Z) : option Z :=
  if MAX_GPU_DEVS <=? gpu_index then Some 0 else
  row ← gpu_rank_matrix t !! Z.to_nat gpu_index;
  Some (if BASE_PCI_DISTANCE_CROSSRP <=? pci_dist then sum_counts (λ r, pci_dist <=? rd_pci_dist r) row
        else sum_counts (λ r, rd_pci_dist r =? pci_dist) row).
Definition nvfs_aggregate_cross_peer_usage (t : topo) (gpu_index : Z) : option Z :=
  if MAX_GPU_DEVS <=? gpu_index then Some 0 else
  row ← gpu_rank_matrix t !! Z.to_nat gpu_index;
  let net := sum_counts (λ _, true) row in
  let count := sum_counts (λ r, c_true (rd_cross r)) row in
  Some (if c_true net then u32 (u64 (100 * count) / net) else 0).
Definition nvfs_reset_peer_affinity_stats : K topo unit :=
  modify (λ t, t<{gpu_rank_matrix := map (map (λ r, r<{rd_count := 0}>)) (gpu_rank_matrix t)}>).

(** The rows printed for each GPU in the table: the operations at each distance
    below one root port, and those across. *)
Definition affinity_row (t : topo) (i : Z) : option (list Z) :=
  near ← mapM (nvfs_aggregate_peer_usage_by_distance t i) (seqZ 1 PROC_LIMIT_PCI_DISTANCE_COMMONRP);
  cross ← nvfs_aggregate_peer_usage_by_distance t i BASE_PCI_DISTANCE_CROSSRP;
  Some (near ++ [cross]).
Definition nvfs_peer_affinity_show (t : topo) : option (list (Z * list Z)) :=
  rows ← mapM (λ i, info ← nvfs_lookup_gpu_hash_index_entry i t;
                    if info =? 0 then Some [] else row ← affinity_row t i; Some [(info, row)]) (seqZ 0 MAX_GPU_DEVS);
  Some (concat rows).

Record show_row := ShowRow {
  sr_gpu : Z; sr_peer : Z; sr_rank : Z; sr_dist : Z; sr_width : Z; sr_speed : Z; sr_numa : Z; sr_count : Z; sr_class : string;
}.
Definition nvfs_peer_distance_show (t : topo) : option (list show_row) :=
  rows ← mapM (λ i,
    info ← nvfs_lookup_gpu_hash_index_entry i t;
    if info =? 0 then Some [] else
    cells ← mapM (λ j,
      peer ← nvfs_lookup_peer_hash_index_entry j t;
      if peer =? 0 then Some [] else
      r ← rank_at t i j;
      width ← nvfs_pdevinfo_get_link_width peer;
      Some [ShowRow info peer (rd_rank r) (rd_pci_dist r) width (nvfs_pdevinfo_get_link_speed peer)
              (nvfs_get_numa_node_from_pdevinfo peer) (rd_count r) (nvfs_pdevinfo_get_class_name peer)]) (seqZ 0 MAX_PEER_DEVS);
    Some (concat cells)) (seqZ 0 MAX_GPU_DEVS);
  Some (concat rows).
End model.
