(* ===== verification/GpuTopoInv.v ===== *)
(** * The topology table: lemmas

    What the packed addresses, the probing, the scan and the distance of two paths
    compute; the laws of the kernel's PCI tree. *)
From S2P Require Import Prelude GpuTopo.

#[export] Instance pci_dev_eq_dec : EqDecision pci_dev.
Proof. solve_decision. Defined.

(** ** The PCI tree *)

Section tree.
Context {E : pci_env}.

(** At most [n] bridges above a device, from the bottom. *)
Fixpoint bridges (n : nat) (d : pci_dev) : list pci_dev :=
  match n with
  | O => []
  | S n => match pci_upstream_bridge d with Some b => b :: bridges n b | None => [] end
  end.
Definition above (d : pci_dev) : list pci_dev := bridges MAX_PCI_DEPTH d.

(** What the kernel says of its devices: the fields have their ranges, a bridge is a
    device, only devices on a root bus have none above, and addresses are unique. *)
Class pci_laws : Prop := {
  pl_bus d : d ∈ pci_devices → ∃ dom num, pd_bus d = Some (dom, num) ∧ 0 ≤ dom < 2 ^ 32 ∧ 0 ≤ num < 2 ^ 8;
  pl_devfn d : d ∈ pci_devices → 0 ≤ pd_devfn d < 2 ^ 8;
  pl_up d b : d ∈ pci_devices → pci_upstream_bridge d = Some b → b ∈ pci_devices;
  pl_root d : d ∈ pci_devices → pd_root d = true ↔ pci_upstream_bridge d = None;
  pl_addr d e : d ∈ pci_devices → e ∈ pci_devices → nvfs_pdevinfo d = nvfs_pdevinfo e → d = e;
  pl_slot d dom num : d ∈ pci_devices → pd_bus d = Some (dom, num) →
    pci_get_domain_bus_and_slot (s32 dom) num (pd_devfn d) = Some d;
}.

(** ** Reference definitions *)

Definition gpus : list pci_dev :=
  filter (λ d, pd_vendor d = PCI_VENDOR_ID_NVIDIA) (filter (λ d, pd_class d = 0x30200) pci_devices) ++
  filter (λ d, pd_vendor d = PCI_VENDOR_ID_NVIDIA) (filter (λ d, pd_class d = 0x30000) pci_devices).
Definition nvmes : list pci_dev := filter (λ d, pd_class d = PCI_CLASS_STORAGE_EXPRESS) pci_devices.

Fixpoint common_prefix {A} `{EqDecision A} (l k : list A) : list A :=
  match l, k with
  | x :: l, y :: k => if decide (x = y) then x :: common_prefix l k else []
  | _, _ => []
  end.
(** The bridges above both, from the root down. *)
Definition shared (g p : pci_dev) : list pci_dev := common_prefix (reverse (above g)) (reverse (above p)).
Definition is_local (g p : pci_dev) : bool :=
  let na := pcibus_to_node g in let nb := pcibus_to_node p in
  if (na <? 0) && (nb <? 0) then true else if (na <? 0) || (nb <? 0) then false else node_distance na nb =? LOCAL_DISTANCE.
(** The bridges on the way from the one to the other, with a detour to the root port
    when the lowest common bridge redirects requests and is not just above the GPU. *)
Definition tree_distance (g p : pci_dev) : Z :=
  let G := Z.of_nat (length (above g)) in
  let P := Z.of_nat (length (above p)) in
  let C := Z.of_nat (length (shared g p)) in
  match last (shared g p) with
  | Some b => (G - C) + (P - C) + 1 + (if nvfs_pcie_acs_enabled b && (C <? G) then C - 1 else 0)
  | None => (if is_local g p then BASE_PCI_DISTANCE_CROSSRP else 2 * BASE_PCI_DISTANCE_CROSSRP) + G + P + 1
  end.
(** The link a device has negotiated: lanes, and generation. *)
Definition link_lanes (s : Z) : Z := Z.shiftr (Z.land s 0x3f0) 4.
Definition link_generation (s : Z) : Z := Z.land s 0xf.
Definition pcie_widths : list Z := [1; 2; 4; 8; 12; 16; 32].
(** The capacity of the link: lanes times generation. *)
Definition link_capacity (s : Z) : Z := link_lanes s * link_generation s.

(** What the driver's tables make of it: lanes times generation, but 0 for widths
    they do not list and for the generations from 5 on, which they do not know. *)
Definition recorded_bw (p : pci_dev) : Z :=
  match pd_lnksta p with
  | None => 0
  | Some s =>
    let w := Z.shiftr (Z.land s 0x3f0) 4 in
    let v := Z.land s 0xf in
    if decide (w ∈ [1; 2; 4; 8; 12; 16; 32]) then
      if v <? 5 then w * v else if v =? 15 then Z.min (w * v) MAX_PCIE_BW_INDEX else 0
    else 0
  end.
End tree.

(** ** Packed addresses *)

Lemma land_shiftl a b n : 0 ≤ n → Z.land (Z.shiftl a n) b = Z.shiftl (Z.land a (Z.shiftr b n)) n.
Proof.
  intros Hn. apply Z.bits_inj'. intros i Hi. rw Z.land_spec !Z.shiftl_spec // Z.land_spec.
  destruct (decide (i < n)) as [Hlt|Hge]; [by rw !(Z.testbit_neg_r _ (i - n)); [|lia..]|].
  rw Z.shiftr_spec; [|lia]. do 2 f_equal. lia.
Qed.

Lemma land_low_bits x k m : 0 ≤ k → 0 ≤ x < 2 ^ k → Z.land (Z.ones k) m = Z.ones k → Z.land x m = x.
Proof.
  intros Hk Hx Hm. assert (x = Z.land x (Z.ones k)) as Hxe by (rw Z.land_ones // Z.mod_small //).
  rw {1}Hxe -Z.land_assoc Hm. done.
Qed.

Section addr.
Context {E : pci_env} {L : pci_laws}.

Lemma devid_range num devfn : 0 ≤ num < 2 ^ 8 → 0 ≤ devfn < 2 ^ 8 → PCI_DEVID num devfn = 2 ^ 8 * num + devfn.
Proof.
  intros Hn Hf. rw /PCI_DEVID u16_id; [|lia].
  assert (Z.land (Z.shiftl num 8) devfn = 0) as Hl.
  { rw land_shiftl // Z.shiftr_div_pow2 // Z.div_small; [|lia]. by rw Z.land_0_r. }
  rw -(Z.lxor_lor _ _ Hl) -(Z.add_nocarry_lxor _ _ Hl) Z.shiftl_mul_pow2 //. lia.
Qed.

Lemma addr_fields d : d ∈ pci_devices → ∃ dom num, pd_bus d = Some (dom, num) ∧ 0 ≤ dom < 2 ^ 32 ∧ 0 ≤ num < 2 ^ 8 ∧
  0 ≤ pd_devfn d < 2 ^ 8 ∧ nvfs_pdevinfo d = 2 ^ 32 * dom + 2 ^ 8 * num + pd_devfn d.
Proof.
  intros Hd. destruct (pl_bus d Hd) as (dom & num & Hb & Hdom & Hnum). pose proof (pl_devfn d Hd) as Hf.
  exists dom, num. repeat (split; [done|]). rw /nvfs_pdevinfo Hb u32_id // Z.shiftl_mul_pow2 // u64_id; [|lia].
  rw devid_range //. assert (Z.land (dom * 2 ^ 32) (2 ^ 8 * num + pd_devfn d) = 0) as Hl.
  { rw -Z.shiftl_mul_pow2 // land_shiftl // Z.shiftr_div_pow2 // Z.div_small; [|lia]. by rw Z.land_0_r. }
  rw -(Z.lxor_lor _ _ Hl) -(Z.add_nocarry_lxor _ _ Hl). lia.
Qed.

Lemma addr_masked d : d ∈ pci_devices → Z.land (nvfs_pdevinfo d) NVFS_PDEVINFO_INFO_MASK = nvfs_pdevinfo d.
Proof.
  intros Hd. destruct (addr_fields d Hd) as (dom & num & Hb & Hdom & Hnum & Hf & _).
  rw /nvfs_pdevinfo Hb u32_id // u64_id; [|rw Z.shiftl_mul_pow2 //; lia]. rw devid_range //.
  rw Z.land_lor_distr_l land_shiftl //. f_equal; [f_equal; by apply (land_low_bits _ 32)|]. apply (land_low_bits _ 16); [lia|lia|done].
Qed.

(** Attributes do not touch the address. *)
Lemma masked_lor x y : Z.land y NVFS_PDEVINFO_INFO_MASK = 0 →
  Z.land (Z.lor x y) NVFS_PDEVINFO_INFO_MASK = Z.land x NVFS_PDEVINFO_INFO_MASK.
Proof. intros Hy. by rw Z.land_lor_distr_l Hy Z.lor_0_r. Qed.

Lemma set_index_masked table bit x v : (length table = 16)%nat → bit = 24 ∨ bit = 28 →
  Z.land (set_index table bit x v) NVFS_PDEVINFO_INFO_MASK = Z.land x NVFS_PDEVINFO_INFO_MASK.
Proof.
  intros Hlen Hbit. rw /set_index. destruct (list_find _ _) as [[i y]|] eqn:Hf; [|done].
  apply list_find_Some in Hf as (Hi & _). apply lookup_lt_Some in Hi. rw Hlen in Hi. apply masked_lor.
  assert (Forall (λ i, Z.land (u64 (Z.shiftl (Z.of_nat i) (bit - 1))) NVFS_PDEVINFO_INFO_MASK = 0) (seq 0 16)) as Hall.
  { destruct Hbit as [-> | ->]; apply (bool_decide_unpack _); vm_compute; exact I. }
  rw list.Forall_forall in Hall. apply Hall, elem_of_seq. lia.
Qed.

Lemma leaf_masked d : d ∈ pci_devices → Z.land (leaf_info d) NVFS_PDEVINFO_INFO_MASK = nvfs_pdevinfo d.
Proof.
  intros Hd. rw /leaf_info. destruct (nvfs_pcie_bw_available d) as [[bw speed] width].
  destruct (c_true bw); [|by apply addr_masked].
  rw /nvfs_pdevinfo_set_link_speed set_index_masked; [|done|by left]. rw /nvfs_pdevinfo_set_link_width set_index_masked; [|done|by right].
  by apply addr_masked.
Qed.

Lemma bridge_masked d : d ∈ pci_devices → Z.land (bridge_info d) NVFS_PDEVINFO_INFO_MASK = nvfs_pdevinfo d.
Proof.
  intros Hd. rw /bridge_info. destruct (nvfs_pcie_acs_enabled d); [|by apply addr_masked].
  rw /nvfs_pdevinfo_set_acs masked_lor //. by apply addr_masked.
Qed.

Lemma bridge_info_inj d e : d ∈ pci_devices → e ∈ pci_devices → bridge_info d = bridge_info e → d = e.
Proof. intros Hd He Heq. apply pl_addr; [done..|]. rw -(bridge_masked d) // -(bridge_masked e) // Heq //. Qed.

Lemma bridge_acs d : d ∈ pci_devices → nvfs_pdevinfo_get_acs (bridge_info d) = nvfs_pcie_acs_enabled d.
Proof.
  intros Hd. rw /bridge_info /nvfs_pdevinfo_get_acs /nvfs_pdevinfo_set_acs.
  assert (Z.land (nvfs_pdevinfo d) (Z.shiftl 1 NVFS_PDEVINFO_ACS_CHECK_BIT) = 0) as Hz.
  { rw -(addr_masked d Hd) -Z.land_assoc. change (Z.land NVFS_PDEVINFO_INFO_MASK _) with 0. by rw Z.land_0_r. }
  destruct (nvfs_pcie_acs_enabled d); [|by rw Hz]. rw Z.land_lor_distr_l Hz Z.lor_0_l. done.
Qed.

Lemma bridge_not_norp d : d ∈ pci_devices → bridge_info d ≠ PCI_NULL_DEV_NORP.
Proof.
  intros Hd Heq. assert (Z.land (bridge_info d) 0x80000000 = 0) as Hz.
  { rw /bridge_info. assert (Z.land (nvfs_pdevinfo d) 0x80000000 = 0) as Ha.
    { rw -(addr_masked d Hd) -Z.land_assoc. change (Z.land NVFS_PDEVINFO_INFO_MASK _) with 0. by rw Z.land_0_r. }
    destruct (nvfs_pcie_acs_enabled d); [|done]. by rw /nvfs_pdevinfo_set_acs Z.land_lor_distr_l Ha. }
  by rw Heq in Hz.
Qed.

(** The NUMA node of an entry is that of the device. *)
Lemma entry_node d x : d ∈ pci_devices → Z.land x NVFS_PDEVINFO_INFO_MASK = nvfs_pdevinfo d →
  nvfs_get_numa_node_from_pdevinfo x = pcibus_to_node d.
Proof.
  intros Hd Hx. rw /nvfs_get_numa_node_from_pdevinfo /nvfs_get_pdev_from_pdevinfo Hx.
  destruct (addr_fields d Hd) as (dom & num & Hb & Hdom & Hnum & Hf & ->).
  assert (Z.shiftr (2 ^ 32 * dom + 2 ^ 8 * num + pd_devfn d) 32 = dom) as ->.
  { rw Z.shiftr_div_pow2 // -Z.add_assoc Z.mul_comm Z.div_add_l; [|lia]. rw Z.div_small; lia. }
  assert (u32 (2 ^ 32 * dom + 2 ^ 8 * num + pd_devfn d) = 2 ^ 8 * num + pd_devfn d) as ->.
  { rw /u32 -Z.add_assoc Z.mul_comm Z.add_comm Z.mod_add; [|lia]. apply Z.mod_small. lia. }
  assert (Z.shiftr (2 ^ 8 * num + pd_devfn d) 8 = num) as ->.
  { rw Z.shiftr_div_pow2 // Z.mul_comm Z.div_add_l; [|lia]. rw Z.div_small; lia. }
  assert (u8 (2 ^ 32 * dom + 2 ^ 8 * num + pd_devfn d) = pd_devfn d) as ->.
  { rw /u8. replace (2 ^ 32 * dom + 2 ^ 8 * num + pd_devfn d) with (pd_devfn d + (2 ^ 24 * dom + num) * 2 ^ 8) by lia.
    rw Z.mod_add; [|lia]. apply Z.mod_small. lia. }
  by rw (pl_slot d dom num).
Qed.
End addr.

(** ** Link attributes *)

(** The four bits from [k] on. *)
Definition nibble (k x : Z) : Z := Z.land (Z.shiftr (u32 x) k) 0xf.

Lemma nibble_land k x y : nibble k (Z.land x y) = Z.land (nibble k x) (nibble k y).
Proof.
  rw /nibble /u32 -!Z.land_ones //. apply Z.bits_inj'. intros i Hi. rw !Z.land_spec !Z.shiftr_spec // !Z.land_spec.
  destruct (Z.testbit x _), (Z.testbit y _), (Z.testbit (Z.ones 32) _), (Z.testbit 15 i); done.
Qed.
Lemma nibble_lor k x y : nibble k (Z.lor x y) = Z.lor (nibble k x) (nibble k y).
Proof.
  rw /nibble /u32 -!Z.land_ones //. apply Z.bits_inj'. intros i Hi. rw !Z.land_spec !Z.shiftr_spec // !Z.lor_spec !Z.land_spec !Z.shiftr_spec // !Z.land_spec !Z.lor_spec.
  destruct (Z.testbit x _), (Z.testbit y _), (Z.testbit (Z.ones 32) _), (Z.testbit 15 i); done.
Qed.

(** What the attributes add to an address. *)
Lemma set_index_lor table bit x v : set_index table bit x v = Z.lor x (set_index table bit 0 v).
Proof. rw /set_index. destruct (list_find _ _) as [[i ?]|]; [by rw Z.lor_0_l|by rw Z.lor_0_r]. Qed.

Section links.
Context {E : pci_env} {L : pci_laws}.

Lemma addr_nibble d k : d ∈ pci_devices → nibble k NVFS_PDEVINFO_INFO_MASK = 0 → nibble k (nvfs_pdevinfo d) = 0.
Proof. intros Hd Hk. by rw -(addr_masked d Hd) nibble_land Hk Z.land_0_r. Qed.

(** The entry of an NVMe device. *)
Definition peer_entry (d : pci_dev) : Z := nvfs_pdevinfo_set_class (leaf_info d) PCI_CLASS_STORAGE_EXPRESS.

Lemma peer_masked d : d ∈ pci_devices → Z.land (peer_entry d) NVFS_PDEVINFO_INFO_MASK = nvfs_pdevinfo d.
Proof. intros Hd. rw /peer_entry /nvfs_pdevinfo_set_class /= masked_lor //. by apply leaf_masked. Qed.

Definition bw_of (x : Z) : option Z :=
  width ← nvfs_pdevinfo_get_link_width x; Some (Z.min (u32 (width * nvfs_pdevinfo_get_link_speed x)) MAX_PCIE_BW_INDEX).

Lemma bw_of_nibbles x y : nibble 23 x = nibble 23 y → nibble 27 x = nibble 27 y → bw_of x = bw_of y.
Proof.
  intros H1 H2. rw /bw_of /nvfs_pdevinfo_get_link_width /nvfs_pdevinfo_get_link_speed.
  change (NVFS_PDEVINFO_LNKSPEED_BIT - 1) with 23. change (NVFS_PDEVINFO_LNKWIDTH_BIT - 1) with 27.
  rw -/(nibble 23 x) -/(nibble 27 x) -/(nibble 23 y) -/(nibble 27 y) H1 H2. done.
Qed.

(** Every width and generation that the register can hold. *)
Definition bw_case (w v : Z) : bool :=
  match nvfs_pcie_link_speed_table !! Z.to_nat v with
  | Some speed =>
    let x := if c_true (w * v) then nvfs_pdevinfo_set_link_speed (nvfs_pdevinfo_set_link_width 0 w) speed else 0 in
    bool_decide (bw_of x = Some (
      if decide (w ∈ [1; 2; 4; 8; 12; 16; 32]) then
        if v <? 5 then w * v else if v =? 15 then Z.min (w * v) MAX_PCIE_BW_INDEX else 0
      else 0))
  | None => false
  end.
Lemma bw_cases : forallb (λ w, forallb (bw_case w) (seqZ 0 16)) (seqZ 0 64) = true.
Proof. vm_compute. reflexivity. Qed.

Lemma entry_bw p : p ∈ pci_devices → bw_of (peer_entry p) = Some (recorded_bw p).
Proof.
  intros Hp. rw /peer_entry /recorded_bw /nvfs_pdevinfo_set_class /=.
  assert (∀ x, bw_of (Z.lor x (Z.shiftl 1 NVFS_PDEVINFO_NVME_CHECK_BIT)) = bw_of x) as ->.
  { intros x. by apply bw_of_nibbles; rw nibble_lor Z.lor_0_r. }
  assert (∀ x, bw_of (Z.lor (nvfs_pdevinfo p) x) = bw_of x) as Haddr.
  { intros x. by apply bw_of_nibbles; rw nibble_lor addr_nibble. }
  rw /leaf_info /nvfs_pcie_bw_available. destruct (pd_lnksta p) as [s|]; cycle 1.
  { change (c_true 0) with false. cbv iota. rw -(Z.lor_0_r (nvfs_pdevinfo p)) Haddr. done. }
  set (w := Z.shiftr (Z.land s 0x3f0) 4). set (v := Z.land s 0xf).
  assert (0 ≤ v < 16) as Hv by (rw /v; change 15 with (Z.ones 4); rw Z.land_ones //; by apply Z.mod_pos_bound).
  assert (0 ≤ w < 64) as Hw.
  { rw /w Z.shiftr_land. change (Z.shiftr 0x3f0 4) with (Z.ones 6). rw Z.land_ones //. by apply Z.mod_pos_bound. }
  pose proof bw_cases as Hc. rw forallb_forall in Hc. specialize (Hc w). rw -list_elem_of_In elem_of_seqZ in Hc. specialize (Hc ltac:(lia)).
  rw forallb_forall in Hc. specialize (Hc v). rw -list_elem_of_In elem_of_seqZ in Hc. specialize (Hc ltac:(lia)). rw /bw_case in Hc.
  destruct (nvfs_pcie_link_speed_table !! Z.to_nat v) as [speed|]; [|done]. apply bool_decide_eq_true in Hc. rw -Hc.
  destruct (c_true (w * v)); [|by rw -(Z.lor_0_r (nvfs_pdevinfo p)) Haddr].
  rw /nvfs_pdevinfo_set_link_speed /nvfs_pdevinfo_set_link_width set_index_lor (set_index_lor _ _ (nvfs_pdevinfo p)) -Z.lor_assoc Haddr.
  f_equal. by rw (set_index_lor _ _ (set_index _ _ 0 w)).
Qed.
End links.

(** ** Probing *)

(** From any slot the probe visits all of them. *)
Lemma slot_probe_spec found table max n idx : 0 < max → length table = Z.to_nat max → 0 ≤ idx < max →
  ∃ r, probe found n table max idx = Some r ∧
    ((0 ≤ r < max ∧ ∃ v, table !! Z.to_nat r = Some v ∧ found v = true) ∨
     (r = T_UINT_MAX ∧ ∀ k, 0 ≤ k < Z.of_nat n → ∃ v, table !! Z.to_nat ((idx + k) mod max) = Some v ∧ found v = false)).
Proof.
  intros Hmax Hlen. revert idx. induction n as [|n IH]; intros idx Hidx; simpl.
  { exists T_UINT_MAX. split; [done|]. right. split; [done|]. intros k Hk. lia. }
  destruct (lookup_lt_is_Some_2 table (Z.to_nat idx)) as [v Hv]; [lia|]. rw Hv. cbn [mbind option_bind].
  destruct (found v) eqn:Hfv; [exists idx; split; [done|]; left; eauto|].
  destruct (IH ((idx + 1) mod max)) as (r & Hr & Hcase); [by apply Z.mod_pos_bound|]. exists r. split; [done|].
  destruct Hcase as [|[-> Hno]]; [by left|]. right. split; [done|]. intros k Hk.
  destruct (decide (k = 0)) as [->|Hk0]; [exists v; rw Z.add_0_r Z.mod_small //|].
  destruct (Hno (k - 1) ltac:(lia)) as (v' & Hv' & Hf'). exists v'. split; [|done]. rw Zplus_mod_idemp_l in Hv'.
  replace (idx + 1 + (k - 1)) with (idx + k) in Hv' by lia. done.
Qed.

Lemma probe_full found table max idx : 0 < max → length table = Z.to_nat max → 0 ≤ idx < max →
  ∃ r, probe found (Z.to_nat max) table max idx = Some r ∧
    ((0 ≤ r < max ∧ ∃ v, table !! Z.to_nat r = Some v ∧ found v = true) ∨
     (r = T_UINT_MAX ∧ ∀ i v, table !! i = Some v → found v = false)).
Proof.
  intros Hmax Hlen Hidx. destruct (slot_probe_spec found table max (Z.to_nat max) idx) as (r & Hr & Hcase); [done..|].
  exists r. split; [done|]. destruct Hcase as [|[-> Hno]]; [by left|]. right. split; [done|]. intros i v Hi.
  apply lookup_lt_Some in Hi as Hil. rw Hlen in Hil.
  destruct (Hno ((Z.of_nat i - idx) mod max)) as (v' & Hv' & Hf').
  { pose proof (Z.mod_pos_bound (Z.of_nat i - idx) max Hmax). lia. }
  rw Zplus_mod_idemp_r in Hv'. replace (idx + (Z.of_nat i - idx)) with (Z.of_nat i) in Hv' by lia.
  rw Z.mod_small in Hv'; [|lia]. rw Nat2Z.id in Hv'. congruence.
Qed.

(** ** The tables after a scan *)

Section slots.
Context {E : pci_env} {L : pci_laws}.

Definition path_row (d : pci_dev) : list Z := device_path d zero_row.

Definition tbl (w : bdf_map) (t : topo) : list Z := match w with GpuMap => gpu_info_table t | PeerMap => peer_info_table t end.
Definition mp (w : bdf_map) (t : topo) : list (list Z) := match w with GpuMap => gpu_bdf_map t | PeerMap => peer_bdf_map t end.
Definition ent (w : bdf_map) (d : pci_dev) : Z := match w with GpuMap => leaf_info d | PeerMap => peer_entry d end.
Definition other (w : bdf_map) : bdf_map := match w with GpuMap => PeerMap | PeerMap => GpuMap end.

Lemma ent_masked w d : d ∈ pci_devices → Z.land (ent w d) NVFS_PDEVINFO_INFO_MASK = nvfs_pdevinfo d.
Proof. destruct w; [apply leaf_masked|apply peer_masked]. Qed.

(** Exactly the devices [ds] are in the table, each with its path. *)
Record slots (w : bdf_map) (t : topo) (ds : list pci_dev) : Prop := {
  sl_tbl : length (tbl w t) = 64%nat;
  sl_mp : length (mp w t) = 64%nat;
  sl_in d : d ∈ ds → ∃ i, tbl w t !! i = Some (ent w d) ∧ mp w t !! i = Some (path_row d);
  sl_only i v : tbl w t !! i = Some v → (v = 0 ∧ mp w t !! i = Some zero_row) ∨ ∃ d, d ∈ ds ∧ v = ent w d ∧ mp w t !! i = Some (path_row d);
  sl_nonzero d : d ∈ ds → ent w d ≠ 0;
  sl_count : length (filter (.≠ 0) (tbl w t)) = length ds;
}.

Lemma slots_ext w t t' ds : tbl w t' = tbl w t → mp w t' = mp w t → slots w t ds → slots w t' ds.
Proof. intros Ht Hm [H1 H2 H3 H4 H5 H6]. by split; rw ?Ht ?Hm. Qed.

Lemma filter_insert_zero (l : list Z) i v : l !! i = Some 0 → v ≠ 0 →
  length (filter (.≠ 0) (<[i := v]> l)) = S (length (filter (.≠ 0) l)).
Proof.
  intros Hi Hv. pose proof (lookup_lt_Some _ _ _ Hi) as Hlt. rw insert_take_drop //. rw -{3}(take_drop_middle l i 0 Hi).
  rw !filter_app !length_app filter_cons_True //.
Qed.

(** A device put into an empty slot. *)
Lemma slots_add w t ds d i t' : slots w t ds → tbl w t !! i = Some 0 → ent w d ≠ 0 →
  tbl w t' = <[i := ent w d]> (tbl w t) → mp w t' = <[i := path_row d]> (mp w t) → slots w t' (ds ++ [d]).
Proof.
  intros [H1 H2 H3 H4 Hz H5] Hi Hd Ht Hm. assert (i < 64)%nat as Hlt by (apply lookup_lt_Some in Hi; lia). split.
  - by rw Ht length_insert.
  - by rw Hm length_insert.
  - intros e [He| ->%list_elem_of_singleton]%elem_of_app.
    + destruct (H3 e He) as (k & Hk & Hp). exists k. rw Ht Hm !list_lookup_insert_ne //; intros ->; specialize (Hz e He); congruence.
    + exists i. rw Ht Hm !list_lookup_insert_eq //; lia.
  - intros k v. rw Ht. destruct (decide (k = i)) as [->|Hne].
    + rw list_lookup_insert_eq; [|lia]. intros [= <-]. right. exists d. rw Hm list_lookup_insert_eq; [|lia]. split; [set_solver|done].
    + rw list_lookup_insert_ne // Hm list_lookup_insert_ne //. intros Hk. destruct (H4 k v Hk) as [|(e & He & -> & Hp)]; [by left|].
      right. exists e. split; [set_solver|done].
  - intros e [He| ->%list_elem_of_singleton]%elem_of_app; [by apply Hz|done].
  - rw Ht filter_insert_zero // H5 length_app /=. lia.
Qed.

(** A table with room has an empty slot, and it is found. *)
Lemma create_finds w t ds info : slots w t ds → (length ds < 64)%nat →
  ∃ i, _create_index_entry info (tbl w t) 64 = Some i ∧ 0 ≤ i < 64 ∧ tbl w t !! Z.to_nat i = Some 0.
Proof.
  intros S Hlt. destruct (probe_full (λ v, v =? 0) (tbl w t) 64 (hashfn info mod 64)) as (r & Hr & Hcase);
    [done|apply (sl_tbl _ _ _ S)|by apply Z.mod_pos_bound|]. exists r. split; [done|].
  destruct Hcase as [(Hrange & v & Hv & ->%Z.eqb_eq)|[_ Hno]]; [done|exfalso].
  assert (filter (.≠ 0) (tbl w t) = tbl w t) as Hf.
  { apply (unlink_not_elem 0). intros [i Hi]%list_elem_of_lookup. by specialize (Hno i 0 Hi). }
  pose proof (sl_count _ _ _ S) as Hc. rw Hf (sl_tbl _ _ _ S) in Hc. lia.
Qed.

(** What a scan for one of the tables looks for. *)
Definition wants (w : bdf_map) (d : pci_dev) : Prop := match w with GpuMap => pd_vendor d = PCI_VENDOR_ID_NVIDIA | PeerMap => True end.
#[export] Instance wants_dec w d : Decision (wants w d).
Proof. destruct w; rw /wants; apply _. Defined.
Definition kind_ok (w : bdf_map) (class : Z) : Prop :=
  match w with GpuMap => class = 0x30200 ∨ class = 0x30000 | PeerMap => class = PCI_CLASS_STORAGE_EXPRESS end.

(** What a scan leaves alone. *)
Definition kept (w : bdf_map) (t t' : topo) : Prop :=
  tbl (other w) t' = tbl (other w) t ∧ mp (other w) t' = mp (other w) t ∧ gpu_rank_matrix t' = gpu_rank_matrix t.

Lemma ent_nonzero w d : d ∈ pci_devices → nvfs_pdevinfo d ≠ 0 → ent w d ≠ 0.
Proof. intros Hd Hz Hx. apply Hz. by rw -(ent_masked w d Hd) Hx. Qed.

Lemma claim_skips w class d t : kind_ok w class → ¬ wants w d → claim_slot class d t = Some (None, t).
Proof.
  destruct w; simpl; [|done]. intros Hk Hv. rw /claim_slot /PCI_DEV_GPU.
  destruct (Z.eqb_spec (pd_vendor d) PCI_VENDOR_ID_NVIDIA); [done|]. by destruct Hk as [-> | ->].
Qed.

Lemma wp_claim w class d t ds : slots w t ds → kind_ok w class → wants w d → d ∈ pci_devices → nvfs_pdevinfo d ≠ 0 →
  (length ds < 64)%nat →
  wp (claim_slot class d) (λ r t', ∃ i, r = Some i ∧ 0 ≤ i < 64 ∧ tbl w t !! Z.to_nat i = Some 0 ∧
    tbl w t' = <[Z.to_nat i := ent w d]> (tbl w t) ∧ mp w t' = mp w t ∧ kept w t t' ∧ t_refs t' = t_refs t) t.
Proof.
  intros S Hk Hw Hd Hz Hlt. destruct (create_finds w t ds (leaf_info d) S Hlt) as (i & Hc & Hi & H0).
  assert ((leaf_info d =? 0) = false) as Hnz by (apply Z.eqb_neq, (ent_nonzero GpuMap d Hd Hz)).
  assert ((i =? T_UINT_MAX) = false) as Hne by (apply Z.eqb_neq; rw /T_UINT_MAX; lia).
  rw /claim_slot. destruct w; simpl in *.
  - assert (PCI_DEV_GPU (Z.shiftr class 8) (pd_vendor d) = true) as -> by (rw Hw; by destruct Hk as [-> | ->]).
    wp_step. apply (wp_gets id). apply wp_bind, (wp_from_option _ i); [by rw /nvfs_create_gpu_hash_entry Hnz|].
    rw Hne. wp_step. apply wp_modify. wp_step. exists i. by rw /kept.
  - rw Hk. assert (PCI_DEV_GPU (Z.shiftr PCI_CLASS_STORAGE_EXPRESS 8) (pd_vendor d) = false) as -> by (rw /PCI_DEV_GPU /= andb_false_r //).
    change (PCI_DEV_IB _ || PCI_DEV_NVME _) with true. cbv iota.
    wp_step. apply (wp_gets id). apply wp_bind, (wp_from_option _ i); [by rw /nvfs_create_peer_hash_entry Hnz|].
    rw Hne. wp_step. apply wp_modify. wp_step. exists i. by rw /kept.
Qed.

Lemma kept_trans w t1 t2 t3 : kept w t1 t2 → kept w t2 t3 → kept w t1 t3.
Proof. intros (H1 & H2 & H3) (H4 & H5 & H6). rw /kept H4 H5 H6. done. Qed.

(** A scan adds the devices it looks for, when there is room, and keeps no reference. *)
Lemma wp_find w class : kind_ok w class → ∀ ds t done_ from count,
  slots w t done_ → (∀ d, d ∈ ds → d ∈ pci_devices ∧ pd_class d = class ∧ (wants w d → nvfs_pdevinfo d ≠ 0)) →
  (length done_ + length (filter (wants w) ds) ≤ 64)%nat → 0 ≤ count ≤ Z.of_nat (length done_) →
  wp (find_device_paths w 64 class from ds count) (λ _ t',
    slots w t' (done_ ++ filter (wants w) ds) ∧ kept w t t' ∧ t_refs t' = t_refs t - c_bool from) t.
Proof.
  intros Hk. induction ds as [|d ds IH]; intros t done_ from count S Hds Hlen Hcount; cbn [find_device_paths]; wp_step; apply wp_modify.
  { wp_step. rw filter_nil app_nil_r. split; [eapply (slots_ext w t); by destruct w|]. rw /kept. split; [by destruct w|]. simpl. lia. }
  destruct (Hds d) as (Hd & Hclass & Hz); [by left|]. destruct (pl_bus d Hd) as (dom & num & Hb & _).
  wp_step. apply wp_modify. rw Hb bool_decide_true; [|by eexists]. cbn [negb]. cbv iota. rw Hclass Z.eqb_refl. cbn [negb]. cbv iota.
  set (t1 := upd _ _ _). assert (slots w t1 done_) as S1 by (eapply (slots_ext w t); by destruct w).
  assert (kept w t t1 ∧ t_refs t1 = t_refs t - c_bool from + 1) as [K1 R1] by (split; [by destruct w|simpl; lia]).
  assert (∀ e, e ∈ ds → e ∈ pci_devices ∧ pd_class e = class ∧ (wants w e → nvfs_pdevinfo e ≠ 0)) as Hds' by (intros e He; apply Hds; by right).
  wp_step. destruct (decide (wants w d)) as [Hw|Hw]; cycle 1.
  { eapply wp_of_run; [by eapply claim_skips|]. cbv beta iota. rw filter_cons_False // in Hlen. rw filter_cons_False //.
    eapply wp_mono; [by eapply IH|]. intros _ t2 (S2 & K2 & R2). split; [done|]. split; [by eapply kept_trans|]. rw R2 R1 /=. lia. }
  specialize (Hz Hw). rw filter_cons_True // in Hlen. rw filter_cons_True //. simpl in Hlen.
  eapply wp_mono; [by eapply (wp_claim w); try done; lia|]. intros r t2 (i & -> & Hi & H0 & Ht & Hm & K2 & R2). cbv beta iota.
  assert ((i =? T_UINT_MAX) = false) as -> by (apply Z.eqb_neq; rw /T_UINT_MAX; lia).
  assert (mp w t2 !! Z.to_nat i = Some zero_row) as Hrow.
  { rw Hm. destruct (sl_only _ _ _ S1 _ _ H0) as [[_ ?]|(e & He & Hze & _)]; [done|]. by destruct (sl_nonzero _ _ _ S1 e He). }
  wp_step. rw /get_row. wp_step. wp_step. apply (wp_from_option _ zero_row); [by destruct w|]. wp_step. rw /set_row. apply wp_modify.
  set (t3 := match w with GpuMap => _ | PeerMap => _ end).
  assert (slots w t3 (done_ ++ [d])) as S3.
  { eapply (slots_add w t1 done_ d (Z.to_nat i) t3); [done..|by apply ent_nonzero|destruct w; exact Ht|]. rw -Hm. by destruct w. }
  assert (kept w t t3) as K3 by (eapply kept_trans; [exact K1|]; eapply kept_trans; [exact K2|by destruct w]).
  assert (t_refs t3 = t_refs t - c_bool from + 1) as R3 by (rw -R1 -R2; by destruct w).
  destruct (Z.leb_spec 64 (count + 1)).
  - apply wp_modify. assert (filter (wants w) ds = []) as -> by (apply nil_length_inv; lia).
    split; [eapply (slots_ext w t3); by destruct w|]. split; [eapply kept_trans; [exact K3|by destruct w]|]. simpl. lia.
  - eapply wp_mono; [eapply (IH t3 (done_ ++ [d])); try done; rw length_app /=; lia|].
    intros _ t4 (S4 & K4 & R4). rw -app_assoc in S4. split; [done|]. split; [by eapply kept_trans|]. rw R4 R3 /=. lia.
Qed.

(** A device in the table is found under its address, with its path. *)
Lemma lookup_finds w t ds d : slots w t ds → (∀ e, e ∈ ds → e ∈ pci_devices) → d ∈ ds → nvfs_pdevinfo d ≠ 0 →
  ∃ i, _lookup_index_entry (nvfs_pdevinfo d) (tbl w t) 64 = Some i ∧ 0 ≤ i < 64 ∧
    tbl w t !! Z.to_nat i = Some (ent w d) ∧ mp w t !! Z.to_nat i = Some (path_row d).
Proof.
  intros S Hds Hd Hz.
  destruct (probe_full (λ v, Z.land v NVFS_PDEVINFO_INFO_MASK =? nvfs_pdevinfo d) (tbl w t) 64 (hashfn (nvfs_pdevinfo d) mod 64))
    as (r & Hr & Hcase); [done|apply (sl_tbl _ _ _ S)|by apply Z.mod_pos_bound|]. exists r. split; [done|].
  destruct Hcase as [(Hrange & v & Hv & Heq%Z.eqb_eq)|[_ Hno]]; cycle 1.
  { destruct (sl_in _ _ _ S d Hd) as (i & Hi & _). specialize (Hno i _ Hi). simpl in Hno. rw ent_masked in Hno; [|by apply Hds].
    by rw Z.eqb_refl in Hno. }
  split; [done|]. destruct (sl_only _ _ _ S _ _ Hv) as [[-> _]|(e & He & -> & Hp)]; [by rw Z.land_0_l in Heq|].
  rw ent_masked in Heq; [|by apply Hds]. assert (e = d) as -> by (apply pl_addr; auto). done.
Qed.
End slots.

(** ** Paths *)

Section paths.
Context {E : pci_env} {L : pci_laws}.

Lemma bridges_in n d b : d ∈ pci_devices → b ∈ bridges n d → b ∈ pci_devices.
Proof.
  revert d. induction n as [|n IH]; intros d Hd; simpl; [by intros ?%elem_of_nil|].
  destruct (pci_upstream_bridge d) as [u|] eqn:Hu; [|by intros ?%elem_of_nil].
  pose proof (pl_up d u Hd Hu) as Hub. intros [-> |Hb]%elem_of_cons; [done|]. by apply (IH u).
Qed.

(** After a bridge without one above it a path ends, and one that is not cut off ends
    with such a bridge. *)
Lemma bridges_end n d l1 b l2 : bridges n d = l1 ++ b :: l2 → pci_upstream_bridge b = None → l2 = [].
Proof.
  revert d l1. induction n as [|n IH]; intros d l1; simpl; [by destruct l1|].
  destruct (pci_upstream_bridge d) as [u|]; [|by destruct l1]. destruct l1 as [|x l1]; simpl; intros [= <- Hl] Hb.
  - subst. destruct n; [done|]. simpl. by rw Hb.
  - by eapply IH.
Qed.
Lemma bridges_last n d l b : bridges n d = l ++ [b] → (length (bridges n d) < n)%nat → pci_upstream_bridge b = None.
Proof.
  revert d l. induction n as [|n IH]; intros d l; simpl; [lia|].
  destruct (pci_upstream_bridge d) as [u|]; [|by destruct l]. destruct l as [|x l]; simpl; intros [= <- Hl] Hlt.
  - destruct n; simpl in *; [lia|]. destruct (pci_upstream_bridge u); [done|done].
  - apply (IH u l Hl). lia.
Qed.

Definition infos (d : pci_dev) : list Z := bridge_info <$> above d.

Lemma path_loop_spec n k row d : d ∈ pci_devices → (n + k ≤ length row)%nat →
  path_loop n k row d = take k row ++ (bridge_info <$> bridges n d) ++ drop (k + length (bridges n d)) row.
Proof.
  revert k row d. induction n as [|n IH]; intros k row d Hd Hlen; simpl; [by rw Nat.add_0_r take_drop|].
  destruct (pci_upstream_bridge d) as [b|] eqn:Hb; simpl; [|by rw Nat.add_0_r take_drop].
  pose proof (pl_up d b Hd Hb) as Hbd. destruct (pl_bus b Hbd) as (dom & num & -> & _).
  rw IH // ?length_insert; [|lia]. rw (take_S_r _ _ (bridge_info b)); [|apply list_lookup_insert_eq; lia].
  rw take_insert_ge // drop_insert_lt; [|lia]. rw -app_assoc /=. do 2 f_equal. by rw -Nat.add_succ_r.
Qed.

(** A row is the path padded with zeros, or the mark of a device without bridges. *)
Lemma path_row_spec d : d ∈ pci_devices →
  path_row d = if decide (above d = []) then PCI_NULL_DEV_NORP :: replicate 15 0 else infos d ++ replicate (16 - length (infos d)) 0.
Proof.
  intros Hd. rw /path_row /device_path. destruct (pd_root d) eqn:Hr.
  - rw (pl_root d Hd) in Hr. rw decide_True; [done|]. rw /above /= Hr. done.
  - assert (above d ≠ []) as Hne.
    { intros Ha. assert (pci_upstream_bridge d = None) as Hu.
      { rw /above /= in Ha. by destruct (pci_upstream_bridge d). }
      rw -(pl_root d Hd) Hr // in Hu. }
    rw decide_False // path_loop_spec //= /infos /above length_fmap. f_equal. by rw /zero_row drop_replicate.
Qed.
End paths.

(** ** Distances of two rows *)

Lemma highest_pad l x k m : x ≠ 0 → (k ≤ m)%nat →
  highest_bridge (length (l ++ [x]) + k) ((l ++ [x]) ++ replicate m 0) = Some (Z.of_nat (length l), x).
Proof.
  intros Hx. induction k as [|k IH]; intros Hk.
  - rw Nat.add_0_r length_app Nat.add_1_r /= -app_assoc list_lookup_middle //=. destruct (Z.eqb_spec x 0); [done|]. done.
  - rw Nat.add_succ_r /= lookup_app_r; [|lia]. replace (length (l ++ [x]) + k - length (l ++ [x]))%nat with k by lia.
    rw lookup_replicate_2; [|lia]. simpl. apply IH. lia.
Qed.

Lemma scan_hit n pre b info r : Forall (.≠ 0) b → info ∉ b → info ≠ 0 → (length b < n)%nat →
  scan_peer n (length pre) (pre ++ b ++ info :: r) info =
  Some ((length pre + length b)%nat, Z.of_nat (length pre + length b) + 1, true).
Proof.
  intros Hb Hni Hi. revert n pre. induction b as [|x b IH]; intros n pre Hn; (destruct n as [|n]; [simpl in Hn; lia|]); simpl.
  - rw list_lookup_middle //=. destruct (Z.eqb_spec info 0); [done|]. by rw Z.eqb_refl Nat.add_0_r.
  - rw list_lookup_middle //=. apply Forall_cons in Hb as [Hx Hb]. apply not_elem_of_cons in Hni as [Hne Hni].
    destruct (Z.eqb_spec x 0); [done|]. destruct (Z.eqb_spec info x); [done|].
    specialize (IH Hb Hni n (pre ++ [x])). rw length_app /= in IH. replace (S (length pre)) with (length pre + 1)%nat by lia.
    replace (pre ++ x :: b ++ info :: r) with ((pre ++ [x]) ++ b ++ info :: r) by (rw -app_assoc //).
    rw IH; [|simpl in Hn; lia]. by replace (length pre + 1 + length b)%nat with (length pre + S (length b))%nat by lia.
Qed.

Lemma scan_miss n pre l info m : Forall (.≠ 0) l → info ∉ l → (length l < n)%nat → (0 < m)%nat →
  scan_peer n (length pre) (pre ++ l ++ replicate m 0) info =
  Some ((length pre + length l)%nat, Z.of_nat (length pre + length l), false).
Proof.
  intros Hl Hni Hn Hm. revert n pre Hn. induction l as [|x l IH]; intros n pre Hn; (destruct n as [|n]; [simpl in Hn; lia|]); simpl.
  - rw lookup_app_r // Nat.sub_diag lookup_replicate_2 //= Nat.add_0_r //.
  - rw list_lookup_middle //=. apply Forall_cons in Hl as [Hx Hl]. apply not_elem_of_cons in Hni as [Hne Hni].
    destruct (Z.eqb_spec x 0); [done|]. destruct (Z.eqb_spec info x); [done|].
    specialize (IH Hl Hni n (pre ++ [x])). rw length_app /= in IH. replace (S (length pre)) with (length pre + 1)%nat by lia.
    replace (pre ++ x :: l ++ replicate m 0) with ((pre ++ [x]) ++ l ++ replicate m 0) by (rw -app_assoc //).
    rw IH; [|simpl in Hn; lia]. by replace (length pre + 1 + length l)%nat with (length pre + S (length l))%nat by lia.
Qed.

(** Down the common part [c] of both paths. *)
Lemma descend_spec a b c r1 r2 lc dist :
  (∀ x y, last a = Some x → last b = Some y → x ≠ y) → Z.of_nat (length a) + Z.of_nat (length b) + 2 * Z.of_nat (length c) < 2 ^ 31 →
  descend (length a + length c) (length b + length c) (a ++ c ++ r1) (b ++ c ++ r2)
    (Z.of_nat (length a + length c)) (Z.of_nat (length b + length c)) lc dist =
  Some (if decide (c = []) then (lc, dist) else (Z.of_nat (length a), Z.of_nat (length a) + Z.of_nat (length b) + 1)).
Proof.
  intros Hab. revert r1 r2 lc dist. induction c as [|x c IH] using rev_ind; intros r1 r2 lc dist Hlen.
  - destruct (decide _) as [_|]; [|done]. cbn [length app]. rw !Nat.add_0_r. destruct a as [|y a _] using rev_ind; [done|]. destruct b as [|z b _] using rev_ind.
    { by rw length_app Nat.add_1_r. }
    rw !length_app !Nat.add_1_r /= -!app_assoc !list_lookup_middle //=. destruct (Z.eqb_spec y z) as [->|]; [|done].
    by destruct (Hab z z); [apply last_snoc..|].
  - destruct (decide (c ++ [x] = [])) as [[_ Hc]%app_nil|_]; [done|]. rw length_app in Hlen. rw !length_app !Nat.add_assoc !Nat.add_1_r. cbn [descend].
    rw -!app_assoc !(app_assoc _ c) !list_lookup_middle; [|rw length_app //..]. cbn [mbind option_bind]. rw Z.eqb_refl.
    rw -!(app_assoc _ c). replace (Z.of_nat (S (length a + length c)) - 1) with (Z.of_nat (length a + length c)) by lia.
    replace (Z.of_nat (S (length b + length c)) - 1) with (Z.of_nat (length b + length c)) by lia.
    simpl in Hlen. rw IH; [|lia]. f_equal. destruct (decide (c = [])) as [->|]; [|done]. simpl. rw !Nat.add_0_r u32_id; [|lia]. done.
Qed.

Lemma common_prefix_split {A} `{EqDecision A} (l k : list A) : ∃ l' k',
  l = common_prefix l k ++ l' ∧ k = common_prefix l k ++ k' ∧ (∀ x y, head l' = Some x → head k' = Some y → x ≠ y).
Proof.
  revert k. induction l as [|x l IH]; intros [|y k]; simpl; [by do 2 eexists..|].
  destruct (decide (x = y)) as [->|Hne]; [|by exists (x :: l), (y :: k); split_and!; [..|naive_solver]].
  destruct (IH k) as (l' & k' & Hl & Hk & Hd). exists l', k'. split; [simpl; by f_equal|]. split; [simpl; by f_equal|done].
Qed.

(** ** The distance of two devices *)

Section distance.
Context {E : pci_env} {L : pci_laws}.

(** The addresses of a device and of the bridges above it are numbers other than 0, and
    its path is shorter than a row. *)
Definition usual (d : pci_dev) : Prop := Forall (λ b, nvfs_pdevinfo b ≠ 0) (d :: above d) ∧ (length (above d) < MAX_PCI_DEPTH)%nat.

Lemma usual_addr d : usual d → nvfs_pdevinfo d ≠ 0.
Proof. by intros [[? _]%Forall_cons _]. Qed.
Lemma usual_above d b : usual d → b ∈ above d → nvfs_pdevinfo b ≠ 0.
Proof. intros [[_ Hall]%Forall_cons _]. rw list.Forall_forall in Hall. apply Hall. Qed.

Lemma bridge_nonzero d : d ∈ pci_devices → nvfs_pdevinfo d ≠ 0 → bridge_info d ≠ 0.
Proof. intros Hd Hz Hx. apply Hz. by rw -(bridge_masked d Hd) Hx. Qed.

Lemma above_in d b : d ∈ pci_devices → b ∈ above d → b ∈ pci_devices.
Proof. apply bridges_in. Qed.

Lemma above_nonzero d b : d ∈ pci_devices → usual d → b ∈ above d → bridge_info b ≠ 0.
Proof. intros Hd Hu Hb. apply bridge_nonzero; [by apply (above_in d)|by apply (usual_above d)]. Qed.

Lemma infos_nonzero d : d ∈ pci_devices → usual d → Forall (.≠ 0) (infos d).
Proof.
  intros Hd Hu. rw /infos Forall_fmap list.Forall_forall. intros b Hb. by apply (above_nonzero d).
Qed.

(** The highest bridge above the GPU is above the peer only as its highest one. *)
Lemma top_shared g p G x : g ∈ pci_devices → p ∈ pci_devices → usual g → above g = G ++ [x] → bridge_info x ∈ infos p →
  ∃ P, above p = P ++ [x].
Proof.
  intros Hg Hp [_ Hl] Hag Hin. apply list_elem_of_fmap in Hin as (y & Hxy & Hy).
  assert (x ∈ pci_devices) as Hx by (apply (above_in g); [done|]; rw Hag; set_solver).
  apply bridge_info_inj in Hxy as <-; [|done|by apply (above_in p)].
  assert (pci_upstream_bridge x = None) as Hroot.
  { exact (bridges_last MAX_PCI_DEPTH g G x Hag Hl). }
  apply list_elem_of_split in Hy as (P & r & HP). exists P. rw HP. by rw (bridges_end _ _ _ _ _ HP Hroot).
Qed.

(** The parts of two paths below their common bridges. *)
Lemma shared_split g p : ∃ A B, above g = A ++ reverse (shared g p) ∧ above p = B ++ reverse (shared g p) ∧
  (∀ x y, last A = Some x → last B = Some y → x ≠ y).
Proof.
  destruct (common_prefix_split (reverse (above g)) (reverse (above p))) as (l & k & Hl & Hk & Hd).
  exists (reverse l), (reverse k). rw /shared -!reverse_app -Hl -Hk !reverse_involutive.
  split; [done|]. split; [done|]. intros x y Hx Hy. apply Hd; by rw ?last_reverse in Hx Hy.
Qed.

Lemma shared_nil_top g p G x P : above g = G ++ [x] → above p = P ++ [x] → shared g p ≠ [].
Proof. intros Hg Hp. rw /shared Hg Hp !reverse_snoc /=. by rw decide_True. Qed.

(** The first entry of a row is never empty. *)
Lemma row_first d : d ∈ pci_devices → usual d → ∃ v, path_row d !! 0%nat = Some v ∧ (v =? 0) = false ∧
  (v =? PCI_NULL_DEV_NORP) = bool_decide (above d = []).
Proof.
  intros Hd Hu. rw path_row_spec //. destruct (decide (above d = [])) as [He|Hne].
  - exists PCI_NULL_DEV_NORP. by rw bool_decide_true.
  - rw /infos. rw bool_decide_false //. pose proof (above_in d) as Hin. pose proof (usual_above d) as Hua. destruct (above d) as [|b l]; [done|]. exists (bridge_info b).
    assert (b ∈ pci_devices) as Hb by (apply Hin; [done|set_solver]).
    split; [done|]. split; apply Z.eqb_neq; [apply bridge_nonzero; [done|apply Hua; [done|by left]]|by apply bridge_not_norp].
Qed.

Section pair.
Context (t : topo) (gi pi : Z) (g p : pci_dev).
Context (Hgi : 0 ≤ gi < 64) (Hpi : 0 ≤ pi < 64) (Hg : g ∈ pci_devices) (Hp : p ∈ pci_devices) (Ug : usual g) (Up : usual p).
Context (Hgt : gpu_info_table t !! Z.to_nat gi = Some (leaf_info g)) (Hpt : peer_info_table t !! Z.to_nat pi = Some (peer_entry p)).
Context (Hgr : gpu_bdf_map t !! Z.to_nat gi = Some (path_row g)) (Hpr : peer_bdf_map t !! Z.to_nat pi = Some (path_row p)).

Lemma islocal_spec : nvfs_gpu2peer_islocal t gi pi = Some (is_local g p).
Proof.
  rw /nvfs_gpu2peer_islocal /__nvfs_gpu2peer_numa_distance Hgt Hpt /= /is_local.
  rw (entry_node g); [|done|by apply leaf_masked]. rw (entry_node p); [|done|by apply peer_masked].
  by destruct (pcibus_to_node g <? 0), (pcibus_to_node p <? 0).
Qed.

(** Without a common bridge. *)
Lemma scan_apart info : shared g p = [] → (above g = [] ∧ info = PCI_NULL_DEV_NORP ∨ ∃ G x, above g = G ++ [x] ∧ info = bridge_info x) →
  above p ≠ [] → scan_peer MAX_PCI_DEPTH 0 (path_row p) info = Some (length (above p), Z.of_nat (length (above p)), false).
Proof.
  intros Hs Hinfo Hne. rw path_row_spec // decide_False //. pose proof (proj2 Up) as Hlen.
  assert (length (infos p) = length (above p)) as Hli by apply length_fmap. rw -Hli in Hlen |- *.
  apply (scan_miss _ []); [by apply infos_nonzero| |done|rw /MAX_PCI_DEPTH in Hlen; lia].
  destruct Hinfo as [[_ ->]|(G & x & HG & ->)].
  - intros (b & Hb & Hin)%list_elem_of_fmap. destruct (bridge_not_norp b); [by eapply above_in|done].
  - intros Hin. destruct (top_shared g p G x Hg Hp Ug HG Hin) as [P HP]. by destruct (shared_nil_top g p G x P).
Qed.

Lemma highest_row G x : above g = G ++ [x] → highest_bridge MAX_PCI_DEPTH (path_row g) = Some (Z.of_nat (length G), bridge_info x).
Proof.
  intros HG. assert (x ∈ pci_devices) as Hx by (apply (above_in g); [done|]; rw HG; set_solver).
  pose proof (proj2 Ug) as Hlen. rw HG length_app /= /MAX_PCI_DEPTH in Hlen.
  rw path_row_spec // decide_False; [|rw HG; by destruct G]. rw /infos HG fmap_app length_app length_fmap /=.
  assert (bridge_info x ≠ 0) as Hxz by (apply (above_nonzero g); [done..|]; rw HG; set_solver).
  pose proof (highest_pad (bridge_info <$> G) (bridge_info x) (16 - (length G + 1)) (16 - (length G + 1)) Hxz ltac:(lia)) as Hp'.
  rw length_app !length_fmap /= in Hp'. by replace (length G + 1 + (16 - (length G + 1)))%nat with MAX_PCI_DEPTH in Hp' by (rw /MAX_PCI_DEPTH; lia).
Qed.

Lemma in_range_pair : (MAX_GPU_DEVS <=? gi) || (MAX_PEER_DEVS <=? pi) = false.
Proof. rw orb_false_iff !Z.leb_gt /MAX_GPU_DEVS /MAX_PEER_DEVS. lia. Qed.

Lemma distance_apart : shared g p = [] → __nvfs_get_gpu2peer_distance t gi pi = Some (tree_distance g p).
Proof.
  intros Hs. rw /__nvfs_get_gpu2peer_distance in_range_pair. rw Hgr Hpr. cbn [mbind option_bind].
  destruct (row_first g Hg Ug) as (g0 & Hg0 & Hgz & Hgn). destruct (row_first p Hp Up) as (p0 & Hp0 & Hpz & Hpn).
  rw Hg0 Hp0. cbn [mbind option_bind]. rw Hgz Hpz Hgn Hpn. rw /tree_distance Hs. cbn [last].
  assert (∃ i info, (if bool_decide (above g = []) then Some (0, 0, PCI_NULL_DEV_NORP)
      else '(i, v) ← highest_bridge MAX_PCI_DEPTH (path_row g); Some (i, i + 1, v)) = Some (i, Z.of_nat (length (above g)), info) ∧
    info ≠ 0 ∧ (above g = [] ∧ info = PCI_NULL_DEV_NORP ∨ ∃ G x, above g = G ++ [x] ∧ info = bridge_info x)) as (i & info & -> & Hi0 & Hinfo).
  { destruct (bool_decide_reflect (above g = [])) as [Hne|Hne]; [exists 0, PCI_NULL_DEV_NORP; rw Hne; split; [done|]; split; [done|]; by left|].
    destruct (exists_last Hne) as [G [x HG]]. exists (Z.of_nat (length G)), (bridge_info x).
    assert (x ∈ pci_devices) as Hx by (apply (above_in g); [done|]; rw HG; set_solver).
    split; [|split; [apply (above_nonzero g); [done..|rw HG; set_solver]|right; by exists G, x]].
    rw (highest_row G x HG) HG length_app /=. do 3 f_equal. lia. }
  cbn [mbind option_bind]. destruct (Z.eqb_spec info 0); [done|].
  assert (∃ j, (if bool_decide (above p = []) then Some (0%nat, 0, false) else scan_peer MAX_PCI_DEPTH 0 (path_row p) info) =
    Some (j, Z.of_nat (length (above p)), false)) as (j & ->).
  { destruct (bool_decide_reflect (above p = [])) as [Hne|Hne]; [exists 0%nat; by rw Hne|]. eexists. by apply scan_apart. }
  cbn [mbind option_bind negb]. cbv iota. rw islocal_spec. done.
Qed.

(** With a common bridge the scan of the peer's path stops at the highest one. *)
Lemma scan_together l x : (∃ G, above g = G ++ [x]) → above p = l ++ [x] →
  scan_peer MAX_PCI_DEPTH 0 (path_row p) (bridge_info x) = Some (length l, Z.of_nat (length l) + 1, true).
Proof.
  intros [G HG] HP. assert (x ∈ pci_devices) as Hx by (apply (above_in g); [done|]; rw HG; set_solver).
  assert (pci_upstream_bridge x = None) as Hroot.
  { pose proof (proj2 Ug) as Hl. exact (bridges_last MAX_PCI_DEPTH g G x HG Hl). }
  pose proof (proj2 Up) as Hlen. rw HP length_app /= /MAX_PCI_DEPTH in Hlen.
  pose proof (infos_nonzero p Hp Up) as Hnz. rw path_row_spec // decide_False; [|rw HP; by destruct l]. rw /infos HP fmap_app in Hnz |- *.
  apply Forall_app in Hnz as [Hnz _]. rw -app_assoc -(length_fmap bridge_info l). apply (scan_hit MAX_PCI_DEPTH [] (bridge_info <$> l)); [done| |apply (above_nonzero g); [done..|rw HG; set_solver]|].
  - intros (y & Hxy & Hy)%list_elem_of_fmap. assert (y ∈ above p) as Hya by (rw HP; set_solver).
    apply bridge_info_inj in Hxy as <-; [|done|by apply (above_in p)].
    apply list_elem_of_split in Hy as (l1 & l2 & ->). rw -app_assoc /= in HP. pose proof (bridges_end _ _ _ _ _ HP Hroot). by destruct l2.
  - rw length_fmap /MAX_PCI_DEPTH. lia.
Qed.

Lemma last_infos_differ A B : (∀ b, b ∈ A → b ∈ pci_devices) → (∀ b, b ∈ B → b ∈ pci_devices) →
  (∀ x y, last A = Some x → last B = Some y → x ≠ y) →
  ∀ x y, last (bridge_info <$> A) = Some x → last (bridge_info <$> B) = Some y → x ≠ y.
Proof.
  intros HA HB Hd x y. rw !fmap_last. destruct (last A) as [a|] eqn:Ha; [|done]. destruct (last B) as [b|] eqn:Hb; [|done].
  intros [= <-] [= <-] Heq. apply (Hd a b); [done..|]. apply bridge_info_inj; [apply HA|apply HB|done]; by apply last_Some_elem_of.
Qed.

(** A row begins with the path. *)
Lemma row_split d G x C A : d ∈ pci_devices → above d = G ++ [x] → G ++ [x] = A ++ C →
  ∃ r, path_row d = (bridge_info <$> A) ++ (bridge_info <$> C) ++ r.
Proof.
  intros Hd HG HC. rw path_row_spec // decide_False; [|rw HG; by destruct G]. rw /infos HG HC fmap_app -app_assoc. by eexists.
Qed.

Lemma distance_together : shared g p ≠ [] → __nvfs_get_gpu2peer_distance t gi pi = Some (tree_distance g p).
Proof.
  intros Hs. destruct (shared_split g p) as (A & B & HA & HB & HAB).
  assert (reverse (shared g p) ≠ []) as Hc by (intros Hr; apply Hs; by rw -(reverse_involutive (shared g p)) Hr).
  assert (length (shared g p) = length (reverse (shared g p))) as Hls by (by rw length_reverse).
  assert (last (shared g p) = head (reverse (shared g p))) as Hlast by (by rw head_reverse).
  rw /tree_distance Hls Hlast HA HB. set (C := reverse (shared g p)) in *. clearbody C.
  destruct (exists_last Hc) as [c [x HC]]. rw HC !app_assoc in HA HB.
  pose proof (above_in g) as Hing. pose proof (above_in p) as Hinp.
  destruct (row_first g Hg Ug) as (g0 & Hg0 & Hgz & Hgn). destruct (row_first p Hp Up) as (p0 & Hp0 & Hpz & Hpn).
  rw bool_decide_false in Hgn; [|rw HA; by destruct A, c]. rw bool_decide_false in Hpn; [|rw HB; by destruct B, c].
  assert (bridge_info x ≠ 0) as Hxz by (apply (above_nonzero g); [done..|]; rw HA; set_solver).
  rw /__nvfs_get_gpu2peer_distance in_range_pair Hgr Hpr. cbn [mbind option_bind]. rw Hg0 Hp0. cbn [mbind option_bind]. rw Hgz Hpz Hgn Hpn.
  rw (highest_row _ _ HA). cbn [mbind option_bind]. destruct (Z.eqb_spec (bridge_info x) 0); [done|].
  rw (scan_together (B ++ c) x) //; [|by exists (A ++ c)]. cbn [mbind option_bind negb]. cbv iota.
  assert (length (bridge_info <$> C) = S (length c)) as HlC by (rw length_fmap HC length_app /=; lia).
  pose proof (row_split g (A ++ c) x C A Hg HA ltac:(by rw HC app_assoc)) as [r1 Hr1]. pose proof (row_split p (B ++ c) x C B Hp HB ltac:(by rw HC app_assoc)) as [r2 Hr2].
  pose proof (proj2 Ug) as Hlg. pose proof (proj2 Up) as Hlp. rw HA !length_app /= /MAX_PCI_DEPTH in Hlg. rw HB !length_app /= /MAX_PCI_DEPTH in Hlp.
  replace (Z.to_nat (Z.of_nat (length (A ++ c)) + 1)) with (length (bridge_info <$> A) + length (bridge_info <$> C))%nat
    by (rw HlC length_fmap length_app; lia).
  replace (S (length (B ++ c))) with (length (bridge_info <$> B) + length (bridge_info <$> C))%nat by (rw HlC length_fmap length_app; lia).
  replace (Z.of_nat (length (A ++ c)) + 1) with (Z.of_nat (length (bridge_info <$> A) + length (bridge_info <$> C)))
    by (rw HlC length_fmap length_app; lia).
  replace (Z.of_nat (length (B ++ c)) + 1) with (Z.of_nat (length (bridge_info <$> B) + length (bridge_info <$> C)))
    by (rw HlC length_fmap length_app; lia).
  rw Hr1 Hr2 descend_spec; [|eapply last_infos_differ; [..|exact HAB]; intros b Hb; [apply Hing|apply Hinp]; rw ?HA ?HB //; set_solver
    |rw HlC !length_fmap; lia].
  destruct (decide _) as [Hn|_]; [by rw Hn in HlC|]. cbn [mbind option_bind]. rw !length_fmap.
  destruct C as [|y C]; [done|]. cbn [head]. rw fmap_cons /= length_fmap in HlC. injection HlC as HlC.
  assert (y ∈ pci_devices) as Hy by (apply Hing; [done|]; rw HA -app_assoc -HC; set_solver).
  destruct (Z.ltb_spec 0 (Z.of_nat (length A))).
  - rw Nat2Z.id lookup_app_r; [|rw length_fmap //]. rw length_fmap Nat.sub_diag. cbn [fmap list_fmap app lookup list_lookup mbind option_bind].
    rw bridge_acs //. f_equal. rw !length_app /=. destruct (Z.ltb_spec (Z.of_nat (S (length C))) (Z.of_nat (length A + S (length C)))); [|lia].
    destruct (nvfs_pcie_acs_enabled y); cbn [andb]; [|lia]. rw u32_id; lia.
  - f_equal. rw !length_app /=. destruct (Z.ltb_spec (Z.of_nat (S (length C))) (Z.of_nat (length A + S (length C)))); [lia|].
    rw andb_false_r. lia.
Qed.

Lemma distance_exact : __nvfs_get_gpu2peer_distance t gi pi = Some (tree_distance g p).
Proof. destruct (decide (shared g p = [])); [by apply distance_apart|by apply distance_together]. Qed.
End pair.
End distance.
