(* ===== verification/SpecQueues.v ===== *)
(** * What the queue interface guarantees

    The theorems about user queues: their ids, their creation and their
    destruction, stated of every reachable state of the module. *)
From S2P Require Import Prelude KState P2p Ctrl Map QidPool QGroup Inv.
From S2P Require Import DevIoctl DevFile DevInv AddQueue DevStep Control ControlInv System.
From S2P Require Import Machine.

Section spec.
Context {E : kenv} {EL : kenv_laws E} {B : P2pBackend} {BL : P2pLaws B}.

(** C1.  In every reachable state the ids marked as taken in a controller's
    pool are exactly the ids of the live queues of the files open on it, and no
    two live queues of a controller share an id.  Reachable: by any sequence of
    calls that return, with any arguments and answers, on files and the control
    device, each call atomic, in which no controller is removed while a file is
    open on it and at most eight controllers exist. *)
Theorem queue_ids_unique s c x :
  reachable s → k_ctrls s !! c = Some x →
  ∃ U, pool_wf x U ∧ (∀ q, q ∈ U ↔ ∃ k, live_slot s c k q) ∧
    (∀ k k' q, live_slot s c k q → live_slot s c k' q → k = k').
Proof. intros Hs Hx. exact (inv_qids s (reachable_Inv s Hs) c x Hx). Qed.


(** The ids of a controller, whatever set the pool is read as. *)
Lemma pool_live s c x U :
  Inv s → k_ctrls s !! c = Some x → pool_wf x U → ∀ q, q ∈ U ↔ ∃ k, live_slot s c k q.
Proof.
  intros H Hx Hwf. destruct (inv_qids s H c x Hx) as (U' & Hwf' & HU & _).
  by rw (pool_wf_inj x U U').
Qed.

(** ** NVM_ADD_USER_QUEUE *)

(** C3.  NVM_ADD_USER_QUEUE returns, and when it returns 0 the requested pairs
    exist: their rings are maps of the caller's own group at the requested
    addresses, their ids are new and distinct, the controller was sent a
    successful Create CQ followed by Create SQ for each of them, the group
    records them, and the caller was given their doorbells. *)
Theorem add_user_queue_success s f F rq :
  reachable s → k_files s !! f = Some F → add_req_wf rq →
  ∃ r s', nvm_add_user_queue f (f_cdev F) rq s = Some (r, s') ∧
  (r = 0 → ∃ o O g G d nd rings qids ess,
     f_private F = Some o ∧ k_owners s !! o = Some O ∧ g ∈ o_groups O ∧
     k_groups s !! g = Some G ∧ g_group_id G = aq_group_id rq ∧ k_ndevs s !! d = Some nd ∧
     Forall2 (rings_of (k_maps s) (g_maps G)) (req_pairs rq) rings ∧
     NoDup qids ∧ Z.of_nat (length qids) = aq_nr_pairs rq ∧
     (∀ q, q ∈ qids → qid16 q ∧ ¬ ∃ k, live_slot s (f_cdev F) k q) ∧
     Forall2 (pair_created (k_maps s) d nd) (zip rings qids) ess ∧
     k_log s' = k_log s ++ concat ess ++ [EvCopyOut (OutPairs (pair_out nd <$> qids))] ∧
     k_groups s' = <[g := added_group G rq qids]> (k_groups s)).
Proof.
  intros Hs HF Hw. pose proof (reachable_Inv s Hs) as H.
  destruct (wp_run _ _ _ (wp_add_user_queue f F _ rq s H HF eq_refl Hw)) as (r & s' & Hr & Hpost).
  exists r, s'. split; [done|]. intros ->.
  destruct Hpost as [[? _]|(s0 & o & O & g & G & d & nd & x & U & rings & Hs0 & Ho & HO & Hg & HG &
    Hid & Hl & Hnd & Hx & Hc & Hwf & _ & Hr' & _ & _ & [[_ Hd]|[? _]])]; [done| |done].
  destruct Hs0 as (t0 & ->).
  destruct Hd as (x' & qids & ess & Hn & Hlq & H16 & Hfr & _ & _ & Hess & (t & ->)).
  exists o, O, g, G, d, nd, rings, qids, ess. do 9 (split; [done|]). split; [|split; [done|]].
  - intros q Hq. split; [by eapply Forall_forall|]. rw -(pool_live s _ x U H Hx Hwf). by apply Hfr.
  - simpl. by rw app_nil_r.
Qed.

(** C4.  NVM_ADD_USER_QUEUE is all or nothing: when it returns an error, no
    queue has been added or lost, no map or file has changed, and the commands
    sent to the controller leave it with exactly the queues it had before and
    those new ones whose deletion it refused, a refusal the rollback ignores; if
    it refused none, with the queues it had. *)
Theorem add_user_queue_failure s f F rq :
  reachable s → k_files s !! f = Some F → add_req_wf rq →
  ∃ r s', nvm_add_user_queue f (f_cdev F) rq s = Some (r, s') ∧
  (r ≠ 0 →
     (∀ c k q, live_slot s' c k q ↔ live_slot s c k q) ∧
     k_maps s' = k_maps s ∧ k_owners s' = k_owners s ∧
     ∃ es, k_log s' = k_log s ++ es ∧
       ∀ qs, (∀ b q, (b, q) ∈ qs → ∃ k, live_slot s (f_cdev F) k q) →
         (∀ b q, (b, q) ∈ dev_run es qs ↔ (b, q) ∈ qs ∨ (b, q) ∈ refused es) ∧
         (refused es = [] → dev_run es qs = qs)).
Proof.
  intros Hs HF Hw. pose proof (reachable_Inv s Hs) as H.
  destruct (wp_run _ _ _ (wp_add_user_queue f F _ rq s H HF eq_refl Hw)) as (r & s' & Hr & Hpost).
  exists r, s'. split; [done|]. intros Hne.
  destruct Hpost as [[_ (t & ->)]|(s0 & o & O & g & G & d & nd & x & U & rings & Hs0 & Ho & HO & Hg & HG &
    Hid & Hl & Hnd & Hx & Hc & Hwf & _ & Hr' & _ & _ & [[? _]|[_ Hu]])]; [|done|].
  { split; [done|]. split; [done|]. split; [done|]. exists []. split; [done|]. intros qs _.
    split; [|done]. intros b q. simpl. set_solver. }
  destruct Hs0 as (t0 & ->).
  destruct Hu as (x' & G' & es & _ & _ & Ha & _ & _ & Hno & (t & ->)). split_and!; try done.
  - intros c k q. exact (live_slot_group s g G G' c k q HG Ha).
  - exists es. split; [by rw /= app_nil_r|]. intros qs Hqs.
    assert (∀ b q, (b, q) ∈ dev_run es qs ↔ (b, q) ∈ qs ∨ (b, q) ∈ refused es) as Hrun.
    { apply Hno. intros b q Hin. by apply (pool_live s _ x U H Hx Hwf), (Hqs b). }
    split; [done|]. intros E0. apply set_eq. intros [b q]. rw Hrun E0. set_solver.
Qed.

(** ** Closing a file *)

(** C5.  [release] returns 0 and leaves nothing of the file behind: its
    descriptor and its groups are gone, and the maps that remain, on any of the
    three lists, are exactly those that were neither in one of its groups, nor
    among its data buffers, nor ungrouped maps of the task that opened it.  The
    last kind includes data buffers the task registered through another file,
    which the comments of the code call scoped to that file. *)
Theorem release_complete s f F o O :
  reachable s → k_files s !! f = Some F → f_private F = Some o → k_owners s !! o = Some O →
  ∃ s', snvm_dev_release f s = Some (0, s') ∧ k_owners s' !! o = None ∧
    k_files s' !! f = Some F<{f_private := None}> ∧
    (∀ g, g ∈ o_groups O → k_groups s' !! g = None) ∧
    (∀ p m, k_maps s' !! p = Some m ↔ k_maps s !! p = Some m ∧ ¬ released s O p).
Proof.
  intros Hs HF Hp HO. pose proof (reachable_Inv s Hs) as H.
  destruct (wp_run _ _ _ (wp_release f F o O s H HF Hp HO)) as
    (r & s' & Hr & -> & _ & Hf & Ho & Hg & Hm). by exists s'.
Qed.

(** ** Destroying a group *)

(** C6.  NVM_DESTROY_QUEUE_GROUP returns; when it returns 0, the group and its
    maps are gone.  If snvme drives the controller's device, it has first sent
    Delete SQ and then Delete CQ for each live queue of the group, last queue
    first, and only then released memory; if it does not, no command was sent. *)
Theorem destroy_group_order s f F gid :
  reachable s → k_files s !! f = Some F →
  ∃ r s', nvm_destroy_queue_group f (f_cdev F) gid s = Some (r, s') ∧
  (r = 0 → ∃ o O g G x adm mem,
     f_private F = Some o ∧ k_owners s !! o = Some O ∧ g ∈ o_groups O ∧
     k_groups s !! g = Some G ∧ g_group_id G = gid ∧ k_ctrls s !! o_ctrl O = Some x ∧
     k_log s' = k_log s ++ adm ++ mem ∧
     match live_ndev s x with
     | Some d => drained (Some d) (reverse (alive_qids (g_queues G))) adm
     | None => adm = []
     end ∧ Forall mem_event mem ∧
     k_groups s' !! g = None ∧ (∀ p, p ∈ g_maps G → k_maps s' !! p = None)).
Proof.
  intros Hs HF. pose proof (reachable_Inv s Hs) as H.
  destruct (wp_run _ _ _ (wp_destroy_group_spec f F _ gid s H HF eq_refl)) as (r & s' & Hr & _ & Hpost).
  exists r, s'. split; [done|]. intros ->. destruct Hpost as [[? _]|[_ (o & O & g & G & es & Hp)]]; [done|].
  destruct Hp as (Ho & HO & Hg & HG & Hid & _ & (x & adm & mem & Hx & -> & Hdr & Hmem) & Hlog & Hgn & Hmn).
  exists o, O, g, G, x, adm, mem. do 7 (split; [done|]). split; [|done].
  destruct (live_ndev s x); [done|]. by eapply drained_none.
Qed.

(** C7.  A file cannot reach the group of another file.  NVM_DESTROY_QUEUE_GROUP
    and NVM_ADD_USER_QUEUE naming an id that none of the file's own groups has
    are errors that change nothing; so is a mapping of host or device memory, of
    a size that fits and of any kind but DATA, that names such an id other than 0.
    (A mapping of kind DATA belongs to the file, and its group id is ignored.) *)
Theorem group_isolation s f F o O gid :
  reachable s → k_files s !! f = Some F → f_private F = Some o → k_owners s !! o = Some O →
  (∀ g G, g ∈ o_groups O → k_groups s !! g = Some G → g_group_id G ≠ gid) →
  (∃ r s', nvm_destroy_queue_group f (f_cdev F) gid s = Some (r, s') ∧ r ≠ 0 ∧ s' ≡ₗ s ∧
     k_log s' = k_log s) ∧
  (∀ rq, add_req_wf rq → aq_group_id rq = gid →
     ∃ r s', nvm_add_user_queue f (f_cdev F) rq s = Some (r, s') ∧ r ≠ 0 ∧ s' ≡ₗ s ∧
       k_log s' = k_log s) ∧
  (∀ current rq, rq_group_id rq = gid → gid ≠ 0 → rq_map_kind rq ≠ NVM_MAP_KIND_DATA →
     is_Some (k_ctrls s !! f_cdev F) →
     (OFFSET_ADDRS + rq_n_pages rq * 8 < 2 ^ 64 →
        ∃ r s', nvm_map_host_memory current f (f_cdev F) rq s = Some (r, s') ∧ map_refused s r s') ∧
     (rq_n_pages rq < 2 ^ 32 →
        ∃ r s', nvm_map_device_memory current f (f_cdev F) rq s = Some (r, s') ∧ map_refused s r s')).
Proof.
  intros Hs HF Hp HO Hno. pose proof (reachable_Inv s Hs) as H. split_and!.
  2: { intros rq Hw Hid.
    destruct (wp_run _ _ _ (wp_add_user_queue f F _ rq s H HF eq_refl Hw)) as (r & s' & Hr & Hpost).
    exists r, s'. split; [done|].
    destruct Hpost as [[? Hst]|(s0 & o' & O' & g & G & d & nd & x & U & rings & _ & Ho' & HO' & Hg & HG & Hid' & _)].
    - split; [done|]. split; [by eapply steps_core|]. by rw (steps_log _ _ _ Hst) app_nil_r.
    - simplify_eq. by destruct (Hno g G). }
  2: { intros current rq <- Hid Hk Hc.
    split; intros Hn; apply wp_run; [by eapply wp_map_host_foreign|by eapply wp_map_device_foreign]. }
  destruct (wp_run _ _ _ (wp_destroy_group_spec f F _ gid s H HF eq_refl)) as (r & s' & Hr & _ & Hpost).
  exists r, s'. split; [done|].
  destruct Hpost as [[? Hst]|[_ (o' & O' & g & G & es & Ho' & HO' & Hg & HG & Hid & _)]].
  - split; [done|]. split; [by eapply steps_core|]. by rw (steps_log _ _ _ Hst) app_nil_r.
  - simplify_eq. by destruct (Hno g G).
Qed.
End spec.

(** ** Doorbells *)

(** The registers of queue [q]: its SQ tail and its CQ head doorbell. *)
Definition doorbell (stride q : Z) (cq : bool) : Z :=
  if cq then cq_doorbell stride q else sq_doorbell stride q.

Lemma doorbell_value stride q cq maxq :
  0 < stride → 0 ≤ q ≤ maxq → NVME_REG_DBS + (2 * maxq + 1) * stride * 4 < 2 ^ 32 →
  doorbell stride q cq = NVME_REG_DBS + (2 * q + c_bool cq) * stride * 4.
Proof.
  intros Hs Hq Hm. assert ((2 * q + c_bool cq) * stride ≤ (2 * maxq + 1) * stride) as Hle.
  { apply Z.mul_le_mono_nonneg_r; [lia|]. destruct cq; simpl; lia. }
  assert (0 ≤ (2 * q + c_bool cq) * stride) as Hge by (destruct cq; simpl; nia).
  rw /doorbell /sq_doorbell /cq_doorbell /NVME_REG_DBS in Hm |- *.
  destruct cq; simpl in *; rw u32_id; nia.
Qed.

(** While the doorbell array fits the 32-bit offset, the offsets reported
    for two queues are those of different, non-overlapping registers, and each
    lies in the array that starts at 0x1000. *)
Theorem doorbells_disjoint stride maxq q q' cq cq' :
  0 < stride → 0 ≤ q ≤ maxq → 0 ≤ q' ≤ maxq →
  NVME_REG_DBS + (2 * maxq + 1) * stride * 4 < 2 ^ 32 →
  (q, cq) ≠ (q', cq') →
  NVME_REG_DBS ≤ doorbell stride q cq < NVME_REG_DBS + (2 * maxq + 2) * stride * 4 ∧
  (doorbell stride q cq + 4 * stride ≤ doorbell stride q' cq' ∨
   doorbell stride q' cq' + 4 * stride ≤ doorbell stride q cq).
Proof.
  intros Hs Hq Hq' Hm Hne. rw (doorbell_value _ _ _ maxq) // (doorbell_value _ _ _ maxq) //.
  assert (2 * q + c_bool cq ≠ 2 * q' + c_bool cq') as Hd.
  { destruct cq, cq'; simpl; intros E; apply Hne; f_equal; lia. }
  assert (0 ≤ c_bool cq ≤ 1) by (destruct cq; simpl; lia).
  assert (0 ≤ c_bool cq' ≤ 1) by (destruct cq'; simpl; lia).
  split; [nia|]. destruct (Z.lt_total (2 * q + c_bool cq) (2 * q' + c_bool cq')) as [?|[?|?]];
    [left; nia|lia|right; nia].
Qed.

(** ** The pool of ids *)

Section pool.
Context {E : kenv}.

Lemma rebitmap_same x x' U :
  x' = x<{c_user_qid_bitmap := c_user_qid_bitmap x'}> → is_Some (c_user_qid_bitmap x) →
  is_Some (c_user_qid_bitmap x') → pool_wf x U → pool_wf x' U → x' = x.
Proof.
  intros Ex [bm Hbm] [bm' Hbm'] Hx Hx'. rw /pool_wf Hbm in Hx. rw /pool_wf Hbm' in Hx'.
  rw Hbm' in Ex. rw Ex /= in Hx'. destruct Hx as [_ Hx], Hx' as [_ Hx'].
  rw (pool_repr_inj _ _ _ _ _ Hx' Hx) -Hbm in Ex. rw Ex. by destruct x.
Qed.


(** Giving back the ids just taken restores the pool. *)
Theorem qid_alloc_free s c x U nr qids s1 :
  k_ctrls s !! c = Some x → is_Some (c_user_qid_bitmap x) → pool_wf x U → 0 ≤ nr →
  snvm_user_qid_alloc_locked c nr s = Some ((0, qids), s1) →
  kfor (snvm_user_qid_free_locked c) qids s1 = Some (tt, s).
Proof.
  intros Hc Hb Hwf Hnr Hrun.
  assert (wp (snvm_user_qid_alloc_locked c nr) (λ r s1, r.1 = 0 →
    kfor (snvm_user_qid_free_locked c) r.2 s1 = Some (tt, s)) s) as Hwp.
  { eapply (wp_qid_alloc c x U nr); [done..|by intros|].
    intros s2 x2 qs Hl Hnd Hfr Hwf2 Hx2 Hb2 _ -> _. cbn [snd].
    assert (wp (kfor (snvm_user_qid_free_locked c) qs) (λ _ s3, s3 = s) (set_ctrl c x2 s)) as Hfree.
    { eapply (wp_free_all c x2 U); [by rw /= lookup_insert_eq|done..|]. intros x3 Hwf3 Hx3 Hb3.
      assert (x3 = x<{c_user_qid_bitmap := c_user_qid_bitmap x3}>) as Ex3 by (rw Hx3 Hx2; by destruct x).
      rw set_ctrl_set (rebitmap_same x x3 U) //; [by apply set_ctrl_id|by apply Hb3]. }
    destruct (wp_run _ _ _ Hfree) as ([] & s3 & -> & ->). done. }
  by apply (run_wp _ _ _ _ _ Hrun Hwp).
Qed.
End pool.

(** ** Witnesses *)

Section witness.
Existing Instance good.
Existing Instance npu.

(** The objects of the session's last state. *)
Definition w_ctrl : ctrl := default (new_ctrl 1 0 0) (k_ctrls st_queue !! the_ctrl).
Definition w_owner : snvm_dev_owner := default (DevOwner 1 1 [] 0 [] 0) (k_owners st_queue !! 3%positive).
Definition w_group : snvm_qgroup := default (new_group 0) (k_groups st_queue !! 4%positive).

Lemma w_ctrl_ok : k_ctrls st_queue !! the_ctrl = Some w_ctrl.
Proof. vm_compute. reflexivity. Qed.
Lemma w_owner_ok : k_owners st_queue !! 3%positive = Some w_owner.
Proof. vm_compute. reflexivity. Qed.
Lemma w_file_ok : k_files st_queue !! the_file = Some open_file.
Proof. vm_compute. reflexivity. Qed.
Lemma w_data_file_ok : k_files st_data !! the_file = Some open_file.
Proof. vm_compute. reflexivity. Qed.

Lemma queue_ids_unique_witness :
  ∃ U, pool_wf w_ctrl U ∧ (∀ q, q ∈ U ↔ ∃ k, live_slot st_queue the_ctrl k q) ∧
    (∀ k k' q, live_slot st_queue the_ctrl k q → live_slot st_queue the_ctrl k' q → k = k').
Proof. exact (queue_ids_unique st_queue the_ctrl w_ctrl reachable_queue w_ctrl_ok). Defined.


Lemma add_user_queue_success_witness :
  ∃ r s', nvm_add_user_queue the_file the_ctrl add_rq st_data = Some (r, s') ∧ r = 0 ∧
    is_Some (k_groups s' !! 4%positive).
Proof.
  destruct (add_user_queue_success st_data the_file open_file add_rq reachable_data w_data_file_ok) as (r & s' & Hr & Hok).
  { split; [reflexivity|discriminate]. }
  exists r, s'. split; [exact Hr|].
  assert (r = 0) as E0.
  { apply (f_equal (fmap fst)) in Hr. vm_compute in Hr. by injection Hr. }
  split; [exact E0|]. destruct (Hok E0) as (o & O & g & G & d & nd & rings & qids & ess & Ho & HO & Hg & HG & _ & _ & _ & _ & _ & _ & _ & _ & Egs).
  rw Egs. apply lookup_insert_is_Some'. right. vm_compute. eexists. reflexivity.
Defined.

(** The file that is closed has a queue, a buffer and a device queue. *)
Lemma release_complete_witness :
  ∃ s', snvm_dev_release the_file st_devq = Some (0, s') ∧ k_owners s' !! 3%positive = None ∧
    k_device_queue_list st_devq = [8%positive] ∧ k_maps s' !! 8%positive = None.
Proof.
  destruct (release_complete st_devq the_file open_file 3 w_owner reachable_devq) as (s' & Hr & Ho & _ & _ & Hm);
    [vm_compute; reflexivity..|].
  exists s'. split; [exact Hr|]. split; [exact Ho|]. split; [apply session_devq|].
  destruct (k_maps s' !! 8%positive) as [m|] eqn:E8; [|done]. apply Hm in E8 as [E8 []].
  right. right. exists m. split; [exact E8|]. vm_compute in E8. injection E8 as <-. vm_compute. reflexivity.
Defined.

Lemma destroy_group_order_witness :
  ∃ r s', nvm_destroy_queue_group the_file the_ctrl 1 st_queue = Some (r, s') ∧ r = 0.
Proof.
  destruct (destroy_group_order st_queue the_file open_file 1 reachable_queue w_file_ok) as (r & s' & Hr & _).
  exists r, s'. split; [exact Hr|]. apply (f_equal (fmap fst)) in Hr. vm_compute in Hr. by injection Hr.
Defined.

Lemma group_isolation_witness :
  (∃ r s', nvm_destroy_queue_group the_file the_ctrl 2 st_queue = Some (r, s') ∧ r ≠ 0 ∧ s' ≡ₗ st_queue ∧
     k_log s' = k_log st_queue) ∧
  (∃ r s', nvm_map_host_memory task the_file the_ctrl (map_rq data_va NVM_MAP_KIND_RING_SQ 2) st_queue =
     Some (r, s') ∧ map_refused st_queue r s').
Proof.
  destruct (group_isolation st_queue the_file open_file 3 w_owner 2 reachable_queue w_file_ok eq_refl w_owner_ok)
    as (Hd & _ & Hmap).
  2: { split; [exact Hd|].
       destruct (Hmap task (map_rq data_va NVM_MAP_KIND_RING_SQ 2) eq_refl ltac:(discriminate) ltac:(discriminate)
         (ex_intro _ w_ctrl w_ctrl_ok)) as [Hh _]. exact (Hh eq_refl). }
  intros g G Hg HG.
  assert (g = 4%positive) as -> by (vm_compute in Hg; by apply list_elem_of_singleton in Hg).
  assert (G = w_group) as -> by (vm_compute in HG; injection HG as <-; by vm_compute).
  vm_compute. discriminate.
Defined.

Lemma doorbells_disjoint_witness :
  doorbell 1 5 false + 4 * 1 ≤ doorbell 1 5 true ∨ doorbell 1 5 true + 4 * 1 ≤ doorbell 1 5 false.
Proof. apply (doorbells_disjoint 1 8 5 5 false true); [lia|lia|lia|reflexivity|discriminate]. Defined.

(** Three more pairs: the third submission queue is refused, and so is the
    deletion of a completion queue by the rollback. *)
Lemma add_user_queue_failure_witness :
  ∃ r s' es, nvm_add_user_queue the_file the_ctrl three_rq st_queue = Some (r, s') ∧ r = 1 ∧
    k_maps s' = k_maps st_queue ∧ k_log s' = k_log st_queue ++ es ∧ refused es = [(false, 7)] ∧
    ∀ b q, (b, q) ∈ dev_run es {[(true, 5); (false, 5)]} ↔ (b, q) ∈ ({[(true, 5); (false, 5)]} : gset _) ∨ (b, q) ∈ [(false, 7)].
Proof.
  destruct (add_user_queue_failure st_queue the_file open_file three_rq reachable_queue w_file_ok) as (r & s' & Hr & Hno).
  { split; [reflexivity|discriminate]. }
  assert (r = 1) as E0.
  { apply (f_equal (fmap fst)) in Hr. vm_compute in Hr. by injection Hr. }
  destruct Hno as (_ & Hm & _ & es & Hl & Hdev); [by rw E0|].
  exists r, s', es. split; [exact Hr|]. split; [exact E0|]. split; [exact Hm|]. split; [exact Hl|].
  assert (refused es = [(false, 7)]) as Eref.
  { apply (f_equal (fmap (λ x, refused (drop (length (k_log st_queue)) (k_log x.2))))) in Hr.
    cbn [fmap option_fmap option_map snd] in Hr. rw Hl drop_app_length in Hr. vm_compute in Hr.
    by injection Hr. }
  split; [exact Eref|]. rw -Eref. apply Hdev.
  intros b q Hq. assert (q = 5) as -> by (apply elem_of_union in Hq as [[= _ ?]%elem_of_singleton|[= _ ?]%elem_of_singleton]; done). exists (4%positive, 0%nat).
  eexists 3%positive, w_owner, w_group, _. split; [exact w_owner_ok|]. split; [vm_compute; reflexivity|].
  split; [vm_compute; by left|]. split; [vm_compute; reflexivity|]. split; [vm_compute; reflexivity|].
  split; [done|reflexivity].
Defined.

Lemma w_bitmap : is_Some (c_user_qid_bitmap w_ctrl).
Proof. vm_compute. eexists. reflexivity. Qed.
Lemma w_pool : ∃ U, pool_wf w_ctrl U.
Proof.
  destruct (inv_qids st_queue (reachable_Inv _ reachable_queue) the_ctrl w_ctrl w_ctrl_ok) as (U & HU & _).
  by exists U.
Qed.


Lemma qid_alloc_free_witness :
  ∃ qids s1, snvm_user_qid_alloc_locked the_ctrl 2 st_queue = Some ((0, qids), s1) ∧
    kfor (snvm_user_qid_free_locked the_ctrl) qids s1 = Some (tt, st_queue).
Proof.
  destruct w_pool as [U HU].
  destruct (snvm_user_qid_alloc_locked the_ctrl 2 st_queue) as [[[ret qids] s1]|] eqn:Hr;
    [|vm_compute in Hr; discriminate].
  assert (ret = 0) as ->.
  { apply (f_equal (fmap (fst ∘ fst))) in Hr. vm_compute in Hr. by injection Hr. }
  exists qids, s1. split; [reflexivity|].
  exact (qid_alloc_free st_queue the_ctrl w_ctrl U 2 qids s1 w_ctrl_ok w_bitmap HU ltac:(lia) Hr).
Defined.
End witness.
