(* ===== verification/SpecMemory.v ===== *)
(** * What the memory interface guarantees

    The theorems about pinned memory: mapping and releasing are inverse, the
    purge of a task's maps is exact, lookups find what they should, and the two
    peer-to-peer backends keep their promises. *)
From S2P Require Import Prelude LinkedList KState P2p Ctrl Map QidPool QGroup.
From S2P Require Import Inv DevIoctl DevFile DevInv AddQueue DevStep Control ControlInv.
From S2P Require Import System Machine.

Section spec.
Context {E : kenv} {EL : kenv_laws E} {B : P2pBackend} {BL : P2pLaws B}.


(** C12.  Mapping fewer than 2^32 pages of device memory returns.  A success has
    mapped it for every controller on the list, in order, and releasing the map
    next unmaps each of these mappings through the device it was made for, gives
    the pages back, and restores the module's data.  A failure has undone the
    mappings it made in the same way, each through its device, has given the pages
    back, and leaves the module's data as they were. *)
Theorem device_map_release s current c x v n :
  reachable s → k_ctrls s !! c = Some x → n < 2 ^ 32 →
  ∃ r s1, map_device_memory current DeviceList c v n s = Some (r, s1) ∧
  match r with
  | inl e => e < 0 ∧ (s1 ≡ₗ s ∨ s1 ≡ₗ bump s) ∧
      ∃ es, k_log s1 = k_log s ++ es ∧
        dev_undone (ctrl_devs (k_ctrls s) (k_ctrl_list s)) (trace es)
  | inr p => ∃ t ds s2 es, pt_entries t = n ∧ length ds = length (k_ctrl_list s) ∧
      k_device_list s1 = k_device_list s ++ [p] ∧
      unmap_and_release p s1 = Some (tt, s2) ∧ s2 ≡ₗ bump s ∧ k_log s2 = k_log s ++ es ∧
      (let devs := ctrl_devs (k_ctrls s) (k_ctrl_list s) in
       trace es = EvP2pGet t :: zip_with (λ d dm, EvP2pMap d t dm) devs ds ++
                  zip_with (λ d dm, EvP2pUnmap d (Some t) dm) devs ds ++ [EvP2pPut t])
  end.
Proof.
  intros Hs Hc Hn. pose proof (reachable_Inv s Hs) as H. pose proof (Inv_next_ok s H) as [Hnp Hun].
  apply wp_run. eapply (wp_map_device_memory current DeviceList c x); [done..|by apply Inv_ctrls|
    apply (inv_ctrl_max s H)| |].
  { intros b ws err s' He Hud Hm. pose proof (moves_core _ _ _ Hm) as Ec. split; [done|].
    split; [destruct b; auto|]. destruct (moves_log _ _ _ Hm) as (es & Hl & _ & Ht). exists es.
    rw Ht. split; [|done]. by destruct b. }
  intros t ds s1 Hn1 Ht Hds Hlen Hm. set (p := k_next s) in *. set (m := gpu_map _ _ _) in *.
  assert (Inv s1) as H1.
  { eapply Inv_core; [by eapply moves_core|]. apply Inv_new_map; [done| |done].
    apply map_ok_gpu; [done| |done]. rw Hds. by apply (Inv_ctrl_listed s c). }
  pose proof Hm as (es1 & t1 & _ & Htr1 & E1).
  assert (k_maps s1 !! p = Some m) as Hp1 by (by rw E1 /= lookup_insert_eq).
  destruct (wp_run _ _ s1 (wp_unmap_inv p m (λ _ s2, moves (release_events s1 m) (drop_map p s1) s2) s1 H1 Hp1
    ltac:(by auto))) as ([] & s2 & Hr2 & Hm2).
  destruct Hm2 as (es2 & t2 & _ & Htr2 & E2).
  assert (drop_map p (glist_insert DeviceList p (set_map p m (bump s))) = bump s) as Edrop
    by (by apply drop_map_inserted).
  exists t, ds, s2, (es1 ++ es2). split; [done|]. split; [done|]. split; [by rw E1|]. split; [done|].
  rw E1 framed_comm Edrop in E2. split; [by rw E2|]. split; [by rw E2 /= app_assoc|].
  rw trace_app Htr1 Htr2 /=. do 2 f_equal. rw E1 /release_events /=. rw walk_events_slots //.
  rw Hds length_ctrl_devs //. by apply Inv_ctrls.
Qed.

(** C13.  The purge of a task's maps terminates although it restarts after each
    removal; it removes exactly the task's maps that are in no group, releases
    each of them once and in list order, and returns their number. *)
Theorem purge_exact s l owner :
  reachable s →
  let vs := victims (k_maps s) owner (k_glist l s) in
  ∃ s' es, map_purge_by_owner l owner s = Some (Z.of_nat (length vs), s') ∧
    k_log s' = k_log s ++ es ∧ trace es = purge_events s vs ∧
    (∀ p m, k_maps s' !! p = Some m ↔ k_maps s !! p = Some m ∧ ¬ purged l owner s p) ∧
    (∀ l' p, p ∈ k_glist l' s' ↔ p ∈ k_glist l' s ∧ ¬ purged l owner s p).
Proof.
  intros Hs vs. pose proof (reachable_Inv s Hs) as H.
  assert (wp (map_purge_by_owner l owner)
    (λ n s', n = Z.of_nat (length vs) ∧ moves (purge_events s vs) (drop_maps vs s) s') s) as Hwp.
  { apply wp_map_purge_by_owner; [by apply Inv_glist_nodup|by apply Inv_glist_ok|by apply Inv_ctrls|].
    by intros s' Hm. }
  destruct (wp_run _ _ _ Hwp) as (n & s' & Hr & -> & es & t & _ & Htr & E').
  exists s', es. split; [done|]. rw E'. split; [by rw /= framed_log|]. split; [done|].
  assert (∀ p, p ∈ vs ↔ purged l owner s p) as Hvs.
  { intros p. rw /vs /victims list_elem_of_filter /victim /purged.
    destruct (k_maps s !! p) as [m|]; naive_solver. }
  destruct (minus_drop_maps vs s) as [M L]. split.
  - intros p m. rw -Hvs. apply M.
  - intros l' p. rw -Hvs -L. by destruct l'.
Qed.

(** A lookup finds the first map of the calling task whose start is the
    4 KiB or the 64 KiB page of the address, and nothing only if there is none. *)
Theorem map_find_first s current l addr :
  reachable s →
  ∃ r, map_find current l addr s = Some (r, s) ∧
  match r with
  | Some p => ∃ l1 l2 m, k_glist l s = l1 ++ p :: l2 ∧ k_maps s !! p = Some m ∧
      m_owner m = current ∧
      (m_vaddr m = addr - addr mod 2 ^ 12 ∨ m_vaddr m = addr - addr mod 2 ^ 16) ∧
      (∀ q m', q ∈ l1 → k_maps s !! q = Some m' → map_matches current addr m' = false)
  | None => ∀ q m, q ∈ k_glist l s → k_maps s !! q = Some m → map_matches current addr m = false
  end.
Proof.
  intros Hs. pose proof (reachable_Inv s Hs) as H. pose proof (Inv_allocated s l H) as Hal.
  exists (pfind (k_maps s) (λ _ m, map_matches current addr m) (k_glist l s)). split.
  { rw /map_find /mbind /K_bind /=. exact (kfind_run (V:=map) _ _ s Hal). }
  destruct (pfind _ _ _) as [p|] eqn:Ef.
  - apply pfind_Some in Ef as (l1 & l2 & m & El & Hm & Hf & Hl1). exists l1, l2, m.
    rw /map_matches andb_true_iff bool_decide_eq_true orb_true_iff !Z.eqb_eq in Hf.
    rw -(page_align_pow2 12) // -(page_align_pow2 16) //. destruct Hf as [Ho Hv].
    do 4 (split; [done|]). intros q m' Hq. rw Forall_forall in Hl1. by apply Hl1.
  - apply pfind_None in Ef; [|done]. rw Forall_forall in Ef. intros q m Hq. by apply Ef.
Qed.
End spec.

(** ** The dma-buf backend *)

Section npu_spec.
Context {E : kenv} {D : Npu.dma_buf_env} {DL : Npu.dma_buf_laws D}.

(** C15.  For segments of at most 2^32 - 65536 bytes within the bus address space
    ([seg_ok]), the loop over the scatter list yields the addresses of the 64 KiB
    pages of its segments, in order and cut off at the number of pages asked
    for.  In a longer segment the [unsigned int] offset would wrap around and the
    first page come again ([npu_offset_wraps] in Findings.v). *)
Theorem npu_pages_of_segments room sgl :
  Forall Npu.seg_ok sgl → Npu.sgl_pages room sgl = take room (sgl ≫= Npu.seg_pages).
Proof. apply Npu.sgl_pages_spec. Qed.

(** A failed dma-buf mapping leaves no attachment, and unmapping a
    successful one takes down the mapping and the attachment it made. *)
Theorem npu_map_unmap dev t s :
  ∃ r s1, Npu.nvfs_nvidia_p2p_dma_map_pages dev t s = Some (r, s1) ∧ s1 ≡ₗ s ∧
  match r with
  | (e, None) => e < 0 ∧ ∃ es, k_log s1 = k_log s ++ es ∧
      (es = [] ∨ ∃ a, es = [EvDmabufAttach (pt_object t) dev a; EvDmabufDetach (pt_object t) a])
  | (e, Some m) => e = 0 ∧ length (pm_addresses m) = Z.to_nat (pt_entries t) ∧
      ∃ s2, Npu.nvfs_nvidia_p2p_dma_unmap_pages dev (Some t) m s1 = Some (0, s2) ∧ s2 ≡ₗ s ∧
      k_log s2 = k_log s ++ [EvDmabufAttach (pt_object t) dev (pm_attach m);
        EvMapAttachment (pm_attach m) (pm_sgt m); EvUnmapAttachment (pm_attach m) (pm_sgt m);
        EvDmabufDetach (pt_object t) (pm_attach m)]
  end.
Proof.
  apply wp_run. rw /Npu.nvfs_nvidia_p2p_dma_map_pages. wp_step. apply wp_ask.
  wp_step; [wp_step; split; [done|]; split; [done|]; exists []; split; [by rw /= app_nil_r|by left]|].
  wp_step. apply wp_ask.
  wp_step; [wp_step; split; [done|]; split; [done|]; exists []; split; [by rw /= app_nil_r|by left]|].
  wp_step. apply wp_ask. destruct (Npu.env_dma_buf_attach _ _ _) as [rc|a] eqn:Ea.
  { wp_step. split; [done|]. split; [by eapply Npu.env_dma_buf_attach_err|]. exists [].
    split; [by rw /= app_nil_r|by left]. }
  wp_step. apply wp_emit. wp_step. apply wp_ask.
  destruct (Npu.env_map_attachment _ _) as [rc|[sgt sgl]] eqn:Em.
  - wp_step. apply wp_emit. wp_step. split; [done|]. split; [by eapply Npu.env_map_attachment_err|].
    eexists. split; [by rw /= -app_assoc|]. right. by exists a.
  - wp_step. apply wp_emit. wp_step. split; [done|]. split; [done|]. cbn [pm_addresses pm_attach pm_sgt].
    split.
    + rw length_app length_replicate. pose proof (Npu.length_sgl_pages (Z.to_nat (pt_entries t)) sgl). lia.
    + eexists. split; [done|]. split; [done|]. by rw /= -!app_assoc.
Qed.
End npu_spec.

(** ** The NVIDIA backend *)

(** Is the pointer for symbol [name] set? *)
Definition sym_set (t : Nvidia.syms) (name : string) : bool :=
  match list_find (.= name) Nvidia.sym_names with
  | Some (0%nat, _) => Nvidia.sym_dma_unmap_pages t
  | Some (1%nat, _) => Nvidia.sym_get_pages t
  | Some (2%nat, _) => Nvidia.sym_put_pages t
  | Some (3%nat, _) => Nvidia.sym_dma_map_pages t
  | Some (4%nat, _) => Nvidia.sym_free_dma_mapping t
  | Some (5%nat, _) => Nvidia.sym_free_page_table t
  | _ => false
  end.

Lemma get_sym_cases sg (p : bool) name :
  (∃ ops, Nvidia.get_sym sg p name = (true, ops) ∧ ops = if p then [] else [Nvidia.SymGet name]) ∨
  (p = false ∧ Nvidia.get_sym sg p name = (false, [])).
Proof. rw /Nvidia.get_sym. destruct p; [by eauto|]. destruct (sg name); by eauto. Qed.

Lemma refs_get b n name :
  Nvidia.sym_refs name (if b : bool then [] else [Nvidia.SymGet n]) =
    if bool_decide (n = name) then 1 - c_bool b else 0.
Proof. destruct b; simpl; case_bool_decide; simpl; lia. Qed.
Lemma refs_put b n name :
  Nvidia.sym_refs name (Nvidia.put_sym b n) = if bool_decide (n = name) then - c_bool b else 0.
Proof. destruct b; simpl; case_bool_decide; simpl; lia. Qed.

(** Resolving the NVIDIA symbols is all or nothing.  On success every
    pointer is set, on failure none is; and either way the module holds one
    reference on each symbol whose pointer is set and none on the others, given
    that it did before. *)
Theorem nvidia_init_all_or_nothing sg t name :
  name ∈ Nvidia.sym_names →
  let '(rc, ops, t') := Nvidia.nvfs_nvidia_p2p_init sg t in
  (rc = 0 ∧ sym_set t' name = true ∨ rc = -1 ∧ t' = Nvidia.no_syms) ∧
  c_bool (sym_set t name) + Nvidia.sym_refs name ops = c_bool (sym_set t' name).
Proof.
  intros Hn. rw /Nvidia.sym_names in Hn. rw /Nvidia.nvfs_nvidia_p2p_init.
  repeat match goal with
  | |- context [Nvidia.get_sym sg ?p ?n] =>
      destruct (get_sym_cases sg p n) as [(? & -> & ->)|[Hf ->]]; cbn [negb];
      cbn [Nvidia.sym_dma_unmap_pages Nvidia.sym_get_pages Nvidia.sym_put_pages
           Nvidia.sym_dma_map_pages Nvidia.sym_free_dma_mapping Nvidia.sym_free_page_table] in *
  end;
  rw /Nvidia.init_error /Nvidia.nvfs_nvidia_put_symbols; rw ?Nvidia.sym_refs_app ?refs_get ?refs_put;
  destruct t as [b1 b2 b3 b4 b5 b6]; simpl in *; subst;
  repeat (apply elem_of_cons in Hn as [->|Hn]; [rw /sym_set /=; split; [by auto|lia]|]); by apply elem_of_nil in Hn.
Qed.

(** ** Witnesses *)

Section witness.
Existing Instance good.
Existing Instance npu.

Definition m_ctrl : ctrl := default (new_ctrl 1 0 0) (k_ctrls st_open !! the_ctrl).
Lemma m_ctrl_ok : k_ctrls st_open !! the_ctrl = Some m_ctrl.
Proof. vm_compute. reflexivity. Qed.

Definition m_table : p2p_table := P2pTable 4 100.
Lemma npu_map_unmap_witness :
  ∃ m s1 s2, @Npu.nvfs_nvidia_p2p_dma_map_pages good demo_dma_buf 1 m_table st_open = Some ((0, Some m), s1) ∧
    @Npu.nvfs_nvidia_p2p_dma_unmap_pages 1 (Some m_table) m s1 = Some (0, s2) ∧ s2 ≡ₗ st_open.
Proof.
  destruct (@npu_map_unmap good demo_dma_buf demo_dma_buf_laws 1 m_table st_open) as ([e [m|]] & s1 & Hr & _ & Hpost).
  - destruct Hpost as (-> & _ & s2 & Hu & Hc & _). exists m, s1, s2. split; [exact Hr|]. split; [exact Hu|exact Hc].
  - exfalso. apply (f_equal (fmap (snd ∘ fst))) in Hr. vm_compute in Hr. discriminate.
Defined.


Lemma device_map_release_witness :
  ∃ p s1 s2, map_device_memory task DeviceList the_ctrl 0 4 st_open = Some (inr p, s1) ∧
    unmap_and_release p s1 = Some (tt, s2) ∧ s2 ≡ₗ bump st_open.
Proof.
  destruct (device_map_release st_open task the_ctrl m_ctrl 0 4 reachable_open m_ctrl_ok eq_refl)
    as (r & s1 & Hr & Hpost).
  destruct r as [e|p].
  - exfalso. apply (f_equal (fmap fst)) in Hr. vm_compute in Hr. discriminate.
  - destruct Hpost as (t & ds & s2 & es & _ & _ & _ & Hu & Hc & _).
    exists p, s1, s2. split; [exact Hr|]. split; [exact Hu|exact Hc].
Defined.

Lemma purge_exact_witness :
  ∃ s' es, map_purge_by_owner HostList task st_queue = Some (1, s') ∧ k_log s' = k_log st_queue ++ es.
Proof.
  destruct (purge_exact st_queue HostList task reachable_queue) as (s' & es & Hr & Hl & _).
  exists s', es. split; [|exact Hl]. rw Hr. vm_compute. reflexivity.
Defined.

Lemma map_find_first_witness :
  ∃ r, map_find task HostList (sq_va + 100) st_queue = Some (r, st_queue) ∧ r = Some 5%positive.
Proof.
  destruct (map_find_first st_queue task HostList (sq_va + 100) reachable_queue) as (r & Hr & _).
  exists r. split; [exact Hr|]. apply (f_equal (fmap fst)) in Hr. vm_compute in Hr. by injection Hr.
Defined.

Lemma npu_pages_witness :
  Npu.sgl_pages 3 [(2 ^ 44, 65536); (2 ^ 45, 131072)] = [2 ^ 44; 2 ^ 45; 2 ^ 45 + 65536].
Proof.
  rw (npu_pages_of_segments 3 [(2 ^ 44, 65536); (2 ^ 45, 131072)]); [vm_compute; reflexivity|].
  repeat constructor; vm_compute; discriminate.
Defined.

Lemma nvidia_init_witness :
  let '(rc, ops, t') := Nvidia.nvfs_nvidia_p2p_init (λ n, negb (String.eqb n "nvidia_p2p_put_pages")) Nvidia.no_syms in
  (rc = 0 ∧ sym_set t' "nvidia_p2p_get_pages" = true ∨ rc = -1 ∧ t' = Nvidia.no_syms) ∧
  0 + Nvidia.sym_refs "nvidia_p2p_get_pages" ops = c_bool (sym_set t' "nvidia_p2p_get_pages").
Proof.
  apply (nvidia_init_all_or_nothing _ Nvidia.no_syms "nvidia_p2p_get_pages").
  right. left.
Defined.
End witness.
