(* ===== verification/SpecControl.v ===== *)
(** * What the control plane guarantees

    The theorems about /dev/snvm_control, about loading and unloading the module
    and about the queue budget and device information of a controller. *)
From S2P Require Import Prelude KState P2p Ctrl Map QidPool QGroup Inv.
From S2P Require Import DevIoctl DevFile DevInv AddQueue DevStep Control ControlInv System.
From S2P Require Import Machine.

Section spec.
Context {E : kenv} {EL : kenv_laws E} {B : P2pBackend} {BL : P2pLaws B}.

(** SNVM_CHRDEV_CREATE is idempotent: it returns, a result of 0 comes with
    the minor of a controller for the device, and when the device already has a
    controller it changes nothing and reports that one. *)
Theorem chrdev_create_idempotent s addr :
  reachable s → helper_ok s addr true →
  ∃ r s', snvm_chrdev_helper addr true s = Some (r, s') ∧
    (r.1 = 0 → ∃ c x, ctrl_at s' addr c x ∧ r.2 = PciDeviceAddr (c_number x) 0 0 0) ∧
    (bdf_unique s addr → ∀ c x, ctrl_at s addr c x → r.1 = 0 ∧ s' ≡ₗ s).
Proof.
  intros Hs Hok. pose proof (reachable_Inv s Hs) as H.
  by destruct (wp_run _ _ _ (wp_helper_create addr s H Hok)) as (r & s' & Hr & _ & ? & ?); exists r, s'.
Qed.

(** SNVM_CHRDEV_REMOVE of a controller no file uses removes that
    controller and its minor, and otherwise changes nothing. *)
Theorem chrdev_remove_exact s addr :
  reachable s → helper_ok s addr false →
  ∃ r s', snvm_chrdev_helper addr false s = Some (r, s') ∧
    (s' ≡ₗ s ∨ ∃ c x, ctrl_at s addr c x ∧ r.1 = 0 ∧
       s' ≡ₗ (drop_ctrl c s)<{k_minor_ida := k_minor_ida s ∖ {[c_number x]} }>).
Proof.
  intros Hs Hok. pose proof (reachable_Inv s Hs) as H.
  by destruct (wp_run _ _ _ (wp_helper_remove addr s H Hok)) as (r & s' & Hr & _ & ?); exists r, s'.
Qed.

(** SNVM_DEVICE_BIND returns without gaining or losing a reference to any
    PCI device, and when it returns 0 the device at the address has a driver. *)
Theorem bind_balanced s addr :
  reachable s →
  ∃ r s', snvm_rebind_driver addr s = Some (r, s') ∧ same_refs s s' ∧
    (r = 0 → ∃ d pd, k_pdevs s' !! d = Some pd ∧ is_Some (pd_driver pd) ∧
       ∃ pd0, k_pdevs s !! d = Some pd0 ∧ same_bdf (pd_addr pd0) addr = true).
Proof.
  intros Hs. pose proof (reachable_Inv s Hs) as H.
  by destruct (wp_run _ _ _ (wp_rebind addr s H)) as (r & s' & Hr & _ & ? & ?); exists r, s'.
Qed.

(** SNVM_DEVICE_UNBIND takes away nothing but snvme: it is refused with
    -EFAULT, and then every device keeps its driver, unless snvme drives the
    device; then the device is left without a driver and its structure is gone. *)
Theorem unbind_only_snvme s addr :
  reachable s →
  ∃ r s', snvm_unbind_driver addr s = Some (r, s') ∧
    ((r = - EFAULT ∧ k_ndevs s' = k_ndevs s ∧
      ∀ d, pd_driver <$> k_pdevs s' !! d = pd_driver <$> k_pdevs s !! d) ∨
     (r = 0 ∧ same_refs s s' ∧ ∃ d pd pd', k_pdevs s !! d = Some pd ∧
        same_bdf (pd_addr pd) addr = true ∧ pd_driver pd = Some PCI_DRIVER_NAME ∧
        k_pdevs s' !! d = Some pd' ∧ pd_driver pd' = None ∧ pd_drvdata pd' = None ∧
        (∀ n, pd_drvdata pd = Some n → k_ndevs s' !! n = None))).
Proof.
  intros Hs. pose proof (reachable_Inv s Hs) as H.
  by destruct (wp_run _ _ _ (wp_unbind addr s H)) as (r & s' & Hr & _ & ?); exists r, s'.
Qed.

(** Setting up the control device is all or nothing: on success the
    class, the region, the cdev and the node exist, and on failure everything
    acquired was given back in reverse order. *)
Theorem cdev_init_rollback s :
  ∃ r s' first es, snvm_cdev_init s = Some (r, s') ∧ steps es s<{k_dev_first := first}> s' ∧
    ((r = 0 ∧ es = loaded_events first) ∨ (r < 0 ∧ rolled_back es)).
Proof.
  destruct (wp_run _ _ _ (wp_cdev_init s)) as (r & s' & Hr & first & es & ? & ?). by exists r, s', first, es.
Qed.

(** C24.  From every reachable state (see C1) unloading terminates and leaves
    nothing: no map, no controller, no minor, empty lists, and no device driven by
    snvme. *)
Theorem unload_complete s :
  reachable s →
  ∃ s', nvme_exit s = Some (tt, s') ∧ k_maps s' = ∅ ∧ k_ctrls s' = ∅ ∧ k_ctrl_list s' = [] ∧
    (∀ l, k_glist l s' = []) ∧ k_minor_ida s' = ∅ ∧ none_bound (k_pdevs s').
Proof.
  intros Hs. pose proof (reachable_Inv s Hs) as H.
  by destruct (wp_run _ _ _ (wp_nvme_exit s H)) as ([] & s' & Hr & Hu); exists s'.
Qed.

(** Mapping the registers returns, and when it returns 0 it mapped BAR 0
    of the file's controller from its start, no further than its length. *)
Theorem mmap_within_bar s f vs ve :
  reachable s → is_Some (k_files s !! f) →
  ∃ r s', svm_mmap_registers f vs ve s = Some (r, s') ∧
    (r = 0 → ∃ F x pd, k_files s !! f = Some F ∧ k_ctrls s !! f_cdev F = Some x ∧
       k_pdevs s !! c_pdev x = Some pd ∧ u64 (ve - vs) ≤ pd_bar0_len pd ∧
       k_log s' = k_log s ++ [EvIomap (pd_bar0_start pd) (u64 (ve - vs))]).
Proof.
  intros Hs HF. pose proof (reachable_Inv s Hs) as H.
  destruct (wp_run _ _ _ (wp_mmap f vs ve s H HF)) as (r & s' & Hr & _ & Hok). exists r, s'.
  split; [done|]. intros (F & x & pd & ? & ? & ? & ? & Hst)%Hok. exists F, x, pd.
  by rw (steps_log _ _ _ Hst).
Qed.

(** The wait for the namespace ends after at most 102 lookups; it returns
    the first answer there is, and nothing only after all 102 found nothing. *)
Theorem namespace_wait_ends d s :
  ∃ r s', find_ns d s = Some (r, s') ∧ k_log s' = k_log s ∧
    k_tick s < k_tick s' ≤ k_tick s + 102 ∧
    (∀ t, k_tick s ≤ t < k_tick s' - 1 → env_find_ns t d = None) ∧
    r = env_find_ns (k_tick s' - 1) d ∧ (r = None → k_tick s' = k_tick s + 102).
Proof.
  destruct (wp_run _ _ _ (wp_find_ns d s)) as (r & s' & Hr & Hst & H1 & H2 & H3 & H4). exists r, s'.
  rw (steps_log _ _ _ Hst) app_nil_r. do 4 (split; [done|]). by split.
Qed.

(** ** The queue budget *)

Lemma groups_sum_value gs sum :
  Forall (λ g, qg_reserved g = 0) gs →
  groups_sum gs sum = Some (foldl (λ a g, u32 (a + qg_count g)) sum gs).
Proof.
  revert sum. induction gs as [|g gs IH]; intros sum; simpl; [done|]. intros [Hg Hgs]%Forall_cons.
  rw Hg /=. by apply IH.
Qed.
Lemma groups_sum_None gs sum : Exists (λ g, qg_reserved g ≠ 0) gs → groups_sum gs sum = None.
Proof.
  intros Hex. revert sum. induction Hex as [g gs Hg|g gs _ IH]; intros sum; simpl.
  - by rw /c_true (proj2 (Z.eqb_neq _ _) Hg).
  - destruct (c_true (qg_reserved g)); [done|]. apply IH.
Qed.

(** What NVM_SET_IOQ_NUM accepts: a budget that is not 0 and, once set, does not
    grow; at most eight groups; every reserved field 0; and group sizes that add
    up to the budget modulo 2^32. *)
Definition setup_valid (x : ctrl) (su : nvm_ioctl_setup) : Prop :=
  let gs := take (Z.to_nat (su_nr_groups su)) (su_groups su) in
  su_ioq_num su ≠ 0 ∧ (c_ioq_num x = 0 ∨ su_ioq_num su ≤ c_ioq_num x) ∧
  Forall (λ r, r = 0) (su_reserved su) ∧ su_nr_groups su ≤ SNVM_MAX_QUEUE_GROUPS ∧
  (su_nr_groups su = 0 ∨
   (Forall (λ g, qg_reserved g = 0) gs ∧ foldl (λ a g, u32 (a + qg_count g)) 0 gs = su_ioq_num su)).

Lemma setup_ok_valid x su : setup_ok x su = true ↔ setup_valid x su.
Proof.
  rw /setup_ok /setup_valid. set (gs := take _ _).
  rw !andb_true_iff !negb_true_iff !andb_false_iff orb_true_iff Z.eqb_neq Z.eqb_eq /c_true.
  rw negb_false_iff Z.eqb_eq Z.ltb_ge.
  assert (existsb (λ z, negb (z =? 0)) (su_reserved su) = false ↔ Forall (λ r, r = 0) (su_reserved su)) as ->.
  { induction (su_reserved su) as [|r rs IH]; simpl; [done|].
    rw orb_false_iff negb_false_iff Z.eqb_eq Forall_cons IH. done. }
  assert (match groups_sum gs 0 with Some sum => sum =? su_ioq_num su | None => false end = true ↔
    Forall (λ g, qg_reserved g = 0) gs ∧ foldl (λ a g, u32 (a + qg_count g)) 0 gs = su_ioq_num su) as ->.
  { destruct (decide (Forall (λ g, qg_reserved g = 0) gs)) as [Hf|Hf].
    - rw groups_sum_value // Z.eqb_eq. tauto.
    - rw groups_sum_None; [naive_solver|]. apply not_Forall_Exists in Hf; [done|intros ?; apply _]. }
  rw Z.ltb_ge. tauto.
Qed.

(** NVM_SET_IOQ_NUM accepts exactly the valid budgets; it records an
    accepted one whole and leaves the state alone otherwise. *)
Theorem set_ioq_num_exact s c x su :
  k_ctrls s !! c = Some x →
  ∃ r s', nvm_set_ioq_num c su s = Some (r, s') ∧
    (r = 0 → setup_valid x su ∧ s' ≡ₗ set_ctrl c (commit_setup x su) s) ∧
    (r ≠ 0 → s' ≡ₗ s ∧ (r = - EFAULT ∨ (r = - EINVAL ∧ ¬ setup_valid x su))).
Proof.
  intros Hc. apply wp_run. rw /nvm_set_ioq_num. wp_step. apply wp_copy_from. intros ok t.
  wp_step; [wp_step; split; [done|]; intros _; split; [done|by left]|]. wp_step.
  eapply wp_load; [done|]. wp_step.
  - wp_step. split; [done|]. intros _. split; [done|]. right. split; [done|].
    rw -setup_ok_valid. by apply not_true_iff_false, negb_true_iff.
  - wp_step. eapply wp_store; [done|]. wp_step. split; [|done]. intros _. split; [|done].
    apply setup_ok_valid. by apply negb_false_iff.
Qed.
End spec.

(** ** On the concrete machine *)

Section witness.
Existing Instance good.
Existing Instance npu.

Definition b_ctrl : ctrl := default (new_ctrl 1 0 0) (k_ctrls st_file !! the_ctrl).
Lemma b_ctrl_ok : k_ctrls st_file !! the_ctrl = Some b_ctrl.
Proof. vm_compute. reflexivity. Qed.
Lemma b_ctrl_at : ctrl_at st_file bdf the_ctrl b_ctrl.
Proof. split; [exact b_ctrl_ok|]. eexists. split; vm_compute; reflexivity. Qed.
Lemma b_room : helper_ok st_file bdf true.
Proof. vm_compute. lia. Qed.
Lemma b_unused : helper_ok st_file bdf false.
Proof.
  intros c x _. rw /unused. assert (k_owners st_file = ∅) as -> by (vm_compute; reflexivity).
  apply map_Forall_empty.
Qed.
Lemma b_unique : bdf_unique st_file bdf.
Proof.
  intros d d' pd pd' Hd Hd' _ _.
  assert (∀ e q, k_pdevs st_file !! e = Some q → e = 1%positive) as Hone.
  { intros e q He. assert (dom (k_pdevs st_file) = {[1%positive]}) as Hdom by (vm_compute; reflexivity).
    apply elem_of_dom_2 in He. rw Hdom in He. by apply elem_of_singleton in He. }
  by rw (Hone d pd Hd) (Hone d' pd' Hd').
Qed.

Lemma chrdev_create_idempotent_witness :
  ∃ r s', snvm_chrdev_helper bdf true st_file = Some (r, s') ∧ r.1 = 0 ∧ s' ≡ₗ st_file.
Proof.
  destruct (chrdev_create_idempotent st_file bdf reachable_file b_room) as (r & s' & Hr & _ & Hi).
  exists r, s'. split; [exact Hr|]. exact (Hi b_unique the_ctrl b_ctrl b_ctrl_at).
Defined.

Lemma chrdev_remove_exact_witness :
  ∃ r s', snvm_chrdev_helper bdf false st_file = Some (r, s') ∧
    (s' ≡ₗ st_file ∨ ∃ c x, ctrl_at st_file bdf c x ∧ r.1 = 0 ∧
       s' ≡ₗ (drop_ctrl c st_file)<{k_minor_ida := k_minor_ida st_file ∖ {[c_number x]} }>).
Proof. exact (chrdev_remove_exact st_file bdf reachable_file b_unused). Defined.

Lemma bind_balanced_witness :
  ∃ r s', snvm_rebind_driver bdf st_file = Some (r, s') ∧ same_refs st_file s' ∧ r = 0.
Proof.
  destruct (bind_balanced st_file bdf reachable_file) as (r & s' & Hr & Hrefs & _).
  exists r, s'. split; [exact Hr|]. split; [exact Hrefs|].
  apply (f_equal (fmap fst)) in Hr. vm_compute in Hr. by injection Hr.
Defined.

Lemma unbind_only_snvme_witness :
  ∃ r s', snvm_unbind_driver bdf st_file = Some (r, s') ∧ r = 0 ∧ same_refs st_file s'.
Proof.
  destruct (unbind_only_snvme st_file bdf reachable_file) as (r & s' & Hr & [[E _]|(E & Hrefs & _)]);
    exists r, s'; (split; [exact Hr|]); [exfalso|by split].
  apply (f_equal (fmap fst)) in Hr. vm_compute in Hr. injection Hr as Hr. rw -Hr in E. discriminate.
Defined.

Lemma cdev_init_rollback_witness :
  ∃ r s' first es, snvm_cdev_init (empty_state 0 demo_devs) = Some (r, s') ∧
    steps es (empty_state 0 demo_devs)<{k_dev_first := first}> s' ∧
    ((r = 0 ∧ es = loaded_events first) ∨ (r < 0 ∧ rolled_back es)).
Proof. exact (cdev_init_rollback (empty_state 0 demo_devs)). Defined.

Lemma unload_complete_witness :
  ∃ s', nvme_exit st_devq = Some (tt, s') ∧ k_maps s' = ∅ ∧ k_ctrls s' = ∅ ∧ none_bound (k_pdevs s').
Proof.
  destruct (unload_complete st_devq reachable_devq) as (s' & Hr & Hm & Hc & _ & _ & _ & Hb).
  exists s'. split; [exact Hr|]. split; [exact Hm|]. split; [exact Hc|exact Hb].
Defined.

Lemma mmap_within_bar_witness :
  ∃ r s', svm_mmap_registers the_file 0x10000 0x12000 st_file = Some (r, s') ∧ r = 0 ∧
    ∃ ev, k_log s' = k_log st_file ++ [ev].
Proof.
  destruct (mmap_within_bar st_file the_file 0x10000 0x12000 reachable_file) as (r & s' & Hr & Hok).
  { vm_compute. eexists. reflexivity. }
  assert (r = 0) as E0.
  { apply (f_equal (fmap fst)) in Hr. vm_compute in Hr. by injection Hr. }
  exists r, s'. split; [exact Hr|]. split; [exact E0|].
  destruct (Hok E0) as (F & x & pd & _ & _ & _ & _ & Hl). eexists. exact Hl.
Defined.

Lemma namespace_wait_ends_witness :
  ∃ r s', find_ns 1 st_file = Some (r, s') ∧ k_tick s' ≤ k_tick st_file + 102.
Proof.
  destruct (namespace_wait_ends 1 st_file) as (r & s' & Hr & _ & [_ Ht] & _).
  exists r, s'. split; [exact Hr|exact Ht].
Defined.

(** Two groups of 3 and 5 queues for a budget of 8. *)
Definition setup_rq : nvm_ioctl_setup := 
  NvmIoctlSetup 8 0 0 0 0 2 [] [NvmQueueGroup 0 3 0 0; NvmQueueGroup 1 5 0 0].
Lemma set_ioq_num_exact_witness :
  ∃ r s', nvm_set_ioq_num the_ctrl setup_rq st_file = Some (r, s') ∧ r = 0 ∧
    s' ≡ₗ set_ctrl the_ctrl (commit_setup b_ctrl setup_rq) st_file.
Proof.
  destruct (set_ioq_num_exact st_file the_ctrl b_ctrl setup_rq b_ctrl_ok) as (r & s' & Hr & Hok & _).
  assert (r = 0) as E0.
  { apply (f_equal (fmap fst)) in Hr. vm_compute in Hr. by injection Hr. }
  exists r, s'. split; [exact Hr|]. split; [exact E0|]. apply Hok. exact E0.
Defined.
End witness.
