(* ===== verification/SpecUser.v ===== *)
(** * What the user library guarantees

    The queues of libnvm as a process and the controller see them: the submission
    queue is a bounded FIFO, the completion queue delivers what was posted, in
    order, and a command carries the pages and fields it was built from. *)
From S2P Require Import Prelude KState P2p DevIoctl PhaseRing UserQueue UserCmd.

(** C28.  From a cleared queue whose length divides 2^16, any sequence of
    enqueues, submits and head updates, with one update per completed command,
    returns what a bounded FIFO of [qs - 1] commands returns: the slots in order,
    a refusal exactly when the FIFO is full, and a doorbell write exactly when
    there are new commands. *)
Theorem sq_refines_fifo q mm_ptr dstrd no qs vaddr ioaddr q' os :
  nvm_queue_clear q mm_ptr dstrd false no qs vaddr ioaddr = (0, q') → (qs | 2 ^ 16) →
  sq_legal vaddr SIZEOF_CMD qs (Fifo 0 0 0) os →
  (sq_run q' os).1 = (fifo_run vaddr SIZEOF_CMD qs (Fifo 0 0 0) os).1 ∧
  sq_repr (sq_run q' os).2 (fifo_run vaddr SIZEOF_CMD qs (Fifo 0 0 0) os).2.
Proof.
  intros Hc Hd Hl. pose proof (sq_repr_clear _ _ _ _ _ _ _ _ Hc Hd) as Hr. revert Hc.
  rw /nvm_queue_clear. destruct (_ || _); [done|]. intros [= <-].
  destruct (sq_run_refines os _ _ Hr Hl) as [He Hr']. by split.
Qed.

(** C29.  Around a completion queue, whatever the interleaving of the controller
    that posts and the process that dequeues and rings the doorbell: the process
    has taken a prefix of what was posted, the controller has never overwritten
    an entry that was not taken, and a poll returns the next entry exactly when
    there is one. *)
Theorem cq_delivers_in_order q mm_ptr dstrd no qs vaddr ioaddr q' mem w :
  nvm_queue_clear q mm_ptr dstrd true no qs vaddr ioaddr = (0, q') →
  Z.of_nat (length mem) = qs → Forall (λ c, cpl_tag c = false) mem →
  rtc cq_step (cq_start q' mem) w →
  let k := length (w_taken w) in
  w_taken w `prefix_of` w_posted w ∧
  Z.of_nat (length (w_posted w)) ≤ Z.of_nat k + w_qs w - 1 ∧
  (nvm_cq_poll (mem_status (q_vaddr (w_cq w)) (w_mem w)) (w_cq w) ≫=
     mem_entry (q_vaddr (w_cq w)) (w_mem w)) = w_posted w !! k.
Proof.
  intros Hc Hl Hm Hst k. pose proof (cq_inv_start _ _ _ _ _ _ _ _ _ Hc Hl Hm) as Hi.
  destruct (cq_inv_reachable _ _ _ Hi Hst) as [r Hw]. pose proof (cq_poll_spec w r Hw) as Hp.
  destruct Hw as [_ _ _ Ho Hpre _ _ _ _ _ _ _]. simpl in Hp. fold k in Hp, Ho, Hpre.
  split; [rw Hpre; apply prefix_take|]. split; [lia|].
  destruct (w_posted w !! k) as [c|]; [by destruct Hp as [-> Hp]; rw /= Hp|by rw Hp].
Qed.

(** The data pointer of a transfer that needs the lists. *)
Lemma prp_chain_case cap cmd l0 lists a0 ioaddrs n :
  let ls0 := l0 :: lists in
  length cmd = 16%nat → (0 < cap)%nat → Forall (λ l, length (pl_entries l) = cap) ls0 →
  NoDup (pl_ioaddr <$> ls0) → 0 ≤ pl_ioaddr l0 < 2 ^ 64 → 0 ≤ a0 < 2 ^ 64 → (S (S n) ≤ length ioaddrs)%nat →
  ∃ k cmd' lists', nvm_cmd_data cmd ls0 (S (S (S n))) (a0 :: ioaddrs) = Some (k, cmd', lists') ∧
    (k ≤ S (S (S n)))%nat ∧
    (k = S (S (S n)) ↔ (S (S (S n)) ≤ 2 + length ls0 * (cap - 1))%nat) ∧
    (k = S (S (S n)) → read_pages cap lists' cmd' (S (S (S n))) = Some (take (S (S (S n))) (a0 :: ioaddrs))).
Proof.
  intros ls0 Hcmd Hcap Hlen Hnd Hl0 Ha0 Hn.
  destruct (chain_total cap ls0 (S (S n)) ioaddrs Hcap ltac:(done) Hlen ltac:(lia)) as (ls & Hc & Hio).
  set (room := (length ls0 * (cap - 1))%nat) in *.
  set (k := if (S (S n) <=? room + 1)%nat then S (S n) else room) in *.
  assert (length ls = length ls0) as Hll by (by rw -(length_fmap pl_ioaddr) Hio length_fmap).
  destruct (cmd_prps cmd a0 (pl_ioaddr l0) Hcmd Ha0 Hl0) as [E1 E2].
  exists (S k), (nvm_cmd_data_ptr cmd a0 (pl_ioaddr l0)), ls. split; [|split; [|split]].
  - rw /nvm_cmd_data /ls0. cbn [lookup list_lookup mbind option_bind length Nat.ltb Nat.leb Nat.eqb negb andb].
    change (drop 1 (a0 :: ioaddrs)) with ioaddrs. change (S (S (S n)) - 1)%nat with (S (S n)).
    fold ls0. rw Hc //.
  - rw /k. destruct (Nat.leb_spec (S (S n)) (room + 1)); lia.
  - rw /k. destruct (Nat.leb_spec (S (S n)) (room + 1)); lia.
  - intros Ek. injection Ek as Ek. rw /read_pages E1 E2 Hll.
    rw (chain_read cap ls ls0 (S (S n)) ioaddrs l0 ls) //; [by rw Hio|lia|by rw Hc Ek].
Qed.

(** C30.  Building the data pointer of a command never leaves its lists: it
    covers all pages exactly when they fit the two pointers of the command and
    the lists, each of which gives one entry to the next, and then a controller
    that follows the command reads exactly the pages given. *)
Theorem prp_roundtrip cap cmd lists n ioaddrs :
  length cmd = 16%nat → (0 < cap)%nat → Forall (λ l, length (pl_entries l) = cap) lists →
  NoDup (pl_ioaddr <$> lists) → Forall (λ l, 0 ≤ pl_ioaddr l < 2 ^ 64) lists →
  Forall (λ a, 0 ≤ a < 2 ^ 64) ioaddrs → (n ≤ length ioaddrs)%nat →
  ∃ k cmd' lists', nvm_cmd_data cmd lists n ioaddrs = Some (k, cmd', lists') ∧ (k ≤ n)%nat ∧
    (k = n ↔ (n ≤ 2 + length lists * (cap - 1))%nat) ∧
    (k = n → read_pages cap lists' cmd' n = Some (take n ioaddrs)).
Proof.
  intros Hcmd Hcap Hlen Hnd Hla Hia Hn.
  assert (∀ m, (m ≤ 2)%nat → m = m ↔ (m ≤ 2 + length lists * (cap - 1))%nat) as Hfit.
  { intros m Hm. split; [|done]. intros _. by apply Nat.le_trans with 2%nat, Nat.le_add_r. }
  destruct n as [|[|[|n]]]; destruct ioaddrs as [|a0 ioaddrs]; try (simpl in Hn; lia).
  - exists 0%nat, cmd, lists. split_and!; try done. by apply Hfit; lia.
  - exists 0%nat, cmd, lists. split_and!; try done. by apply Hfit; lia.
  - apply Forall_cons in Hia as [Ha0 _]. destruct (cmd_prps cmd a0 0 Hcmd Ha0 ltac:(lia)) as [E1 _].
    exists 1%nat, (nvm_cmd_data_ptr cmd a0 0), lists. split_and!; try done; [apply Hfit; lia|].
    intros _. by rw /read_pages E1.
  - destruct ioaddrs as [|a1 ioaddrs]; [simpl in Hn; lia|]. apply Forall_cons in Hia as [Ha0 [Ha1 _]%Forall_cons].
    destruct (cmd_prps cmd a0 a1 Hcmd Ha0 Ha1) as [E1 E2].
    exists 2%nat, (nvm_cmd_data_ptr cmd a0 a1), lists. split_and!; try done; [apply Hfit; lia|].
    intros _. by rw /read_pages E1 E2.
  - apply Forall_cons in Hia as [Ha0 Hia]. destruct lists as [|l0 lists].
    + destruct ioaddrs as [|a1 ioaddrs]; [simpl in Hn; lia|].
      exists 2%nat, (nvm_cmd_data_ptr cmd a0 a1), []. split_and!; [done|lia|simpl; lia|lia].
    + apply prp_chain_case; try done; [by apply Forall_inv in Hla|simpl in Hn; lia].
Qed.

(** The fields of a command as a controller reads them. *)
Definition cmd_cid (cmd : nvm_cmd) : Z := Z.shiftr (dword cmd 0) 16.
Definition cmd_opcode (cmd : nvm_cmd) : Z := Z.land (dword cmd 0) 0xff.
Definition cmd_fuse_psdt (cmd : nvm_cmd) : Z := Z.land (dword cmd 0) 0xc300.
Definition cmd_slba (cmd : nvm_cmd) : Z := dword cmd 10 + 2 ^ 32 * dword cmd 11.
Definition cmd_nlb (cmd : nvm_cmd) : Z := Z.land (dword cmd 12) 0xffff.

(** A read or write command carries what it was built from, whatever the
    slot held before: id, opcode, namespace, both data pointers and the first
    block; the count is stored less one, so that 0 asks for 2^16 blocks; the
    transfer is not fused and uses PRPs; and no other word changes. *)
Theorem io_cmd_fields cmd cid opcode ns_id prp1 prp2 slba n_blks :
  length cmd = 16%nat → 0 ≤ cid < 2 ^ 16 → 0 ≤ opcode < 2 ^ 7 →
  0 ≤ prp1 < 2 ^ 64 → 0 ≤ prp2 < 2 ^ 64 → 0 ≤ slba < 2 ^ 64 → 0 ≤ n_blks < 2 ^ 16 →
  let c := io_cmd cid opcode ns_id prp1 prp2 slba n_blks cmd in
  cmd_cid c = cid ∧ cmd_opcode c = opcode ∧ cmd_fuse_psdt c = 0 ∧ dword c 1 = ns_id ∧
  cmd_prp1 c = prp1 ∧ cmd_prp2 c = prp2 ∧ cmd_slba c = slba ∧
  cmd_nlb c = (n_blks - 1) mod 2 ^ 16 ∧
  Z.land (dword c 12) 0xffff0000 = Z.land (dword cmd 12) 0xffff0000 ∧
  (∀ i, i ∉ [0; 1; 6; 7; 8; 9; 10; 11; 12]%nat → dword c i = dword cmd i).
Proof.
  intros Hl Hc Ho H1 H2 Hs Hb c. pose proof (header_kept cid opcode Hc Ho) as Hh.
  assert (∀ i, dword c i =
    if decide (i = 12)%nat then Z.lor (Z.land (dword cmd 12) 0xffff0000) (Z.land (n_blks - 1) 0xffff)
    else if decide (i = 11)%nat then u32 (Z.shiftr slba 32) else if decide (i = 10)%nat then u32 slba
    else if decide (i = 9)%nat then u32 (Z.shiftr prp2 32) else if decide (i = 8)%nat then u32 prp2
    else if decide (i = 7)%nat then u32 (Z.shiftr prp1 32) else if decide (i = 6)%nat then u32 prp1
    else if decide (i = 0)%nat then Z.lor (Z.shiftl cid 16) opcode
    else if decide (i = 1)%nat then ns_id else dword cmd i) as Hd.
  { intros i. rw /c /io_cmd /nvm_cmd_rw_blks /nvm_cmd_data_ptr /nvm_cmd_header.
    rw !dword_insert ?length_insert ?Hl; try lia. cbn [decide]. repeat case_decide; try done; by rw Hh. }
  clearbody c. rw /cmd_cid /cmd_opcode /cmd_fuse_psdt /cmd_prp1 /cmd_prp2 /cmd_slba /cmd_nlb !Hd.
  cbn -[Z.land Z.lor Z.shiftl Z.shiftr u32 Z.mul Z.add Z.pow].
  assert (Z.land opcode 0x7f = opcode) as E7.
  { change 0x7f with (Z.ones 7). rw Z.land_ones // Z.mod_small //. }
  rw shift_high; [|lia]. rw !land_low; try lia. rw !u32_halves //.
  split_and!; try done.
  - rw -{1}E7 -Z.land_assoc. change (Z.land 0x7f 0xff) with 0x7f. done.
  - rw -{1}E7 -Z.land_assoc. by rw Z.land_0_r.
  - rw Z.land_lor_distr_l -!Z.land_assoc. change (Z.land 0xffff0000 0xffff) with 0. rw Z.land_0_r Z.lor_0_l.
    change (Z.land 0xffff 0xffff) with (Z.ones 16). by rw Z.land_ones.
  - rw Z.land_lor_distr_l -!Z.land_assoc. change (Z.land 0xffff 0xffff0000) with 0. by rw Z.land_0_r Z.lor_0_r.
  - intros i Hi. rw Hd. repeat (case_decide; [subst; exfalso; apply Hi; set_solver|]). done.
Qed.

(** The library computes the doorbell registers of a queue from the
    exponent of the stride, the driver from the stride itself: they agree while
    the offset fits 32 bits. *)
Theorem doorbells_agree e q :
  0 ≤ e → 0 ≤ q → NVME_REG_DBS + (2 * q + 2) * 2 ^ e * 4 < 2 ^ 32 →
  SQ_DBL 0 q e = sq_doorbell (2 ^ e) q ∧ CQ_DBL 0 q e = cq_doorbell (2 ^ e) q.
Proof.
  intros He Hq Hm. pose proof (Z.pow_pos_nonneg 2 e ltac:(lia) He) as Hp.
  rw /SQ_DBL /CQ_DBL /sq_doorbell /cq_doorbell Z.shiftl_mul_pow2 //. rw /NVME_REG_DBS in Hm |- *.
  rw !u32_id; [|nia|nia]. lia.
Qed.

(** The slots one thread gets from successive calls. *)
Fixpoint enqueue_n_calls (sq : nvm_queue) (n i : Z) (calls : nat) : option Z * nvm_queue :=
  match calls with
  | O => (None, sq)
  | S calls =>
    let '(last, sq) := enqueue_n_calls sq n i calls in
    nvm_sq_enqueue_n sq last n i
  end.

Section enqueue_n.
Variables (sq : nvm_queue) (n i : Z).
Hypothesis Hq : 0 < q_qs sq ≤ 2 ^ 16.
Hypothesis He : 0 < q_es sq.
Hypothesis Hi : 0 ≤ i < n.
Hypothesis Hn : n < q_qs sq.
Hypothesis Ht : 0 ≤ q_tail sq < q_qs sq.

Lemma enqueue_n_keep k :
  let r := enqueue_n_calls sq n i k in
  q_vaddr r.2 = q_vaddr sq ∧ q_es r.2 = q_es sq ∧ q_qs r.2 = q_qs sq ∧
  q_tail r.2 = (if i =? 0 then slot_of (q_qs sq) (q_tail sq + Z.of_nat k * n) else q_tail sq).
Proof.
  induction k as [|k IH]; simpl.
  - split_and!; try done. destruct (i =? 0); [|done]. rw Z.mul_0_l Z.add_0_r /slot_of Z.mod_small //.
  - destruct (enqueue_n_calls sq n i k) as [last sq']. simpl in IH. destruct IH as (Ev & Ee & Eq & Et).
    rw /nvm_sq_enqueue_n Ev Ee Eq (proj2 (Z.leb_gt _ _)) //. destruct (i =? 0); simpl; [|done].
    split_and!; try done. rw Et u32_id.
    + rw /slot_of Zplus_mod_idemp_l. f_equal. lia.
    + pose proof (slot_range (q_qs sq) ltac:(lia) (q_tail sq + Z.of_nat k * n)). lia.
Qed.

(** One step around the ring. *)
Lemma slot_jump m :
  slot_of (q_qs sq) (m + n) =
  let s := slot_of (q_qs sq) m + n in if q_qs sq <=? s then s - q_qs sq else s.
Proof.
  pose proof (slot_range (q_qs sq) ltac:(lia) m) as Hs. set (s := slot_of (q_qs sq) m + n).
  assert (slot_of (q_qs sq) (m + n) = s mod q_qs sq) as -> by (by rw /s /slot_of Zplus_mod_idemp_l).
  cbn zeta. destruct (Z.leb_spec (q_qs sq) s); [|apply Z.mod_small; lia].
  rw Zmod_eq_full; [|lia]. rw -(Z.div_unique_pos _ _ 1 (s - q_qs sq)); lia.
Qed.

Lemma enqueue_n_slot k :
  (enqueue_n_calls sq n i (S k)).1 =
  Some (q_vaddr sq + q_es sq * slot_of (q_qs sq) (Z.of_nat k * n + i)).
Proof.
  induction k as [|k IH].
  - simpl. rw /nvm_sq_enqueue_n (proj2 (Z.leb_gt _ _)) //=. do 2 f_equal. rw /slot_of Z.mod_small; lia.
  - pose proof (enqueue_n_keep (S k)) as (Ev & Ee & Eq & _).
    change (enqueue_n_calls sq n i (S (S k))) with
      (let '(last, sq) := enqueue_n_calls sq n i (S k) in nvm_sq_enqueue_n sq last n i).
    destruct (enqueue_n_calls sq n i (S k)) as [last sq']. simpl in IH, Ev, Ee, Eq. subst last.
    rw /nvm_sq_enqueue_n Ev Ee Eq (proj2 (Z.leb_gt _ _)) //=. f_equal.
    replace (Z.of_nat (S k) * n + i) with (Z.of_nat k * n + i + n) by lia. rw slot_jump. cbn zeta.
    generalize (slot_of (q_qs sq) (Z.of_nat k * n + i)) as s. intros s.
    destruct (Z.leb_spec (q_vaddr sq + q_qs sq * q_es sq) (q_vaddr sq + q_es sq * s + n * q_es sq)),
      (Z.leb_spec (q_qs sq) (s + n)); nia.
Qed.

(** When [n] threads, fewer than the queue has slots, share a queue, the
    call number [k] (from 0) of thread [i] takes the slot of command [k * n + i],
    so that the threads together take every command's slot once and in order;
    and thread 0 leaves the tail behind all of them. *)
Theorem enqueue_n_slots k :
  let r := enqueue_n_calls sq n i (S k) in
  r.1 = Some (q_vaddr sq + q_es sq * slot_of (q_qs sq) (Z.of_nat k * n + i)) ∧
  q_tail r.2 = (if i =? 0 then slot_of (q_qs sq) (q_tail sq + (Z.of_nat k + 1) * n) else q_tail sq).
Proof.
  intros r. split; [apply enqueue_n_slot|]. pose proof (enqueue_n_keep (S k)) as (_ & _ & _ & Et). rw -/r in Et.
  rw Et. destruct (i =? 0); [|done]. f_equal. lia.
Qed.
End enqueue_n.

(** ** Instances *)

Module witness.
Definition blank_queue : nvm_queue := NvmQueue 0 0 0 0 0 0 0 None 0 0.
Definition sq4 : nvm_queue := (nvm_queue_clear blank_queue 0 0 false 5 4 0x1000 0).2.
Definition cq4 : nvm_queue := (nvm_queue_clear blank_queue 0 0 true 5 4 0x2000 0).2.
Definition no_cpl : nvm_cpl := NvmCpl 0 0 0 0 0.
Definition a_cpl : nvm_cpl := NvmCpl 7 0 0 3 1.

(** Three commands fill a queue of four slots; completing one makes room. *)
Definition fill4 : list sq_op :=
  [SqEnqueue; SqEnqueue; SqEnqueue; SqEnqueue; SqSubmit; SqUpdate; SqEnqueue; SqSubmit; SqSubmit].
Lemma sq_refines_fifo_witness :
  (sq_run sq4 fill4).1 =
    [SqSlot (Some 0x1000); SqSlot (Some 0x1040); SqSlot (Some 0x1080); SqSlot None; SqBell (Some 3); SqDone;
     SqSlot (Some 0x10c0); SqBell (Some 0); SqBell None].
Proof.
  destruct (sq_refines_fifo blank_queue 0 0 5 4 0x1000 0 sq4 fill4) as [E _].
  - reflexivity.
  - exists (2 ^ 14). reflexivity.
  - vm_compute. repeat (split; [discriminate || reflexivity || done|]). exact I.
  - rw E. reflexivity.
Defined.

(** One entry posted and not yet taken. *)
Lemma cq_delivers_in_order_witness :
  ∃ w, rtc cq_step (cq_start cq4 (replicate 4 no_cpl)) w ∧ w_posted w = [a_cpl] ∧
    (nvm_cq_poll (mem_status (q_vaddr (w_cq w)) (w_mem w)) (w_cq w) ≫=
      mem_entry (q_vaddr (w_cq w)) (w_mem w)) = Some a_cpl.
Proof.
  eexists. split; [eapply rtc_once, (cq_post a_cpl); [reflexivity|vm_compute; discriminate]|]. split; [reflexivity|].
  refine (eq_trans (proj2 (proj2 (cq_delivers_in_order blank_queue 0 0 5 4 0x2000 0 cq4 (replicate 4 no_cpl) _ _ _ _ _))) _).
  - reflexivity.
  - reflexivity.
  - vm_compute. repeat constructor.
  - eapply rtc_once, (cq_post a_cpl); [reflexivity|vm_compute; discriminate].
  - reflexivity.
Defined.

(** Five pages through two lists of three entries. *)
Definition two_lists : list prp_list := [PrpList 0x100 [0; 0; 0]; PrpList 0x200 [0; 0; 0]].
Definition six_pages : list Z := [11; 12; 13; 14; 15; 16].
Lemma prp_roundtrip_witness :
  ∃ cmd' lists', nvm_cmd_data (replicate 16 0) two_lists 6 six_pages = Some (6%nat, cmd', lists') ∧
    read_pages 3 lists' cmd' 6 = Some six_pages.
Proof.
  destruct (prp_roundtrip 3 (replicate 16 0) two_lists 6 six_pages) as (k & cmd' & lists' & E & _ & Hk & Hr).
  - reflexivity.
  - lia.
  - repeat constructor.
  - repeat constructor; set_solver.
  - repeat (constructor; [simpl; lia|]). constructor.
  - repeat (constructor; [simpl; lia|]). constructor.
  - simpl. lia.
  - exists cmd', lists'. assert (k = 6%nat) as -> by (apply Hk; simpl; lia). split; [exact E|by apply Hr].
Defined.

Lemma io_cmd_fields_witness :
  let c := io_cmd 9 NVM_IO_READ 1 0x1234500000000 0x6000 0x123456789a 8 (replicate 16 0) in
  cmd_cid c = 9 ∧ cmd_slba c = 0x123456789a ∧ cmd_nlb c = 7.
Proof.
  destruct (io_cmd_fields (replicate 16 0) 9 NVM_IO_READ 1 0x1234500000000 0x6000 0x123456789a 8)
    as (Hc & _ & _ & _ & _ & _ & Hs & Hn & _); try reflexivity; try (vm_compute; split; (discriminate || reflexivity)).
  split; [exact Hc|]. split; [exact Hs|exact Hn].
Defined.

Lemma doorbells_agree_witness : SQ_DBL 0 5 2 = sq_doorbell 4 5 ∧ CQ_DBL 0 5 2 = cq_doorbell 4 5.
Proof. apply (doorbells_agree 2 5); vm_compute; (reflexivity || discriminate). Defined.

(** Thread 1 of 3 on a queue of four slots: commands 1, 4 and 7. *)
Lemma enqueue_n_slots_witness :
  (enqueue_n_calls sq4 3 1 3).1 = Some (0x1000 + 64 * slot_of 4 7).
Proof.
  refine (proj1 (enqueue_n_slots sq4 3 1 _ _ _ _ _ 2)); vm_compute;
    (reflexivity || (split; (reflexivity || discriminate))).
Defined.
End witness.
