(* ===== verification/SpecKernel.v ===== *)
(** * What the driver's own queues guarantee

    Submission, completion and command ids of the kernel driver. *)
From S2P Require Import Prelude PhaseRing UserQueue UserCmd KernelRing KernelCq KernelPrp KernelMap.

(** A queue as [nvme_init_queue] leaves it, over rings of [depth] slots and
    shadow doorbells that are absent or zero. *)
Definition fresh_queue (q : nvme_queue) (depth : Z) : Prop :=
  2 ≤ depth ≤ 2 ^ 16 ∧ nq_q_depth q = depth ∧ Z.of_nat (length (nq_sq_cmds q)) = depth ∧
  Z.of_nat (length (nq_cqes q)) = depth ∧ nq_dbbuf_sq_db q = None ∧ nq_dbbuf_cq_db q = None.
Definition shadow_ok (depth : Z) (dbs : option (Z → Z)) (eis : Z → Z) : Prop :=
  match dbs with Some dbs => ∀ i, dbs i = 0 ∧ 0 ≤ eis i < depth | None => True end.

(** The event index the specification starts from. *)
Definition start_ei (dbs : option (Z → Z)) (eis : Z → Z) (stride qid : Z) : option Z :=
  _ ← dbs; if qid =? 0 then None else Some (eis (sq_idx qid stride)).

Lemma init_queue_repr q depth dbs eis stride qid :
  fresh_queue q depth → shadow_ok depth dbs eis →
  kq_repr 1 (nvme_init_queue dbs eis stride q qid) (Announced [] 0 (start_ei dbs eis stride qid)).
Proof.
  intros (Hd & Eq & Hl & _ & Hs & _) Hdb. rw /nvme_init_queue /nvme_dbbuf_init /start_ei.
  assert (slot_of depth 0 = 0) as H0 by (by rw /slot_of Zmod_0_l).
  destruct dbs as [dbs|]; [destruct (qid =? 0)|]; split; simpl; rw ?Eq ?H0 //; try lia.
  - destruct (Hdb (sq_idx qid stride)) as [-> _]. done.
  - intros ei [= <-]. split; [done|]. apply Hdb.
Qed.

(** C34.  For a queue that starts with no shadow doorbells, or with shadow
    doorbells that are 0 and event indexes within the queue ([nvme_init_queue] does
    not clear a stale one: [stale_shadow_doorbell] in Findings.v).  Whatever
    requests are submitted, in batches or alone, and wherever in the queue the
    controller moves its event index: the commands are in the queue in order, the
    doorbell is rung with the position after the last command exactly when a batch
    ends, is committed, or fills the queue, and left out exactly when the
    controller's event index says so; at most [depth - 2] commands wait
    unannounced, so that a commit never takes a full queue for an empty one. *)
Theorem driver_announces q depth dbs eis stride qid os :
  fresh_queue q depth → shadow_ok depth dbs eis → Forall (op_ok depth) os →
  let q0 := nvme_init_queue dbs eis stride q qid in
  let spec := announced_run depth (qid * 2 * stride) (Announced [] 0 (start_ei dbs eis stride qid)) os in
  (kq_run q0 os).1 = spec.1 ∧ kq_repr 1 (kq_run q0 os).2 spec.2.
Proof.
  intros Hq Hdb Hos q0. pose proof (init_queue_repr q depth dbs eis stride qid Hq Hdb) as Hr. fold q0 in Hr.
  assert (nq_q_depth q0 = depth ∧ nq_q_db q0 = qid * 2 * stride) as [Ed Eb].
  { destruct Hq as (_ & Eq & _). rw /q0 /nvme_init_queue /nvme_dbbuf_init.
    destruct dbs; [destruct (qid =? 0)|]; done. }
  pose proof (kq_run_refines os q0 _ Hr) as H. rw Ed Eb in H. by apply H.
Qed.

(** The completion queue [nvme_init_queue] leaves, and a controller that was
    told to start from it. *)
Definition cq_begin (q : nvme_queue) (tags : blk_mq_tags) : cq_state := CqState q tags [] 0 true 0 [].

(** The states between two runs of the handler, with the number of entries the
    runs so far returned: it runs on any schedule of the controller's posts, the
    block layer answers anything, and the controller moves the event index to any
    position of the queue. *)
Inductive cq_reachable (stride : Z) (st : cq_state) : cq_state → Z → Prop :=
| cqr_refl : cq_reachable stride st st 0
| cqr_post st' k c : cq_reachable stride st st' k → cq_reachable stride st (ctrl_post st' c) k
| cqr_event st' k ei :
    cq_reachable stride st st' k → 0 ≤ ei < nq_q_depth (cs_q st') →
    cq_reachable stride st (ctrl_event st' ei) k
| cqr_handler st' k fake remote fuel posts found w st'' :
    cq_reachable stride st st' k → nvme_process_cq fake remote fuel posts stride st' = Some (found, w, st'') →
    nq_q_depth (cs_q st') ≤ Z.of_nat fuel →
    cq_reachable stride st st'' (k + found).

Lemma cq_begin_inv q depth dbs eis stride qid tags :
  fresh_queue q depth → shadow_ok depth dbs eis →
  kc_inv (cq_begin (nvme_init_queue dbs eis stride q qid) tags) 0 0.
Proof.
  intros (Hd & Eq & _ & Hl & _ & Hs) Hdb. rw /nvme_init_queue /nvme_dbbuf_init.
  assert (slot_of depth 0 = 0 ∧ phase_of depth 0 = true) as [H0 H1] by (rw /slot_of /phase_of Zmod_0_l Zdiv_0_l //).
  assert (ring_ok cqe_tag depth [] (replicate (length (nq_cqes q)) (Cqe 0 0 0 0 0))) as Hring.
  { apply ring_ok_blank; [by rw length_replicate|]. by apply Forall_replicate. }
  destruct dbs as [dbs|]; [destruct (qid =? 0)|]; split; simpl; rw ?Eq ?H0 ?H1 //; try lia; try congruence.
  intros db [= <-]. destruct (Hdb (cq_idx qid stride)) as [-> ?]. done.
Qed.

Lemma event_index_inv st k ei :
  kc_inv st k k → 0 ≤ ei < nq_q_depth (cs_q st) →
  kc_inv (ctrl_event st ei) k k.
Proof. intros [Hd Ho Hr Hh Hp Ht Htp Hhd Hdb] He. split; try done. intros db E. by destruct (Hdb db E). Qed.

Lemma cq_reachable_inv stride st st' k :
  cq_reachable stride st st' k → kc_inv st 0 0 → kc_inv st' k k.
Proof.
  induction 1 as [|st' k c _ IH|st' k ei _ IH He|st' k fake remote fuel posts found w st'' _ IH Hrun Hfuel]; intros Hi;
    [done|by apply ctrl_post_inv, IH|by apply event_index_inv; [apply IH|]|].
  destruct (process_cq_spec fake remote fuel posts stride st' k (IH Hi) Hfuel) as (w' & s & Hrun' & Hi'' & _).
  rw Hrun in Hrun'. injection Hrun' as -> _ ->. by replace (k + (Z.of_nat (length (cs_posted s)) - k))
    with (Z.of_nat (length (cs_posted s))) by lia.
Qed.

(** C35.  For a queue whose shadow doorbells, if it has any, are 0 at the start:
    in every state it reaches, where the earlier runs of the handler returned [k]
    entries in all, the handler terminates although the controller keeps posting
    (as many rounds as the queue has slots are enough) and handles, in the order
    of posting, exactly the entries posted by then but for the first [k]; it
    returns their number.  So the runs together handle the first entry posted, then
    the second, and so on, each once, none of those posted when a run ends left
    out.  The doorbell is rung with the position after the last entry; it is left
    out exactly when there was no entry, or when the queue has shadow doorbells
    and the entries do not pass the controller's event index. *)
Theorem handler_handles_all q depth dbs eis stride qid tags st k fake remote fuel posts :
  fresh_queue q depth → shadow_ok depth dbs eis →
  cq_reachable stride (cq_begin (nvme_init_queue dbs eis stride q qid) tags) st k →
  nq_q_depth (cs_q st) ≤ Z.of_nat fuel →
  let depth := nq_q_depth (cs_q st) in
  0 ≤ k ≤ Z.of_nat (length (cs_posted st)) ∧ nq_cq_head (cs_q st) = slot_of depth k ∧
  ∃ w st', let n := Z.of_nat (length (cs_posted st')) in
    nvme_process_cq fake remote fuel posts stride st = Some (n - k, w, st') ∧
    cs_posted st `prefix_of` cs_posted st' ∧
    (cs_tags st', cs_log st') =
      handle_entries fake remote (nq_qid (cs_q st)) (drop (Z.to_nat k) (cs_posted st')) (cs_tags st, cs_log st) ∧
    nq_cq_head (cs_q st') = slot_of depth n ∧ cs_head st' = nq_cq_head (cs_q st') ∧
    (w ≠ None → w = Some (nq_q_db (cs_q st) + stride, nq_cq_head (cs_q st'))) ∧
    (w = None ↔ n = k ∨ is_Some (nq_dbbuf_cq_db (cs_q st)) ∧
       n - k ≤ (nq_dbbuf_cq_ei (cs_q st) - slot_of depth k) mod depth).
Proof.
  intros Hq Hdb Hst Hfuel. pose proof (cq_reachable_inv _ _ _ _ Hst (cq_begin_inv _ _ _ _ _ _ _ Hq Hdb)) as Hi.
  destruct (process_cq_spec fake remote fuel posts stride st k Hi Hfuel) as (w & st' & Hrun & Hi' & Ed & Hp & Hh & Hw & Hn).
  pose proof (kc_order _ _ _ Hi) as Ho. split; [lia|]. split; [apply Hi|].
  exists w, st'. cbn zeta in Hrun, Hi' |- *. pose proof (kc_cq_head _ _ _ Hi') as Hhd. pose proof (kc_head _ _ _ Hi') as Hh'.
  rw Ed in Hhd Hh'. rw Hhd. by split_and!.
Qed.

(** A request that was started [k] more times. *)
Definition restarted (k : nat) (rq : nvme_request) : nvme_request :=
  Nat.iter k (λ rq, (setup_cid false rq).2) rq.

Lemma restarted_fields k rq :
  0 ≤ rq_genctr rq < 2 ^ 8 →
  rq_tag (restarted k rq) = rq_tag rq ∧ rq_genctr (restarted k rq) = u8 (rq_genctr rq + Z.of_nat k).
Proof.
  intros Hg. induction k as [|k [IHt IHg]]; simpl.
  - split; [done|]. rw Z.add_0_r /u8 Z.mod_small //.
  - split; [done|]. rw -/(restarted k rq) IHg /u8 Zplus_mod_idemp_l. f_equal. lia.
Qed.

(** The two fields of a command id. *)
Lemma cid_value rq :
  0 ≤ rq_tag rq < 2 ^ 12 → nvme_cid rq = (rq_genctr rq mod 16) * 2 ^ 12 + rq_tag rq.
Proof.
  intros Ht. rw /nvme_cid /nvme_cid_install_genctr /nvme_genctr_mask.
  change 0xf with (Z.ones 4). rw Z.land_ones //. change (2 ^ 4) with 16.
  pose proof (Z.mod_pos_bound (rq_genctr rq) 16 ltac:(lia)) as Hg. set (g := rq_genctr rq mod 16) in *.
  assert (Z.land (Z.shiftl g 12) (rq_tag rq) = 0) as Hl.
  { rw -(Z.mod_small (rq_tag rq) (2 ^ 12)) // -Z.land_ones // (Z.land_comm (rq_tag rq)) Z.land_assoc.
    rw Z.land_ones // Z.shiftl_mul_pow2 // Z_mod_mult. done. }
  pose proof (Z.add_lor_land (Z.shiftl g 12) (rq_tag rq)) as Ha. rw Hl Z.add_0_r in Ha. rw Ha.
  rw Z.shiftl_mul_pow2 // /u16 Z.mod_small //. lia.
Qed.
Lemma cid_parts g t :
  0 ≤ g < 16 → 0 ≤ t < 2 ^ 12 →
  nvme_genctr_from_cid (g * 2 ^ 12 + t) = g ∧ nvme_tag_from_cid (g * 2 ^ 12 + t) = t.
Proof.
  intros Hg Ht. rw /nvme_genctr_from_cid /nvme_tag_from_cid.
  assert (Z.shiftr (g * 2 ^ 12 + t) 12 = g) as Hs.
  { rw Z.shiftr_div_pow2 // Z.add_comm Z_div_plus_full // Zdiv_small //. }
  split.
  - rw Z.shiftr_land Hs. change (Z.shiftr 0xf000 12) with (Z.ones 4). rw Z.land_ones // Z.mod_small //.
  - change 0xfff with (Z.ones 12). rw Z.land_ones // Z.add_comm Z_mod_plus_full Z.mod_small //.
Qed.

(** C36.  A completion is matched to a request by its tag and its generation:
    the id a request got when it was started for the [n]th time finds it after [m]
    starts exactly when [m - n] is a multiple of 16, so that the id of the current
    start always does and the fifteen before it never do; and only ids of the admin
    queue at or above the reserved tag are asynchronous events. *)
Theorem cid_generation tags rq n m qid :
  0 ≤ rq_tag rq < 2 ^ 12 → 0 ≤ rq_genctr rq < 2 ^ 8 →
  let cid := nvme_cid (restarted n rq) in
  nvme_find_rq (<[rq_tag rq := restarted m rq]> tags) cid =
    (if bool_decide ((Z.of_nat m - Z.of_nat n) mod 16 = 0) then Some (restarted m rq) else None) ∧
  nvme_is_aen_req qid cid = (qid =? 0) && (NVME_AQ_BLK_MQ_DEPTH <=? rq_tag rq).
Proof.
  intros Ht Hg cid. destruct (restarted_fields n rq Hg) as [Etn Egn]. destruct (restarted_fields m rq Hg) as [Etm Egm].
  assert (∀ k, u8 (rq_genctr rq + k) mod 16 = (rq_genctr rq + k) mod 16) as H16.
  { intros k. rw /u8 Z.mod_mod_divide //. by exists 16. }
  assert (cid = (rq_genctr rq + Z.of_nat n) mod 16 * 2 ^ 12 + rq_tag rq) as ->.
  { rw /cid cid_value ?Etn // Egn H16 //. }
  pose proof (Z.mod_pos_bound (rq_genctr rq + Z.of_nat n) 16 ltac:(lia)) as Hgn.
  destruct (cid_parts _ _ Hgn Ht) as [E1 E2]. rw /nvme_find_rq /nvme_is_aen_req E1 E2. split; [|done].
  assert (u16 (rq_tag rq) = rq_tag rq) as -> by (apply Z.mod_small; lia). rw lookup_insert_eq.
  cbn [mbind option_bind]. rw /nvme_genctr_mask. change 0xf with (Z.ones 4). rw Z.land_ones // Egm H16 /u8.
  rw (Z.mod_small (_ mod 16)); [|lia]. set (g := rq_genctr rq).
  assert ((g + Z.of_nat m) mod 16 = (g + Z.of_nat n) mod 16 ↔ (Z.of_nat m - Z.of_nat n) mod 16 = 0) as Hiff.
  { Z.div_mod_to_equations. lia. }
  destruct (Z.eqb_spec ((g + Z.of_nat m) mod 16) ((g + Z.of_nat n) mod 16)) as [E|E]; simpl;
    [rw bool_decide_eq_true_2 //|rw bool_decide_eq_false_2 //]; naive_solver.
Qed.



(** ** The data of a request *)

Section request.
Variables (alloc : bool → nat → option prp_list) (salloc : bool → nat → option sgl_page).
Variables (sgl_supported : bool) (sgl_threshold qid : Z).

(** What the block layer and the DMA API promise of a request: a single segment
    is its one [bio_vec], DMA addresses keep the offset in the page, elements meet
    at page boundaries; and the list pages it may need can be stored behind the
    scatter list ([rk_room]: the code reserves room by the largest request, which
    is too little for long requests in few segments, [iod_list_overflow] in
    Findings.v). *)
Record request_ok (rq : request) : Prop := {
  rk_payload : 0 < r_payload rq;
  rk_bvec : r_nseg rq = 1 → r_payload rq = r_bv_len rq ∧ 0 ≤ r_bv_offset rq ∧ r_bv_len rq < 2 ^ 32;
  rk_dma : ∀ dma, r_bv_dma rq = Some dma →
    0 ≤ dma ∧ dma + r_bv_len rq ≤ 2 ^ 64 ∧ dma mod NVME_CTRL_PAGE_SIZE = r_bv_offset rq mod NVME_CTRL_PAGE_SIZE;
  rk_sgl : r_mapped rq ≠ [] →
    sgl_ok (r_mapped rq) (r_payload rq) ∧ Forall (λ sg, 0 < sg_dma_len sg < 2 ^ 32) (r_mapped rq) ∧
    Z.of_nat (length (r_mapped rq)) ≤ NVME_MAX_SEGS;
  rk_room : (0 < iod_list_room (r_nseg rq))%nat ∧
    r_payload rq ≤ (512 + 511 * (Z.of_nat (iod_list_room (r_nseg rq)) - 1)) * NVME_CTRL_PAGE_SIZE;
}.

(** Where the data of a request is: its one [bio_vec], when the driver maps that
    alone, or its mapped scatter list. *)
Definition request_data (rq : request) : list scatterlist :=
  match r_bv_dma rq with
  | Some dma =>
    if (r_nseg rq =? 1) && negb (r_bv_p2p rq) &&
       ((r_bv_offset rq + r_bv_len rq <=? NVME_CTRL_PAGE_SIZE * 2) ||
        (negb (qid =? 0) && negb (sgl_threshold =? 0) && sgl_supported))
    then [Sg dma (r_bv_len rq)] else r_mapped rq
  | None => r_mapped rq
  end.

(** A result of mapping: every byte is found and unmapping gives everything
    back, or everything has been given back already. *)
Definition mapping_good (data : list scatterlist) (payload : Z) (r : option mapping_result) : Prop :=
  match r with
  | Some (BLK_STS_OK, m, Some d, evs) =>
    (∀ k, 0 ≤ k < payload → ∃ b, sg_byte data k = Some b ∧ dptr_byte m d payload k = Some b) ∧
    ∃ evs', nvme_unmap_data m = Some evs' ∧ balanced (evs ++ evs')
  | Some (BLK_STS_RESOURCE, _, None, evs) => balanced evs
  | _ => False
  end.

Lemma prp_simple_good rq m prp2 dma :
  request_ok rq → r_nseg rq = 1 → r_bv_dma rq = Some dma →
  r_bv_offset rq + r_bv_len rq ≤ NVME_CTRL_PAGE_SIZE * 2 →
  mapping_good [Sg dma (r_bv_len rq)] (r_payload rq) (Some (nvme_setup_prp_simple rq m prp2)).
Proof.
  intros [Hp Hb Hd _ _] H1 Hdma Hle. destruct (Hb H1) as (Ep & Ho & Hl). destruct (Hd dma Hdma) as (Ha & Hb64 & Hm).
  rw /nvme_setup_prp_simple Hdma land_page -Hm.
  split; [|eexists; split; [rw /nvme_unmap_data /c_true /= (proj2 (Z.eqb_neq (r_bv_len rq) 0)) //; lia|]].
  2:{ rw /balanced. cbn. done. }
  intros k Hk. cbn [sg_byte sg_dma_len sg_dma_address]. rw (proj2 (Z.ltb_lt k (r_bv_len rq))); [|lia].
  eexists. split; [done|]. rw /dptr_byte /prp_byte. cbn [fst snd im_prps].
  set (first := NVME_CTRL_PAGE_SIZE - dma mod NVME_CTRL_PAGE_SIZE).
  destruct (Z.ltb_spec k first) as [Hf|Hf]; [done|]. rw (proj2 (Z.ltb_lt first (r_bv_len rq))); [|lia].
  assert (0 ≤ first ∧ r_payload rq - first ≤ NVME_CTRL_PAGE_SIZE) as [H0 Hlast].
  { rw /first Hm. rw /NVME_CTRL_PAGE_SIZE in Hle |- *. Z.div_mod_to_equations. lia. }
  rw /prp_entries (proj2 (Z.leb_gt _ _)); [|lia]. rw (proj2 (Z.leb_le _ _) Hlast).
  cbn [mbind option_bind]. rw Zdiv_small; [|lia]. rw Zmod_small; [|lia]. cbn [lookup list_lookup Z.to_nat mbind option_bind].
  rw /u64 (Z.mod_small (dma + first)); [|lia]. simpl. f_equal. lia.
Qed.

Lemma sgl_simple_good rq m dma :
  request_ok rq → r_nseg rq = 1 → r_bv_dma rq = Some dma →
  mapping_good [Sg dma (r_bv_len rq)] (r_payload rq) (Some (nvme_setup_sgl_simple rq m)).
Proof.
  intros [Hp Hb Hd _ _] H1 Hdma. destruct (Hb H1) as (Ep & Ho & Hl). rw /nvme_setup_sgl_simple Hdma.
  split; [|eexists; split; [rw /nvme_unmap_data /c_true /= (proj2 (Z.eqb_neq (r_bv_len rq) 0)) //; lia|]].
  2:{ rw /balanced. cbn. done. }
  intros k Hk. cbn [sg_byte sg_dma_len sg_dma_address]. rw (proj2 (Z.ltb_lt k (r_bv_len rq))); [|lia].
  eexists. split; [done|]. rw /dptr_byte /sgl_descs. cbn [sge_type im_sgls]. rw Z.eqb_refl.
  cbn [mbind option_bind desc_byte sge_length sge_addr]. rw u32_id; [|lia].
  rw (proj2 (Z.ltb_lt k (r_bv_len rq))) //. lia.
Qed.
Hypothesis Hpool : pool_ok alloc.
Hypothesis Hspool : spool_ok salloc.

Lemma map_with_prps_good rq m :
  request_ok rq → r_mapped rq ≠ [] → im_npages m = -1 →
  match map_with_prps alloc (iod_list_room (r_nseg rq)) rq m with
  | Some (st, m', d, evs) =>
    mapping_good (r_mapped rq) (r_payload rq)
      (match st with
       | BLK_STS_OK => Some (BLK_STS_OK, m', d, EvIodAlloc :: EvMapSg (r_p2p rq) (r_nents rq) :: evs)
       | _ => Some (st, m', None, (EvIodAlloc :: EvMapSg (r_p2p rq) (r_nents rq) :: evs) ++
                [EvUnmapSg (r_p2p rq) (r_nents rq); EvIodFree])
       end)
  | None => False
  end.
Proof.
  intros [Hp _ _ Hs [Hc Hroom]] Hne Em. destruct (Hs Hne) as (Hok & _ & _). rw /map_with_prps Em.
  pose proof (setup_prps_good alloc _ _ _ (im_first_dma m) Hpool Hok Hp Hc Hroom) as Hg. rw /prps_good in Hg.
  destruct (nvme_pci_setup_prps _ _ _ _ _) as [[[[st iod] d] freed]|]; [|done].
  assert (∀ s (l : list prp_list), ((λ p, EvPoolAlloc s (pl_ioaddr p)) <$> l) = EvPoolAlloc s <$> (pl_ioaddr <$> l)) as Hfm
    by (intros; by rw -list_fmap_compose).
  rw Hfm. destruct st.
  - destruct d as [[p1 p2]|]; [|done]. destruct freed; [|done]. destruct Hg as (Hb & Hf1 & Hf0 & Hfn).
    split; [done|]. rw /nvme_unmap_data. cbn [im_dma_len im_npages im_use_sgl im_first_dma im_prps im_p2p im_nents c_true].
    change (c_true 0) with false. cbn iota. cbn [fmap list_fmap]. rw app_nil_r.
    destruct (Z.eqb_spec (iod_npages iod) 0) as [E|E].
    + rw (Hf0 E). eexists. split; [done|]. apply (balanced_lists true _ _ [_]).
    + assert (nvme_free_prps iod = Some (pl_ioaddr <$> iod_list iod)) as Hf.
      { destruct (Z.lt_trichotomy (iod_npages iod) 0) as [Hn|[?|Hn]]; [|done|by apply Hf1].
        rw /nvme_free_prps (Hfn Hn) take_nil //. }
      destruct iod as [np fd il]. cbn [iod_npages iod_first_dma iod_list] in *. rw Hf. eexists. split; [done|].
      apply balanced_lists.
  - destruct d; [done|]. destruct Hg as (_ & Hn0 & ->). rw (proj2 (Z.eqb_neq _ _) Hn0). apply balanced_lists.
  - by destruct d.
Qed.

Lemma map_with_sgls_good rq m :
  request_ok rq → r_mapped rq ≠ [] → im_npages m = -1 →
  match map_with_sgls salloc (iod_list_room (r_nseg rq)) rq m with
  | Some (st, m', d, evs) =>
    mapping_good (r_mapped rq) (r_payload rq)
      (match st with
       | BLK_STS_OK => Some (BLK_STS_OK, m', d, EvIodAlloc :: EvMapSg (r_p2p rq) (r_nents rq) :: evs)
       | _ => Some (st, m', None, (EvIodAlloc :: EvMapSg (r_p2p rq) (r_nents rq) :: evs) ++
                [EvUnmapSg (r_p2p rq) (r_nents rq); EvIodFree])
       end)
  | None => False
  end.
Proof.
  intros [Hp _ _ Hs [Hc _]] Hne Em. destruct (Hs Hne) as (Hok & Hlens & Hmax). rw /map_with_sgls Em.
  assert (Z.of_nat (length (r_mapped rq)) < SGES_PER_PAGE) as Hpg by (eapply Z.le_lt_trans; [exact Hmax|done]).
  pose proof (setup_sgls_good salloc _ _ (im_first_dma m) Hspool Hne Hpg Hc) as Hg. rw /sgls_good in Hg.
  destruct (nvme_pci_setup_sgls _ _ _ _ _ _) as [[[[[[st np] fd] ls] d] freed]|]; [|done].
  assert (∀ s (l : list sgl_page), ((λ p, EvPoolAlloc s (sp_addr p)) <$> l) = EvPoolAlloc s <$> (sp_addr <$> l)) as Hfm
    by (intros; by rw -list_fmap_compose).
  rw Hfm. destruct st.
  - destruct d as [d|]; [|done]. destruct freed; [|done]. destruct Hg as (Hd & Hf1 & Hf0 & Hfn). split.
    { intros k Hk. destruct (sgl_byte_total (r_mapped rq) (r_payload rq) k Hok Hk) as [b Hb]. exists b. split; [done|].
      rw /dptr_byte. cbn [im_sgls]. rw Hd. cbn [mbind option_bind]. by rw desc_byte_data. }
    rw /nvme_unmap_data /nvme_free_sgls.
    cbn [im_dma_len im_npages im_use_sgl im_first_dma im_sgls im_p2p im_nents c_true].
    change (c_true 0) with false. cbn iota. cbn [fmap list_fmap]. rw app_nil_r.
    destruct (Z.eqb_spec np 0) as [E|E]; [rw (Hf0 E); eexists; split; [done|]; apply (balanced_lists true _ _ [_])|].
    assert (sgl_free_walk fd (take (Z.to_nat np) ls) = Some (sp_addr <$> ls)) as Hf.
    { destruct (Z.lt_trichotomy np 0) as [Hn|[?|Hn]]; [|done|by apply Hf1]. rw (Hfn Hn) take_nil //. }
    rw Hf. eexists. split; [done|]. apply balanced_lists.
  - destruct d; [done|]. destruct Hg as (Hn0 & ->). rw (proj2 (Z.eqb_neq _ _) Hn0). apply balanced_lists.
  - by destruct d.
Qed.

Lemma map_sg_good rq m :
  request_ok rq → im_npages m = -1 →
  mapping_good (r_mapped rq) (r_payload rq) (map_sg alloc salloc sgl_supported sgl_threshold qid (iod_list_room (r_nseg rq)) rq m).
Proof.
  intros Hrq Em. rw /map_sg. destruct (r_mempool rq); [|exact balanced_nil]. cbn [negb].
  destruct (r_nents rq =? 0); [exact balanced_iod|].
  destruct (Z.eqb_spec (Z.of_nat (length (r_mapped rq))) 0) as [E|E]; [exact balanced_iod|].
  assert (r_mapped rq ≠ []) as Hne by (intros E'; by rw E' in E).
  destruct (nvme_pci_use_sgls _ _ _ rq).
  - pose proof (map_with_sgls_good rq m Hrq Hne Em) as Hg.
    destruct (map_with_sgls _ _ _ _) as [[[[st m'] d] evs]|]; [|done]. by destruct st.
  - pose proof (map_with_prps_good rq m Hrq Hne Em) as Hg.
    destruct (map_with_prps _ _ _ _) as [[[[st m'] d] evs]|]; [|done]. by destruct st.
Qed.

Lemma map_data_good rq first_dma prp2 :
  request_ok rq →
  mapping_good (request_data rq) (r_payload rq)
    (nvme_map_data alloc salloc sgl_supported sgl_threshold qid rq first_dma prp2).
Proof.
  intros Hrq. rw /nvme_map_data /request_data. set (m := IodMap _ _ _ _ _ _ _ _).
  destruct (Z.eqb_spec (r_nseg rq) 1) as [H1|H1], (r_bv_p2p rq); cbn [negb andb];
    try (destruct (r_bv_dma rq); by apply map_sg_good).
  destruct (Z.leb_spec (r_bv_offset rq + r_bv_len rq) (NVME_CTRL_PAGE_SIZE * 2)) as [Hle|Hgt]; cbn [orb].
  - destruct (r_bv_dma rq) as [dma|] eqn:Ed; [by apply prp_simple_good|]. rw /nvme_setup_prp_simple Ed. exact balanced_nil.
  - destruct (negb (qid =? 0) && negb (sgl_threshold =? 0) && sgl_supported).
    + destruct (r_bv_dma rq) as [dma|] eqn:Ed; [by apply sgl_simple_good|]. rw /nvme_setup_sgl_simple Ed. exact balanced_nil.
    + destruct (r_bv_dma rq); by apply map_sg_good.
Qed.

(** C37.  Let a request keep the block layer's promises ([request_ok]): its
    elements meet at controller page boundaries and add up to its payload, there are
    at most [NVME_MAX_SEGS], and the room reserved behind its scatter list is enough
    for the addresses of its list pages (it is not for a 4 MiB request in 127
    segments, [iod_list_overflow] in Findings.v).  Then mapping its data fails for
    no other reason than missing memory, and when it succeeds a controller that follows the command's
    data pointer, through the two PRP entries, a chain of PRP lists, a single
    descriptor or a segment of descriptors, finds every byte of the payload at the
    bus address it was mapped to. *)
Theorem request_bytes_found rq first_dma prp2 :
  request_ok rq →
  ∃ st m d evs, nvme_map_data alloc salloc sgl_supported sgl_threshold qid rq first_dma prp2 = Some (st, m, d, evs) ∧
    (st = BLK_STS_OK ∨ st = BLK_STS_RESOURCE) ∧
    (st = BLK_STS_OK → ∃ p, d = Some p ∧ ∀ k, 0 ≤ k < r_payload rq →
       ∃ b, sg_byte (request_data rq) k = Some b ∧ dptr_byte m p (r_payload rq) k = Some b).
Proof.
  intros Hrq. pose proof (map_data_good rq first_dma prp2 Hrq) as Hg.
  destruct (nvme_map_data _ _ _ _ _ _ _ _) as [[[[st m] d] evs]|]; [|done]. exists st, m, d, evs. split; [done|].
  destruct st, d as [d|]; try done; (split; [by auto|]); [|done].
  intros _. exists d. split; [done|apply Hg].
Qed.

(** C38.  For a request that keeps the promises of C37 ([request_ok]; a scatter
    list with a gap is refused without giving anything back, [bad_sgl_leaks] in
    Findings.v), mapping is balanced: a request that could not be mapped has given back
    everything it acquired, whichever step failed; one that was mapped gives back
    exactly what it holds when it is unmapped. *)
Theorem map_unmap_balanced rq first_dma prp2 st m d evs :
  request_ok rq →
  nvme_map_data alloc salloc sgl_supported sgl_threshold qid rq first_dma prp2 = Some (st, m, d, evs) →
  if decide (st = BLK_STS_OK) then ∃ evs', nvme_unmap_data m = Some evs' ∧ balanced (evs ++ evs') else balanced evs.
Proof.
  intros Hrq E. pose proof (map_data_good rq first_dma prp2 Hrq) as Hg. rw E in Hg.
  destruct st, d; try done; simpl in Hg; case_decide; try done. apply Hg.
Qed.
End request.

(** ** Instances *)

Module witness.
Definition q4 : nvme_queue :=
  NvmeQueue 0 4 0 (replicate 4 []) (replicate 4 (Cqe 9 9 9 9 9)) 0 0 0 0 None None 0 0.
Lemma q4_fresh : fresh_queue q4 4.
Proof. rw /fresh_queue. split_and!; done || (vm_compute; discriminate). Defined.

(** Five commands in a queue of four slots: the third is announced early because
    no other could wait after it, the rest by a commit. *)
Definition five : list kq_op :=
  [KqSubmit [1] false; KqSubmit [2] false; KqSubmit [3] false; KqSubmit [4] true; KqSubmit [5] false; KqCommit; KqCommit].
Lemma driver_announces_witness :
  (kq_run (nvme_init_queue None (λ _, 0) 1 q4 2) five).1 =
  [None; None; Some (4, 3); Some (4, 0); None; Some (4, 1); None].
Proof.
  destruct (driver_announces q4 4 None (λ _, 0) 1 2 five) as [E _].
  - exact q4_fresh.
  - exact I.
  - repeat (constructor; [exact I|]). constructor.
  - rw E. reflexivity.
Defined.

(** A queue with shadow doorbells.  A first run of the handler finds one entry
    and rings; then two more are posted, the second while the second run goes on,
    which handles those two. *)
Definition rq3 : nvme_request := NvmeRequest 3 0 0 0.
Definition cpl3 (result : Z) : nvme_completion := Cqe result 0 2 (nvme_cid rq3) 0.
Definition st_begin : cq_state :=
  cq_begin (nvme_init_queue (Some (λ _, 0)) (λ _, 0) 1 q4 2) {[3 := rq3]}.
Definition posts1 (i : nat) : list nvme_completion := if (i =? 1)%nat then [cpl3 7] else [].
Definition st_first : cq_state :=
  match nvme_process_cq (λ _, false) (λ _, false) 4 (λ _, []) 1 (ctrl_post st_begin (cpl3 5)) with
  | Some (_, _, st) => st | None => st_begin
  end.
Definition st_posted : cq_state := ctrl_post st_first (cpl3 6).
Lemma st_posted_reachable : cq_reachable 1 st_begin st_posted 1.
Proof.
  apply cqr_post. apply (cqr_handler 1 st_begin (ctrl_post st_begin (cpl3 5)) 0 (λ _, false) (λ _, false) 4
    (λ _, []) 1 (Some (5, 1)) st_first).
  - apply cqr_post, cqr_refl.
  - vm_compute. reflexivity.
  - vm_compute. discriminate.
Defined.
Lemma handler_handles_all_witness :
  ∃ w st', nvme_process_cq (λ _, false) (λ _, false) 4 posts1 1 st_posted = Some (2, w, st') ∧
    cs_log st' = [CqeLocal 3; CqeLocal 3; CqeLocal 3].
Proof.
  destruct (handler_handles_all q4 4 (Some (λ _, 0)) (λ _, 0) 1 2 {[3 := rq3]} st_posted 1 (λ _, false) (λ _, false) 4 posts1)
    as (_ & _ & w & st' & Hrun & _ & Hh & _).
  - exact q4_fresh.
  - intros i. vm_compute. repeat split; discriminate.
  - exact st_posted_reachable.
  - vm_compute. discriminate.
  - exists w, st'. cbn zeta in Hrun.
    assert (Z.of_nat (length (cs_posted st')) - 1 = 2 ∧ cs_log st' = [CqeLocal 3; CqeLocal 3; CqeLocal 3]) as [E1 E2].
    { apply (f_equal (fmap (λ r, (r.1.1, cs_log r.2)))) in Hrun as Hr. vm_compute in Hr. injection Hr as H1 H2.
      split; [|by symmetry]. symmetry. exact H1. }
    split; [|exact E2]. rw E1 in Hrun. exact Hrun.
Defined.

Lemma cid_generation_witness :
  nvme_find_rq {[3 := restarted 4 rq3]} (nvme_cid (restarted 2 rq3)) = None ∧
  nvme_find_rq {[3 := restarted 4 rq3]} (nvme_cid (restarted 4 rq3)) = Some (restarted 4 rq3).
Proof.
  split.
  - refine (proj1 (cid_generation ∅ rq3 2 4 0 _ _)); vm_compute; (split; (discriminate || reflexivity)).
  - refine (proj1 (cid_generation ∅ rq3 4 4 0 _ _)); vm_compute; (split; (discriminate || reflexivity)).
Defined.

(** Two elements of 80 KiB and 72 KiB, from the middle of a page: 39 PRP entries,
    more than the small pool's page has. *)
Definition pool (small : bool) (j : nat) : option prp_list :=
  Some (PrpList ((Z.of_nat j + 1) * 0x100000) (replicate (pool_entries small) 7)).
Definition spool (small : bool) (j : nat) : option sgl_page :=
  Some (SglPage ((Z.of_nat j + 1) * 0x100000) (replicate (if small then 16 else 256)%nat (SglDesc 7 7 7))).
Lemma pool_good : pool_ok pool.
Proof.
  split.
  - intros small j p [= <-]. by rw /= length_replicate.
  - intros small j j' p p' [= <-] [= <-]. simpl. lia.
Defined.
Lemma spool_good : spool_ok spool.
Proof. intros small j p [= <-]. by rw /= length_replicate. Defined.
Definition big_rq : request :=
  Request 2 0x25f00 0 0 false None true 2 false [Sg 0x4800 0x13800; Sg 0x90000 0x12800].
Lemma big_rq_ok : request_ok big_rq.
Proof.
  split; try done; simpl.
  - intros _. split_and!.
    + vm_compute. reflexivity.
    + done.
    + vm_compute. discriminate.
    + right. split; [exists 24; reflexivity|]. split_and!; try (vm_compute; discriminate); try (vm_compute; reflexivity).
      left. vm_compute. discriminate.
    + repeat (constructor; [simpl; lia|]). constructor.
    + vm_compute. discriminate.
  - split; [vm_compute; lia|vm_compute; discriminate].
Defined.

Lemma request_bytes_found_witness :
  ∃ m d evs, nvme_map_data pool spool false 32768 1 big_rq 0 0 = Some (BLK_STS_OK, m, Some d, evs) ∧
    dptr_byte m d 0x25f00 0x20000 = Some (0x90000 + (0x20000 - 0x13800)).
Proof.
  destruct (request_bytes_found pool spool false 32768 1 pool_good spool_good big_rq 0 0 big_rq_ok)
    as (st & m & d & evs & E & _ & Hok).
  assert (st = BLK_STS_OK) as ->.
  { apply (f_equal (fmap (λ r, r.1.1.1))) in E. vm_compute in E. by injection E. }
  destruct (Hok eq_refl) as (p & -> & Hb). exists m, p, evs. split; [exact E|].
  destruct (Hb 0x20000 ltac:(simpl; lia)) as (b & Hs & Hd). vm_compute in Hs. injection Hs as <-. exact Hd.
Defined.

Lemma map_unmap_balanced_witness :
  ∃ m d evs evs', nvme_map_data pool spool false 32768 1 big_rq 0 0 = Some (BLK_STS_OK, m, d, evs) ∧
    nvme_unmap_data m = Some evs' ∧ balanced (evs ++ evs').
Proof.
  destruct (nvme_map_data pool spool false 32768 1 big_rq 0 0) as [[[[st m] d] evs]|] eqn:E.
  - assert (st = BLK_STS_OK) as ->.
    { apply (f_equal (fmap (λ r, r.1.1.1))) in E. vm_compute in E. by injection E. }
    destruct (map_unmap_balanced pool spool false 32768 1 pool_good spool_good big_rq 0 0 BLK_STS_OK m d evs
      big_rq_ok E) as (evs' & Hu & Hb). exists m, d, evs, evs'. split; [reflexivity|]. by split.
  - exfalso. vm_compute in E. discriminate.
Defined.
End witness.
