(* ===== verification/ReqInv.v ===== *)
(** * Dispatch and completion keep the books

    What a dispatch of a request takes (payload, mappings, list pages) and what its
    completion, or its own error paths, give back. *)
From S2P Require Import Prelude PhaseRing UserCmd KernelRing KernelCq KernelPrp KernelMap Lifecycle ReqSetup ReqLife SpecKernel.

Lemma same_pool_refl h : same_pool h h.
Proof. done. Qed.
Lemma same_pool_trans h1 h2 h3 : same_pool h1 h2 → same_pool h2 h3 → same_pool h1 h3.
Proof. intros [E1 E2] [E3 E4]. split; congruence. Qed.
Lemma kfree_pool p h1 h2 h1' : same_pool h1 h2 → kfree p h1 = Some h1' → ∃ h2', kfree p h2 = Some h2' ∧ same_pool h1' h2'.
Proof.
  intros [E1 E2]. destruct p as [a|]; simpl; [|intros [= <-]; by eexists].
  rw E1. destruct (pl_live h1 !! a); [|done]. intros [= <-]. eexists. split; [done|]. split; simpl; congruence.
Qed.

(** Completion cleans up and never faults on a request that was set up. *)
Lemma complete_pool ec ons req h h' :
  snvme_cleanup_cmd req h = Some h' → (q_op req = REQ_OP_ZONE_APPEND → is_Some ons) →
  ∃ o req' seen, snvme_complete_rq ec ons req h = Some (o, req', h', seen) ∧
    q_op req' = q_op req ∧ q_flags req' = q_flags req ∧ q_dontprep req' = q_dontprep req ∧ q_special req' = q_special req ∧
    match o with
    | Requeued _ => nvme_decide_disposition ec req = RETRY ∧ q_retries req' = u8 (q_retries req + 1)
    | Ended st => st = nvme_error_status (rq_status (q_nvme req)) ∧ nvme_decide_disposition ec req = COMPLETE
    | FailedOver => nvme_decide_disposition ec req = FAILOVER
    end.
Proof.
  intros Hc Hz. rw /snvme_complete_rq Hc /=. destruct (nvme_decide_disposition ec req); [|by eexists _, _, _|by eexists _, _, _].
  rw /nvme_end_req. destruct (q_op req) eqn:Eop; try (by eexists _, _, _).
  destruct (Hz eq_refl) as [ns ->]. simpl. eexists _, _, _. split; [done|]. by destruct (ns_zoned ns).
Qed.

Lemma setup_needs_ns skip ons new req h st req' h' :
  snvme_setup_cmd skip ons new req h = Some (st, req', h') → q_op req = REQ_OP_ZONE_APPEND → is_Some ons.
Proof.
  rw /snvme_setup_cmd. intros E Eop. destruct ons as [ns|]; [done|]. set (req0 := if negb _ then _ else req) in E.
  assert (q_op req0 = REQ_OP_ZONE_APPEND) as E0 by (rw /req0; by destruct (q_dontprep req)). by rw /setup_op E0 /= in E.
Qed.

Lemma setup_integrity skip ons new req h st req' h' :
  snvme_setup_cmd skip ons new req h = Some (st, req', h') → new_fresh new h → q_integrity req' = q_integrity req.
Proof.
  rw /snvme_setup_cmd. set (req0 := if negb _ then _ else req). intros E Hn.
  assert (q_integrity req0 = q_integrity req) as E0 by (rw /req0; by destruct (q_dontprep req)).
  destruct (setup_op ons new req0 h) as [[[[st1 req1] h1]|]|] eqn:Es; [|by injection E as <- <- <-|done].
  destruct (setup_op_after ons new req0 h st1 req1 h1 Hn Es) as [(_ & _ & _ & _ & _ & _ & _ & _ & F) _].
  cbn [mbind option_bind] in E. destruct (setup_cid _ _). injection E as <- <- <-. simpl. congruence.
Qed.

Lemma balanced_app es1 es2 : balanced es1 → balanced es2 → balanced (es1 ++ es2).
Proof. rw /balanced !omap_app. intros H1 H2. by rw H1 H2. Qed.
Lemma balanced_swap es1 es2 es3 : balanced (es1 ++ es3) → balanced es2 → balanced (es1 ++ es2 ++ es3).
Proof.
  rw /balanced !omap_app. intros H1 H2. rw H2. rw (Permutation_app_comm (omap released es2)) app_assoc H1.
  rw -app_assoc. apply Permutation_app_head, Permutation_app_comm.
Qed.
Lemma balanced_meta dma len es : balanced es → balanced ([EvMapPage dma len] ++ es ++ [EvUnmapPage dma len]).
Proof. intros H. apply balanced_swap; [|done]. by rw /balanced. Qed.

Section dispatch.
Context (e : qenv) (ons : option nvme_ns) (qid : Z) (last : bool).

(** Driver commands carry their own namespace id; every other request has one. *)
Definition needs_ns (op : req_op) : bool :=
  match op with REQ_OP_DRV_IN | REQ_OP_DRV_OUT | REQ_OP_OTHER => false | _ => true end.

(** What the kernel promises about one dispatch.  A discard comes with one bio per
    segment and in no more segments than the limit the driver sets; a request with
    data is one that [nvme_map_data] can lay out ([request_ok]). *)
Record dispatch_ok (d : dstate) : Prop := {
  do_new : new_fresh (e_new e) (d_pl d);
  do_special : special_ok ons (d_req d);
  do_alloc : pool_ok (e_alloc e);
  do_salloc : spool_ok (e_salloc e);
  do_segments : c_true (r_nseg (e_segments e)) = true → request_ok (e_segments e);
  do_integrity : q_integrity (d_req d) = true → c_true (r_nseg (e_segments e)) = true;
  do_ns : needs_ns (q_op (d_req d)) = true → is_Some ons;
  do_discard : wants_payload ons (d_req d) = true →
    0 ≤ q_segments (d_req d) ≤ 256 ∧ Z.of_nat (length (q_bios (d_req d))) = q_segments (d_req d);
  do_page : length (pl_page (d_pl d)) = NVME_DSM_MAX_RANGES;
}.

(** The books of a request that was refused, and of one that was submitted. *)
Definition gave_back (d d' : dstate) : Prop :=
  same_pool (d_pl d) (d_pl d') ∧ d_queue d' = d_queue d ∧ ∃ evs, d_events d' = d_events d ++ evs ∧ balanced evs.
Lemma no_events d d' : d_events d' = d_events d → ∃ evs, d_events d' = d_events d ++ evs ∧ balanced evs.
Proof. intros E. exists []. rw app_nil_r. split; [done|exact balanced_nil]. Qed.
Definition answered (status result : Z) (d : dstate) : dstate :=
  d<{d_req := (d_req d)<{q_nvme := (q_nvme (d_req d))<{rq_status := status}><{rq_result := result}>}>}>.

(** The part after the set-up. *)
Lemma mapped_books d st db d' h'' :
  pool_ok (e_alloc e) → spool_ok (e_salloc e) → (c_true (r_nseg (e_segments e)) = true → request_ok (e_segments e)) →
  (q_integrity (d_req d) = true → c_true (r_nseg (e_segments e)) = true) →
  snvme_cleanup_cmd (d_req d) (d_pl d) = Some h'' →
  queue_mapped e qid last d = Some (st, db, d') →
  if decide (st = STS_OK) then
    d_pl d' = d_pl d ∧ q_op (d_req d') = q_op (d_req d) ∧ q_special (d_req d') = q_special (d_req d) ∧
    q_vec (d_req d') = q_vec (d_req d) ∧ q_integrity (d_req d') = q_integrity (d_req d) ∧ q_dontprep (d_req d') = q_dontprep (d_req d) ∧
    q_retries (d_req d') = q_retries (d_req d) ∧ q_flags (d_req d') = q_flags (d_req d) ∧
    (db, d_queue d') = nvme_submit_cmd (d_queue d) (q_cmd (d_req d')) last ∧
    ∃ evs, d_events d' = d_events d ++ evs ∧
      ∃ evs', (if c_true (r_nseg (e_segments e)) then nvme_unmap_data (d_map d') else Some []) = Some evs' ∧
        balanced (evs ++ (if q_integrity (d_req d) then [EvUnmapPage (d_meta_dma d') (e_meta_len e)] else []) ++ evs')
  else d_pl d' = h'' ∧ d_queue d' = d_queue d ∧ db = None ∧ ∃ evs, d_events d' = d_events d ++ evs ∧ balanced evs.
Proof.
  intros Ha Hs Hr Hi Hc E. rw /queue_mapped /queue_map_data in E.
  destruct (c_true (r_nseg (e_segments e))) eqn:En; cbn [negb] in E.
  - pose proof (map_data_good (e_alloc e) (e_salloc e) (e_sgl_supported e) (e_sgl_threshold e) qid Ha Hs (e_segments e)
      (im_first_dma (d_map d)) (cmd_prp2 (q_cmd (d_req d))) (Hr eq_refl)) as Hg.
    destruct (nvme_map_data _ _ _ _ _ _ _ _) as [[[[st1 m] dp] evs]|]; [|done]. cbn [mbind option_bind] in E.
    set (d1 := d<{d_map := m}><{d_req := _}><{d_events := _}>) in E.
    assert (snvme_cleanup_cmd (d_req d1) (d_pl d1) = Some h'') as Hc1 by exact Hc.
    destruct st1; cbn [sts_of] in E.
    + (* mapped *) destruct dp as [dp|]; [|done]. destruct Hg as (_ & evs' & Hu & Hb). case_decide as Hd; [done|]. clear Hd.
      change (q_integrity (d_req d1)) with (q_integrity (d_req d)) in E. destruct (q_integrity (d_req d)) eqn:Ei.
      * rw /nvme_map_metadata in E. destruct (e_meta e) as [dma|].
        -- case_decide as Hd; [done|]. clear Hd. destruct (nvme_submit_cmd _ _ _) as [db1 q] eqn:Eq. injection E as <- <- <-.
           case_decide; [|done]. split_and!; try done. exists (evs ++ [EvMapPage dma (e_meta_len e)]). split; [by rw /= -app_assoc|].
           exists evs'. split; [exact Hu|]. simpl. rw -app_assoc.
           apply (balanced_swap evs [EvMapPage dma (e_meta_len e); EvUnmapPage dma (e_meta_len e)]); [done|]. by rw /balanced.
        -- case_decide as Hd; [|done]. clear Hd. rw /unmap_data in E. change (d_map d1) with m in E. rw Hu in E.
           cbn [mbind option_bind] in E. rw /out_free_cmd in E. set (d2 := d1<{d_events := _}>) in E.
           assert (snvme_cleanup_cmd (d_req d2) (d_pl d2) = Some h'') as Hc2 by exact Hc. rw Hc2 in E. injection E as <- <- <-.
           case_decide; [done|]. split_and!; try done. exists (evs ++ evs'). by rw /= app_assoc.
      * case_decide as Hd; [done|]. clear Hd. destruct (nvme_submit_cmd _ _ _) as [db1 q] eqn:Eq. injection E as <- <- <-.
        case_decide; [|done]. split_and!; try done. exists evs. split; [done|]. by exists evs'.
    + destruct dp; [done|]. case_decide as Hd; [|done]. clear Hd. rw /out_free_cmd Hc1 in E. injection E as <- <- <-.
      case_decide; [done|]. split_and!; try done. by exists evs.
    + by destruct dp.
  - cbn [mbind option_bind] in E. case_decide as Hd; [done|]. clear Hd. destruct (q_integrity (d_req d)) eqn:Ei; [by specialize (Hi eq_refl)|].
    case_decide as Hd; [done|]. clear Hd. destruct (nvme_submit_cmd _ _ _) as [db1 q] eqn:Eq. injection E as <- <- <-.
    case_decide; [|done]. split_and!; try done. exists []. rw app_nil_r. split; [done|]. exists []. split; [done|exact balanced_nil].
Qed.

(** ** A dispatch returns *)

Lemma mapped_total d h'' :
  pool_ok (e_alloc e) → spool_ok (e_salloc e) → (c_true (r_nseg (e_segments e)) = true → request_ok (e_segments e)) →
  (q_integrity (d_req d) = true → c_true (r_nseg (e_segments e)) = true) →
  snvme_cleanup_cmd (d_req d) (d_pl d) = Some h'' → is_Some (queue_mapped e qid last d).
Proof.
  intros Ha Hs Hr Hi Hc. rw /queue_mapped /queue_map_data.
  destruct (c_true (r_nseg (e_segments e))) eqn:En; cbn [negb].
  - pose proof (map_data_good (e_alloc e) (e_salloc e) (e_sgl_supported e) (e_sgl_threshold e) qid Ha Hs (e_segments e)
      (im_first_dma (d_map d)) (cmd_prp2 (q_cmd (d_req d))) (Hr eq_refl)) as Hg.
    destruct (nvme_map_data _ _ _ _ _ _ _ _) as [[[[st1 m] dp] evs]|]; [|done]. cbn [mbind option_bind].
    set (d1 := d<{d_map := m}><{d_req := _}><{d_events := _}>).
    assert (snvme_cleanup_cmd (d_req d1) (d_pl d1) = Some h'') as Hc1 by exact Hc.
    case_decide as Hd; [rw /out_free_cmd Hc1; by eexists|].
    destruct st1; [|discriminate Hd..]. destruct dp as [dp|]; [|done]. destruct Hg as (_ & evs' & Hu & _).
    rw /nvme_map_metadata. destruct (q_integrity (d_req d1)); [destruct (e_meta e)|]; case_decide; try done.
    + destruct (nvme_submit_cmd _ _ _). by eexists.
    + rw /unmap_data. change (d_map d1) with m. rw Hu. cbn [mbind option_bind]. rw /out_free_cmd.
      set (d2 := d1<{d_events := _}>). assert (snvme_cleanup_cmd (d_req d2) (d_pl d2) = Some h'') as -> by exact Hc. by eexists.
    + destruct (nvme_submit_cmd _ _ _). by eexists.
  - cbn [mbind option_bind]. case_decide; [done|]. destruct (q_integrity (d_req d)); [by specialize (Hi eq_refl)|].
    case_decide; [done|]. destruct (nvme_submit_cmd _ _ _). by eexists.
Qed.

Lemma setup_total d : dispatch_ok d →
  is_Some (snvme_setup_cmd (e_skip_cid_gen e) ons (e_new e) (d_req d) (d_pl d)).
Proof.
  intros [D1 D2 _ _ _ _ D7 D8 D9]. rw /snvme_setup_cmd. set (req0 := if negb _ then _ else d_req d).
  assert (q_op req0 = q_op (d_req d) ∧ q_bios req0 = q_bios (d_req d) ∧ q_segments req0 = q_segments (d_req d)) as (E1 & E2 & E3).
  { rw /req0. by destruct (q_dontprep (d_req d)). }
  assert (is_Some (setup_op ons (e_new e) req0 (d_pl d))) as [r ->].
  2:{ cbn [mbind option_bind]. destruct r as [[[st req] h]|]; [|by eexists]. destruct (setup_cid _ _). by eexists. }
  assert (∀ ns, wants_payload ons (d_req d) = true → is_Some (nvme_setup_discard ns (e_new e) req0 (d_pl d))) as Hdis.
  { intros ns Hw. destruct (D8 Hw) as [Hseg Hbios].
    pose proof (discard_exact ns (e_new e) req0 (d_pl d) D1 D9) as Hd. rw E2 E3 in Hd.
    specialize (Hd ltac:(lia) ltac:(change (Z.of_nat NVME_DSM_MAX_RANGES) with 256; lia) Hbios).
    destruct (nvme_setup_discard _ _ _ _); [by eexists|done]. }
  rw /setup_op E1. rw /wants_payload in Hdis.
  destruct (q_op (d_req d)) eqn:Eop; try (by eexists); destruct (D7 eq_refl) as [ns Ens]; rw Ens in Hdis |- *; cbn [mbind option_bind];
    try (destruct (nvme_setup_rw _ _ _ _) as [[??]?]; by eexists); try (destruct (nvme_setup_zone_mgmt_send _ _ _); by eexists); try (by eexists).
  - destruct (Hdis ns) as [x ->]; [done|]. by eexists.
  - rw /nvme_setup_write_zeroes. destruct (ns_deallocate_zeroes ns) eqn:Ez; [|by eexists].
    destruct (Hdis ns) as [x ->]; [done|]. by eexists.
Qed.

Lemma dispatch_total d :
  dispatch_ok d → (nvme_check_ready e true = false → q_special (d_req d) = false) →
  is_Some (nvme_queue_rq e ons qid last d).
Proof.
  intros Hok Hsp. pose proof Hok as [D1 D2 D3 D4 D5 D6 D7 D8 D9]. rw /nvme_queue_rq.
  set (d0 := d<{d_aborted := false}><{d_map := _}>). destruct (e_enabled e); cbn [negb]; [|by eexists].
  destruct (nvme_check_ready e true) eqn:Er; cbn [negb].
  - destruct (setup_total d Hok) as [[[st1 req1] h1] Es]. change (d_req d0) with (d_req d). change (d_pl d0) with (d_pl d).
    rw Es. cbn [mbind option_bind]. destruct (setup_cmd_after _ _ _ _ _ _ _ _ D1 D2 Es) as [_ Hp].
    destruct (decide (st1 = STS_OK)) as [->|Hst]; [|rw decide_True //; by eexists].
    destruct (decide (STS_OK ≠ STS_OK)) as [Hd|_]; [by destruct Hd|]. destruct Hp as (h'' & Hc & _).
    set (d1 := d0<{d_req := req1}><{d_pl := h1}>).
    assert (q_integrity (d_req d1) = q_integrity (d_req d)) as Ei by (by eapply setup_integrity).
    destruct (mapped_total d1 h'' D3 D4 D5) as [[[st2 db2] d2] ->]; [by rw Ei|exact Hc|]. by eexists.
  - destruct (busy_nonready e _); [by eexists|]. rw /nvme_host_path_error.
    set (req1 := (d_req d0)<{q_nvme := _}>).
    destruct (complete_pool (e_complete e) ons req1 (d_pl d0) (d_pl d)) as (o & req' & seen & -> & _).
    { rw /snvme_cleanup_cmd. change (q_special req1) with (q_special (d_req d)). by rw Hsp. }
    { intros Eop. apply D7. change (q_op req1) with (q_op (d_req d)) in Eop. by rw Eop. }
    by eexists.
Qed.
End dispatch.

(** ** The command *)

(** Stores of the data and metadata pointers. *)
Definition points (f : command → command) : Prop :=
  ∀ c op nsid slba len, length c = 16%nat → addresses c op nsid slba len →
    addresses (f c) op nsid slba len ∧ cmd_id (f c) = cmd_id c ∧ length (f c) = 16%nat.
Lemma points_compose f g : points f → points g → points (λ c, g (f c)).
Proof.
  intros Hf Hg c op nsid slba len Hl Ha. destruct (Hf c op nsid slba len Hl Ha) as (H1 & H2 & H3).
  destruct (Hg (f c) op nsid slba len H3 H1) as (H4 & H5 & H6). split_and!; try apply H4; try done. congruence.
Qed.
Lemma points_id : points (λ c, c).
Proof. by intros c. Qed.
Lemma points_word i v : (2 ≤ i ≤ 9)%nat → points (set_word i v).
Proof.
  intros Hi c op nsid slba len Hl (H1 & H2 & H3 & H4). rw /addresses.
  split_and!; [rw /cmd_opcode|rw /cmd_nsid|rw /cmd_slba|rw /cmd_length|rw /cmd_id|by rw length_set_word]; by words.
Qed.
Lemma points_field i lo len v : (2 ≤ i ≤ 9)%nat → points (put_field i lo len v).
Proof. intros Hi c. by apply points_word. Qed.
Lemma points_flags v : 0 ≤ v < 2 ^ 8 → points (put_flags v).
Proof.
  intros Hv c op nsid slba len Hl (H1 & H2 & H3 & H4). rw /addresses.
  split_and!; [rw /cmd_opcode|rw /cmd_nsid|rw /cmd_slba|rw /cmd_length|rw /cmd_id|by rw length_set_word]; words; try done;
    rw field_put_other //; lia.
Qed.
Lemma points_u64 i v : (2 ≤ i ≤ 8)%nat → points (put_u64 i v).
Proof. intros Hi. apply (points_compose (set_word i (u32 v))); apply points_word; lia. Qed.
Lemma points_dptr dp m : points (put_dptr dp m).
Proof.
  assert (points (put_flags NVME_CMD_SGL_METABUF)) as Hfl by by apply points_flags.
  destruct dp as [[p1 p2|sg]|]; rw /put_dptr.
  - apply (points_compose (put_u64 6 p1) (put_u64 8 p2)); apply points_u64; lia.
  - apply (points_compose (λ c, set_word 8 (sge_length sg) (put_u64 6 (sge_addr sg) (put_flags NVME_CMD_SGL_METABUF c)))); [|apply points_field; lia].
    apply (points_compose (λ c, put_u64 6 (sge_addr sg) (put_flags NVME_CMD_SGL_METABUF c))); [|apply points_word; lia].
    apply (points_compose (put_flags NVME_CMD_SGL_METABUF)); [done|apply points_u64; lia].
  - destruct (im_use_sgl m); [done|apply points_id].
Qed.

(** After the set-up only pointers are stored in the command. *)
Lemma mapped_cmd e qid last d db d' :
  queue_mapped e qid last d = Some (STS_OK, db, d') →
  q_nvme (d_req d') = q_nvme (d_req d) ∧ ∃ f, points f ∧ q_cmd (d_req d') = f (q_cmd (d_req d)).
Proof.
  rw /queue_mapped /queue_map_data. intros E.
  assert (∀ d1, (let '(ret, d) := if q_integrity (d_req d1) then nvme_map_metadata e d1 else (STS_OK, d1) in
    if decide (ret ≠ STS_OK) then d ← unmap_data d; d ← out_free_cmd d; Some (ret, None, d) else
    let '(db, q) := nvme_submit_cmd (d_queue d) (q_cmd (d_req d)) last in Some (STS_OK, db, d<{d_queue := q}>)) = Some (STS_OK, db, d') →
    q_nvme (d_req d') = q_nvme (d_req d1) ∧ ∃ f, points f ∧ q_cmd (d_req d') = f (q_cmd (d_req d1))) as Hmeta.
  { intros d1 E1. rw /nvme_map_metadata in E1. destruct (q_integrity (d_req d1)); [destruct (e_meta e) as [dma|]|]; case_decide as Hd; try done.
    - destruct (nvme_submit_cmd _ _ _). injection E1 as <- <-. split; [done|]. exists (put_u64 4 dma). split; [apply points_u64; lia|done].
    - destruct (unmap_data _) as [d2|]; [|done]. cbn [mbind option_bind] in E1. destruct (out_free_cmd _) as [d3|]; [|done]. simplify_eq/=.
    - destruct (nvme_submit_cmd _ _ _). injection E1 as <- <-. split; [done|]. exists (λ c, c). split; [apply points_id|done]. }
  destruct (negb (c_true _)); cbn [mbind option_bind] in E.
  - case_decide; [done|]. by apply Hmeta.
  - destruct (nvme_map_data _ _ _ _ _ _ _ _) as [[[[st1 m] dp] evs]|]; [|done]. cbn [mbind option_bind] in E. case_decide as Hd.
    + destruct (out_free_cmd _) as [d3|]; [|done]. cbn [mbind option_bind] in E. injection E as E _ _. by rw E in Hd.
    + destruct (Hmeta _ E) as (H1 & f & H2 & H3). split; [exact H1|]. exists (λ c, f (put_dptr dp m c)). split; [|exact H3].
      apply points_compose; [apply points_dptr|done].
Qed.

Lemma mapped_submits e qid last d db d' :
  queue_mapped e qid last d = Some (STS_OK, db, d') → (db, d_queue d') = nvme_submit_cmd (d_queue d) (q_cmd (d_req d')) last.
Proof.
  rw /queue_mapped. destruct (queue_map_data e qid d) as [[st1 d1]|] eqn:Em; [|done]. cbn [mbind option_bind].
  assert (d_queue d1 = d_queue d) as Eq.
  { rw /queue_map_data in Em. destruct (negb _); [by injection Em as <- <-|].
    destruct (nvme_map_data _ _ _ _ _ _ _ _) as [[[[st2 m] dp] evs]|]; [|done]. by injection Em as <- <-. }
  case_decide as Hd; [destruct (out_free_cmd d1) as [d2|]; [|done]; intros [= -> _ _]; by destruct Hd|].
  rw /nvme_map_metadata. destruct (q_integrity (d_req d1)); [destruct (e_meta e) as [dma|]|]; (case_decide; try done).
  - simpl. rw Eq. destruct (nvme_submit_cmd _ _ _) eqn:Es. intros [= <- <-]. by rw /= Es.
  - destruct (unmap_data d1) as [d2|]; [|done]. cbn [mbind option_bind]. by destruct (out_free_cmd d2).
  - rw Eq. destruct (nvme_submit_cmd _ _ _) eqn:Es. intros [= <- <-]. by rw /= Es.
Qed.

Definition opcode_of (op : req_op) : option Z :=
  match op with
  | REQ_OP_READ => Some nvme_cmd_read | REQ_OP_WRITE => Some nvme_cmd_write | REQ_OP_ZONE_APPEND => Some nvme_cmd_zone_append
  | _ => None
  end.

Lemma setup_cmd_rw skip ns new req h req' h' op :
  opcode_of (q_op req) = Some op → length (q_cmd req) = 16%nat → 0 ≤ ns_id ns < 2 ^ 32 →
  0 ≤ nvme_sect_to_lba ns (q_pos req) < 2 ^ 64 →
  snvme_setup_cmd skip (Some ns) new req h = Some (STS_OK, req', h') →
  addresses (q_cmd req') op (ns_id ns) (nvme_sect_to_lba ns (q_pos req)) (u16 (Z.shiftr (q_bytes req) (ns_lba_shift ns) - 1)) ∧
  cmd_id (q_cmd req') = nvme_cid (q_nvme req') ∧ length (q_cmd req') = 16%nat.
Proof.
  intros Hop Hl Hns Hs E. rw /snvme_setup_cmd in E. set (req0 := if negb (q_dontprep req) then _ else req) in E.
  assert (q_op req0 = q_op req ∧ q_pos req0 = q_pos req ∧ q_bytes req0 = q_bytes req ∧ length (q_cmd req0) = 16%nat) as (E1 & E2 & E3 & E4).
  { rw /req0. by destruct (q_dontprep req). }
  assert (0 ≤ op < 2 ^ 8) as Hop8 by (destruct (q_op req); simplify_eq/=; done).
  assert (setup_op (Some ns) new req0 h = (let '(st, c, h) := nvme_setup_rw ns req0 op h in Some (Some (st, req0<{q_cmd := c}>, h)))) as Eop.
  { rw /setup_op E1. destruct (q_op req); try done; by injection Hop as <-. }
  rw Eop in E. destruct (nvme_setup_rw ns req0 op h) as [[st c] h1] eqn:Er. cbn [mbind option_bind] in E.
  destruct (setup_cid skip _) as [cid nv] eqn:Ec. injection E as -> <- <-.
  destruct (setup_rw_addresses ns req0 op h c h1 E4 Hop8 Hns) as (A1 & _ & A3); [by rw E2|done|]. rw E2 E3 in A1.
  assert (cid = nvme_cid nv ∧ 0 ≤ cid < 2 ^ 16) as [-> Hcid].
  { rw /setup_cid in Ec. injection Ec as <- <-. split; [done|]. apply u16_range. }
  destruct (keeps_id (nvme_cid nv) Hcid c _ _ _ _ A3 A1) as (B1 & _ & B3). simpl. split_and!; try apply B1; try done.
  rw /cmd_id. words. by apply field_put.
Qed.

(** ** Attempts *)

(** How often a request may still be queued again.  A command that was set up has
    what is left of its retries; setting it up starts the count anew, so that before
    it the full number is left, and when the controller may be found not [ready], the
    retries that this costs come on top. *)
Definition attempts_left (ready : bool) (max : Z) (req : breq) : Z :=
  if q_dontprep req then Z.max 0 (max - q_retries req)
  else max + if ready then 0 else Z.max 0 (max - q_retries req).

Lemma complete_attempts ready ec ons req h o req' h' seen :
  0 ≤ q_retries req → e_max_retries ec ≤ 255 → (ready = true → q_dontprep req = true) → snvme_complete_rq ec ons req h = Some (o, req', h', seen) →
  0 ≤ q_retries req' ∧ q_op req' = q_op req ∧ q_special req' = q_special req ∧
  if final o then True else attempts_left ready (e_max_retries ec) req' = attempts_left ready (e_max_retries ec) req - 1.
Proof.
  intros Hr Hm Hdp. rw /snvme_complete_rq. destruct (snvme_cleanup_cmd req h) as [h1|]; [|done]. cbn [mbind option_bind].
  destruct (nvme_decide_disposition ec req) eqn:Ed.
  - rw /nvme_end_req. destruct (q_op req) eqn:Eop; simpl; try (by intros [= <- <- <- <-]).
    destruct ons as [ns|]; [|done]. intros [= <- <- <- <-]. by destruct (ns_zoned ns).
  - intros [= <- <- <- <-]. rw /nvme_decide_disposition in Ed. destruct (_ =? 0); [done|].
    destruct (Z.leb_spec (e_max_retries ec) (q_retries req)) as [|Hlt]; [by rw orb_true_r in Ed|].
    assert (u8 (q_retries req + 1) = q_retries req + 1) as Eu by (apply Z.mod_small; lia). rw /attempts_left /= Eu. split_and!; try done; [lia|].
    destruct (q_dontprep req); [lia|]. destruct ready; [by specialize (Hdp eq_refl)|lia].
  - by intros [= <- <- <- <-].
Qed.

Lemma mapped_request e qid last d st db d' :
  queue_mapped e qid last d = Some (st, db, d') →
  q_retries (d_req d') = q_retries (d_req d) ∧ q_dontprep (d_req d') = q_dontprep (d_req d) ∧
  q_op (d_req d') = q_op (d_req d) ∧ q_special (d_req d') = q_special (d_req d).
Proof.
  assert (∀ d1 d2, unmap_data d1 = Some d2 → d_req d2 = d_req d1) as Hu.
  { intros d1 d2. rw /unmap_data. destruct (nvme_unmap_data _); [|done]. by intros [= <-]. }
  assert (∀ d1 d2, out_free_cmd d1 = Some d2 → d_req d2 = d_req d1) as Ho.
  { intros d1 d2. rw /out_free_cmd. destruct (snvme_cleanup_cmd _ _); [|done]. by intros [= <-]. }
  rw /queue_mapped. destruct (queue_map_data e qid d) as [[st1 d1]|] eqn:Em; [|done]. cbn [mbind option_bind].
  assert (q_retries (d_req d1) = q_retries (d_req d) ∧ q_dontprep (d_req d1) = q_dontprep (d_req d) ∧
    q_op (d_req d1) = q_op (d_req d) ∧ q_special (d_req d1) = q_special (d_req d)) as H1.
  { rw /queue_map_data in Em. destruct (negb _); [by injection Em as <- <-|].
    destruct (nvme_map_data _ _ _ _ _ _ _ _) as [[[[st2 m] dp] evs]|]; [|done]. by injection Em as <- <-. }
  case_decide; [destruct (out_free_cmd d1) as [d2|] eqn:Ef; [|done]; intros [= <- <- <-]; by rw (Ho _ _ Ef)|].
  rw /nvme_map_metadata. destruct (q_integrity (d_req d1)); [destruct (e_meta e) as [dma|]|]; (case_decide; try done).
  - destruct (nvme_submit_cmd _ _ _). by intros [= <- <- <-].
  - destruct (unmap_data d1) as [d2|] eqn:Eu; [|done]. cbn [mbind option_bind]. destruct (out_free_cmd d2) as [d3|] eqn:Ef; [|done].
    intros [= <- <- <-]. by rw (Ho _ _ Ef) (Hu _ _ Eu).
  - destruct (nvme_submit_cmd _ _ _). by intros [= <- <- <-].
Qed.

(** A dispatch does not give the request more attempts, and one that completes it
    uses one up. *)
Lemma dispatch_attempts ready e ons qid last d st o db d' :
  (ready = true → nvme_check_ready e true = true) → 0 ≤ q_retries (d_req d) → 0 ≤ e_max_retries (e_complete e) ≤ 255 → new_fresh (e_new e) (d_pl d) → special_ok ons (d_req d) →
  nvme_queue_rq e ons qid last d = Some (st, o, db, d') →
  let left := attempts_left ready (e_max_retries (e_complete e)) in
  0 ≤ q_retries (d_req d') ∧ special_ok ons (d_req d') ∧
  match o with
  | None => left (d_req d') ≤ left (d_req d) ∧ (st = STS_OK → q_dontprep (d_req d') = true)
  | Some o => if final o then True else left (d_req d') = left (d_req d) - 1
  end.
Proof.
  intros Hrd Hr Hm Hn Hsp E left. rw /nvme_queue_rq in E.
  match type of E with context [d<{d_aborted := false}><{d_map := ?m}>] => set (d0 := d<{d_aborted := false}><{d_map := m}>) in E end.
  destruct (e_enabled e); cbn [negb] in E; [|injection E as <- <- <- <-; by split_and!].
  destruct (nvme_check_ready e true); cbn [negb] in E.
  - destruct (snvme_setup_cmd _ _ _ _ _) as [[[st1 req1] h1]|] eqn:Es; [|done]. cbn [mbind option_bind] in E.
    destruct (setup_cmd_after _ _ _ _ _ _ _ _ Hn Hsp Es) as [(F1 & F2 & F3 & F4 & F5 & F6) _]. simpl in F1, F2, F3, F4, F5.
    assert (0 ≤ q_retries req1 ∧ left req1 ≤ left (d_req d)) as [G1 G2].
    { rw /left /attempts_left F3 F5. destruct (q_dontprep (d_req d)), ready; lia. }
    case_decide; [by injection E as <- <- <- <-|]. destruct (queue_mapped _ _ _ _) as [[[st2 db2] d2]|] eqn:Em; [|done].
    destruct (mapped_request _ _ _ _ _ _ _ Em) as (M1 & M2 & M3 & M4). simpl in M1, M2, M3, M4. injection E as <- <- <- <-.
    split_and!; [by rw M1|by rw /special_ok /wants_payload M3 M4|by rw /left /attempts_left M1 M2|by rw M2].
  - destruct (busy_nonready e _); [injection E as <- <- <- <-; by split_and!|].
    destruct (nvme_host_path_error _ _ _ _) as [[[[o1 req1] h1] seen]|] eqn:Eh; [|done]. injection E as <- <- <- <-.
    rw /nvme_host_path_error in Eh.
    match type of Eh with snvme_complete_rq ?ec ?on ?rq _ = _ => pose proof (complete_attempts ready ec on rq _ _ _ _ _ Hr ltac:(lia) ltac:(by intros Ht; specialize (Hrd Ht)) Eh) as (C1 & C2 & C3 & C4) end.
    simpl in *. split_and!; [done|by rw /special_ok /wants_payload C2 C3|done].
Qed.
