(* ===== verification/SpecRequest.v ===== *)
(** * What the life of a block request guarantees

    The command that is sent, the books of a dispatch and its completion, the number
    of attempts, and the payload of a discard. *)
From S2P Require Import Prelude PhaseRing UserCmd KernelRing KernelCq KernelPrp KernelMap Lifecycle ReqSetup ReqLife.
From S2P Require Import SpecKernel.
From S2P Require Import ReqInv.

Lemma sect_to_lba_bytes ns sector :
  9 ≤ ns_lba_shift ns < 32 → (sector * 512) mod 2 ^ ns_lba_shift ns = 0 →
  nvme_sect_to_lba ns sector * 2 ^ ns_lba_shift ns = sector * 512.
Proof.
  intros Hsh Hpa. rw /nvme_sect_to_lba Z.shiftr_div_pow2; [|rw /SECTOR_SHIFT; lia]. change 512 with (2 ^ 9) in Hpa |- *.
  assert (2 ^ ns_lba_shift ns = 2 ^ (ns_lba_shift ns - SECTOR_SHIFT) * 2 ^ 9) as Ep by (rw -Z.pow_add_r; [f_equal|..]; rw /SECTOR_SHIFT; lia).
  rw Ep in Hpa |- *. pose proof (Z.pow_pos_nonneg 2 (ns_lba_shift ns - SECTOR_SHIFT) ltac:(lia) ltac:(rw /SECTOR_SHIFT; lia)) as Hp.
  rw Zmult_mod_distr_r in Hpa. pose proof (Z.div_mod sector (2 ^ (ns_lba_shift ns - SECTOR_SHIFT)) ltac:(lia)). lia.
Qed.

Section request.
Context (e : qenv) (ons : option nvme_ns) (qid : Z) (last : bool).

(** C10.  A dispatch is all or nothing, for a request that fits the driver's limits
    ([dispatch_ok]: a namespace unless it is a driver command, at most 256 ranges of a
    discard, room for the list pointers and no bad scatterlist) and that, when the
    controller is not ready, has no payload from an earlier attempt.  Then
    [nvme_queue_rq] returns.  When it reports an error the payload of a discard, the
    page of the controller, list pages and DMA mappings taken on the way have been
    given back and the queue is as it was; when it fails a request at once (the
    controller is gone) nothing was taken.  When it submits the request, exactly its
    command went to the queue, and completing it with any answer of the controller
    gives everything back. *)
Theorem dispatch_all_or_nothing d :
  dispatch_ok e ons d → (nvme_check_ready e true = false → q_special (d_req d) = false) →
  ∃ st o db d', nvme_queue_rq e ons qid last d = Some (st, o, db, d') ∧
  match o with
  | Some _ => st = STS_OK ∧ gave_back d d'
  | None =>
    if decide (st = STS_OK) then
      (db, d_queue d') = nvme_submit_cmd (d_queue d) (q_cmd (d_req d')) last ∧
      ∀ status result, ∃ o d'', nvme_pci_complete_rq e ons (answered status result d') = Some (o, d'') ∧
        same_pool (d_pl d) (d_pl d'') ∧ ∃ evs, d_events d'' = d_events d ++ evs ∧ balanced evs
    else gave_back d d'
  end.
Proof.
  intros Hdo Hsp. destruct (dispatch_total e ons qid last d Hdo Hsp) as [[[[st o] db] d'] E]. exists st, o, db, d'.
  split; [done|]. destruct Hdo as [D1 D2 D3 D4 D5 D6 _ _ _]. rw /nvme_queue_rq in E.
  match type of E with context [d<{d_aborted := false}><{d_map := ?m}>] => set (d0 := d<{d_aborted := false}><{d_map := m}>) in E end.
  assert (gave_back d d0) as Hg0. { split_and!; try done. by apply no_events. }
  destruct (e_enabled e); cbn [negb] in E; [|injection E as <- <- <- <-; by case_decide].
  destruct (nvme_check_ready e true) eqn:Er; cbn [negb] in E.
  - destruct (snvme_setup_cmd _ _ _ _ _) as [[[st1 req1] h1]|] eqn:Es; [|done]. cbn [mbind option_bind] in E.
    destruct (setup_cmd_after _ _ _ _ _ _ _ _ D1 D2 Es) as [(F1 & F2 & F3 & F4 & F5 & F6) Hp]. destruct (decide (st1 = STS_OK)) as [->|Hst].
    2:{ rw decide_True // in E. injection E as <- <- <- <-. rw decide_False //. split_and!; try done. by apply no_events. }
    destruct (decide (STS_OK ≠ STS_OK)) as [Hd|_]; [by destruct Hd|].
    destruct Hp as (h'' & Hc & Hsame). set (d1 := d0<{d_req := req1}><{d_pl := h1}>) in E.
    destruct (queue_mapped e qid last d1) as [[[st2 db2] d2]|] eqn:Em; [|done]. injection E as <- <- <- <-.
    assert (q_integrity (d_req d1) = q_integrity (d_req d)) as Ei by (by eapply setup_integrity).
    pose proof (mapped_books e qid last d1 st2 db2 d2 h'' D3 D4 D5) as Hb. rw Ei in Hb. specialize (Hb D6 Hc Em). case_decide as Hok.
    + destruct Hb as (B1 & B2 & B3 & B4 & B5 & _ & _ & _ & B6 & evs & B7 & evs' & B8 & B9). split; [exact B6|]. intros status result.
      assert (snvme_cleanup_cmd (d_req (answered status result d2)) (d_pl d2) = Some h'') as Hc2.
      { rw /snvme_cleanup_cmd /=. rw B3 B4 B1. exact Hc. }
      rw /nvme_pci_complete_rq. change (q_integrity (d_req (answered status result d2))) with (q_integrity (d_req d2)). rw B5.
      set (d3 := if q_integrity (d_req d) then _ else _).
      assert (d_map d3 = d_map d2 ∧ d_req d3 = d_req (answered status result d2) ∧ d_pl d3 = d_pl d2 ∧ d_events d3 = d_events d ++ evs ++
        (if q_integrity (d_req d) then [EvUnmapPage (d_meta_dma d2) (e_meta_len e)] else [])) as (G1 & G2 & G3 & G4).
      { rw /d3. destruct (q_integrity (d_req d)); split_and!; try done; simpl; by rw B7 ?app_assoc ?app_nil_r. }
      destruct (complete_pool (e_complete e) ons (d_req d3) (d_pl d3) h'') as (o & req' & seen & Hcr & _); [by rw G2 G3|rw G2 /= B2 F1; intros Ez; by eapply setup_needs_ns|].
      destruct (c_true (r_nseg (e_segments e))); [rw /unmap_data G1 B8|injection B8 as <-]; cbn [mbind option_bind]; rw Hcr; eexists _, _; (split; [done|]);
        (split; [done|]); eexists; (split; [simpl; rw G4 -?app_assoc; done|]); [done|]. by rw app_nil_r in B9.
    + destruct Hb as (B1 & B2 & B3 & evs & B4 & B5). split_and!; [by rw B1|done|]. by exists evs.
  - destruct (busy_nonready e _); [injection E as <- <- <- <-; by case_decide|].
    destruct (nvme_host_path_error _ _ _ _) as [[[[o1 req1] h1] seen]|] eqn:Eh; [|done]. injection E as <- <- <- <-. split; [done|].
    rw /nvme_host_path_error /snvme_complete_rq /snvme_cleanup_cmd /= Hsp // in Eh. cbn [mbind option_bind] in Eh.
    assert (h1 = d_pl d) as ->. { destruct (nvme_decide_disposition _ _); [destruct (nvme_end_req _ _) as [[??]|]; [|done]|..]; by injection Eh. }
    split_and!; try done. by apply no_events.
Qed.

(** C14.  The command of a read, write or append says what the request says, on the
    first attempt as on any later one: when the request is submitted, the opcode and
    the namespace are right, the blocks addressed are exactly the bytes of the
    request, the id is that of the request's present generation, and it is this
    command that went to the queue. *)
Theorem rw_command_exact d db d' ns op :
  ons = Some ns → opcode_of (q_op (d_req d)) = Some op → length (q_cmd (d_req d)) = 16%nat →
  0 ≤ ns_id ns < 2 ^ 32 → 9 ≤ ns_lba_shift ns < 32 → 0 ≤ q_pos (d_req d) < 2 ^ 64 →
  (q_pos (d_req d) * 512) mod 2 ^ ns_lba_shift ns = 0 → q_bytes (d_req d) mod 2 ^ ns_lba_shift ns = 0 →
  0 < q_bytes (d_req d) ≤ 65536 * 2 ^ ns_lba_shift ns →
  nvme_queue_rq e ons qid last d = Some (STS_OK, None, db, d') →
  let c := q_cmd (d_req d') in
  cmd_opcode c = op ∧ cmd_nsid c = ns_id ns ∧ cmd_slba c * 2 ^ ns_lba_shift ns = q_pos (d_req d) * 512 ∧
  (cmd_length c + 1) * 2 ^ ns_lba_shift ns = q_bytes (d_req d) ∧ cmd_id c = nvme_cid (q_nvme (d_req d')) ∧
  (db, d_queue d') = nvme_submit_cmd (d_queue d) c last.
Proof.
  intros Hns Hop Hl Hid Hsh Hpos Hpa Hba Hb E. rw /nvme_queue_rq in E. subst ons.
  match type of E with context [d<{d_aborted := false}><{d_map := ?m}>] => set (d0 := d<{d_aborted := false}><{d_map := m}>) in E end.
  destruct (e_enabled e); [|done]. cbn [negb] in E. destruct (nvme_check_ready e true); cbn [negb] in E.
  2:{ destruct (busy_nonready e _); [done|]. by destruct (nvme_host_path_error _ _ _ _) as [[[[??]?]?]|]. }
  destruct (snvme_setup_cmd _ _ _ _ _) as [[[st1 req1] h1]|] eqn:Es; [|done]. cbn [mbind option_bind] in E.
  destruct (decide (st1 ≠ STS_OK)) as [Hd|Hd]; [by injection E as E _ _; rw E in Hd|]. apply dec_stable in Hd as ->.
  destruct (queue_mapped _ _ _ _) as [[[st2 db2] d2]|] eqn:Em; [|done]. injection E as -> -> ->.
  assert (nvme_sect_to_lba ns (q_pos (d_req d)) * 2 ^ ns_lba_shift ns = q_pos (d_req d) * 512) as Hslba.
  { by apply sect_to_lba_bytes. }
  assert (0 ≤ nvme_sect_to_lba ns (q_pos (d_req d)) < 2 ^ 64) as Hrange.
  { pose proof (Z.pow_le_mono_r 2 9 (ns_lba_shift ns) ltac:(lia) ltac:(lia)). nia. }
  destruct (setup_cmd_rw _ ns _ (d_req d0) _ _ _ op Hop Hl Hid Hrange Es) as (A1 & A2 & A3).
  destruct (mapped_cmd _ _ _ _ _ _ Em) as (M1 & f & Mf & M2). simpl in M1, M2.
  destruct (Mf (q_cmd req1) _ _ _ _ A3 A1) as ((B1 & B2 & B3 & B4) & B5 & _). rw -M2 in B1, B2, B3, B4, B5. split_and!; try done.
  - by rw B3.
  - rw B4. change (q_bytes (d_req d0)) with (q_bytes (d_req d)). rw Z.shiftr_div_pow2; [|lia].
    pose proof (Z.pow_pos_nonneg 2 (ns_lba_shift ns) ltac:(lia) ltac:(lia)) as Hp.
    pose proof (Z.div_mod (q_bytes (d_req d)) (2 ^ ns_lba_shift ns) ltac:(lia)) as Hdm. rw Hba in Hdm.
    rw /u16 Z.mod_small; [lia|]. nia.
  - by rw B5 A2 M1.
  - apply (mapped_submits _ _ _ _ _ _ Em).
Qed.
End request.

(** ** Discards *)

(** The bytes that a range of a payload and a bio name. *)
Definition range_bytes (ns : nvme_ns) (r : dsm_range) : Z * Z := (r_slba r * 2 ^ ns_lba_shift ns, r_nlb r * 2 ^ ns_lba_shift ns).
Definition bio_bytes (bio : Z * Z) : Z * Z := (bio.1 * 512, bio.2).
Definition bio_ok (ns : nvme_ns) (bio : Z * Z) : Prop :=
  0 ≤ bio.1 < 2 ^ 64 ∧ (bio.1 * 512) mod 2 ^ ns_lba_shift ns = 0 ∧ 0 ≤ bio.2 < 2 ^ 32 ∧ bio.2 mod 2 ^ ns_lba_shift ns = 0.

Lemma range_of_bytes ns bio : 9 ≤ ns_lba_shift ns < 32 → bio_ok ns bio → range_bytes ns (range_of ns bio) = bio_bytes bio.
Proof.
  intros Hsh (H1 & H2 & H3 & H4). rw /range_bytes /range_of /bio_bytes /=. pose proof (Z.pow_pos_nonneg 2 (ns_lba_shift ns) ltac:(lia) ltac:(lia)) as Hp.
  f_equal.
  - by apply sect_to_lba_bytes.
  - rw Z.shiftr_div_pow2; [|lia]. pose proof (Z.div_mod bio.2 (2 ^ ns_lba_shift ns) ltac:(lia)) as Hd. rw H4 in Hd.
    rw u32_id; [lia|]. nia.
Qed.

(** C19.  The command of a discard of 1 to 256 bios aligned to the blocks names exactly
    their bytes: when it is set up, the controller reads one range per bio, in order, at
    the payload; the set-up fails only for lack of memory while the controller's own page
    is in use, and then takes no payload: the allocated ones and the page are as they
    were, and the request has no more of one than before. *)
Theorem discard_ranges_exact skip ns new req h :
  q_op req = REQ_OP_DISCARD → length (q_cmd req) = 16%nat → new_fresh new h → length (pl_page h) = NVME_DSM_MAX_RANGES →
  0 ≤ ns_id ns < 2 ^ 32 → 9 ≤ ns_lba_shift ns < 32 → Forall (bio_ok ns) (q_bios req) →
  Z.of_nat (length (q_bios req)) = q_segments req → 1 ≤ q_segments req ≤ 256 →
  ∃ st req' h', snvme_setup_cmd skip (Some ns) new req h = Some (st, req', h') ∧
    ((st = STS_OK ∧ cmd_opcode (q_cmd req') = nvme_cmd_dsm ∧ cmd_nsid (q_cmd req') = ns_id ns ∧
      word 11 (q_cmd req') = NVME_DSMGMT_AD ∧
      ∃ rs, payload_of (q_vec req') h' = Some rs ∧
        range_bytes ns <$> firstn (Z.to_nat (word 10 (q_cmd req') + 1)) rs = bio_bytes <$> q_bios req) ∨
     (st = STS_RESOURCE ∧ new = None ∧ pl_busy h = true ∧ h' = h ∧
      q_special req' = q_special req ∧ q_vec req' = q_vec req)).
Proof.
  intros Hop Hl Hn Hpg Hid Hsh Hbios Hseg Hmax. rw /snvme_setup_cmd. set (req0 := if negb (q_dontprep req) then _ else req).
  assert (q_op req0 = REQ_OP_DISCARD ∧ length (q_cmd req0) = 16%nat ∧ q_bios req0 = q_bios req ∧ q_segments req0 = q_segments req ∧
    q_special req0 = q_special req ∧ q_vec req0 = q_vec req) as (E1 & E2 & E3 & E4 & E5 & E6).
  { rw /req0. by destruct (q_dontprep req). }
  rw /setup_op E1. cbn [mbind option_bind].
  pose proof (discard_exact ns new req0 h Hn Hpg) as Hd. rw E3 E4 in Hd.
  specialize (Hd ltac:(lia) ltac:(change (Z.of_nat NVME_DSM_MAX_RANGES) with 256; lia) Hseg).
  destruct (nvme_setup_discard ns new req0 h) as [[[st req1] h1]|] eqn:Ed; [|done]. cbn [fmap option_fmap option_map mbind option_bind].
  destruct (setup_cid skip (q_nvme req1)) as [cid nv] eqn:Ec. eexists _, _, _. split; [reflexivity|].
  assert (st = STS_OK ∨ st ≠ STS_OK) as [->|Hne] by (destruct (decide (st = STS_OK)); auto); [left|right].
  - destruct Hd as (Hs & (rs & Hrs & Ht) & Hc & _). simpl. rw Hc. assert (0 ≤ cid < 2 ^ 16) as Hcid.
    { rw /setup_cid in Ec. injection Ec as <- _. apply u16_range. }
    split_and!; [done|rw /cmd_opcode; words|rw /cmd_nsid; words; by apply u32_id|by words|].
    + rw field_put_other; [|lia..]. by apply field_put.
    + exists rs. split; [done|]. words. rw u32_id; [|lia]. replace (Z.to_nat (q_segments req - 1 + 1)) with (length (q_bios req)) by lia.
      rw Ht -list_fmap_compose. apply list_fmap_ext. intros i bio Hbio. apply range_of_bytes; [done|]. by eapply Forall_lookup_1.
  - destruct st; try done; try (by destruct Hd). destruct Hd as (_ & ? & ? & -> & ->). done.
Qed.

(** ** Attempts *)

(** A request and the block layer: it is dispatched while it is queued, again after
    [BLK_STS_RESOURCE], and ended by the block layer after another error. *)
Inductive place := Queued | Sent | Over.
#[export] Instance place_eq_dec : EqDecision place.
Proof. solve_decision. Defined.
Record journey := Journey { j_place : place; j_d : dstate; j_outcomes : list outcome }.

Definition place_after (o : outcome) : place := if final o then Over else Queued.
Definition place_dispatched (st : blk_sts) (o : option outcome) : place :=
  match o with
  | Some o => place_after o
  | None => match st with STS_OK => Sent | STS_RESOURCE => Queued | _ => Over end
  end.

(** [ready]: every dispatch finds the controller ready. *)
Inductive jstep (ons : option nvme_ns) (qid max : Z) (ready : bool) : journey → journey → Prop :=
  | jstep_dispatch e last d d' st o db outs :
    e_max_retries (e_complete e) = max → new_fresh (e_new e) (d_pl d) →
    (ready = true → nvme_check_ready e true = true) →
    nvme_queue_rq e ons qid last d = Some (st, o, db, d') →
    jstep ons qid max ready (Journey Queued d outs) (Journey (place_dispatched st o) d' (outs ++ option_list o))
  | jstep_complete e status result d d' o outs :
    e_max_retries (e_complete e) = max →
    nvme_pci_complete_rq e ons (answered status result d) = Some (o, d') →
    jstep ons qid max ready (Journey Sent d outs) (Journey (place_after o) d' (outs ++ [o])).

(** The outcomes so far: a number of returns to the queue, then perhaps an end. *)
Definition outcomes_ok (left : breq → Z) (d0 d : dstate) (p : place) (os : list outcome) : Prop :=
  ∃ again outs, os = again ++ outs ∧ Forall (λ o, final o = false) again ∧
    (p ≠ Over → outs = [] ∧ Z.of_nat (length again) + left (d_req d) ≤ left (d_req d0)) ∧
    Z.of_nat (length again) ≤ left (d_req d0) ∧ (outs = [] ∨ ∃ o, outs = [o] ∧ final o = true).
Definition journey_ok (ons : option nvme_ns) (ready : bool) (max : Z) (d0 : dstate) (j : journey) : Prop :=
  0 ≤ q_retries (d_req (j_d j)) ∧ special_ok ons (d_req (j_d j)) ∧
  (j_place j = Sent → q_dontprep (d_req (j_d j)) = true) ∧
  outcomes_ok (attempts_left ready max) d0 (j_d j) (j_place j) (j_outcomes j).

Lemma attempts_nonneg ready max req : 0 ≤ max → 0 ≤ attempts_left ready max req.
Proof. rw /attempts_left. destruct (q_dontprep _), ready; lia. Qed.
Lemma outcomes_more left d0 d d' p o os :
  0 ≤ left (d_req d') → p ≠ Over → outcomes_ok left d0 d p os →
  (if final o then True else left (d_req d') = left (d_req d) - 1) →
  outcomes_ok left d0 d' (place_after o) (os ++ [o]).
Proof.
  intros Hm Hne (again & outs & -> & Ha & Hp & Hb & Ho) Hl. destruct (Hp Hne) as [-> Hle]. rw app_nil_r. rw /place_after. destruct (final o) eqn:Ef.
  - exists again, [o]. split_and!; try done. right. by exists o.
  - exists (again ++ [o]), []. rw app_nil_r length_app /=. split_and!; [done|by apply Forall_app; split; [|constructor]|intros _; split; [done|lia]|lia|by left].
Qed.
Lemma journey_step ons qid ready max d0 j j' :
  0 ≤ max ≤ 255 → journey_ok ons ready max d0 j → jstep ons qid max ready j j' → journey_ok ons ready max d0 j'.
Proof.
  intros Hm (I1 & I2 & I4 & I3) Hs.
  destruct Hs as [e last d1 d2 st o db outs Emax Hn Hrd E|e status result d1 d2 o outs Emax E]; simpl in *; subst max.
  - destruct (dispatch_attempts ready e ons qid last d1 st o db d2 Hrd I1 ltac:(lia) Hn I2 E) as (G1 & G2 & G3). split_and!; try done.
    { intros Hpl. destruct o as [o|]; rw /place_dispatched /place_after in Hpl; [by destruct (final o)|].
      destruct G3 as [_ G3]. destruct st; try discriminate Hpl. by apply G3. }
    destruct o as [o|]; simpl; [eapply outcomes_more; [apply attempts_nonneg; lia| |done|done]; done|]. rw app_nil_r.
    destruct G3 as [G3 _]. destruct I3 as (again & os & -> & Ha & Hp & Hb & Ho). destruct (Hp ltac:(done)) as [-> Hle].
    exists again, []. split_and!; [by rw app_nil_r|done|intros _; split; [done|lia]|done|by left].
  - rw /nvme_pci_complete_rq in E. set (d3 := if q_integrity _ then _ else _) in E.
    assert (d_req d3 = d_req (answered status result d1)) as E3 by (rw /d3; by destruct (q_integrity _)).
    destruct (if c_true _ then unmap_data d3 else Some d3) as [d4|] eqn:E4; [|done]. cbn [mbind option_bind] in E.
    assert (d_req d4 = d_req d3) as E5.
    { destruct (c_true _); [|by injection E4 as <-]. rw /unmap_data in E4. destruct (nvme_unmap_data _); [|done]. by injection E4 as <-. }
    destruct (snvme_complete_rq _ _ _ _) as [[[[o1 req1] h1] seen]|] eqn:Ec; [|done]. injection E as <- <-. rw E5 E3 in Ec.
    destruct (complete_attempts ready (e_complete e) ons (d_req (answered status result d1)) _ _ _ _ _ I1 ltac:(lia) (λ _, I4 eq_refl) Ec) as (C1 & C2 & C3 & C4).
    simpl in *. split_and!; [done|by rw /special_ok /wants_payload C2 C3|rw /place_after; by destruct (final o1)|].
    eapply outcomes_more; [apply attempts_nonneg; lia| |done|exact C4]. done.
Qed.
Lemma filter_final again outs :
  Forall (λ o, final o = false) again → (outs = [] ∨ ∃ o, outs = [o] ∧ final o = true) →
  filter (λ o, final o = true) (again ++ outs) = outs.
Proof.
  intros Ha Ho. induction Ha as [|o l Hf _ IH]; simpl; [|rw filter_cons_False //; by rw Hf].
  destruct Ho as [->|(o & -> & Hf)]; [done|]. by rw filter_cons_True.
Qed.

(** C27.  The attempts of a request are bounded and it is given up at most once.
    Whatever the controller, the allocators and the state of the device answer: a
    completion puts the request back in the queue at most [s_nvme_max_retries] times
    when every dispatch finds the controller ready, and at most twice as often in any
    case; at most one completion is final (ends it or hands it to another path), no
    other comes after it, and once all attempts are used the next completion is final.
    (A dispatch that finds no memory is repeated without bound and is not a completion.) *)
Theorem attempts_bounded ons qid max ready d j :
  0 ≤ max ≤ 255 → 0 ≤ q_retries (d_req d) → special_ok ons (d_req d) →
  rtc (jstep ons qid max ready) (Journey Queued d []) j →
  let bound := if ready then max else 2 * max in
  ∃ again, j_outcomes j = again ++ filter (λ o, final o = true) (j_outcomes j) ∧ Forall (λ o, final o = false) again ∧
    Z.of_nat (length again) ≤ bound ∧
    (length (filter (λ o, final o = true) (j_outcomes j)) ≤ 1)%nat ∧
    (j_place j ≠ Over → j_outcomes j = again) ∧
    (Z.of_nat (length again) = bound → ∀ j' o, jstep ons qid max ready j j' →
       j_outcomes j' = j_outcomes j ++ [o] → final o = true ∧ j_place j' = Over).
Proof.
  intros Hm Hr0 Hsp0 Hrun bound.
  assert (attempts_left ready max (d_req d) ≤ bound) as Hbd.
  { rw /bound /attempts_left. destruct (q_dontprep (d_req d)), ready; lia. }
  assert (∀ j, rtc (jstep ons qid max ready) (Journey Queued d []) j → journey_ok ons ready max d j) as Hall.
  { apply (rtc_ind_r (journey_ok ons ready max d)).
    - split_and!; try done. exists [], []. pose proof (attempts_nonneg ready max (d_req d) ltac:(lia)). split_and!; try done. by left.
    - intros j1 j2 _ Hs IH. by eapply journey_step. }
  destruct (Hall j Hrun) as (_ & _ & _ & again & outs & Eo & Ha & Hp & Hb & Ho).
  exists again. rw Eo (filter_final _ _ Ha Ho). split_and!; try done; [lia|destruct Ho as [->|(o & -> & _)]; simpl; lia| |].
  { intros Hne. destruct (Hp Hne) as [-> _]. by rw app_nil_r. }
  intros El j' o Hs Ej'. destruct (Hall j') as (_ & _ & _ & again' & outs' & Eo' & Ha' & Hp' & Hb' & Ho').
  { by eapply rtc_r. }
  assert (outs = []) as -> by (assert (j_place j ≠ Over) as Hne by (by destruct Hs); by destruct (Hp Hne)).
  rw app_nil_r in Ej'. destruct (final o) eqn:Ef.
  - split; [done|]. destruct (decide (j_place j' = Over)) as [|Hne]; [done|]. destruct (Hp' Hne) as [-> _]. exfalso.
    rw app_nil_r in Eo'. rw -Eo' Ej' in Ha'. apply Forall_app in Ha' as [_ [Hf _]%Forall_cons]. congruence.
  - exfalso. assert (outs' = []) as ->.
    { destruct Ho' as [|(o' & -> & Hf)]; [done|]. rw Ej' in Eo'. apply app_inj_tail in Eo' as [_ ->]. congruence. }
    rw app_nil_r in Eo'. rw -Eo' Ej' length_app /= in Hb'. lia.
Qed.

(** ** Instances *)

Module req_witness.
(** A write of 304 blocks of 512 bytes from sector 8, in two elements. *)
Definition segments : KernelMap.request :=
  Request 2 0x26000 0 0 false None true 2 false [Sg 0x4800 0x13800; Sg 0x90000 0x12800].
Lemma segments_ok : request_ok segments.
Proof.
  split; try done; simpl.
  - intros _. split_and!.
    + vm_compute. reflexivity.
    + done.
    + vm_compute. discriminate.
    + right. split; [exists 24; reflexivity|]. split_and!; try (vm_compute; discriminate); try (vm_compute; reflexivity).
      left. vm_compute. discriminate.
    + repeat (constructor; [simpl; lia|]). constructor.
    + vm_compute. discriminate.
  - split; [vm_compute; lia|vm_compute; discriminate].
Defined.

Definition cenv0 : cenv := CEnv (λ _, 2) 0 5 false.
Definition env (st : nvme_ctrl_state) : qenv :=
  QEnv cenv0 true st false false false false false (Some 0x5000) witness.pool witness.spool false 32768 segments (Some 0x7000) 8.
Definition ns : nvme_ns := NvmeNs 1 9 0 0 0 false false.
Definition no_flags : req_flags := ReqFlags false false false false false false.
Definition req (op : req_op) (bios : list (Z * Z)) : breq :=
  Breq op no_flags false false PPage 8 0x26000 bios (Z.of_nat (length bios)) false 0 0 (replicate 16 0xff) (NvmeRequest 3 0 0 0) 0 0.
Definition pl : payloads := Payloads ∅ (replicate NVME_DSM_MAX_RANGES (Range 0 0 0)) false (replicate 5 0).
Definition start (op : req_op) (bios : list (Z * Z)) : dstate :=
  DState (req op bios) false (IodMap 0 0 0 0 false false [] []) 0 pl witness.q4 [].

Lemma start_ok op bios :
  (length bios ≤ 256)%nat → dispatch_ok (env NVME_CTRL_LIVE) (Some ns) (start op bios).
Proof.
  intros Hb. split; try done; [exact witness.pool_good|exact witness.spool_good|intros _; exact segments_ok|].
  intros _. simpl. lia.
Defined.

Lemma dispatch_all_or_nothing_w :
  ∃ db d', nvme_queue_rq (env NVME_CTRL_LIVE) (Some ns) 1 true (start REQ_OP_WRITE []) = Some (STS_OK, None, db, d') ∧
    ∃ o d'', nvme_pci_complete_rq (env NVME_CTRL_LIVE) (Some ns) (answered 0x4002 0 d') = Some (o, d'') ∧
      same_pool pl (d_pl d'').
Proof.
  destruct (dispatch_all_or_nothing (env NVME_CTRL_LIVE) (Some ns) 1 true (start REQ_OP_WRITE [])
    (start_ok REQ_OP_WRITE [] ltac:(simpl; lia)) (λ _, eq_refl)) as (st & o & db & d' & E & H).
  assert (st = STS_OK ∧ o = None) as [-> ->].
  { apply (f_equal (fmap (λ r, (r.1.1.1, r.1.1.2)))) in E. vm_compute in E. by injection E. }
  exists db, d'. split; [exact E|]. destruct H as [_ H].
  destruct (H 0x4002 0) as (o & d'' & H1 & H2 & _). exists o, d''. split; [exact H1|exact H2].
Defined.

Lemma rw_command_exact_w :
  ∃ db d', nvme_queue_rq (env NVME_CTRL_LIVE) (Some ns) 1 true (start REQ_OP_WRITE []) = Some (STS_OK, None, db, d') ∧
    cmd_slba (q_cmd (d_req d')) * 512 = 8 * 512 ∧ (cmd_length (q_cmd (d_req d')) + 1) * 512 = 0x26000.
Proof.
  destruct (nvme_queue_rq (env NVME_CTRL_LIVE) (Some ns) 1 true (start REQ_OP_WRITE [])) as [[[[st o] db] d']|] eqn:E;
    [|exfalso; vm_compute in E; discriminate].
  assert (st = STS_OK ∧ o = None) as [-> ->].
  { apply (f_equal (fmap (λ r, (r.1.1.1, r.1.1.2)))) in E. vm_compute in E. by injection E. }
  exists db, d'. split; [reflexivity|].
  destruct (rw_command_exact (env NVME_CTRL_LIVE) (Some ns) 1 true (start REQ_OP_WRITE []) db d' ns nvme_cmd_write
    eq_refl eq_refl eq_refl ltac:(simpl; lia) ltac:(simpl; lia) ltac:(simpl; lia) eq_refl eq_refl ltac:(simpl; lia) E)
    as (_ & _ & H1 & H2 & _). split; [exact H1|exact H2].
Defined.

Lemma discard_ranges_exact_w :
  ∃ req' h', snvme_setup_cmd false (Some ns) (Some 0x5000) (req REQ_OP_DISCARD [(8, 0x1000); (64, 0x200)]) pl = Some (STS_OK, req', h') ∧
    ∃ rs, payload_of (q_vec req') h' = Some rs ∧
      range_bytes ns <$> firstn (Z.to_nat (word 10 (q_cmd req') + 1)) rs = [(0x1000, 0x1000); (0x8000, 0x200)].
Proof.
  destruct (discard_ranges_exact false ns (Some 0x5000) (req REQ_OP_DISCARD [(8, 0x1000); (64, 0x200)]) pl)
    as (st & req' & h' & E & H);
    [reflexivity|reflexivity|done|reflexivity|simpl; lia|simpl; lia| |reflexivity|simpl; lia|].
  - repeat (constructor; [split_and!; vm_compute; (discriminate || reflexivity)|]). constructor.
  - destruct H as [(-> & _ & _ & _ & rs & H1 & H2)|(_ & H & _)]; [|discriminate]. exists req', h'. split; [exact E|]. exists rs. split; [exact H1|exact H2].
Defined.

(** The first answer asks for a retry, the second is a success. *)
Definition after (r : option (blk_sts * option outcome * option (Z * Z) * dstate)) : dstate :=
  default (start REQ_OP_READ []) ((λ r, r.2) <$> r).
Definition sent1 : dstate := after (nvme_queue_rq (env NVME_CTRL_LIVE) (Some ns) 1 true (start REQ_OP_READ [])).
Definition back1 : dstate := default sent1 ((λ r, r.2) <$> nvme_pci_complete_rq (env NVME_CTRL_LIVE) (Some ns) (answered 0x281 0 sent1)).
Definition sent2 : dstate := after (nvme_queue_rq (env NVME_CTRL_LIVE) (Some ns) 1 true back1).
Definition back2 : dstate := default sent2 ((λ r, r.2) <$> nvme_pci_complete_rq (env NVME_CTRL_LIVE) (Some ns) (answered 0 0 sent2)).
Lemma attempts_bounded_w :
  rtc (jstep (Some ns) 1 5 true) (Journey Queued (start REQ_OP_READ []) []) (Journey Over back2 [Requeued 0; Ended STS_OK]) ∧
  ∃ again, [Requeued 0; Ended STS_OK] = again ++ filter (λ o, final o = true) [Requeued 0; Ended STS_OK] ∧ Z.of_nat (length again) ≤ 5.
Proof.
  assert (rtc (jstep (Some ns) 1 5 true) (Journey Queued (start REQ_OP_READ []) []) (Journey Over back2 [Requeued 0; Ended STS_OK])) as Hr.
  { eapply rtc_l; [eapply (jstep_dispatch _ _ _ _ (env NVME_CTRL_LIVE) true _ sent1); [done|done|done|vm_compute; reflexivity]|].
    eapply rtc_l; [eapply (jstep_complete _ _ _ _ (env NVME_CTRL_LIVE) 0x281 0 _ back1); [done|vm_compute; reflexivity]|].
    eapply rtc_l; [eapply (jstep_dispatch _ _ _ _ (env NVME_CTRL_LIVE) true _ sent2); [done|vm_compute; done|done|vm_compute; reflexivity]|].
    eapply rtc_l; [eapply (jstep_complete _ _ _ _ (env NVME_CTRL_LIVE) 0 0 _ back2); [done|vm_compute; reflexivity]|]. apply rtc_refl. }
  split; [exact Hr|].
  destruct (attempts_bounded (Some ns) 1 5 true (start REQ_OP_READ []) _ ltac:(lia) ltac:(simpl; lia) ltac:(done) Hr) as (again & H1 & _ & H2 & _).
  exists again. split; [exact H1|exact H2].
Defined.
End req_witness.
