(* ===== verification/SpecTimeout.v ===== *)
(** * What the handling of timeouts guarantees *)
From S2P Require Import Prelude Lifecycle ReqTimeout.

(** C22.  Aborts stay within what the controller accepts.  In every interleaving of
    the handlers of up to 2^30 requests with completing aborts, restarts, changes of
    state and new identifications of a disabled controller: at most [acl + 1] abort commands are outstanding,
    none of them for a command of the admin queue; while no handler is under way the
    limit is exactly what is left; and no request is aborted twice without having
    been started again, the second timeout resets the controller instead. *)
Theorem abort_budget c acl s :
  0 ≤ acl < 256 → rtc tstep (t_init c acl) s → Z.of_nat (length (t_reqs s)) < 2 ^ 30 →
  outstanding s ≤ t_acl s + 1 ∧ Forall (λ a, a.1 ≠ 0) (t_out s) ∧
  (Forall (λ x, tr_pc x = TIdle) (t_reqs s) → t_limit s = t_acl s + 1 - outstanding s) ∧
  Forall (λ x, (tr_sent x ≤ 1)%nat) (t_reqs s) ∧
  (∀ e x calls c', x ∈ t_reqs s → tr_sent x = 1%nat → timeout_decide e (t_ctrl s) (tr_qid x) (tr_aborted x) = (calls, c', None) → False).
Proof.
  intros Hacl Hr Hn.
  assert (budget_ok s) as [B1 B2 B3 B4 B5].
  { revert s Hr Hn. apply (rtc_ind_r (λ s, Z.of_nat (length (t_reqs s)) < 2 ^ 30 → budget_ok s)).
    - intros _. split; try done; rw /outstanding /count /=; lia.
    - intros s s' _ Hs IH Hn. pose proof (tstep_reqs s s' Hs). eapply budget_step; [|apply IH|done]; lia. }
  pose proof (count_nonneg may_send (t_reqs s)). split_and!; try done; try lia.
  - intros Hi. assert (count holds (t_reqs s) = 0) as E0; [|lia]. clear -Hi. induction Hi as [|x l Hx _ IH]; [done|].
    change (x :: l) with ([x] ++ l). rw count_app count_one IH /holds Hx //.
  - eapply Forall_impl; [exact B4|]. intros x (? & _). done.
  - intros e x calls c' Hx Hsent Hd. rw Forall_forall in B4. destruct (B4 x Hx) as (_ & T2 & _). destruct (T2 Hsent) as [Ha _].
    destruct (decide_sends e (t_ctrl s) (tr_qid x) (tr_aborted x)) as [_ Ha']; [by rw Hd|congruence].
Qed.

Module timeout_witness.
Definition live : nvme_ctrl := NvmeCtrl NVME_CTRL_LIVE None false false 0.
Definition env : tenv := TEnv 0 false false false.
Definition steps (s : tstate) : option tstate :=
  let s := new_request 1 11 (new_request 2 12 s) in
  s ← nvme_timeout env 0 s; s ← nvme_timeout env 1 s; s ← timeout_dec 0 s; s ← timeout_dec 1 s; s ← timeout_alloc true 0 s; timeout_undo 1 s.
Definition final : tstate := default (t_init live 0) (steps (t_init live 0)).
Lemma abort_budget_w :
  rtc tstep (t_init live 0) final ∧ outstanding final = 1 ∧ t_limit final = t_acl final + 1 - outstanding final.
Proof.
  assert (rtc tstep (t_init live 0) final) as Hr.
  { eapply rtc_l; [apply (tstep_new 2 12)|]. eapply rtc_l; [apply (tstep_new 1 11)|].
    eapply rtc_l; [eapply (tstep_timeout env 0); vm_compute; reflexivity|]. eapply rtc_l; [eapply (tstep_timeout env 1); vm_compute; reflexivity|].
    eapply rtc_l; [eapply (tstep_dec 0); vm_compute; reflexivity|]. eapply rtc_l; [eapply (tstep_dec 1); vm_compute; reflexivity|].
    eapply rtc_l; [eapply (tstep_alloc true 0); vm_compute; reflexivity|].
    eapply rtc_l; [eapply (tstep_undo 1); vm_compute; reflexivity|]. vm_compute. apply rtc_refl. }
  split; [exact Hr|]. split; [reflexivity|].
  refine (proj1 (proj2 (proj2 (abort_budget live 0 final _ Hr _))) _); [lia|vm_compute; reflexivity|].
  repeat (constructor; [reflexivity|]). constructor.
Defined.
End timeout_witness.
