(* ===== verification/SpecHostMem.v ===== *)
(** * The host memory buffer: properties *)
From S2P Require Import Prelude KernelPrp HostMem HostMemInv.

Section spec.
Context {E : hmb_env} {L : hmb_env_laws E}.

(** C17.  In every sequence of resets, writes to the [hmb] attribute, bus resets,
    suspensions and resumptions, every operation returns, whichever allocations and
    commands fail on the way, and leaves the buffer well formed: either no buffer is recorded and no DMA memory
    or array is held, or the DMA memory held is exactly the table and the chunks its
    entries describe, one array of pointers names them, the number of entries and the
    total size are as recorded, and the total is within [max_host_mem_size_mb].
    Removing the device leaves no memory and no array behind. *)
Theorem host_mem_well_formed s o : hreach s → op_ok o → allowed o s = true →
  ∃ r s', run_op o s = Some (r, s') ∧
    (no_buffer s' ∨
     ∃ te cs, h_host_mem_descs s' = Some (desc_of <$> cs) ∧ h_host_mem_desc_bufs s' = Some cs.*1 ∧
       h_nr_host_mem_descs s' = Z.of_nat (length cs) ∧ 1 ≤ h_nr_host_mem_descs s' ∧ h_arrays s' = 1 ∧
       h_live s' = list_to_map ((h_host_mem_descs_dma s', te) :: cs) ∧
       NoDup (h_host_mem_descs_dma s' :: cs.*1) ∧ Forall chunk_ok cs ∧
       h_host_mem_size s' = total cs ∧ h_host_mem_size s' ≤ e_max_host_mem_size_mb * SZ_1M) ∧
    (o = OpRemove → h_live s' = ∅ ∧ h_arrays s' = 0).
Proof.
  intros Hs Ho Ha. destruct (wp_run _ _ _ (run_op_spec o s (reach_inv s Hs) Ho Ha)) as (r & s' & Hr & (_ & Hm & _) & Hrm).
  exists r, s'. split; [done|]. split; [|intros [(_ & _ & _ & ? & ?) _]%Hrm; done].
  destruct Hm as [Hn|(te & cs & [Hd Hb Hn Har (Hl & Hnd & Hok) Hne Hsz [Hmx _] _])]; [by left|right].
  exists te, cs. split_and!; [done..| |done|done|done|done|done|done].
  destruct cs; [done|]. cbn [length] in Hn. lia.
Qed.

(** C26.  A controller that does not refuse with a status to give the buffer up
    ([yields]) is never left using memory that was freed: whatever it has
    been told to use is the current table, which is allocated and has that many
    entries, every entry names allocated memory at least as long as the entry says,
    different entries name different memory, and together they hold no more than the
    size in pages the controller was told, which is at least the minimum it asked
    for.  A suspended device uses none. *)
Theorem controller_memory_alive s u : yields E → hreach s → h_using s = Some u →
  ∃ descs, h_host_mem_descs s = Some descs ∧ h_live s !! hu_table u ≠ None ∧
    hu_entries u = Z.of_nat (length descs) ∧ NoDup (hu_table u :: (hd_addr <$> descs)) ∧
    Forall (λ d, ∃ len, h_live s !! hd_addr d = Some len ∧ hd_size d * NVME_CTRL_PAGE_SIZE ≤ len) descs ∧
    foldr (λ d n, hd_size d + n) 0 descs ≤ hu_pages u ∧ hmmin (h_wish s) ≤ hu_pages u ∧
    h_hmb s = true ∧ h_suspended s = false.
Proof.
  intros Hy (_ & _ & Hu)%reach_inv Hs. specialize (Hu Hy). rw /using_ok Hs in Hu. destruct Hu as (Hsu & Hh & Hmin & -> & te & cs & Hb).
  destruct Hb as [Hd _ Hn _ (Hl & Hnd & Hok) _ Hsz _ _]. exists (desc_of <$> cs). cbn [hu_table hu_entries hu_pages].
  assert (hd_addr <$> (desc_of <$> cs) = cs.*1) as Ha by by rw -list_fmap_compose.
  split; [done|]. split; [rw Hl; cbn; by rw lookup_insert_eq|]. split; [by rw length_fmap|]. split; [by rw Ha|].
  split_and!; [| |apply Z.div_le_lower_bound; rw /NVME_CTRL_PAGE_SIZE; lia|done..].
  - apply Forall_fmap, Forall_forall. intros [a n] Hc. exists n. cbn. split; [|rw /NVME_CTRL_PAGE_SIZE; Z.div_mod_to_equations; lia].
    rw Hl. apply (elem_of_list_to_map_1 (M := gmap Z) ((_, te) :: cs)); [done|]. by apply list_elem_of_further.
  - rw Hsz. apply total_pages.
Qed.

(** Allocating a buffer and freeing it: the allocation fails and holds nothing, or
    gives at least the minimum and at most what is preferred, in no more entries than
    the controller takes.  When at least one full chunk is preferred the chunks are
    whole pages and each is freed with the length it was allocated with; only the
    table is freed with another length, when it has more entries than are in use. *)
Theorem alloc_free_roundtrip min preferred s :
  PAGE_SIZE * MAX_ORDER_NR_PAGES ≤ preferred < 2 ^ 44 → (NVME_CTRL_PAGE_SIZE | preferred) → 0 ≤ min →
  preferred ≤ e_max_host_mem_size_mb * SZ_1M → wish_ok (h_wish s) → no_buffer s →
  ∃ r s1, nvme_alloc_host_mem min preferred s = Some (r, s1) ∧
    (r ≠ 0 → h_live s1 = ∅ ∧ h_arrays s1 = 0) ∧
    (r = 0 → min ≤ h_host_mem_size s1 ≤ preferred ∧
      (hmmaxd (h_wish s) ≠ 0 → h_nr_host_mem_descs s1 ≤ hmmaxd (h_wish s)) ∧
      ∃ te s2, h_nr_host_mem_descs s1 * DESC_BYTES ≤ te ∧ nvme_free_host_mem s1 = Some (tt, s2) ∧ h_live s2 = ∅ ∧
        h_misfreed s2 = h_misfreed s1 ++ (if te =? h_nr_host_mem_descs s1 * DESC_BYTES then []
          else [(h_host_mem_descs_dma s1, te, h_nr_host_mem_descs s1 * DESC_BYTES)])).
Proof.
  intros [Hge Hp] Hdv Hmin Hmx Hw Hn.
  assert (0 ≤ preferred ≤ e_max_host_mem_size_mb * SZ_1M) as Hpm by (rw /PAGE_SIZE /MAX_ORDER_NR_PAGES in Hge; lia).
  destruct (wp_run _ _ _ (alloc_host_mem_spec min preferred s Hp Hmin Hpm Hw Hn))
    as (r & s1 & Hr & _ & Ho).
  exists r, s1. split; [done|]. destruct Ho as [[Hr0 (_ & _ & _ & ? & ?)]|(-> & te & cs & Hb & Hsz & Hte & Hmd & Hwp)].
  { by split. }
  split; [done|]. intros _. split; [done|]. rw -(b_nr _ _ _ Hb) in Hte Hmd. split; [done|].
  destruct (wp_run _ _ _ (free_host_mem_exact s1 te cs Hb (Hwp Hge Hdv))) as ([] & s2 & Hf & Hl & Hmf).
  exists te, s2. by split_and!.
Qed.
End spec.

(** ** A machine *)

(** Call number [t] hands out page [t + 1]; calls [fail] says nothing to. *)
Definition demo_env (max_mb : Z) (fail : nat → bool) (features : nat → nvme_features → Z) (power : Z) : hmb_env := {|
  e_max_host_mem_size_mb := max_mb;
  e_dma t live n :=
    let a := Z.of_nat (S t) * 2 ^ 32 in
    if fail t then None else if bool_decide (live !! a = None ∧ 0 ≤ a < 2 ^ 64) then Some a else None;
  e_kcalloc _ := true; e_features := features; e_firmware _ := false; e_is_live _ := true; e_wait_reset _ := true;
  e_get_power_state _ := (power, 0); e_set_power_state _ := 0; e_try_sched_reset _ := 0; e_bring_up _ := true;
|}.
Lemma demo_dma m fail fs p t live n a : @e_dma (demo_env m fail fs p) t live n = Some a → live !! a = None ∧ 0 ≤ a < 2 ^ 64.
Proof. cbn. destruct (fail t); [done|]. case_bool_decide; [|done]. by intros [= <-]. Qed.

Definition calm : hmb_env := demo_env 128 (λ _, false) (λ _ _, 0) 0.
#[local] Instance calm_laws : hmb_env_laws calm.
Proof. split; [done|apply demo_dma]. Qed.

(** A controller that prefers 12 MiB, needs 8 MiB, and takes any number of entries. *)
Definition demo_wish : hmb_wish := HmbWish 3072 2048 0 0.
Definition after (E : hmb_env) (os : list hop) : hst :=
  default (h_probe 4) (run_ops (E := E) os (h_probe 4)).
Definition demo : hst := after calm [OpReset demo_wish].
Lemma demo_reach : hreach (E := calm) demo.
Proof.
  apply (hreach_op (h_probe 4) (OpReset demo_wish) 0); [apply hreach_probe|done|done|].
  vm_compute. reflexivity.
Qed.

Lemma host_mem_well_formed_witness :
  ∃ r s', run_op (E := calm) OpSuspend demo = Some (r, s') ∧ h_nr_host_mem_descs s' = 3 ∧ h_using s' = None.
Proof.
  destruct (host_mem_well_formed (E := calm) demo OpSuspend demo_reach I eq_refl) as (r & s' & Hr & _ & _).
  exists r, s'. split; [exact Hr|]. vm_compute in Hr. injection Hr as <- <-. split; reflexivity.
Defined.

Lemma controller_memory_alive_witness :
  ∃ u, h_using demo = Some u ∧ hu_entries u = 3 ∧ hu_pages u = 3072 ∧ h_live demo !! hu_table u ≠ None.
Proof.
  eexists. split; [vm_compute; reflexivity|]. split; [reflexivity|]. split; [reflexivity|].
  destruct (controller_memory_alive (E := calm) demo _ (λ _ _ _, Z.le_refl 0) demo_reach ltac:(vm_compute; reflexivity)) as (descs & _ & H & _).
  exact H.
Defined.
