(* ===== verification/SpecIoQueues.v ===== *)
(** * What setting up the I/O queues guarantees

    The contract of [s_nvme_setup_io_queues] and its proof from the rules of
    IoQueuesInv.v: whatever the controller, the interrupt layer and the allocators
    answer, the routine ends, gives the lock back, and leaves the queue ids above
    its own to the pool of user queues. *)
From S2P Require Import Prelude.
From S2P Require Import IoQueues.
From S2P Require Import IoQueuesInv.

Section spec.
Context {E : ioq_env} {EL : ioq_env_laws E}.

(** The state in which a reset calls the routine: only the admin queue is up. *)
Record setup_ready (fuel : nat) (s : ioq) : Prop := {
  rd_log : i_log s = [];
  rd_lock : i_lock s = false;
  rd_online : i_online_queues s = 1;
  rd_count : 1 ≤ i_queue_count s ≤ i_queues_len s;
  rd_enabled : ∀ q, 0 < q → q ∉ i_enabled s;
  rd_alloc : i_nr_allocated_queues s = i_queues_len s;
  rd_unsigned : 0 ≤ i_nr_poll_queues s ∧ 0 ≤ e_poll_queues ∧ 0 ≤ i_ctrl_max_io_queues s ∧ 0 ≤ i_cap_kernel_ioq s ∧
    0 ≤ i_nr_user_allocated_cq s ∧ i_nr_user_allocated_cq s + i_queues_len s < 2 ^ 31;
  rd_legacy : i_use_user_allocated s = true → i_nr_user_allocated_cq s < i_queues_len s - 1;
  rd_bar : 1 ≤ i_db_stride s ∧ i_queues_len s * 8 * i_db_stride s < 2 ^ 32;
  rd_fuel : i_queues_len s < Z.of_nat fuel;
}.

Record setup_done (s : ioq) (r : Z) (s' : ioq) : Prop := {
  dn_lock : i_lock s' = false;
  dn_log : Forall (λ c, 1 ≤ cmd_qid c ≤ i_ctrl_max_io_queues s') (i_log s');
  dn_online : 1 ≤ i_online_queues s' ≤ i_queue_count s' ∧ i_queue_count s' ≤ i_queues_len s';
  dn_granted : i_online_queues s' - 1 ≤ i_ctrl_max_io_queues s';
  dn_cap : i_cap_kernel_ioq s ≠ 0 → i_use_user_allocated s = false → i_online_queues s' - 1 ≤ i_cap_kernel_ioq s;
  dn_enabled : ∀ q, 0 < q → q ∈ i_enabled s' ↔ q < i_online_queues s';
  dn_vector : ∀ q, 0 < q < i_online_queues s' → ∃ v, i_vector s' !! q = Some v ∧ 0 ≤ v < i_num_vecs s';
  dn_doorbells : ∀ q, 0 < q < i_online_queues s' → doorbells_end s' q ≤ i_bar_mapped_size s';
  dn_all : r = 0 → i_online_queues s' = 1 ∨ i_online_queues s' = i_max_qid s' + 1;
}.

(** An early return: nothing was sent. *)
Lemma setup_done_early fuel s r s' :
  setup_ready fuel s → i_lock s' = false → i_log s' = [] → i_online_queues s' = 1 → i_queue_count s' = i_queue_count s →
  i_queues_len s' = i_queues_len s → i_enabled s' = i_enabled s → 0 ≤ i_ctrl_max_io_queues s' → setup_done s r s'.
Proof.
  intros [] Hl Hg Ho Hc Hq He Hm. split; rw ?Hg ?Ho ?Hc ?Hq ?He //; try lia.
  intros q Hq'. split; [by intros ?%rd_enabled0|lia].
Qed.

Lemma settled_done fuel nr s s1 r s' :
  setup_ready fuel s → settled (i_ctrl_max_io_queues s1) nr s1 r s' → nr ≤ i_ctrl_max_io_queues s1 →
  (i_cap_kernel_ioq s ≠ 0 → i_use_user_allocated s = false → nr ≤ i_cap_kernel_ioq s) → setup_done s r s'.
Proof.
  intros Hrd [Hi Hl Hm Ho Ha Hd] Hnr Hcap. destruct Hi as [H1 H2 H3 H4 H5].
  split; rw ?Hm //; [lia|]. intros Hc Hu. specialize (Hcap Hc Hu). lia.
Qed.

(** The number the controller grants. *)
Lemma wp_set_queue_count count s (Q : Z * Z → ioq → Prop) :
  0 ≤ count →
  (∀ r n, r ≤ 0 → 0 ≤ n ≤ count → Q (r, n) (s<{i_tick := S (i_tick s)}>)) →
  wp (snvme_set_queue_count count) Q s.
Proof.
  intros Hc HQ. rw /snvme_set_queue_count. wp_step. set (q := u32 _).
  apply (wp_of_run _ _ _ (e_set_features (i_tick s) q) (s<{i_tick := S (i_tick s)}>)); [done|].
  pose proof (law_features (i_tick s) q) as Hr. destruct (e_set_features (i_tick s) q) as [st res]. cbn [fst snd] in *.
  destruct (Z.ltb_spec st 0); [apply wp_ret, HQ; lia|]. destruct (Z.ltb_spec 0 st); [apply wp_ret, HQ; lia|].
  apply wp_ret, HQ; [done|]. pose proof (proj2 (Z.land_nonneg res 0xffff) ltac:(lia)). pose proof (proj2 (Z.shiftr_nonneg res 16) Hr). lia.
Qed.

(** What the legacy path keeps for the kernel ([n']) of a grant of [n]. *)
Lemma wp_divide fuel n expect s s0 (Q : Z → ioq → Prop) :
  setup_ready fuel s0 → i_use_user_allocated s0 = true →
  expect = i_nr_user_allocated_cq s0 + (i_queues_len s0 - 1) → 0 ≤ n ≤ expect →
  i_nr_allocated_queues s = i_queues_len s0 → i_nr_user_allocated_cq s = i_nr_user_allocated_cq s0 →
  (∀ n' alloc use ucq usq s', s' = s<{i_use_user_allocated := use}><{i_nr_allocated_queues := alloc}>
       <{i_nr_user_use_cq := ucq}><{i_nr_user_use_sq := usq}> →
     0 ≤ n' < i_queues_len s0 → n' ≤ n → n' + user_share s' ≤ n → 0 ≤ user_share s' → Q n' s') →
  wp (divide_grant n expect) Q s.
Proof.
  intros Hrd Hu He Hn Ha Huc HQ. destruct Hrd. specialize (rd_legacy0 Hu). rw /divide_grant. do 3 (wp_step; apply wp_gets).
  rw Ha Huc (u32_id (i_queues_len s0 - 1)); [|lia].
  destruct (Z.ltb_spec n (i_queues_len s0 - 1)).
  { wp_step. apply wp_modify, wp_ret. apply (HQ _ (i_nr_allocated_queues s) false (i_nr_user_use_cq s) (i_nr_user_use_sq s));
      [by destruct s|lia|lia|rw /user_share /=; lia|done]. }
  rw (proj2 (Z.leb_le n expect)); [|lia]. rw (u32_id (n - 1)); [|lia].
  rw (proj2 (Z.ltb_ge (n - 1) (i_nr_user_allocated_cq s0))); [|lia].
  rw !u32_id; [|lia..]. wp_step. apply wp_modify, wp_ret.
  apply (HQ _ (n - i_nr_user_allocated_cq s0) (i_use_user_allocated s) (i_nr_user_allocated_cq s0) (i_nr_user_allocated_sq s));
    [by destruct s|lia|lia| |]; rw /user_share /=; destruct (i_use_user_allocated s); lia.
Qed.

Lemma wp_setup fuel s : setup_ready fuel s → wp (s_nvme_setup_io_queues fuel) (setup_done s) s.
Proof.
  intros Hrd. pose proof Hrd as [Hg Hl Ho Hc Hen Ha (Hp & Hep & Hm & Hcp & Huc & Hsm) Hleg [Hst Hbar] Hf].
  rw /s_nvme_setup_io_queues. wp_step. apply wp_gets. wp_step.
  apply (wp_mono _ (λ _ s1, ∃ w p, s1 = s<{i_nr_write_queues := w}><{i_nr_poll_queues := p}> ∧ 0 ≤ p)).
  { apply wp_when; intros _; [apply wp_modify; by eexists _, _|].
    exists (i_nr_write_queues s), (i_nr_poll_queues s). split; [by destruct s|done]. }
  intros _ s1 (w & p & -> & Hp1). set (s1 := s<{i_nr_write_queues := w}><{i_nr_poll_queues := p}>).
  do 3 (wp_step; apply wp_gets). change (i_use_user_allocated s1) with (i_use_user_allocated s).
  change (i_nr_user_allocated_cq s1) with (i_nr_user_allocated_cq s). change (i_nr_allocated_queues s1) with (i_nr_allocated_queues s).
  rw Ha !u32_id; [|lia..]. wp_step. apply wp_set_queue_count; [destruct (i_use_user_allocated s); lia|]. intros r n Hr Hn.
  wp_step. apply (wp_mono _ (λ _ s2, ∃ m, s2 = s1<{i_tick := S (i_tick s1)}><{i_ctrl_max_io_queues := m}> ∧ 0 ≤ m ∧ (r = 0 → m = n))).
  { apply wp_when; intros Er; [apply wp_modify; exists n; split; [done|lia]|]. apply Z.eqb_neq in Er.
    exists (i_ctrl_max_io_queues s). split; [by destruct s|lia]. }
  intros _ s2 (m & -> & Hm0 & Hm2). set (s2 := s1<{i_tick := S (i_tick s1)}><{i_ctrl_max_io_queues := m}>). wp_step.
  apply (wp_mono _ (λ n' s3, 0 ≤ n' < i_queues_len s ∧ n' ≤ n ∧ n' + user_share s3 ≤ n ∧ 0 ≤ user_share s3 ∧
    (i_use_user_allocated s = false → i_use_user_allocated s3 = false) ∧
    ∃ alloc use ucq usq, s3 = s2<{i_use_user_allocated := use}><{i_nr_allocated_queues := alloc}>
       <{i_nr_user_use_cq := ucq}><{i_nr_user_use_sq := usq}>)).
  { destruct (i_use_user_allocated s) eqn:Eu.
    - apply (wp_divide fuel n _ s2 s); try done. intros n' a u c q s3 E3 H1 H2 H3 H4. split_and!; try done; [lia|lia|].
      by exists a, u, c, q.
    - apply wp_ret. assert (user_share s2 = 0) as -> by (by rw /user_share /= Eu). split_and!; try lia; [done|].
      exists (i_nr_allocated_queues s2), (i_use_user_allocated s2), (i_nr_user_use_cq s2), (i_nr_user_use_sq s2). by destruct s. }
  intros n' s3 (Hn' & Hle & Hsh & Hus & Huf & a & u & c & q & E3).
  destruct (Z.ltb_spec r 0); [apply wp_ret; rw E3; by apply (setup_done_early fuel s)|].
  destruct (Z.eqb_spec n' 0); [apply wp_ret; rw E3; by apply (setup_done_early fuel s)|].
  assert (m = n) as -> by (apply Hm2; lia). clear Hm2.
  wp_step. apply wp_gets. set (b := c_true (i_cap_kernel_ioq s)).
  set (nr := if b && negb (i_use_user_allocated s3) && (i_cap_kernel_ioq s <? n') then i_cap_kernel_ioq s else n').
  assert (1 ≤ nr ≤ n' ∧ (i_cap_kernel_ioq s ≠ 0 → i_use_user_allocated s = false → nr ≤ i_cap_kernel_ioq s)) as [Hnr Hcap].
  { rw /nr /b /c_true. destruct (Z.eqb_spec (i_cap_kernel_ioq s) 0); cbn [negb andb]; [split; lia|].
    destruct (Z.ltb_spec (i_cap_kernel_ioq s) n'); [|rw andb_false_r; lia].
    destruct (i_use_user_allocated s3); cbn [negb andb]; [|lia]. split; [lia|]. by intros _ ?%Huf. }
  assert (i_queues_len s3 = i_queues_len s ∧ i_db_stride s3 = i_db_stride s ∧ i_nr_poll_queues s3 = p ∧
    i_lock s3 = false ∧ i_online_queues s3 = 1 ∧ i_ctrl_max_io_queues s3 = n) as (El & Es & Ep & Elk & Eon & Emx) by (by rw E3).
  assert (ioq_inv n s3) as Hi3.
  { rw E3. split; simpl; rw ?Hg ?Ho //; try lia. intros x Hx. split; [by intros ?%Hen|lia]. }
  apply (wp_setup_negotiated n); rw ?El ?Es ?Ep; try done; try lia.
  intros r' s4 Hs4. apply (settled_done fuel nr s s3); try done; rw Emx; [done|lia].
Qed.

(** C39.  [s_nvme_setup_io_queues] is total and safe.  Called with only the admin
    queue up, with [dev->queues] allocated for [nr_allocated_queues], a doorbell array
    that fits 32 bits and, when user queues were requested the legacy way, fewer of
    them than [dev->queues] has room for ([setup_ready]: [rd_alloc], [rd_bar],
    [rd_legacy]; [legacy_overrun] in Findings.v has more), it returns whatever the controller grants, whichever commands,
    interrupt vectors, allocations and lock attempts fail: the retries terminate, no
    entry outside [dev->queues] is written, and [shutdown_lock] is released.
    Afterwards queues 1 .. [online_queues - 1] and no others are enabled, each has
    an interrupt vector that was allocated and doorbells inside the mapped BAR, the
    kernel took no more than the controller granted (nor than [cap_kernel_ioq]), no
    create or delete command named a queue outside the grant, and a success means
    that either all [max_qid] queues are up or none. *)
Theorem setup_io_queues_safe fuel s :
  setup_ready fuel s → ∃ r s', s_nvme_setup_io_queues fuel s = Some (r, s') ∧ setup_done s r s'.
Proof. intros H. apply wp_run, wp_setup, H. Qed.
End spec.

Module witness.
(** A controller that grants 5 queues and rejects queue 3. *)
Definition env : ioq_env := {|
  e_write_queues := 0; e_poll_queues := 1; e_single_vector := false; e_bar_len := 0x4000;
  e_set_features _ _ := (0, 0x40004); e_trylock _ := true; e_connecting _ := true;
  e_alloc_vectors _ n := n; e_request_irq _ := 0; e_alloc_queue _ := true;
  e_submit _ c := match c with CmdCreateCq 3 => 0x4101 | _ => 0 end;
  e_ioremap _ := true; e_delete_request _ := true; e_delete_done _ := true; e_find_map _ _ _ := true |}.
#[export] Instance env_laws : ioq_env_laws env.
Proof. split; intros; simpl; lia. Qed.

(** Eight processors, and at most four queues for the kernel. *)
Definition start : ioq := {|
  i_nr_allocated_queues := 9; i_queues_len := 9; i_use_user_allocated := false; i_nr_user_allocated_cq := 0;
  i_nr_user_allocated_sq := 0; i_nr_user_use_cq := 0; i_nr_user_use_sq := 0; i_cap_kernel_ioq := 4;
  i_nr_write_queues := 0; i_nr_poll_queues := 1; i_ctrl_max_io_queues := 0; i_q_depth := 1024; i_cmb_use_sqes := false;
  i_cmb_size := 0; i_default := 0; i_read := 0; i_poll := 0; i_num_vecs := 1; i_max_qid := 0; i_online_queues := 1;
  i_queue_count := 1; i_online_user_queues := 0; i_user_start_qid := 0; i_bar_mapped_size := 0x1000; i_db_stride := 1;
  i_lock := false; i_enabled := {[0]}; i_polled := ∅; i_vector := ∅; i_log := []; i_tick := O |}.

Lemma setup_io_queues_safe_w :
  ∃ r s', s_nvme_setup_io_queues (E := env) 10 start = Some (r, s') ∧ setup_done start r s'.
Proof.
  apply (setup_io_queues_safe (E := env) (EL := env_laws) 10 start). split; try done; simpl; try lia.
  intros q Hq ?%elem_of_singleton. lia.
Defined.

(** The run: the four queues are tried, the third is rejected, the two that were
    created are deleted and created again, the second as a polled queue. *)
Example run :
  (λ '(r, s), (r, i_online_queues s, i_ctrl_max_io_queues s, (elements (i_polled s), i_log s))) <$>
    s_nvme_setup_io_queues (E := env) 10 start =
  Some (0, 3, 5, ([2], [CmdCreateCq 1; CmdCreateSq 1; CmdCreateCq 2; CmdCreateSq 2; CmdCreateCq 3;
    CmdDeleteSq 2; CmdDeleteSq 1; CmdDeleteCq 2; CmdDeleteCq 1; CmdCreateCq 1; CmdCreateSq 1; CmdCreateCq 2; CmdCreateSq 2])).
Proof. vm_compute. reflexivity. Qed.
End witness.
