(* ===== verification/SpecDevLife.v ===== *)
(** * The life of a device: properties *)
From S2P Require Import Prelude.
From S2P Require Import IoQueues.
From S2P Require Import SpecIoQueues.
From S2P Require Import DevLife.
From S2P Require Import DevLifeInv.

(** ** The contract of the queue set-up

    What [DevLife] assumes of [s_nvme_setup_io_queues] holds of its model. *)
Definition io_up_of (r : Z) (q : IoQueues.ioq) : io_up :=
  IoUp r (IoQueues.i_online_queues q) (IoQueues.i_queue_count q) (bool_decide (0 ∈ IoQueues.i_enabled q))
    (0 <? IoQueues.i_bar_mapped_size q).

Lemma io_contract {E : IoQueues.ioq_env} {EL : IoQueues.ioq_env_laws E} fuel q :
  SpecIoQueues.setup_ready fuel q → ∃ r q', IoQueues.s_nvme_setup_io_queues fuel q = Some (r, q') ∧
    let up := io_up_of r q' in
    1 ≤ io_online up ≤ io_count up ∧ io_count up ≤ IoQueues.i_queues_len q' ∧
    ∀ n, n ∈ IoQueues.i_enabled q' → 0 < n → n < io_online up.
Proof.
  intros Hrd. destruct (wp_run _ _ _ (SpecIoQueues.wp_setup fuel q Hrd)) as (r & q' & Hr & Hd).
  exists r, q'. split; [done|]. cbn. pose proof (SpecIoQueues.dn_online _ _ _ Hd) as [? ?]. split_and!; [lia..|].
  intros n Hn Hn0. by apply (SpecIoQueues.dn_enabled _ _ _ Hd).
Qed.

Section spec.
Context {E : dl_env} {L : dl_env_laws E}.

(** C23.  In every sequence of probing, resets, disabling, opening and closing of the
    controller, removal and the deferred work of a probe and of a dead controller,
    whichever steps fail within [dl_env_laws], each event returns without a fault: no resource is taken
    twice or given back twice, no register is used that is not mapped, no handler is
    left on a vector or on rings that are freed, and nothing is used after it was
    freed.  A probe that fails leaves nothing behind, a device that is gone holds
    nothing, and a removed one is still there only while the probe's or the dead
    controller's deferred work or an open file holds a reference.
    [dl_env_laws] excludes three failures for which this is false
    (FindingsDevLife.v): a BAR that cannot be mapped again when it is replaced, a
    request queue that cannot be made although its tags are there, and shadow
    doorbells that the controller refuses though all queues are online.  Of the setup
    of the I/O queues it assumes the contract that IoQueues.v proves. *)
Theorem device_life_safe s o : dreach s → may o s = true →
  ∃ r s', run_dop o s = Some (r, s') ∧ (o = DProbe → r ≠ 0 → nothing s') ∧ (v_dev s' = false → nothing s') ∧
    (v_phase s' = PRemoved → v_probing s' = true ∨ v_dying s' = true ∨ 0 < v_opens s').
Proof.
  intros Hs Ho. destruct (wp_run _ _ _ (run_dop_inv o s (dreach_inv s Hs) Ho)) as (r & s' & Hr & [_ Hi] & Hp).
  exists r, s'. split_and!; [done|done|..].
  - intros Hd. destruct (v_phase s').
    + by destruct Hi.
    + destruct Hi as ([= ? _ _ _ _ _ _ _ _ _ _] & _). congruence.
    + destruct Hi as ([= ? _ _ _ _ _ _ _ _ _ _] & _). congruence.
    + destruct Hi as ([[= ? _ _ _ _ _] _ _ _ _] & _). congruence.
    + by destruct Hi.
  - intros Hph. rw Hph in Hi. destruct Hi as (_ & Hr1 & Hr2). rw /pending in Hr1.
    destruct (v_probing s'), (v_dying s'); auto. right. right. cbn [c_bool] in Hr1. lia.
Qed.
End spec.

(** ** A machine on which everything works *)

Definition smooth : dl_env := {|
  f_ok _ := true; f_registered _ := true; f_ioremap _ := true; f_init_queue _ := true; f_dbbuf _ _ := true;
  f_dead _ := false; f_yes _ := true; f_host_mem _ := (0, true); f_io _ _ := IoUp 0 3 3 true true;
  f_queues_len := 4; f_bar_len := 0x4000; f_db_stride := 1;
|}.
#[local] Instance smooth_laws : dl_env_laws smooth.
Proof. split; done. Qed.

Definition run_from (E : dl_env) (os : list dop) : dl := default d_start (run_dops (E := E) os d_start).

Lemma device_life_safe_witness :
  ∃ s', run_dop (E := smooth) DRemove (run_from smooth [DProbe; DReset; DAsync; DReset]) = Some (0, s') ∧ nothing s'.
Proof.
  assert (dreach (E := smooth) (run_from smooth [DProbe; DReset; DAsync; DReset])) as Hs.
  { apply (run_dreach (E := smooth) [DProbe; DReset; DAsync; DReset] d_start); [apply dreach_start|]. vm_compute. reflexivity. }
  destruct (device_life_safe (E := smooth) _ DRemove Hs ltac:(vm_compute; reflexivity)) as (r & s' & Hr & _ & Hn & _).
  exists s'. vm_compute in Hr. injection Hr as <- <-. split; [vm_compute; reflexivity|]. apply Hn. reflexivity.
Defined.
