(* ===== verification/SpecParallel.v ===== *)
(** * What the shared submission queue guarantees

    For every interleaving of any number of calls of [sq_enqueue] with the
    controller and with the threads that take completions. *)
From S2P Require Import Prelude.
From S2P Require Import ParallelQueue.
From S2P Require Import ParallelInv.

Section spec.
Context {C : Type}.
Implicit Types s : pq C.

Lemma step_grows s s' : pstep s s' → p_qs_log2 s' = p_qs_log2 s ∧ issued s ≤ issued s'.
Proof.
  assert (∀ s s' t p s0, p_qs_log2 s0 = p_qs_log2 s → p_calls s0 = p_calls s → s' = set_pc t p s0 →
    p_qs_log2 s' = p_qs_log2 s ∧ issued s ≤ issued s') as Hset.
  { intros s1 s2 t p s0 E1 E2 ->. rw /issued /set_pc /= length_alter E1 E2. done. }
  destruct 1 as [cmd s|t s s' Hs|k s s' Hs|s s' Hs|s s' Hs|s].
  - rw /issued /= length_app /=. lia.
  - rw /call_step in Hs. destruct (p_calls s !! t) as [x|]; [|done]. simpl in Hs.
    destruct (c_pc x); simpl in Hs; try case_match; try done; injection Hs as <-; (eapply Hset; [| |reflexivity]; done).
  - rw /move_head_start in Hs. destruct (p_advance s); [done|]. destruct (p_posted s !! k); [|done]. simpl in Hs.
    injection Hs as <-. by destruct (_ =? _).
  - rw /move_head_step in Hs. destruct (p_advance s) as [[[? ?] ?]|]; [|done]. injection Hs as <-. by destruct (_ =? _).
  - rw /fetch in Hs. destruct (_ =? _); [done|]. by injection Hs as <-.
  - done.
Qed.

Lemma step_inv s s' S rd :
  queue_inv s S rd → fits s → fits s' → pstep s s' → ∃ S' rd', queue_inv s' S' rd'.
Proof.
  intros I Hf Hf' Hs. destruct Hs as [cmd s|t s s' Hs|k s s' Hs|s s' Hs|s s' Hs|s].
  - exists S, rd. apply enqueue_inv; [done|]. destruct (fits_qs _ Hf') as [Hq _]. destruct Hf' as [_ Hb].
    rw /issued /= length_app /= in Hb. rw /issued. lia.
  - destruct (p_calls s !! t) as [x|] eqn:Hx; [|by rw /call_step Hx in Hs].
    destruct (decide ((rank (c_pc x) < 4)%nat ∨ c_pc x = PTest ∨ c_pc x = PFinish)) as [Hb|Hb].
    + destruct (before_inv s S rd t x I Hx Hf s' Hs Hb) as [rd' ?]. by exists S, rd'.
    + destruct (sweep_inv s S rd t x I Hx Hf s' Hs) as [S' ?]; [| |by exists S', rd]; [|tauto].
      rw /call_step Hx /= in Hs. destruct (c_pc x); try done; simpl in Hb; try lia; tauto.
  - exists S, rd. by eapply start_inv.
  - destruct (move_inv s S rd I Hf s' Hs) as [rd' ?]. by exists S, rd'.
  - exists S, rd. by eapply fetch_inv.
  - exists S, rd. by apply post_inv.
Qed.

Lemma init_inv log ring : 1 ≤ log ≤ 16 → queue_inv (C := C) (pq_init log ring) 0 (λ _, 0).
Proof.
  intros Hl. assert (2 ≤ 2 ^ log) as Hn by (apply (Z.pow_le_mono_r 2 1); lia).
  assert (∀ t, rank_at (C := C) (pq_init log ring) t = 0%nat) as Hr by (intros t; rw /rank_at; by case_match).
  split; try done.
  - split; intros t; rw ?Hr; try lia; try done.
    + intros Ht Hx. pose proof (Z.div_pos t (qs (C := C) (pq_init log ring)) Ht ltac:(rw /qs /=; lia)). lia.
    + intros Ht Hx. split; [lia|]. rw Hx. change (passed (pq_init log ring)) with 0. rw (proj2 (Z.ltb_ge t 0) Ht). done.
  - change (0 ≤ 0 + 2 ^ log - 1). lia.
  - left. split_and!; done.
  - split; [done|]. by exists 0.
Qed.

Lemma run_inv log ring s :
  1 ≤ log ≤ 16 → rtc pstep (pq_init log ring) s → issued s + qs s ≤ 2 ^ 32 → ∃ S rd, queue_inv s S rd ∧ fits s.
Proof.
  intros Hl Hr. revert s Hr. apply (rtc_ind_r (λ s, issued s + qs s ≤ 2 ^ 32 → ∃ S rd, queue_inv s S rd ∧ fits s)).
  - intros Hb. exists 0, (λ _, 0). split; [by apply init_inv|done].
  - intros s s' _ Hs IH Hb. destruct (step_grows s s' Hs) as [Eq Hi]. assert (qs s' = qs s) as Eqs by (rw /qs Eq //).
    destruct IH as (S & rd & I & Hf); [lia|]. assert (fits s') as Hf'.
    { destruct Hf as [H1 _]. split; [by rw Eq|done]. }
    destruct (step_inv s s' S rd I Hf Hf' Hs) as (S' & rd' & I'). by exists S', rd'.
Qed.

(** C32.  Threads that share a submission queue do not disturb each other.  As long
    as fewer than 2^32 - qs commands have been given to a queue of 2 to 65536 slots,
    in every interleaving of the accesses: (1) the controller has read the commands
    of the calls in the order of their tickets, each once and as it was given; (2)
    every command that was announced and not yet read is in its slot, whole; (3) no
    more than qs - 1 commands are announced beyond the head, and the head is never
    ahead of the controller; (4) when no thread sweeps, every call that returned has
    been announced; (5) at most one thread sweeps. *)
Theorem parallel_queue_fifo log ring s :
  1 ≤ log ≤ 16 → rtc pstep (pq_init log ring) s → issued s + qs s ≤ 2 ^ 32 →
  p_fetched s = take (length (p_fetched s)) (c_cmd <$> p_calls s) ∧
  (∀ t, fetched s ≤ t < p_announced s → cmd_at s t = Some (p_ring s (t mod qs s))) ∧
  (p_head s ≤ fetched s ≤ p_announced s ∧ p_announced s - p_head s ≤ qs s - 1) ∧
  (p_tail_lock s = UNLOCKED → ∀ t x, p_calls s !! t = Some x → c_pc x = PDone → Z.of_nat t < p_announced s) ∧
  (∀ t u x y, p_calls s !! t = Some x → p_calls s !! u = Some y → critical (c_pc x) = true → critical (c_pc y) = true → t = u).
Proof.
  intros Hl Hr Hb. destruct (run_inv log ring s Hl Hr Hb) as (S & rd & I & Hf). pose proof (qi_slots _ _ _ I) as J.
  destruct (qi_order _ _ _ I) as (O1 & O2 & O3). split_and!; [exact (qi_fetched _ _ _ I)| |lia..| | |].
  - intros t Ht. assert (4 ≤ rank_at s t)%nat by (eapply sl_swept; [exact J|lia]).
    eapply sl_full; [exact J|lia|eapply now_unpassed; [exact J|lia..]|lia].
  - pose proof (qi_room _ _ _ I). lia.
  - intros Hu t x Hx Hp. destruct (qi_lock _ _ _ I) as [(_ & HS & Ha & _)|(Hl' & _)]; [|by rw Hl' in Hu].
    destruct (call_facts s S rd t x I Hx) as (_ & Ht & Er & _). rw Hp /= in Er.
    pose proof (sl_leaving _ _ _ _ _ _ _ _ _ J (Z.of_nat t) ltac:(lia) ltac:(lia)). lia.
  - intros t u x y Hx Hy Hcx Hcy. destruct (holder_of s S rd t x I Hx Hcx) as (_ & _ & Hu). symmetry. eauto.
Qed.
End spec.

Module witness.
(** Runs of the queue. *)
Inductive action := AEnqueue (cmd : Z * Z) | ACall (t : nat) | AStart (k : nat) | AMove | AFetch | APost.
Definition act (a : action) (s : pq Z) : option (pq Z) :=
  match a with
  | AEnqueue cmd => Some (sq_enqueue cmd s)
  | ACall t => call_step t s
  | AStart k => move_head_start k s
  | AMove => move_head_step s
  | AFetch => fetch s
  | APost => Some (post s)
  end.
Fixpoint run (l : list action) (s : pq Z) : option (pq Z) :=
  match l with [] => Some s | a :: l => s ← act a s; run l s end.
Lemma run_steps l : ∀ s s', run l s = Some s' → rtc pstep s s'.
Proof.
  induction l as [|a l IH]; intros s s'; simpl; [by intros [= ->]|]. destruct (act a s) as [s1|] eqn:Ea; [|done]. simpl.
  intros Hr. eapply rtc_l; [|by apply IH].
  destruct a; simpl in Ea; simplify_eq; by econstructor.
Qed.

(** Two calls on four slots: the second sweeps the marks of both, the controller
    reads one command, reports it, and the head moves. *)
Definition trace : list action :=
  [AEnqueue (10, 11); AEnqueue (20, 21)] ++ replicate 2 (ACall 0) ++ replicate 5 (ACall 1) ++ replicate 3 (ACall 0) ++
  replicate 15 (ACall 1) ++ [AFetch; APost] ++ replicate 2 (ACall 0) ++ [AStart 0; AMove; AMove].
Definition final : pq Z := default (pq_init 2 (λ _, (0, 0))) (run trace (pq_init 2 (λ _, (0, 0)))).

Lemma parallel_queue_fifo_w :
  rtc pstep (pq_init 2 (λ _, (0, 0))) final ∧ issued final = 2 ∧ p_announced final = 2 ∧ p_head final = 1 ∧
  p_fetched final = take (length (p_fetched final)) (c_cmd <$> p_calls final).
Proof.
  assert (rtc pstep (pq_init 2 (λ _, (0, 0))) final) as Hr by (apply (run_steps trace); vm_compute; reflexivity).
  split; [exact Hr|]. split; [vm_compute; reflexivity|]. split; [vm_compute; reflexivity|]. split; [vm_compute; reflexivity|].
  refine (proj1 (parallel_queue_fifo 2 (λ _, (0, 0)) final _ Hr _)); [lia|vm_compute; discriminate].
Defined.
End witness.
