(* ===== verification/SpecParallelCq.v ===== *)
(** * What the shared completion queue guarantees

    For every interleaving of any number of threads that search and remove entries
    with the controller that posts them: each gets its own completion, and one that
    is left alone with its predecessors done returns. *)
From stdpp Require Import functions.
From S2P Require Import Prelude.
From S2P Require Import PhaseRing.
From S2P Require Import ParallelQueue.
From S2P Require Import ParallelCq.
From S2P Require Import ParallelCqInv.

(** How far the thread that sweeps has come. *)
Definition swept_to (p : cpc) : option Z :=
  match p with
  | CSweep _ cur k | CSqEntry _ cur k | CSqLoad _ cur k _ | CSqTicket _ cur k _ _ _ | CSqMove _ cur k _ | CDoorbell _ cur k
  | CStoreHead _ cur k => Some (cur + k)
  | _ => None
  end.
(** The entry [p] was removed: the head is past it, or the thread that sweeps is and
    has yet to move the head. *)
Definition removed (s : cq) (p : nat) : Prop :=
  Z.of_nat p < k_head s ∨
  ∃ u y e, k_calls s !! u = Some y ∧ sweeping (cc_pc y) = true ∧ swept_to (cc_pc y) = Some e ∧ Z.of_nat p < e.

Lemma removed_of s S p : cq_inv s S → Z.of_nat p < S → removed s p.
Proof.
  intros I Hp. destruct (ci_lock _ _ I) as [(_ & -> & _)|(_ & u & y & Hy & Hsw & Hok & _)]; [by left|].
  destruct (cc_pc y) eqn:E; try done; simpl in Hok; first [left; lia|right; exists u, y; rw E; eexists; split_and!; [done..|lia] ].
Qed.

(** C33.  Threads that share a completion queue do not take each other's completions.
    While fewer than 2^32 - qs entries have been posted to a queue of 2 to 65536
    slots and an id is only taken when no entry at or after the head has it, in every
    interleaving of the accesses: (1) the slot a search returned is that of an entry
    the controller posted for this very call; (2) a call that leaves [cq_dequeue] has
    had its entry removed by a sweep: the head is past it, or the thread that sweeps
    is, which may not have moved the head yet (so that an id that is reused at once
    finds the old entry, [stale_completion] in FindingsParallel.v); the head is past
    it once no thread sweeps; (3) every entry the
    doorbell has given back was found and marked by its owner; (4) every entry not
    given back is in its slot, as it was posted, with the id of its call; (5) at most
    qs - 1 are not given back; (6) at most one thread sweeps. *)
Theorem completions_reach_owners log2 sq_log2 s :
  1 ≤ log2 ≤ 16 → rtc (cstep fresh) (cq_init log2 sq_log2) s → posted s + kqs s ≤ 2 ^ 32 →
  (∀ t x q, k_calls s !! t = Some x → cpos (cc_pc x) = Some q →
     ∃ p, k_posted s !! p = Some t ∧ q = Z.of_nat p mod kqs s) ∧
  (∀ t x, k_calls s !! t = Some x → crank (cc_pc x) = 3%nat →
     ∃ p, k_posted s !! p = Some t ∧ removed s p ∧ (k_head_lock s = UNLOCKED → Z.of_nat p < k_head s)) ∧
  (∀ p t x, entry_of s p t x → Z.of_nat p < k_released s → (2 ≤ crank (cc_pc x))%nat) ∧
  (∀ p t x, entry_of s p t x → k_released s ≤ Z.of_nat p →
     ∃ e, k_ring s !! Z.to_nat (Z.of_nat p mod kqs s) = Some e ∧ k_entries s !! p = Some e ∧
       ce_cid e = cc_cid x ∧ ce_phase e = phase_of (kqs s) (Z.of_nat p)) ∧
  (k_head s ≤ k_released s ≤ posted s ∧ posted s - k_released s ≤ kqs s - 1 ∧ k_db s = k_released s mod kqs s) ∧
  (∀ t u x y, k_calls s !! t = Some x → k_calls s !! u = Some y →
     sweeping (cc_pc x) = true → sweeping (cc_pc y) = true → t = u).
Proof.
  intros Hlog Hr Hb. destruct (cq_run_inv log2 sq_log2 s Hlog Hr Hb) as (S & I & Hf). destruct (ci_order _ _ I) as (O1 & O2 & O3).
  pose proof (ci_room _ _ I) as Hroom. destruct (cfits_qs s Hf) as [Hn _]. split_and!; try lia.
  - intros t x q Hx Hq. destruct (ci_found _ _ I t x Hx q Hq) as (p & Hp & Hqp & _). by exists p.
  - intros t x Hx H3. destruct (cpos (cc_pc x)) as [q|] eqn:Hq; [|by destruct (cc_pc x)].
    destruct (ci_found _ _ I t x Hx q Hq) as (p & Hp & _ & H). exists p. specialize (H H3).
    split; [done|]. split; [by eapply removed_of|]. intros Hl.
    destruct (ci_lock _ _ I) as [(_ & HS & _)|(Hl' & _)]; [lia|by rw Hl' in Hl].
  - intros p t x He Hp. eapply ci_swept; [exact I|done|lia].
  - intros p t x He Hp. destruct (ci_ring _ _ I) as (Hring & Hlen & Hes). destruct He as [He Hx].
    assert (is_Some (k_entries s !! p)) as [e Hep] by (apply lookup_lt_is_Some; apply lookup_lt_Some in He; lia).
    pose proof (ring_posted _ _ _ _ Hring p e Hep) as Hmem. rw -/(slot_of (kqs s) (Z.of_nat p)) Hmem; [|rw Hlen -/(posted s); lia].
    exists e. split_and!; [done|done|by eapply Hes|exact (ring_tag _ _ _ _ Hring p e Hep)].
  - exact (ci_db _ _ I).
  - intros t u x y Hx Hy Hsx Hsy. destruct (sweeper_of s S t x I Hx Hsx) as (_ & _ & Hu). symmetry. eauto.
Qed.

(** ** A thread left alone *)

Definition alone (t : nat) (s s' : cq) : Prop := ccall_step t s = Some s'.

Section alone.
Context (t : nat).

Lemma set_set s p p' : set_cpc t p' (set_cpc t p s) = set_cpc t p' s.
Proof.
  rw /set_cpc /=. f_equal. apply list_eq. intros i. destruct (decide (i = t)) as [->|]; [|by rw !list_lookup_alter_ne].
  rw !list_lookup_alter_eq. by destruct (k_calls s !! t).
Qed.
(** The search finds the entry. *)
Lemma alone_scan s S x p :
  cq_inv s S → cfits s → k_calls s !! t = Some x → cc_pc x = CPoll → k_posted s !! p = Some t →
  k_released s = k_head s → ce_status <$> k_entries s !! p = Some 0 → ∀ d i, Z.of_nat d = Z.of_nat p - k_head s - i → 0 ≤ i →
  bsteps (alone t) (d + 1) (set_cpc t (CScan (k_head s) i) s) (set_cpc t (CTail (Z.of_nat p mod kqs s)) s).
Proof.
  intros I Hf Hx Epc Hp Hrel Hst d. destruct (cfits_qs s Hf) as [Hn _]. destruct (ci_order _ _ I) as (O1 & O2 & O3).
  pose proof (ci_room _ _ I) as Hroom. destruct Hf as [Hlog Hfit].
  assert (Z.of_nat p < posted s) as Hpp by (apply lookup_lt_Some in Hp; rw /posted; lia).
  destruct (ci_ring _ _ I) as (Hring & Hlen & Hes). set (es := k_entries s) in *. pose proof (ci_search _ _ I t x Hx) as Hse. rw /search_ok Epc in Hse.
  induction d as [|d IH]; intros i Hd Hi.
  - destruct (ring_head ce_phase (kqs s) ltac:(lia) es (k_ring s) (k_head s + i) Hring) as (e & He & Hpe); [rw Hlen -/(posted s); lia|].
    rw Hlen -/(posted s) decide_True in Hpe; [|lia]. destruct Hpe as [Hpe Htag].
    assert (k_head s + i = Z.of_nat p) as Ek by lia. rw Ek Nat2Z.id in Hpe. pose proof (Hes p e t x Hpe (conj Hp Hx)) as Hcid.
    eapply bsteps_l; [|apply bsteps_refl]. rw /alone /ccall_step /set_cpc /= list_lookup_alter_eq Hx /=.
    rw (proj2 (Z.leb_gt _ _)); [|rw /kqs /=; rw /kqs in Hroom Hn; lia]. rw /cq_poll_entry u32_id; [|lia].
    change (kmask _ ?y) with (kmask s y). rw kmask_mod //. rw /slot_of in He. rw /= He /=. rw Hpe in Hst. injection Hst as Hst.
    change (search_phase _ ?y) with (search_phase s y). rw search_phase_of // -Htag Hcid Z.eqb_refl eqb_reflx /= Hst Ek. f_equal. apply set_set.
  - destruct (ring_head ce_phase (kqs s) ltac:(lia) es (k_ring s) (k_head s + i) Hring) as (e & He & Hpe); [rw Hlen -/(posted s); lia|].
    rw Hlen -/(posted s) decide_True in Hpe; [|lia]. destruct Hpe as [Hpe Htag].
    set (k := Z.to_nat (k_head s + i)) in *. assert (is_Some (k_posted s !! k)) as [u Hu] by (apply lookup_lt_is_Some; rw /posted in Hpp; lia).
    assert (u ≠ t) as Hne. { intros ->. pose proof (NoDup_lookup _ _ _ _ (ci_once _ _ I) Hp Hu). lia. }
    destruct (ci_calls _ _ I k u Hu) as [y Hy]. pose proof (Hes k e u y Hpe (conj Hu Hy)) as Hcid.
    assert (cc_cid y ≠ cc_cid x) as Hcy by (intros E; pose proof (Hse k u y (conj Hu Hy) Hne E); lia).
    eapply bsteps_l; [|apply (IH (i + 1)); lia]. rw /alone /ccall_step /set_cpc /= list_lookup_alter_eq Hx /=.
    rw (proj2 (Z.leb_gt _ _)); [|rw /kqs /=; rw /kqs in Hroom Hn; lia]. rw /cq_poll_entry u32_id; [|lia].
    change (kmask _ ?y) with (kmask s y). rw kmask_mod //. rw /slot_of in He. rw /= He /=.
    change (search_phase _ ?y) with (search_phase s y). rw search_phase_of // -Htag eqb_reflx Hcid (proj2 (Z.eqb_neq _ _) Hcy) /=. f_equal. apply set_set.
Qed.

(** One access of the call in a state given by where the call is. *)
Ltac access Hx := rw /alone /ccall_step {1}/set_cpc /= list_lookup_alter_eq Hx /=.

(** Marking the entry and taking the lock. *)
Lemma alone_mark s x q :
  k_calls s !! t = Some x → k_pos_locks s q = 0 → k_head_lock s = UNLOCKED →
  bsteps (alone t) 7 (set_cpc t (CTail q) s)
    (set_cpc t (CSweep q (k_head s) 0) (s<{k_tail := u32 (k_tail s + 1)}><{k_pos_locks := <[q := 1]> (k_pos_locks s)}>
       <{k_head_mark := <[q := LOCKED]> (k_head_mark s)}><{k_head_lock := LOCKED}>)).
Proof.
  intros Hx Hq Hl. set (s1 := s<{k_tail := u32 (k_tail s + 1)}>).
  set (s2 := s1<{k_pos_locks := <[q := 1]> (k_pos_locks s1)}>). set (s3 := s2<{k_head_mark := <[q := LOCKED]> (k_head_mark s2)}>).
  eapply (bsteps_l _ _ _ (set_cpc t (CPosWait q) s1)); [access Hx; f_equal; apply (set_set s1)|].
  eapply (bsteps_l _ _ _ (set_cpc t (CPosLock q) s1)); [access Hx; rw Hq /=; f_equal; apply (set_set s1)|].
  eapply (bsteps_l _ _ _ (set_cpc t (CMark q) s2)); [access Hx; rw Hq /=; f_equal; apply (set_set s2)|].
  eapply (bsteps_l _ _ _ (set_cpc t (CTest q) s3)); [access Hx; f_equal; apply (set_set s3)|].
  eapply (bsteps_l _ _ _ (set_cpc t (CLock q) s3)); [access Hx; rw fn_lookup_insert /=; f_equal; apply (set_set s3)|].
  eapply (bsteps_l _ _ _ (set_cpc t (CLoadHead q) (s3<{k_head_lock := LOCKED}>))); [access Hx; rw Hl; change (Z.lor UNLOCKED LOCKED) with LOCKED; f_equal; exact (set_set (s3<{k_head_lock := LOCKED}>) (CLock q) (CLoadHead q))|].
  eapply bsteps_l; [|apply bsteps_refl]. access Hx. f_equal. exact (set_set (s3<{k_head_lock := LOCKED}>) (CLoadHead q) (CSweep q (k_head s) 0)).
Qed.

(** The sweep ends behind the entry. *)
Lemma alone_sweep x q h p : ∀ (d : nat) s k,
  k_calls s !! t = Some x → cfits s → 0 ≤ k → k + Z.of_nat d = kqs s → h ≤ p < h + kqs s →
  (∀ j, h ≤ j < h + k → k_head_mark s (j mod kqs s) ≠ LOCKED) →
  (∀ j, h + k ≤ j ≤ p → k_head_mark s (j mod kqs s) = LOCKED) →
  ∃ k' m, bsteps (alone t) (d + 1) (set_cpc t (CSweep q h k) s) (set_cpc t (CSqEntry q h k') (s<{k_head_mark := m}>)) ∧
    p - h < k' ≤ kqs s ∧ m (p mod kqs s) ≠ LOCKED.
Proof.
  induction d as [|d IH]; intros s k Hx Hf Hk Hd Hp Hclear Hset; destruct (cfits_qs s Hf) as [Hn _].
  - set (m := <[(h + k) mod kqs s := UNLOCKED]> (k_head_mark s)). exists k, m. split_and!; [|lia..|].
    + eapply bsteps_l; [|apply bsteps_refl]. access Hx. change (kmask _ ?y) with (kmask s y). rw kmask_u32 //.
      assert (k_head_mark s ((h + k) mod kqs s) ≠ LOCKED) as Hm.
      { assert (k = kqs s) as -> by lia. rw -{1}(Z.mul_1_l (kqs s)) Z_mod_plus_full. apply Hclear. lia. }
      rw (proj2 (Z.eqb_neq _ _) Hm). f_equal. exact (set_set (s<{k_head_mark := m}>) (CSweep q h k) (CSqEntry q h k)).
    + destruct (decide ((h + k) mod kqs s = p mod kqs s)) as [E|Hne]; [rw /m E fn_lookup_insert //|rw /m fn_lookup_insert_ne //].
      apply Hclear. lia.
  - set (m := <[(h + k) mod kqs s := UNLOCKED]> (k_head_mark s)).
    assert (∀ j, k_head_mark s (j mod kqs s) ≠ LOCKED → m (j mod kqs s) ≠ LOCKED) as Hkeep.
    { intros j Hj. destruct (decide ((h + k) mod kqs s = j mod kqs s)) as [E|Hne]; [rw /m E fn_lookup_insert //|rw /m fn_lookup_insert_ne //]. }
    destruct (Z.eqb_spec (k_head_mark s ((h + k) mod kqs s)) LOCKED) as [Hm|Hm].
    + destruct (IH (s<{k_head_mark := m}>) (k + 1)) as (k' & m' & Hb & Hk' & Hm'); try done; [lia|change (kqs _) with (kqs s); lia|..].
      * intros j Hj. change (kqs _) with (kqs s). simpl. destruct (decide (j = h + k)) as [->|]; [rw /m fn_lookup_insert //|].
        apply Hkeep, Hclear. lia.
      * intros j Hj. change (kqs _) with (kqs s). simpl. rw /m fn_lookup_insert_ne; [apply Hset; lia|].
        intros E. pose proof (slot_gap (kqs s) (h + k) j ltac:(lia) E ltac:(lia)). lia.
      * exists k', m'. split_and!; [|lia|change (kqs _) with (kqs s) in Hk'; lia|done]. eapply bsteps_l; [|exact Hb].
        access Hx. change (kmask _ ?y) with (kmask s y). rw kmask_u32 // Hm /= u32_id; [|lia].
        f_equal. exact (set_set (s<{k_head_mark := m}>) (CSweep q h k) (CSweep q h (k + 1))).
    + exists k, m. split_and!; [|destruct (Z.le_gt_cases (h + k) p); [by destruct Hm; apply Hset; lia|lia]|lia|].
      * eapply (bsteps_weaken 1); [lia|]. eapply bsteps_l; [|apply bsteps_refl]. access Hx. change (kmask _ ?y) with (kmask s y).
        rw kmask_u32 // (proj2 (Z.eqb_neq _ _) Hm). f_equal. exact (set_set (s<{k_head_mark := m}>) (CSweep q h k) (CSqEntry q h k)).
      * apply Hkeep, Hclear. destruct (Z.le_gt_cases (h + k) p); [by destruct Hm; apply Hset; lia|lia].
Qed.

(** Moving the head of the submission queue. *)
Lemma ksmask_mod s y : 0 ≤ k_sq_qs_log2 s → ksmask s y = y mod ksqs s.
Proof. intros ?. rw /ksmask /ksqs Z.sub_1_r -Z.ones_equiv Z.land_ones //. Qed.
Lemma ksqs_range s : 0 ≤ k_sq_qs_log2 s ≤ 16 → 1 ≤ ksqs s ≤ 65536 ∧ (ksqs s | 2 ^ 32).
Proof.
  intros H. rw /ksqs. split.
  - split; [apply (Z.pow_le_mono_r 2 0); lia|apply (Z.pow_le_mono_r 2 _ 16); lia].
  - exists (2 ^ (32 - k_sq_qs_log2 s)). rw -Z.pow_add_r; [f_equal|..]; lia.
Qed.
Lemma dist_next n a b (d : nat) : 0 < n → (a - b) mod n = Z.of_nat (S d) → (a - (b + 1) mod n) mod n = Z.of_nat d.
Proof.
  intros Hn H. rw Zminus_mod_idemp_r. replace (a - (b + 1)) with (a - b - 1) by lia.
  rw -Zminus_mod_idemp_l H Z.mod_small; [lia|]. pose proof (Z.mod_pos_bound (a - b) n Hn). lia.
Qed.
Lemma alone_tickets x q h k nh : ∀ (d : nat) s loc mv,
  k_calls s !! t = Some x → 0 ≤ k_sq_qs_log2 s ≤ 16 → 0 ≤ loc < ksqs s → 0 ≤ nh < ksqs s →
  (nh - loc) mod ksqs s = Z.of_nat (S d) → 0 ≤ mv → mv + Z.of_nat (S d) < 2 ^ 32 →
  ∃ tk, bsteps (alone t) (S d) (set_cpc t (CSqTicket q h k nh loc mv) s)
    (set_cpc t (CSqMove q h k (mv + Z.of_nat (S d))) (s<{k_sq_tickets := tk}>)).
Proof.
  induction d as [|d IH]; intros s loc mv Hx Hlog Hloc Hnh Hd Hmv Hw; destruct (ksqs_range s Hlog) as [Hn _];
    set (tk := <[loc := u32 (k_sq_tickets s loc + 1)]> (k_sq_tickets s));
    pose proof (dist_next (ksqs s) nh loc _ ltac:(lia) Hd) as Hnext;
    pose proof (Z.mod_pos_bound (loc + 1) (ksqs s) ltac:(lia)) as Hl1.
  - exists tk. eapply bsteps_l; [|apply bsteps_refl]. access Hx. change (ksmask _ ?y) with (ksmask s y).
    rw u32_id; [|lia]. rw ksmask_mod; [|lia]. rw u32_id; [|lia].
    assert ((loc + 1) mod ksqs s = nh) as E.
    { destruct (Z.mod_divide (nh - (loc + 1) mod ksqs s) (ksqs s) ltac:(lia)) as [Hdv _].
      destruct (Hdv Hnext) as [c Hc]. assert (c = 0) by nia. lia. }
    rw /sq_ticket_pc E Z.eqb_refl. f_equal.
    exact (set_set (s<{k_sq_tickets := tk}>) (CSqTicket q h k nh loc mv) (CSqMove q h k (mv + 1))).
  - destruct (IH (s<{k_sq_tickets := tk}>) ((loc + 1) mod ksqs s) (mv + 1)) as [tk' Hb]; try done; try lia.
    exists tk'. replace (mv + Z.of_nat (S (S d))) with (mv + 1 + Z.of_nat (S d)) by lia.
    eapply bsteps_l; [|exact Hb]. access Hx. change (ksmask _ ?y) with (ksmask s y).
    rw u32_id; [|lia]. rw ksmask_mod; [|lia]. rw u32_id; [|lia].
    assert ((loc + 1) mod ksqs s ≠ nh) as E by (intros E; rw E Z.sub_diag Zmod_0_l in Hnext; lia).
    rw /sq_ticket_pc (proj2 (Z.eqb_neq _ _) E). f_equal.
    exact (set_set (s<{k_sq_tickets := tk}>) (CSqTicket q h k nh loc mv) (CSqTicket q h k nh ((loc + 1) mod ksqs s) (mv + 1))).
Qed.
Lemma alone_sq s x q h k e :
  k_calls s !! t = Some x → cfits s → 0 ≤ k_sq_qs_log2 s ≤ 16 → 0 < k →
  k_ring s !! Z.to_nat ((h + (k - 1)) mod kqs s) = Some e → 0 ≤ ce_sq_head e < ksqs s →
  ∃ tk hd, bsteps (alone t) (Z.to_nat (ksqs s) + 2) (set_cpc t (CSqEntry q h k) s)
      (set_cpc t (CDoorbell q h k) (s<{k_sq_tickets := tk}><{k_sq_head := hd}>)) ∧ ksmask s hd = ce_sq_head e.
Proof.
  intros Hx Hf Hlog Hk He Hh. destruct (ksqs_range s Hlog) as [Hn Hdiv]. set (nh := ce_sq_head e) in *.
  assert (bsteps (alone t) 1 (set_cpc t (CSqEntry q h k) s) (set_cpc t (CSqLoad q h k nh) s)) as H1.
  { eapply bsteps_l; [|apply bsteps_refl]. access Hx. rw /c_true (proj2 (Z.eqb_neq k 0)) /=; [|lia].
    change (kmask _ ?y) with (kmask s y). rw kmask_u32 // He /=. rw -/nh (_ : u16 nh = nh); [|apply Z.mod_small; lia].
    f_equal. apply set_set. }
  set (loc := k_sq_head s mod ksqs s). pose proof (Z.mod_pos_bound (k_sq_head s) (ksqs s) ltac:(lia)) as Hloc.
  destruct (Z.eqb_spec loc nh) as [E|E].
  - exists (k_sq_tickets s), (k_sq_head s). split; [|rw ksmask_mod //; lia].
    replace (s<{k_sq_tickets := k_sq_tickets s}><{k_sq_head := k_sq_head s}>) with s by (by destruct s).
    eapply (bsteps_weaken (1 + 1)); [lia|]. eapply bsteps_trans; [exact H1|]. eapply bsteps_l; [|apply bsteps_refl].
    access Hx. change (ksmask _ ?y) with (ksmask s y). rw ksmask_mod; [|lia]. rw -/loc E Z.eqb_refl. f_equal. apply set_set.
  - destruct (Z.to_nat ((nh - loc) mod ksqs s)) as [|d] eqn:Ed.
    { pose proof (Z.mod_pos_bound (nh - loc) (ksqs s) ltac:(lia)). destruct E.
      destruct (Z.mod_divide (nh - loc) (ksqs s) ltac:(lia)) as [Hdv _]. destruct Hdv as [c Hc]; [lia|]. assert (c = 0) by nia. lia. }
    pose proof (Z.mod_pos_bound (nh - loc) (ksqs s) ltac:(lia)) as Hm.
    destruct (alone_tickets x q h k nh d s loc 0) as [tk Hb]; try done; try lia. rw Z.add_0_l in Hb.
    exists tk, (u32 (k_sq_head s + Z.of_nat (S d))). split.
    + eapply (bsteps_weaken (1 + (1 + (S d + 1)))); [lia|]. eapply bsteps_trans; [exact H1|].
      eapply bsteps_trans; [|eapply bsteps_trans; [exact Hb|] ]; (eapply bsteps_l; [|apply bsteps_refl]).
      * access Hx. change (ksmask _ ?y) with (ksmask s y). rw ksmask_mod; [|lia]. rw -/loc (proj2 (Z.eqb_neq _ _) E) /=.
        f_equal. apply set_set.
      * access Hx. f_equal.
        exact (set_set (s<{k_sq_tickets := tk}><{k_sq_head := u32 (k_sq_head s + Z.of_nat (S d))}>) (CSqMove q h k (Z.of_nat (S d))) (CDoorbell q h k)).
    + rw ksmask_mod; [|lia]. rw /u32 Z.mod_mod_divide //. rw -Ed Z2Nat.id; [|lia].
      rw -(Zplus_mod_idemp_l (k_sq_head s)) Zplus_mod_idemp_r. rw -/loc.
      replace (loc + (nh - loc)) with nh by lia. apply Z.mod_small. lia.
Qed.

(** Giving the entry back and leaving. *)
Lemma alone_leave s x q h k :
  k_calls s !! t = Some x → cfits s → 0 ≤ h → 0 < k → h + k < 2 ^ 32 → k_head_mark s q ≠ LOCKED →
  ∃ s', bsteps (alone t) 7 (set_cpc t (CDoorbell q h k) s) (set_cpc t (CDone q) s') ∧ k_calls s' = k_calls s ∧
    k_head s' = h + k ∧ k_db s' = (h + k) mod kqs s ∧ k_head_lock s' = UNLOCKED ∧ k_cid s' (cc_cid x) = UNLOCKED ∧ k_pos_locks s' q = 0 ∧
    k_sq_head s' = k_sq_head s ∧ k_sq_qs_log2 s' = k_sq_qs_log2 s.
Proof.
  intros Hx Hf Hh Hk Hw Hm. set (s1 := s<{k_db := (h + k) mod kqs s}><{k_released := h + k}>). set (s2 := s1<{k_head := h + k}>).
  set (s3 := s2<{k_head_lock := UNLOCKED}>). set (s4 := s3<{k_pos_locks := <[q := 0]> (k_pos_locks s3)}>).
  exists (put_cid (cc_cid x) s4). split; [|rw /put_cid /= !fn_lookup_insert //].
  eapply (bsteps_l _ _ _ (set_cpc t (CStoreHead q h k) s1)).
  { access Hx. change (kmask _ ?y) with (kmask s y). rw kmask_u32 // u32_id; [|lia]. f_equal.
    exact (set_set s1 (CDoorbell q h k) (CStoreHead q h k)). }
  eapply (bsteps_l _ _ _ (set_cpc t (CUnlock q) s2)).
  { access Hx. rw u32_id; [|lia]. f_equal. exact (set_set s2 (CStoreHead q h k) (CUnlock q)). }
  eapply (bsteps_l _ _ _ (set_cpc t (CTest q) s3)).
  { access Hx. f_equal. exact (set_set s3 (CUnlock q) (CTest q)). }
  eapply (bsteps_l _ _ _ (set_cpc t (CExit q) s3)).
  { access Hx. rw (proj2 (Z.eqb_neq _ _) Hm). f_equal. exact (set_set s3 (CTest q) (CExit q)). }
  eapply (bsteps_l _ _ _ (set_cpc t (CPosUnlock q) s3)).
  { access Hx. rw (proj2 (Z.ltb_lt 0 (h + k))); [|lia]. f_equal. exact (set_set s3 (CExit q) (CPosUnlock q)). }
  eapply (bsteps_l _ _ _ (set_cpc t (CPut q) s4)).
  { access Hx. f_equal. exact (set_set s4 (CPosUnlock q) (CPut q)). }
  eapply bsteps_l; [|apply bsteps_refl]. access Hx. f_equal. exact (set_set (put_cid (cc_cid x) s4) (CPut q) (CDone q)).
Qed.
End alone.

(** C31.  A thread that starts to search for a completion that was posted with status
    0, while no thread sweeps, its slot is not held and the entries before its own were
    marked by their owners, returns after at most 2 qs + sq_qs + 17 accesses of its
    own (on queues of at most 65536 slots, before counters wrap around, with ids taken
    as in C33): it finds its
    entry, gives it back to the controller with all before it, moves the head of the
    submission queue to where the last of them says, and gives back the
    lock, the slot and its id. *)
Theorem dequeue_returns log2 sq_log2 s t x p :
  1 ≤ log2 ≤ 16 → 0 ≤ sq_log2 ≤ 16 → rtc (cstep fresh) (cq_init log2 sq_log2) s → posted s + kqs s ≤ 2 ^ 32 →
  k_calls s !! t = Some x → cc_pc x = CPoll → k_posted s !! p = Some t → ce_status <$> k_entries s !! p = Some 0 →
  k_head_lock s = UNLOCKED → k_pos_locks s (Z.of_nat p mod kqs s) = 0 →
  (∀ i u y, entry_of s i u y → k_head s ≤ Z.of_nat i < Z.of_nat p → (2 ≤ crank (cc_pc y))%nat) →
  ∃ s', bsteps (alone t) (2 * Z.to_nat (kqs s) + Z.to_nat (ksqs s) + 17) s s' ∧
    k_calls s' !! t = Some (CCall (cc_cid x) (CDone (Z.of_nat p mod kqs s))) ∧
    Z.of_nat p < k_head s' ∧ k_db s' = k_head s' mod kqs s ∧
    (∃ e, k_ring s !! Z.to_nat ((k_head s' - 1) mod kqs s) = Some e ∧ ksmask s' (k_sq_head s') = ce_sq_head e) ∧
    k_head_lock s' = UNLOCKED ∧ k_pos_locks s' (Z.of_nat p mod kqs s) = 0 ∧ k_cid s' (cc_cid x) = UNLOCKED.
Proof.
  intros Hlog Hsq Hr Hb Hx Epc Hp Hst Hl Hpl Hmk. destruct (cq_run_inv log2 sq_log2 s Hlog Hr Hb) as (S & I & Hf).
  destruct (cq_run_heads _ _ _ _ (proj1 Hsq) Hr) as [Esq Hheads]. rw -Esq in Hsq.
  destruct (cfits_qs s Hf) as [Hn _]. destruct (ci_order _ _ I) as (O1 & O2 & O3). pose proof (ci_room _ _ I) as Hroom.
  destruct (ci_lock _ _ I) as [(_ & HS & Hrel & _)|(Hl' & _)]; [|by rw Hl' in Hl].
  assert (Z.of_nat p < posted s) as Hpp by (apply lookup_lt_Some in Hp; rw /posted; lia).
  assert (k_head s ≤ Z.of_nat p) as Hhp.
  { destruct (Z.le_gt_cases (k_head s) (Z.of_nat p)) as [|Hlt]; [done|]. rw -HS in Hlt.
    pose proof (ci_swept _ _ I p t x (conj Hp Hx) Hlt) as H2. rw Epc in H2. simpl in H2. lia. }
  set (q := Z.of_nat p mod kqs s) in *. set (h := k_head s) in *.
  set (s1 := s<{k_tail := u32 (k_tail s + 1)}><{k_pos_locks := <[q := 1]> (k_pos_locks s)}>
    <{k_head_mark := <[q := LOCKED]> (k_head_mark s)}><{k_head_lock := LOCKED}>).
  destruct (alone_sweep t x q h (Z.of_nat p) (Z.to_nat (kqs s)) s1 0) as (k & m & Hb3 & Hk & Hm); try done; try (change (kqs s1) with (kqs s); lia).
  { intros j Hj. change (kqs s1) with (kqs s). simpl. destruct (decide (q = j mod kqs s)) as [->|Hne]; [rw fn_lookup_insert //|].
    rw fn_lookup_insert_ne //. apply (ci_mark _ _ I); [apply Z.mod_pos_bound; lia|].
    assert (is_Some (k_posted s !! Z.to_nat j)) as [u Hu] by (apply lookup_lt_is_Some; rw /posted in Hpp; lia).
    destruct (ci_calls _ _ I _ u Hu) as [y Hy]. exists (Z.to_nat j), u, y. rw !Z2Nat.id; [|lia].
    assert (j ≠ Z.of_nat p) by (by intros ->). split_and!; try done; [lia|]. apply (Hmk (Z.to_nat j) u y); [done|lia]. }
  change (kqs s1) with (kqs s) in Hk, Hm.
  assert (is_Some (k_ring s !! Z.to_nat ((h + (k - 1)) mod kqs s))) as [e He].
  { apply lookup_lt_is_Some. pose proof (ring_length _ _ _ _ (proj1 (ci_ring _ _ I))) as Hlen.
    pose proof (Z.mod_pos_bound (h + (k - 1)) (kqs s) ltac:(lia)). lia. }
  destruct (alone_sq t (s1<{k_head_mark := m}>) x q h k e) as (tk & hd & Hb5 & Ehd); try done; [lia|exact (Forall_lookup_1 _ _ _ _ Hheads He)|].
  destruct (alone_leave t (s1<{k_head_mark := m}><{k_sq_tickets := tk}><{k_sq_head := hd}>) x q h k)
    as (s' & Hb4 & E1 & E2 & E3 & E4 & E5 & E6 & E7 & E8); try done; try lia.
  exists (set_cpc t (CDone q) s'). split_and!; try done.
  - eapply (bsteps_weaken (1 + ((Z.to_nat (Z.of_nat p - h) + 1) + (7 + ((Z.to_nat (kqs s) + 1) + ((Z.to_nat (ksqs s) + 2) + 7)))))); [lia|].
    eapply bsteps_l; [rw /alone /ccall_step Hx /= Epc; reflexivity|].
    eapply bsteps_trans; [eapply (alone_scan t s S x p); try done; lia|].
    eapply bsteps_trans; [by apply (alone_mark t s x q)|]. eapply bsteps_trans; [exact Hb3|]. by eapply bsteps_trans.
  - rw /set_cpc /= list_lookup_alter_eq E1 /= Hx //.
  - rw /= E2. lia.
  - rw /= E3 E2 //.
  - exists e. rw /= E2. replace (h + k - 1) with (h + (k - 1)) by lia. split; [done|]. rw E7. rw -Ehd /ksmask /ksqs /= E8 //.
Qed.

Module cq_witness.
(** Runs of the queue. *)
Inductive action := AGet (id : Z) | ACall (t : nat) | APost (t : nat) (sq_head status : Z).
Definition freshb (s : cq) (id : Z) : bool :=
  forallb (λ t, match k_calls s !! t with Some y => negb (cc_cid y =? id) | None => true end)
    (drop (Z.to_nat (k_head s)) (k_posted s)).
Lemma freshb_fresh s id : 0 ≤ k_head s → freshb s id = true → fresh s id.
Proof.
  rw /freshb forallb_forall. intros Hh H p u y Hp [Hu Hy]. specialize (H u). rw Hy in H.
  apply Z.eqb_neq, negb_true_iff, H, list_elem_of_In, list_elem_of_lookup. exists (p - Z.to_nat (k_head s))%nat.
  rw lookup_drop -Hu. f_equal. lia.
Qed.
Definition act (a : action) (s : cq) : option cq :=
  match a with
  | AGet id => if (0 <=? k_head s) && freshb s id then get_cid id s else None
  | ACall t => ccall_step t s
  | APost t hd st => if (0 <=? hd) && (hd <? ksqs s) then cpost t hd st s else None
  end.
Fixpoint run (l : list action) (s : cq) : option cq :=
  match l with [] => Some s | a :: l => s ← act a s; run l s end.
Lemma cq_run_steps l : ∀ s s', run l s = Some s' → rtc (cstep fresh) s s'.
Proof.
  induction l as [|a l IH]; intros s s'; simpl; [by intros [= ->]|]. destruct (act a s) as [s1|] eqn:Ea; [|done]. simpl.
  intros Hr. eapply rtc_l; [|by apply IH]. destruct a; simpl in Ea; [|by eapply cstep_call|];
    (destruct (_ && _) eqn:Eb; [|done]); apply andb_true_iff in Eb as [H1 H2].
  - eapply cstep_get; [|done]. apply freshb_fresh; [by apply Z.leb_le|done].
  - eapply cstep_post; [|done]. split; [by apply Z.leb_le|by apply Z.ltb_lt].
Qed.

(** Two calls on four slots: the second is completed first; the first sweeps both
    entries, moves the head of the submission queue by two and returns. *)
Definition early : list action := [AGet 7; AGet 8; APost 1 2 0; APost 0 2 0] ++ replicate 6 (ACall 1).
Definition trace : list action := early ++ replicate 25 (ACall 0) ++ [ACall 1].
Definition final : cq := default (cq_init 2 3) (run trace (cq_init 2 3)).

Lemma completions_reach_owners_w :
  rtc (cstep fresh) (cq_init 2 3) final ∧ k_head final = 2 ∧ k_sq_head final = 2 ∧
  (cc_pc <$> k_calls final) = [CDone 1; CExit 0] ∧
  ∃ p, k_posted final !! p = Some 0%nat ∧ removed final p ∧ (k_head_lock final = UNLOCKED → Z.of_nat p < k_head final).
Proof.
  assert (rtc (cstep fresh) (cq_init 2 3) final) as Hr by (apply (cq_run_steps trace); vm_compute; reflexivity).
  split; [exact Hr|]. do 3 (split; [vm_compute; reflexivity|]).
  refine (proj1 (proj2 (completions_reach_owners 2 3 final _ Hr _)) 0%nat (CCall 7 (CDone 1)) _ _);
    [lia|vm_compute; discriminate|vm_compute; reflexivity|reflexivity].
Defined.

(** Before the first call searches. *)
Definition ready : cq := default (cq_init 2 3) (run early (cq_init 2 3)).
Lemma dequeue_returns_w :
  ∃ s', bsteps (alone 0) (2 * Z.to_nat (kqs ready) + Z.to_nat (ksqs ready) + 17) ready s' ∧ 1 < k_head s'.
Proof.
  assert (rtc (cstep fresh) (cq_init 2 3) ready) as Hr by (apply (cq_run_steps early); vm_compute; reflexivity).
  refine ((λ '(ex_intro _ s' (conj H1 (conj _ (conj H2 _)))), ex_intro _ s' (conj H1 H2))
    (dequeue_returns 2 3 ready 0%nat (CCall 7 CPoll) 1%nat _ _ Hr _ _ _ _ _ _ _ _));
    [lia|lia|vm_compute; discriminate|vm_compute; reflexivity|reflexivity|vm_compute; reflexivity..|].
  intros i u y [Hi Hy] [_ Hlt]. assert (i = 0%nat) as -> by lia.
  change (Some 1%nat = Some u) in Hi. injection Hi as <-. vm_compute in Hy. injection Hy as <-. simpl. lia.
Defined.
End cq_witness.
