(* ===== verification/SpecNamespace.v ===== *)
(** * Theorems about namespaces

    The store of namespaces and heads stays consistent under every sequence of
    operations, scanning converges to what a controller has, its descriptor lists are
    read exactly, and the block devices have the geometry of the format in use. *)
From Stdlib Require Import Sorted.
From S2P Require Import Prelude Lifecycle ReqSetup ReqLife NsIdent NsDisk Namespace NsInv NsOps NsAlloc NsScan NsSteady.

(** ** Sequences of operations *)

(** [OpState] is what resets and events do to a controller, [OpJoin] a controller
    that joins the subsystem. *)
Inductive ns_op :=
  | OpScan (fuel : nat) (c : positive)
  | OpRemove (c : positive)
  | OpKill (c : positive)
  | OpOpen (p : positive)
  | OpRelease (p : positive)
  | OpState (c : positive) (ctl : nvme_ctrl) (tagset changed : bool)
  | OpJoin (c : positive) (C : nctrl).

Definition ns_run {E : ns_env} (op : ns_op) : K nst unit :=
  match op with
  | OpScan fuel c => _ ← nvme_scan_work fuel c; mret tt
  | OpRemove c => snvme_remove_namespaces c
  | OpKill c => snvme_kill_queues c
  | OpOpen p => _ ← nvme_ns_open p; mret tt
  | OpRelease p => nvme_ns_release p
  | OpState c ctl tagset changed => C ← ctrl_at c; set_ctrl c C<{c_ctl := ctl}><{c_tagset := tagset}><{c_ns_changed := changed}>
  | OpJoin c C => set_ctrl c C
  end.

(** A namespace can be opened while its disk exists, and closed when it is open. *)
Definition ns_enabled (s : nst) (op : ns_op) : Prop :=
  match op with
  | OpScan _ c | OpRemove c | OpKill c | OpState c _ _ _ => is_Some (n_ctrls s !! c)
  | OpOpen p => ∃ N, n_ns s !! p = Some N ∧ ns_removing N = false
  | OpRelease p => p ∈ n_opens s
  | OpJoin c C => n_ctrls s !! c = None ∧ c_namespaces C = [] ∧ c_refs C = 1
  end.

Definition ns_step {E : ns_env} (s s' : nst) : Prop := ∃ op, ns_enabled s op ∧ ns_run op s = Some (tt, s').

(** A subsystem without controllers. *)
Definition ns_start (t : nat) : nst := Nst ∅ ∅ [] ∅ 1 ∅ [] [] 1 t.

Lemma ns_start_inv t : ns_inv [] (ns_start t).
Proof.
  split; simpl; try (intros; by rw lookup_empty in *); try done.
  - intros p ?%elem_of_nil. done.
  - intros h. split; [by intros ?%elem_of_nil|]. intros (H & HH & _). by rw lookup_empty in HH.
  - constructor.
  - intros p ?%elem_of_nil. done.
  - intros i. split; [set_solver|]. intros (h & H & HH & _). by rw lookup_empty in HH.
  - intros p [[? Hx]|[? Hx]]; by rw lookup_empty in Hx.
Qed.

Section reach.
Context {E : ns_env} {L : ns_env_laws E}.

Lemma wp_ns_run s op : ns_inv [] s → n_rm s = [] → ns_enabled s op → wp (ns_run op) (λ _ s', ns_inv [] s' ∧ n_rm s' = []) s.
Proof.
  intros I Hrm. destruct op as [fuel c|c|c|p|p|c ctl tag ch|c C]; simpl.
  - intros [C HC]. apply wp_bind. eapply wp_mono; [by eapply wp_scan_work|]. intros ? s' (I' & R' & _). by apply wp_ret.
  - intros [C HC]. eapply wp_mono; [by eapply wp_remove_namespaces|]. intros ? s' (I' & R' & _). done.
  - intros [C HC]. eapply wp_mono; [by eapply wp_kill_queues|]. intros ? s' (I' & _ & R' & _). by rw R' Hrm.
  - intros (N & HN & _). apply wp_bind. eapply wp_mono; [by eapply wp_ns_open|]. intros ? s' (I' & R' & _). apply wp_ret. by rw R' Hrm.
  - intros Hp. eapply wp_mono; [by eapply wp_ns_release|]. intros ? s' (I' & R' & _). by rw R' Hrm.
  - intros [C HC]. apply wp_bind, (wp_ctrl_at _ C); [done|]. apply wp_modify. split; [|done].
    by eapply (inv_set_ctrl [] s I _ c C (C<{c_ctl := ctl}><{c_tagset := tag}><{c_ns_changed := ch}>)).
  - intros (Hnone & Hl & Hr). apply wp_modify. split; [|done]. set (s' := upd _ _ _).
    assert (n_ctrls s' = <[c := C]> (n_ctrls s)) as Ec by done.
    assert (∀ d D, n_ctrls s' !! d = Some D → d = c ∧ D = C ∨ d ≠ c ∧ n_ctrls s !! d = Some D) as Hct.
    { intros d D. rw Ec. destruct (decide (d = c)) as [->|Hne]; [rw lookup_insert_eq; intros [= <-]; by left|].
      rw lookup_insert_ne //. by right. }
    destruct I as [I1 I2 I3 I4 I5 I6 I7 I8 I9 I10 I11 I12 I13 I14 I15 I16 I17]. split; try done.
    + intros p N HN. destruct (I1 p N HN) as (D & HD & Hiff). exists D. split; [|done]. rw Ec lookup_insert_ne //. congruence.
    + intros d D p [[-> ->]|[_ HD]]%Hct; [rw Hl; by intros ?%elem_of_nil|eauto].
    + intros d D [[-> ->]|[_ HD]]%Hct; [rw Hl; constructor|by eapply I4].
    + intros d D [[-> ->]|[_ HD]]%Hct; [|eauto]. rw Hr. assert (cnt (λ N, Pos.eqb (ns_ctrl N) c) (n_ns s') = 0) as ->; [|done].
      rw /cnt. apply (f_equal Z.of_nat (y := 0%nat)). apply map_size_empty_iff, map_empty. intros p. apply map_lookup_filter_None.
      right. intros N HN Heq%Pos.eqb_eq. simpl in Heq. destruct (I1 p N HN) as (D & HD & _). congruence.
Qed.

Lemma ns_reach_inv t s : rtc ns_step (ns_start t) s → ns_inv [] s ∧ n_rm s = [].
Proof.
  intros Hr. remember (ns_start t) as s0 eqn:Hs0. assert (ns_inv [] s0 ∧ n_rm s0 = []) as H0 by (subst; split; [apply ns_start_inv|done]).
  clear Hs0. induction Hr as [|s0 s1 s2 (op & Hen & Hrun) _ IH]; [done|]. apply IH. destruct H0 as [I R].
  exact (run_wp _ _ _ _ _ Hrun (wp_ns_run s0 op I R Hen)).
Qed.

(** Without namespaces on a list or open nothing is left. *)
Lemma nothing_left s : ns_inv [] s → n_rm s = [] → (∀ c, listed s c = []) → n_opens s = [] →
  n_ns s = ∅ ∧ n_heads s = ∅ ∧ n_ida s = ∅ ∧ n_subsys_refs s = 1.
Proof.
  intros I Hrm Hl Ho. assert (n_ns s = ∅) as Em.
  { apply map_empty. intros p. destruct (n_ns s !! p) as [N|] eqn:HN; [exfalso|done].
    destruct (i_kref _ _ I p N HN) as [Hk Hpos]. rw Ho /lcount /= in Hk. destruct (ns_removing N) eqn:Hr; simpl in Hk; [lia|].
    destruct (i_ctrl _ _ I p N HN) as (C & HC & Hiff). destruct (proj1 Hiff Hr) as [Hin|Hin].
    - specialize (Hl (ns_ctrl N)). rw (listed_some _ _ C HC) in Hl. rw Hl in Hin. by apply elem_of_nil in Hin.
    - rw Hrm in Hin. by apply elem_of_nil in Hin. }
  assert (n_heads s = ∅) as Eh.
  { apply map_empty. intros h. destruct (n_heads s !! h) as [H|] eqn:HH; [exfalso|done].
    destruct (i_href _ _ I h H HH) as [Hr Hpos]. rw Em /cnt map_filter_empty map_size_empty in Hr. simpl in Hr. lia. }
  split; [done|]. split; [done|]. split.
  - apply leibniz_equiv. intros i. rw (i_ida _ _ I) Eh. split; [|set_solver]. intros (h & H & HH & _). by rw lookup_empty in HH.
  - by rw (i_srefs _ _ I) Eh map_size_empty.
Qed.
End reach.

(** C20.  In every sequence of scans, removals, kills, opens and closes on the
    controllers of a subsystem, whichever allocations and registrations of the block
    layer fail and whatever a controller answers within [ns_env_laws], no operation
    uses a namespace or a head after it was freed; the lists are ordered by number,
    every reference is counted, and when nothing is listed or open any more all
    namespaces, heads, instance numbers and references are given back.
    [ns_env_laws] excludes what FindingsNamespace.v shows to break this: a character
    device of a head that cannot be added, a format in use with blocks below 512
    bytes or above 1 GiB, an append limit whose
    logarithm is above 27, and a page of
    descriptors that does not hold well-formed ones padded with zeros (not with a
    single one).  A call that returns an allocated number returns an unused one,
    and errors have a status code or a negative errno. *)
Theorem namespaces_safe {E : ns_env} {L : ns_env_laws E} t s :
  rtc ns_step (ns_start t) s →
  ns_inv [] s ∧
  (∀ c C, n_ctrls s !! c = Some C → StronglySorted Z.lt (nsid_of s <$> c_namespaces C)) ∧
  (∀ op, ns_enabled s op → ∃ s', ns_run op s = Some (tt, s') ∧ rtc ns_step (ns_start t) s') ∧
  ((∀ c, listed s c = []) → n_opens s = [] → n_ns s = ∅ ∧ n_heads s = ∅ ∧ n_ida s = ∅ ∧ n_subsys_refs s = 1).
Proof.
  intros Hr. destruct (ns_reach_inv t s Hr) as [I R]. split; [done|]. split; [intros c C; apply (i_sorted _ _ I)|]. split.
  - intros op Hen. destruct (wp_run _ _ _ (wp_ns_run s op I R Hen)) as ([] & s' & Hrun & _). exists s'. split; [done|].
    eapply rtc_r; [exact Hr|]. by exists op.
  - by apply nothing_left.
Qed.

(** ** Convergence *)

Lemma sorted_ext (l1 l2 : list (Z * (nvme_ns_ids * bool))) :
  StronglySorted Z.lt (l1.*1) → StronglySorted Z.lt (l2.*1) → (∀ e, e ∈ l1 ↔ e ∈ l2) → l1 = l2.
Proof.
  revert l2. induction l1 as [|x l1 IH]; intros [|y l2] H1 H2 Hin; [done| | |].
  - exfalso. apply (not_elem_of_nil y). apply Hin, elem_of_cons. by left.
  - exfalso. apply (not_elem_of_nil x). apply Hin, elem_of_cons. by left.
  - rw !fmap_cons in H1 H2. apply StronglySorted_inv in H1 as [H1 Hx], H2 as [H2 Hy]. rw !Forall_fmap !list.Forall_forall in Hx Hy.
    assert (x = y) as ->.
    { assert (x ∈ y :: l2) as Hxl by (apply Hin, elem_of_cons; by left).
      assert (y ∈ x :: l1) as Hyl by (apply Hin, elem_of_cons; by left).
      apply elem_of_cons in Hxl as [|Hxl]; [done|]. apply elem_of_cons in Hyl as [|Hyl]; [done|].
      specialize (Hx y Hyl). specialize (Hy x Hxl). simpl in Hx, Hy. lia. }
    f_equal. apply IH; [done..|]. intros e. specialize (Hin e). rw !elem_of_cons in Hin.
    assert (∀ l : list (Z * (nvme_ns_ids * bool)), (∀ z, z ∈ l → (Z.lt y.1 ∘ fst) z) → e ∈ l → e ≠ y) as Hne.
    { intros l Hl He ->. specialize (Hl y He). simpl in Hl. lia. }
    split; intros He; [destruct (proj1 Hin (or_intror He)) as [Hey|]; [by destruct (Hne l1 Hx He)|done]|].
    destruct (proj2 Hin (or_intror He)) as [Hey|]; [by destruct (Hne l2 Hy He)|done].
Qed.

(** C21.  Let a live controller, alone in its subsystem, support the list of active
    namespaces and answer steadily ([conforming]: the same list, in order and without
    0 or the broadcast number, the same well-formed identification of each namespace,
    no two namespaces with equal identifiers), let every allocation succeed, and let
    [ns_env_laws] hold as in C20.  Then scanning it ends within the pages its list
    takes; one scan leaves nothing listed that is not active and rightly identified,
    whatever was listed before, and after a second one the list is exactly the active
    namespaces in their order. *)
Theorem scan_converges {E : ns_env} {L : ns_env_laws E} c C active D fuel s :
  conforming c (c_info C) (c_multi_css C) active D →
  ns_inv [] s → n_rm s = [] → n_ctrls s !! c = Some C → (∀ d, is_Some (n_ctrls s !! d) → d = c) →
  ct_state (c_ctl C) = NVME_CTRL_LIVE → c_tagset C = true → (∀ e, e ∈ view s c → 0 < e.1) →
  (length active < NR_ENTRIES * fuel)%nat →
  ∃ s1 s2, nvme_scan_work fuel c s = Some (true, s1) ∧
    (∀ e, e ∈ view s1 c → e.1 ∈ active ∧ e = (e.1, (D e.1, false))) ∧
    nvme_scan_work fuel c s1 = Some (true, s2) ∧
    view s2 c = (λ n, (n, (D n, false))) <$> active.
Proof.
  intros Conf I R HC Hone Hlive Htag Hpos Hlen.
  destruct (wp_run _ _ _ (wp_scan_work_steady c _ _ active D Conf [] fuel s C I R HC eq_refl eq_refl Hlive Htag Hlen))
    as (b1 & s1 & Hrun1 & -> & (I1 & R1 & F1) & Hright & _).
  assert (∀ e, e ∈ view s1 c → right active D e) as Hr1.
  { apply Hright. intros e He Hle. specialize (Hpos e He). lia. }
  destruct (frame_ctrl _ _ _ _ F1 HC) as (C1 & HC1 & Hst). rw /static in Hst. injection Hst as Hlive1 Htag1 Hcss1 Hinfo1.
  destruct (wp_run _ _ _ (wp_scan_work_steady c _ _ active D Conf [] fuel s1 C1 I1 R1 HC1 Hinfo1 Hcss1
    ltac:(congruence) ltac:(congruence) Hlen)) as (b2 & s2 & Hrun2 & -> & (I2 & _) & _ & Hfull).
  exists s1, s2. split; [done|]. split; [exact Hr1|]. split; [done|].
  assert (∀ e, e ∈ view s2 c ↔ right active D e) as Hall.
  { apply Hfull; [by eapply single_frame|]. split; [done|]. intros n Hn Hle.
    pose proof (cf_range _ _ _ _ _ Conf n Hn). lia. }
  apply sorted_ext; [by eapply view_sorted| |].
  - rw -list_fmap_compose. rw (list_fmap_ext _ id); [rw list_fmap_id; apply (cf_sorted _ _ _ _ _ Conf)|done].
  - intros e. rw Hall list_elem_of_fmap. rw /right /ent. split; [intros [Hin Heq]; by exists e.1|]. intros (n & -> & Hn). done.
Qed.

(** ** Descriptor lists *)

Definition sel_eui64 (d : ns_desc) : option (list Z) := match d with DEui64 v => Some v | _ => None end.
Definition sel_nguid (d : ns_desc) : option (list Z) := match d with DNguid v => Some v | _ => None end.
Definition sel_uuid (d : ns_desc) : option (list Z) := match d with DUuid v => Some v | _ => None end.
Definition sel_csi (d : ns_desc) : option Z := match d with DCsi v => Some v | _ => None end.
Definition is_csi (d : ns_desc) : bool := match d with DCsi _ => true | _ => false end.
(** The last descriptor of a kind counts. *)
Definition last_of {A} (sel : ns_desc → option A) (ds : list ns_desc) (old : A) : A := default old (last (omap sel ds)).

Lemma last_of_snoc {A} (sel : ns_desc → option A) ds d old : last_of sel (ds ++ [d]) old = default (last_of sel ds old) (sel d).
Proof. rw /last_of omap_app /=. destruct (sel d); simpl; [by rw last_snoc|by rw app_nil_r]. Qed.

Lemma apply_descs ds ids seen :
  fold_left apply_desc ds (ids, seen) =
  (NsIds (last_of sel_eui64 ds (ni_eui64 ids)) (last_of sel_nguid ds (ni_nguid ids)) (last_of sel_uuid ds (ni_uuid ids))
     (last_of sel_csi ds (ni_csi ids)), seen || existsb is_csi ds).
Proof.
  induction ds as [|d ds IH] using rev_ind; [by destruct ids; rw /= orb_false_r|].
  rw fold_left_app IH existsb_app !last_of_snoc /= orb_false_r orb_assoc. destruct d; simpl; by rw ?orb_false_r ?orb_true_r.
Qed.

(** C16.  Reading a page of namespace descriptors is exact, for a driver that asks
    for it (version 1.3 or several command sets, no quirk against it): from any
    well-formed descriptors that fit the page, known and unknown kinds in any order
    and number, padded with zeros, the driver takes the last identifier of each
    kind, keeps what it had where a kind is missing, reads nothing outside the page,
    and fails only when the command set is needed and not reported.  The one
    exception is a padding of a single byte, where the length of a next descriptor
    is read behind the page, which the model reports as a fault ([None]). *)
Theorem ns_descs_exact vs quirks mcss ds k ids :
  NVME_VS 1 3 0 ≤ vs ∨ mcss = true → Z.land quirks NVME_QUIRK_NO_NS_DESC_LIST = 0 →
  Forall desc_ok ds → length (encode_descs ds ++ replicate k 0) = 4096%nat →
  nvme_identify_ns_descs vs quirks mcss true (0, encode_descs ds ++ replicate k 0) ids =
  if decide (k = 1%nat) then None else
  Some (if mcss && negb (existsb is_csi ds) then - EINVAL else 0,
        NsIds (last_of sel_eui64 ds (ni_eui64 ids)) (last_of sel_nguid ds (ni_nguid ids)) (last_of sel_uuid ds (ni_uuid ids))
          (last_of sel_csi ds (ni_csi ids))).
Proof.
  intros Hvs Hq Hds Hlen. rw /nvme_identify_ns_descs Hq.
  assert ((vs <? NVME_VS 1 3 0) && negb mcss = false) as ->.
  { destruct Hvs as [Hge| ->]; [destruct (Z.ltb_spec vs (NVME_VS 1 3 0)); [lia|done]|by rw andb_false_r]. }
  change (c_true 0) with false. cbn [negb]. cbv iota. rw ns_descs_parsed // apply_descs. by case_decide.
Qed.

(** ** Geometry *)

(** C25.  For a format with blocks of 512 bytes to 1 GiB and a namespace of less than
    2^64 sectors, on a controller that is not behind fabrics, the calculation of the
    block device is defined whatever is answered within two bounds: an append limit
    of at most 2^27 times the smallest page ([answers_ok]; zns.c shifts an int by it)
    and a stream write size of less than 4 GiB ([streams_ok]; core.c multiplies it in
    32 bits).  Up to the size of a page the logical block
    size is that of the format, the physical block size and the minimal I/O size are
    multiples of it, a physical block is written atomically, and the capacity is the
    size of the namespace in sectors, or 0 when the metadata cannot be handled; larger
    blocks give a device without capacity. *)
Theorem disk_geometry ctrl zk ik a csi m id d f :
  lbaf_of id = Some f → 9 ≤ lf_ds f ≤ 30 → answers_ok a → streams_ok a (lf_ds f) →
  Z.land (ci_flags ctrl) NVME_F_FABRICS = 0 → 0 ≤ id_nsze id → id_nsze id * 2 ^ (lf_ds f - 9) < 2 ^ 64 →
  0 ≤ id_nawupf id < 2 ^ 16 → 0 ≤ id_npwg id < 2 ^ 16 → 0 ≤ ci_awupf ctrl < 2 ^ 16 →
  ∃ r d' m', nvme_update_ns_info ctrl zk ik a csi m id d = Some (r, d', m') ∧ d_lba_shift d' = lf_ds f ∧
    if 12 <? lf_ds f then d_capacity d' = 0 ∧ d_logical d' = 512 else
    let bs := 2 ^ lf_ds f in
    d_logical d' = bs ∧ blocks bs (d_physical d') ∧ d_physical d' ≤ atomic_size ctrl id bs ∧ blocks bs (d_io_min d') ∧
    d_capacity d' * 512 = if usable ctrl ik id f then id_nsze id * bs else 0.
Proof.
  intros Hf Hds Ha Hst Hpci Hz0 Hz1 Hn Hw Hau.
  destruct (update_ns_info_total ctrl zk ik a csi m id d) as [[[r d'] m'] Hu]; [by exists f|done|]. exists r, d', m'. split; [done|].
  rw /nvme_update_ns_info Hf in Hu. cbn [mbind option_bind] in Hu.
  destruct (metadata_total ctrl id (nvme_set_queue_limits ctrl d<{d_lba_shift := lf_ds f}>)) as (r1 & d1 & E1 & H1); [by exists f|].
  rw E1 in Hu. rw limits_shift /= in H1. destruct (metadata_fields ctrl Hpci id _ f r1 d1 Hf E1) as (Hms & Hpi & Hft).
  apply metadata_pci in E1 as [-> _]; [|done]. cbn [mbind option_bind] in Hu. change (c_true 0) with false in Hu. cbv iota in Hu.
  destruct (chunk_total ctrl id d1) as (d2 & E2 & H2); [lia|]. rw E2 in Hu. cbn [mbind option_bind] in Hu.
  apply chunk_fields in E2 as (Hms2 & Hft2 & Hpi2).
  destruct (disk_info_total ctrl ik a id d2) as (d3 & E3 & H3); [lia|]. rw E3 in Hu. cbn [mbind option_bind] in Hu.
  apply tail_sizes in Hu. rw /sizes in Hu. injection Hu as Hs1 Hs2 Hs3 Hs4 Hs5. split; [congruence|].
  apply (disk_info_geometry ctrl ik a id d2 d3 (lf_ds f)) in E3; [|congruence|done..].
  rw (usable_flags ctrl ik id f d2) in E3; [|congruence..]. rw -Hs2 -Hs3 -Hs4 -Hs5 in E3.
  destruct (12 <? lf_ds f); [done|]. destruct E3 as (? & ? & ? & ? & ->). cbv zeta. repeat (split; [done|]).
  destruct (usable _ _ _ _); [|done]. rw -Z.mul_assoc. f_equal. change 512 with (2 ^ 9). rw -Z.pow_add_r; [|lia..]. f_equal. lia.
Qed.

(** ** A concrete controller *)

(** Two active namespaces, 1 and 3, told apart by their UUIDs, with blocks of 512 bytes. *)
Definition demo_active : list Z := [1; 3].
Definition demo_uuid (n : Z) : list Z := replicate 15 7 ++ [n].
Definition demo_page (n : Z) : list Z := encode_descs [DUuid (demo_uuid n)] ++ replicate 4076 0.
Definition demo_ids (n : Z) : nvme_ns_ids := NsIds (replicate 8 0) (replicate 16 0) (demo_uuid n) 0.
Definition demo_id : nvme_id_ns :=
  IdNs 1000 1000 0 0 0 0 0 0 0 0 0 0 (replicate 16 0) (replicate 8 0) (replicate 16 (Lbaf 0 9)).
Definition demo_answers : info_answers := InfoAnswers (0, (0, 0)) false true (0, 0) true (0, (0, 0, 0, 0)) 0.
Definition ida_next (used : gset Z) : Z := 1 + set_fold Z.max 0 used.

Lemma ida_next_fresh used : 1 ≤ ida_next used ∧ ida_next used ∉ used.
Proof.
  assert (0 ≤ set_fold Z.max 0 used ∧ ∀ x, x ∈ used → x ≤ set_fold Z.max 0 used) as [H0 Hmax].
  { apply (set_fold_ind_L (λ b X, 0 ≤ b ∧ ∀ x, x ∈ X → x ≤ b)); [split; [done|set_solver]|].
    intros x X r Hx [Hr Hall]. split; [lia|]. intros y [->%elem_of_singleton|Hy]%elem_of_union; [lia|]. specialize (Hall y Hy). lia. }
  rw /ida_next. split; [lia|]. intros Hin. specialize (Hmax _ Hin). lia.
Qed.

Definition demo_env : ns_env := {|
  e_alloc _ := true;
  e_list _ _ prev := (0, active_page prev demo_active);
  e_descs _ _ n := (0, demo_page n);
  e_identify _ _ _ := (0, demo_id);
  e_identify_ctrl _ _ := (0, 3);
  e_info _ _ _ := demo_answers;
  e_log _ _ _ := 0;
  e_ida _ used := ida_next used;
  e_srcu _ := 0;
  e_errno st := if decide (st = STS_OK) then 0 else - EIO;
  e_cdev _ := true;
  e_module _ := true;
  e_zoned := true;
  e_integrity := true;
|}.

Lemma demo_page_ok n : page_ok (demo_page n).
Proof. exists [DUuid (demo_uuid n)], 4076%nat. split; [by repeat constructor|]. split; [done|]. split; [done|]. vm_compute. reflexivity. Qed.
Lemma demo_id_ok : id_ok demo_id.
Proof. exists (Lbaf 0 9). split; [done|simpl; lia]. Qed.

#[export] Instance demo_laws : ns_env_laws demo_env.
Proof.
  split; simpl; try done.
  - intros _ used _. apply ida_next_fresh.
  - intros st Hst. by rw decide_False.
  - intros _ _ _ _ _. apply demo_id_ok.
  - intros _ _ n _. apply demo_page_ok.
Qed.

Definition demo_info : ctrl_info := CtrlInfo (NVME_VS 1 4 0) 0 NVME_F_METADATA_SUPPORTED 256 128 0 0 0 0 0 0.
Definition demo_ctl : nvme_ctrl := NvmeCtrl NVME_CTRL_LIVE None false false 0.
Definition demo_ctrl : nctrl := NCtrl demo_ctl true false demo_info 0 ∅ false 1 [].

Section demo.
Existing Instance demo_env.

Definition after (op : ns_op) (s : nst) : nst := from_option snd s (ns_run op s).
Definition demo_joined : nst := after (OpJoin 1 demo_ctrl) (ns_start 0).
Definition demo_scanned : nst := after (OpScan 1 1) demo_joined.

Lemma step_after op s : ns_enabled s op → is_Some (ns_run op s) → ns_step s (after op s).
Proof. intros Hen [[[] s'] Hr]. exists op. split; [done|]. by rw /after Hr. Qed.

Lemma demo_reached : rtc ns_step (ns_start 0) demo_scanned.
Proof.
  eapply rtc_l; [apply (step_after (OpJoin 1 demo_ctrl)); [done|by eexists]|].
  eapply rtc_l; [|apply rtc_refl]. apply step_after; [by eexists|].
  apply (bool_decide_unpack _). vm_compute. exact I.
Qed.

Lemma demo_conforming : conforming 1 demo_info false demo_active demo_ids.
Proof.
  assert (∀ n, n ∈ demo_active → n = 1 ∨ n = 3) as Hcases.
  { intros n Hn. rw /demo_active !elem_of_cons elem_of_nil in Hn. naive_solver. }
  split; try done.
  - repeat constructor.
  - intros n [->| ->]%Hcases; lia.
  - intros n Hn. exists demo_id, (demo_ids n). destruct (Hcases n Hn) as [->| ->].
    all: split; [split; try done; intros t used; destruct (ida_next_fresh used); simpl; lia|].
    all: split; [intros t; vm_compute; reflexivity|]. all: split; [vm_compute; reflexivity|done].
  - intros n m [->| ->]%Hcases [->| ->]%Hcases Heq; done.
Qed.

(** The scanned state has the namespaces 1 and 3; removing them succeeds from there. *)
Lemma namespaces_safe_witness :
  rtc ns_step (ns_start 0) demo_scanned ∧ (view demo_scanned 1).*1 = [1; 3] ∧
  ∃ s', ns_run (OpRemove 1) demo_scanned = Some (tt, s') ∧ rtc ns_step (ns_start 0) s'.
Proof.
  split; [exact demo_reached|]. split; [vm_compute; reflexivity|].
  destruct (namespaces_safe 0 demo_scanned demo_reached) as (_ & _ & Hops & _).
  apply (Hops (OpRemove 1)). vm_compute. by eexists.
Defined.

Lemma scan_converges_witness :
  ∃ s1 s2, nvme_scan_work 1 1 demo_joined = Some (true, s1) ∧ nvme_scan_work 1 1 s1 = Some (true, s2) ∧
    view s2 1 = [(1, (demo_ids 1, false)); (3, (demo_ids 3, false))].
Proof.
  assert (ns_inv [] demo_joined ∧ n_rm demo_joined = []) as [Hinv Hrm].
  { apply (ns_reach_inv 0). eapply rtc_l; [apply (step_after (OpJoin 1 demo_ctrl)); [done|by eexists]|apply rtc_refl]. }
  destruct (scan_converges 1 demo_ctrl demo_active demo_ids 1 demo_joined demo_conforming Hinv Hrm) as (s1 & s2 & H1 & _ & H2 & H3).
  - reflexivity.
  - intros d [C HC]. destruct (decide (d = 1%positive)) as [|Hne]; [done|].
    change (<[1%positive := demo_ctrl]> (∅ : gmap positive nctrl) !! d = Some C) in HC. by rw lookup_insert_ne // lookup_empty in HC.
  - reflexivity.
  - reflexivity.
  - intros e He. change (view demo_joined 1) with ([] : list (Z * (nvme_ns_ids * bool))) in He. by apply elem_of_nil in He.
  - vm_compute. lia.
  - exists s1, s2. split; [exact H1|]. split; [exact H2|exact H3].
Defined.
End demo.

Lemma ns_descs_exact_witness :
  nvme_identify_ns_descs (NVME_VS 1 4 0) 0 false true (0, demo_page 5) no_ids = Some (0, demo_ids 5).
Proof.
  apply (ns_descs_exact (NVME_VS 1 4 0) 0 false [DUuid (demo_uuid 5)] 4076 no_ids).
  - left. vm_compute. discriminate.
  - reflexivity.
  - repeat constructor.
  - vm_compute. reflexivity.
Defined.

Lemma disk_geometry_witness :
  ∃ r d' m', nvme_update_ns_info demo_info true true demo_answers 0 0 demo_id new_disk = Some (r, d', m') ∧
    d_logical d' = 512 ∧ d_capacity d' * 512 = 1000 * 512.
Proof.
  destruct (disk_geometry demo_info true true demo_answers 0 0 demo_id new_disk (Lbaf 0 9)) as (r & d' & m' & Hr & _ & Hl & _ & _ & _ & Hc);
    [reflexivity|vm_compute; split; discriminate|vm_compute; split; [split; discriminate|discriminate]|vm_compute; split; [discriminate|reflexivity]
    |reflexivity|vm_compute; discriminate|vm_compute; reflexivity|vm_compute; split; [discriminate|reflexivity]
    |vm_compute; split; [discriminate|reflexivity]|vm_compute; split; [discriminate|reflexivity]|].
  exists r, d', m'. split; [exact Hr|]. split; [exact Hl|exact Hc].
Defined.
