(* ===== verification/SpecTopo.v ===== *)
(** * Theorems about the topology table

    After it is filled every GPU and NVMe device is found in the table, the rank of a
    pair is its distance in the PCI tree and then the bandwidth of the peer, and the
    statistics count every operation once. *)
From S2P Require Import Prelude GpuTopo GpuTopoInv.

Lemma mapM_seqZ {A} (f : Z → option A) n : 0 ≤ n → (∀ i, 0 ≤ i < n → is_Some (f i)) →
  ∃ l, mapM f (seqZ 0 n) = Some l ∧ length l = Z.to_nat n ∧ ∀ i, 0 ≤ i < n → l !! Z.to_nat i = f i.
Proof.
  intros Hn Hf. destruct (mapM_is_Some_2 f (seqZ 0 n)) as [l Hl].
  { apply list.Forall_forall. intros i Hi%elem_of_seqZ. apply Hf. lia. }
  exists l. split; [done|]. apply mapM_Some in Hl. split; [by rw -(Forall2_length _ _ _ Hl) length_seqZ|].
  intros i Hi. destruct (Forall2_lookup_l _ _ _ (Z.to_nat i) i Hl) as (y & Hy & Hfy); [apply lookup_seqZ; lia|]. congruence.
Qed.

(** Two numbers packed into one. *)
Lemma rank_packed b d : 0 ≤ b ≤ MAX_PCIE_BW_INDEX → 0 ≤ d < 2 ^ 16 → Z.lor (MAX_PCIE_BW_INDEX - b) (u32 (Z.shiftl d 16)) = 2 ^ 16 * d + (160 - b).
Proof.
  rw /MAX_PCIE_BW_INDEX. intros Hb Hd. rw u32_id; [|rw Z.shiftl_mul_pow2 //; lia]. rw Z.lor_comm.
  assert (Z.land (Z.shiftl d 16) (160 - b) = 0) as Hl.
  { rw land_shiftl // Z.shiftr_div_pow2 // Z.div_small; [|lia]. by rw Z.land_0_r. }
  rw -(Z.lxor_lor _ _ Hl) -(Z.add_nocarry_lxor _ _ Hl) Z.shiftl_mul_pow2 //. lia.
Qed.

Section spec.
Context {E : pci_env} {L : pci_laws}.

(** ** Distances and bandwidths *)

Lemma recorded_bw_range p : 0 ≤ recorded_bw p ≤ MAX_PCIE_BW_INDEX.
Proof.
  rw /recorded_bw /MAX_PCIE_BW_INDEX. destruct (pd_lnksta p) as [s|]; [|lia].
  assert (0 ≤ Z.land s 15 < 16) by (change 15 with (Z.ones 4); rw Z.land_ones //; by apply Z.mod_pos_bound).
  destruct (decide _) as [Hw|]; [|lia]. assert (1 ≤ Z.shiftr (Z.land s 0x3f0) 4 ≤ 32) by (rw !elem_of_cons elem_of_nil in Hw; lia).
  destruct (Z.ltb_spec (Z.land s 15) 5); [nia|]. destruct (_ =? 15); [|lia]. nia.
Qed.

Lemma shared_length g p : (length (shared g p) ≤ length (above g))%nat ∧ (length (shared g p) ≤ length (above p))%nat.
Proof. destruct (shared_split g p) as (A & B & -> & -> & _). rw !length_app length_reverse. lia. Qed.

(** Below one root port, across root ports of a node, and across nodes the distances
    do not overlap; the bound of the printed columns is never exceeded. *)
Lemma distance_bounds g p : usual g → usual p →
  if decide (shared g p = []) then
    if is_local g p then 128 ≤ tree_distance g p ≤ 158 else 255 ≤ tree_distance g p ≤ 285
  else 1 ≤ tree_distance g p ≤ 29.
Proof.
  intros [_ Hg] [_ Hp]. destruct (shared_length g p) as [H1 H2]. rw /MAX_PCI_DEPTH in Hg Hp. rw /tree_distance /BASE_PCI_DISTANCE_CROSSRP.
  destruct (decide (shared g p = [])) as [->|Hne]; [simpl; destruct (is_local g p); lia|].
  destruct (last (shared g p)) as [b|] eqn:Hl; [|by apply last_None in Hl]. destruct (shared g p); [done|]. simpl in *.
  destruct (nvfs_pcie_acs_enabled b && _); lia.
Qed.

Lemma distance_range g p : usual g → usual p → 1 ≤ tree_distance g p ≤ 285.
Proof.
  intros Hg Hp. pose proof (distance_bounds g p Hg Hp) as Hd. destruct (decide (shared g p = [])); [|lia]. destruct (is_local g p); lia.
Qed.

(** ** Filling the table *)

(** The devices fit the table. *)
Record fits : Prop := {
  f_usual_gpu d : d ∈ gpus → usual d;
  f_usual_nvme d : d ∈ nvmes → usual d;
  f_gpus : (length gpus ≤ 64)%nat;
  f_nvmes : (length nvmes ≤ 64)%nat;
}.

Definition filled (t : topo) : Prop := slots GpuMap t gpus ∧ slots PeerMap t nvmes.

Lemma gpus_in d : d ∈ gpus → d ∈ pci_devices.
Proof. rw /gpus elem_of_app !list_elem_of_filter. tauto. Qed.
Lemma nvmes_in d : d ∈ nvmes → d ∈ pci_devices.
Proof. rw /nvmes list_elem_of_filter. tauto. Qed.

Lemma slots_empty w t : tbl w t = replicate 64 0 → mp w t = replicate 64 zero_row → slots w t [].
Proof.
  intros Ht Hm. split; rw ?Ht ?Hm //; [by intros d ?%elem_of_nil| |by intros d ?%elem_of_nil].
  intros i v [-> Hi]%lookup_replicate. left. split; [done|]. by apply lookup_replicate_2.
Qed.

(** One element of the matrix, for two devices in the table and for an empty slot. *)
Lemma rank_entry_pair t i j g p : 0 ≤ i < 64 → 0 ≤ j < 64 → g ∈ pci_devices → p ∈ pci_devices → usual g → usual p →
  gpu_info_table t !! Z.to_nat i = Some (leaf_info g) → gpu_bdf_map t !! Z.to_nat i = Some (path_row g) →
  peer_info_table t !! Z.to_nat j = Some (peer_entry p) → peer_bdf_map t !! Z.to_nat j = Some (path_row p) →
  rank_entry t i j = Some (RankData (2 ^ 16 * tree_distance g p + (160 - recorded_bw p)) (c_bool (127 <=? tree_distance g p))
    (tree_distance g p) (recorded_bw p) 0).
Proof.
  intros Hi Hj Hg Hp Ug Up H1 H2 H3 H4. rw /rank_entry /nvfs_lookup_peer_hash_index_entry.
  assert ((j <? MAX_PEER_DEVS) = true) as -> by (apply Z.ltb_lt; rw /MAX_PEER_DEVS; lia). rw H3. cbn [mbind option_bind].
  rw (distance_exact t i j g p) //. cbn [mbind option_bind]. pose proof (entry_bw p Hp) as Hb. rw /bw_of in Hb.
  destruct (nvfs_pdevinfo_get_link_width (peer_entry p)) as [width|]; [|done]. cbn [mbind option_bind] in Hb |- *. injection Hb as ->.
  pose proof (distance_range g p Ug Up). rw rank_packed; [|apply recorded_bw_range|lia]. rw u16_id; [|lia]. done.
Qed.

Lemma width_total v : is_Some (nvfs_pdevinfo_get_link_width v).
Proof.
  apply lookup_lt_is_Some_2. change 15 with (Z.ones 4). rw Z.land_ones //. pose proof (Z.mod_pos_bound (Z.shiftr (u32 v) (NVFS_PDEVINFO_LNKWIDTH_BIT - 1)) (2 ^ 4) ltac:(done)).
  change (length nvfs_pcie_link_width_table) with 16%nat. lia.
Qed.

Lemma rank_entry_empty t i j v grow prow g0 p0 : 0 ≤ i < 64 → 0 ≤ j < 64 → peer_info_table t !! Z.to_nat j = Some v →
  gpu_bdf_map t !! Z.to_nat i = Some grow → peer_bdf_map t !! Z.to_nat j = Some prow →
  grow !! 0%nat = Some g0 → prow !! 0%nat = Some p0 → g0 = 0 ∨ p0 = 0 →
  ∃ r, rank_entry t i j = Some r ∧ rd_pci_dist r = 65535 ∧ rd_count r = 0.
Proof.
  intros Hi Hj Hv Hg Hp Hg0 Hp0 Hz. rw /rank_entry /nvfs_lookup_peer_hash_index_entry.
  assert ((j <? MAX_PEER_DEVS) = true) as -> by (apply Z.ltb_lt; rw /MAX_PEER_DEVS; lia). rw Hv. cbn [mbind option_bind].
  assert (__nvfs_get_gpu2peer_distance t i j = Some T_UINT_MAX) as ->.
  { rw /__nvfs_get_gpu2peer_distance (in_range_pair i j) // Hg Hp. cbn [mbind option_bind]. rw Hg0 Hp0. cbn [mbind option_bind].
    destruct Hz as [-> | ->]; [done|]. by destruct (g0 =? 0). }
  cbn [mbind option_bind]. destruct (width_total v) as [w ->]. by eexists.
Qed.

(** A slot is empty or has a device. *)
Lemma slot_case w t ds i : slots w t ds → 0 ≤ i < 64 →
  (tbl w t !! Z.to_nat i = Some 0 ∧ mp w t !! Z.to_nat i = Some zero_row) ∨
  ∃ d, d ∈ ds ∧ tbl w t !! Z.to_nat i = Some (ent w d) ∧ mp w t !! Z.to_nat i = Some (path_row d).
Proof.
  intros S Hi. destruct (lookup_lt_is_Some_2 (tbl w t) (Z.to_nat i)) as [v Hv]; [rw (sl_tbl _ _ _ S); lia|].
  destruct (sl_only _ _ _ S _ _ Hv) as [[-> Hm]|(d & Hd & -> & Hm)]; [by left|]. right. by exists d.
Qed.

(** Distances the columns of the statistics know. *)
Definition shown (r : nvfs_rank_data) : Prop := 1 ≤ rd_pci_dist r ≤ PROC_LIMIT_PCI_DISTANCE_COMMONRP ∨ BASE_PCI_DISTANCE_CROSSRP ≤ rd_pci_dist r.

Lemma pair_shown g p : usual g → usual p → 1 ≤ tree_distance g p ≤ 32 ∨ 127 ≤ tree_distance g p.
Proof.
  intros Hg Hp. pose proof (distance_bounds g p Hg Hp) as Hd. destruct (decide (shared g p = [])); [|lia]. destruct (is_local g p); lia.
Qed.

Lemma rank_entry_total t i j : fits → filled t → 0 ≤ i < 64 → 0 ≤ j < 64 → ∃ r, rank_entry t i j = Some r ∧ shown r ∧ rd_count r = 0.
Proof.
  intros F [SG SP] Hi Hj. rw /shown /PROC_LIMIT_PCI_DISTANCE_COMMONRP /BASE_PCI_DISTANCE_CROSSRP.
  destruct (slot_case _ _ _ i SG Hi) as [[G1 G2]|(g & Hg & G1 & G2)]; destruct (slot_case _ _ _ j SP Hj) as [[P1 P2]|(p & Hp & P1 & P2)];
    simpl in *; try pose proof (gpus_in g Hg) as Hgd; try pose proof (f_usual_gpu F g Hg) as Ug;
    try pose proof (nvmes_in p Hp) as Hpd; try pose proof (f_usual_nvme F p Hp) as Up.
  4: { eexists. split; [by apply (rank_entry_pair t i j g p)|]. split; [|done]. by apply pair_shown. }
  - destruct (rank_entry_empty t i j 0 _ _ 0 0 Hi Hj P1 G2 P2 eq_refl eq_refl (or_introl eq_refl)) as (r & Hr & Hd & Hc). exists r. rw Hd. split_and!; [done|lia|done].
  - destruct (row_first p Hpd Up) as (v & Hv & _).
    destruct (rank_entry_empty t i j _ _ _ 0 v Hi Hj P1 G2 P2 eq_refl Hv (or_introl eq_refl)) as (r & Hr & Hd & Hc). exists r. rw Hd. split_and!; [done|lia|done].
  - destruct (row_first g Hgd Ug) as (v & Hv & _).
    destruct (rank_entry_empty t i j _ _ _ v 0 Hi Hj P1 G2 P2 Hv eq_refl (or_intror eq_refl)) as (r & Hr & Hd & Hc). exists r. rw Hd. split_and!; [done|lia|done].
Qed.

(** The matrix holds the elements. *)
Definition ranked (t : topo) : Prop :=
  length (gpu_rank_matrix t) = 64%nat ∧ ∀ i, 0 ≤ i < 64 → ∃ row, gpu_rank_matrix t !! Z.to_nat i = Some row ∧ length row = 64%nat ∧ Forall shown row.

Lemma wp_ranks t : fits → filled t →
  wp nvfs_get_pci_gpu2peer_distance (λ _ t', filled t' ∧ ranked t' ∧ t_refs t' = t_refs t ∧ tbl GpuMap t' = tbl GpuMap t ∧ tbl PeerMap t' = tbl PeerMap t ∧
    ∀ i j, 0 ≤ i < 64 → 0 ≤ j < 64 → rank_at t' i j = rank_entry t i j) t.
Proof.
  intros F HF. rw /nvfs_get_pci_gpu2peer_distance. wp_step. apply (wp_gets id). change (id t) with t.
  assert (∀ i, 0 ≤ i < 64 → ∃ row, mapM (rank_entry t i) (seqZ 0 64) = Some row ∧ length row = 64%nat ∧
    ∀ j, 0 ≤ j < 64 → row !! Z.to_nat j = rank_entry t i j) as Hrow.
  { intros i Hi. apply (mapM_seqZ (rank_entry t i) 64); [lia|]. intros j Hj. destruct (rank_entry_total t i j F HF Hi Hj) as (r & -> & _). by eexists. }
  destruct (mapM_seqZ (λ i, mapM (rank_entry t i) (seqZ 0 64)) 64) as (m & Hm & Hlen & Hat); [lia|intros i Hi; by destruct (Hrow i Hi) as (row & -> & _)|].
  apply wp_bind, (wp_from_option _ m); [exact Hm|]. apply wp_modify. split; [|split].
  - destruct HF as [SG SP]. by split; [eapply (slots_ext _ t)|eapply (slots_ext _ t)].
  - split; [exact Hlen|]. intros i Hi. simpl. destruct (Hrow i Hi) as (row & Hr & Hl & Hj). exists row. rw Hat // Hr. split_and!; [done..|].
    apply Forall_lookup. intros k r Hk. pose proof (lookup_lt_Some _ _ _ Hk).
    specialize (Hj (Z.of_nat k) ltac:(lia)). rw Nat2Z.id Hk in Hj.
    destruct (rank_entry_total t i (Z.of_nat k) F HF Hi ltac:(lia)) as (r' & Hr' & Hs & _). congruence.
  - do 3 (split; [done|]). intros i j Hi Hj. rw /rank_at /= Hat //. destruct (Hrow i Hi) as (row & -> & _ & Hj'). by apply Hj'.
Qed.

Lemma wp_fill t : fits →
  wp nvfs_fill_gpu2peer_distance_table_once (λ _ t', filled t' ∧ ranked t' ∧ t_refs t' = t_refs t ∧
    ∃ t1, filled t1 ∧ tbl GpuMap t' = tbl GpuMap t1 ∧ tbl PeerMap t' = tbl PeerMap t1 ∧
      ∀ i j, 0 ≤ i < 64 → 0 ≤ j < 64 → rank_at t' i j = rank_entry t1 i j) t.
Proof.
  intros F. rw /nvfs_fill_gpu2peer_distance_table_once. wp_step. apply wp_modify. set (t0 := upd _ _ _).
  assert (∀ w class d, (wants w d → d ∈ filter (λ d, pd_class d = class) pci_devices → usual d) →
    d ∈ filter (λ d, pd_class d = class) pci_devices → d ∈ pci_devices ∧ pd_class d = class ∧ (wants w d → nvfs_pdevinfo d ≠ 0)) as Hds.
  { intros w class d Hu Hd. pose proof Hd as [Hc Hd']%list_elem_of_filter. split_and!; [done..|]. intros Hw. by apply usual_addr, Hu. }
  assert (slots GpuMap t0 [] ∧ slots PeerMap t0 []) as [SG SP] by (split; by apply slots_empty).
  assert (gpus = filter (wants GpuMap) (filter (λ d, pd_class d = 0x30200) pci_devices) ++
    filter (wants GpuMap) (filter (λ d, pd_class d = 0x30000) pci_devices)) as Hgp.
  { rw /gpus. f_equal; by apply list_filter_iff. }
  pose proof (f_gpus F) as HG. rw Hgp length_app in HG.
  wp_step. eapply wp_mono; [apply (wp_find GpuMap 0x30200 (or_introl eq_refl) (filter (λ d, pd_class d = 0x30200) pci_devices) t0 [] false 0 SG); [|etrans; [apply Nat.le_add_r|exact HG]|simpl; lia]|].
  { intros d. apply Hds. intros Hw Hd. apply (f_usual_gpu F). rw Hgp elem_of_app !list_elem_of_filter in Hd |- *. tauto. }
  intros _ t1 (S1 & (K1 & K1' & _) & R1).
  wp_step. eapply wp_mono; [apply (wp_find GpuMap 0x30000 (or_intror eq_refl) (filter (λ d, pd_class d = 0x30000) pci_devices) t1 _ false 0 S1); [|exact HG|simpl; lia]|].
  { intros d. apply Hds. intros Hw Hd. apply (f_usual_gpu F). rw Hgp elem_of_app !list_elem_of_filter in Hd |- *. tauto. }
  intros _ t2 (S2 & (K2 & K2' & _) & R2).
  assert (slots PeerMap t2 []) as SP2.
  { eapply (slots_ext _ t0); [exact (eq_trans K2 K1)|exact (eq_trans K2' K1')|done]. }
  pose proof (f_nvmes F) as HN.
  wp_step. eapply wp_mono; [apply (wp_find PeerMap PCI_CLASS_STORAGE_EXPRESS eq_refl nvmes t2 [] false 0 SP2); [| |simpl; lia]|].
  { intros d. apply Hds. intros _. apply (f_usual_nvme F). }
  { simpl. etrans; [apply length_filter|exact HN]. }
  intros _ t3 (S3 & (K3 & K3' & _) & R3).
  assert (filled t3) as HF3.
  { split; [rw Hgp; by eapply (slots_ext _ t2)|]. by rw list_filter_filter_r in S3. }
  eapply wp_mono; [by apply wp_ranks|]. intros _ t4 (F4 & R4 & R & T1 & T2 & Hat). split_and!; [done..| |].
  - rw R R3 R2 R1 /=. lia.
  - by exists t3.
Qed.

(** A device that was not put into the table is not found. *)
Lemma lookup_misses w t ds d : slots w t ds → (∀ e, e ∈ ds → e ∈ pci_devices) → d ∈ pci_devices → d ∉ ds → nvfs_pdevinfo d ≠ 0 →
  _lookup_index_entry (nvfs_pdevinfo d) (tbl w t) 64 = Some T_UINT_MAX.
Proof.
  intros S Hds Hd Hn Hz.
  destruct (probe_full (λ v, Z.land v NVFS_PDEVINFO_INFO_MASK =? nvfs_pdevinfo d) (tbl w t) 64 (hashfn (nvfs_pdevinfo d) mod 64))
    as (r & Hr & Hcase); [done|apply (sl_tbl _ _ _ S)|by apply Z.mod_pos_bound|].
  rw /_lookup_index_entry Hr. destruct Hcase as [(_ & v & Hv & Heq%Z.eqb_eq)|[-> _]]; [exfalso|done].
  destruct (sl_only _ _ _ S _ _ Hv) as [[-> _]|(e & He & -> & _)]; [by rw Z.land_0_l in Heq|].
  rw ent_masked in Heq; [|by apply Hds]. apply Hn. by rw -(pl_addr e d (Hds e He) Hd Heq).
Qed.

Lemma rank_of_index t p i j r : is_Some (pd_bus p) → 0 ≤ i < 64 → nvfs_get_peer_hash_index (nvfs_pdevinfo p) t = Some j →
  0 ≤ j < 64 → rank_at t i j = Some r → nvfs_get_gpu2peer_distance t p i = Some (rd_rank r).
Proof.
  intros Hb Hi Hj Hjr Hr. rw /nvfs_get_gpu2peer_distance bool_decide_true //. cbn [negb]. cbv iota.
  assert ((MAX_GPU_DEVS <=? i) = false) as -> by (apply Z.leb_gt; rw /MAX_GPU_DEVS; lia). rw Hj. cbn [mbind option_bind].
  assert ((MAX_PEER_DEVS <=? j) = false) as -> by (apply Z.leb_gt; rw /MAX_PEER_DEVS; lia). by rw Hr.
Qed.

(** The bandwidth in the rank is the capacity of a link of generation 1 to 4 and of a
    listed width; a link of a later generation counts as none. *)
Lemma recorded_capacity p s : pd_lnksta p = Some s →
  (link_lanes s ∈ pcie_widths → 1 ≤ link_generation s ≤ 4 → recorded_bw p = link_capacity s) ∧
  (5 ≤ link_generation s < 15 → recorded_bw p = 0).
Proof.
  intros Hs. rw /recorded_bw Hs /link_capacity. fold (link_lanes s) (link_generation s) pcie_widths. split.
  - intros Hw Hg. rw decide_True //. by assert ((link_generation s <? 5) = true) as -> by lia.
  - intros Hg. destruct (decide _); [|done]. assert ((link_generation s <? 5) = false) as -> by lia.
    by assert ((link_generation s =? 15) = false) as -> by lia.
Qed.

(** C8.  On a machine with at most 64 GPUs and at most 64 NVMe devices, each below fewer
    than 16 bridges and neither they nor their bridges at address 0: filling the topology
    table returns and keeps no reference to a device.  After it every GPU is found under
    its address, whatever the hash function, and its rank for an NVMe device is their
    distance in the PCI tree (the bridges between them, with the detour that access
    control forces, or more than any such number when they are below different root
    ports), and in the low half 160 less the bandwidth of the NVMe device's link: its
    lanes times its generation for generations 1 to 4 and the PCIe widths, and 0 for
    generations 5 to 14, which the driver's table lacks; for any other device at an address
    other than 0 the rank is the largest number. *)
Theorem topology_exact t :
  fits →
  ∃ t', nvfs_fill_gpu2peer_distance_table_once t = Some (tt, t') ∧ t_refs t' = t_refs t ∧
    ∀ g, g ∈ gpus → ∃ i, nvfs_get_gpu_hash_index (nvfs_pdevinfo g) t' = Some i ∧ 0 ≤ i < 64 ∧
      (∀ p, p ∈ nvmes → ∃ bw, nvfs_get_gpu2peer_distance t' p i = Some (2 ^ 16 * tree_distance g p + (160 - bw)) ∧
         0 ≤ bw ≤ 160 ∧ ∀ s, pd_lnksta p = Some s →
           (link_lanes s ∈ pcie_widths → 1 ≤ link_generation s ≤ 4 → bw = link_capacity s) ∧
           (5 ≤ link_generation s < 15 → bw = 0)) ∧
      (∀ p, p ∈ pci_devices → p ∉ nvmes → nvfs_pdevinfo p ≠ 0 → nvfs_get_gpu2peer_distance t' p i = Some T_UINT_MAX).
Proof.
  intros F. destruct (wp_run _ _ _ (wp_fill t F)) as ([] & t' & Hrun & [SG SP] & _ & HR & t1 & [SG1 SP1] & T1 & T2 & Hat).
  exists t'. split; [done|]. split; [done|]. intros g Hg. pose proof (gpus_in g Hg) as Hgd. pose proof (f_usual_gpu F g Hg) as Ug. pose proof (usual_addr g Ug) as Hgz.
  destruct (lookup_finds GpuMap t1 gpus g SG1 gpus_in Hg Hgz) as (i & Hi & Hir & G1 & G2). exists i.
  split; [by rw /nvfs_get_gpu_hash_index -[gpu_info_table t']/(tbl GpuMap t') T1|]. split; [done|]. split.
  - intros p Hp. exists (recorded_bw p). split; [|split; [apply recorded_bw_range|intros s Hs; by apply recorded_capacity]].
    pose proof (nvmes_in p Hp) as Hpd. pose proof (f_usual_nvme F p Hp) as Up. pose proof (usual_addr p Up) as Hpz. destruct (pl_bus p Hpd) as (dom & num & Hb & _).
    destruct (lookup_finds PeerMap t1 nvmes p SP1 nvmes_in Hp Hpz) as (j & Hj & Hjr & P1 & P2).
    erewrite (rank_of_index t' p i j); [|by eexists|done| |done|rw Hat //; by apply (rank_entry_pair t1 i j g p)]; [done|].
    by rw /nvfs_get_peer_hash_index -[peer_info_table t']/(tbl PeerMap t') T2.
  - intros p Hpd Hn Hpz. destruct (pl_bus p Hpd) as (dom & num & Hb & _).
    rw /nvfs_get_gpu2peer_distance Hb bool_decide_true; [|by eexists]. cbn [negb]. cbv iota.
    assert ((MAX_GPU_DEVS <=? i) = false) as -> by (apply Z.leb_gt; rw /MAX_GPU_DEVS; lia).
    by rw /nvfs_get_peer_hash_index -[peer_info_table t']/(tbl PeerMap t') (lookup_misses PeerMap t' nvmes p SP nvmes_in Hpd Hn Hpz).
Qed.

(** Ranks order peers by distance and then by bandwidth: first those below the root
    port of the GPU, then those of its NUMA node, then the others. *)
Theorem rank_order g p q : usual g → usual p → usual q →
  let rank x := 2 ^ 16 * tree_distance g x + (160 - recorded_bw x) in
  (rank p < rank q ↔ tree_distance g p < tree_distance g q ∨ tree_distance g p = tree_distance g q ∧ recorded_bw q < recorded_bw p) ∧
  (shared g p ≠ [] → shared g q = [] → rank p < rank q) ∧
  (shared g p = [] → shared g q = [] → is_local g p = true → is_local g q = false → rank p < rank q).
Proof.
  intros Hg Hp Hq rank. rw /rank. pose proof (recorded_bw_range p) as B1. pose proof (recorded_bw_range q) as B2. rw /MAX_PCIE_BW_INDEX in B1 B2.
  pose proof (distance_bounds g p Hg Hp) as D1. pose proof (distance_bounds g q Hg Hq) as D2. split; [lia|]. split.
  - intros H1 H2. rw decide_False // in D1. rw decide_True // in D2. destruct (is_local g q); lia.
  - intros H1 H2 H3 H4. rw decide_True // H3 in D1. rw decide_True // H4 in D2. lia.
Qed.
End spec.

(** ** Statistics *)

Section stats.
Context {E : pci_env}.

(** The operations of the peers that [sel] selects. *)
Definition usage (sel : nvfs_rank_data → bool) (row : list nvfs_rank_data) : Z :=
  foldr (λ r n, (if sel r then rd_count r else 0) + n) 0 row.
Definition total_of (row : list nvfs_rank_data) : Z := usage (λ _, true) row.
Definition counted (r : nvfs_rank_data) : Prop := 0 ≤ rd_count r.

Lemma usage_le sel row : Forall counted row → 0 ≤ usage sel row ≤ total_of row.
Proof.
  induction row as [|r row IH]; intros Hr; simpl; [done|]. apply Forall_cons in Hr as [H1 Hr]. specialize (IH Hr).
  rw /counted /total_of in H1 IH |- *. simpl. destruct (sel r); lia.
Qed.

Lemma sum_counts_usage sel row : Forall counted row → total_of row < 2 ^ 64 → sum_counts sel row = usage sel row.
Proof.
  intros Hr Ht. rw /sum_counts. assert (∀ c, 0 ≤ c → c + total_of row < 2 ^ 64 →
    fold_left (λ c r, if sel r then u64 (c + rd_count r) else c) row c = c + usage sel row) as ->; [|lia|lia|lia]. clear Ht.
  induction row as [|r row IH]; intros c Hc Ht; simpl; [lia|].
  apply Forall_cons in Hr as [H1 Hr]. rw /counted in H1. rw /total_of /= -/(total_of row) in Ht. pose proof (usage_le (λ _, true) row Hr).
  destruct (sel r); [rw u64_id; [|unfold total_of in *; lia]|]; rw IH //; lia.
Qed.

Definition column (j : Z) (r : nvfs_rank_data) : bool := rd_pci_dist r =? j.
Definition across (r : nvfs_rank_data) : bool := BASE_PCI_DISTANCE_CROSSRP <=? rd_pci_dist r.
Definition in_columns (l : list Z) (r : nvfs_rank_data) : bool := bool_decide (rd_pci_dist r ∈ l).
Definition sum_of (l : list Z) : Z := foldr Z.add 0 l.

Lemma sum_of_app l k : sum_of (l ++ k) = sum_of l + sum_of k.
Proof. induction l as [|x l IH]; simpl; [done|]. rw IH. lia. Qed.

Lemma usage_split (s1 s2 s : nvfs_rank_data → bool) row :
  Forall (λ r, (if s1 r then 1 else 0) + (if s2 r then 1 else 0) = if s r then 1 else 0) row → usage s1 row + usage s2 row = usage s row.
Proof.
  induction row as [|r row IH]; intros Hr; simpl; [done|]. apply Forall_cons in Hr as [H1 Hr]. rw -(IH Hr).
  destruct (s1 r), (s2 r), (s r); lia.
Qed.

Lemma columns_usage l row : NoDup l → sum_of ((λ j, usage (column j) row) <$> l) = usage (in_columns l) row.
Proof.
  induction l as [|j l IH]; intros Hl; simpl.
  - induction row as [|r row IHr]; simpl; [done|]. by rw -IHr.
  - apply NoDup_cons in Hl as [Hj Hl]. rw (IH Hl). apply usage_split, list.Forall_forall. intros r _. rw /column /in_columns.
    destruct (Z.eqb_spec (rd_pci_dist r) j) as [->|Hne].
    + rw bool_decide_false // bool_decide_true //. by left.
    + rw (bool_decide_ext _ (rd_pci_dist r ∈ j :: l)); [|rw elem_of_cons; tauto]. by destruct (bool_decide _).
Qed.

(** Every operation that was counted is shown in exactly one column. *)
Theorem affinity_shows_all t i row : 0 ≤ i < 64 → gpu_rank_matrix t !! Z.to_nat i = Some row →
  Forall shown row → Forall counted row → total_of row < 2 ^ 64 →
  ∃ l, affinity_row t i = Some l ∧ length l = 33%nat ∧ sum_of l = total_of row.
Proof.
  intros Hi Hrow Hs Hc Ht. set (near := (λ j, usage (column j) row) <$> seqZ 1 32).
  assert (∀ d, nvfs_aggregate_peer_usage_by_distance t i d =
    Some (if BASE_PCI_DISTANCE_CROSSRP <=? d then usage (λ r, d <=? rd_pci_dist r) row else usage (column d) row)) as Hagg.
  { intros d. rw /nvfs_aggregate_peer_usage_by_distance. destruct (Z.leb_spec MAX_GPU_DEVS i); [unfold MAX_GPU_DEVS in *; lia|].
    rw Hrow /=. by rw !sum_counts_usage. }
  exists (near ++ [usage across row]). split.
  - rw /affinity_row Hagg. assert (mapM (nvfs_aggregate_peer_usage_by_distance t i) (seqZ 1 PROC_LIMIT_PCI_DISTANCE_COMMONRP) = Some near) as ->; [|done].
    apply mapM_Some, Forall2_fmap_r, Forall_Forall2_diag, list.Forall_forall. intros d Hd%elem_of_seqZ. rw Hagg.
    destruct (Z.leb_spec BASE_PCI_DISTANCE_CROSSRP d); [|done]. unfold PROC_LIMIT_PCI_DISTANCE_COMMONRP, BASE_PCI_DISTANCE_CROSSRP in *. lia.
  - split; [rw length_app length_fmap length_seqZ //|]. rw sum_of_app /near columns_usage; [|apply NoDup_seqZ]. simpl. rw Z.add_0_r.
    apply usage_split, (Forall_impl _ _ _ Hs). intros r Hr. rw /in_columns /across.
    unfold shown, PROC_LIMIT_PCI_DISTANCE_COMMONRP, BASE_PCI_DISTANCE_CROSSRP in *.
    destruct Hr as [Hr|Hr].
    + rw bool_decide_true; [|apply elem_of_seqZ; lia]. destruct (Z.leb_spec 127 (rd_pci_dist r)); lia.
    + rw bool_decide_false; [|rw elem_of_seqZ; lia]. destruct (Z.leb_spec 127 (rd_pci_dist r)); lia.
Qed.

(** Counting an operation and clearing the counts keep the matrix as it is shown. *)
Lemma wp_update_usage t i info : 0 ≤ i < 64 → length (peer_info_table t) = 64%nat → ranked t →
  wp (nvfs_update_peer_usage i info) (λ _ t', ranked t') t.
Proof.
  intros Hi Hlen [Hl Hr]. rw /nvfs_update_peer_usage. wp_step. apply (wp_gets id). change (id t) with t.
  destruct (probe_full (λ v, Z.land v NVFS_PDEVINFO_INFO_MASK =? info) (peer_info_table t) 64 (hashfn info mod 64)) as (j & Hj & Hcase);
    [done|done|by apply Z.mod_pos_bound|]. apply wp_bind, (wp_from_option _ j); [exact Hj|].
  destruct (Z.leb_spec MAX_GPU_DEVS i); [unfold MAX_GPU_DEVS in *; lia|]. destruct (Z.leb_spec MAX_PEER_DEVS j) as [|Hjlt]; [by apply wp_ret|].
  cbn [orb]. cbv iota. destruct Hcase as [[Hjr _]|[-> _]]; [|by vm_compute in Hjlt].
  destruct (Hr i Hi) as (row & Hrow & Hlr & Hsh). destruct (lookup_lt_is_Some_2 row (Z.to_nat j)) as [r Hrj]; [lia|].
  apply wp_bind, (wp_from_option _ row); [done|]. apply wp_bind, (wp_from_option _ r); [done|]. apply wp_modify.
  split; [by rw /= length_insert|]. intros k Hk. simpl. destruct (decide (Z.to_nat k = Z.to_nat i)) as [->|Hne].
  - rw list_lookup_insert_eq; [|lia]. eexists. split; [done|]. rw length_insert. split; [done|]. apply Forall_insert; [done|].
    exact (Forall_lookup_1 _ _ _ _ Hsh Hrj).
  - rw list_lookup_insert_ne //. by apply Hr.
Qed.

Lemma reset_usage t : ranked t → wp nvfs_reset_peer_affinity_stats (λ _ t', ranked t' ∧
  ∀ i row, gpu_rank_matrix t' !! i = Some row → total_of row = 0) t.
Proof.
  intros [Hl Hr]. apply wp_modify. split.
  - split; [by rw /= length_map|]. intros k Hk. simpl. destruct (Hr k Hk) as (row & Hrow & Hlr & Hsh). eexists.
    split; [by rw -[map _ _]/(fmap _ _) list_lookup_fmap Hrow|]. split; [by rw length_map|]. apply Forall_fmap. exact (Forall_impl _ _ _ Hsh (λ r H, H)).
  - intros i row. simpl. rw -[map _ (gpu_rank_matrix t)]/(fmap _ _) list_lookup_fmap. destruct (gpu_rank_matrix t !! i) as [row0|]; [|done].
    intros [= <-]. induction row0 as [|r row0 IH]; simpl; [done|]. exact IH.
Qed.
End stats.

(** ** A concrete machine *)

(** Below one root port a switch with a GPU and an NVMe device of four lanes, below
    another an NVMe device of eight lanes. *)
Definition demo_port1 : pci_dev := PciDev (Some (0, 0)) true 8 0x60400 0x8086 None None.
Definition demo_port2 : pci_dev := PciDev (Some (0, 0)) true 16 0x60400 0x8086 None None.
Definition demo_switch : pci_dev := PciDev (Some (0, 1)) false 0 0x60400 0x10b5 None (Some (0x1d, 0x1d)).
Definition demo_gpu : pci_dev := PciDev (Some (0, 2)) false 0 0x30200 PCI_VENDOR_ID_NVIDIA (Some 0x103) None.
Definition demo_near : pci_dev := PciDev (Some (0, 3)) false 0 PCI_CLASS_STORAGE_EXPRESS 0x144d (Some 0x44) None.
Definition demo_far : pci_dev := PciDev (Some (0, 4)) false 0 PCI_CLASS_STORAGE_EXPRESS 0x144d (Some 0x84) None.
Definition demo_devices : list pci_dev := [demo_port1; demo_port2; demo_switch; demo_gpu; demo_near; demo_far].
Definition demo_upstream (d : pci_dev) : option pci_dev :=
  if decide (d = demo_gpu) then Some demo_switch else
  if decide (d = demo_near) then Some demo_switch else
  if decide (d = demo_switch) then Some demo_port1 else
  if decide (d = demo_far) then Some demo_port2 else None.
Definition demo_slot (dom num devfn : Z) : option pci_dev :=
  snd <$> list_find (λ d, pd_bus d = Some (dom, num) ∧ pd_devfn d = devfn) demo_devices.
Definition demo_pci : pci_env := PciEnv demo_devices demo_upstream demo_slot (λ _, 0) (λ _ _, 10) (λ a b c, a + b + c).

Section demo.
Existing Instance demo_pci.

Lemma demo_cases (P : pci_dev → Prop) : Forall P demo_devices → ∀ d, d ∈ pci_devices → P d.
Proof. intros HP d Hd. exact (proj1 (list.Forall_forall P demo_devices) HP d Hd). Qed.

#[local] Instance demo_pci_laws : pci_laws.
Proof.
  split.
  - apply demo_cases. repeat apply Forall_cons_2; [..|by apply Forall_nil_2]; do 2 eexists; (split; [reflexivity|lia]).
  - apply demo_cases. repeat apply Forall_cons_2; [..|by apply Forall_nil_2]; simpl; lia.
  - intros d b Hd. revert d Hd. apply (demo_cases (λ d, pci_upstream_bridge d = Some b → b ∈ pci_devices)). repeat apply Forall_cons_2; [..|by apply Forall_nil_2]; intros Hb; vm_compute in Hb;
      first [discriminate|injection Hb as <-; apply (bool_decide_unpack _); vm_compute; exact I].
  - apply demo_cases. repeat apply Forall_cons_2; [..|by apply Forall_nil_2]; vm_compute; split; done.
  - intros d e Hd He. revert e He d Hd. apply (demo_cases (λ e, ∀ d, d ∈ pci_devices → nvfs_pdevinfo d = nvfs_pdevinfo e → d = e)).
    repeat apply Forall_cons_2; [..|by apply Forall_nil_2];
      match goal with |- ∀ d, _ → nvfs_pdevinfo d = nvfs_pdevinfo ?e → _ => apply (demo_cases (λ d, nvfs_pdevinfo d = nvfs_pdevinfo e → d = e)) end;
      (repeat apply Forall_cons_2; [..|by apply Forall_nil_2]); vm_compute; done.
  - intros d dom num Hd. revert d Hd.
    apply (demo_cases (λ d, pd_bus d = Some (dom, num) → pci_get_domain_bus_and_slot (s32 dom) num (pd_devfn d) = Some d)).
    repeat apply Forall_cons_2; [..|by apply Forall_nil_2]; intros [= <- <-]; vm_compute; reflexivity.
Qed.

Lemma demo_fits : fits.
Proof.
  assert (∀ d, d ∈ pci_devices → usual d) as Hu.
  { apply demo_cases. repeat apply Forall_cons_2; [..|by apply Forall_nil_2]; (split; [apply (bool_decide_unpack _); vm_compute; exact I|vm_compute; lia]). }
  split; [intros d Hd; apply Hu; by apply gpus_in|intros d Hd; apply Hu; by apply nvmes_in|vm_compute; lia..].
Qed.

(** The near device is one bridge away, the far one below another root port of the node. *)
Lemma topology_exact_witness :
  ∃ t' i, nvfs_fill_gpu2peer_distance_table_once (Topo [] [] [] [] [] 0) = Some (tt, t') ∧ t_refs t' = 0 ∧
    nvfs_get_gpu_hash_index (nvfs_pdevinfo demo_gpu) t' = Some i ∧
    nvfs_get_gpu2peer_distance t' demo_near i = Some (2 ^ 16 * 1 + (160 - 16)) ∧
    nvfs_get_gpu2peer_distance t' demo_far i = Some (2 ^ 16 * 131 + (160 - 32)) ∧
    nvfs_get_gpu2peer_distance t' demo_switch i = Some T_UINT_MAX.
Proof.
  destruct (topology_exact (Topo [] [] [] [] [] 0) demo_fits) as (t' & Hrun & Hr & Hall).
  destruct (Hall demo_gpu) as (i & Hi & _ & Hn & Hm); [apply (bool_decide_unpack _); vm_compute; exact I|].
  exists t', i. split; [exact Hrun|]. split; [exact Hr|]. split; [exact Hi|].
  split; [|split].
  - destruct (Hn demo_near) as (bw & -> & _ & Hbw); [apply (bool_decide_unpack _); vm_compute; exact I|].
    destruct (Hbw _ eq_refl) as [-> _];
      [vm_compute; reflexivity|apply (bool_decide_unpack _); vm_compute; exact I|vm_compute; split; discriminate].
  - destruct (Hn demo_far) as (bw & -> & _ & Hbw); [apply (bool_decide_unpack _); vm_compute; exact I|].
    destruct (Hbw _ eq_refl) as [-> _];
      [vm_compute; reflexivity|apply (bool_decide_unpack _); vm_compute; exact I|vm_compute; split; discriminate].
  - apply Hm; [apply (bool_decide_unpack _); vm_compute; exact I..|vm_compute; discriminate].
Defined.
End demo.
