(* ===== verification/Findings.v ===== *)
(** * Where the code falls short

    Runs of the model that show behaviour the code's own comments or documents
    rule out, each on a state of the session of Machine.v or one call away. *)
From S2P Require Import Prelude KState P2p Ctrl Map QidPool QGroup Inv.
From S2P Require Import DevIoctl DevFile DevInv AddQueue DevStep Control ControlInv System.
From S2P Require Import Machine PhaseRing UserQueue UserCmd KernelRing KernelPrp KernelMap IoQueues SpecIoQueues.

Section findings.
Existing Instance good.
Existing Instance npu.

(** ** Two files of one task *)

(** A second file of the same task on the same controller. *)
Definition other_file : ptr := 6.
Definition st_second : snvm :=
  exec (snvm_dev_open task other_file) (set_file other_file (File the_ctrl None) st_queue).

Lemma reachable_second : reachable st_second.
Proof.
  assert (reachable (set_file other_file (File the_ctrl None) st_queue)) as H1.
  { eapply reachable_step; [exact reachable_queue|]. apply step_file. vm_compute. reflexivity. }
  eapply reachable_step; [exact H1|].
  apply (step_open task other_file (File the_ctrl None) 0); [vm_compute; reflexivity|reflexivity|].
  apply (exec_run (snvm_dev_open task other_file)). vm_compute. reflexivity.
Qed.

(** A data buffer keeps [group_id] 0, so [map_purge_by_owner] takes it for an
    ungrouped map of the task: closing the second file, which never mapped
    anything, frees the buffer that the first file holds. *)
Lemma sibling_close_frees_data :
  ∃ s', snvm_dev_release other_file st_second = Some (0, s') ∧
    is_Some (k_maps st_second !! 7%positive) ∧ k_maps s' !! 7%positive = None ∧
    (o_data_maps <$> k_owners st_second !! 3%positive) = Some [7%positive] ∧
    is_Some (k_owners s' !! 3%positive).
Proof.
  eexists (exec (snvm_dev_release other_file) st_second).
  split; [apply (exec_run (snvm_dev_release other_file)); vm_compute; reflexivity|].
  split; [vm_compute; eexists; reflexivity|]. split; [vm_compute; reflexivity|].
  split; [vm_compute; reflexivity|]. vm_compute. eexists. reflexivity.
Qed.

(** ** Rings in use *)

(** NVM_UNMAP_HOST_MEMORY of the submission ring of a live queue succeeds: the
    map is gone, the queue is still alive and its ring memory is unpinned while
    the controller may still read it. *)
Lemma live_ring_unmapped :
  ∃ s', nvm_unmap_host_memory task the_file the_ctrl sq_va st_queue = Some (0, s') ∧
    k_maps s' !! 5%positive = None ∧
    (λ g, (g_maps g, alive_qids (g_queues g))) <$> k_groups s' !! 4%positive = Some ([6%positive], [5]).
Proof.
  eexists (exec (nvm_unmap_host_memory task the_file the_ctrl sq_va) st_queue).
  split; [apply (exec_run (nvm_unmap_host_memory task the_file the_ctrl sq_va)); vm_compute; reflexivity|].
  split; vm_compute; reflexivity.
Qed.

(** Two different addresses in one page of an unspecified map are both resolved
    to that map: one page becomes the submission and the completion ring. *)
Definition st_shared : snvm :=
  ioctl_on (NVM_MAP_HOST_MEMORY (map_rq sq_va NVM_MAP_KIND_UNSPECIFIED 1)) st_group.
Definition shared_rq : nvm_ioctl_add_user_queue :=
  AddUserQueue 1 1 0 [] (PairIn sq_va (sq_va + 64) :: replicate 15 (PairIn 0 0)).
Lemma rings_alias :
  result (nvm_add_user_queue the_file the_ctrl shared_rq) st_shared = Some 0 ∧
  result (resolve_pairs [5%positive] (req_pairs shared_rq)) st_shared = Some (Some [(5, 5)%positive]).
Proof. split; vm_compute; reflexivity. Qed.

(** ** Controllers and devices *)

(** SNVM_CHRDEV_REMOVE does not look for open files: it frees the controller,
    and the [release] of the file then uses it. *)
Definition st_removed : snvm := exec (snvm_ioctl SNVM_CHRDEV_REMOVE bdf) st_open.
Lemma remove_then_release_faults :
  snvm_ioctl SNVM_CHRDEV_REMOVE bdf st_open = Some (0, st_removed) ∧
  snvm_dev_release the_file st_removed = None.
Proof.
  split; [apply (exec_run (snvm_ioctl SNVM_CHRDEV_REMOVE bdf)); vm_compute; reflexivity|].
  vm_compute. reflexivity.
Qed.

(** SNVM_DEVICE_UNBIND of a device that snvme does not drive keeps the reference
    that looking it up took. *)
Lemma unbind_leaks_reference :
  result (snvm_unbind_driver bdf) st_loaded = Some (- EFAULT) ∧
  pd_refs <$> k_pdevs st_loaded !! 1%positive = Some 1 ∧
  pd_refs <$> k_pdevs (exec (snvm_unbind_driver bdf) st_loaded) !! 1%positive = Some 2.
Proof. split; [|split]; vm_compute; reflexivity. Qed.

(** ** The queue budget *)

(** The group sizes are added in 32 bits, so that two groups of 2^31 queues and
    one of 4 are taken to add up to a budget of 4. *)
Definition wrapping_rq : nvm_ioctl_setup :=
  NvmIoctlSetup 4 0 0 0 0 3 [] ((λ n, NvmQueueGroup 0 n 0 0) <$> [2 ^ 31; 2 ^ 31; 4]).
Lemma budget_wraps : result (nvm_set_ioq_num the_ctrl wrapping_rq) st_file = Some 0.
Proof. vm_compute. reflexivity. Qed.

(** ** Device memory *)

(** The NPU backend takes the address for a file descriptor, but the descriptor
    is first rounded down to a 64 KiB page: every descriptor names descriptor 0. *)
Definition st_fd (fd : Z) : snvm := ioctl_on (NVM_MAP_DEVICE_MEMORY (NvmIoctlMap fd 1 (-1) 0 0 0 [])) st_open.
Lemma npu_descriptor_lost :
  k_log (st_fd 7) = k_log (st_fd 8) ∧ EvDmabufGet 100 ∈ k_log (st_fd 7).
Proof. split; [vm_compute; reflexivity|]. apply list_elem_of_In. vm_compute. tauto. Qed.

(** A dma-buf with fewer pages than asked for is mapped nevertheless, with bus
    address 0 for the pages it does not have. *)
Lemma npu_short_buffer :
  ∃ m, result (@Npu.nvfs_nvidia_p2p_dma_map_pages good demo_dma_buf 1 (P2pTable 17 100)) st_open =
         Some (0, Some m) ∧ pm_addresses m !! 15%nat = Some (2 ^ 44 + 15 * 65536) ∧
       pm_addresses m !! 16%nat = Some 0.
Proof.
  eexists. split; [vm_compute; reflexivity|]. split; vm_compute; reflexivity.
Qed.

(** [map_gpu_ioqueue_memory] does not clear the one slot it fills: when the
    backend refuses, releasing the map reads what was never written. *)
Definition no_dma_buf : Npu.dma_buf_env := {|
  Npu.env_dma_buf_get _ _ := inl (- EBADF);
  Npu.env_dma_buf_attach _ _ _ := inl (- EBADF);
  Npu.env_map_attachment _ _ := inl (- EBADF);
|}.
Lemma queue_memory_uninitialised :
  @nvm_map_device_queue_memory good (@Npu.npu_backend good no_dma_buf) task the_ctrl
    (NvmIoctlMap 0 1 0 0 0 0 []) st_open = None.
Proof. vm_compute. reflexivity. Qed.

(** The rollback of NVM_ADD_USER_QUEUE does not look at the answers to its Delete
    commands.  When the controller refuses one, the queue stays on the device while
    its id goes back to the pool, and the next caller is given that id. *)
Lemma refused_delete_frees_id :
  let s' := exec (nvm_add_user_queue the_file the_ctrl three_rq) st_queue in
  result (nvm_add_user_queue the_file the_ctrl three_rq) st_queue = Some 1 ∧
  elements (dev_run (drop (length (k_log st_queue)) (k_log s')) ∅) = [(false, 7)] ∧
  result (snvm_user_qid_alloc_locked the_ctrl 2) s' = Some (0, [6; 7]).
Proof. vm_compute. done. Qed.
End findings.

(** ** Calls that fail *)

(** A controller object that cannot be allocated leaves its minor taken. *)
Definition starved : kenv := {|
  env_alloc _ := false;
  env_uninit := @env_uninit good;
  env_copy_from := @env_copy_from good;
  env_copy_to _ := false;
  env_gup := @env_gup good;
  env_dma_map_page := @env_dma_map_page good;
  env_dma_mapping_error := @env_dma_mapping_error good;
  env_ida := @env_ida good;
  env_admin := @env_admin good;
  env_find_ns := @env_find_ns good;
  env_iomap := @env_iomap good;
  env_cdev_add := @env_cdev_add good;
  env_device_create := @env_device_create good;
  env_class_create := @env_class_create good;
  env_chrdev_region := @env_chrdev_region good;
  env_register_driver := @env_register_driver good;
  env_device_attach := @env_device_attach good;
|}.
Lemma minor_leaked :
  result (@snvm_ioctl starved SNVM_CHRDEV_CREATE bdf) st_loaded = Some (- ENOMEM) ∧
  k_ctrls (exec (@snvm_ioctl starved SNVM_CHRDEV_CREATE bdf) st_loaded) = ∅ ∧
  k_minor_ida (exec (@snvm_ioctl starved SNVM_CHRDEV_CREATE bdf) st_loaded) = {[0]}.
Proof. split; [|split]; vm_compute; reflexivity. Qed.

(** A result that cannot be copied out is reported as the positive number of
    bytes left, which is not an error for the caller of [ioctl]. *)
Lemma create_reports_bytes :
  result (@snvm_ioctl starved SNVM_CHRDEV_CREATE bdf) st_file = Some 16.
Proof. vm_compute. reflexivity. Qed.

(** ** The user library *)

(** [nvm_queue_clear] accepts any length from 2 to 65536, but the fullness test
    of [nvm_sq_enqueue] is right only for lengths that divide 2^16.  With five
    slots, four commands in flight and the tail wrapped, a fifth is accepted: the
    tail meets the head and the queue looks empty. *)
Lemma full_queue_accepts :
  let q := (nvm_queue_clear (NvmQueue 0 0 0 0 0 0 0 None 0 0) 0 0 false 1 5 0 0).2 in
  let os := [SqEnqueue; SqEnqueue; SqEnqueue; SqEnqueue; SqSubmit; SqUpdate; SqEnqueue] in
  sq_legal 0 SIZEOF_CMD 5 (Fifo 0 0 0) os ∧
  (fifo_run 0 SIZEOF_CMD 5 (Fifo 0 0 0) os).2 = Fifo 1 4 5 ∧
  (fifo_step 0 SIZEOF_CMD 5 (Fifo 1 4 5) SqEnqueue).1 = SqSlot None ∧
  (sq_step (sq_run q os).2 SqEnqueue).1 = SqSlot (Some 0) ∧
  q_tail (sq_step (sq_run q os).2 SqEnqueue).2 = q_head (sq_run q os).2.
Proof. vm_compute. repeat split; discriminate || reflexivity. Qed.

(** NVM_GET_DEV_INFO reports the stride where its header promises the exponent of
    it, which is what the library's doorbell macros take: for the usual stride of
    1 they compute the registers of another queue. *)
Lemma stride_not_exponent :
  nd_db_stride demo_ndev = 1 ∧
  (∀ pd, di_dstrd (dev_info pd demo_ndev "" 9) = 1) ∧
  SQ_DBL 0 2 1 = sq_doorbell 1 4 ∧ sq_doorbell 1 2 = SQ_DBL 0 2 0.
Proof. split; [reflexivity|]. split; [reflexivity|]. split; reflexivity. Qed.

(** ** Sharing out the queues *)

(** A legacy set-up on the state and with the controller of the example of
    SpecIoQueues.v: the user asks for [ucq] queues beside the kernel's [k]. *)
Definition legacy (k ucq : Z) : ioq :=
  witness.start<{i_nr_allocated_queues := k + 1}><{i_queues_len := k + 1}><{i_cap_kernel_ioq := 0}>
    <{i_use_user_allocated := true}><{i_nr_user_allocated_cq := ucq}><{i_nr_user_allocated_sq := ucq}>.

(** With more user queues than the grant leaves room for, the legacy request is
    dropped but the kernel keeps the whole grant: [dev->queues], allocated for the
    kernel's two queues, is written past its end. *)
Lemma legacy_overrun :
  divide_grant 5 10 (legacy 2 8) = Some (5, (legacy 2 8)<{i_use_user_allocated := false}>) ∧
  i_queues_len (legacy 2 8) = 3 ∧ s_nvme_setup_io_queues (E := witness.env) 20 (legacy 2 8) = None.
Proof. vm_compute. repeat split. Qed.

(** With everything granted, three queues for the kernel and two for the user,
    the kernel is left two: the admin queue is subtracted twice. *)
Lemma full_grant_shrinks :
  (λ r, (r.1, i_nr_allocated_queues r.2, i_nr_user_use_cq r.2)) <$> divide_grant 5 5 (legacy 3 2) =
  Some (2, 3, 2).
Proof. vm_compute. reflexivity. Qed.

(** The offset of the dma-buf page loop is an [unsigned int]: in a segment of 4 GiB - 1
    it starts again at the first page. *)
Lemma npu_offset_wraps base :
  0 ≤ base < 2 ^ 63 →
  Npu.sg_pages 2 base (2 ^ 32 - 1) (2 ^ 32 - 65536) = [base + (2 ^ 32 - 65536); base].
Proof.
  intros Hb. cbn [Npu.sg_pages]. change (2 ^ 32 - 65536 <? 2 ^ 32 - 1) with true.
  change (u32 (2 ^ 32 - 65536 + Npu.NPU_PAGE_SIZE)) with 0. change (0 <? 2 ^ 32 - 1) with true.
  rw /u64 !Z.mod_small; [|lia..]. by rw Z.add_0_r.
Qed.

(** ** The driver's own queues *)

(** [nvme_init_queue] does not clear the shadow doorbells, which stay allocated
    over a reset: with the position 1 left from before, the first command after
    the reset is never announced to the controller. *)
Lemma stale_shadow_doorbell :
  let q := NvmeQueue 0 4 0 (replicate 4 []) (replicate 4 (Cqe 0 0 0 0 0)) 0 0 0 0 None None 0 0 in
  let q := nvme_init_queue (Some (λ _, 1)) (λ _, 0) 1 q 2 in
  (nvme_submit_cmd q [1] true).1 = None ∧ nq_sq_tail (nvme_submit_cmd q [1] true).2 = 1 ∧
  nq_dbbuf_sq_db q = nq_dbbuf_sq_db (nvme_submit_cmd q [1] true).2.
Proof. vm_compute. repeat split. Qed.

(** The room for list pointers is computed from [NVME_MAX_KB_SZ] as if it were
    bytes: one pointer, where a request of 4 MiB in 127 segments, the largest the
    driver accepts, needs two; the second is stored past the end. *)
Definition max_sgl : list scatterlist := ((λ i, Sg (i * 0x100000) 0x8000) <$> seqZ 0 126) ++ [Sg 0x8000000 0x10000].
Definition full_pool (small : bool) (j : nat) : option prp_list :=
  Some (PrpList ((Z.of_nat j + 1) * 0x1000) (replicate (pool_entries small) 0)).
Lemma iod_list_overflow :
  nvme_pci_npages_prp = 1 ∧ iod_list_room NVME_MAX_SEGS = 1%nat ∧ length max_sgl = 127%nat ∧
  sum_list_with (λ sg, Z.to_nat (sg_dma_len sg / 4096)) max_sgl = 1024%nat ∧
  nvme_pci_setup_prps full_pool 1 max_sgl (NVME_MAX_KB_SZ * 1024) (NvmeIod (-1) 0 []) = None ∧
  (λ r, iod_npages r.1.1.2) <$> nvme_pci_setup_prps full_pool 2 max_sgl (NVME_MAX_KB_SZ * 1024) (NvmeIod (-1) 0 []) = Some 2.
Proof. vm_compute. repeat split. Qed.

(** An element that does not end at a page boundary is reported as an error, but
    the list page taken for the request is not given back. *)
Lemma bad_sgl_leaks :
  (λ r : mapping_result, (r.1.1.1, omap acquired r.2, omap released r.2)) <$>
    nvme_map_data full_pool (λ _ _, None) false 0 1
      (Request 2 40000 0 0 false None true 2 false [Sg 0x10000 6000; Sg 0x20000 40000]) 0 0 =
  Some (BLK_STS_IOERR, [RIod; RSg false 2; RPool true 0x1000], [RSg false 2; RIod]).
Proof. vm_compute. reflexivity. Qed.
