(* ===== verification/FindingsParallel.v ===== *)
(** * Where the shared queues fall short

    Runs of the models of nvm_parallel_queue.h that leave the assumptions of
    SpecParallel.v and SpecParallelCq.v. *)
From S2P Require Import Prelude.
From S2P Require Import ParallelQueue.
From S2P Require Import ParallelCq.
From S2P Require Import SpecParallelCq.

(** ** An id that is reused at once *)

Definition any_act (a : cq_witness.action) (s : cq) : option cq :=
  match a with cq_witness.AGet id => get_cid id s | _ => cq_witness.act a s end.
Fixpoint any_run (l : list cq_witness.action) (s : cq) : option cq :=
  match l with [] => Some s | a :: l => s ← any_act a s; any_run l s end.
Lemma any_run_steps l : ∀ s s', any_run l s = Some s' → rtc (cstep (λ _ _, True)) s s'.
Proof.
  induction l as [|a l IH]; intros s s'; simpl; [by intros [= ->]|]. destruct (any_act a s) as [s1|] eqn:Ea; [|done]. simpl.
  intros Hr. eapply rtc_l; [|by apply IH]. destruct a; simpl in Ea; [by eapply cstep_get|by eapply cstep_call|].
  destruct (_ && _) eqn:Eb; [|done]. apply andb_true_iff in Eb as [H1 H2].
  eapply cstep_post; [|done]. split; [by apply Z.leb_le|by apply Z.ltb_lt].
Qed.

(** Call 0 comes and goes.  Calls 1 and 2 find and mark their entries, call 2 sweeps
    both marks and is delayed before it stores the new head; call 1 sees its mark
    gone, leaves and gives back id 7, which call 3 takes. *)
Definition stale_trace : list cq_witness.action :=
  [cq_witness.AGet 5; cq_witness.APost 0 1 0] ++ replicate 22 (cq_witness.ACall 0) ++
  [cq_witness.AGet 7; cq_witness.AGet 8; cq_witness.APost 1 2 0; cq_witness.APost 2 3 0] ++
  replicate 6 (cq_witness.ACall 1) ++ replicate 13 (cq_witness.ACall 2) ++ replicate 4 (cq_witness.ACall 1) ++
  [cq_witness.AGet 7] ++ replicate 2 (cq_witness.ACall 3).
Definition stale : cq := default (cq_init 2 2) (any_run stale_trace (cq_init 2 2)).

(** The last loop of [cq_dequeue], which should keep call 1 until the head is past
    its entry, is given no position by its callers and ends at once when the head is
    not 0: call 3 takes the completion of call 1 for its own, though the controller
    has not completed its command. *)
Lemma stale_completion :
  rtc (cstep (λ _ _, True)) (cq_init 2 2) stale ∧
  (cc_pc <$> k_calls stale) = [CDone 0; CDone 1; CSqEntry 2 1 2; CTail 1] ∧ k_posted stale = [0; 1; 2]%nat.
Proof.
  split; [apply (any_run_steps stale_trace); vm_compute; reflexivity|]. split; vm_compute; reflexivity.
Qed.

(** ** Tickets *)

(** The counter of a slot has grown by two in each of the 2^30 rounds of a queue of
    four slots when the 32-bit ticket starts again at 0: the call waits for 0. *)
Lemma ticket_wraps :
  let s := (pq_init 2 (λ _, (0, 0)))<{p_tickets := λ _, 2 * (2 ^ 32 / 4)}><{p_in_ticket := u32 (2 ^ 32)}> in
  call_step 0 (sq_enqueue (1, 2) s) = None.
Proof. vm_compute. reflexivity. Qed.

(** [move_tail] counts in [head_lock], which then never is [UNLOCKED] for a
    [sq_dequeue] of the same queue. *)
Lemma head_lock_counted :
  let s := set_pc 0 (PMoved 0 1) (sq_enqueue (1, 2) (pq_init 2 (λ _, (0, 0)))) in
  p_head_lock <$> call_step 0 s = Some LOCKED.
Proof. vm_compute. reflexivity. Qed.
