(* ===== verification/FindingsRequest.v ===== *)
(** * Where the life of a request falls short

    Runs of the models of ReqLife.v, ReqTimeout.v and Lifecycle.v. *)
From S2P Require Import Prelude PhaseRing UserCmd KernelRing KernelCq KernelPrp KernelMap Lifecycle ReqSetup ReqLife.
From S2P Require Import ReqTimeout SpecKernel ReqInv SpecRequest.

(** [snvme_cleanup_cmd] does not clear [RQF_SPECIAL_PAYLOAD]: a discard whose first
    attempt is to be retried is still marked with the payload that was freed, and
    failing it before it is set up again frees it once more. *)
Lemma payload_freed_twice :
  let rq := req_witness.req REQ_OP_DISCARD [(8, 0x1000)] in
  match snvme_setup_cmd false (Some req_witness.ns) (Some 0x5000) rq req_witness.pl with
  | Some (STS_OK, rq, h) =>
    match snvme_complete_rq req_witness.cenv0 (Some req_witness.ns) (rq<{q_nvme := (q_nvme rq)<{rq_status := 0x281}>}>) h with
    | Some (Requeued _, rq, h, _) => nvme_host_path_error req_witness.cenv0 (Some req_witness.ns) rq h = None
    | _ => False
    end
  | _ => False
  end.
Proof. vm_compute. reflexivity. Qed.

(** The command of a request that is sent again is not cleared, and mapping it with
    PRP entries does not reset the transfer type: when [sgl_threshold] was changed
    in between, the command has PRP entries and says SGL. *)
Definition sgl_env (threshold : Z) : qenv :=
  QEnv req_witness.cenv0 true NVME_CTRL_LIVE false false false false false None SpecKernel.witness.pool SpecKernel.witness.spool true threshold
    req_witness.segments None 0.
Lemma stale_sgl_flag :
  let d := req_witness.start REQ_OP_READ [] in
  let d := req_witness.after (nvme_queue_rq (sgl_env 32768) (Some req_witness.ns) 1 true d) in
  let d := default d ((λ r, r.2) <$> nvme_pci_complete_rq (sgl_env 32768) (Some req_witness.ns) (answered 0x281 0 d)) in
  let d := req_witness.after (nvme_queue_rq (sgl_env 0) (Some req_witness.ns) 1 true d) in
  im_use_sgl (d_map d) = false ∧ field 8 8 (word 0 (q_cmd (d_req d))) = NVME_CMD_SGL_METABUF.
Proof. vm_compute. split; reflexivity. Qed.

(** The request is marked as aborted before the abort command is allocated: without
    memory nothing is sent, and the next timeout resets the controller although the
    command was never aborted. *)
Lemma abort_not_sent :
  let s := new_request 1 11 (t_init (NvmeCtrl NVME_CTRL_LIVE None false false 0) 3) in
  let e := TEnv 0 false false false in
  t_calls <$> (s ← nvme_timeout e 0 s; s ← timeout_dec 0 s; s ← timeout_alloc false 0 s; s ← timeout_undo 0 s; nvme_timeout e 0 s) =
  Some [CallPoll; CallPoll; CallDevDisable false; CallResetCtrl].
Proof. vm_compute. reflexivity. Qed.

(** A device that does not leave its low power state makes [nvme_resume] queue a reset
    although it never set the RESETTING state.  When the command timed out, another
    thread's reset runs already: the work is queued beside the running one, which
    brings the controller up; the second run finds it LIVE and removes it, though
    nobody asked for a removal. *)
Fixpoint life_run (l : life) (actions : list Lifecycle.action) : option life :=
  match actions with [] => Some l | a :: actions => l ← Lifecycle.act a l; life_run l actions end.
Lemma resume_beside_reset :
  state_of <$> life_run (Lifecycle.snvme_init_ctrl None)
    ([AResetClaim; AResetQueue; AWorkStart; AWork true; AResumeReset] ++ replicate 3 (AWork true)) = Some NVME_CTRL_LIVE ∧
  state_of <$> life_run (Lifecycle.snvme_init_ctrl None)
    ([AResetClaim; AResetQueue; AWorkStart; AWork true; AResumeReset] ++ replicate 3 (AWork true) ++
     [AWorkStart; AWork true; AWork true]) = Some NVME_CTRL_DELETING.
Proof. vm_compute. split; reflexivity. Qed.
