(* ===== verification/FindingsHostMem.v ===== *)
(** * The host memory buffer: where the code departs from its intent

    Each theorem is a run of the operations of [HostMem] on a machine that answers as
    stated. *)
From S2P Require Import Prelude KernelPrp HostMem HostMemInv SpecHostMem.

(** The second chunk cannot be allocated, so the table has three entries of which
    one is used: [nvme_free_host_mem] frees its 48 bytes as 16. *)
Definition second_fails : hmb_env := demo_env 128 (λ t, bool_decide (4 ≤ t)%nat) (λ _ _, 0) 0.
Theorem table_freed_short :
  (h_misfreed (after second_fails [OpReset (HmbWish 3072 1024 0 0); OpRemove])).*1.*2 = [48] ∧
  (h_misfreed (after second_fails [OpReset (HmbWish 3072 1024 0 0); OpRemove])).*2 = [16].
Proof. by vm_compute. Qed.

(** Five pages are preferred and cannot be had in one piece: the chunks tried next are
    two and a half pages, described to the controller and freed as two. *)
Definition first_fails : hmb_env := demo_env 128 (λ t, bool_decide (t = 3)%nat) (λ _ _, 0) 0.
Theorem half_pages_lost :
  let s := after first_fails [OpReset (HmbWish 5 0 0 0)] in
  h_host_mem_size s = 5 * 4096 ∧ hd_size <$> default [] (h_host_mem_descs s) = [2; 2] ∧
  (h_misfreed (after first_fails [OpReset (HmbWish 5 0 0 0); OpRemove])).*2 = [8192; 8192].
Proof. by vm_compute. Qed.

(** A controller that refuses with a status to give the buffer up is suspended all the
    same; when it refuses the buffer on resumption, the memory it uses is freed. *)
Definition stubborn : hmb_env := demo_env 128 (λ _, false) (λ _ c, if nf_dword11 c =? 1 then 0 else 6) 0.
Theorem resume_frees_memory_in_use :
  ∃ s, hreach (E := stubborn) s ∧ h_using s ≠ None ∧ h_live s = ∅.
Proof.
  exists (after stubborn [OpReset demo_wish; OpSuspend; OpResume]). split; [|split; [vm_compute; discriminate|vm_compute; reflexivity]].
  apply (run_reach [OpReset demo_wish; OpSuspend; OpResume] (h_probe 4)); [apply hreach_probe|by repeat constructor|].
  vm_compute. reflexivity.
Qed.

(** A suspension that fails after the buffer was taken away does not give it back:
    the device stays in use, with the memory allocated, and the controller without it. *)
Definition no_power : hmb_env := demo_env 128 (λ _, false) (λ _ _, 0) (- EIO).
Theorem failed_suspend_keeps_buffer_off :
  let s := after no_power [OpReset demo_wish; OpSuspend] in
  h_suspended s = false ∧ h_using s = None ∧ h_hmb s = false ∧ h_host_mem_size s = 12 * SZ_1M ∧ h_live s ≠ ∅.
Proof. by vm_compute. Qed.

(** Writing 1 to [hmb] reports success although the controller refused the buffer. *)
Definition refuses : hmb_env := demo_env 128 (λ _, false) (λ _ _, 6) 0.
Theorem hmb_store_hides_status :
  ∃ s, run_op (E := refuses) (OpStore (Some true) 2) (after refuses [OpReset demo_wish]) = Some (2, s) ∧
    h_hmb s = false ∧ h_using s = None ∧ no_buffer s.
Proof. eexists. split; [vm_compute; reflexivity|]. by vm_compute. Qed.

(** After a reset whose Set Features was refused the flag [hmb] still says the buffer
    is in use, so writing 1 to the attribute does nothing. *)
Theorem hmb_flag_stale :
  let s := after stubborn [OpReset demo_wish; OpReset demo_wish] in
  h_hmb s = true ∧ h_using s = None ∧ no_buffer s ∧
  run_op (E := stubborn) (OpStore (Some true) 2) s = Some (2, s).
Proof. by vm_compute. Qed.

(** [nvme_resume] does not look at [npss]: with a power state recorded and accepted it
    schedules no reset, whatever [npss] is. *)
Theorem resume_ignores_npss (E : hmb_env) s :
  h_npss s = 0 → h_last_ps s ≠ U32_MAX → e_set_power_state (h_tick s) = 0 → hmpre (h_wish s) = 0 →
  nvme_resume s = Some (0, s<{h_tick := S (h_tick s)}>).
Proof.
  intros _ Hl Hp Hh. rw /nvme_resume /ask /mbind /K_bind /gets /=. apply Z.eqb_neq in Hl. by rw Hl Hp /= Hh.
Qed.
