(* ===== verification/FindingsDevLife.v ===== *)
(** * The life of a device: where it ends in a fault

    Runs of [DevLife] on machines where one step fails that [dl_env_laws] assumes
    not to. *)
From S2P Require Import Prelude.
From S2P Require Import DevLife.
From S2P Require Import SpecDevLife.

(** When [blk_mq_init_queue] fails [nvme_alloc_admin_tags] leaves the error pointer in
    [ctrl.admin_q]; giving the controller up then uses it as a queue. *)
Definition no_admin_queue : dl_env := {|
  f_ok _ := true; f_registered _ := true; f_ioremap _ := true; f_init_queue _ := false; f_dbbuf _ _ := true;
  f_dead _ := false; f_yes _ := true; f_host_mem _ := (0, true); f_io _ _ := IoUp 0 3 3 true true;
  f_queues_len := 4; f_bar_len := 0x4000; f_db_stride := 1;
|}.
Theorem admin_queue_error_used :
  may DReset (run_from no_admin_queue [DProbe]) = true ∧
  run_dop (E := no_admin_queue) DReset (run_from no_admin_queue [DProbe]) = None.
Proof. by vm_compute. Qed.

(** With a large doorbell stride the BAR is mapped again by the first reset.  When
    that fails [dev->bar] is NULL, and giving the controller up reads its status
    register. *)
Definition remap_fails : dl_env := {|
  f_ok _ := true; f_registered _ := true; f_ioremap t := bool_decide (t < 6)%nat; f_init_queue _ := true;
  f_dbbuf _ _ := true; f_dead _ := false; f_yes _ := true; f_host_mem _ := (0, true); f_io _ _ := IoUp 0 3 3 true true;
  f_queues_len := 4; f_bar_len := 0x100000; f_db_stride := 0x8000;
|}.
Theorem unmapped_bar_read :
  may DReset (run_from remap_fails [DProbe]) = true ∧
  run_dop (E := remap_fails) DReset (run_from remap_fails [DProbe]) = None.
Proof. by vm_compute. Qed.

(** When the controller refuses the shadow doorbells while all queues are online,
    [nvme_dbbuf_set] goes one entry beyond [dev->queues]. *)
Definition dbbuf_refused : dl_env := {|
  f_ok _ := true; f_registered _ := true; f_ioremap _ := true; f_init_queue _ := true; f_dbbuf _ _ := false;
  f_dead _ := false; f_yes _ := true; f_host_mem _ := (0, true); f_io _ _ := IoUp 0 4 4 true true;
  f_queues_len := 4; f_bar_len := 0x4000; f_db_stride := 1;
|}.
Theorem dbbuf_overrun :
  may DReset (run_from dbbuf_refused [DProbe]) = true ∧
  run_dop (E := dbbuf_refused) DReset (run_from dbbuf_refused [DProbe]) = None.
Proof. by vm_compute. Qed.
