(* ===== verification/FindingsNamespace.v ===== *)
(** * Findings about namespaces

    Inputs for which the code of Namespace.v, NsIdent.v and NsDisk.v does not do what
    it means to. *)
From S2P Require Import Prelude Lifecycle ReqSetup ReqLife NsIdent NsDisk Namespace NsInv NsOps NsAlloc NsScan NsSteady SpecNamespace.

(** ** Descriptors *)

(** Descriptors of unknown kinds that leave one byte of the page: its length is read
    behind the page. *)
Definition overrun_descs : list ns_desc := replicate 15 (DOther 9 (replicate 255 1)) ++ [DOther 9 (replicate 206 1)].
Lemma descs_read_behind_page :
  Forall desc_ok overrun_descs ∧ length (encode_descs overrun_descs ++ [0]) = 4096%nat ∧
  nvme_identify_ns_descs (NVME_VS 1 4 0) 0 false true (0, encode_descs overrun_descs ++ [0]) no_ids = None.
Proof.
  split; [|split; vm_compute; reflexivity].
  apply Forall_app. split; [apply Forall_replicate|apply Forall_singleton]; (split; [right; lia|rw length_replicate; lia]).
Qed.

(** A UUID whose descriptor starts at byte 4085 is copied from behind the page too. *)
Definition straddling_page : list Z :=
  encode_descs (replicate 15 (DOther 9 (replicate 255 1)) ++ [DOther 9 (replicate 196 1)]) ++ [3; 16; 0; 0; 1; 1; 1; 1; 1; 1; 1].
Lemma descs_copy_behind_page :
  length straddling_page = 4096%nat ∧
  nvme_identify_ns_descs (NVME_VS 1 4 0) 0 false true (0, straddling_page) no_ids = None.
Proof. split; vm_compute; reflexivity. Qed.

(** ** Scans that do not end *)

Section scans.
Context {E : ns_env} {L : ns_env_laws E}.

Lemma scan_page_goes_on held c l : ∀ s C prev, ns_inv held s → n_rm s = [] → n_ctrls s !! c = Some C → Forall (.≠ 0) l →
  wp (scan_page c l prev) (λ r s', r.1 = false ∧ safe held s s') s.
Proof.
  induction l as [|n l IH]; intros s C prev I Hrm HC Hl; simpl; [apply wp_ret; split; [done|by apply safe_refl]|].
  apply Forall_cons in Hl as [Hn Hl]. destruct (Z.eqb_spec n 0); [done|].
  apply wp_bind. eapply wp_mono; [by eapply wp_validate_or_alloc|]. intros _ s1 (I1 & O1 & _).
  pose proof (safe_only _ _ _ _ _ Hrm I1 O1) as S1. pose proof S1 as (_ & R1 & F1). destruct (frame_ctrl _ _ _ _ F1 HC) as (C1 & HC1 & _).
  apply wp_bind. eapply wp_mono; [by eapply wp_remove_between|]. intros prev' s2 (S2 & _). pose proof S2 as (I2 & R2 & F2).
  destruct (frame_ctrl _ _ _ _ F2 HC1) as (C2 & HC2 & _). eapply wp_mono; [by eapply IH|].
  intros ? s3 [Hr S3]. split; [done|]. eapply safe_trans; [exact S1|]. by eapply safe_trans.
Qed.

(** A controller whose pages have no zero keeps the scan, and [scan_lock], for ever. *)
Lemma scan_never_ends held c fuel : (∀ t prev, ∃ l, e_list t c prev = (0, l) ∧ Forall (.≠ 0) l) →
  ∀ s C prev, ns_inv held s → n_rm s = [] → n_ctrls s !! c = Some C →
  wp (scan_pages fuel c prev) (λ r _, r = None) s.
Proof.
  intros Hlist. induction fuel as [|fuel IH]; intros s C prev I Hrm HC; cbn [scan_pages]; [by apply wp_ret|].
  apply wp_bind, wp_ask_ns. destruct (Hlist (n_tick s) prev) as (l & -> & Hl). cbv iota beta. change (c_true 0) with false. cbv iota.
  pose proof (safe_tick held s (S (n_tick s)) I Hrm) as (I1 & R1 & F1).
  apply wp_bind. eapply wp_mono; [by eapply scan_page_goes_on|]. intros [last p] s2 [Hlast (I2 & R2 & F2)]. simpl in Hlast. subst last.
  destruct (frame_ctrl _ _ _ C F2 HC) as (C2 & HC2 & _). by eapply IH.
Qed.

(** Neither does a scan one by one when the controller reports 2^32 - 1 namespaces. *)
Lemma sequential_never_ends held s c C :
  (∀ t, e_alloc t = true) → (∀ t, e_identify_ctrl t c = (0, U32_MAX)) → ns_inv held s → n_rm s = [] → n_ctrls s !! c = Some C →
  wp (nvme_scan_ns_sequential c) (λ r _, r = false) s.
Proof.
  intros Ha Hid I Hrm HC. rw /nvme_scan_ns_sequential. apply wp_bind, wp_ask_ns. rw Ha. cbn [negb]. cbv iota.
  apply wp_bind, wp_ask_ns. rw Hid. cbv iota beta. change (c_true 0) with false. cbv iota. apply wp_bind.
  apply (wp_kfor _ _ (λ _ s', safe held s s')).
  - eapply safe_trans; [by apply safe_tick|]. apply safe_tick; [by apply inv_tick|done].
  - intros n ys s1 S2. pose proof S2 as (I2 & R2 & F2). destruct (frame_ctrl _ _ _ _ F2 HC) as (C2 & HC2 & _).
    eapply wp_mono; [by eapply wp_validate_or_alloc|]. intros _ s3 (I3 & O3 & _). eapply safe_trans; [exact S2|]. by eapply safe_only.
  - intros s1 _. rw Z.eqb_refl. by apply wp_ret.
Qed.
End scans.

(** ** Error paths *)

(** A status with "do not retry" but no code makes [ERR_PTR(0)] of a failed command. *)
Lemma null_head {E : ns_env} (s : nst) : e_errno STS_OK = 0 → err_ptr (A := positive) NVME_SC_DNR s = None.
Proof. intros He. rw /err_ptr. change (nvme_error_status NVME_SC_DNR) with STS_OK. by rw He. Qed.

(** Removing a namespace whose character device could not be added deletes it all the same. *)
Lemma cdev_deleted_unadded {E : ns_env} s p N H :
  n_ns s !! p = Some N → ns_removing N = false → ns_cdev N = false → n_heads s !! ns_head N = Some H → nvme_ns_remove p s = None.
Proof.
  intros HN Hr Hc HH. rw /nvme_ns_remove /ns_at /mbind /K_bind /gets /from_option_k HN Hr /set_ns /modify.
  destruct s as [m hs hl ida sr ct rm op nx t]. ns_norm. rw /unlink_sibling /head_at /mbind /K_bind /gets /from_option_k HH. ns_norm.
  rw /set_head /modify /when. ns_norm. case_bool_decide; ns_norm; rw /nvme_cdev_del /ns_at /mbind /K_bind /gets /from_option_k /=
    lookup_insert_eq /= Hc //.
Qed.

(** ** Limits *)

(** A format with blocks below 512 bytes, or one not available, is shifted by a
    negative count. *)
Lemma small_blocks_undefined ctrl ik a id d : d_lba_shift d < 9 → nvme_update_disk_info ctrl ik a id d = None.
Proof.
  intros Hd. rw /nvme_update_disk_info /nvme_lba_to_sect /shl64 /SECTOR_SHIFT. destruct (Z.leb_spec 0 (d_lba_shift d - 9)); [lia|done].
Qed.

(** The limit the quirk for deallocated blocks sets is overwritten with 0. *)
Lemma write_zeroes_off ctrl ik a id d d' : nvme_update_disk_info ctrl ik a id d = Some d' → d_max_write_zeroes d' = 0.
Proof.
  rw /nvme_update_disk_info. destruct (nvme_lba_to_sect _ _) as [cap|]; [|done]. destruct (shl32 _ _) as [one|]; [|done].
  cbn [mbind option_bind]. destruct (if PAGE_SHIFT <? _ then _ else _) as [cap' bs].
  destruct (nvme_setup_streams_ns _ _ _ _ _) as [[[d1 b1] o1]|]; [|done]. cbn [mbind option_bind].
  destruct (if c_true _ then (u32 _, _) else _) as [ph io]. destruct (if c_true _ then _ else _) as [d2 cap2]. by intros [= <-].
Qed.
