(* ===== verification/FindingsTopo.v ===== *)
(** * Findings about the topology table

    Inputs for which the code of GpuTopo.v does not do what it means to. *)
From S2P Require Import Prelude GpuTopo GpuTopoInv.

(** A link of the fifth generation is ranked as if it had no bandwidth: its speed is
    missing in the table. *)
Definition with_link (s : Z) : pci_dev := PciDev (Some (0, 3)) false 0 PCI_CLASS_STORAGE_EXPRESS 0x144d (Some s) None.
Lemma gen5_without_bandwidth :
  nvfs_pcie_link_speed_table !! 5%nat = Some PCI_SPEED_UNKNOWN ∧
  bw_of (peer_entry (with_link 0x44)) = Some 16 ∧ bw_of (peer_entry (with_link 0x45)) = Some 0.
Proof. split_and!; vm_compute; reflexivity. Qed.

(** The length of a peer's path that fills its row is taken for 0. *)
Lemma full_path_counts_nothing info row : length row = 16%nat → Forall (.≠ 0) row → info ∉ row →
  scan_peer MAX_PCI_DEPTH 0 row info = Some (16%nat, 0, false).
Proof.
  intros Hlen Hnz Hni. assert (∀ n pre l, row = pre ++ l → length l = n →
    scan_peer n (length pre) row info = Some ((length pre + n)%nat, 0, false)) as Hgen; [|by apply (Hgen 16%nat [] row)].
  induction n as [|n IH]; intros pre [|v l] Hrow Hl; simplify_eq/=; [by rw Nat.add_0_r|].
  apply Forall_app in Hnz as [_ [Hv _]%Forall_cons]. rw list_lookup_middle //=. destruct (Z.eqb_spec v 0); [done|].
  destruct (Z.eqb_spec info v) as [->|]; [destruct Hni; set_solver|].
  specialize (IH (pre ++ [v]) l). rw -app_assoc length_app /= in IH. replace (S (length pre)) with (length pre + 1)%nat by lia.
  rw IH //. by replace (length pre + 1 + length l)%nat with (length pre + S (length l))%nat by lia.
Qed.

(** The device with address 0000:00:00.0 is found in every empty slot, and ends a scan
    as if the table were full. *)
Lemma address_zero {E : pci_env} (t : topo) : gpu_info_table t = replicate 64 0 →
  nvfs_create_gpu_hash_entry 0 t = Some T_UINT_MAX ∧ ∃ i, nvfs_get_gpu_hash_index 0 t = Some i ∧ 0 ≤ i < 64.
Proof.
  intros Ht. split; [done|]. rw /nvfs_get_gpu_hash_index /_lookup_index_entry Ht.
  destruct (probe_full (λ v, Z.land v NVFS_PDEVINFO_INFO_MASK =? 0) (replicate 64 0) 64 (hashfn 0 mod 64)) as (r & Hr & Hcase);
    [done|done|by apply Z.mod_pos_bound|]. exists r. split; [exact Hr|]. destruct Hcase as [[? _]|[_ Hno]]; [done|]. by specialize (Hno 0%nat 0 eq_refl).
Qed.
